(* ===== verification/_CoqProject ===== *)
-Q . S2P
Prelude.v
Machine.v
Pmm.v
Vmm.v
HigherHalf.v
MemoryManager.v
SelfTests.v
KernelHeap.v
SharedSpace.v
Bytes.v
Task.v
Queues.v
SleepQueue.v
Scheduler.v
SchedulerInv.v
SpinLock.v
Text.v
Process.v
Acpi.v
Apic.v
Framebuffer.v
Serial.v
Boot.v
Startup.v
Helpers.v
Gdt.v
Idt.v
Keyboard.v
Digests.v
Sha3.v
Blake2b.v
Argon2.v
Argon2Api.v
Aes.v
AesGcm.v
Rng.v
Exceptions.v
Devices.v
Console.v
KernelStart.v
