(* ===== verification/Prelude.v ===== *)
(** * Verification of the crap-os kernel

    crap-os is a 64-bit x86 kernel in Rust ([src/crap_os/src]) with a UEFI
    boot loader in C ([src/crap_loader]).  The boot loader hands the kernel a
    memory map; [main.rs] builds the physical page allocator, the page tables
    and the heap, switches to the higher half, programs the interrupt
    controllers and starts a preemptive scheduler whose tasks belong to threads
    and processes.  A library of cryptographic routines and formatting helpers
    serves the rest.  This development models the Rust code, component by
    component, as executable definitions over an explicit state and proves what
    makes each component correct.

    ** How code is modelled

    Code that may panic returns an [outcome]: a value, a panic with its message,
    or exhausted fuel.  A struct is a [Record], an enum an [Inductive], a
    machine word a [Z] with the wrap-around written out (the kernel is built
    with [-C opt-level=2], where arithmetic wraps).  Physical memory is a finite
    map from addresses to bytes ([Machine.v]); the code's pointer accesses are
    loads and stores in it.  A fixed-size array is a list with checked access.
    A static becomes a field of the state its users pass on.  A loop that is not
    structurally recursive carries fuel (the length of the queue it drains plus
    one, the number of pages plus one, the length of the input plus one), and
    the theorems prove that this fuel is enough: they state that the code
    returns, and what it returns.  What an operation gets from code outside the
    repository (layouts the compiler chooses, random bytes, port reads) is an
    argument; so are, in [Process.v], the addresses of new objects, which
    [Startup.v] then takes from the heap.

    ** The files

    - [Prelude.v]: outcomes, machine integers, bit masks, counted loops.
      [Bytes.v]: slices, words and bytes, and loops over arrays as folds.
      [Text.v]: the [str] type of Rust, with the UTF-8 validation behind it.
    - [Machine.v]: memory and the registers of the processor.
    - [Pmm.v] ([memory_manager/pmm.rs]): the page allocator, a free list
      threaded through the free pages.  It refines a stack of free frames, and
      after [init] no allocation overlaps a reserved region.
    - [Vmm.v] ([vmm.rs]): the four-level page tables.  Mapping and unmapping are
      stated through the translation they produce for every address, with the
      tables' ownership as invariant; [get_physical_addr] refines the hardware
      walk.
    - [HigherHalf.v] and [MemoryManager.v] ([vmm.rs], [memory_manager/mod.rs],
      [manager.rs], [address_space.rs]): the boot-time mappings, the switch to
      the higher half, the interface of the memory manager and the address space
      of a user process.  [SelfTests.v] ([tests/memory.rs]): the kernel's own
      test of the memory manager passes and leaves no trace.
    - [Boot.v], [Startup.v], [Devices.v], [KernelStart.v] ([main.rs]): [_start].
      [Boot.v] goes from the boot loader to the first pages of the heap: the page
      budget of the allocator pays for both mapping phases, and the kernel stays
      mapped.  [Devices.v] sets up descriptor tables, timers and interrupt
      controllers.  [Startup.v] creates the processes: each [Arc], stack and list
      buffer is an allocation of the heap, which grows on the way, also while the
      user process already shares the kernel's tables.  [KernelStart.v] runs the
      parts in sequence.
    - [Console.v] ([macros.rs], [main.rs], [process_manager/manager.rs]): the
      printing macros with their locks and formats, the messages of [_start], the
      process listing, and the panic handler.
    - [KernelHeap.v] ([kernel_heap.rs]): the sorted free list of the heap, with
      splitting, alignment and coalescing: allocations are disjoint, freed
      blocks are merged with their neighbours.  [SharedSpace.v]: the heap and the
      page tables in one memory, and what the growth of the heap does to the
      kernel's address space and to that of a user process.
    - [Task.v] ([task.rs], [switcher.rs]): tasks, their first stack frame, and
      the assembly of the context switch on the registers and the stack.
    - [Queues.v]: the ring buffers behind the class [BoundedFifo]; their clients
      use the class only.  [SleepQueue.v] ([sleep_queue.rs]): the delta queue,
      a refinement of absolute timers.
    - [Scheduler.v] ([scheduler.rs], [reaper.rs], [system_core],
      [processor_control/idt.rs]): every operation of the scheduler, the reaper
      and the timer interrupt.  [SchedulerInv.v]: the invariant of all reachable
      states, safety of every event, what a scheduling pass does, and that a
      task's memory is freed only after its death.
    - [SpinLock.v] ([spinlock.rs]): the locks as interleaved atomic steps of
      threads, processors and interrupt handlers.
    - [Process.v] ([process_manager]): processes and threads on top of the
      scheduler: ownership, links and identifiers.
    - [Acpi.v] ([hardware_manager/acpi.rs], [processor_control/topology.rs],
      [per_cpu.rs]): table discovery, the MADT walk, and per-processor storage.
      [Apic.v] ([apic.rs], [hpet.rs], [main.rs]): the HPET, the interrupt
      controllers with their registers, timer calibration.
    - [Gdt.v], [Idt.v], [Exceptions.v] ([gdt.rs], [idt.rs]): descriptor tables
      as the processor decodes them, the naked interrupt stubs as instruction
      lists, and the handler of every vector on the state of the scheduler and
      the keyboard driver, with the text it prints and the state in which it
      acknowledges the interrupt.
    - [Framebuffer.v], [Serial.v] ([framebuffer.rs], [serial.rs]): text output,
      as pixel writes and as port accesses.
    - [Helpers.v] ([helper_functions.rs]): number formatting, hexadecimal and
      Base64 text.
    - [Keyboard.v] ([hardware_manager/keyboard.rs], the handler of [idt.rs], the
      reader of [main.rs]): from scancodes to printed characters, with the
      scheduler's wake-ups.
    - [Digests.v], [Sha3.v], [Blake2b.v], [Aes.v], [AesGcm.v] ([crypto]): the
      hash functions, HMAC, AES-256 and AES-256-GCM, each proved equal, for
      every input, to a definition written from its standard (FIPS 180-4,
      RFC 1321, RFC 2104, FIPS 202, RFC 7693, FIPS 197, SP 800-38D) in a module
      of its own.
    - [Argon2.v], [Argon2Api.v] ([crypto/hash/argon2.rs]): the block matrix,
      reference indices, the password interface and its text format.
      [Rng.v] ([crypto/rng.rs]): entropy sources, pool and generators.

    ** What the theorems show

    - Refinement: the page allocator, the ring buffers, the sleep queue, address
      translation, the spinlock and the keyboard decoder implement an abstract
      specification for every sequence of operations.
    - Invariants and safety: every event in every reachable kernel state
      completes; a stack is freed only when its task is dead; stale task
      identifiers do not resolve; processes, threads and tasks stay linked;
      whoever is inside an interrupt-safe lock cannot be interrupted.
    - Liveness: a thread that is told to exit is gone two timer interrupts later.
    - Functional behaviour on every branch, errors included: mapping, unmapping,
      allocating, freeing, scheduling, spawning, printing.
    - Bounds: no pixel is written outside the framebuffer, no Argon2 reference
      leaves the matrix.  Termination: ACPI discovery on any memory whose root
      table and MADT do not lie in the last 8 GiB of the address space, serial
      output on a transmitter that keeps becoming ready.
    - Composition: the whole of [_start], from the loader's structures to a system
      whose processes, page tables, heap and devices satisfy their invariants; an
      interrupt from delivery through gate, stub and handler back to the
      interrupted instruction; the timer, the keyboard line and the spurious vector
      wired to their handlers, with every other line of the I/O APIC and the 8259s
      masked, on an I/O APIC of 2 to 255 entries.
    - Equivalence of the optimised cryptographic code with the standards, of the
      text conversions with RFC 4648, and round trips (context switch, passwords,
      GCM).
    - Where the code does something it does not mean to, a theorem shows that
      too, such as the double release of the interrupt-safe lock on several
      processors, the lost wake-up of the keyboard reader, the shifted frame of
      two exception stubs, the panic handler that spins instead of halting, or the
      panic on a stored hash with huge costs.

    ** Boundaries

    The kernel starts one processor, so the scheduler is modelled for one;
    the locks are modelled for any number.  Locks are not part of the state of
    the other components, [Console.v] apart: their critical sections are atomic
    there.  [yield_blocked] and [sleep] are one event each: an interrupt between the
    end of their critical section and their scheduling pass is not modelled.
    Memory is sequentially consistent.  Hardware is modelled as far as
    the code depends on it: page walks, segment and gate decoding, the registers of the APICs, the
    8259 and the serial port; what a device returns is a parameter.

    Not modelled: the boot loader (C); the processor's translation caches
    ([invlpg] and CR3 reloads have no effect on the model); the bodies of the
    demonstration threads in [main.rs], which print and sleep or divide by zero;
    the heap self test, which drives the collections of Rust's [alloc] crate; the
    parts of [core::fmt] the kernel's format strings do not use; the interrupt
    flag in [Rng.v] and [Boot.v]; failing allocations in [Argon2Api.v], whose
    vectors always get their memory; the bytes of [Arc]s and of lists, which are
    records, maps and lists here, so that of their memory only the blocks are
    modelled.  The page budget of [_start] counts twenty free pages for each of its
    25 allocations, five for data and three tables for each of these, more than it
    ever takes.  The output of [_start] is a sequence of its
    own in [Console.v]: it shares no state with the steps it is interleaved with. *)

From stdpp Require Export base gmap list strings.
From Stdlib Require Export ZArith Lia.

Local Open Scope Z_scope.

(** ** Outcomes

    Rust code either returns or panics ([expect], [unwrap], [assert!], an
    out-of-range index).  [OutOfFuel] only comes from a loop whose
    definition here carries a fuel argument, and from [vec_pushed] in [Startup.v]
    on lists longer than it models; every theorem about such code proves that it
    returns. *)

Inductive outcome (A : Type) : Type :=
| Done (a : A)
| Panic (msg : string)
| OutOfFuel.

Arguments Done {A} a.
Arguments Panic {A} msg%_string.
Arguments OutOfFuel {A}.

#[global] Instance outcome_ret : MRet outcome := fun A a => Done a.
#[global] Instance outcome_bind : MBind outcome := fun A B f o =>
  match o with
  | Done a => f a
  | Panic m => Panic m
  | OutOfFuel => OutOfFuel
  end.

(** [o.expect(msg)] on an [Option]. *)
Definition expect {A} (msg : string) (o : option A) : outcome A :=
  match o with Some a => Done a | None => Panic msg end.

Arguments expect {A} msg%_string o.

(** [Result<A, E>]. *)
Inductive result (A E : Type) : Type :=
| Ok (a : A)
| Err (e : E).

Arguments Ok {A E} a.
Arguments Err {A E} e.

(** [slice[i]] and [slice[i] = v], which panic out of range. *)
Definition slot_get {A} (l : list A) (i : Z) : outcome A :=
  expect "index out of bounds" (l !! Z.to_nat i).
Definition slot_set {A} (l : list A) (i : Z) (v : A) : outcome (list A) :=
  if (Z.to_nat i <? length l)%nat then Done (<[Z.to_nat i := v]> l)
  else Panic "index out of bounds".

Lemma slot_get_ok {A} (l : list A) i x : l !! Z.to_nat i = Some x → slot_get l i = Done x.
Proof. intros H. unfold slot_get. by rewrite H. Qed.

Lemma slot_set_ok {A} (l : list A) i v :
  (Z.to_nat i < length l)%nat → slot_set l i v = Done (<[Z.to_nat i := v]> l).
Proof. intros H. unfold slot_set. by rewrite (proj2 (Nat.ltb_lt _ _) H). Qed.

Lemma slot_get_mid {A} (l1 : list A) x l2 i :
  i = Z.of_nat (length l1) → slot_get (l1 ++ x :: l2) i = Done x.
Proof. intros ->. apply slot_get_ok. rewrite Nat2Z.id. by apply list_lookup_middle. Qed.

Lemma slot_set_mid {A} (l1 : list A) x l2 i v :
  i = Z.of_nat (length l1) → slot_set (l1 ++ x :: l2) i v = Done (l1 ++ v :: l2).
Proof.
  intros ->. rewrite slot_set_ok by (rewrite Nat2Z.id, length_app; cbn; lia).
  rewrite Nat2Z.id. f_equal. rewrite <- (Nat.add_0_r (length l1)). by rewrite insert_app_r.
Qed.

Lemma slot_get_head {A} (x : A) l : slot_get (x :: l) 0 = Done x.
Proof. done. Qed.

Lemma slot_set_head {A} (x : A) l v : slot_set (x :: l) 0 v = Done (v :: l).
Proof. done. Qed.

Definition is_done {A} (o : outcome A) : bool :=
  match o with Done _ => true | _ => false end.

(** The result of a run, or [d] for a run that does not complete. *)
Definition done_or {A} (d : A) (o : outcome A) : A :=
  match o with Done a => a | _ => d end.

(** Running a completed step, as a rewrite rule: large terms stay folded. *)
Lemma bind_Done {A B} (a : A) (f : A → outcome B) : (Done a ≫= f) = f a.
Proof. done. Qed.

Lemma bind_done {A B} (f : A → outcome B) (o : outcome A) (b : B) :
  (o ≫= f) = Done b → ∃ a, o = Done a ∧ f a = Done b.
Proof. destruct o; simpl; intros H; [eauto | done | done]. Qed.

Lemma expect_done {A} msg (o : option A) a :
  expect msg o = Done a → o = Some a.
Proof. destruct o; simpl; congruence. Qed.

(** Splits every hypothesis [c ≫= k = Done r] of the context. *)
Ltac inv_bind :=
  repeat match goal with
  | H : (_ ≫= _) = Done _ |- _ =>
      let x := fresh "x" in
      let H1 := fresh "Hb" in
      apply bind_done in H as (x & H1 & H)
  | H : expect _ _ = Done _ |- _ => apply expect_done in H
  | H : Done _ = Done _ |- _ => injection H as H
  | H : mret _ = Done _ |- _ => injection H as H
  end.

(** ** Machine integers

    The kernel is built by [rustc -C opt-level=2], where integer arithmetic
    wraps.  A [u64] is a [Z] in [0, 2^64); the operators below write the
    wrap-around out. *)

Definition W64 : Z := 2 ^ 64.
Definition u64 (z : Z) : Z := z mod W64.
Definition u32 (z : Z) : Z := z mod 2 ^ 32.
Definition u8 (z : Z) : Z := z mod 256.
Definition not64 (z : Z) : Z := W64 - 1 - z.
Definition in_u64 (z : Z) : Prop := 0 ≤ z < W64.

Declare Scope u64_scope.
Delimit Scope u64_scope with u64.
Notation "a ⊞ b" := (u64 (a + b)) (at level 50, left associativity) : u64_scope.
Notation "a ⊟ b" := (u64 (a - b)) (at level 50, left associativity) : u64_scope.
Notation "a ⊠ b" := (u64 (a * b)) (at level 40, left associativity) : u64_scope.
Open Scope u64_scope.

Lemma u64_small z : 0 ≤ z < W64 → u64 z = z.
Proof. intros. by apply Z.mod_small. Qed.

(** Removes the wrap-around of nested additions and subtractions, innermost
    first, where the bounds follow from the context. *)
Ltac u64_exact :=
  repeat match goal with |- context [u64 ?a] =>
    lazymatch a with context [u64 _] => fail | _ => rewrite (u64_small a) by lia end end.

Lemma u64_range z : 0 ≤ u64 z < W64.
Proof. apply Z.mod_pos_bound. done. Qed.

Lemma u64_idemp z : u64 (u64 z) = u64 z.
Proof. apply u64_small, u64_range. Qed.

(** The base address of the direct map is [2^64 - 2^47]. *)
Definition PAGE_SIZE : Z := 0x1000.
Definition KERNEL_PHYSICAL_MAP_BASE : Z := 0xFFFF800000000000.
Definition KERNEL_FRAMEBUFFER_VIRTUAL_BASE : Z := 0xFFFF900000000000.
Definition KERNEL_HEAP_BASE : Z := 0xFFFFA00000000000.
Definition KERNEL_VIRTUAL_BASE : Z := 0xFFFFFFFF80000000.

(** Physical addresses the direct map window can reach without wrapping. *)
Definition PHYS_LIMIT : Z := 2 ^ 47.

Definition page_aligned (a : Z) : Prop := a mod PAGE_SIZE = 0.

(** A page frame: a non-null, page aligned physical address in the window. *)
Definition is_frame (a : Z) : Prop := 0 < a < PHYS_LIMIT ∧ page_aligned a.

Lemma frame_range a : is_frame a → 0 < a ∧ a + PAGE_SIZE ≤ PHYS_LIMIT.
Proof.
  unfold is_frame, page_aligned, PAGE_SIZE, PHYS_LIMIT. intros [? Ha].
  apply Z.mod_divide in Ha as [k ->]; [|done]. lia.
Qed.

(** Two different frames do not overlap. *)
Lemma frame_disjoint a b :
  is_frame a → is_frame b → a ≠ b → a + PAGE_SIZE ≤ b ∨ b + PAGE_SIZE ≤ a.
Proof.
  unfold is_frame, page_aligned, PAGE_SIZE. intros [_ Ha] [_ Hb] Hne.
  apply Z.mod_divide in Ha as [k ->]; [|done].
  apply Z.mod_divide in Hb as [j ->]; [|done]. lia.
Qed.

(** ** Bit masks *)

Lemma not64_mask n : 0 ≤ n < 64 → not64 (2 ^ n - 1) = Z.shiftl (Z.ones (64 - n)) n.
Proof.
  intros Hn. unfold not64, W64. rewrite Z.shiftl_mul_pow2, Z.ones_equiv by lia.
  replace (Z.pred (2 ^ (64 - n)) * 2 ^ n) with (2 ^ (64 - n) * 2 ^ n - 2 ^ n) by lia.
  rewrite <- Z.pow_add_r by lia. replace (64 - n + n) with 64 by lia. lia.
Qed.

(** Clearing the low [n] bits of a [u64] rounds it down. *)
Lemma land_not64_mask a n :
  0 ≤ n < 64 → in_u64 a → Z.land a (not64 (2 ^ n - 1)) = a - a mod 2 ^ n.
Proof.
  intros Hn Ha. rewrite not64_mask by done.
  transitivity (2 ^ n * (a / 2 ^ n)).
  2: { rewrite (Z.div_mod a (2 ^ n)) at 2 by lia. lia. }
  rewrite Z.mul_comm, <- Z.shiftl_mul_pow2, <- Z.shiftr_div_pow2 by lia.
  apply Z.bits_inj'. intros i Hi.
  rewrite Z.land_spec, !Z.shiftl_spec by lia.
  destruct (decide (i < n)) as [|Hin].
  { rewrite !(Z.testbit_neg_r _ (i - n)) by lia. apply andb_false_r. }
  rewrite Z.shiftr_spec by lia. replace (i - n + n) with i by lia.
  destruct (decide (i < 64)) as [|Hi64].
  - rewrite Z.ones_spec_low by lia. apply andb_true_r.
  - rewrite Z.ones_spec_high by lia. rewrite andb_false_r. symmetry.
    destruct (decide (a = 0)) as [->|]; [apply Z.bits_0|].
    apply Z.bits_above_log2; [unfold in_u64 in Ha; lia|].
    enough (Z.log2 a < 64) by lia. apply Z.log2_lt_pow2; unfold in_u64, W64 in Ha; lia.
Qed.

Lemma land_not64_mask_aligned a n :
  0 ≤ n < 64 → in_u64 a → a mod 2 ^ n = 0 → Z.land a (not64 (2 ^ n - 1)) = a.
Proof. intros ?? H. rewrite land_not64_mask by done. lia. Qed.

(** An aligned address and small flag bits occupy different bits. *)
Lemma land_aligned a f n :
  0 ≤ n → a mod 2 ^ n = 0 → 0 ≤ f < 2 ^ n → Z.land a f = 0.
Proof.
  intros Hn Ha Hf. apply Z.bits_inj'; intros i Hi. rewrite Z.land_spec, Z.bits_0.
  destruct (decide (i < n)).
  - rewrite <- (Z.mod_pow2_bits_low a n) by lia. rewrite Ha, Z.bits_0. done.
  - rewrite andb_comm. rewrite <- (Z.mod_small f (2 ^ n)) by lia.
    by rewrite Z.mod_pow2_bits_high by lia.
Qed.

Lemma lor_aligned a f n :
  0 ≤ n → a mod 2 ^ n = 0 → 0 ≤ f < 2 ^ n → Z.lor a f = a + f.
Proof.
  intros Hn Ha Hf. pose proof (land_aligned a f n Hn Ha Hf) as H0.
  rewrite Z.add_nocarry_lxor by done. symmetry. by apply Z.lxor_lor.
Qed.

Lemma lor_range a b n :
  0 ≤ n → 0 ≤ a < 2 ^ n → 0 ≤ b < 2 ^ n → 0 ≤ Z.lor a b < 2 ^ n.
Proof.
  intros Hn Ha Hb. split; [apply Z.lor_nonneg; lia|].
  destruct (decide (Z.lor a b = 0)) as [->|]; [lia|].
  apply Z.log2_lt_cancel. rewrite Z.log2_lor, Z.log2_pow2 by lia.
  destruct (decide (n = 0)) as [->|].
  { replace a with 0 in * by lia. replace b with 0 in * by lia. done. }
  assert (∀ x, 0 ≤ x < 2 ^ n → Z.log2 x < n) as Hl.
  { intros x Hx. destruct (decide (x = 0)) as [->|]; [simpl; lia|].
    apply Z.log2_lt_pow2; lia. }
  apply Z.max_lub_lt; by apply Hl.
Qed.

(** ** Counted loops

    [for i in lo .. lo + n { body }] with a state threaded through. *)

Fixpoint for_range {T : Type} (n : nat) (i : Z) (body : Z → T → outcome T) (s : T)
    : outcome T :=
  match n with
  | O => Done s
  | S n' => body i s ≫= for_range n' (i + 1) body
  end.

Lemma for_range_ind {T} (P : Z → T → Prop) (body : Z → T → outcome T) n i s s' :
  (∀ j t t', i ≤ j < i + Z.of_nat n → P j t → body j t = Done t' → P (j + 1) t') →
  P i s → for_range n i body s = Done s' → P (i + Z.of_nat n) s'.
Proof.
  revert i s. induction n as [|n IH]; intros i s Hstep Hi Hrun; simpl in Hrun.
  - injection Hrun as <-. by replace (i + Z.of_nat 0) with i by lia.
  - inv_bind. replace (i + Z.of_nat (S n)) with ((i + 1) + Z.of_nat n) by lia.
    eapply IH; [|by eapply Hstep; [lia|..]|done].
    intros j t t' Hj. apply Hstep. lia.
Qed.

Lemma for_range_ext {T} (f g : Z → T → outcome T) n i s :
  (∀ j t, i ≤ j < i + Z.of_nat n → f j t = g j t) → for_range n i f s = for_range n i g s.
Proof.
  revert i s. induction n as [|n IH]; intros i s Hfg; simpl; [done|].
  rewrite Hfg by lia. destruct (g i s); simpl; [|done..]. apply IH. intros j t Hj. apply Hfg. lia.
Qed.

(** A loop whose body is total under an invariant completes. *)
Lemma for_range_done {T} (P : Z → T → Prop) (body : Z → T → outcome T) n i s :
  (∀ j t, i ≤ j < i + Z.of_nat n → P j t → ∃ t', body j t = Done t' ∧ P (j + 1) t') →
  P i s → ∃ s', for_range n i body s = Done s' ∧ P (i + Z.of_nat n) s'.
Proof.
  revert i s. induction n as [|n IH]; intros i s Hstep Hi; simpl.
  - exists s. split; [done|]. by replace (i + Z.of_nat 0) with i by lia.
  - destruct (Hstep i s) as (t & -> & Ht); [lia|done|]. simpl.
    destruct (IH (i + 1) t) as (s' & Hs' & HP); [|done|].
    { intros j u Hj. apply Hstep. lia. }
    exists s'. split; [done|]. by replace (i + Z.of_nat (S n)) with (i + 1 + Z.of_nat n) by lia.
Qed.

(** ** Lists *)

(** Filtering looks at the elements of the list only. *)
Lemma filter_agree {A} (P Q : A → Prop) `{∀ x, Decision (P x), ∀ x, Decision (Q x)} (l : list A) :
  (∀ x, x ∈ l → P x ↔ Q x) → base.filter P l = base.filter Q l.
Proof.
  induction l as [|a l IH]; intros Hag; [done|]. rewrite !filter_cons.
  rewrite IH by (intros; apply Hag; by right).
  pose proof (Hag a (list_elem_of_here _ _)). repeat case_decide; tauto || done.
Qed.

Lemma bind_singletons {A B} (f : A → B) (l : list A) : (l ≫= λ x, [f x]) = f <$> l.
Proof. induction l as [|x l IH]; [done|]. rewrite bind_cons, IH. done. Qed.

Lemma filter_none {A} (P : A → Prop) `{∀ x, Decision (P x)} (l : list A) :
  Forall (λ x, ¬ P x) l → base.filter P l = [].
Proof. induction 1; [done|]. by rewrite filter_cons_False. Qed.

Lemma filter_all {A} (P : A → Prop) `{∀ x, Decision (P x)} (l : list A) :
  Forall P l → base.filter P l = l.
Proof. induction 1; [done|]. rewrite filter_cons_True by done. by f_equal. Qed.
