(* ===== verification/Machine.v ===== *)
(** * Machine.v: byte-addressed memory

    Raw pointer reads and writes of the kernel ([*ptr], [read_volatile],
    [write_volatile]) on a byte-addressed little-endian memory.  Addresses
    are plain numbers, so a misaligned or overlapping access behaves as it
    does on the hardware. *)

From S2P Require Import Prelude.

Local Open Scope Z_scope.

(** Bytes absent from the map read as zero; a map can hold any finite
    memory content. *)
Abbreviation mem := (gmap Z Z).

Definition load8 (m : mem) (a : Z) : Z := default 0 (m !! a) mod 256.
Definition store8 (m : mem) (a v : Z) : mem := <[a := v mod 256]> m.

Fixpoint load_le (n : nat) (m : mem) (a : Z) : Z :=
  match n with
  | O => 0
  | S n' => load8 m a + 256 * load_le n' m (a + 1)
  end.

Fixpoint store_le (n : nat) (m : mem) (a v : Z) : mem :=
  match n with
  | O => m
  | S n' => store_le n' (store8 m a v) (a + 1) (v / 256)
  end.

Definition load64 (m : mem) (a : Z) : Z := load_le 8 m a.
Definition store64 (m : mem) (a v : Z) : mem := store_le 8 m a v.
Definition load32 (m : mem) (a : Z) : Z := load_le 4 m a.

(** The [n] bytes at [a] and the [k] bytes at [b] share no byte. *)
Definition apart (a n b k : Z) : Prop := a + n ≤ b ∨ b + k ≤ a.

Lemma load8_store8_eq m a v : load8 (store8 m a v) a = v mod 256.
Proof. unfold load8, store8. rewrite lookup_insert_eq. simpl. by rewrite Z.mod_mod. Qed.

Lemma load8_store8_ne m a b v : a ≠ b → load8 (store8 m a v) b = load8 m b.
Proof. intros. unfold load8, store8. by rewrite lookup_insert_ne. Qed.

Lemma load8_store_le n m a b v :
  b < a ∨ a + Z.of_nat n ≤ b → load8 (store_le n m a v) b = load8 m b.
Proof.
  revert m a v. induction n as [|n IH]; intros m a v Hb; [done|].
  cbn [store_le]. rewrite IH by lia. apply load8_store8_ne. lia.
Qed.

Lemma load_store_le_ne n k m a b v :
  apart a (Z.of_nat n) b (Z.of_nat k) → load_le k (store_le n m a v) b = load_le k m b.
Proof.
  unfold apart. revert b. induction k as [|k IH]; intros b Hd; [done|].
  cbn [load_le]. rewrite IH by lia. by rewrite load8_store_le by lia.
Qed.

Lemma load_le_range n m a : 0 ≤ load_le n m a < 256 ^ Z.of_nat n.
Proof.
  revert a. induction n as [|n IH]; intros a; [cbn; lia|].
  cbn [load_le]. rewrite Nat2Z.inj_succ, Z.pow_succ_r by lia.
  specialize (IH (a + 1)). unfold load8.
  pose proof (Z.mod_pos_bound (default 0 (m !! a)) 256). lia.
Qed.

Lemma load_store_le_eq n m a v : load_le n (store_le n m a v) a = v mod 256 ^ Z.of_nat n.
Proof.
  revert m a v. induction n as [|n IH]; intros m a v.
  - cbn. by rewrite Z.mod_1_r.
  - cbn [load_le store_le]. rewrite IH, load8_store_le by lia.
    rewrite load8_store8_eq, Nat2Z.inj_succ, Z.pow_succ_r by lia.
    rewrite (Z.rem_mul_r v 256 (256 ^ Z.of_nat n)); [lia|done|].
    apply Z.pow_pos_nonneg; lia.
Qed.

Lemma load64_range m a : 0 ≤ load64 m a < W64.
Proof. apply (load_le_range 8). Qed.

Lemma load64_store64_eq m a v : load64 (store64 m a v) a = u64 v.
Proof. apply (load_store_le_eq 8). Qed.

Lemma load64_store64_same m a v : in_u64 v → load64 (store64 m a v) a = v.
Proof. intros. rewrite load64_store64_eq. by apply u64_small. Qed.

Lemma load64_store64_ne m a b v : apart a 8 b 8 → load64 (store64 m a v) b = load64 m b.
Proof. apply (load_store_le_ne 8 8). Qed.

Lemma load32_store64_ne m a b v : apart a 8 b 4 → load32 (store64 m a v) b = load32 m b.
Proof. apply (load_store_le_ne 8 4). Qed.

Lemma load_le_app n k m a :
  load_le (n + k) m a = load_le n m a + 256 ^ Z.of_nat n * load_le k m (a + Z.of_nat n).
Proof.
  revert a. induction n as [|n IH]; intros a.
  - cbn [Nat.add load_le]. replace (a + Z.of_nat 0) with a by lia. lia.
  - cbn [Nat.add load_le]. rewrite IH, Nat2Z.inj_succ, Z.pow_succ_r by lia.
    replace (a + Z.succ (Z.of_nat n)) with (a + 1 + Z.of_nat n) by lia. lia.
Qed.

Lemma load32_load64 m a : load32 m a = load64 m a mod 2 ^ 32.
Proof.
  unfold load32, load64. rewrite (load_le_app 4 4).
  change (256 ^ Z.of_nat 4) with (2 ^ 32). rewrite (Z.mul_comm (2 ^ 32)), Z.mod_add by done.
  symmetry. apply Z.mod_small, (load_le_range 4).
Qed.

Lemma load64_store8_ne m a b v : apart a 1 b 8 → load64 (store8 m a v) b = load64 m b.
Proof. apply (load_store_le_ne 1 8 m a b v). Qed.

(** Equal words have equal bytes. *)
Lemma load_le_bytes n m m' a i :
  load_le n m' a = load_le n m a → 0 ≤ i < Z.of_nat n → load8 m' (a + i) = load8 m (a + i).
Proof.
  revert a i. induction n as [|n IH]; intros a i He Hi; [lia|]. cbn [load_le] in He.
  assert (∀ m, 0 ≤ load8 m a < 256) as Hb by (intros; by apply Z.mod_pos_bound). pose proof (Hb m). pose proof (Hb m').
  destruct (decide (i = 0)) as [->|Hne]; [rewrite Z.add_0_r; lia|].
  replace (a + i) with (a + 1 + (i - 1)) by lia. apply IH; lia.
Qed.

Lemma load_le_ext n m m' a : (∀ i, 0 ≤ i < Z.of_nat n → load8 m' (a + i) = load8 m (a + i)) → load_le n m' a = load_le n m a.
Proof.
  revert a. induction n as [|n IH]; intros a H; [done|]. cbn [load_le]. rewrite (IH (a + 1)).
  - rewrite <- (Z.add_0_r a) at 1 3. by rewrite H by lia.
  - intros i Hi. replace (a + 1 + i) with (a + (i + 1)) by lia. apply H. lia.
Qed.

Lemma load64_ext m m' a : (∀ i, 0 ≤ i < 8 → load8 m' (a + i) = load8 m (a + i)) → load64 m' a = load64 m a.
Proof. apply (load_le_ext 8). Qed.

Lemma load64_bytes m m' a i :
  load64 m' a = load64 m a → 0 ≤ i < 8 → load8 m' (a + i) = load8 m (a + i).
Proof. apply (load_le_bytes 8). Qed.

#[global] Opaque load64 store64 load32.
#[global] Arguments load64 : simpl never.
#[global] Arguments store64 : simpl never.

(** ** Memory agreement

    [agree_off P m m'] says the two memories hold the same words at every
    address whose eight bytes avoid the set [P]. *)
Definition agree_off (P : Z → Prop) (m m' : mem) : Prop :=
  ∀ a, (∀ i, 0 ≤ i < 8 → ¬ P (a + i)) → load64 m' a = load64 m a.

(** The bytes of [a, a + n). *)
Definition span (a n x : Z) : Prop := a ≤ x < a + n.

Lemma agree_off_refl P m : agree_off P m m.
Proof. by intros a _. Qed.

Lemma agree_off_trans P m1 m2 m3 :
  agree_off P m1 m2 → agree_off P m2 m3 → agree_off P m1 m3.
Proof. intros H1 H2 a Ha. rewrite H2, H1; done. Qed.

Lemma agree_off_mono (P Q : Z → Prop) m m' :
  (∀ x, P x → Q x) → agree_off P m m' → agree_off Q m m'.
Proof. intros HPQ H a Ha. apply H. intros i Hi HP. eapply Ha; eauto. Qed.

Lemma agree_off_store64 P m a v :
  (∀ i, 0 ≤ i < 8 → P (a + i)) → agree_off P m (store64 m a v).
Proof.
  intros HP b Hb. apply load64_store64_ne. unfold apart.
  destruct (decide (a + 8 ≤ b)) as [|H1]; [by left|].
  destruct (decide (b + 8 ≤ a)) as [|H2]; [by right|]. exfalso.
  destruct (decide (a ≤ b)).
  - apply (Hb 0); [lia|]. replace (b + 0) with (a + (b - a)) by lia. apply HP. lia.
  - apply (Hb (a - b)); [lia|]. replace (b + (a - b)) with (a + 0) by lia. apply HP. lia.
Qed.

Lemma agree_off_store8 (P : Z → Prop) m a v : P a → agree_off P m (store8 m a v).
Proof.
  intros HP b Hb. apply load64_store8_ne. unfold apart.
  destruct (decide (a + 1 ≤ b)) as [|H1]; [by left|]. destruct (decide (b + 8 ≤ a)) as [|H2]; [by right|]. exfalso.
  apply (Hb (a - b)); [lia|]. by replace (b + (a - b)) with a by lia.
Qed.

(** The same agreement, read at an address kept apart from a span. *)
Lemma agree_off_span m m' a n b :
  agree_off (span a n) m m' → apart a n b 8 → load64 m' b = load64 m b.
Proof. intros H Hb. apply H. unfold span, apart in *. lia. Qed.

(** ** Kernel pointers into physical memory

    While it boots, the kernel reaches physical memory at identity-mapped low
    addresses; after [build_direct_map] it reaches the same bytes at
    [KERNEL_PHYSICAL_MAP_BASE + phys].  Both windows are live while
    [MemoryManager::init_higher_half] runs.  [direct] resolves a pointer of
    either window to the physical address behind it. *)
Definition direct (ptr : Z) : Z :=
  if KERNEL_PHYSICAL_MAP_BASE <=? ptr then ptr - KERNEL_PHYSICAL_MAP_BASE else ptr.

Definition pload (m : mem) (ptr : Z) : Z := load64 m (direct ptr).
Definition pstore (m : mem) (ptr v : Z) : mem := store64 m (direct ptr) v.

(** The pointer [if is_higher_half { phys + BASE } else { phys }]. *)
Definition phys_ptr (is_higher_half : bool) (phys : Z) : Z :=
  if is_higher_half then phys ⊞ KERNEL_PHYSICAL_MAP_BASE else phys.

Lemma direct_low a : 0 ≤ a < PHYS_LIMIT → direct a = a.
Proof.
  intros Ha. unfold direct. destruct (Z.leb_spec KERNEL_PHYSICAL_MAP_BASE a); [|done].
  unfold KERNEL_PHYSICAL_MAP_BASE, PHYS_LIMIT in *. lia.
Qed.

Lemma direct_high a :
  0 ≤ a < PHYS_LIMIT → direct (a ⊞ KERNEL_PHYSICAL_MAP_BASE) = a.
Proof.
  intros Ha. unfold direct, PHYS_LIMIT in *. rewrite u64_small.
  - destruct (Z.leb_spec KERNEL_PHYSICAL_MAP_BASE (a + KERNEL_PHYSICAL_MAP_BASE)); lia.
  - unfold W64, KERNEL_PHYSICAL_MAP_BASE. lia.
Qed.

Lemma direct_phys_ptr hh a : 0 ≤ a < PHYS_LIMIT → direct (phys_ptr hh a) = a.
Proof. destruct hh; [apply direct_high | apply direct_low]. Qed.

Lemma phys_ptr_step hh a n :
  0 ≤ a → 0 ≤ n → a + n < PHYS_LIMIT → phys_ptr hh a ⊞ n = phys_ptr hh (a + n).
Proof.
  intros. unfold phys_ptr. destruct hh.
  - unfold u64. rewrite Zplus_mod_idemp_l. f_equal. lia.
  - apply u64_small. unfold W64, PHYS_LIMIT in *. lia.
Qed.

(** Indexing a pointer: [ptr.add(i)] on a [*mut u64]. *)
Definition ptr_add8 (ptr i : Z) : Z := ptr ⊞ 8 * i.

Lemma direct_ptr_add8 hh a i :
  0 ≤ a → 0 ≤ i → a + 8 * i < PHYS_LIMIT →
  direct (ptr_add8 (phys_ptr hh a) i) = a + 8 * i.
Proof.
  intros. unfold ptr_add8, phys_ptr. destruct hh.
  - rewrite <- (direct_high (a + 8 * i)) by lia. f_equal. unfold u64.
    rewrite Zplus_mod_idemp_l. f_equal. lia.
  - rewrite u64_small; [apply direct_low; lia|].
    unfold W64, PHYS_LIMIT in *. lia.
Qed.

(** ** Consecutive words *)

Definition words_at (m : mem) (a : Z) (ws : list Z) : Prop :=
  ∀ i w, ws !! i = Some w → load64 m (a + 8 * Z.of_nat i) = w.

Lemma words_at_cons m a w ws : words_at m a (w :: ws) ↔ load64 m a = w ∧ words_at m (a + 8) ws.
Proof.
  split.
  - intros H. split.
    + rewrite <- (H 0%nat w) by done. f_equal. lia.
    + intros i v Hv. rewrite <- (H (S i) v) by done. f_equal. lia.
  - intros [H0 H] [|i] v Hv.
    + injection Hv as <-. rewrite <- H0. f_equal. lia.
    + rewrite <- (H i v) by done. f_equal. lia.
Qed.

Lemma words_at_nil m a : words_at m a [].
Proof. by intros i w. Qed.

Lemma words_at_agree m m' a ws :
  (∀ i, 0 ≤ i < Z.of_nat (length ws) → load64 m' (a + 8 * i) = load64 m (a + 8 * i)) →
  words_at m a ws → words_at m' a ws.
Proof.
  intros Hm Hw i w Hi. rewrite Hm; [by apply Hw|]. apply lookup_lt_Some in Hi. lia.
Qed.
