(* ===== verification/Pmm.v ===== *)
(** * Pmm.v: the physical memory manager (memory_manager/pmm.rs)

    The PMM keeps its free pages as a LIFO list threaded through the pages
    themselves: [free_list_head] points at the first free page and the first
    eight bytes of each free page hold the address of the next one.  This file
    models the boot-time data the PMM is built from (memory_manager/mod.rs),
    the whole of pmm.rs, and proves that the in-memory list implements an
    abstract stack of page frames. *)

From S2P Require Import Prelude Machine.

Local Open Scope Z_scope.

(** ** Boot data (memory_manager/mod.rs, hardware_manager/framebuffer.rs) *)

Definition KERNEL_PML4 : Z := 0.
Definition PRESENT : Z := Z.shiftl 1 0.
Definition WRITABLE : Z := Z.shiftl 1 1.
Definition USER : Z := Z.shiftl 1 2.
Definition PWT : Z := Z.shiftl 1 3.
Definition PCD : Z := Z.shiftl 1 4.
Definition NX : Z := Z.shiftl 1 63.

Record FramebufferInfo := {
  framebuffer_addr : Z;
  framebuffer_width : Z;
  framebuffer_height : Z;
  framebuffer_pitch : Z;
  framebuffer_bpp : Z;
}.

Record MemoryMapInfo := {
  memory_map_addr : Z;
  memory_map_size : Z;
  descriptor_size : Z;
  descriptor_ver : Z;
  bsp_apic_id : Z;
  kernel_load_addr : Z;
  kernel_image_size : Z;
  stack_base_addr : Z;
  stack_size : Z;
  rsdp_addr : Z;
}.

Inductive EfiMemoryType : Type :=
| EfiReservedMemoryType
| EfiLoaderCode
| EfiLoaderData
| EfiBootServicesCode
| EfiBootServicesData
| EfiRuntimeServicesCode
| EfiRuntimeServicesData
| EfiConventionalMemory
| EfiUnusableMemory
| EfiACPIReclaimMemory
| EfiACPIMemoryNVS
| EfiMemoryMappedIO
| EfiMemoryMappedIOPortSpace
| EfiPalCode
| EfiPersistentMemory
| EfiMaxMemoryType.

(** [#[repr(u32)]] discriminants. *)
Definition efi_code (t : EfiMemoryType) : Z :=
  match t with
  | EfiReservedMemoryType => 0x0
  | EfiLoaderCode => 0x1
  | EfiLoaderData => 0x2
  | EfiBootServicesCode => 0x3
  | EfiBootServicesData => 0x4
  | EfiRuntimeServicesCode => 0x5
  | EfiRuntimeServicesData => 0x6
  | EfiConventionalMemory => 0x7
  | EfiUnusableMemory => 0x8
  | EfiACPIReclaimMemory => 0x9
  | EfiACPIMemoryNVS => 0xA
  | EfiMemoryMappedIO => 0xB
  | EfiMemoryMappedIOPortSpace => 0xC
  | EfiPalCode => 0xD
  | EfiPersistentMemory => 0xE
  | EfiMaxMemoryType => 0xF
  end.

(** [region_type] is kept as the 32-bit discriminant that sits in memory:
    firmware may store a value that names no constructor, and the code only
    ever compares it with constructors. *)
Record EfiMemoryDescriptor := {
  region_type : Z;
  physical_start : Z;
  virtual_start : Z;
  num_pages : Z;
  attribute : Z;
}.

(** [matches!(d.region_type, t1 | t2 | ...)] *)
Definition region_is (d : EfiMemoryDescriptor) (ts : list EfiMemoryType) : bool :=
  existsb (fun t => region_type d =? efi_code t) ts.

(** The raw read of a [#[repr(C)]] descriptor. *)
Definition EfiMemoryDescriptor_new (m : mem) (address : Z) : EfiMemoryDescriptor :=
  {| region_type := load32 m (direct address);
     physical_start := load64 m (direct address + 8);
     virtual_start := load64 m (direct address + 16);
     num_pages := load64 m (direct address + 24);
     attribute := load64 m (direct address + 32) |}.

(** ** State *)

Record PhysicalMemoryManager := {
  pmm_kernel_load_addr : Z;
  pmm_kernel_image_size : Z;
  kernel_stack_base_addr : Z;
  kernel_stack_size : Z;
  pmm_framebuffer_addr : Z;
  pmm_framebuffer_size : Z;
  pmm_memory_map_addr : Z;
  pmm_memory_map_size : Z;
  pmm_memory_map_desc_size : Z;
  kernel_start : Z;
  kernel_end : Z;
  is_higher_half : bool;
  free_list_head : option Z;
  free_pages : Z;
}.

(** Assignment to the two fields the allocator changes. *)
Definition set_free_list (p : PhysicalMemoryManager) (head : option Z) (n : Z)
    : PhysicalMemoryManager :=
  {| pmm_kernel_load_addr := pmm_kernel_load_addr p;
     pmm_kernel_image_size := pmm_kernel_image_size p;
     kernel_stack_base_addr := kernel_stack_base_addr p;
     kernel_stack_size := kernel_stack_size p;
     pmm_framebuffer_addr := pmm_framebuffer_addr p;
     pmm_framebuffer_size := pmm_framebuffer_size p;
     pmm_memory_map_addr := pmm_memory_map_addr p;
     pmm_memory_map_size := pmm_memory_map_size p;
     pmm_memory_map_desc_size := pmm_memory_map_desc_size p;
     kernel_start := kernel_start p;
     kernel_end := kernel_end p;
     is_higher_half := is_higher_half p;
     free_list_head := head;
     free_pages := n |}.

(** ** Operations *)

Definition free_page (pmm : PhysicalMemoryManager) (m : mem) (address : Z)
    : PhysicalMemoryManager * mem :=
  let virt := phys_ptr (is_higher_half pmm) address in
  let m' := pstore m virt (default 0 (free_list_head pmm)) in
  (set_free_list pmm (Some address) (free_pages pmm ⊞ 1), m').

Definition alloc_page (pmm : PhysicalMemoryManager) (m : mem)
    : option Z * PhysicalMemoryManager :=
  match free_list_head pmm with
  | None => (None, pmm)
  | Some head =>
      let virt := phys_ptr (is_higher_half pmm) head in
      let next := pload m virt in
      (Some head,
       set_free_list pmm (if next =? 0 then None else Some next) (free_pages pmm ⊟ 1))
  end.

Definition page_overlaps (page_start page_end region_start region_end : Z) : bool :=
  (page_start <=? region_end) && (region_start <=? page_end).

(** The chain of [continue] checks of the page loop in [init]. *)
Definition init_page_skipped (pmm : PhysicalMemoryManager) (page_start : Z) : bool :=
  let page_end := page_start ⊞ PAGE_SIZE ⊟ 1 in
  (page_start =? 0)
  || page_overlaps page_start page_end (pmm_memory_map_addr pmm)
       (pmm_memory_map_addr pmm ⊞ pmm_memory_map_size pmm)
  || page_overlaps page_start page_end (kernel_start pmm) (kernel_end pmm)
  || page_overlaps page_start page_end (kernel_stack_base_addr pmm)
       (kernel_stack_base_addr pmm ⊞ kernel_stack_size pmm)
  || page_overlaps page_start page_end (pmm_framebuffer_addr pmm)
       (pmm_framebuffer_addr pmm ⊞ pmm_framebuffer_size pmm).

(** A page loop shared by the two walks over the memory map: free every page
    of the descriptor that the checks do not skip. *)
Definition free_descriptor_pages (skipped : PhysicalMemoryManager → Z → bool)
    (d : EfiMemoryDescriptor) (s : PhysicalMemoryManager * mem)
    : outcome (PhysicalMemoryManager * mem) :=
  for_range (Z.to_nat (num_pages d)) 0 (fun i '(pmm, m) =>
    let page_start := physical_start d ⊞ i ⊠ PAGE_SIZE in
    if skipped pmm page_start then Done (pmm, m)
    else Done (free_page pmm m page_start)) s.

Definition fb_size (fb : FramebufferInfo) : Z :=
  framebuffer_height fb ⊠ framebuffer_width fb ⊠ (framebuffer_bpp fb / 8).

(** The record [init] starts from, before the memory map is walked. *)
Definition init_state (kstart kend : Z) (fb : FramebufferInfo) (mm : MemoryMapInfo)
    : PhysicalMemoryManager :=
  {| pmm_kernel_load_addr := kernel_load_addr mm;
     pmm_kernel_image_size := kernel_image_size mm;
     kernel_stack_base_addr := stack_base_addr mm;
     kernel_stack_size := stack_size mm;
     pmm_framebuffer_addr := framebuffer_addr fb;
     pmm_framebuffer_size := fb_size fb;
     pmm_memory_map_addr := memory_map_addr mm;
     pmm_memory_map_size := memory_map_size mm;
     pmm_memory_map_desc_size := descriptor_size mm;
     kernel_start := kstart;
     kernel_end := kend;
     is_higher_half := false;
     free_list_head := None;
     free_pages := 0 |}.

(** [a / b] on [u64], which panics on a zero divisor. *)
Definition checked_div (a b : Z) : outcome Z :=
  if b =? 0 then Panic "attempt to divide by zero" else Done (a / b).

(** The walk over the memory map that [init] and [reclaim_boot_memory] share:
    every page of a descriptor of one of the types [ts] that passes the checks
    goes to the free list. *)
Definition free_map_pages (ts : list EfiMemoryType)
    (skipped : PhysicalMemoryManager → Z → bool) (desc_size n first : Z)
    (s : PhysicalMemoryManager * mem) : outcome (PhysicalMemoryManager * mem) :=
  '(_, s') ← for_range (Z.to_nat n) 0
    (fun _ '(descriptor_addr, (pmm, m)) =>
       let d := EfiMemoryDescriptor_new m descriptor_addr in
       let descriptor_addr' := descriptor_addr ⊞ desc_size in
       if negb (region_is d ts) then Done (descriptor_addr', (pmm, m))
       else
         s' ← free_descriptor_pages skipped d (pmm, m);
         Done (descriptor_addr', s'))
    (first, s);
  Done s'.

(** [PhysicalMemoryManager::init]; [kstart] and [kend] are the addresses of
    the linker symbols [__kernel_phys_start] and [__kernel_phys_end]. *)
Definition init (kstart kend : Z) (fb : FramebufferInfo) (mm : MemoryMapInfo) (m : mem)
    : outcome (PhysicalMemoryManager * mem) :=
  let pmm := init_state kstart kend fb mm in
  n ← checked_div (pmm_memory_map_size pmm) (pmm_memory_map_desc_size pmm);
  free_map_pages [EfiConventionalMemory] init_page_skipped
    (pmm_memory_map_desc_size pmm) n (pmm_memory_map_addr pmm) (pmm, m).

(** ** The abstract free list

    [pmm_repr pmm m l]: the list threaded through memory [m] from the head of
    [pmm] holds exactly the distinct page frames [l], and the counter counts
    them. *)

Definition link_of (w : Z) : option Z := if w =? 0 then None else Some w.

Fixpoint free_chain (m : mem) (head : option Z) (l : list Z) : Prop :=
  match l with
  | [] => head = None
  | a :: l' => head = Some a ∧ free_chain m (link_of (load64 m a)) l'
  end.

Record pmm_repr (pmm : PhysicalMemoryManager) (m : mem) (l : list Z) : Prop := {
  repr_chain : free_chain m (free_list_head pmm) l;
  repr_frames : Forall is_frame l;
  repr_nodup : NoDup l;
  repr_count : free_pages pmm = Z.of_nat (length l);
}.

(** Everything but the free list is the same in the two states. *)
Definition same_config (p q : PhysicalMemoryManager) : Prop :=
  q = set_free_list p (free_list_head q) (free_pages q).

Create HintDb pmm.

Lemma set_free_list_config p h n : same_config p (set_free_list p h n).
Proof. done. Qed.

Lemma same_config_refl p : same_config p p.
Proof. by destruct p. Qed.

Lemma same_config_trans p q r : same_config p q → same_config q r → same_config p r.
Proof. unfold same_config. intros Hq Hr. rewrite Hr, Hq. by destruct p, q, r. Qed.

Lemma same_config_hh p q : same_config p q → is_higher_half q = is_higher_half p.
Proof. by intros ->. Qed.

#[export] Hint Resolve set_free_list_config same_config_refl : pmm.

(** There are fewer than [2^35] frames in the window, so the page counter
    never wraps. *)
Lemma frames_length l :
  NoDup l → Forall is_frame l → Z.of_nat (length l) < 2 ^ 35.
Proof.
  intros Hnd Hf.
  assert (length l ≤ length ((λ k : Z, (k * PAGE_SIZE)%Z) <$> seqZ 1 (2 ^ 35 - 1)))%nat as H.
  { apply submseteq_length, NoDup_submseteq; [done|]. intros a Ha.
    apply list_elem_of_fmap.
    rewrite Forall_forall in Hf. destruct (Hf a Ha) as [Hr Hal].
    unfold page_aligned, PHYS_LIMIT, PAGE_SIZE in *.
    apply Z.mod_divide in Hal as [k ->]; [|done]. exists k. split; [done|].
    apply elem_of_seqZ. lia. }
  rewrite length_fmap, length_seqZ in H. lia.
Qed.

Lemma free_chain_agree m m' head l :
  (∀ a, a ∈ l → load64 m' a = load64 m a) → free_chain m head l → free_chain m' head l.
Proof.
  revert head. induction l as [|a l IH]; intros head Hag; simpl; [done|].
  intros [-> Hc]. split; [done|]. rewrite Hag by set_solver. apply IH; [|done].
  set_solver.
Qed.

(** Writes that avoid the first word of every free page keep the list. *)
Lemma pmm_repr_agree pmm m m' l :
  (∀ a, a ∈ l → load64 m' a = load64 m a) → pmm_repr pmm m l → pmm_repr pmm m' l.
Proof. intros Hag [? ? ? ?]. split; eauto using free_chain_agree. Qed.

Lemma pmm_repr_agree_off P pmm m m' l :
  agree_off P m m' → (∀ a x, a ∈ l → span a PAGE_SIZE x → ¬ P x) →
  pmm_repr pmm m l → pmm_repr pmm m' l.
Proof.
  intros Hag HP. apply pmm_repr_agree. intros a Ha. apply Hag.
  intros i Hi. apply (HP a); [done|]. unfold span, PAGE_SIZE. lia.
Qed.

(** Popping: [alloc_page] on a non-empty list. *)
Lemma alloc_page_cons pmm m a l :
  pmm_repr pmm m (a :: l) →
  ∃ pmm', alloc_page pmm m = (Some a, pmm') ∧ same_config pmm pmm' ∧ pmm_repr pmm' m l.
Proof.
  intros [Hc Hf Hnd Hn]. destruct Hc as [Hh Hc]. apply Forall_cons in Hf as [Ha Hf].
  apply NoDup_cons in Hnd as [_ Hnd].
  unfold alloc_page. rewrite Hh. eexists. split; [done|]. split; [done|].
  unfold pload. rewrite direct_phys_ptr by (apply frame_range in Ha; unfold PAGE_SIZE in Ha; lia).
  split; simpl; [done..|].
  pose proof (frames_length l Hnd Hf) as Hlen.
  rewrite Hn. simpl length. rewrite u64_small by (unfold W64; lia). lia.
Qed.

(** The empty list: [alloc_page] reports exhaustion and changes nothing. *)
Lemma alloc_page_nil pmm m : pmm_repr pmm m [] → alloc_page pmm m = (None, pmm).
Proof. intros [Hc _ _ _]. unfold alloc_page. simpl in Hc. by rewrite Hc. Qed.

(** Pushing: [free_page] of a frame that is not on the list. *)
Lemma free_page_cons pmm m l a :
  pmm_repr pmm m l → is_frame a → a ∉ l →
  ∃ pmm' m', free_page pmm m a = (pmm', m') ∧ same_config pmm pmm' ∧
    pmm_repr pmm' m' (a :: l) ∧ agree_off (span a 8) m m'.
Proof.
  intros [Hc Hf Hnd Hn] Ha Hal. unfold free_page. do 2 eexists. split; [done|].
  split; [done|]. unfold pstore.
  pose proof (frame_range a Ha) as Har.
  rewrite direct_phys_ptr by (unfold PAGE_SIZE in Har; lia).
  assert (agree_off (span a 8) m
    (store64 m a (default 0 (free_list_head pmm)))) as Hag.
  { apply agree_off_store64. unfold span. lia. }
  split; [|done]. split; simpl.
  - split; [done|]. rewrite load64_store64_eq.
    assert (link_of (u64 (default 0 (free_list_head pmm))) = free_list_head pmm) as ->.
    { destruct l as [|b l]; simpl in Hc; [by rewrite Hc|]. destruct Hc as [-> _]. simpl.
      apply Forall_cons in Hf as [Hb _]. apply frame_range in Hb.
      unfold PAGE_SIZE, PHYS_LIMIT in Hb.
      rewrite u64_small by (unfold W64; lia). unfold link_of.
      by rewrite (proj2 (Z.eqb_neq b 0)) by lia. }
    apply (free_chain_agree m); [|done]. intros b Hb.
    apply (agree_off_span _ _ a 8); [done|].
    rewrite Forall_forall in Hf. destruct (frame_disjoint a b) as [|]; [done|by apply Hf|set_solver|..];
      unfold apart, PAGE_SIZE in *; lia.
  - by constructor.
  - by constructor.
  - pose proof (frames_length l Hnd Hf). rewrite Hn, u64_small by (unfold W64; lia). lia.
Qed.

(** ** Walking the memory map *)

Definition descriptor_addr (mm : MemoryMapInfo) (i : Z) : Z :=
  memory_map_addr mm + i * descriptor_size mm.

Definition num_segments (mm : MemoryMapInfo) : Z :=
  memory_map_size mm / descriptor_size mm.

(** The descriptors [lo .. lo + n) of the map, as they stand in memory [m]. *)
Definition descriptors_from (m : mem) (mm : MemoryMapInfo) (lo n : Z)
    : list EfiMemoryDescriptor :=
  (λ i, EfiMemoryDescriptor_new m (descriptor_addr mm i)) <$> seqZ lo n.

Definition descriptors (m : mem) (mm : MemoryMapInfo) : list EfiMemoryDescriptor :=
  descriptors_from m mm 0 (num_segments mm).

Definition descriptor_pages (d : EfiMemoryDescriptor) : list Z :=
  (λ i, physical_start d + i * PAGE_SIZE) <$> seqZ 0 (num_pages d).

(** The pages of every descriptor of the given types. *)
Definition pages_of_types (ts : list EfiMemoryType) (ds : list EfiMemoryDescriptor) : list Z :=
  ds ≫= λ d, if region_is d ts then descriptor_pages d else [].

Definition descriptor_ok (d : EfiMemoryDescriptor) : Prop :=
  0 ≤ physical_start d ∧ page_aligned (physical_start d) ∧
  physical_start d + num_pages d * PAGE_SIZE ≤ PHYS_LIMIT.

(** What the firmware guarantees about the memory map: it lies in the window,
    descriptors are whole, the regions of the types in [ts] are page aligned,
    in the window, and share no page. *)
Record boot_map_ok (ts : list EfiMemoryType) (mm : MemoryMapInfo) (m : mem) : Prop := {
  bm_desc_size : 40 ≤ descriptor_size mm;
  bm_addr : 0 ≤ memory_map_addr mm;
  bm_size : 0 ≤ memory_map_size mm;
  bm_end : memory_map_addr mm + memory_map_size mm < PHYS_LIMIT;
  bm_descs : ∀ d, d ∈ descriptors m mm → region_is d ts → descriptor_ok d;
  bm_nodup : NoDup (pages_of_types ts (descriptors m mm));
}.

(** A check that only reads the configuration. *)
Definition config_check (skipped : PhysicalMemoryManager → Z → bool) : Prop :=
  ∀ p q a, same_config p q → skipped q a = skipped p a.

Definition kept (skipped : Z → bool) (pages : list Z) : list Z :=
  base.filter (λ a, skipped a = false) pages.

(** Bytes of the pages of [may] that the checks let through. *)
Definition kept_bytes (may : Z → Prop) (skipped : Z → bool) (x : Z) : Prop :=
  ∃ a, may a ∧ is_frame a ∧ skipped a = false ∧ span a PAGE_SIZE x.

Lemma init_page_config : config_check init_page_skipped.
Proof. by intros p q a ->. Qed.

Lemma kept_cons skipped a l :
  kept skipped (a :: l) = if skipped a then kept skipped l else a :: kept skipped l.
Proof.
  unfold kept. destruct (skipped a) eqn:E.
  - by rewrite filter_cons_False by congruence.
  - by rewrite filter_cons_True by done.
Qed.

Lemma kept_ext f g l : (∀ a, f a = g a) → kept f l = kept g l.
Proof. intros H. apply list_filter_iff. intros a. by rewrite H. Qed.

Lemma kept_app f l k : kept f (l ++ k) = kept f l ++ kept f k.
Proof. apply filter_app. Qed.

(** A descriptor reads the same, through either window, in memories that
    agree on the buffer of the map. *)
Lemma descriptor_agree (P : Z → Prop) mm m m' hh i :
  0 ≤ memory_map_addr mm → memory_map_addr mm + memory_map_size mm < PHYS_LIMIT →
  40 ≤ descriptor_size mm → 0 ≤ i < num_segments mm →
  (∀ x, span (memory_map_addr mm) (memory_map_size mm) x → ¬ P x) → agree_off P m m' →
  EfiMemoryDescriptor_new m' (phys_ptr hh (descriptor_addr mm i))
    = EfiMemoryDescriptor_new m (descriptor_addr mm i).
Proof.
  intros Ha He Hd Hi Hsp Hag. unfold num_segments in Hi.
  assert (i * descriptor_size mm + descriptor_size mm ≤ memory_map_size mm) as Hin.
  { pose proof (Z.mul_div_le (memory_map_size mm) (descriptor_size mm) ltac:(lia)). nia. }
  set (b := descriptor_addr mm i).
  assert (memory_map_addr mm ≤ b ∧ b + 40 ≤ memory_map_addr mm + memory_map_size mm) as Hb.
  { unfold b, descriptor_addr. nia. }
  unfold EfiMemoryDescriptor_new.
  rewrite (direct_phys_ptr hh b), (direct_low b) by lia.
  assert (∀ k, 0 ≤ k ≤ 32 → load64 m' (b + k) = load64 m (b + k)) as Hw.
  { intros k Hk. apply Hag. intros j Hj. apply Hsp. unfold span. lia. }
  rewrite !load32_load64. pose proof (Hw 0 ltac:(lia)) as H0. rewrite Z.add_0_r in H0.
  rewrite H0, !Hw by lia. done.
Qed.

Section walk.
Variable ts : list EfiMemoryType.
Variable skipped : PhysicalMemoryManager → Z → bool.
Hypothesis Hcfg : config_check skipped.
Hypothesis Hzero : ∀ p, skipped p 0 = true.
(** A set that holds every page the walk comes across. *)
Variable may : Z → Prop.

(** One page: freed when it is not skipped. *)
Lemma free_one_page pmm m l a :
  pmm_repr pmm m l → 0 ≤ a → a + PAGE_SIZE ≤ PHYS_LIMIT → page_aligned a →
  may a → (skipped pmm a = false → a ∉ l) →
  ∃ pmm' m', (if skipped pmm a then Done (pmm, m) else Done (free_page pmm m a))
      = Done (pmm', m') ∧
    same_config pmm pmm' ∧ pmm_repr pmm' m' ((if skipped pmm a then [] else [a]) ++ l) ∧
    agree_off (kept_bytes may (skipped pmm)) m m'.
Proof.
  intros Hr Ha Hb Hal Hmay Hl. destruct (skipped pmm a) eqn:E.
  { exists pmm, m. eauto using agree_off_refl with pmm. }
  assert (is_frame a) as Hf.
  { split; [|done]. destruct (decide (a = 0)) as [->|].
    - by rewrite Hzero in E.
    - unfold PAGE_SIZE in Hb. lia. }
  destruct (free_page_cons pmm m l a) as (p' & m' & -> & Hs & Hr' & Hag); [eauto..|].
  exists p', m'. do 3 (split; [done|]). eapply agree_off_mono; [|done].
  intros x Hx. exists a. do 3 (split; [done|]). unfold span, PAGE_SIZE in *. lia.
Qed.

Lemma free_pages_from d n i pmm m l :
  descriptor_ok d → 0 ≤ i → i + Z.of_nat n = num_pages d →
  pmm_repr pmm m l →
  (∀ j, i ≤ j < i + Z.of_nat n → may (physical_start d + j * PAGE_SIZE)) →
  NoDup (kept (skipped pmm)
    ((λ j, physical_start d + j * PAGE_SIZE) <$> seqZ i (Z.of_nat n)) ++ l) →
  ∃ pmm' m',
    for_range n i (fun i '(pmm, m) =>
      let page_start := physical_start d ⊞ i ⊠ PAGE_SIZE in
      if skipped pmm page_start then Done (pmm, m)
      else Done (free_page pmm m page_start)) (pmm, m) = Done (pmm', m') ∧
    same_config pmm pmm' ∧
    pmm_repr pmm' m' (rev (kept (skipped pmm)
      ((λ j, physical_start d + j * PAGE_SIZE) <$> seqZ i (Z.of_nat n))) ++ l) ∧
    agree_off (kept_bytes may (skipped pmm)) m m'.
Proof.
  intros (Hps & Hal & Hlim). revert i pmm m l.
  induction n as [|n IH]; intros i pmm m l Hi Hn Hr Hmay Hnd.
  { exists pmm, m. simpl. eauto using agree_off_refl with pmm. }
  assert (physical_start d ⊞ i ⊠ PAGE_SIZE = physical_start d + i * PAGE_SIZE) as Hwrap.
  { unfold PAGE_SIZE, PHYS_LIMIT in *.
    rewrite (u64_small (i * _)), u64_small by (unfold W64; lia). done. }
  rewrite Nat2Z.inj_succ in *. rewrite seqZ_cons in * by lia.
  rewrite Z.pred_succ in *. rewrite fmap_cons in *. rewrite kept_cons in *.
  set (a := physical_start d + i * PAGE_SIZE) in *.
  destruct (free_one_page pmm m l a) as (p1 & m1 & Hrun & Hs1 & Hr1 & Hag1); [done|..].
  - unfold a, PAGE_SIZE. lia.
  - unfold a, PAGE_SIZE in *. lia.
  - unfold page_aligned, a in *. rewrite Z.mod_add by done. done.
  - apply Hmay. lia.
  - intros E. rewrite E in Hnd. simpl in Hnd. apply NoDup_cons in Hnd as [Hnd _].
    intros Hin. apply Hnd. apply elem_of_app. by right.
  - cbn [for_range]. rewrite Hwrap. fold a. cbv zeta. rewrite Hrun. cbn [mbind outcome_bind].
    assert (∀ b, skipped p1 b = skipped pmm b) as Hsk by eauto.
    destruct (IH (i + 1) p1 m1 ((if skipped pmm a then [] else [a]) ++ l))
      as (p2 & m2 & Hrun2 & Hs2 & Hr2 & Hag2); [lia|lia|done|intros j Hj; apply Hmay; lia|..].
    + rewrite (kept_ext (skipped p1) (skipped pmm)) by done. rewrite Z.add_1_r.
      destruct (skipped pmm a); [done|]. eapply NoDup_Permutation_proper; [|exact Hnd].
      cbn [app]. symmetry. apply Permutation_middle.
    + exists p2, m2. split; [exact Hrun2|]. split; [by eapply same_config_trans|].
      rewrite (kept_ext (skipped p1) (skipped pmm)) in Hr2 by done.
      rewrite Z.add_1_r in Hr2. split.
      * destruct (skipped pmm a); [done|]. cbn [rev]. by rewrite <- app_assoc.
      * eapply agree_off_trans; [done|]. eapply agree_off_mono; [|done].
        intros x (b & ? & ? & E & ?). exists b. by rewrite <- Hsk.
Qed.

(** The page loop of one descriptor frees exactly the pages that pass the
    checks, last page on top. *)
Lemma free_descriptor_pages_ok d pmm m l :
  descriptor_ok d → 0 ≤ num_pages d → pmm_repr pmm m l →
  (∀ a, a ∈ descriptor_pages d → may a) →
  NoDup (kept (skipped pmm) (descriptor_pages d) ++ l) →
  ∃ pmm' m', free_descriptor_pages skipped d (pmm, m) = Done (pmm', m') ∧
    same_config pmm pmm' ∧
    pmm_repr pmm' m' (rev (kept (skipped pmm) (descriptor_pages d)) ++ l) ∧
    agree_off (kept_bytes may (skipped pmm)) m m'.
Proof.
  intros Hd Hn Hr Hmay Hnd. unfold free_descriptor_pages, descriptor_pages in *.
  rewrite <- (Z2Nat.id (num_pages d)) in Hnd |- * by done. rewrite Nat2Z.id.
  apply free_pages_from; [done|lia|lia|done| |done].
  intros j Hj. apply Hmay, list_elem_of_fmap. exists j. split; [done|]. apply elem_of_seqZ. lia.
Qed.

(** The checks keep clear of the memory map itself. *)
Definition spares_map (mm : MemoryMapInfo) (p : PhysicalMemoryManager) : Prop :=
  ∀ a, is_frame a → skipped p a = false →
    apart a PAGE_SIZE (memory_map_addr mm) (memory_map_size mm).

(** A descriptor reads the same before and after pages are freed. *)
Lemma descriptor_stable mm p m m' hh i :
  0 ≤ memory_map_addr mm → memory_map_addr mm + memory_map_size mm < PHYS_LIMIT →
  40 ≤ descriptor_size mm → 0 ≤ i < num_segments mm → spares_map mm p →
  agree_off (kept_bytes may (skipped p)) m m' →
  EfiMemoryDescriptor_new m' (phys_ptr hh (descriptor_addr mm i))
    = EfiMemoryDescriptor_new m (descriptor_addr mm i).
Proof.
  intros Ha He Hd Hi Hsp. apply descriptor_agree; try done.
  intros x Hx (a & _ & Hf & E & Hs). specialize (Hsp a Hf E). unfold apart, span in *. lia.
Qed.

Lemma walk_from mm hh m0 n i pmm m l :
  0 ≤ memory_map_addr mm → memory_map_addr mm + memory_map_size mm < PHYS_LIMIT →
  40 ≤ descriptor_size mm → 0 ≤ i → i + Z.of_nat n = num_segments mm →
  spares_map mm pmm →
  (∀ d, d ∈ descriptors_from m0 mm i (Z.of_nat n) → region_is d ts → descriptor_ok d) →
  agree_off (kept_bytes may (skipped pmm)) m0 m →
  pmm_repr pmm m l →
  (∀ a, a ∈ pages_of_types ts (descriptors_from m0 mm i (Z.of_nat n)) → may a) →
  NoDup (kept (skipped pmm)
    (pages_of_types ts (descriptors_from m0 mm i (Z.of_nat n))) ++ l) →
  ∃ addr pmm' m',
    for_range n i (fun _ '(descriptor_addr, (pmm, m)) =>
      let d := EfiMemoryDescriptor_new m descriptor_addr in
      let descriptor_addr' := descriptor_addr ⊞ descriptor_size mm in
      if negb (region_is d ts) then Done (descriptor_addr', (pmm, m))
      else
        s' ← free_descriptor_pages skipped d (pmm, m);
        Done (descriptor_addr', s'))
      (phys_ptr hh (descriptor_addr mm i), (pmm, m)) = Done (addr, (pmm', m')) ∧
    same_config pmm pmm' ∧
    pmm_repr pmm' m' (rev (kept (skipped pmm)
      (pages_of_types ts (descriptors_from m0 mm i (Z.of_nat n)))) ++ l) ∧
    agree_off (kept_bytes may (skipped pmm)) m0 m'.
Proof.
  intros Ha He Hd. revert i pmm m l.
  induction n as [|n IH]; intros i pmm m l Hi Hn Hsp Hok Hag Hr Hmay Hnd.
  { do 3 eexists. split; [done|]. eauto with pmm. }
  rewrite Nat2Z.inj_succ in *. unfold descriptors_from in Hok, Hnd, Hmay |- *.
  rewrite seqZ_cons in * by lia. rewrite Z.pred_succ in *. rewrite fmap_cons in *.
  cbn [for_range].
  rewrite (descriptor_stable mm pmm m0 m hh i) by (done || lia).
  set (d := EfiMemoryDescriptor_new m0 (descriptor_addr mm i)) in *.
  assert (phys_ptr hh (descriptor_addr mm i) ⊞ descriptor_size mm
    = phys_ptr hh (descriptor_addr mm (i + 1))) as Hstep.
  { unfold descriptor_addr, num_segments in *.
    pose proof (Z.mul_div_le (memory_map_size mm) (descriptor_size mm) ltac:(lia)).
    rewrite phys_ptr_step by nia. f_equal. lia. }
  cbv zeta. rewrite Hstep. cbn [pages_of_types mbind list_bind] in Hnd, Hmay |- *.
  fold (pages_of_types ts (descriptors_from m0 mm (Z.succ i) (Z.of_nat n))) in Hnd, Hmay |- *.
  rewrite <- Z.add_1_r in *. fold (descriptors_from m0 mm (i + 1) (Z.of_nat n)) in Hok, Hnd, Hmay |- *.
  destruct (region_is d ts) eqn:Hreg; cbn [negb].
  2: { destruct (IH (i + 1) pmm m l) as (ad & p' & m' & Hrun & ?);
         [lia|lia|done|set_solver|done|done|done|done|].
       exists ad, p', m'. split; [exact Hrun|]. done. }
  rewrite kept_app in Hnd |- *. rewrite <- app_assoc in Hnd.
  destruct (free_descriptor_pages_ok d pmm m l) as (p1 & m1 & -> & Hs1 & Hr1 & Hag1).
  - apply Hok; [left|by rewrite Hreg].
  - apply load64_range.
  - done.
  - intros a Ha'. apply Hmay, elem_of_app. by left.
  - apply NoDup_app in Hnd as (Hnd1 & Hnd2 & Hnd3). apply NoDup_app in Hnd3 as (? & ? & ?).
    apply NoDup_app. set_solver.
  - cbn [mbind outcome_bind].
    assert (∀ b, skipped p1 b = skipped pmm b) as Hsk by eauto.
    assert (∀ x, kept_bytes may (skipped p1) x ↔ kept_bytes may (skipped pmm) x) as Hkb.
    { intros x. unfold kept_bytes. by setoid_rewrite Hsk. }
    destruct (IH (i + 1) p1 m1 (rev (kept (skipped pmm) (descriptor_pages d)) ++ l))
      as (ad & p2 & m2 & Hrun & Hs2 & Hr2 & Hag2); [lia|lia|..].
    + intros a Hf E. apply Hsp; [done|by rewrite <- Hsk].
    + intros e He'. apply Hok. by right.
    + eapply agree_off_mono; [intros x; apply Hkb|]. by eapply agree_off_trans.
    + done.
    + intros a Ha'. apply Hmay, elem_of_app. by right.
    + rewrite (kept_ext _ (skipped pmm)) by done. eapply NoDup_Permutation_proper; [|exact Hnd].
      rewrite !app_assoc, <- Permutation_rev. f_equiv. apply Permutation_app_comm.
    + exists ad, p2, m2. split; [exact Hrun|]. split; [by eapply same_config_trans|].
      rewrite (kept_ext _ (skipped pmm)) in Hr2 by done.
      split; [|eapply agree_off_mono; [intros x; apply Hkb|done]].
      rewrite rev_app_distr, <- app_assoc. done.
Qed.

(** The whole walk, from either pointer window. *)
Lemma free_map_pages_ok mm hh pmm m l :
  boot_map_ok ts mm m → spares_map mm pmm → pmm_repr pmm m l →
  (∀ a, a ∈ l → a ∉ pages_of_types ts (descriptors m mm)) →
  (∀ a, a ∈ pages_of_types ts (descriptors m mm) → may a) →
  ∃ pmm' m',
    free_map_pages ts skipped (descriptor_size mm) (num_segments mm)
      (phys_ptr hh (memory_map_addr mm)) (pmm, m) = Done (pmm', m') ∧
    same_config pmm pmm' ∧
    pmm_repr pmm' m'
      (rev (kept (skipped pmm) (pages_of_types ts (descriptors m mm))) ++ l) ∧
    agree_off (kept_bytes may (skipped pmm)) m m'.
Proof.
  intros [Hd Ha Hs He Hok Hnd] Hsp Hr Hl Hmay. unfold free_map_pages.
  assert (0 ≤ num_segments mm) by (apply Z.div_pos; lia).
  unfold descriptors in *.
  rewrite <- (Z2Nat.id (num_segments mm)) in Hok, Hnd, Hl, Hmay |- * by done. rewrite Nat2Z.id.
  replace (memory_map_addr mm) with (descriptor_addr mm 0) by (unfold descriptor_addr; lia).
  edestruct (walk_from mm hh m (Z.to_nat (num_segments mm)) 0 pmm m l)
    as (ad & p' & m' & Hrun & ?);
    [done|done|done|done|lia|done|done|apply agree_off_refl|done|done|..].
  - apply NoDup_app. split; [by apply NoDup_filter|]. split; [|apply Hr].
    intros a Hin Hal. apply list_elem_of_filter in Hin as [_ Hin]. by apply (Hl a).
  - exists p', m'. setoid_rewrite Hrun. done.
Qed.
End walk.

(** ** Properties of the operations *)

(** The abstract allocator: a stack of distinct frames.  Releasing something
    that is not a frame, or a frame that is already free, has no abstract
    behaviour. *)
Inductive pmm_op : Type := OpAlloc | OpFree (a : Z).

#[export] Instance is_frame_dec a : Decision (is_frame a).
Proof. unfold is_frame, page_aligned. apply _. Defined.

Definition spec_step (l : list Z) (op : pmm_op) : option (list Z * option Z) :=
  match op with
  | OpAlloc => Some (tail l, head l)
  | OpFree a => if decide (is_frame a ∧ a ∉ l) then Some (a :: l, None) else None
  end.

Fixpoint spec_run (l : list Z) (ops : list pmm_op) : option (list Z * list (option Z)) :=
  match ops with
  | [] => Some (l, [])
  | op :: ops' =>
      '(l1, r) ← spec_step l op;
      '(l2, rs) ← spec_run l1 ops';
      Some (l2, r :: rs)
  end.

(** The same operations on the real manager. *)
Definition pmm_step (s : PhysicalMemoryManager * mem) (op : pmm_op)
    : (PhysicalMemoryManager * mem) * option Z :=
  match op with
  | OpAlloc => let '(r, p) := alloc_page s.1 s.2 in ((p, s.2), r)
  | OpFree a => (free_page s.1 s.2 a, None)
  end.

Fixpoint pmm_run (s : PhysicalMemoryManager * mem) (ops : list pmm_op)
    : (PhysicalMemoryManager * mem) * list (option Z) :=
  match ops with
  | [] => (s, [])
  | op :: ops' =>
      let '(s1, r) := pmm_step s op in
      let '(s2, rs) := pmm_run s1 ops' in
      (s2, r :: rs)
  end.

Lemma pmm_step_refines pmm m l op l' r :
  pmm_repr pmm m l → spec_step l op = Some (l', r) →
  ∃ pmm' m', pmm_step (pmm, m) op = ((pmm', m'), r) ∧ pmm_repr pmm' m' l'.
Proof.
  intros Hr Hs. destruct op as [|a]; simpl in *.
  - injection Hs as <- <-. destruct l as [|b l].
    + rewrite alloc_page_nil by done. eauto.
    + destruct (alloc_page_cons pmm m b l Hr) as (p' & -> & _ & Hr'). eauto.
  - case_decide as Ha; [|done]. injection Hs as <- <-. destruct Ha.
    destruct (free_page_cons pmm m l a) as (p' & m' & -> & _ & Hr' & _); eauto.
Qed.

(** C6. Refinement: for every sequence of allocations and releases that the
    abstract stack of frames accepts, the in-memory free list returns exactly
    the results of the stack (same frames, in the same LIFO order, and [None]
    exactly when it is empty) and ends in a state that represents the stack's
    final content. *)
Theorem pmm_refines_stack (pmm : PhysicalMemoryManager) (m : mem) (l : list Z)
    (ops : list pmm_op) (l' : list Z) (rs : list (option Z)) :
  pmm_repr pmm m l → spec_run l ops = Some (l', rs) →
  ∃ pmm' m', pmm_run (pmm, m) ops = ((pmm', m'), rs) ∧ pmm_repr pmm' m' l'.
Proof.
  revert pmm m l l' rs. induction ops as [|op ops IH]; intros pmm m l l' rs Hr Hs.
  - injection Hs as <- <-. simpl. eauto.
  - cbn [spec_run] in Hs. apply bind_Some in Hs as ([l1 r] & H1 & Hs).
    apply bind_Some in Hs as ([l2 rs'] & H2 & Hs). injection Hs as <- <-.
    destruct (pmm_step_refines pmm m l op l1 r Hr H1) as (p1 & m1 & E1 & Hr1).
    destruct (IH p1 m1 l1 l2 rs' Hr1 H2) as (p2 & m2 & E2 & Hr2).
    exists p2, m2. cbn [pmm_run]. by rewrite E1, E2.
Qed.

(** A small machine used by the witnesses below: three descriptors of 40
    bytes at 0x9000 (a conventional region of four pages from page 0, a
    runtime region, a loader region of two pages), the kernel image in
    0x2000..0x2FFF, the stack in 0x50000..0x50FFF. *)
Definition demo_map : MemoryMapInfo :=
  {| memory_map_addr := 0x9000; memory_map_size := 120; descriptor_size := 40;
     descriptor_ver := 1; bsp_apic_id := 0; kernel_load_addr := 0x2000;
     kernel_image_size := 0x1000; stack_base_addr := 0x50000; stack_size := 0x1000;
     rsdp_addr := 0 |}.

Definition demo_fb : FramebufferInfo :=
  {| framebuffer_addr := 0x80000000; framebuffer_width := 64; framebuffer_height := 32;
     framebuffer_pitch := 256; framebuffer_bpp := 32 |}.

Definition demo_desc (m : mem) (addr ty start pages : Z) : mem :=
  store64 (store64 (store64 m addr ty) (addr + 8) start) (addr + 24) pages.

Definition demo_mem : mem :=
  demo_desc (demo_desc (demo_desc ∅ 0x9000 0x7 0x0 4) 0x9028 0x5 0x20000 2)
    0x9050 0x2 0x30000 2.

Lemma pmm_refines_stack_witness :
  pmm_repr (set_free_list (init_state 0x2000 0x3000 demo_fb demo_map) None 0) ∅ [] ∧
  spec_run [] [OpFree 0x1000; OpFree 0x3000; OpAlloc; OpAlloc; OpAlloc]
    = Some ([], [None; None; Some 0x3000; Some 0x1000; None]) ∧
  ∃ pmm' m',
    pmm_run (set_free_list (init_state 0x2000 0x3000 demo_fb demo_map) None 0, ∅)
      [OpFree 0x1000; OpFree 0x3000; OpAlloc; OpAlloc; OpAlloc]
    = ((pmm', m'), [None; None; Some 0x3000; Some 0x1000; None]) ∧ pmm_repr pmm' m' [].
Proof.
  assert (pmm_repr (set_free_list (init_state 0x2000 0x3000 demo_fb demo_map) None 0) ∅ [])
    as H0 by (split; [done|constructor|constructor|done]).
  assert (spec_run [] [OpFree 0x1000; OpFree 0x3000; OpAlloc; OpAlloc; OpAlloc]
    = Some ([], [None; None; Some 0x3000; Some 0x1000; None])) as H1 by (vm_compute; reflexivity).
  split; [exact H0|]. split; [exact H1|].
  exact (pmm_refines_stack _ _ _ _ _ _ H0 H1).
Defined.

(** Round trip: freeing a frame and allocating again hands the same frame
    back and leaves the manager as it was; only the first eight bytes of that
    frame have changed. *)
Theorem free_alloc_roundtrip (pmm : PhysicalMemoryManager) (m : mem) (l : list Z) (a : Z) :
  pmm_repr pmm m l → is_frame a → a ∉ l →
  let '(pmm1, m1) := free_page pmm m a in
  alloc_page pmm1 m1 = (Some a, pmm) ∧ agree_off (span a 8) m m1.
Proof.
  intros Hr Ha Hl.
  destruct (free_page_cons pmm m l a) as (p1 & m1 & -> & Hs1 & Hr1 & Hag); [done..|].
  split; [|done].
  destruct (alloc_page_cons p1 m1 a l Hr1) as (p2 & -> & Hs2 & Hr2). f_equal.
  rewrite (same_config_trans _ _ _ Hs1 Hs2). destruct Hr as [Hc _ _ Hn], Hr2 as [Hc2 _ _ Hn2].
  assert (free_list_head p2 = free_list_head pmm) as ->.
  { destruct l; simpl in *; [congruence|]. destruct Hc as [-> _], Hc2 as [-> _]. done. }
  rewrite Hn2, <- Hn. by destruct pmm.
Qed.

Lemma free_alloc_roundtrip_witness :
  let pmm := set_free_list (init_state 0x2000 0x3000 demo_fb demo_map) None 0 in
  let '(pmm1, m1) := free_page pmm ∅ 0x5000 in
  alloc_page pmm1 m1 = (Some 0x5000, pmm) ∧ agree_off (span 0x5000 8) ∅ m1.
Proof.
  refine (free_alloc_roundtrip _ ∅ [] 0x5000 _ _ _).
  - split; [done|constructor|constructor|done].
  - by apply (bool_decide_unpack _); vm_compute.
  - apply not_elem_of_nil.
Defined.

(** A page the checks let through keeps clear of a region that does not wrap
    past the end of the address space. *)
Lemma page_overlaps_false a s n :
  is_frame a → 0 ≤ s → 0 ≤ n → s + n < W64 →
  page_overlaps a (a ⊞ PAGE_SIZE ⊟ 1) s (s ⊞ n) = false → apart a PAGE_SIZE s n.
Proof.
  intros Ha Hs Hn Hw. apply frame_range in Ha as [? ?]. unfold page_overlaps, apart, PHYS_LIMIT in *.
  rewrite (u64_small (s + n)), (u64_small (a + _)), u64_small
    by (unfold W64, PAGE_SIZE in *; lia).
  intros [?%Z.leb_gt|?%Z.leb_gt]%andb_false_iff; unfold PAGE_SIZE in *; lia.
Qed.

Lemma init_spares_map kstart kend fb mm :
  0 ≤ memory_map_addr mm → 0 ≤ memory_map_size mm →
  memory_map_addr mm + memory_map_size mm < PHYS_LIMIT →
  spares_map init_page_skipped mm (init_state kstart kend fb mm).
Proof.
  intros Ha Hs He a Hf E. unfold init_page_skipped in E.
  rewrite !orb_false_iff in E. destruct E as ((((_ & E) & _) & _) & _).
  apply page_overlaps_false; [done..| |exact E]. unfold W64, PHYS_LIMIT in *. lia.
Qed.

Definition conventional_pages (m : mem) (mm : MemoryMapInfo) : list Z :=
  pages_of_types [EfiConventionalMemory] (descriptors m mm).

Lemma init_ok kstart kend fb mm m :
  boot_map_ok [EfiConventionalMemory] mm m →
  ∃ pmm m', init kstart kend fb mm m = Done (pmm, m') ∧
    same_config (init_state kstart kend fb mm) pmm ∧
    pmm_repr pmm m' (rev (kept (init_page_skipped (init_state kstart kend fb mm))
                            (conventional_pages m mm))) ∧
    agree_off (kept_bytes (λ _, True) (init_page_skipped (init_state kstart kend fb mm))) m m'.
Proof.
  intros Hok. pose proof Hok as [Hd Ha Hs He _ _]. unfold init, checked_div. cbn -[free_map_pages].
  rewrite (proj2 (Z.eqb_neq _ _)) by lia. cbn [mbind outcome_bind].
  destruct (free_map_pages_ok [EfiConventionalMemory] init_page_skipped) with
    (may := λ _ : Z, True) (mm := mm) (hh := false) (pmm := init_state kstart kend fb mm) (m := m) (l := @nil Z)
    as (p & m' & Hrun & Hc & Hr & Hag).
  - apply init_page_config.
  - done.
  - done.
  - by apply init_spares_map.
  - split; [done|constructor|constructor|done].
  - set_solver.
  - done.
  - rewrite app_nil_r in Hr. eauto 10.
Qed.

(** [PhysicalMemoryManager::init] always completes on a sane memory map,
    and then the free list holds exactly the conventional pages of the map
    that pass the reservation checks, last page on top, each once; the
    descriptors themselves are left intact although the pages are linked
    while the map is still being read. *)
Theorem init_free_list (kstart kend : Z) (fb : FramebufferInfo) (mm : MemoryMapInfo) (m : mem) :
  boot_map_ok [EfiConventionalMemory] mm m →
  ∃ pmm m', init kstart kend fb mm m = Done (pmm, m') ∧
    same_config (init_state kstart kend fb mm) pmm ∧
    pmm_repr pmm m' (rev (kept (init_page_skipped (init_state kstart kend fb mm))
                            (conventional_pages m mm))) ∧
    descriptors m' mm = descriptors m mm.
Proof.
  intros Hok. destruct (init_ok kstart kend fb mm m Hok) as (p & m' & Hrun & Hc & Hr & Hag).
  exists p, m'. do 3 (split; [done|]). destruct Hok as [Hd Ha Hs He _ _].
  unfold descriptors, descriptors_from. apply list_fmap_ext. intros k i Hi.
  apply list_elem_of_lookup_2, elem_of_seqZ in Hi.
  apply (descriptor_stable init_page_skipped (λ _, True) mm (init_state kstart kend fb mm) m m' false i);
    (done || lia || by apply init_spares_map).
Qed.

Lemma demo_map_ok : boot_map_ok [EfiConventionalMemory] demo_map demo_mem.
Proof.
  split; try done.
  - intros d Hd Hr.
    assert (Forall (λ d, region_is d [EfiConventionalMemory] → descriptor_ok d)
      (descriptors demo_mem demo_map)) as Hall.
    { unfold descriptor_ok, page_aligned. apply (bool_decide_unpack _). vm_compute. exact I. }
    rewrite Forall_forall in Hall. by apply Hall.
  - apply (bool_decide_unpack _). vm_compute. exact I.
Qed.

Lemma init_free_list_witness :
  boot_map_ok [EfiConventionalMemory] demo_map demo_mem ∧
  ∃ pmm m', init 0x2000 0x2FFF demo_fb demo_map demo_mem = Done (pmm, m') ∧
    same_config (init_state 0x2000 0x2FFF demo_fb demo_map) pmm ∧
    pmm_repr pmm m' [0x3000; 0x1000] ∧
    descriptors m' demo_map = descriptors demo_mem demo_map.
Proof.
  split; [exact demo_map_ok|].
  exact (init_free_list 0x2000 0x2FFF demo_fb demo_map demo_mem demo_map_ok).
Defined.

Lemma alloc_run_in n pmm m l a :
  pmm_repr pmm m l → Some a ∈ (pmm_run (pmm, m) (replicate n OpAlloc)).2 → a ∈ l.
Proof.
  revert pmm l. induction n as [|n IH]; intros pmm l Hr; cbn; [set_solver|].
  destruct l as [|b l].
  - rewrite alloc_page_nil by done. specialize (IH pmm [] Hr).
    destruct (pmm_run (pmm, m) (replicate n OpAlloc)). set_solver.
  - destruct (alloc_page_cons pmm m b l Hr) as (p' & -> & _ & Hr'). specialize (IH p' l Hr').
    destruct (pmm_run (p', m) (replicate n OpAlloc)). set_solver.
Qed.

(** The four regions [init] must not hand out, as start and length. *)
Definition reserved_regions (kstart kend : Z) (fb : FramebufferInfo) (mm : MemoryMapInfo)
    : list (Z * Z) :=
  [(memory_map_addr mm, memory_map_size mm); (kstart, kend - kstart);
   (stack_base_addr mm, stack_size mm); (framebuffer_addr fb, fb_size fb)].

Definition region_ok (r : Z * Z) : Prop := 0 ≤ r.1 ∧ 0 ≤ r.2 ∧ r.1 + r.2 < W64.

Lemma init_kept_spec kstart kend fb mm a :
  Forall region_ok (reserved_regions kstart kend fb mm) → is_frame a →
  init_page_skipped (init_state kstart kend fb mm) a = false →
  Forall (λ r, apart a PAGE_SIZE r.1 r.2) (reserved_regions kstart kend fb mm).
Proof.
  unfold init_page_skipped, reserved_regions. rewrite !orb_false_iff, !Forall_cons.
  intros (H1 & H2 & H3 & H4 & _) Hf ((((_ & E1) & E2) & E3) & E4).
  split_and!; [..|constructor]; destruct H1 as (?&?&?), H2 as (?&?&?), H3 as (?&?&?), H4 as (?&?&?);
    cbn [fst snd] in *; apply page_overlaps_false; try done.
  replace (kstart + (kend - kstart)) with kend in * by lia. by rewrite (u64_small kend) by lia.
Qed.

(** C13. Safety of the boot-time free list: however many pages are allocated
    after [init], every page handed out is a non-null page of a conventional
    region that does not touch the memory map, the kernel image, the kernel
    stack or the framebuffer. *)
Theorem init_alloc_safe (kstart kend : Z) (fb : FramebufferInfo) (mm : MemoryMapInfo) (m : mem)
    (pmm : PhysicalMemoryManager) (m' : mem) (n : nat) (a : Z) :
  boot_map_ok [EfiConventionalMemory] mm m →
  Forall region_ok (reserved_regions kstart kend fb mm) →
  init kstart kend fb mm m = Done (pmm, m') →
  Some a ∈ (pmm_run (pmm, m') (replicate n OpAlloc)).2 →
  a ∈ conventional_pages m mm ∧ a ≠ 0 ∧
  Forall (λ r, apart a PAGE_SIZE r.1 r.2) (reserved_regions kstart kend fb mm).
Proof.
  intros Hok Hreg Hrun Hin.
  destruct (init_ok kstart kend fb mm m Hok) as (p & m1 & Hrun' & _ & Hr & _).
  rewrite Hrun in Hrun'. injection Hrun' as <- <-.
  pose proof (alloc_run_in n pmm m' _ a Hr Hin) as Ha.
  pose proof (proj1 (Forall_forall _ _) (repr_frames _ _ _ Hr) a Ha) as Hf.
  apply list_elem_of_In, in_rev, list_elem_of_In, list_elem_of_filter in Ha as [E Ha].
  split; [done|]. split; [destruct Hf; lia|]. by apply init_kept_spec.
Qed.

(** The state [init] leaves the demo machine in. *)
Definition demo_booted : PhysicalMemoryManager * mem :=
  done_or (init_state 0x2000 0x2FFF demo_fb demo_map, demo_mem)
    (init 0x2000 0x2FFF demo_fb demo_map demo_mem).

Lemma demo_booted_init :
  init 0x2000 0x2FFF demo_fb demo_map demo_mem = Done (demo_booted.1, demo_booted.2).
Proof.
  assert (is_done (init 0x2000 0x2FFF demo_fb demo_map demo_mem) = true) as H
    by (vm_compute; reflexivity).
  unfold demo_booted. destruct (init 0x2000 0x2FFF demo_fb demo_map demo_mem) as [[]| |]; done.
Qed.

Lemma demo_booted_alloc :
  (pmm_run (demo_booted.1, demo_booted.2) (replicate 4 OpAlloc)).2
    = [Some 0x3000; Some 0x1000; None; None].
Proof. vm_compute. reflexivity. Qed.

Lemma init_alloc_safe_witness :
  0x1000 ∈ conventional_pages demo_mem demo_map ∧ 0x1000 ≠ 0 ∧
  Forall (λ r, apart 0x1000 PAGE_SIZE r.1 r.2) (reserved_regions 0x2000 0x2FFF demo_fb demo_map).
Proof.
  apply (init_alloc_safe 0x2000 0x2FFF demo_fb demo_map demo_mem demo_booted.1 demo_booted.2 4);
    [exact demo_map_ok| |exact demo_booted_init|rewrite demo_booted_alloc; set_solver].
  apply (bool_decide_unpack _). vm_compute. exact I.
Defined.
