(* ===== verification/Vmm.v ===== *)
(** * Vmm.v: four-level page tables (memory_manager/vmm.rs)

    PML4, PDPT, PD and PT are 512-entry tables of 64-bit words in physical
    memory.  The definitions follow vmm.rs pointer by pointer; the invariant
    and the abstract translation are stated over paths of table indices. *)

From S2P Require Import Prelude Machine Pmm.

Local Open Scope Z_scope.

(** ** Operations *)

Definition pml4_index (va : Z) : Z := Z.land (Z.shiftr va 39) 0x1FF.
Definition pdpt_index (va : Z) : Z := Z.land (Z.shiftr va 30) 0x1FF.
Definition pd_index (va : Z) : Z := Z.land (Z.shiftr va 21) 0x1FF.
Definition pt_index (va : Z) : Z := Z.land (Z.shiftr va 12) 0x1FF.
Definition page_offset (va : Z) : Z := Z.land va 0xFFF.

(** [e & PRESENT == 0] *)
Definition absent (e : Z) : bool := Z.land e PRESENT =? 0.

(** [e & !0xFFF] *)
Definition pte_addr (e : Z) : Z := Z.land e (not64 0xFFF).

(** [page_cursor.add(i).write_volatile(0)] for [i] in [i .. i + n). *)
Fixpoint zero_words (n : nat) (m : mem) (page_cursor i : Z) : mem :=
  match n with
  | O => m
  | S n' => zero_words n' (pstore m (ptr_add8 page_cursor i) 0) page_cursor (i + 1)
  end.

Definition zero_out_page (m : mem) (address : Z) : mem := zero_words 512 m address 0.

Definition get_or_create_table (pmm : PhysicalMemoryManager) (m : mem)
    (table index intermediate_flags : Z) : outcome (Z * PhysicalMemoryManager * mem) :=
  let entry := ptr_add8 table index in
  '(pmm1, m1) ←
    (if absent (pload m entry) then
       let '(r, pmm1) := alloc_page pmm m in
       new_table_phys ← expect "[CRITICAL] OOM during page table walk!" r;
       let new_table_virt := phys_ptr (is_higher_half pmm1) new_table_phys in
       let m1 := zero_out_page m new_table_virt in
       Done (pmm1, pstore m1 entry (Z.lor new_table_phys intermediate_flags))
     else Done (pmm, m));
  let phys := pte_addr (pload m1 entry) in
  Done (phys_ptr (is_higher_half pmm1) phys, pmm1, m1).

Definition map_page (pmm : PhysicalMemoryManager) (m : mem)
    (pml4_addr virtual_addr physical_addr flags : Z) (is_user_page : bool)
    : outcome (PhysicalMemoryManager * mem) :=
  let intermediate_flags :=
    if is_user_page then Z.lor (Z.lor PRESENT WRITABLE) USER else Z.lor PRESENT WRITABLE in
  '(pdpt, pmm1, m1) ←
    get_or_create_table pmm m pml4_addr (pml4_index virtual_addr) intermediate_flags;
  '(pd, pmm2, m2) ←
    get_or_create_table pmm1 m1 pdpt (pdpt_index virtual_addr) intermediate_flags;
  '(pt, pmm3, m3) ←
    get_or_create_table pmm2 m2 pd (pd_index virtual_addr) intermediate_flags;
  let pte := ptr_add8 pt (pt_index virtual_addr) in
  Done (pmm3, pstore m3 pte (Z.lor (Z.lor (pte_addr physical_addr) flags) PRESENT)).

(** The pointer built from a table entry [e]: its address bits plus the
    direct map base. *)
Definition table_ptr (e : Z) : Z := pte_addr e ⊞ KERNEL_PHYSICAL_MAP_BASE.

Definition get_physical_addr (m : mem) (pml4_addr virtual_addr : Z) : option Z :=
  let pml4e := ptr_add8 pml4_addr (pml4_index virtual_addr) in
  if absent (pload m pml4e) then None else
  let pdpt := table_ptr (pload m pml4e) in
  let pdpte := ptr_add8 pdpt (pdpt_index virtual_addr) in
  if absent (pload m pdpte) then None else
  let pd := table_ptr (pload m pdpte) in
  let pde := ptr_add8 pd (pd_index virtual_addr) in
  if absent (pload m pde) then None else
  let pt := table_ptr (pload m pde) in
  let pte := ptr_add8 pt (pt_index virtual_addr) in
  if absent (pload m pte) then None else
  Some (Z.lor (pte_addr (pload m pte)) (page_offset virtual_addr)).

Fixpoint is_table_empty_from (n : nat) (m : mem) (table i : Z) : bool :=
  match n with
  | O => true
  | S n' =>
      if negb (absent (pload m (ptr_add8 table i))) then false
      else is_table_empty_from n' m table (i + 1)
  end.

Definition is_table_empty (m : mem) (table : Z) : bool := is_table_empty_from 512 m table 0.

(** [unmap_page].  [invlpg] has no effect on memory. *)
Definition unmap_page (pmm : PhysicalMemoryManager) (m : mem) (pml4_addr virtual_addr : Z)
    : bool * PhysicalMemoryManager * mem :=
  let pml4e := ptr_add8 pml4_addr (pml4_index virtual_addr) in
  if absent (pload m pml4e) then (false, pmm, m) else
  let pdpt := table_ptr (pload m pml4e) in
  let pdpte := ptr_add8 pdpt (pdpt_index virtual_addr) in
  if absent (pload m pdpte) then (false, pmm, m) else
  let pd := table_ptr (pload m pdpte) in
  let pde := ptr_add8 pd (pd_index virtual_addr) in
  if absent (pload m pde) then (false, pmm, m) else
  let pt := table_ptr (pload m pde) in
  let pte := ptr_add8 pt (pt_index virtual_addr) in
  if absent (pload m pte) then (false, pmm, m) else
  let m1 := pstore m pte 0 in
  if negb (is_table_empty m1 pt) then (true, pmm, m1) else
  let pt_phys := pte_addr (pload m1 pde) in
  let '(pmm2, m2) := free_page pmm (pstore m1 pde 0) pt_phys in
  if negb (is_table_empty m2 pd) then (true, pmm2, m2) else
  let pd_phys := pte_addr (pload m2 pdpte) in
  let '(pmm3, m3) := free_page pmm2 (pstore m2 pdpte 0) pd_phys in
  if negb (is_table_empty m3 pdpt) then (true, pmm3, m3) else
  let pdpt_phys := pte_addr (pload m3 pml4e) in
  let '(pmm4, m4) := free_page pmm3 (pstore m3 pml4e 0) pdpt_phys in
  (true, pmm4, m4).

(** ** Paths of table indices *)

Definition entry_at (m : mem) (f i : Z) : Z := load64 m (f + 8 * i).

(** The table reached from the table at frame [f] by following [path]. *)
Fixpoint walk (m : mem) (f : Z) (path : list Z) : option Z :=
  match path with
  | [] => Some f
  | i :: path' =>
      if absent (entry_at m f i) then None else walk m (pte_addr (entry_at m f i)) path'
  end.

(** The present entry with index [i] of the table at [path]. *)
Definition pt_entry (m : mem) (root : Z) (path : list Z) (i : Z) : option Z :=
  f ← walk m root path;
  if absent (entry_at m f i) then None else Some (entry_at m f i).

Definition is_index (i : Z) : Prop := 0 ≤ i < 512.

(** Paths to tables: the PML4 has the empty path, a PT one of length three. *)
Definition table_path (p : list Z) : Prop := (length p ≤ 3)%nat ∧ Forall is_index p.

(** The path to the PT of a virtual address. *)
Definition va_path (va : Z) : list Z := [pml4_index va; pdpt_index va; pd_index va].

(** The abstract translation: the present PTE of a virtual address. *)
Definition pte_of (m : mem) (root va : Z) : option Z := pt_entry m root (va_path va) (pt_index va).

(** The page tables under [root] form a tree of frames: every table is a page
    frame and is reached by one path only. *)
Record pt_wf (m : mem) (root : Z) : Prop := {
  pw_frame : ∀ p f, table_path p → walk m root p = Some f → is_frame f;
  pw_inj : ∀ p q f, table_path p → table_path q →
    walk m root p = Some f → walk m root q = Some f → p = q;
}.

(** The invariant of the memory manager: the free list is well formed, the
    page tables are a tree, and no table is on the free list. *)
Record vm_inv (pmm : PhysicalMemoryManager) (m : mem) (root : Z) (l : list Z) : Prop := {
  vi_pmm : pmm_repr pmm m l;
  vi_wf : pt_wf m root;
  vi_apart : ∀ p f, table_path p → walk m root p = Some f → f ∉ l;
}.

(** The frames the memory manager owns: free pages and page tables. *)
Definition owned (m : mem) (root : Z) (l : list Z) (f : Z) : Prop :=
  f ∈ l ∨ ∃ p, table_path p ∧ walk m root p = Some f.

Definition owned_bytes (m : mem) (root : Z) (l : list Z) (x : Z) : Prop :=
  ∃ f, owned m root l f ∧ span f PAGE_SIZE x.

(** A step that writes owned frames only and neither loses nor gains one. *)
Definition confined (m : mem) (root : Z) (l : list Z) (m' : mem) (l' : list Z) : Prop :=
  (∀ f, owned m' root l' f ↔ owned m root l f) ∧ agree_off (owned_bytes m root l) m m'.

Lemma confined_refl m root l : confined m root l m l.
Proof. split; [done|apply agree_off_refl]. Qed.

Lemma confined_trans m root l m1 l1 m2 l2 :
  confined m root l m1 l1 → confined m1 root l1 m2 l2 → confined m root l m2 l2.
Proof.
  intros [H1 A1] [H2 A2]. split; [intros f; by rewrite H2, H1|].
  eapply agree_off_trans; [done|]. eapply agree_off_mono; [|done].
  intros x (f & Hf & Hx). exists f. by rewrite <- H1.
Qed.

(** The links between tables that are present stay as they are. *)
Definition links_kept (m m' : mem) (root : Z) : Prop :=
  ∀ q j, table_path (q ++ [j]) → is_Some (pt_entry m root q j) → pt_entry m' root q j = pt_entry m root q j.

Lemma links_kept_refl m root : links_kept m m root.
Proof. done. Qed.

Lemma links_kept_trans m1 m2 m3 root : links_kept m1 m2 root → links_kept m2 m3 root → links_kept m1 m3 root.
Proof. intros H1 H2 q j Hq Hs. rewrite H2; [by apply H1|done|by rewrite H1]. Qed.

(** A write of one word of a table. *)
Lemma owned_store m root l p f i v :
  table_path p → walk m root p = Some f → is_index i →
  agree_off (owned_bytes m root l) m (store64 m (f + 8 * i) v).
Proof.
  intros Hp Hf Hi. apply agree_off_store64. intros j Hj. exists f.
  split; [right; eauto|]. unfold span, is_index, PAGE_SIZE in *. lia.
Qed.

(** [table] is a pointer, through either window, to the table at frame [f]. *)
Definition ptr_to (table f : Z) : Prop :=
  ∀ i, is_index i → direct (ptr_add8 table i) = f + 8 * i.

(** ** Entries, flags and pointers *)

Create HintDb vmm.

Lemma absent_0 : absent 0 = true.
Proof. done. Qed.

Lemma absent_lor e : absent (Z.lor e PRESENT) = false.
Proof.
  apply Z.eqb_neq. rewrite Z.land_lor_distr_l. intros [_ H]%Z.lor_eq_0_iff. done.
Qed.

Lemma index_land a : is_index (Z.land a 0x1FF).
Proof.
  change 0x1FF with (Z.ones 9). rewrite Z.land_ones by done.
  apply (Z.mod_pos_bound a 512). done.
Qed.

Lemma pml4_index_ok va : is_index (pml4_index va). Proof. apply index_land. Qed.
Lemma pdpt_index_ok va : is_index (pdpt_index va). Proof. apply index_land. Qed.
Lemma pd_index_ok va : is_index (pd_index va). Proof. apply index_land. Qed.
Lemma pt_index_ok va : is_index (pt_index va). Proof. apply index_land. Qed.

#[export] Hint Resolve pml4_index_ok pdpt_index_ok pd_index_ok pt_index_ok : vmm.

Lemma frame_in_u64 f : is_frame f → in_u64 f.
Proof. intros [? _]. unfold in_u64, W64, PHYS_LIMIT in *. lia. Qed.

(** A table entry built from a frame and flag bits gives the frame back. *)
Lemma pte_addr_frame f flags : is_frame f → 0 ≤ flags < 4096 → pte_addr (Z.lor f flags) = f.
Proof.
  intros Hf Hfl. pose proof (frame_range f Hf) as Hr. destruct Hf as [_ Hal].
  unfold pte_addr, page_aligned, PAGE_SIZE, PHYS_LIMIT in *.
  change 0xFFF with (2 ^ 12 - 1).
  rewrite (lor_aligned f flags 12) by (done || lia).
  rewrite land_not64_mask by (unfold in_u64, W64; lia).
  change (2 ^ 12) with 4096. rewrite <- Zplus_mod_idemp_l, Hal, Z.mod_small by lia. lia.
Qed.

Lemma ptr_to_phys hh f : is_frame f → ptr_to (phys_ptr hh f) f.
Proof.
  intros Hf i Hi. apply frame_range in Hf. unfold is_index, PAGE_SIZE in *.
  apply direct_ptr_add8; lia.
Qed.

Lemma ptr_to_load m table f i : ptr_to table f → is_index i →
  pload m (ptr_add8 table i) = entry_at m f i.
Proof. intros H Hi. unfold pload, entry_at. by rewrite H. Qed.

Lemma ptr_to_store m table f i v : ptr_to table f → is_index i →
  pstore m (ptr_add8 table i) v = store64 m (f + 8 * i) v.
Proof. intros H Hi. unfold pstore. by rewrite H. Qed.

(** Different entries of frames do not overlap. *)
Lemma entry_apart f i g j :
  is_frame f → is_frame g → is_index i → is_index j → (f, i) ≠ (g, j) →
  apart (f + 8 * i) 8 (g + 8 * j) 8.
Proof.
  intros Hf Hg Hi Hj Hne. unfold is_index, apart in *.
  destruct (decide (f = g)) as [->|Hfg].
  - destruct (decide (i = j)) as [->|]; [done|lia].
  - destruct (frame_disjoint f g Hf Hg Hfg); unfold PAGE_SIZE in *; lia.
Qed.

Lemma entry_page_apart f i g :
  is_frame f → is_frame g → is_index i → f ≠ g → apart g PAGE_SIZE (f + 8 * i) 8.
Proof.
  intros Hf Hg Hi Hne. unfold is_index, apart in *.
  destruct (frame_disjoint f g Hf Hg Hne); unfold PAGE_SIZE in *; lia.
Qed.

Lemma entry_at_store_same m f i v : in_u64 v → entry_at (store64 m (f + 8 * i) v) f i = v.
Proof. apply load64_store64_same. Qed.

Lemma entry_at_store_other m f i g j v :
  is_frame f → is_frame g → is_index i → is_index j → (f, i) ≠ (g, j) →
  entry_at (store64 m (f + 8 * i) v) g j = entry_at m g j.
Proof. intros. by apply load64_store64_ne, entry_apart. Qed.

(** ** Zeroing a page *)

Lemma zero_words_spec hh f n m i :
  is_frame f → 0 ≤ i → i + Z.of_nat n ≤ 512 →
  agree_off (span f PAGE_SIZE) m (zero_words n m (phys_ptr hh f) i) ∧
  ∀ j, is_index j → entry_at (zero_words n m (phys_ptr hh f) i) f j
    = if decide (i ≤ j < i + Z.of_nat n) then 0 else entry_at m f j.
Proof.
  intros Hf. revert m i. induction n as [|n IH]; intros m i Hi Hn; cbn [zero_words].
  { split; [apply agree_off_refl|]. intros j Hj. rewrite decide_False by lia. done. }
  assert (is_index i) as Hii by (unfold is_index; lia).
  rewrite (ptr_to_store m _ f i 0) by (done || by apply ptr_to_phys).
  destruct (IH (store64 m (f + 8 * i) 0) (i + 1)) as [Hag Hz]; [lia|lia|]. split.
  - eapply agree_off_trans; [|done]. apply agree_off_store64.
    unfold span, is_index, PAGE_SIZE in *. lia.
  - intros j Hj. rewrite Hz by done.
    destruct (decide (j = i)) as [->|].
    + rewrite decide_False by lia. rewrite decide_True by lia. by apply entry_at_store_same.
    + rewrite entry_at_store_other by (done || congruence).
      repeat case_decide; (lia || done).
Qed.

Lemma zero_out_page_agree hh m f : is_frame f →
  agree_off (span f PAGE_SIZE) m (zero_out_page m (phys_ptr hh f)).
Proof. intros Hf. by apply (zero_words_spec hh f 512 m 0 Hf). Qed.

Lemma zero_out_page_entry hh m f j : is_frame f → is_index j →
  entry_at (zero_out_page m (phys_ptr hh f)) f j = 0.
Proof.
  intros Hf Hj. unfold zero_out_page.
  destruct (zero_words_spec hh f 512 m 0 Hf) as [_ Hz]; [lia|lia|].
  rewrite Hz, decide_True; [done| |done]. unfold is_index in Hj. lia.
Qed.

(** ** Walking edited tables *)

Lemma walk_app m f p q : walk m f (p ++ q) = walk m f p ≫= λ g, walk m g q.
Proof.
  revert f. induction p as [|i p IH]; intros f; simpl; [done|].
  destruct (absent _); [done|]. apply IH.
Qed.

Lemma walk_snoc m f p i :
  walk m f (p ++ [i]) = pte_addr <$> pt_entry m f p i.
Proof.
  rewrite walk_app. unfold pt_entry. destruct (walk m f p) as [g|]; simpl; [|done].
  by destruct (absent _).
Qed.

Lemma table_path_prefix p q : table_path (p ++ q) → table_path p.
Proof. unfold table_path. rewrite length_app, Forall_app. intros [? [? _]]. split; [lia|done]. Qed.

(** [edited m m' root p i]: among the entries of reachable tables, only entry
    [i] of the table at [p] and entries below it may differ. *)
Definition edited (m m' : mem) (root : Z) (p : list Z) (i : Z) : Prop :=
  ∀ r f j, table_path r → walk m root r = Some f → is_index j →
    ¬ (p ++ [i]) `prefix_of` (r ++ [j]) → entry_at m' f j = entry_at m f j.

(** A write that spares every entry but [i] of [t] is such an edit. *)
Lemma edited_intro m m' root t i p :
  table_path p → walk m root p = Some t →
  (∀ r f j, table_path r → walk m root r = Some f → is_index j → (f, j) ≠ (t, i) →
    walk m root (p ++ [i]) ≠ Some f → entry_at m' f j = entry_at m f j) →
  table_path (p ++ [i]) ∨ walk m root (p ++ [i]) = None →
  pt_wf m root → edited m m' root p i.
Proof.
  intros Hp Ht H Hpi Hwf r f j Hr Hf Hj Hnp. apply (H r); try done.
  - intros [= -> ->]. apply Hnp. by rewrite (pw_inj _ _ Hwf p r t).
  - intros Hc. destruct Hpi as [Hpi|Hpi]; [|by rewrite Hpi in Hc].
    apply Hnp. rewrite (pw_inj _ _ Hwf (p ++ [i]) r f) by done. by exists [j].
Qed.

Section edit.
Context (m m' : mem) (root i : Z) (p : list Z).
Hypothesis Hed : edited m m' root p i.

Lemma walk_edit_from r f q :
  walk m root r = Some f → table_path (r ++ q) → ¬ (p ++ [i]) `prefix_of` (r ++ q) →
  walk m' f q = walk m f q.
Proof.
  revert r f. induction q as [|j q IH]; intros r f Hr Hrq Hnp; [done|].
  assert (table_path r) as Htr by by eapply table_path_prefix.
  assert (is_index j) as Hj.
  { destruct Hrq as [_ Hf]. rewrite Forall_app, Forall_cons in Hf. tauto. }
  cbn [walk]. rewrite (Hed r f j); [|done..|].
  2: { intros [k Hk]. apply Hnp. exists (k ++ q). rewrite app_assoc, <- Hk. by rewrite <- app_assoc. }
  destruct (absent (entry_at m f j)) eqn:E; [done|].
  apply (IH (r ++ [j])).
  - rewrite walk_app, Hr. simpl. by rewrite E.
  - by rewrite <- app_assoc.
  - by rewrite <- app_assoc.
Qed.

(** Paths that do not go through the edited entry walk as before. *)
Lemma walk_edit q : table_path q → ¬ (p ++ [i]) `prefix_of` q → walk m' root q = walk m root q.
Proof. by apply (walk_edit_from [] root). Qed.

Lemma not_prefix_short q : (length q ≤ length p)%nat → ¬ (p ++ [i]) `prefix_of` q.
Proof. intros Hl Hpre%prefix_length. rewrite length_app in Hpre. simpl in Hpre. lia. Qed.

Lemma walk_edit_self : table_path p → walk m' root p = walk m root p.
Proof. intros. apply walk_edit; [done|]. apply not_prefix_short. lia. Qed.

Lemma pt_entry_edit q j :
  table_path q → is_index j → ¬ (p ++ [i]) `prefix_of` (q ++ [j]) →
  pt_entry m' root q j = pt_entry m root q j.
Proof.
  intros Hq Hj Hnp. unfold pt_entry. rewrite walk_edit; [|done|].
  2: { intros [k ->]. apply Hnp. exists (k ++ [j]). by rewrite <- !app_assoc. }
  destruct (walk m root q) as [f|] eqn:Hf; [|done]. simpl. by rewrite (Hed q f j).
Qed.
End edit.

(** ** The three edits the code makes *)

Section link.
Context (m m' : mem) (root t i n : Z) (p : list Z).
Hypothesis Hwf : pt_wf m root.
Hypothesis Hp : table_path (p ++ [i]).
Hypothesis Ht : walk m root p = Some t.
Hypothesis Habs : absent (entry_at m t i) = true.
Hypothesis Hed : edited m m' root p i.
Hypothesis Hn : is_frame n.
Hypothesis Hfresh : ∀ q f, table_path q → walk m root q = Some f → f ≠ n.
Hypothesis Hnew : absent (entry_at m' t i) = false ∧ pte_addr (entry_at m' t i) = n.
Hypothesis Hzero : ∀ j, is_index j → entry_at m' n j = 0.

Let Hp' : table_path p := table_path_prefix _ _ Hp.

Lemma link_none q : walk m root (p ++ i :: q) = None.
Proof. rewrite walk_app, Ht. simpl. by rewrite Habs. Qed.

Lemma link_self : walk m' root (p ++ [i]) = Some n.
Proof.
  rewrite walk_app, (walk_edit_self m m' root i p), Ht by done. simpl.
  destruct Hnew as [-> ->]. done.
Qed.

Lemma link_walk q : table_path q →
  walk m' root q = if decide (q = p ++ [i]) then Some n else walk m root q.
Proof.
  intros Hq. case_decide as E; [subst; apply link_self|].
  destruct (decide ((p ++ [i]) `prefix_of` q)) as [[k ->]|Hnp].
  - rewrite walk_app, link_self, <- app_assoc. cbn [app]. rewrite link_none.
    destruct k as [|j k]; [by rewrite app_nil_r in E|]. simpl. rewrite Hzero; [done|].
    destruct Hq as [_ Hf]. rewrite Forall_app, Forall_cons in Hf. tauto.
  - by apply (walk_edit m m' root i p).
Qed.

Lemma link_entry q j : table_path q → is_index j → q ++ [j] ≠ p ++ [i] →
  pt_entry m' root q j = pt_entry m root q j.
Proof.
  intros Hq Hj Hne. destruct (decide ((p ++ [i]) `prefix_of` (q ++ [j]))) as [Hpre|Hnp].
  - destruct Hpre as [k Hk]. destruct k as [|x k] using rev_ind.
    { by rewrite app_nil_r in Hk. }
    rewrite app_assoc in Hk. apply app_inj_tail in Hk as [-> ->].
    unfold pt_entry. rewrite link_walk by done.
    rewrite <- app_assoc. cbn [app]. rewrite link_none. case_decide as E; [|done]. simpl.
    by rewrite Hzero.
  - by apply (pt_entry_edit m m' root i p).
Qed.

Lemma link_wf : pt_wf m' root.
Proof.
  split.
  - intros q f Hq. rewrite link_walk by done. case_decide; [by intros [= <-]|].
    by apply (pw_frame _ _ Hwf).
  - intros q r f Hq Hr. rewrite !link_walk by done.
    repeat case_decide; subst.
    + done.
    + intros [= <-] Hf. by eapply Hfresh in Hf.
    + intros Hf [= <-]. by eapply Hfresh in Hf.
    + by apply (pw_inj _ _ Hwf).
Qed.
End link.

#[global] Opaque zero_out_page.

(** The memory after a fresh table [n] is zeroed. *)
Lemma zeroed_page hh m n : is_frame n →
  ∃ mz, zero_out_page m (phys_ptr hh n) = mz ∧
    (∀ j, is_index j → entry_at mz n j = 0) ∧ agree_off (span n PAGE_SIZE) m mz.
Proof.
  intros Hn. eexists. split; [done|].
  split; [by intros; apply zero_out_page_entry | by apply zero_out_page_agree].
Qed.

Lemma absent_lor_l e f : absent f = false → absent (Z.lor e f) = false.
Proof.
  unfold absent. rewrite Z.land_lor_distr_l, !Z.eqb_neq. intros Hf [_ H]%Z.lor_eq_0_iff. done.
Qed.

(** The memory after the zeroed table [n] is linked at entry [i] of [t]. *)
Lemma fresh_table_mem m mz t i n flags :
  is_frame t → is_frame n → n ≠ t → is_index i → 0 ≤ flags < 4096 → absent flags = false →
  (∀ j, is_index j → entry_at mz n j = 0) → agree_off (span n PAGE_SIZE) m mz →
  ∃ m', store64 mz (t + 8 * i) (Z.lor n flags) = m' ∧
  (absent (entry_at m' t i) = false ∧ pte_addr (entry_at m' t i) = n) ∧
  (∀ j, is_index j → entry_at m' n j = 0) ∧
  (∀ f j, is_frame f → f ≠ n → is_index j → (f, j) ≠ (t, i) → entry_at m' f j = entry_at m f j) ∧
  agree_off (λ x, span n PAGE_SIZE x ∨ span t PAGE_SIZE x) m m'.
Proof.
  intros Ht Hn Hnt Hi Hfl Hfp Hz Hag. eexists. split; [done|].
  rewrite entry_at_store_same.
  2: { unfold in_u64, W64. apply lor_range; [lia| |lia]. by apply frame_in_u64. }
  split; [by split; [apply absent_lor_l | apply pte_addr_frame]|]. split_and!.
  - intros j Hj. rewrite entry_at_store_other; [by apply Hz|done..|]. by intros [= ->].
  - intros f j Hf Hfn Hj Hne. rewrite entry_at_store_other; [|done..|by intros [= -> ->]].
    apply (agree_off_span _ _ n PAGE_SIZE); [done|]. by apply entry_page_apart.
  - eapply agree_off_trans; [by eapply agree_off_mono, Hag; left|].
    apply agree_off_store64. intros j Hj. right. unfold span, is_index, PAGE_SIZE in *. lia.
Qed.

(** Linking a frame taken from the free list keeps the invariant. *)
Lemma link_inv pmm m m' root t i n p l :
  vm_inv pmm m root l → n ∉ l → is_frame n →
  (∀ q f, table_path q → walk m root q = Some f → f ≠ n) →
  table_path (p ++ [i]) → walk m root p = Some t → absent (entry_at m t i) = true →
  (absent (entry_at m' t i) = false ∧ pte_addr (entry_at m' t i) = n) →
  (∀ j, is_index j → entry_at m' n j = 0) →
  (∀ f j, is_frame f → f ≠ n → is_index j → (f, j) ≠ (t, i) → entry_at m' f j = entry_at m f j) →
  agree_off (λ x, span n PAGE_SIZE x ∨ span t PAGE_SIZE x) m m' →
  walk m' root (p ++ [i]) = Some n ∧ vm_inv pmm m' root l ∧ confined m root (n :: l) m' l ∧
  (∀ q, table_path q → walk m' root q = if decide (q = p ++ [i]) then Some n else walk m root q) ∧
  (∀ q j, table_path q → is_index j → q ++ [j] ≠ p ++ [i] →
    pt_entry m' root q j = pt_entry m root q j).
Proof.
  intros [Hr Hwf Hap] Hnl Hn Hfresh Hpi Ht Habs Hnew Hz Hoth Hag.
  assert (table_path p) as Hp by by eapply table_path_prefix.
  assert (edited m m' root p i) as Hed.
  { apply (edited_intro m m' root t); auto. intros q f j Hq Hf Hj Hne _.
    apply Hoth; [by eapply (pw_frame _ _ Hwf)|by eapply Hfresh|done..]. }
  pose proof (link_walk m m' root t i n p Hpi Ht Habs Hed Hnew Hz) as Hw.
  split; [by eapply link_self|]. split; [|split; [|split; [done|by eapply link_entry]]]; split.
  - apply (pmm_repr_agree pmm m); [|done]. intros a Ha.
    pose proof (proj1 (Forall_forall _ _) (repr_frames _ _ _ Hr) a Ha) as Haf.
    assert (a ≠ t) as Hat by (intros ->; by apply (Hap p t Hp Ht)).
    pose proof (Hoth a 0 Haf) as Ho. unfold entry_at in Ho. rewrite Z.add_0_r in Ho.
    apply Ho; [by intros ->|unfold is_index; lia|by intros [= -> _]].
  - by eapply link_wf.
  - intros q f Hq. rewrite Hw by done. case_decide; [by intros [= <-]|]. by apply Hap.
  - intros f. unfold owned. rewrite elem_of_cons. split.
    + intros [?|(q & Hq & Hf)]; [by auto|]. rewrite Hw in Hf by done.
      case_decide; [simplify_eq; by auto|eauto].
    + intros [[->|?]|(q & Hq & Hf)]; [|by auto|].
      * right. exists (p ++ [i]). split; [done|]. rewrite Hw by done. by rewrite decide_True.
      * right. exists q. split; [done|]. rewrite Hw by done. rewrite decide_False; [done|].
        intros ->. rewrite walk_app, Ht in Hf. simpl in Hf. by rewrite Habs in Hf.
  - eapply agree_off_mono; [|done]. intros x [Hx|Hx]; [exists n|exists t]; (split; [|done]).
    + left. by left.
    + right. eauto.
Qed.

(** *** Page budget

    [need m root ps] counts the tables at paths [ps] that do not exist yet; a
    free list that covers them pays for every table the mappings create, and
    [spare] pages stay in hand. *)
Definition need (m : mem) (root : Z) (ps : list (list Z)) : nat :=
  length (base.filter (λ p, walk m root p = None) ps).

Definition funded (spare : nat) (m : mem) (root : Z) (l : list Z) (ps : list (list Z)) : Prop :=
  NoDup ps ∧ Forall table_path ps ∧ (need m root ps + spare ≤ length l)%nat.

(** Creating the table at [p] uses one page and lowers the need by one. *)
Lemma need_create m m' root p c ps :
  NoDup ps → Forall table_path ps → p ∈ ps → walk m root p = None →
  (∀ q, table_path q → walk m' root q = if decide (q = p) then Some c else walk m root q) →
  need m root ps = S (need m' root ps).
Proof.
  intros Hnd Hf Hin Hnone Hw. unfold need.
  induction ps as [|q ps IH]; [by apply not_elem_of_nil in Hin|].
  apply NoDup_cons in Hnd as [Hq Hnd]. apply Forall_cons in Hf as [Hfq Hf].
  rewrite !filter_cons, (Hw q Hfq). destruct (decide (q = p)) as [->|Hne].
  - rewrite decide_True by done. rewrite decide_False by done. simpl. f_equal.
    f_equal. apply filter_agree. intros r Hr.
    rewrite Forall_forall in Hf. rewrite (Hw r) by auto.
    rewrite decide_False; [done|]. by intros ->.
  - apply elem_of_cons in Hin as [->|Hin]; [done|]. case_decide; simpl; by rewrite IH.
Qed.

Lemma need_same m m' root ps :
  Forall table_path ps → (∀ q, table_path q → walk m' root q = walk m root q) →
  need m' root ps = need m root ps.
Proof.
  intros Hf Hw. unfold need. f_equal. apply filter_agree.
  intros r Hr. rewrite Forall_forall in Hf. by rewrite Hw by auto.
Qed.

Lemma need_pos m root p ps : p ∈ ps → walk m root p = None → (1 ≤ need m root ps)%nat.
Proof.
  intros Hp Hn. unfold need. assert (p ∈ base.filter (λ p, walk m root p = None) ps) as H.
  { by apply list_elem_of_filter. }
  destruct (base.filter _ ps); [by apply not_elem_of_nil in H|simpl; lia].
Qed.

Lemma need_le m root ps : (need m root ps ≤ length ps)%nat.
Proof. apply length_filter. Qed.

(** A link that is created was absent. *)
Lemma links_created m m' root t i p :
  walk m root p = Some t → absent (entry_at m t i) = true →
  (∀ q j, table_path q → is_index j → q ++ [j] ≠ p ++ [i] → pt_entry m' root q j = pt_entry m root q j) →
  links_kept m m' root.
Proof.
  intros Ht E H q j Hq [e He]. apply H; [by eapply table_path_prefix| |].
  - destruct Hq as [_ Hq]. apply Forall_app in Hq as [_ Hq]. by inversion Hq.
  - intros [-> ->]%app_inj_tail. unfold pt_entry in He. rewrite Ht in He. cbn in He. by rewrite E in He.
Qed.

(** What one call of [get_or_create_table] guarantees: it returns the child
    table, keeps the invariant, and changes no other entry of the tree. *)
Lemma get_or_create_table_ok spare pmm m root l table t i p flags ps :
  vm_inv pmm m root l → funded spare m root l ps → p ++ [i] ∈ ps → table_path (p ++ [i]) → walk m root p = Some t →
  ptr_to table t → 0 ≤ flags < 4096 → absent flags = false →
  ∃ ptr pmm' m' c l',
    get_or_create_table pmm m table i flags = Done (ptr, pmm', m') ∧
    ptr_to ptr c ∧ walk m' root (p ++ [i]) = Some c ∧
    vm_inv pmm' m' root l' ∧ same_config pmm pmm' ∧ funded spare m' root l' ps ∧ l' ⊆ l ∧
    confined m root l m' l' ∧ links_kept m m' root ∧
    (∀ q j, table_path q → is_index j → q ++ [j] ≠ p ++ [i] →
      pt_entry m' root q j = pt_entry m root q j).
Proof.
  intros Hinv Hl Hin Hpi Ht Hptr Hfl Hfp. pose proof Hinv as [Hr Hwf Hap].
  assert (table_path p) as Hp by by eapply table_path_prefix.
  assert (is_index i) as Hi by (destruct Hpi as [_ H]; apply Forall_app in H as [_ H]; by inversion H).
  assert (is_frame t) as Htf by by eapply (pw_frame _ _ Hwf).
  unfold get_or_create_table. rewrite (ptr_to_load m table t i) by done.
  destruct (absent (entry_at m t i)) eqn:E.
  2: { cbn [mbind outcome_bind]. rewrite (ptr_to_load m table t i) by done.
       assert (walk m root (p ++ [i]) = Some (pte_addr (entry_at m t i))) as Hw.
       { rewrite walk_app, Ht. simpl. by rewrite E. }
       do 3 eexists. exists (pte_addr (entry_at m t i)), l. split; [done|]. split.
       { apply ptr_to_phys. eapply (pw_frame _ _ Hwf); [exact Hpi|exact Hw]. }
       split_and!; auto using confined_refl, links_kept_refl with pmm. }
  destruct Hl as (Hnd & Hps & Hl).
  assert (walk m root (p ++ [i]) = None) as Hnone.
  { rewrite walk_app, Ht. simpl. by rewrite E. }
  destruct l as [|n l]; [pose proof (need_pos m root _ ps Hin Hnone); simpl in Hl; lia|].
  destruct (alloc_page_cons pmm m n l Hr) as (pmm1 & -> & Hc & Hr1).
  pose proof (repr_frames _ _ _ Hr) as Hn. apply Forall_cons in Hn as [Hn _].
  pose proof (repr_nodup _ _ _ Hr) as Hnl. apply NoDup_cons in Hnl as [Hnl _].
  assert (∀ q f, table_path q → walk m root q = Some f → f ≠ n) as Hfresh.
  { intros q f Hq Hf ->. apply (Hap q n Hq Hf). left. }
  cbn [expect mbind outcome_bind].
  destruct (zeroed_page (is_higher_half pmm1) m n Hn) as (mz & -> & Hz & Hag).
  rewrite (ptr_to_store mz table t i) by done.
  destruct (fresh_table_mem m mz t i n flags) as (m' & -> & Hnew & Hz' & Hoth & Hag');
    [done|done|by (intros <-; eapply (Hfresh p))|done..|].
  rewrite (ptr_to_load m' table t i) by done.
  destruct (link_inv pmm1 m m' root t i n p l) as (Hself & Hinv' & Hcf & Hw & Hent); [|done..|].
  { split; [done..|]. intros q f Hq Hf Hil. apply (Hap q f Hq Hf). by right. }
  destruct Hnew as [_ Hnew]. rewrite Hnew.
  do 3 eexists. exists n, l. split; [done|]. split; [by apply ptr_to_phys|].
  split_and!; auto; [|by intros x Hx; right|by apply (links_created m m' root t i p)]. split_and!; [done..|].
  rewrite (need_create m m' root (p ++ [i]) n) in Hl by done. simpl in Hl. lia.
Qed.

(** Writing a leaf entry: no path to a table goes through it. *)
Section leaf.
Context (m m' : mem) (root t i : Z) (p : list Z).
Hypothesis Hwf : pt_wf m root.
Hypothesis Hp : table_path p.
Hypothesis Hlen : length p = 3%nat.
Hypothesis Ht : walk m root p = Some t.
Hypothesis Hed : edited m m' root p i.

Lemma leaf_walk q : table_path q → walk m' root q = walk m root q.
Proof.
  intros Hq. apply (walk_edit m m' root i p); try done. intros Hpre%prefix_length.
  rewrite length_app in Hpre. simpl in Hpre. destruct Hq as [? _]. lia.
Qed.

Lemma leaf_wf : pt_wf m' root.
Proof.
  split.
  - intros q f Hq. rewrite leaf_walk by done. by apply (pw_frame _ _ Hwf).
  - intros q r f Hq Hr. rewrite !leaf_walk by done. by apply (pw_inj _ _ Hwf).
Qed.

Lemma leaf_entry q j : table_path q → is_index j → q ++ [j] ≠ p ++ [i] →
  pt_entry m' root q j = pt_entry m root q j.
Proof.
  intros Hq Hj Hne. apply (pt_entry_edit m m' root i p); try done.
  intros [[|x k] Hk]; [by rewrite app_nil_r in Hk|].
  apply (f_equal length) in Hk. rewrite !length_app in Hk. simpl in Hk.
  destruct Hq as [? _]. lia.
Qed.

Lemma leaf_entry_self :
  pt_entry m' root p i =
    if absent (entry_at m' t i) then None else Some (entry_at m' t i).
Proof. unfold pt_entry. by rewrite leaf_walk, Ht by done. Qed.
End leaf.

(** Removing the link to a table [c] that has no present entry. *)
Section unlink.
Context (m m' : mem) (root t i c : Z) (p : list Z).
Hypothesis Hwf : pt_wf m root.
Hypothesis Hp : table_path (p ++ [i]).
Hypothesis Ht : walk m root p = Some t.
Hypothesis Hc : walk m root (p ++ [i]) = Some c.
Hypothesis Hempty : ∀ j, is_index j → absent (entry_at m c j) = true.
Hypothesis Hcut : absent (entry_at m' t i) = true.
Hypothesis Hed : edited m m' root p i.

Let Hp' : table_path p := table_path_prefix _ _ Hp.

Lemma unlink_walk q : table_path q →
  walk m' root q = if decide (q = p ++ [i]) then None else walk m root q.
Proof.
  intros Hq. destruct (decide ((p ++ [i]) `prefix_of` q)) as [[k ->]|Hnp].
  - rewrite (walk_app m'), (walk_app m' root p), (walk_edit_self m m' root i p), Ht by done.
    simpl. rewrite Hcut. simpl.
    case_decide as E; [done|]. rewrite walk_app, Hc. simpl.
    destruct k as [|j k]; [by rewrite app_nil_r in E|]. simpl. rewrite Hempty; [done|].
    destruct Hq as [_ Hf]. rewrite Forall_app, Forall_cons in Hf. tauto.
  - rewrite decide_False; [by apply (walk_edit m m' root i p)|]. by intros ->.
Qed.

Lemma unlink_entry q j : table_path q → is_index j → q ++ [j] ≠ p ++ [i] →
  pt_entry m' root q j = pt_entry m root q j.
Proof.
  intros Hq Hj Hne. destruct (decide ((p ++ [i]) `prefix_of` (q ++ [j]))) as [[k Hk]|Hnp].
  - destruct k as [|x k _] using rev_ind; [by rewrite app_nil_r in Hk|].
    rewrite app_assoc in Hk. apply app_inj_tail in Hk as [-> <-].
    unfold pt_entry. rewrite unlink_walk by done. case_decide as E.
    + rewrite E, Hc. simpl. by rewrite Hempty.
    + destruct k as [|y k]; [by rewrite app_nil_r in E|]. rewrite walk_app, Hc. simpl.
      rewrite Hempty; [done|]. destruct Hq as [_ Hf]. rewrite Forall_app, Forall_cons in Hf. tauto.
  - by apply (pt_entry_edit m m' root i p).
Qed.

Lemma unlink_wf : pt_wf m' root.
Proof.
  split.
  - intros q f Hq. rewrite unlink_walk by done. case_decide; [done|]. by apply (pw_frame _ _ Hwf).
  - intros q r f Hq Hr. rewrite !unlink_walk by done. repeat case_decide; try done.
    by apply (pw_inj _ _ Hwf).
Qed.
End unlink.

(** ** Virtual page numbers *)

(** The 36 address bits the four indices are cut from. *)
Definition vpn (va : Z) : Z := Z.shiftr va 12 mod 2 ^ 36.

Lemma land_1ff a : Z.land a 0x1FF = a mod 2 ^ 9.
Proof. change 0x1FF with (Z.ones 9). by rewrite Z.land_ones. Qed.

Lemma vpn_indices va :
  vpn va = pt_index va + 2 ^ 9 * (pd_index va + 2 ^ 9 * (pdpt_index va + 2 ^ 9 * pml4_index va)).
Proof.
  unfold vpn, pt_index, pd_index, pdpt_index, pml4_index.
  rewrite !land_1ff, !Z.shiftr_div_pow2 by done.
  change (2 ^ 21) with (2 ^ 12 * 2 ^ 9). change (2 ^ 30) with (2 ^ 12 * 2 ^ 9 * 2 ^ 9).
  change (2 ^ 39) with (2 ^ 12 * 2 ^ 9 * 2 ^ 9 * 2 ^ 9).
  rewrite <- !Z.div_div by done.
  change (2 ^ 36) with (2 ^ 9 * (2 ^ 9 * (2 ^ 9 * 2 ^ 9))).
  rewrite !Z.rem_mul_r by done. done.
Qed.

(** Two addresses take the same path through the tables exactly when they lie
    on the same (48-bit) virtual page. *)
Lemma same_vpn va vb :
  vpn va = vpn vb ↔ va_path va ++ [pt_index va] = va_path vb ++ [pt_index vb].
Proof.
  rewrite !vpn_indices. unfold va_path. cbn [app]. split.
  - pose proof (pml4_index_ok va). pose proof (pdpt_index_ok va). pose proof (pd_index_ok va).
    pose proof (pt_index_ok va). pose proof (pml4_index_ok vb). pose proof (pdpt_index_ok vb).
    pose proof (pd_index_ok vb). pose proof (pt_index_ok vb). unfold is_index in *.
    change (2 ^ 9) with 512. intros E.
    assert (pml4_index va = pml4_index vb ∧ pdpt_index va = pdpt_index vb ∧
      pd_index va = pd_index vb ∧ pt_index va = pt_index vb) as (-> & -> & -> & ->) by lia.
    done.
  - by intros [= -> -> -> ->].
Qed.

Lemma va_path_ok va : table_path (va_path va).
Proof. split; [simpl; lia|]. repeat constructor; apply index_land. Qed.

Lemma va_path_2 va : table_path [pml4_index va; pdpt_index va].
Proof. split; [simpl; lia|]. repeat constructor; apply index_land. Qed.

Lemma va_path_1 va : table_path [pml4_index va].
Proof. split; [simpl; lia|]. repeat constructor; apply index_land. Qed.

#[export] Hint Resolve va_path_ok va_path_2 va_path_1 : vmm.

(** An entry on the way to a PT is not a leaf. *)
Lemma va_entry_deep p i va : (length p < 3)%nat → va_path va ++ [pt_index va] ≠ p ++ [i].
Proof. intros Hl E%(f_equal length). rewrite length_app in E. simpl in E. rewrite length_app in E. simpl in E. lia. Qed.

(** ** [map_page] *)

(** Writing a leaf entry keeps the invariant and changes the translation of
    one page. *)
Lemma set_leaf_ok pmm m root l t va e :
  vm_inv pmm m root l → walk m root (va_path va) = Some t → in_u64 e →
  ∃ m', store64 m (t + 8 * pt_index va) e = m' ∧ vm_inv pmm m' root l ∧
    confined m root l m' l ∧ (∀ q, table_path q → walk m' root q = walk m root q) ∧
    (∀ q j, table_path q → is_index j → q ++ [j] ≠ va_path va ++ [pt_index va] →
      pt_entry m' root q j = pt_entry m root q j) ∧
    (∀ va', pte_of m' root va' =
      if decide (vpn va' = vpn va) then (if absent e then None else Some e)
      else pte_of m root va').
Proof.
  intros [Hr Hwf Hap] Ht He.
  pose proof (va_path_ok va) as Hp. pose proof (pt_index_ok va) as Hi.
  pose proof (pw_frame _ _ Hwf _ _ Hp Ht) as Htf.
  eexists. split; [done|].
  assert (edited m (store64 m (t + 8 * pt_index va) e) root (va_path va) (pt_index va)) as Hed.
  { intros r f j Hrp Hf Hj Hnp. apply entry_at_store_other; try done.
    - by eapply (pw_frame _ _ Hwf).
    - intros [= <- <-]. apply Hnp. by rewrite (pw_inj _ _ Hwf (va_path va) r t). }
  pose proof (leaf_walk m _ root (pt_index va) (va_path va) eq_refl Hed) as Hlw.
  pose proof (leaf_entry m _ root (pt_index va) (va_path va) eq_refl Hed) as Hle.
  split; [|split; [|split; [done|split; [done|]]]].
  - split.
    + apply (pmm_repr_agree pmm m); [|done]. intros a Ha. apply load64_store64_ne.
      pose proof (proj1 (Forall_forall _ _) (repr_frames _ _ _ Hr) a Ha) as Haf.
      replace a with (a + 8 * 0) by lia. apply entry_apart; [done..|by split|].
      intros [= -> _]. by apply (Hap _ _ Hp Ht).
    + by apply (leaf_wf m _ root (pt_index va) (va_path va)).
    + intros q f Hq. rewrite Hlw by done. by apply Hap.
  - split; [|by eapply owned_store]. intros f. unfold owned.
    split; (intros [?|(q & Hq & Hf)]; [by left|right; exists q]); by rewrite Hlw in *.
  - intros va'. unfold pte_of. case_decide as E.
    + apply same_vpn in E. apply app_inj_tail in E as [-> ->].
      rewrite (leaf_entry_self m _ root t (pt_index va) (va_path va) Hp eq_refl Ht Hed).
      by rewrite entry_at_store_same.
    + apply Hle; [apply va_path_ok|apply pt_index_ok|]. by rewrite <- same_vpn.
Qed.

(** The address the leaf entry of [va] carries, with the offset of [va]. *)
Definition translate (m : mem) (root va : Z) : option Z :=
  (λ e, Z.lor (pte_addr e) (page_offset va)) <$> pte_of m root va.

Definition leaf_entry_of (physical_addr flags : Z) : Z :=
  Z.lor (Z.lor (pte_addr physical_addr) flags) PRESENT.

Lemma pte_addr_range a : in_u64 a → in_u64 (pte_addr a).
Proof.
  intros Ha. unfold pte_addr. change 0xFFF with (2 ^ 12 - 1). rewrite land_not64_mask by done.
  unfold in_u64 in *. pose proof (Z.mod_pos_bound a (2 ^ 12) eq_refl).
  pose proof (Z.mod_le a (2 ^ 12) (proj1 Ha) eq_refl). lia.
Qed.

Lemma leaf_entry_range pa flags : in_u64 pa → in_u64 flags → in_u64 (leaf_entry_of pa flags).
Proof.
  intros Hp Hf. unfold leaf_entry_of, in_u64, W64 in *.
  apply lor_range; [lia| |done].
  apply lor_range; [lia| |done]. by apply pte_addr_range.
Qed.

(** What masking the low bits of an NX leaf leaves. *)
Lemma nx_leaf_addr pa flags va :
  is_frame pa → 0 ≤ flags < 4096 →
  Z.lor (pte_addr (leaf_entry_of pa (Z.lor flags NX))) (page_offset va)
    = 2 ^ 63 + pa + va mod PAGE_SIZE.
Proof.
  intros Hpa Hfl. unfold leaf_entry_of, page_offset.
  assert (pte_addr pa = pa) as ->.
  { rewrite <- (Z.lor_0_r pa) at 1. by apply pte_addr_frame. }
  assert (Z.lor (Z.lor pa (Z.lor flags NX)) PRESENT
    = Z.lor (2 ^ 63 + pa) (Z.lor flags PRESENT)) as ->.
  { change NX with (2 ^ 63). rewrite <- (lor_aligned (2 ^ 63) pa 47), <- !Z.lor_assoc;
      [|lia|done|destruct Hpa as [? _]; unfold PHYS_LIMIT in *; lia].
    rewrite (Z.lor_comm (2 ^ 63) PRESENT), (Z.lor_assoc flags), (Z.lor_comm _ (2 ^ 63)).
    rewrite (Z.lor_assoc pa), (Z.lor_comm pa (2 ^ 63)), <- Z.lor_assoc. done. }
  pose proof (frame_range pa Hpa) as Hr. destruct Hpa as [_ Hal].
  unfold page_aligned, PAGE_SIZE, PHYS_LIMIT in *.
  assert ((2 ^ 63 + pa) mod 2 ^ 12 = 0) as Hal'.
  { rewrite <- Zplus_mod_idemp_l. change (2 ^ 63 mod 2 ^ 12) with 0. done. }
  assert (0 ≤ Z.lor flags PRESENT < 2 ^ 12) as Hf' by (apply lor_range; [lia|done|done]).
  unfold pte_addr. change 0xFFF with (2 ^ 12 - 1) at 1.
  rewrite (lor_aligned (2 ^ 63 + pa) _ 12) by done.
  rewrite land_not64_mask by (unfold in_u64, W64; lia).
  rewrite <- Zplus_mod_idemp_l, Hal', Z.mod_small by lia.
  change 0xFFF with (Z.ones 12). rewrite Z.land_ones by done.
  replace (2 ^ 63 + pa + Z.lor flags PRESENT - (0 + Z.lor flags PRESENT)) with (2 ^ 63 + pa) by lia.
  apply (lor_aligned _ _ 12); [done|done|by apply Z.mod_pos_bound].
Qed.

(** The tables [map_page] needs for an address. *)
Definition va_tables (va : Z) : list (list Z) :=
  [[pml4_index va]; [pml4_index va; pdpt_index va]; va_path va].

Lemma va_tables_nodup va : NoDup (va_tables va).
Proof.
  apply (NoDup_fmap_1 length). change (NoDup [1%nat; 2%nat; 3%nat]).
  apply (bool_decide_unpack _). exact I.
Qed.

Lemma va_tables_ok va : Forall table_path (va_tables va).
Proof. unfold va_tables. rewrite !Forall_cons. auto with vmm. Qed.

(** The whole of [map_page]: with enough free pages it completes, keeps the
    invariant, and changes the translation of the given page only. *)
Lemma map_page_ok spare pmm m root l pml4 va pa flags user ps :
  vm_inv pmm m root l → funded spare m root l ps → va_tables va ⊆ ps → ptr_to pml4 root →
  in_u64 pa → in_u64 flags →
  ∃ pmm' m' l',
    map_page pmm m pml4 va pa flags user = Done (pmm', m') ∧
    vm_inv pmm' m' root l' ∧ same_config pmm pmm' ∧ funded spare m' root l' ps ∧ l' ⊆ l ∧
    confined m root l m' l' ∧ links_kept m m' root ∧
    (∀ q j, table_path q → is_index j → ¬ (q ++ [j]) `prefix_of` (va_path va ++ [pt_index va]) →
      pt_entry m' root q j = pt_entry m root q j) ∧
    ∀ va', pte_of m' root va' =
      if decide (vpn va' = vpn va) then Some (leaf_entry_of pa flags) else pte_of m root va'.
Proof.
  intros Hinv Hl Hps Hptr Hpa Hfl. unfold map_page.
  assert (∀ p, p ∈ va_tables va → p ∈ ps) as Hin by done. unfold va_tables in Hin.
  set (fl := if user then _ else _).
  assert (0 ≤ fl < 4096 ∧ absent fl = false) as [Hfl1 Hfl2] by (unfold fl; destruct user; done).
  clearbody fl.
  destruct (get_or_create_table_ok spare pmm m root l pml4 root (pml4_index va) [] fl ps)
    as (p1 & pmm1 & m1 & c1 & l1 & -> & Hp1 & Hw1 & Hi1 & Hc1 & Hl1 & Hs1 & Hf1 & Hk1 & He1);
    [done|done|apply Hin; by left|apply va_path_1|done..|].
  cbn [mbind outcome_bind].
  destruct (get_or_create_table_ok spare pmm1 m1 root l1 p1 c1 (pdpt_index va) [pml4_index va] fl ps)
    as (p2 & pmm2 & m2 & c2 & l2 & -> & Hp2 & Hw2 & Hi2 & Hc2 & Hl2 & Hs2 & Hf2 & Hk2 & He2);
    [done|done|apply Hin; by right; left|apply va_path_2|done..|].
  cbn [mbind outcome_bind].
  destruct (get_or_create_table_ok spare pmm2 m2 root l2 p2 c2 (pd_index va)
      [pml4_index va; pdpt_index va] fl ps)
    as (p3 & pmm3 & m3 & c3 & l3 & -> & Hp3 & Hw3 & Hi3 & Hc3 & Hl3 & Hs3 & Hf3 & Hk3 & He3);
    [done|done|apply Hin; by do 2 right; left|apply va_path_ok|done..|].
  cbn [mbind outcome_bind].
  rewrite (ptr_to_store m3 p3 c3) by auto with vmm.
  destruct (set_leaf_ok pmm3 m3 root l3 c3 va (leaf_entry_of pa flags))
    as (m4 & Hm4 & Hi4 & Hf4 & Hw4 & Hq4 & He4); [done..|by apply leaf_entry_range|].
  unfold leaf_entry_of in Hm4 at 1. rewrite Hm4.
  exists pmm3, m4, l3. split; [done|]. split; [done|].
  split; [by eauto using same_config_trans|].
  split. { destruct Hl3 as (? & ? & ?). split_and!; [done..|]. by rewrite (need_same m3). }
  split; [by intros x Hx; apply Hs1, Hs2, Hs3|].
  split; [by eauto using confined_trans|]. split.
  { do 2 (eapply links_kept_trans; [eassumption|]). eapply links_kept_trans; [exact Hk3|].
    intros q j Hq _. apply Hq4; [by eapply table_path_prefix|..].
    - destruct Hq as [_ Hq]. apply Forall_app in Hq as [_ Hq]. by inversion Hq.
    - intros E. destruct Hq as [Hq _]. rewrite E in Hq. cbn in Hq. lia. }
  split.
  { intros q j Hq Hj Hnp.
    assert (∀ p i, (p ++ [i]) `prefix_of` (va_path va ++ [pt_index va]) → q ++ [j] ≠ p ++ [i])
      as Hne by (intros p i Hpre E; apply Hnp; by rewrite E).
    rewrite Hq4, He3, He2, He1; try done; apply Hne; unfold va_path; simpl;
      repeat apply prefix_cons; apply prefix_nil. }
  intros va'. rewrite He4. unfold leaf_entry_of at 1. rewrite absent_lor.
  case_decide; [done|]. unfold pte_of.
  rewrite He3, He2, He1; auto using va_path_ok, pt_index_ok; by apply va_entry_deep; simpl; lia.
Qed.

(** ** [get_physical_addr] *)

Lemma walk_cons m f i p c :
  absent (entry_at m f i) = false → walk m (pte_addr (entry_at m f i)) p = c →
  walk m f (i :: p) = c.
Proof. intros H <-. simpl. by rewrite H. Qed.

(** The pointer built from a present entry on a path points at the child. *)
Lemma table_ptr_to m root p i t :
  pt_wf m root → table_path (p ++ [i]) → walk m root p = Some t →
  absent (entry_at m t i) = false →
  ptr_to (table_ptr (entry_at m t i)) (pte_addr (entry_at m t i)) ∧
  walk m root (p ++ [i]) = Some (pte_addr (entry_at m t i)).
Proof.
  intros Hwf Hpi Ht Hpr.
  assert (walk m root (p ++ [i]) = Some (pte_addr (entry_at m t i))) as Hw.
  { rewrite walk_app, Ht. simpl. by rewrite Hpr. }
  split; [|done]. by apply (ptr_to_phys true), (pw_frame _ _ Hwf (p ++ [i])).
Qed.

Lemma get_physical_addr_ok m root pml4 va :
  pt_wf m root → ptr_to pml4 root → get_physical_addr m pml4 va = translate m root va.
Proof.
  intros Hwf Hptr. unfold get_physical_addr, translate, pte_of, pt_entry, va_path.
  rewrite (ptr_to_load m pml4 root) by auto with vmm. cbn [walk].
  destruct (absent (entry_at m root _)) eqn:E1; [done|].
  destruct (table_ptr_to m root [] (pml4_index va) root Hwf (va_path_1 va) eq_refl E1) as [P1 W1].
  rewrite (ptr_to_load m _ _ _ P1) by auto with vmm.
  destruct (absent (entry_at m _ (pdpt_index va))) eqn:E2; [done|].
  destruct (table_ptr_to m root [pml4_index va] (pdpt_index va) _ Hwf (va_path_2 va) W1 E2)
    as [P2 W2].
  rewrite (ptr_to_load m _ _ _ P2) by auto with vmm.
  destruct (absent (entry_at m _ (pd_index va))) eqn:E3; [done|].
  destruct (table_ptr_to m root [pml4_index va; pdpt_index va] (pd_index va) _ Hwf
    (va_path_ok va) W2 E3) as [P3 W3].
  rewrite (ptr_to_load m _ _ _ P3) by auto with vmm.
  simpl. by destruct (absent (entry_at m _ (pt_index va))).
Qed.

(** ** [unmap_page] *)

Lemma is_table_empty_from_spec n m table f i :
  ptr_to table f → 0 ≤ i → i + Z.of_nat n ≤ 512 →
  is_table_empty_from n m table i = true ↔
    ∀ j, i ≤ j < i + Z.of_nat n → absent (entry_at m f j) = true.
Proof.
  intros Hptr. revert i. induction n as [|n IH]; intros i Hi Hn; cbn [is_table_empty_from].
  { split; [intros _ j Hj; lia|done]. }
  rewrite (ptr_to_load m table f i) by (unfold is_index; (done || lia)).
  destruct (absent (entry_at m f i)) eqn:E; simpl.
  - rewrite IH by lia. split; intros H j Hj.
    + destruct (decide (j = i)) as [->|]; [done|]. apply H. lia.
    + apply H. lia.
  - split; [done|]. intros H. rewrite <- E. apply H. lia.
Qed.

Lemma is_table_empty_spec m table f :
  ptr_to table f →
  is_table_empty m table = true ↔ ∀ j, is_index j → absent (entry_at m f j) = true.
Proof. intros. apply (is_table_empty_from_spec 512); [done|lia|lia]. Qed.

(** Cutting the link to an empty table and freeing its frame. *)
Lemma unlink_free_ok pmm m root l t i c p :
  vm_inv pmm m root l → table_path (p ++ [i]) → walk m root p = Some t →
  walk m root (p ++ [i]) = Some c →
  (∀ j, is_index j → absent (entry_at m c j) = true) →
  ∃ pmm' m', free_page pmm (store64 m (t + 8 * i) 0) c = (pmm', m') ∧
    vm_inv pmm' m' root (c :: l) ∧ same_config pmm pmm' ∧ confined m root l m' (c :: l) ∧
    (∀ q, table_path q → walk m' root q = if decide (q = p ++ [i]) then None else walk m root q) ∧
    (∀ q j, table_path q → is_index j → q ++ [j] ≠ p ++ [i] →
      pt_entry m' root q j = pt_entry m root q j).
Proof.
  intros [Hr Hwf Hap] Hpi Ht Hc Hemp.
  assert (table_path p) as Hp by by eapply table_path_prefix.
  assert (is_index i) as Hi by (destruct Hpi as [_ H]; apply Forall_app in H as [_ H]; by inversion H).
  pose proof (pw_frame _ _ Hwf _ _ Hp Ht) as Htf.
  pose proof (pw_frame _ _ Hwf _ _ Hpi Hc) as Hcf.
  assert (t ≠ c) as Htc.
  { intros ->. pose proof (pw_inj _ _ Hwf p (p ++ [i]) c Hp Hpi Ht Hc) as E.
    apply (f_equal length) in E. rewrite length_app in E. simpl in E. lia. }
  pose proof (Hap _ _ Hpi Hc) as Hcl. pose proof (Hap _ _ Hp Ht) as Htl.
  destruct (free_page_cons pmm (store64 m (t + 8 * i) 0) l c) as (pmm' & m' & -> & Hcfg & Hr' & Hag);
    [|done..|].
  { apply (pmm_repr_agree pmm m); [|done]. intros a Ha. apply load64_store64_ne.
    replace a with (a + 8 * 0) by lia.
    apply entry_apart; [done|by eapply Forall_forall, Ha; apply Hr|done|by split|].
    by intros [= -> _]. }
  assert (∀ f j, is_frame f → f ≠ c → is_index j → entry_at m' f j
    = entry_at (store64 m (t + 8 * i) 0) f j) as Hm'.
  { intros f j Hf Hfc Hj. apply (agree_off_span _ _ c 8); [done|].
    destruct (entry_page_apart f j c) as [H|H]; try done; [left|by right].
    unfold PAGE_SIZE in H. lia. }
  assert (absent (entry_at m' t i) = true) as Hcut.
  { rewrite Hm' by done. by rewrite entry_at_store_same. }
  assert (edited m m' root p i) as Hed.
  { apply (edited_intro m m' root t); auto. intros q f j Hq Hf Hj Hne Hfc.
    pose proof (pw_frame _ _ Hwf _ _ Hq Hf).
    rewrite Hm'; [|done|by intros ->|done]. apply entry_at_store_other; done. }
  pose proof (unlink_walk m m' root t i c p Hpi Ht Hc Hemp Hcut Hed) as Hw.
  exists pmm', m'. split; [done|]. split; [|split; [done|split; [|split; [done|]]]].
  - split; [done| |].
    + by apply (unlink_wf m m' root t i c p).
    + intros q f Hq. rewrite Hw by done. case_decide as E; [done|]. intros Hf.
      apply not_elem_of_cons. split; [|by apply (Hap q)].
      intros ->. by rewrite (pw_inj _ _ Hwf (p ++ [i]) q c) in E.
  - split.
    + intros f. unfold owned. rewrite elem_of_cons. split.
      * intros [[->|?]|(q & Hq & Hf)]; [by eauto|by auto|]. rewrite Hw in Hf by done.
        case_decide; [done|eauto].
      * intros [?|(q & Hq & Hf)]; [by auto|]. destruct (decide (q = p ++ [i])) as [->|Hne].
        { left. left. congruence. }
        right. exists q. by rewrite Hw, decide_False.
    + eapply agree_off_trans; [by eapply (owned_store m root l p)|].
      eapply agree_off_mono; [|done]. intros x Hx. exists c. split; [right; eauto|].
      unfold span, PAGE_SIZE in *. lia.
  - by apply (unlink_entry m m' root t i c p).
Qed.

Definition occupied (m : mem) (f : Z) : Prop := ∃ j, is_index j ∧ absent (entry_at m f j) = false.

(** No table on the path of [va], the PML4 apart, is left without entries. *)
Definition path_tight (m : mem) (root va : Z) : Prop :=
  ∀ k f, (1 ≤ k ≤ 3)%nat → walk m root (take k (va_path va)) = Some f → occupied m f.

Lemma not_empty_occupied m table f :
  ptr_to table f → is_table_empty m table = false → occupied m f.
Proof.
  intros Hptr Hne. assert (¬ ∀ j, is_index j → absent (entry_at m f j) = true) as Hn.
  { rewrite <- (is_table_empty_spec m table f) by done. by rewrite Hne. }
  destruct (decide (Exists (λ j, absent (entry_at m f j) = false) (seqZ 0 512))) as [He|He].
  - apply Exists_exists in He as (j & Hj & ?). apply elem_of_seqZ in Hj. by exists j.
  - exfalso. apply Hn. intros j Hj. apply not_Exists_Forall in He; [|apply _].
    rewrite Forall_forall in He. apply not_false_is_true, He, elem_of_seqZ.
    unfold is_index in Hj. lia.
Qed.

(** One stage of the cleanup: the table [c] behind entry [i] of [t]. *)
Lemma cleanup_stage pmm m root l parent t i table c p :
  vm_inv pmm m root l → table_path (p ++ [i]) →
  walk m root p = Some t → walk m root (p ++ [i]) = Some c →
  ptr_to parent t → ptr_to table c → is_table_empty m table = true →
  ∃ pmm' m',
    free_page pmm (pstore m (ptr_add8 parent i) 0) (pte_addr (pload m (ptr_add8 parent i)))
      = (pmm', m') ∧
    vm_inv pmm' m' root (c :: l) ∧ same_config pmm pmm' ∧ confined m root l m' (c :: l) ∧
    (∀ q, table_path q → walk m' root q = if decide (q = p ++ [i]) then None else walk m root q) ∧
    (∀ va, (length p < 3)%nat → pte_of m' root va = pte_of m root va).
Proof.
  intros Hinv Hpi Ht Hc Hpp Hpt Hemp.
  assert (is_index i) as Hi by (destruct Hpi as [_ H]; apply Forall_app in H as [_ H]; by inversion H).
  rewrite (ptr_to_store m parent t i), (ptr_to_load m parent t i) by done.
  assert (pte_addr (entry_at m t i) = c) as ->.
  { rewrite walk_app, Ht in Hc. simpl in Hc. destruct (absent _); by simplify_eq. }
  destruct (unlink_free_ok pmm m root l t i c p) as (pmm' & m' & -> & H1 & H2 & H5 & H3 & H4);
    [done..|by apply (is_table_empty_spec m table)|].
  exists pmm', m'. split_and!; try done. intros va Hl. unfold pte_of.
  apply H4; auto with vmm. by apply va_entry_deep.
Qed.

(** The tables and entries on the path of [va], as the code reaches them. *)
Record mapped_path (m : mem) (root va e f1 f2 f3 : Z) : Prop := {
  mp1 : walk m root [pml4_index va] = Some f1;
  mp2 : walk m root [pml4_index va; pdpt_index va] = Some f2;
  mp3 : walk m root (va_path va) = Some f3;
  mp_e1 : absent (entry_at m root (pml4_index va)) = false;
  mp_e2 : absent (entry_at m f1 (pdpt_index va)) = false;
  mp_e3 : absent (entry_at m f2 (pd_index va)) = false;
  mp_e4 : absent (entry_at m f3 (pt_index va)) = false;
  mp_leaf : entry_at m f3 (pt_index va) = e;
  mp_t1 : ptr_to (table_ptr (entry_at m root (pml4_index va))) f1;
  mp_t2 : ptr_to (table_ptr (entry_at m f1 (pdpt_index va))) f2;
  mp_t3 : ptr_to (table_ptr (entry_at m f2 (pd_index va))) f3;
}.

Lemma pte_of_path m root va e :
  pt_wf m root → pte_of m root va = Some e → ∃ f1 f2 f3, mapped_path m root va e f1 f2 f3.
Proof.
  intros Hwf He. unfold pte_of, pt_entry in He.
  destruct (walk m root (va_path va)) as [f3|] eqn:W3; [|done]. simpl in He.
  destruct (absent (entry_at m f3 _)) eqn:E4; [done|]. injection He as He.
  pose proof W3 as W3'. unfold va_path in W3'. simpl in W3'.
  destruct (absent (entry_at m root _)) eqn:E1; [done|].
  destruct (table_ptr_to m root [] (pml4_index va) root Hwf (va_path_1 va) eq_refl E1) as [P1 W1].
  destruct (absent (entry_at m _ (pdpt_index va))) eqn:E2; [done|].
  destruct (table_ptr_to m root [pml4_index va] (pdpt_index va) _ Hwf (va_path_2 va) W1 E2)
    as [P2 W2].
  destruct (absent (entry_at m _ (pd_index va))) eqn:E3; [done|].
  destruct (table_ptr_to m root [pml4_index va; pdpt_index va] (pd_index va) _ Hwf
    (va_path_ok va) W2 E3) as [P3 _].
  injection W3' as E. rewrite E in P3. do 3 eexists. by split.
Qed.

Lemma unmap_page_absent pmm m root pml4 va :
  pt_wf m root → ptr_to pml4 root → pte_of m root va = None →
  unmap_page pmm m pml4 va = (false, pmm, m).
Proof.
  intros Hwf Hptr. unfold unmap_page, pte_of, pt_entry, va_path.
  rewrite (ptr_to_load m pml4 root) by auto with vmm. cbn [walk].
  destruct (absent (entry_at m root _)) eqn:E1; [done|].
  destruct (table_ptr_to m root [] (pml4_index va) root Hwf (va_path_1 va) eq_refl E1) as [P1 W1].
  rewrite (ptr_to_load m _ _ _ P1) by auto with vmm.
  destruct (absent (entry_at m _ (pdpt_index va))) eqn:E2; [done|].
  destruct (table_ptr_to m root [pml4_index va] (pdpt_index va) _ Hwf (va_path_2 va) W1 E2)
    as [P2 W2].
  rewrite (ptr_to_load m _ _ _ P2) by auto with vmm.
  destruct (absent (entry_at m _ (pd_index va))) eqn:E3; [done|].
  destruct (table_ptr_to m root [pml4_index va; pdpt_index va] (pd_index va) _ Hwf
    (va_path_ok va) W2 E3) as [P3 W3].
  rewrite (ptr_to_load m _ _ _ P3) by auto with vmm. simpl.
  by destruct (absent (entry_at m _ (pt_index va))).
Qed.

(** What the unmapping of a mapped page leaves. *)
Definition unmapped (pmm : PhysicalMemoryManager) (m : mem) (root va : Z) (l : list Z)
    (pmm' : PhysicalMemoryManager) (m' : mem) : Prop :=
  ∃ k, vm_inv pmm' m' root (k ++ l) ∧ same_config pmm pmm' ∧ (length k ≤ 3)%nat ∧
    confined m root l m' (k ++ l) ∧
    (∀ va', pte_of m' root va' =
      if decide (vpn va' = vpn va) then None else pte_of m root va') ∧
    path_tight m' root va ∧
    ∀ q f, table_path q → walk m' root q = Some f → walk m root q = Some f.

(** The cleanup stops at the first table that is still in use. *)
Lemma tight_at m root va k f :
  (1 ≤ k ≤ 3)%nat → walk m root (take k (va_path va)) = Some f → occupied m f →
  (∀ n, (k < n ≤ 3)%nat → walk m root (take n (va_path va)) = None) → path_tight m root va.
Proof.
  intros Hk Hf Hocc Hdeep n g Hn Hg.
  destruct (decide (k < n)%nat) as [Hkn|Hkn]; [by rewrite Hdeep in Hg by lia|].
  destruct (decide (n = k)) as [->|Hne]; [by simplify_eq|].
  (* the table at [n] has the entry towards the table at [k] *)
  assert (∃ i p, take k (va_path va) = take n (va_path va) ++ i :: p ∧ is_index i) as (i & p & E & Hi).
  { destruct n as [|[|[|n]]], k as [|[|[|[|k]]]]; try lia; unfold va_path; simpl;
      do 2 eexists; (split; [reflexivity|]); auto with vmm. }
  exists i. split; [done|]. rewrite E, walk_app, Hg in Hf. simpl in Hf. by destruct (absent _).
Qed.

(** No table appears where the tables are as before with at most one missing. *)
Lemma walks_shrink m m' root p :
  (∀ q, table_path q → walk m' root q = if decide (q = p) then None else walk m root q) →
  ∀ q f, table_path q → walk m' root q = Some f → walk m root q = Some f.
Proof. intros V q f Hq. rewrite V by done. by case_decide. Qed.

(** Reads a walk after a cleanup stage off the description [V] of all walks. *)
Ltac walk_after V :=
  rewrite V by auto with vmm; case_decide; (done || discriminate || congruence).

Lemma unmap_page_present pmm m root l pml4 va e :
  vm_inv pmm m root l → ptr_to pml4 root → pte_of m root va = Some e →
  ∃ pmm' m', unmap_page pmm m pml4 va = (true, pmm', m') ∧ unmapped pmm m root va l pmm' m'.
Proof.
  intros Hinv Hptr He.
  destruct (pte_of_path m root va e (vi_wf _ _ _ _ Hinv) He) as (f1 & f2 & f3 & [W1 W2 W3 E1 E2 E3 E4 _ P1 P2 P3]).
  unfold unmap_page.
  rewrite (ptr_to_load m pml4 root), E1 by auto with vmm.
  rewrite (ptr_to_load m _ _ _ P1), E2 by auto with vmm.
  rewrite (ptr_to_load m _ _ _ P2), E3 by auto with vmm.
  rewrite (ptr_to_load m _ _ _ P3), E4 by auto with vmm.
  revert P1 P2 P3. generalize (table_ptr (entry_at m root (pml4_index va))) as pdpt.
  generalize (table_ptr (entry_at m f1 (pdpt_index va))) as pd.
  generalize (table_ptr (entry_at m f2 (pd_index va))) as pt. intros pt pd pdpt P1 P2 P3.
  rewrite (ptr_to_store m _ _ _ _ P3) by auto with vmm.
  destruct (set_leaf_ok pmm m root l f3 va 0 Hinv W3) as (m1 & -> & I1 & F1 & V1 & _ & T1); [done|].
  change (absent 0) with true in T1. cbn iota in T1.
  assert (∀ q f, table_path q → walk m1 root q = Some f → walk m root q = Some f) as S1 by (intros q f Hq; by rewrite V1).
  rewrite <- (V1 _ (va_path_1 va)) in W1. rewrite <- (V1 _ (va_path_2 va)) in W2.
  rewrite <- (V1 _ (va_path_ok va)) in W3.
  destruct (is_table_empty m1 pt) eqn:Q3; cbn [negb].
  2: { do 2 eexists. split; [done|]. exists [].
       split_and!; [done|auto with pmm|simpl; lia|done|done| |exact S1].
       apply (tight_at _ _ _ 3 f3); [lia|done|by eapply not_empty_occupied|lia]. }
  destruct (cleanup_stage pmm m1 root l pd f2 (pd_index va) pt f3 [pml4_index va; pdpt_index va])
    as (pmm2 & m2 & -> & I2 & C2 & F2 & V2 & T2); [done|apply va_path_ok|done..|].
  assert (walk m2 root [pml4_index va] = Some f1) as W1' by walk_after V2.
  assert (walk m2 root [pml4_index va; pdpt_index va] = Some f2) as W2' by walk_after V2.
  assert (walk m2 root (va_path va) = None) as N3 by walk_after V2.
  destruct (is_table_empty m2 pd) eqn:Q2; cbn [negb].
  2: { do 2 eexists. split; [done|]. exists [f3].
       split_and!; [done|done|simpl; lia|by eauto using confined_trans|intros; rewrite T2; [by rewrite T1|simpl; lia]| |intros; by eapply S1, walks_shrink].
       apply (tight_at _ _ _ 2 f2); [lia|done|by eapply not_empty_occupied|].
       intros n Hn. by replace n with 3%nat by lia. }
  destruct (cleanup_stage pmm2 m2 root (f3 :: l) pdpt f1 (pdpt_index va) pd f2 [pml4_index va])
    as (pmm3 & m3 & -> & I3 & C3 & F3 & V3 & T3); [done|apply va_path_2|done..|].
  assert (walk m3 root [pml4_index va] = Some f1) as W1'' by walk_after V3.
  assert (walk m3 root [pml4_index va; pdpt_index va] = None) as N2'
    by walk_after V3.
  assert (walk m3 root (va_path va) = None) as N3' by walk_after V3.
  destruct (is_table_empty m3 pdpt) eqn:Q1; cbn [negb].
  2: { do 2 eexists. split; [done|]. exists [f2; f3].
       split_and!; [done|by eauto using same_config_trans|simpl; lia|by eauto using confined_trans
         |intros; rewrite T3, T2; [by rewrite T1|simpl; lia..]| |intros; by eapply S1, (walks_shrink _ m2), walks_shrink].
       apply (tight_at _ _ _ 1 f1); [lia|done|by eapply not_empty_occupied|].
       intros n Hn. assert (n = 2 ∨ n = 3)%nat as [-> | ->] by lia; done. }
  destruct (cleanup_stage pmm3 m3 root (f2 :: f3 :: l) pml4 root (pml4_index va) pdpt f1 [])
    as (pmm4 & m4 & -> & I4 & C4 & F4 & V4 & T4); [done|apply va_path_1|done..|].
  do 2 eexists. split; [done|]. exists [f1; f2; f3].
  split_and!; [done|by eauto using same_config_trans|simpl; lia|by eauto using confined_trans
    |intros; rewrite T4, T3, T2; [by rewrite T1|simpl; lia..]|
    |intros; by eapply S1, (walks_shrink _ m2), (walks_shrink _ m3), walks_shrink].
  assert (walk m4 root [pml4_index va] = None) as N1 by walk_after V4.
  assert (walk m4 root [pml4_index va; pdpt_index va] = None) as N2 by walk_after V4.
  assert (walk m4 root (va_path va) = None) as N4 by walk_after V4.
  intros n f Hn Hw. exfalso.
  assert (n = 1 ∨ n = 2 ∨ n = 3)%nat as [-> |[-> | ->]] by lia; unfold va_path in *;
    simpl take in Hw; congruence.
Qed.

(** ** Properties of the operations *)

(** Below a PML4 without entries there is no other table. *)
Lemma empty_root_walk m root p f :
  (∀ j, is_index j → absent (entry_at m root j) = true) → table_path p →
  walk m root p = Some f → p = [] ∧ f = root.
Proof.
  intros Hz. destruct p as [|i p]; intros [_ Hp] Hf; simpl in Hf; [by simplify_eq|].
  apply Forall_cons in Hp as [Hi _]. by rewrite Hz in Hf.
Qed.

(** A zeroed PML4 outside the free list is a tree with no other table. *)
Lemma empty_root_inv pmm m root l :
  pmm_repr pmm m l → is_frame root → root ∉ l →
  (∀ j, is_index j → absent (entry_at m root j) = true) → vm_inv pmm m root l.
Proof.
  intros Hr Hf Hl Hz.
  pose proof (λ p f, empty_root_walk m root p f Hz) as Hw.
  split; [done| |].
  - split.
    + intros p f Hp E. by destruct (Hw p f Hp E) as [_ ->].
    + intros p q f Hp Hq E1 E2. destruct (Hw p f Hp E1), (Hw q f Hq E2). congruence.
  - intros p f Hp E. by destruct (Hw p f Hp E) as [_ ->].
Qed.

(** A machine with eight free frames and an empty PML4 at 0x10000. *)
Definition demo_pool : PhysicalMemoryManager * mem :=
  foldr (λ a s, free_page s.1 s.2 a) (init_state 0x20000 0x20FFF demo_fb demo_map, demo_mem)
    ((λ k, k * PAGE_SIZE) <$> seqZ 1 8).

Lemma free_all_repr s l :
  pmm_repr s.1 s.2 [] → Forall is_frame l → NoDup l →
  pmm_repr (foldr (λ a s, free_page s.1 s.2 a) s l).1 (foldr (λ a s, free_page s.1 s.2 a) s l).2 l.
Proof.
  intros Hs Hf Hnd. induction l as [|a l IH]; [done|].
  apply Forall_cons in Hf as [Ha Hf]. apply NoDup_cons in Hnd as [Hal Hnd].
  cbn [foldr]. destruct (foldr _ s l) as [p1 m1].
  destruct (free_page_cons p1 m1 l a) as (p2 & m2 & E & _ & Hr & _); [by apply IH|done..|].
  cbn [fst snd]. by rewrite E.
Qed.

Lemma demo_pool_root j : is_index j → absent (entry_at demo_pool.2 0x10000 j) = true.
Proof.
  intros Hj.
  assert (Forall (λ j, absent (entry_at demo_pool.2 0x10000 j) = true) (seqZ 0 512)) as H.
  { apply (bool_decide_unpack _). vm_compute. exact I. }
  rewrite Forall_forall in H. apply H, elem_of_seqZ. unfold is_index in Hj. lia.
Qed.

Lemma demo_pool_inv : vm_inv demo_pool.1 demo_pool.2 0x10000 ((λ k, k * PAGE_SIZE) <$> seqZ 1 8).
Proof.
  apply empty_root_inv.
  - apply free_all_repr; [by split; [|constructor|constructor|]| |];
      unfold is_frame, page_aligned; apply (bool_decide_unpack _); vm_compute; exact I.
  - by split.
  - apply (bool_decide_unpack _). vm_compute. exact I.
  - exact demo_pool_root.
Qed.

(** C5. [map_page] completes whenever the free list covers the page tables the
    address still lacks.  It keeps the invariant (free list well formed, page
    tables a tree disjoint from it), writes to free pages and page tables only,
    loses no frame, and changes the translation of exactly one virtual page. *)
Theorem map_page_spec (pmm : PhysicalMemoryManager) (m : mem) (root : Z) (l : list Z)
    (pml4 va pa flags : Z) (user : bool) :
  vm_inv pmm m root l → ptr_to pml4 root → in_u64 pa → in_u64 flags →
  (need m root (va_tables va) ≤ length l)%nat →
  ∃ pmm' m' l',
    map_page pmm m pml4 va pa flags user = Done (pmm', m') ∧
    vm_inv pmm' m' root l' ∧ same_config pmm pmm' ∧ confined m root l m' l' ∧
    ∀ va', pte_of m' root va' =
      if decide (vpn va' = vpn va) then Some (leaf_entry_of pa flags) else pte_of m root va'.
Proof.
  intros Hinv Hptr Hpa Hfl Hneed.
  destruct (map_page_ok 0 pmm m root l pml4 va pa flags user (va_tables va))
    as (pmm' & m' & l' & H1 & H2 & H3 & _ & _ & H4 & _ & _ & H5); try done.
  - split_and!; [apply va_tables_nodup|apply va_tables_ok|lia].
  - exists pmm', m', l'. done.
Qed.

Lemma map_page_spec_witness :
  vm_inv demo_pool.1 demo_pool.2 0x10000 ((λ k, k * PAGE_SIZE) <$> seqZ 1 8) ∧
  ∃ pmm' m' l',
    map_page demo_pool.1 demo_pool.2 0x10000 0xFFFFA00000000000 0x77000 (Z.lor PRESENT WRITABLE)
      false = Done (pmm', m') ∧
    vm_inv pmm' m' 0x10000 l' ∧ same_config demo_pool.1 pmm' ∧
    confined demo_pool.2 0x10000 ((λ k, k * PAGE_SIZE) <$> seqZ 1 8) m' l' ∧
    ∀ va', pte_of m' 0x10000 va' =
      if decide (vpn va' = vpn 0xFFFFA00000000000) then Some 0x77003
      else pte_of demo_pool.2 0x10000 va'.
Proof.
  split; [exact demo_pool_inv|].
  apply (map_page_spec demo_pool.1 demo_pool.2 0x10000 ((λ k, k * PAGE_SIZE) <$> seqZ 1 8)
    0x10000 0xFFFFA00000000000 0x77000 (Z.lor PRESENT WRITABLE) false).
  - exact demo_pool_inv.
  - apply (ptr_to_phys false). by split.
  - by split.
  - by split.
  - apply (bool_decide_unpack _). vm_compute. exact I.
Defined.

(** Translating after mapping: once a page frame is mapped with ordinary
    flag bits (below bit 12), [get_physical_addr] resolves every address of
    that virtual page to the same offset in the frame, and every other address
    as before. *)
Theorem map_page_translate (pmm : PhysicalMemoryManager) (m : mem) (root : Z) (l : list Z)
    (pml4 va pa flags : Z) (user : bool) :
  vm_inv pmm m root l → ptr_to pml4 root → is_frame pa → 0 ≤ flags < 4096 →
  (need m root (va_tables va) ≤ length l)%nat →
  ∃ pmm' m',
    map_page pmm m pml4 va pa flags user = Done (pmm', m') ∧
    ∀ va', get_physical_addr m' pml4 va' =
      if decide (vpn va' = vpn va) then Some (pa + va' mod PAGE_SIZE)
      else get_physical_addr m pml4 va'.
Proof.
  intros Hinv Hptr Hpa Hfl Hneed.
  destruct (map_page_ok 0 pmm m root l pml4 va pa flags user (va_tables va))
    as (pmm' & m' & l' & H1 & H2 & _ & _ & _ & _ & _ & _ & H5); try done.
  { split_and!; [apply va_tables_nodup|apply va_tables_ok|lia]. }
  { by apply frame_in_u64. }
  { unfold in_u64, W64. lia. }
  exists pmm', m'. split; [done|]. intros va'.
  rewrite (get_physical_addr_ok m' root), (get_physical_addr_ok m root) by (apply Hinv || apply H2 || done).
  unfold translate. rewrite H5. case_decide; [|done]. simpl. f_equal.
  unfold leaf_entry_of, page_offset. rewrite <- Z.lor_assoc.
  assert (pte_addr pa = pa) as ->.
  { rewrite <- (Z.lor_0_r pa) at 1. by apply pte_addr_frame. }
  rewrite pte_addr_frame; [|done|apply (lor_range _ _ 12); [lia|done|done]].
  change 0xFFF with (Z.ones 12). rewrite Z.land_ones by done. change (2 ^ 12) with PAGE_SIZE.
  apply (lor_aligned _ _ 12); [done|apply Hpa|by apply Z.mod_pos_bound].
Qed.

Lemma map_page_translate_witness :
  ∃ pmm' m',
    map_page demo_pool.1 demo_pool.2 0x10000 0x40003000 0x77000 (Z.lor WRITABLE USER) true
      = Done (pmm', m') ∧
    ∀ va', get_physical_addr m' 0x10000 va' =
      if decide (vpn va' = vpn 0x40003000) then Some (0x77000 + va' mod PAGE_SIZE)
      else get_physical_addr demo_pool.2 0x10000 va'.
Proof.
  apply (map_page_translate demo_pool.1 demo_pool.2 0x10000 ((λ k, k * PAGE_SIZE) <$> seqZ 1 8)
    0x10000 0x40003000 0x77000 (Z.lor WRITABLE USER) true).
  - exact demo_pool_inv.
  - apply (ptr_to_phys false). by split.
  - by split.
  - by split.
  - apply (bool_decide_unpack _). vm_compute. exact I.
Defined.

(** Out of memory: if a table on the path of the address is missing and no
    page is free, [map_page] panics with the page-table OOM message and does
    not return a half-made mapping. *)
Theorem map_page_oom (pmm : PhysicalMemoryManager) (m : mem) (root : Z)
    (pml4 va pa flags : Z) (user : bool) :
  vm_inv pmm m root [] → ptr_to pml4 root → walk m root (va_path va) = None →
  map_page pmm m pml4 va pa flags user = Panic "[CRITICAL] OOM during page table walk!".
Proof.
  intros [Hr Hwf _] Hptr Hnone. unfold map_page. set (fl := if user then _ else _).
  assert (∀ table t i p, ptr_to table t → table_path (p ++ [i]) → walk m root p = Some t → is_index i →
    (walk m root (p ++ [i]) = None ∧ get_or_create_table pmm m table i fl
       = Panic "[CRITICAL] OOM during page table walk!") ∨
    (∃ ptr c, walk m root (p ++ [i]) = Some c ∧ ptr_to ptr c ∧
       get_or_create_table pmm m table i fl = Done (ptr, pmm, m))) as Hstep.
  { intros table t i p Ht Hpi Hw Hi. unfold get_or_create_table.
    rewrite (ptr_to_load m table t i) by done.
    rewrite walk_app, Hw. cbn [mbind option_bind walk]. destruct (absent (entry_at m t i)) eqn:E.
    - left. by rewrite alloc_page_nil.
    - right. cbn [mbind outcome_bind]. rewrite (ptr_to_load m table t i) by done.
      do 2 eexists. split; [done|]. split; [|done]. apply ptr_to_phys.
      apply (pw_frame _ _ Hwf (p ++ [i])); [done|]. rewrite walk_app, Hw. simpl. by rewrite E. }
  destruct (Hstep pml4 root (pml4_index va) []) as [[_ ->]|(p1 & c1 & W1 & P1 & ->)];
    [done|apply va_path_1|done|auto with vmm|done|].
  cbn [mbind outcome_bind].
  destruct (Hstep p1 c1 (pdpt_index va) [pml4_index va]) as [[_ ->]|(p2 & c2 & W2 & P2 & ->)];
    [done|apply va_path_2|done|auto with vmm|done|].
  cbn [mbind outcome_bind].
  destruct (Hstep p2 c2 (pd_index va) [pml4_index va; pdpt_index va])
    as [[_ ->]|(p3 & c3 & W3 & P3 & ->)]; [done|apply va_path_ok|done|auto with vmm|done|].
  by rewrite (Hnone : walk m root ([_; _] ++ [_]) = None) in W3.
Qed.

Lemma map_page_oom_witness :
  map_page (init_state 0x20000 0x20FFF demo_fb demo_map) ∅ 0x10000 0x5000 0x77000 WRITABLE true
    = Panic "[CRITICAL] OOM during page table walk!".
Proof.
  apply (map_page_oom _ _ 0x10000).
  - apply empty_root_inv; [by split; [|constructor|constructor|]|by split|apply not_elem_of_nil|].
    intros j _. reflexivity.
  - apply (ptr_to_phys false). by split.
  - reflexivity.
Defined.

(** C10. [unmap_page] reports whether the page was mapped.  Afterwards that page
    has no translation and every other page keeps its own; at most three
    frames go back to the free list, no frame is lost, the invariant holds, and
    no empty page table is left on the path of a page that was unmapped. *)
Theorem unmap_page_spec (pmm : PhysicalMemoryManager) (m : mem) (root : Z) (l : list Z)
    (pml4 va : Z) :
  vm_inv pmm m root l → ptr_to pml4 root →
  ∃ b pmm' m' k,
    unmap_page pmm m pml4 va = (b, pmm', m') ∧
    b = bool_decide (is_Some (pte_of m root va)) ∧
    vm_inv pmm' m' root (k ++ l) ∧ same_config pmm pmm' ∧ (length k ≤ 3)%nat ∧
    confined m root l m' (k ++ l) ∧
    (∀ va', pte_of m' root va' = if decide (vpn va' = vpn va) then None else pte_of m root va') ∧
    (b = true → path_tight m' root va).
Proof.
  intros Hinv Hptr. destruct (pte_of m root va) as [e|] eqn:E.
  - destruct (unmap_page_present pmm m root l pml4 va e) as (pmm' & m' & -> & k & ? & ? & ? & ? & ? & ? & _);
      [done..|]. exists true, pmm', m', k. split_and!; try done.
  - rewrite (unmap_page_absent pmm m root) by (apply Hinv || done).
    exists false, pmm, m, []. split_and!; [done|done|done|auto with pmm|simpl; lia|apply confined_refl| |done].
    intros va'. case_decide as Hv; [|done]. unfold pte_of in *.
    apply same_vpn, app_inj_tail in Hv as [-> ->]. done.
Qed.

(** The demo machine with 0x77000 mapped at the base of the kernel heap. *)
Definition demo_mapped : PhysicalMemoryManager * mem :=
  done_or demo_pool (map_page demo_pool.1 demo_pool.2 0x10000 0xFFFFA00000000000 0x77000
    (Z.lor (Z.lor PRESENT WRITABLE) NX) false).

Lemma demo_mapped_inv : ∃ l, vm_inv demo_mapped.1 demo_mapped.2 0x10000 l.
Proof.
  destruct (map_page_ok 0 demo_pool.1 demo_pool.2 0x10000 ((λ k, k * PAGE_SIZE) <$> seqZ 1 8)
    0x10000 0xFFFFA00000000000 0x77000 (Z.lor (Z.lor PRESENT WRITABLE) NX) false
    (va_tables 0xFFFFA00000000000)) as (pmm' & m' & l' & E & Hinv & _).
  - exact demo_pool_inv.
  - split_and!; [apply va_tables_nodup|apply va_tables_ok|].
    apply (bool_decide_unpack _). vm_compute. exact I.
  - done.
  - apply (ptr_to_phys false). by split.
  - by split.
  - by split.
  - exists l'. unfold demo_mapped. by rewrite E.
Qed.

Lemma unmap_page_spec_witness : ∃ l b pmm' m' k,
  unmap_page demo_mapped.1 demo_mapped.2 0x10000 0xFFFFA00000000000 = (b, pmm', m') ∧
  b = bool_decide (is_Some (pte_of demo_mapped.2 0x10000 0xFFFFA00000000000)) ∧
  vm_inv pmm' m' 0x10000 (k ++ l) ∧ same_config demo_mapped.1 pmm' ∧ (length k ≤ 3)%nat ∧
  confined demo_mapped.2 0x10000 l m' (k ++ l) ∧
  (∀ va', pte_of m' 0x10000 va' =
    if decide (vpn va' = vpn 0xFFFFA00000000000) then None
    else pte_of demo_mapped.2 0x10000 va') ∧
  (b = true → path_tight m' 0x10000 0xFFFFA00000000000).
Proof.
  destruct demo_mapped_inv as [l Hl]. exists l.
  apply (unmap_page_spec demo_mapped.1 demo_mapped.2 0x10000 l 0x10000 0xFFFFA00000000000 Hl).
  apply (ptr_to_phys false). by split.
Defined.

(** [get_physical_addr] computes the translation the page tables define:
    the address bits of the leaf entry together with the page offset, or
    nothing when a table or the leaf is not present. *)
Theorem get_physical_addr_refines (m : mem) (root pml4 va : Z) :
  pt_wf m root → ptr_to pml4 root →
  get_physical_addr m pml4 va =
    (λ e, Z.lor (pte_addr e) (page_offset va)) <$> pte_of m root va.
Proof. apply get_physical_addr_ok. Qed.

Lemma get_physical_addr_refines_witness :
  get_physical_addr demo_mapped.2 0x10000 0xFFFFA00000000123 =
    (λ e, Z.lor (pte_addr e) (page_offset 0xFFFFA00000000123))
      <$> pte_of demo_mapped.2 0x10000 0xFFFFA00000000123.
Proof.
  apply (get_physical_addr_refines demo_mapped.2 0x10000).
  - destruct demo_mapped_inv as [l Hl]. apply Hl.
  - apply (ptr_to_phys false). by split.
Defined.

(** Entries that carry the no-execute flag (bit 63) translate to an
    address with bit 63 set: [get_physical_addr] only clears the low twelve
    bits of the entry, so for an NX page it does not return the frame that
    was mapped. *)
Theorem get_physical_addr_nx (pmm : PhysicalMemoryManager) (m : mem) (root : Z) (l : list Z)
    (pml4 va pa flags : Z) (user : bool) :
  vm_inv pmm m root l → ptr_to pml4 root → is_frame pa → 0 ≤ flags < 4096 →
  (need m root (va_tables va) ≤ length l)%nat →
  ∃ pmm' m',
    map_page pmm m pml4 va pa (Z.lor flags NX) user = Done (pmm', m') ∧
    get_physical_addr m' pml4 va = Some (2 ^ 63 + pa + va mod PAGE_SIZE).
Proof.
  intros Hinv Hptr Hpa Hfl Hneed.
  destruct (map_page_ok 0 pmm m root l pml4 va pa (Z.lor flags NX) user (va_tables va))
    as (pmm' & m' & l' & H1 & H2 & _ & _ & _ & _ & _ & _ & H5); try done.
  { split_and!; [apply va_tables_nodup|apply va_tables_ok|lia]. }
  { by apply frame_in_u64. }
  { apply (lor_range _ _ 64); [lia| |done]. lia. }
  exists pmm', m'. split; [done|].
  rewrite (get_physical_addr_ok m' root) by (apply H2 || done).
  unfold translate. rewrite H5, decide_True by done. simpl. f_equal. apply nx_leaf_addr; done.
Qed.

Lemma get_physical_addr_nx_witness :
  ∃ pmm' m',
    map_page demo_pool.1 demo_pool.2 0x10000 0xFFFFA00000000000 0x77000
      (Z.lor (Z.lor PRESENT WRITABLE) NX) false = Done (pmm', m') ∧
    get_physical_addr m' 0x10000 0xFFFFA00000000000 = Some (2 ^ 63 + 0x77000 + 0).
Proof.
  apply (get_physical_addr_nx demo_pool.1 demo_pool.2 0x10000 ((λ k, k * PAGE_SIZE) <$> seqZ 1 8)
    0x10000 0xFFFFA00000000000 0x77000 (Z.lor PRESENT WRITABLE) false).
  - exact demo_pool_inv.
  - apply (ptr_to_phys false). by split.
  - by split.
  - by split.
  - apply (bool_decide_unpack _). vm_compute. exact I.
Defined.
