(* ===== verification/HigherHalf.v ===== *)
(** * HigherHalf.v: the boot-time mappings (memory_manager/vmm.rs)

    The loops that build the kernel's address space: the identity maps of
    [init_page_tables], the direct physical map, the framebuffer window, the
    removal of the identity maps and the return of boot memory to the free
    list.  Each loop is shown to perform a list of mapping requests, and one
    theorem about such lists gives the translation the loops leave behind. *)

From S2P Require Import Prelude Machine Pmm Vmm.

Local Open Scope Z_scope.

(** ** Operations *)

(** [while addr < end { body; addr += PAGE_SIZE; }] *)
Fixpoint while_pages {T : Type} (fuel : nat) (addr end_ : Z) (body : Z → T → outcome T) (s : T)
    : outcome T :=
  if addr <? end_ then
    match fuel with
    | O => OutOfFuel
    | S fuel' => body addr s ≫= while_pages fuel' (addr ⊞ PAGE_SIZE) end_ body
    end
  else Done s.

(** Enough iterations for a loop that does not wrap around. *)
Definition page_fuel (addr end_ : Z) : nat := Z.to_nat ((end_ - addr) / PAGE_SIZE + 1).

(** The loop over the memory map that [init_page_tables] and
    [build_direct_map] share: every page of a descriptor of one of the types
    [ts] is mapped at [virt phys] with the flags [flags] picks. *)
Definition map_descriptors (ts : list EfiMemoryType) (virt : Z → Z)
    (flags : EfiMemoryDescriptor → Z) (pml4 desc_size n first : Z)
    (s : PhysicalMemoryManager * mem) : outcome (PhysicalMemoryManager * mem) :=
  '(_, s') ← for_range (Z.to_nat n) 0
    (fun _ '(descriptor_addr, (pmm, m)) =>
       let d := EfiMemoryDescriptor_new m descriptor_addr in
       let descriptor_addr' := descriptor_addr ⊞ desc_size in
       if negb (region_is d ts) then Done (descriptor_addr', (pmm, m))
       else
         s' ← for_range (Z.to_nat (num_pages d)) 0 (fun i '(pmm, m) =>
           let phys := physical_start d ⊞ i ⊠ PAGE_SIZE in
           map_page pmm m pml4 (virt phys) phys (flags d) false) (pmm, m);
         Done (descriptor_addr', s'))
    (first, s);
  Done s'.

(** [init_page_tables] *)
Definition identity_types : list EfiMemoryType :=
  [EfiConventionalMemory; EfiLoaderCode; EfiLoaderData; EfiBootServicesCode; EfiBootServicesData].

Definition init_page_tables (pmm : PhysicalMemoryManager) (m : mem)
    (framebuffer_info : FramebufferInfo) (memory_map : MemoryMapInfo)
    : outcome (Z * PhysicalMemoryManager * mem) :=
  let '(r, pmm) := alloc_page pmm m in
  new_pml4 ← expect "[CRITICAL] OOM allocating PML4!" r;
  let m := zero_out_page m new_pml4 in
  let pml4 := new_pml4 in
  num_segments ← checked_div (memory_map_size memory_map) (descriptor_size memory_map);
  s ← map_descriptors identity_types (fun phys => phys) (fun _ => Z.lor PRESENT WRITABLE)
        pml4 (descriptor_size memory_map) num_segments (memory_map_addr memory_map) (pmm, m);
  (* kernel image *)
  let start := kernel_start s.1 in
  let end_ := kernel_end s.1 in
  s ← while_pages (page_fuel start end_) start end_ (fun addr '(pmm, m) =>
        '(pmm, m) ← map_page pmm m pml4 addr addr (Z.lor PRESENT WRITABLE) false;
        map_page pmm m pml4 (addr ⊞ KERNEL_VIRTUAL_BASE) addr (Z.lor PRESENT WRITABLE) false) s;
  (* kernel stack *)
  let stack_start := Z.land (stack_base_addr memory_map) (not64 0xFFF) in
  let stack_end := stack_base_addr memory_map ⊞ stack_size memory_map in
  s ← while_pages (page_fuel stack_start stack_end) stack_start stack_end (fun addr '(pmm, m) =>
        '(pmm, m) ← map_page pmm m pml4 addr addr (Z.lor (Z.lor PRESENT WRITABLE) NX) false;
        map_page pmm m pml4 (addr ⊞ KERNEL_VIRTUAL_BASE) addr
          (Z.lor (Z.lor PRESENT WRITABLE) NX) false) s;
  (* framebuffer *)
  let fb_start := Z.land (framebuffer_addr framebuffer_info) (not64 0xFFF) in
  let fb_end := framebuffer_addr framebuffer_info ⊞ fb_size framebuffer_info in
  s ← while_pages (page_fuel fb_start fb_end) fb_start fb_end (fun addr '(pmm, m) =>
        map_page pmm m pml4 addr addr (Z.lor PRESENT WRITABLE) false) s;
  (* UEFI memory map buffer *)
  let map_start := Z.land (memory_map_addr memory_map) (not64 0xFFF) in
  let map_end := memory_map_addr memory_map ⊞ memory_map_size memory_map in
  s ← while_pages (page_fuel map_start map_end) map_start map_end (fun addr '(pmm, m) =>
        map_page pmm m pml4 addr addr (Z.lor PRESENT WRITABLE) false) s;
  Done (pml4, s.1, s.2).

(** [build_direct_map] *)
Definition direct_types : list EfiMemoryType :=
  [EfiConventionalMemory; EfiLoaderCode; EfiLoaderData; EfiBootServicesCode; EfiBootServicesData;
   EfiRuntimeServicesCode; EfiRuntimeServicesData; EfiACPIReclaimMemory; EfiACPIMemoryNVS].

Definition direct_flags (d : EfiMemoryDescriptor) : Z :=
  if region_is d [EfiRuntimeServicesCode] then Z.lor PRESENT WRITABLE
  else Z.lor (Z.lor PRESENT WRITABLE) NX.

Definition mmio_flags : Z := Z.lor (Z.lor (Z.lor PRESENT WRITABLE) PWT) PCD.

Definition apic_regions : list (Z * Z) := [(0xFEE00000, 0x1000); (0xFEC00000, 0x1000)].

Fixpoint map_apic_regions (regions : list (Z * Z)) (pml4 : Z) (s : PhysicalMemoryManager * mem)
    : outcome (PhysicalMemoryManager * mem) :=
  match regions with
  | [] => Done s
  | (phys_base, size) :: regions' =>
      s ← while_pages (page_fuel phys_base (phys_base ⊞ size)) phys_base (phys_base ⊞ size)
            (fun phys '(pmm, m) =>
               map_page pmm m pml4 (KERNEL_PHYSICAL_MAP_BASE ⊞ phys) phys mmio_flags false) s;
      map_apic_regions regions' pml4 s
  end.

Definition build_direct_map (pmm : PhysicalMemoryManager) (m : mem) (pml4 : Z)
    (memory_map : MemoryMapInfo) : outcome (PhysicalMemoryManager * mem) :=
  num_segments ← checked_div (memory_map_size memory_map) (descriptor_size memory_map);
  s ← map_descriptors direct_types (fun phys => KERNEL_PHYSICAL_MAP_BASE ⊞ phys) direct_flags
        pml4 (descriptor_size memory_map) num_segments (memory_map_addr memory_map) (pmm, m);
  '(pmm, m) ← map_apic_regions apic_regions pml4 s;
  let hpet_mmio_addr := 0xFED00000 in
  map_page pmm m pml4 (KERNEL_PHYSICAL_MAP_BASE ⊞ hpet_mmio_addr) hpet_mmio_addr mmio_flags false.

(** [map_framebuffer_higher_half]: [virt] advances with [phys]. *)
Definition map_framebuffer_higher_half (pmm : PhysicalMemoryManager) (m : mem) (pml4 : Z)
    (framebuffer_info : FramebufferInfo) : outcome (PhysicalMemoryManager * mem) :=
  let fb_phys_start := Z.land (framebuffer_addr framebuffer_info) (not64 0xFFF) in
  let fb_phys_end :=
    Z.land (framebuffer_addr framebuffer_info ⊞ fb_size framebuffer_info ⊞ 0xFFF) (not64 0xFFF) in
  '(_, s) ← while_pages (page_fuel fb_phys_start fb_phys_end) fb_phys_start fb_phys_end
    (fun phys '(virt, (pmm, m)) =>
       s ← map_page pmm m pml4 virt phys (Z.lor PRESENT WRITABLE) false;
       Done (virt ⊞ PAGE_SIZE, s))
    (KERNEL_FRAMEBUFFER_VIRTUAL_BASE, (pmm, m));
  Done s.

(** [remove_identity_maps]; the CR3 reload has no effect on memory. *)
Definition remove_identity_maps (m : mem) (pml4_phys : Z) : mem :=
  zero_words 256 m (pml4_phys ⊞ KERNEL_PHYSICAL_MAP_BASE) 0.

(** [reclaim_boot_memory] *)
Definition reclaimable_types : list EfiMemoryType :=
  [EfiLoaderCode; EfiLoaderData; EfiBootServicesCode; EfiBootServicesData].

Definition reclaim_page_skipped (memory_map : MemoryMapInfo) (pmm : PhysicalMemoryManager)
    (page_start : Z) : bool :=
  let page_end := page_start ⊞ PAGE_SIZE ⊟ 1 in
  let map_start := memory_map_addr memory_map in
  let map_end := memory_map_addr memory_map ⊞ memory_map_size memory_map in
  (page_start =? 0)
  || page_overlaps page_start page_end map_start map_end
  || page_overlaps page_start page_end (kernel_start pmm) (kernel_end pmm)
  || page_overlaps page_start page_end (kernel_stack_base_addr pmm)
       (kernel_stack_base_addr pmm ⊞ kernel_stack_size pmm).

Definition reclaim_boot_memory (pmm : PhysicalMemoryManager) (m : mem)
    (memory_map : MemoryMapInfo) : outcome (PhysicalMemoryManager * mem) :=
  num_segments ← checked_div (memory_map_size memory_map) (descriptor_size memory_map);
  free_map_pages reclaimable_types (reclaim_page_skipped memory_map)
    (descriptor_size memory_map) num_segments
    (memory_map_addr memory_map ⊞ KERNEL_PHYSICAL_MAP_BASE) (pmm, m).

(** ** Requests

    A request is a virtual address, a physical address and flags. *)

Definition request : Type := Z * Z * Z.

Fixpoint map_all (pml4 : Z) (reqs : list request) (s : PhysicalMemoryManager * mem)
    : outcome (PhysicalMemoryManager * mem) :=
  match reqs with
  | [] => Done s
  | (va, pa, flags) :: reqs' => map_page s.1 s.2 pml4 va pa flags false ≫= map_all pml4 reqs'
  end.

(** The leaf entry of [va] after the requests: the last one for its page wins. *)
Definition requested (reqs : list request) (va : Z) (old : option Z) : option Z :=
  fold_left (λ acc '(va', pa, flags),
    if decide (vpn va = vpn va') then Some (leaf_entry_of pa flags) else acc) reqs old.

Definition request_ok (r : request) : Prop := in_u64 r.1.2 ∧ in_u64 r.2.

(** The distinct page tables the requests need, besides the PML4. *)
Definition request_tables (reqs : list request) : list (list Z) :=
  remove_dups (reqs ≫= λ r, va_tables r.1.1).

Lemma request_tables_incl reqs r : r ∈ reqs → va_tables r.1.1 ⊆ request_tables reqs.
Proof.
  intros Hr p Hp. apply elem_of_remove_dups, list_elem_of_bind. exists r. done.
Qed.

Lemma request_tables_ok reqs : NoDup (request_tables reqs) ∧ Forall table_path (request_tables reqs).
Proof.
  split; [apply NoDup_remove_dups|]. apply Forall_forall. intros p.
  unfold request_tables. rewrite elem_of_remove_dups, list_elem_of_bind. intros (r & Hp & _).
  pose proof (va_tables_ok r.1.1) as H. rewrite Forall_forall in H. by apply H.
Qed.

Lemma requested_app r1 r2 va old : requested (r1 ++ r2) va old = requested r2 va (requested r1 va old).
Proof. apply fold_left_app. Qed.

Lemma map_all_app pml4 r1 r2 s : map_all pml4 (r1 ++ r2) s = map_all pml4 r1 s ≫= map_all pml4 r2.
Proof.
  revert s. induction r1 as [|[[va pa] fl] r1 IH]; intros s; [done|].
  cbn [app map_all]. destruct (map_page _ _ _ _ _ _ _) as [s'| |]; [|done..]. apply IH.
Qed.

(** What a run of mappings guarantees, from [(pmm, m)] with free list [l]. *)
Definition mapped_to (root : Z) (ps : list (list Z)) (reqs : list request)
    (pmm : PhysicalMemoryManager) (m : mem) (l : list Z)
    (s' : PhysicalMemoryManager * mem) (l' : list Z) : Prop :=
  vm_inv s'.1 s'.2 root l' ∧ same_config pmm s'.1 ∧ funded 0 s'.2 root l' ps ∧
  confined m root l s'.2 l' ∧
  ∀ va, pte_of s'.2 root va = requested reqs va (pte_of m root va).

Lemma mapped_to_nil root ps pmm m l :
  vm_inv pmm m root l → funded 0 m root l ps → mapped_to root ps [] pmm m l (pmm, m) l.
Proof. intros. split_and!; simpl; auto using confined_refl with pmm. Qed.

Lemma mapped_to_app root ps r1 r2 pmm m l s1 l1 s2 l2 :
  mapped_to root ps r1 pmm m l s1 l1 → mapped_to root ps r2 s1.1 s1.2 l1 s2 l2 →
  mapped_to root ps (r1 ++ r2) pmm m l s2 l2.
Proof.
  intros (_ & C1 & _ & F1 & T1) (I2 & C2 & B2 & F2 & T2).
  split_and!; eauto using same_config_trans, confined_trans.
  intros va. by rewrite T2, T1, requested_app.
Qed.

Lemma map_all_ok root pml4 ps reqs pmm m l :
  ptr_to pml4 root → vm_inv pmm m root l → funded 0 m root l ps →
  Forall (λ r, request_ok r ∧ va_tables r.1.1 ⊆ ps) reqs →
  ∃ s' l', map_all pml4 reqs (pmm, m) = Done s' ∧ mapped_to root ps reqs pmm m l s' l'.
Proof.
  intros Hptr. revert pmm m l.
  induction reqs as [|[[va pa] fl] reqs IH]; intros pmm m l Hinv Hfund Hall.
  { exists (pmm, m), l. split; [done|]. by apply mapped_to_nil. }
  apply Forall_cons in Hall as [[[Hpa Hfl] Hps] Hall]. cbn [map_all fst snd].
  destruct (map_page_ok 0 pmm m root l pml4 va pa fl false ps)
    as (pmm1 & m1 & l1 & -> & H1 & H2 & H3 & _ & H4 & _ & _ & H5); [done..|].
  cbn [mbind outcome_bind].
  destruct (IH pmm1 m1 l1) as (s' & l' & -> & Hm); [done..|].
  exists s', l'. split; [done|].
  apply (mapped_to_app root ps [(va, pa, fl)] reqs pmm m l (pmm1, m1) l1 s' l'); [|done].
  by split_and!.
Qed.

(** ** Loops as lists of requests *)

(** The pages [while addr < end] visits. *)
Definition pages_between (addr end_ : Z) : list Z :=
  (λ k, addr + k * PAGE_SIZE) <$> seqZ 0 ((end_ - addr + PAGE_SIZE - 1) / PAGE_SIZE).

Lemma pages_between_nil addr end_ : end_ ≤ addr → pages_between addr end_ = [].
Proof.
  intros H. unfold pages_between. rewrite seqZ_nil; [done|]. unfold PAGE_SIZE.
  enough ((end_ - addr + 4096 - 1) / 4096 < 1) by lia. apply Z.div_lt_upper_bound; lia.
Qed.

Lemma pages_between_cons addr end_ :
  addr < end_ → pages_between addr end_ = addr :: pages_between (addr + PAGE_SIZE) end_.
Proof.
  intros H. unfold pages_between, PAGE_SIZE.
  replace (end_ - addr + 4096 - 1) with (end_ - (addr + 4096) + 4096 - 1 + 1 * 4096) by lia.
  rewrite Z.div_add by lia.
  set (n := (end_ - (addr + 4096) + 4096 - 1) / 4096).
  assert (0 ≤ n) by (apply Z.div_pos; lia).
  rewrite seqZ_cons by lia. cbn [fmap list_fmap]. f_equal; [lia|].
  replace (Z.pred (n + 1)) with n by lia.
  rewrite <- (Z.add_0_r 0) at 1. change (Z.succ 0) with (0 + 1).
  apply list_eq. intros i. rewrite !list_lookup_fmap.
  destruct (decide (Z.of_nat i < n)).
  - rewrite !lookup_seqZ_lt by lia. simpl. f_equal. lia.
  - rewrite !lookup_seqZ_ge by lia. done.
Qed.

(** The loop [while addr < end { requests; addr += PAGE_SIZE }] *)
Lemma while_pages_requests root pml4 ps (f : Z → list request) body fuel addr end_ pmm m l :
  ptr_to pml4 root → (∀ a s, body a s = map_all pml4 (f a) s) →
  0 ≤ addr → end_ + PAGE_SIZE ≤ W64 → (page_fuel addr end_ ≤ fuel)%nat →
  vm_inv pmm m root l → funded 0 m root l ps →
  Forall (λ r, request_ok r ∧ va_tables r.1.1 ⊆ ps) (pages_between addr end_ ≫= f) →
  ∃ s' l', while_pages fuel addr end_ body (pmm, m) = Done s' ∧
    mapped_to root ps (pages_between addr end_ ≫= f) pmm m l s' l'.
Proof.
  intros Hptr Hbody. unfold page_fuel. revert addr pmm m l.
  induction fuel as [|fuel IH]; intros addr pmm m l Ha He Hf Hinv Hfund Hall; cbn [while_pages].
  - destruct (Z.ltb_spec addr end_).
    + exfalso. pose proof (Z.div_pos (end_ - addr) PAGE_SIZE). unfold PAGE_SIZE in *. lia.
    + rewrite pages_between_nil by lia. eexists _, l. split; [done|]. by apply mapped_to_nil.
  - destruct (Z.ltb_spec addr end_).
    2: { rewrite pages_between_nil by lia. eexists _, l. split; [done|]. by apply mapped_to_nil. }
    rewrite pages_between_cons in Hall |- * by done.
    rewrite bind_cons in Hall |- *. apply Forall_app in Hall as [Hall1 Hall2]. rewrite Hbody.
    destruct (map_all_ok root pml4 ps (f addr) pmm m l) as ([p1 m1] & l1 & -> & M1); [done..|].
    cbn [mbind outcome_bind]. rewrite u64_small by (unfold PAGE_SIZE in *; lia).
    destruct (IH (addr + PAGE_SIZE) p1 m1 l1) as (s' & l' & -> & M2); try done.
    + unfold PAGE_SIZE. lia.
    + replace (end_ - (addr + PAGE_SIZE)) with (end_ - addr + (-1) * PAGE_SIZE) by lia.
      rewrite Z.div_add by done. lia.
    + apply M1.
    + apply M1.
    + exists s', l'. split; [done|]. by eapply (mapped_to_app root ps _ _ _ _ _ (p1, m1)).
Qed.

Lemma while_pages_ext {T} (f g : Z → T → outcome T) fuel addr end_ s :
  (∀ a t, f a t = g a t) → while_pages fuel addr end_ f s = while_pages fuel addr end_ g s.
Proof.
  intros Hfg. revert addr s. induction fuel as [|fuel IH]; intros addr s; cbn; [done|].
  destruct (addr <? end_); [|done]. rewrite Hfg. destruct (g addr s); [apply IH|done..].
Qed.

(** A second cursor that advances by a page each time round. *)
Lemma while_pages_cursor {T} (g : Z → Z → T → outcome T) fuel addr end_ virt s :
  0 ≤ addr → end_ + PAGE_SIZE ≤ W64 → in_u64 virt →
  ('(_, s') ← while_pages fuel addr end_
     (fun phys '(virt, s) => s' ← g virt phys s; Done (virt ⊞ PAGE_SIZE, s')) (virt, s);
   Done s')
  = while_pages fuel addr end_ (fun phys s => g (virt ⊞ (phys - addr)) phys s) s.
Proof.
  revert addr virt s. induction fuel as [|fuel IH]; intros addr virt s Ha He Hv; cbn [while_pages].
  - by destruct (addr <? end_).
  - destruct (Z.ltb_spec addr end_); [|done].
    replace (virt + (addr - addr)) with virt by lia. rewrite (u64_small virt) by done.
    destruct (g virt addr s) as [s1| |]; cbn [mbind outcome_bind]; [|done..].
    rewrite (u64_small (addr + _)) by (unfold PAGE_SIZE in *; lia).
    rewrite IH by (unfold PAGE_SIZE in *; (lia || done || apply u64_range)).
    apply while_pages_ext. intros a t. f_equal. unfold u64. rewrite Zplus_mod_idemp_l. f_equal. lia.
Qed.

Lemma for_range_requests pml4 (f : Z → request) n i s :
  for_range n i (fun j '(pmm, m) => map_page pmm m pml4 (f j).1.1 (f j).1.2 (f j).2 false) s
    = map_all pml4 (f <$> seqZ i (Z.of_nat n)) s.
Proof.
  revert i s. induction n as [|n IH]; intros i [pmm m]; [done|].
  rewrite seqZ_cons by lia. cbn [for_range fmap list_fmap map_all fst snd].
  destruct (f i) as [[va pa] fl]. cbn [fst snd]. destruct (map_page _ _ _ _ _ _ _); [|done..].
  cbn [mbind outcome_bind]. rewrite IH. by replace (Z.pred (Z.of_nat (S n))) with (Z.of_nat n) by lia.
Qed.

(** ** The loop over the memory map *)

Section descriptors.
Context (ts : list EfiMemoryType) (virt : Z → Z) (flags : EfiMemoryDescriptor → Z).
Context (mm : MemoryMapInfo) (root pml4 : Z) (ps : list (list Z)).
Hypothesis Hptr : ptr_to pml4 root.
Hypothesis Hdsize : 40 ≤ descriptor_size mm.
Hypothesis Haddr : 0 ≤ memory_map_addr mm.
Hypothesis Hend : memory_map_addr mm + memory_map_size mm < PHYS_LIMIT.

Definition descriptor_requests (d : EfiMemoryDescriptor) : list request :=
  if region_is d ts then (λ a, (virt a, a, flags d)) <$> descriptor_pages d else [].

(** No owned frame overlaps the buffer of the memory map. *)
Definition map_spared (m : mem) (l : list Z) : Prop :=
  ∀ f, owned m root l f → apart f PAGE_SIZE (memory_map_addr mm) (memory_map_size mm).

Definition reads_back (m0 m : mem) : Prop :=
  ∀ i, 0 ≤ i < num_segments mm →
    EfiMemoryDescriptor_new m (descriptor_addr mm i) = EfiMemoryDescriptor_new m0 (descriptor_addr mm i).

Lemma confined_reads m0 m l m' l' :
  map_spared m l → confined m root l m' l' → reads_back m0 m → reads_back m0 m' ∧ map_spared m' l'.
Proof.
  intros Hsp [Ho Hag] Hrb. split.
  - intros i Hi. rewrite <- Hrb by done.
    apply (descriptor_agree (owned_bytes m root l) mm m m' false); try done.
    intros x Hx (f & Hf & Hs). specialize (Hsp f Hf). unfold apart, span in *. lia.
  - intros f Hf. apply Hsp. by rewrite <- Ho.
Qed.

Lemma descriptor_step m0 d pmm m l :
  (region_is d ts → descriptor_ok d) → 0 ≤ num_pages d →
  vm_inv pmm m root l → funded 0 m root l ps → reads_back m0 m → map_spared m l →
  Forall (λ r, request_ok r ∧ va_tables r.1.1 ⊆ ps) (descriptor_requests d) →
  ∃ p' m' l',
    (if negb (region_is d ts) then Done (pmm, m) else
       for_range (Z.to_nat (num_pages d)) 0 (fun i '(pmm, m) =>
         let phys := physical_start d ⊞ i ⊠ PAGE_SIZE in
         map_page pmm m pml4 (virt phys) phys (flags d) false) (pmm, m)) = Done (p', m') ∧
    mapped_to root ps (descriptor_requests d) pmm m l (p', m') l' ∧
    reads_back m0 m' ∧ map_spared m' l'.
Proof.
  intros Hok Hn Hinv Hfund Hrb Hsp Hall. unfold descriptor_requests in *.
  destruct (region_is d ts) eqn:E; simpl negb; cbn iota.
  2: { exists pmm, m, l. split; [done|]. split; [by apply mapped_to_nil|done]. }
  destruct (Hok I) as (Hs & Hal & He).
  destruct (map_all_ok root pml4 ps _ pmm m l Hptr Hinv Hfund Hall) as ([p' m'] & l' & Hrun & M).
  exists p', m', l'. split; [|split; [done|]].
  - rewrite <- Hrun. unfold descriptor_pages. rewrite <- list_fmap_compose.
    rewrite <- (Z2Nat.id (num_pages d)) at 2 by done.
    rewrite <- for_range_requests. apply for_range_ext. intros i [p m1] Hi. cbn.
    assert (physical_start d ⊞ i ⊠ PAGE_SIZE = physical_start d + i * PAGE_SIZE) as ->; [|done].
    unfold PAGE_SIZE, PHYS_LIMIT in *.
    rewrite (u64_small (i * 4096)), u64_small by (unfold W64; lia). done.
  - apply (confined_reads m0 m l m' l'); [done|apply M|done].
Qed.

Lemma descriptor_next i :
  0 ≤ i → i + 1 ≤ num_segments mm →
  descriptor_addr mm i ⊞ descriptor_size mm = descriptor_addr mm (i + 1).
Proof.
  intros Hi Hn. unfold descriptor_addr.
  assert ((i + 1) * descriptor_size mm ≤ memory_map_size mm) as Hle.
  { unfold num_segments in Hn.
    pose proof (Z.mul_div_le (memory_map_size mm) (descriptor_size mm) ltac:(lia)). nia. }
  rewrite u64_small; [lia|]. unfold W64, PHYS_LIMIT in *. nia.
Qed.

Lemma map_descriptors_from m0 n i pmm m l :
  (∀ j, i ≤ j < i + Z.of_nat n → let d := EfiMemoryDescriptor_new m0 (descriptor_addr mm j) in
    region_is d ts → descriptor_ok d) →
  0 ≤ i → i + Z.of_nat n ≤ num_segments mm →
  vm_inv pmm m root l → funded 0 m root l ps → reads_back m0 m → map_spared m l →
  Forall (λ r, request_ok r ∧ va_tables r.1.1 ⊆ ps)
    (descriptors_from m0 mm i (Z.of_nat n) ≫= descriptor_requests) →
  ∃ ad s' l', for_range n i (fun _ '(descriptor_addr, (pmm, m)) =>
       let d := EfiMemoryDescriptor_new m descriptor_addr in
       let descriptor_addr' := descriptor_addr ⊞ descriptor_size mm in
       if negb (region_is d ts) then Done (descriptor_addr', (pmm, m))
       else
         s' ← for_range (Z.to_nat (num_pages d)) 0 (fun i '(pmm, m) =>
           let phys := physical_start d ⊞ i ⊠ PAGE_SIZE in
           map_page pmm m pml4 (virt phys) phys (flags d) false) (pmm, m);
         Done (descriptor_addr', s')) (descriptor_addr mm i, (pmm, m)) = Done (ad, s') ∧
    mapped_to root ps (descriptors_from m0 mm i (Z.of_nat n) ≫= descriptor_requests) pmm m l s' l' ∧
    reads_back m0 s'.2 ∧ map_spared s'.2 l'.
Proof.
  revert i pmm m l. induction n as [|n IH]; intros i pmm m l Hok Hi Hn Hinv Hfund Hrb Hsp Hall.
  { cbn. do 2 eexists. exists l. split; [done|]. split; [by apply mapped_to_nil|done]. }
  unfold descriptors_from in *. rewrite seqZ_cons in Hall |- * by lia.
  cbn [fmap list_fmap] in *. rewrite bind_cons in Hall |- *. apply Forall_app in Hall as [Ha1 Ha2].
  cbn [for_range]. rewrite Hrb by lia.
  set (d := EfiMemoryDescriptor_new m0 (descriptor_addr mm i)) in *.
  destruct (descriptor_step m0 d pmm m l) as (p1 & m1 & l1 & Hrun & M1 & R1 & S1); try done.
  { apply (Hok i). lia. }
  { apply load64_range. }
  rewrite descriptor_next by lia.
  destruct (IH (i + 1) p1 m1 l1) as (ad & s' & l' & Hrun' & M2 & R2 & S2); try done.
  { intros j Hj. apply Hok. lia. }
  { lia. }
  { lia. }
  { apply M1. }
  { apply M1. }
  { by replace (Z.pred (Z.of_nat (S n))) with (Z.of_nat n) in Ha2 by lia. }
  replace (Z.pred (Z.of_nat (S n))) with (Z.of_nat n) by lia.
  exists ad, s', l'. split; [|split; [by eapply (mapped_to_app root ps _ _ _ _ _ (p1, m1))|done]].
  rewrite <- Hrun'. destruct (region_is d ts); cbn [negb] in *.
  - by rewrite Hrun.
  - by injection Hrun as <- <-.
Qed.
End descriptors.

(** The whole loop. *)
Lemma map_descriptors_ok ts virt flags mm root pml4 ps pmm m l :
  ptr_to pml4 root → boot_map_ok ts mm m → map_spared mm root m l →
  vm_inv pmm m root l → funded 0 m root l ps →
  Forall (λ r, request_ok r ∧ va_tables r.1.1 ⊆ ps)
    (descriptors m mm ≫= descriptor_requests ts virt flags) →
  ∃ s' l',
    map_descriptors ts virt flags pml4 (descriptor_size mm) (num_segments mm)
      (memory_map_addr mm) (pmm, m) = Done s' ∧
    mapped_to root ps (descriptors m mm ≫= descriptor_requests ts virt flags) pmm m l s' l' ∧
    map_spared mm root s'.2 l'.
Proof.
  intros Hptr [Hd Ha Hs He Hok _] Hsp Hinv Hfund Hall. unfold map_descriptors.
  assert (0 ≤ num_segments mm) as Hn by (apply Z.div_pos; lia).
  unfold descriptors in *. rewrite <- (Z2Nat.id (num_segments mm)) in Hok, Hall |- * by done.
  rewrite Nat2Z.id.
  destruct (map_descriptors_from ts virt flags mm root pml4 ps Hptr Hd Ha He m
    (Z.to_nat (num_segments mm)) 0 pmm m l) as (ad & s' & l' & Hrun & M & _ & S); try done; [|lia|].
  - intros j Hj d Hd'. apply Hok; [|done]. apply list_elem_of_fmap. exists j.
    split; [done|]. apply elem_of_seqZ. lia.
  - exists s', l'. split; [|done].
    replace (descriptor_addr mm 0) with (memory_map_addr mm) in Hrun by (unfold descriptor_addr; lia).
    exact (f_equal (λ o, '(_, s') ← o; Done s') Hrun).
Qed.

(** ** [build_direct_map] *)

Definition mmio_requests : list request :=
  (λ p, (KERNEL_PHYSICAL_MAP_BASE ⊞ p, p, mmio_flags)) <$> [0xFEE00000; 0xFEC00000; 0xFED00000].

Definition direct_requests (m : mem) (mm : MemoryMapInfo) : list request :=
  (descriptors m mm ≫=
     descriptor_requests direct_types (λ phys, KERNEL_PHYSICAL_MAP_BASE ⊞ phys) direct_flags)
  ++ mmio_requests.

Lemma map_mmio_requests pml4 s :
  ('(pmm, m) ← map_apic_regions apic_regions pml4 s;
   map_page pmm m pml4 (KERNEL_PHYSICAL_MAP_BASE ⊞ 0xFED00000) 0xFED00000 mmio_flags false)
  = map_all pml4 mmio_requests s.
Proof.
  destruct s as [pmm m]. unfold apic_regions, mmio_requests.
  cbn [map_apic_regions fmap list_fmap map_all fst snd].
  change (page_fuel 0xFEE00000 (0xFEE00000 ⊞ 0x1000)) with 2%nat.
  change (page_fuel 0xFEC00000 (0xFEC00000 ⊞ 0x1000)) with 2%nat.
  cbn [while_pages]. change (0xFEE00000 <? 0xFEE00000 ⊞ 0x1000) with true.
  change (0xFEC00000 <? 0xFEC00000 ⊞ 0x1000) with true.
  change (0xFEE00000 ⊞ PAGE_SIZE <? 0xFEE00000 ⊞ 0x1000) with false.
  change (0xFEC00000 ⊞ PAGE_SIZE <? 0xFEC00000 ⊞ 0x1000) with false. cbn iota.
  destruct (map_page pmm m _ _ _ _ _) as [[p1 m1]| |]; cbn [mbind outcome_bind fst snd]; [|done..].
  destruct (map_page p1 m1 _ _ _ _ _) as [[p2 m2]| |]; cbn [mbind outcome_bind fst snd]; [|done..].
  by destruct (map_page p2 m2 _ _ _ _ _) as [[p3 m3]| |].
Qed.

(** Requests of a well-formed map have 64-bit operands. *)
Lemma descriptor_requests_ok ts virt flags mm m :
  boot_map_ok ts mm m → (∀ d, in_u64 (flags d)) →
  Forall request_ok (descriptors m mm ≫= descriptor_requests ts virt flags).
Proof.
  intros Hok Hfl. apply Forall_forall. intros r. rewrite list_elem_of_bind.
  intros (d & Hr & Hd). unfold descriptor_requests in Hr.
  destruct (region_is d ts) eqn:E; [|by apply not_elem_of_nil in Hr].
  apply list_elem_of_fmap in Hr as (a & -> & Ha).
  apply list_elem_of_fmap in Ha as (i & -> & Hi). apply elem_of_seqZ in Hi.
  destruct (bm_descs _ _ _ Hok d Hd) as (? & _ & He); [by rewrite E|].
  split; [|apply Hfl]. unfold in_u64, W64, PAGE_SIZE, PHYS_LIMIT in *. cbn [fst snd]. lia.
Qed.

Lemma direct_requests_ok mm m :
  boot_map_ok direct_types mm m → Forall request_ok (direct_requests m mm).
Proof.
  intros Hok. apply Forall_app. split.
  - apply descriptor_requests_ok; [done|]. intros d. unfold direct_flags.
    by destruct (region_is _ _).
  - by repeat constructor.
Qed.

Lemma with_tables reqs :
  Forall request_ok reqs → Forall (λ r, request_ok r ∧ va_tables r.1.1 ⊆ request_tables reqs) reqs.
Proof.
  rewrite !Forall_forall. intros H r Hr. split; [by apply H|]. by apply request_tables_incl.
Qed.

Lemma checked_div_segments mm :
  40 ≤ descriptor_size mm → checked_div (memory_map_size mm) (descriptor_size mm) = Done (num_segments mm).
Proof.
  intros H. unfold checked_div. destruct (Z.eqb_spec (descriptor_size mm) 0); [lia|done].
Qed.

Lemma build_direct_map_ok pmm m root pml4 l mm ps :
  ptr_to pml4 root → boot_map_ok direct_types mm m → map_spared mm root m l →
  vm_inv pmm m root l → funded 0 m root l ps →
  Forall (λ r, request_ok r ∧ va_tables r.1.1 ⊆ ps) (direct_requests m mm) →
  ∃ s' l', build_direct_map pmm m pml4 mm = Done s' ∧
    mapped_to root ps (direct_requests m mm) pmm m l s' l'.
Proof.
  intros Hptr Hok Hsp Hinv Hfund Hall. unfold build_direct_map.
  rewrite checked_div_segments by apply Hok. cbn [mbind outcome_bind].
  apply Forall_app in Hall as [H1 H2].
  destruct (map_descriptors_ok direct_types (λ phys, KERNEL_PHYSICAL_MAP_BASE ⊞ phys) direct_flags
    mm root pml4 ps pmm m l) as ([p1 m1] & l1 & -> & M1 & _); [done..|].
  cbn [mbind outcome_bind]. setoid_rewrite map_mmio_requests.
  destruct (map_all_ok root pml4 ps mmio_requests p1 m1 l1) as (s2 & l2 & -> & M2); try done.
  { apply M1. } { apply M1. }
  exists s2, l2. split; [done|]. by eapply (mapped_to_app root ps _ _ _ _ _ (p1, m1)).
Qed.

(** ** [map_framebuffer_higher_half] *)

Definition fb_start (fb : FramebufferInfo) : Z := pte_addr (framebuffer_addr fb).
Definition fb_end (fb : FramebufferInfo) : Z :=
  pte_addr (framebuffer_addr fb + fb_size fb + 0xFFF).

Definition fb_requests (fb : FramebufferInfo) : list request :=
  (λ a, (KERNEL_FRAMEBUFFER_VIRTUAL_BASE ⊞ (a - fb_start fb), a, Z.lor PRESENT WRITABLE))
    <$> pages_between (fb_start fb) (fb_end fb).

(** The framebuffer does not reach the top of the address space. *)
Definition fb_ok (fb : FramebufferInfo) : Prop :=
  0 ≤ framebuffer_addr fb ∧ framebuffer_addr fb + fb_size fb + 2 * PAGE_SIZE ≤ W64.

Lemma fb_size_range fb : 0 ≤ fb_size fb < W64.
Proof. apply u64_range. Qed.

Lemma pte_addr_le a : in_u64 a → 0 ≤ pte_addr a ≤ a.
Proof.
  intros Ha. unfold pte_addr. change 0xFFF with (2 ^ 12 - 1). rewrite land_not64_mask by done.
  unfold in_u64 in Ha. pose proof (Z.mod_pos_bound a (2 ^ 12) eq_refl).
  pose proof (Z.mod_le a (2 ^ 12) (proj1 Ha) eq_refl). lia.
Qed.

Lemma elem_of_pages_between a addr end_ :
  a ∈ pages_between addr end_ → addr ≤ a < end_.
Proof.
  unfold pages_between. intros (k & -> & Hk)%list_elem_of_fmap. apply elem_of_seqZ in Hk.
  assert (k < (end_ - addr + PAGE_SIZE - 1) / PAGE_SIZE) as H by lia.
  unfold PAGE_SIZE in *.
  pose proof (Z.mul_div_le (end_ - addr + 4096 - 1) 4096 ltac:(lia)). lia.
Qed.

Lemma fb_bounds fb : fb_ok fb → 0 ≤ fb_start fb ∧ fb_end fb + PAGE_SIZE ≤ W64.
Proof.
  intros [Hf0 Hf1]. pose proof (fb_size_range fb) as Hsz. unfold PAGE_SIZE in *.
  pose proof (pte_addr_le (framebuffer_addr fb)) as H1.
  pose proof (pte_addr_le (framebuffer_addr fb + fb_size fb + 0xFFF)) as H2.
  unfold fb_start, fb_end, in_u64 in *. lia.
Qed.

(** The loop body as a function of the physical cursor alone. *)
Definition fb_body (fb : FramebufferInfo) (pml4 phys : Z) (s : PhysicalMemoryManager * mem)
    : outcome (PhysicalMemoryManager * mem) :=
  let '(pmm, m) := s in
  map_page pmm m pml4 (KERNEL_FRAMEBUFFER_VIRTUAL_BASE ⊞ (phys - fb_start fb)) phys
    (Z.lor PRESENT WRITABLE) false.

Lemma map_framebuffer_while pmm m pml4 fb :
  fb_ok fb →
  map_framebuffer_higher_half pmm m pml4 fb =
    while_pages (page_fuel (fb_start fb) (fb_end fb)) (fb_start fb) (fb_end fb)
      (fb_body fb pml4) (pmm, m).
Proof.
  intros Hok. pose proof (fb_bounds fb Hok) as [? ?]. destruct Hok as [Hf0 Hf1].
  pose proof (fb_size_range fb) as Hsz. unfold map_framebuffer_higher_half.
  rewrite (u64_small (framebuffer_addr fb + fb_size fb)) by (unfold PAGE_SIZE in *; lia).
  rewrite (u64_small (framebuffer_addr fb + fb_size fb + 0xFFF)) by (unfold PAGE_SIZE in *; lia).
  change (Z.land (framebuffer_addr fb) (not64 0xFFF)) with (fb_start fb).
  change (Z.land (framebuffer_addr fb + fb_size fb + 0xFFF) (not64 0xFFF)) with (fb_end fb).
  pose proof (while_pages_cursor (λ virt phys '(pmm, m),
    map_page pmm m pml4 virt phys (Z.lor PRESENT WRITABLE) false)
    (page_fuel (fb_start fb) (fb_end fb)) (fb_start fb) (fb_end fb)
    KERNEL_FRAMEBUFFER_VIRTUAL_BASE (pmm, m)) as Hcur.
  etransitivity; [|etransitivity; [apply Hcur; done|]].
  - unshelve erewrite (while_pages_ext _ _ _ _ _ _ _); [shelve| |reflexivity].
    by intros a [v [p1 m1]].
  - apply while_pages_ext. by intros a [p1 m1].
Qed.

Lemma map_framebuffer_ok pmm m root pml4 l fb ps :
  ptr_to pml4 root → fb_ok fb → vm_inv pmm m root l → funded 0 m root l ps →
  Forall (λ r, va_tables r.1.1 ⊆ ps) (fb_requests fb) →
  ∃ s' l', map_framebuffer_higher_half pmm m pml4 fb = Done s' ∧
    mapped_to root ps (fb_requests fb) pmm m l s' l'.
Proof.
  intros Hptr Hok Hinv Hfund Hall. rewrite map_framebuffer_while by done.
  destruct (fb_bounds fb Hok) as [H0 H1]. unfold fb_requests in *. rewrite <- bind_singletons in *.
  apply (while_pages_requests root pml4); try done.
  - intros a [p1 m1]. cbn. by destruct (map_page _ _ _ _ _ _ _).
  - rewrite Forall_forall in Hall |- *. intros r Hr. split; [|by apply Hall].
    apply list_elem_of_bind in Hr as (a & ->%list_elem_of_singleton & Ha).
    apply elem_of_pages_between in Ha. split; [|by split].
    unfold in_u64, PAGE_SIZE in *. cbn [fst snd]. lia.
Qed.

(** ** [remove_identity_maps] *)

Section remove.
Context (m m' : mem) (root : Z).
Hypothesis Hwf : pt_wf m root.
Hypothesis Hz : ∀ j, is_index j →
  entry_at m' root j = if decide (j < 256) then 0 else entry_at m root j.
Hypothesis Hag : agree_off (span root PAGE_SIZE) m m'.

Lemma remove_walk_below r f q :
  r ≠ [] → walk m root r = Some f → table_path (r ++ q) → walk m' f q = walk m f q.
Proof.
  revert r f. induction q as [|j q IH]; intros r f Hr Hf Hp; [done|].
  assert (table_path r) as Htr by by eapply table_path_prefix.
  assert (is_index j) as Hj by (destruct Hp as [_ H]; rewrite Forall_app, Forall_cons in H; tauto).
  assert (entry_at m' f j = entry_at m f j) as He.
  { apply (agree_off_span _ _ root PAGE_SIZE); [done|]. apply entry_page_apart; try done.
    - by eapply (pw_frame _ _ Hwf).
    - apply (pw_frame _ _ Hwf []); [|done]. split; [simpl; lia|constructor].
    - intros ->. apply Hr. symmetry. apply (pw_inj _ _ Hwf [] r root); try done.
      split; [simpl; lia|constructor]. }
  cbn [walk]. rewrite He. destruct (absent (entry_at m f j)) eqn:E; [done|].
  apply (IH (r ++ [j])); [by destruct r| |by rewrite <- app_assoc].
  rewrite walk_app, Hf. simpl. by rewrite E.
Qed.

Lemma remove_walk i p : table_path (i :: p) →
  walk m' root (i :: p) = if decide (i < 256) then None else walk m root (i :: p).
Proof.
  intros Hp. assert (is_index i) as Hi by (destruct Hp as [_ H]; apply Forall_cons in H; tauto).
  cbn [walk]. rewrite Hz by done. case_decide; [done|].
  destruct (absent (entry_at m root i)) eqn:E; [done|].
  apply (remove_walk_below [i]); [done| |done]. simpl. by rewrite E.
Qed.

Lemma remove_entry i p j : table_path (i :: p) → is_index j →
  pt_entry m' root (i :: p) j = if decide (i < 256) then None else pt_entry m root (i :: p) j.
Proof.
  intros Hp Hj. unfold pt_entry. rewrite remove_walk by done. case_decide; [done|].
  destruct (walk m root (i :: p)) as [f|] eqn:Hf; [|done]. cbn [mbind option_bind].
  assert (entry_at m' f j = entry_at m f j) as ->; [|done].
  apply (agree_off_span _ _ root PAGE_SIZE); [done|].
  assert (table_path []) as H0 by (split; [simpl; lia|constructor]).
  apply entry_page_apart; try done.
  - exact (pw_frame _ _ Hwf (i :: p) f Hp Hf).
  - exact (pw_frame _ _ Hwf [] root H0 eq_refl).
  - intros ->. by discriminate (pw_inj _ _ Hwf [] (i :: p) root H0 Hp eq_refl Hf).
Qed.

Lemma remove_walk_some p f : table_path p → walk m' root p = Some f → walk m root p = Some f.
Proof.
  destruct p as [|i p]; [done|]. intros Hp. rewrite remove_walk by done. by case_decide.
Qed.
End remove.

Lemma remove_identity_maps_ok pmm m root l :
  vm_inv pmm m root l →
  vm_inv pmm (remove_identity_maps m root) root l ∧
  agree_off (span root PAGE_SIZE) m (remove_identity_maps m root) ∧
  (∀ p f, table_path p → walk (remove_identity_maps m root) root p = Some f →
    walk m root p = Some f) ∧
  (∀ j, 0 ≤ j < 256 → walk (remove_identity_maps m root) root [j] = None) ∧
  ∀ va, pte_of (remove_identity_maps m root) root va =
    if decide (pml4_index va < 256) then None else pte_of m root va.
Proof.
  intros [Hr Hwf Hap]. assert (table_path []) as H0 by (split; [simpl; lia|constructor]).
  pose proof (pw_frame _ _ Hwf [] root H0 eq_refl) as Hroot.
  unfold remove_identity_maps. change (root ⊞ KERNEL_PHYSICAL_MAP_BASE) with (phys_ptr true root).
  destruct (zero_words_spec true root 256 m 0 Hroot) as [Hag Hz]; [lia|lia|].
  set (m' := zero_words 256 m (phys_ptr true root) 0) in *. clearbody m'.
  assert (∀ j, is_index j → entry_at m' root j = if decide (j < 256) then 0 else entry_at m root j)
    as Hz'.
  { intros j Hj. rewrite Hz by done. unfold is_index in Hj. repeat case_decide; (done || lia). }
  pose proof (remove_walk_some m m' root Hwf Hz' Hag) as Hsome.
  split; [|split; [done|split; [done|split]]].
  - split.
    + eapply (pmm_repr_agree_off (span root PAGE_SIZE)); [done| |done]. intros a x Ha Hx Hx'.
      pose proof (proj1 (Forall_forall _ _) (repr_frames _ _ _ Hr) a Ha) as Haf.
      destruct (frame_disjoint a root) as [H|H]; try done; [|unfold span in *; lia..].
      intros ->. by apply (Hap [] root).
    + split.
      * intros p f Hp Hf. by apply (pw_frame _ _ Hwf p), Hsome.
      * intros p q f Hp Hq H1 H2. apply (pw_inj _ _ Hwf p q f); auto.
    + intros p f Hp Hf. apply (Hap p); auto.
  - intros j Hj. cbn [walk]. rewrite Hz', decide_True by (unfold is_index; lia). done.
  - intros va. apply (remove_entry m); auto with vmm. apply va_path_ok.
Qed.

(** ** [reclaim_boot_memory] *)

(** Memories that agree on every table of the tree walk alike. *)
Lemma same_entries_inv m m' root :
  (∀ p f j, table_path p → walk m root p = Some f → is_index j → entry_at m' f j = entry_at m f j) →
  (∀ p, table_path p → walk m' root p = walk m root p) ∧
  (∀ p j, table_path p → is_index j → pt_entry m' root p j = pt_entry m root p j).
Proof.
  intros He.
  assert (∀ q r f, walk m root r = Some f → table_path (r ++ q) → walk m' f q = walk m f q) as Hw.
  { intros q. induction q as [|j q IH]; intros r f Hr Hp; [done|].
    assert (is_index j) by (destruct Hp as [_ H]; rewrite Forall_app, Forall_cons in H; tauto).
    cbn [walk]. rewrite (He r f j) by (done || by eapply table_path_prefix).
    destruct (absent (entry_at m f j)) eqn:E; [done|]. apply (IH (r ++ [j])).
    - rewrite walk_app, Hr. simpl. by rewrite E.
    - by rewrite <- app_assoc. }
  split; [intros p Hp; by apply (Hw p [])|].
  intros p j Hp Hj. unfold pt_entry. rewrite (Hw p [] root eq_refl Hp).
  destruct (walk m root p) as [f|] eqn:Hf; [|done]. simpl. by rewrite (He p f j).
Qed.

Lemma reclaim_page_config mm : config_check (reclaim_page_skipped mm).
Proof. intros p q a ->. done. Qed.

Lemma reclaim_spares_map mm pmm :
  0 ≤ memory_map_addr mm → 0 ≤ memory_map_size mm →
  memory_map_addr mm + memory_map_size mm < PHYS_LIMIT →
  spares_map (reclaim_page_skipped mm) mm pmm.
Proof.
  intros Ha Hs He a Hf. unfold reclaim_page_skipped. rewrite !orb_false_iff. intros (((_ & E) & _) & _).
  apply page_overlaps_false; [done|done|done|unfold W64, PHYS_LIMIT in *; lia|done].
Qed.

Lemma reclaim_ok pmm m root l mm :
  vm_inv pmm m root l → boot_map_ok reclaimable_types mm m →
  (∀ a, a ∈ pages_of_types reclaimable_types (descriptors m mm) → ¬ owned m root l a) →
  ∃ pmm' m', reclaim_boot_memory pmm m mm = Done (pmm', m') ∧
    vm_inv pmm' m' root (rev (kept (reclaim_page_skipped mm pmm)
      (pages_of_types reclaimable_types (descriptors m mm))) ++ l) ∧
    same_config pmm pmm' ∧
    (∀ p, table_path p → walk m' root p = walk m root p) ∧
    ∀ va, pte_of m' root va = pte_of m root va.
Proof.
  intros [Hr Hwf Hap] Hok Hfresh. unfold reclaim_boot_memory.
  rewrite checked_div_segments by apply Hok. cbn [mbind outcome_bind].
  set (pages := pages_of_types reclaimable_types (descriptors m mm)) in *.
  destruct (free_map_pages_ok reclaimable_types (reclaim_page_skipped mm)) with
    (may := λ a, a ∈ pages) (mm := mm) (hh := true) (pmm := pmm) (m := m) (l := l)
    as (p' & m' & Hrun & Hc & Hr' & Hag).
  - apply reclaim_page_config.
  - done.
  - done.
  - destruct Hok. by apply reclaim_spares_map.
  - done.
  - intros a Ha Hin. apply (Hfresh a Hin). by left.
  - done.
  - assert (∀ p f j, table_path p → walk m root p = Some f → is_index j →
      entry_at m' f j = entry_at m f j) as He.
    { intros p f j Hp Hf Hj. apply Hag. intros k Hk (a & Hin & Haf & _ & Hs).
      pose proof (pw_frame _ _ Hwf _ _ Hp Hf) as Hff.
      destruct (decide (a = f)) as [->|Hne]; [by apply (Hfresh f Hin); right; eauto|].
      destruct (frame_disjoint a f) as [?|?]; try done;
        unfold span, is_index, PAGE_SIZE in *; lia. }
    destruct (same_entries_inv m m' root He) as [Hw Hpe].
    exists p', m'. split; [exact Hrun|]. split; [|split; [done|split; [done|]]].
    + split; [done| |].
      * split; [intros p f Hp|intros p q f Hp Hq]; rewrite !Hw by done;
          [by apply (pw_frame _ _ Hwf)|by apply (pw_inj _ _ Hwf)].
      * intros p f Hp. rewrite Hw by done. intros Hf Hin. apply elem_of_app in Hin as [Hin|Hin].
        -- apply list_elem_of_In, in_rev, list_elem_of_In, list_elem_of_filter in Hin as [_ Hin].
           apply (Hfresh f Hin). right. eauto.
        -- by apply (Hap p f).
    + intros va. apply Hpe; auto with vmm.
Qed.

(** ** [init_page_tables] *)

Definition kernel_requests (flags : Z) (pages : list Z) : list request :=
  pages ≫= λ a, [(a, a, flags); (a ⊞ KERNEL_VIRTUAL_BASE, a, flags)].

Definition identity_requests (pages : list Z) : list request :=
  (λ a, (a, a, Z.lor PRESENT WRITABLE)) <$> pages.

Definition boot_requests (pmm : PhysicalMemoryManager) (m : mem) (fb : FramebufferInfo)
    (mm : MemoryMapInfo) : list request :=
  (descriptors m mm ≫=
     descriptor_requests identity_types (λ phys, phys) (λ _, Z.lor PRESENT WRITABLE)) ++
  kernel_requests (Z.lor PRESENT WRITABLE) (pages_between (kernel_start pmm) (kernel_end pmm)) ++
  kernel_requests (Z.lor (Z.lor PRESENT WRITABLE) NX)
    (pages_between (pte_addr (stack_base_addr mm)) (stack_base_addr mm + stack_size mm)) ++
  identity_requests (pages_between (fb_start fb) (framebuffer_addr fb + fb_size fb)) ++
  identity_requests
    (pages_between (pte_addr (memory_map_addr mm)) (memory_map_addr mm + memory_map_size mm)).

(** [start, end_) does not reach the last page of the address space. *)
Definition range_ok (start end_ : Z) : Prop := in_u64 start ∧ 0 ≤ end_ ∧ end_ + PAGE_SIZE ≤ W64.

Record boot_ranges_ok (pmm : PhysicalMemoryManager) (fb : FramebufferInfo) (mm : MemoryMapInfo)
    : Prop := {
  br_kernel : range_ok (kernel_start pmm) (kernel_end pmm);
  br_stack : range_ok (stack_base_addr mm) (stack_base_addr mm + stack_size mm);
  br_fb : range_ok (framebuffer_addr fb) (framebuffer_addr fb + fb_size fb);
  br_map : range_ok (memory_map_addr mm) (memory_map_addr mm + memory_map_size mm);
}.

Lemma descriptors_agree (P : Z → Prop) ts mm m m' :
  boot_map_ok ts mm m → (∀ x, span (memory_map_addr mm) (memory_map_size mm) x → ¬ P x) →
  agree_off P m m' → descriptors m' mm = descriptors m mm ∧ boot_map_ok ts mm m'.
Proof.
  intros [Hd Ha Hs He Hok Hnd] HP Hag.
  assert (descriptors m' mm = descriptors m mm) as E.
  { unfold descriptors, descriptors_from. apply list_fmap_ext. intros k i Hi.
    apply list_elem_of_lookup_2, elem_of_seqZ in Hi.
    apply (descriptor_agree P mm m m' false); (done || lia). }
  split; [done|]. split; try done; by rewrite E.
Qed.

Lemma kernel_requests_ok flags start end_ :
  range_ok start end_ → in_u64 flags → Forall request_ok (kernel_requests flags (pages_between start end_)).
Proof.
  intros (Hs & He & Hw) Hf. apply Forall_forall. intros r Hr.
  apply list_elem_of_bind in Hr as (a & Hr & Ha). apply elem_of_pages_between in Ha.
  unfold in_u64, PAGE_SIZE in *. set_unfold in Hr.
  destruct Hr as [->|[->|[]]]; split; unfold in_u64; cbn [fst snd]; (lia || done).
Qed.

Lemma identity_requests_ok start end_ :
  range_ok start end_ → Forall request_ok (identity_requests (pages_between start end_)).
Proof.
  intros (Hs & He & Hw). apply Forall_fmap, Forall_forall. intros a Ha%elem_of_pages_between.
  unfold in_u64, PAGE_SIZE in *. split; [|done]. unfold in_u64. cbn. lia.
Qed.

Lemma range_ok_down start end_ : range_ok start end_ → range_ok (pte_addr start) end_.
Proof.
  intros (Hs & He). split; [|done]. by apply pte_addr_range.
Qed.

Lemma boot_requests_ok pmm m fb mm :
  boot_map_ok identity_types mm m → boot_ranges_ok pmm fb mm →
  Forall request_ok (boot_requests pmm m fb mm).
Proof.
  intros Hok [Hk Hs Hf Hm]. unfold boot_requests. rewrite !Forall_app. split_and!.
  - by apply descriptor_requests_ok.
  - by apply kernel_requests_ok.
  - apply kernel_requests_ok; [by apply range_ok_down|done].
  - apply identity_requests_ok. by apply range_ok_down.
  - apply identity_requests_ok. by apply range_ok_down.
Qed.

(** One of the [while] loops of [init_page_tables]. *)
Lemma boot_loop_ok root pml4 ps (f : Z → list request) body start end_ pmm m l :
  ptr_to pml4 root → (∀ a s, body a s = map_all pml4 (f a) s) → range_ok start end_ →
  vm_inv pmm m root l → funded 0 m root l ps →
  Forall (λ r, request_ok r ∧ va_tables r.1.1 ⊆ ps) (pages_between start end_ ≫= f) →
  ∃ p' m' l', while_pages (page_fuel start end_) start end_ body (pmm, m) = Done (p', m') ∧
    mapped_to root ps (pages_between start end_ ≫= f) pmm m l (p', m') l'.
Proof.
  intros Hptr Hb ([? ?] & ? & ?) Hinv Hfund Hall.
  destruct (while_pages_requests root pml4 ps f body (page_fuel start end_) start end_ pmm m l)
    as ([p' m'] & l' & ? & ?); eauto 10.
Qed.

Lemma two_requests pml4 va1 va2 pa fl (s : PhysicalMemoryManager * mem) :
  (let '(pmm, m) := s in
   '(pmm, m) ← map_page pmm m pml4 va1 pa fl false; map_page pmm m pml4 va2 pa fl false)
  = map_all pml4 [(va1, pa, fl); (va2, pa, fl)] s.
Proof.
  destruct s as [pmm m]. cbn. destruct (map_page pmm m _ _ _ _ _) as [[p1 m1]| |]; [|done..].
  cbn. by destruct (map_page p1 m1 _ _ _ _ _).
Qed.

Lemma one_request pml4 va pa fl (s : PhysicalMemoryManager * mem) :
  (let '(pmm, m) := s in map_page pmm m pml4 va pa fl false) = map_all pml4 [(va, pa, fl)] s.
Proof. destruct s as [pmm m]. cbn. by destruct (map_page _ _ _ _ _ _ _). Qed.

(** The fresh PML4: zeroed, nothing mapped, memory map intact. *)
Lemma fresh_pml4 pmm m root l mm :
  pmm_repr pmm m (root :: l) →
  (∀ a, a ∈ root :: l → apart a PAGE_SIZE (memory_map_addr mm) (memory_map_size mm)) →
  ∃ pmm1 m1, alloc_page pmm m = (Some root, pmm1) ∧ zero_out_page m root = m1 ∧
    same_config pmm pmm1 ∧ vm_inv pmm1 m1 root l ∧ map_spared mm root m1 l ∧
    (∀ f, owned m1 root l f ↔ f ∈ root :: l) ∧ agree_off (span root PAGE_SIZE) m m1 ∧ is_frame root ∧ ∀ va, pte_of m1 root va = None.
Proof.
  intros Hr Hsp. destruct (alloc_page_cons pmm m root l Hr) as (pmm1 & Hal & Hc & Hr1).
  pose proof (repr_frames _ _ _ Hr) as Hf. apply Forall_cons in Hf as [Hroot Hf].
  pose proof (repr_nodup _ _ _ Hr) as Hnd. apply NoDup_cons in Hnd as [Hrl _].
  destruct (zeroed_page false m root Hroot) as (m1 & Hm1 & Hz & Hag).
  exists pmm1, m1. split; [exact Hal|]. split; [exact Hm1|]. clear Hm1 Hal. split; [done|].
  assert (∀ j, is_index j → absent (entry_at m1 root j) = true) as Hza by (intros; by rewrite Hz).
  assert (∀ f, owned m1 root l f ↔ f ∈ root :: l) as Hown.
  { intros f. rewrite elem_of_cons. split.
    - intros [Hin|(p & Hp & Hpf)]; [by right|]. by apply (empty_root_walk m1 root p f Hza) in Hpf as [_ ->]; [left|].
    - intros [->|Hin]; [right; exists []; split; [split; [simpl; lia|constructor]|done]|by left]. }
  split; [|split; [|split; [done|split; [done|split; [done|]]]]].
  - apply empty_root_inv; [|done..].
    eapply (pmm_repr_agree_off (span root PAGE_SIZE)); [done| |done]. intros a x Ha Hx Hx'.
    rewrite Forall_forall in Hf. destruct (frame_disjoint a root) as [H|H]; auto;
      [by intros ->|unfold span in *; lia..].
  - intros f Ho%Hown. by apply Hsp.
  - intros va. unfold pte_of, pt_entry, va_path. cbn [walk].
    by rewrite Hz by auto with vmm.
Qed.

(** The page tables in [ps] include those of the requests, and may include more:
    what the run leaves of the free list still pays for the rest of them. *)
Lemma init_page_tables_ok pmm m root l fb mm ps :
  pmm_repr pmm m (root :: l) → boot_map_ok identity_types mm m → boot_ranges_ok pmm fb mm →
  (∀ a, a ∈ root :: l → apart a PAGE_SIZE (memory_map_addr mm) (memory_map_size mm)) →
  request_tables (boot_requests pmm m fb mm) ⊆ ps → NoDup ps → Forall table_path ps → (length ps ≤ length l)%nat →
  ∃ pmm' m' l', init_page_tables pmm m fb mm = Done (root, pmm', m') ∧
    vm_inv pmm' m' root l' ∧ same_config pmm pmm' ∧ funded 0 m' root l' ps ∧
    (∀ f, owned m' root l' f ↔ f ∈ root :: l) ∧ agree_off (λ x, ∃ f, f ∈ root :: l ∧ span f PAGE_SIZE x) m m' ∧
    ∀ va, pte_of m' root va = requested (boot_requests pmm m fb mm) va None.
Proof.
  intros Hr Hok Hrg Hsp Hps Hnd Htp Hlen.
  assert (Forall (λ r, request_ok r ∧ va_tables r.1.1 ⊆ ps) (boot_requests pmm m fb mm)) as Hall.
  { eapply Forall_impl; [exact (with_tables _ (boot_requests_ok pmm m fb mm Hok Hrg))|]. intros r [? ?]. split; [done|set_solver]. }
  destruct (fresh_pml4 pmm m root l mm Hr Hsp) as (pmm1 & m1 & Hal & Hm1 & C1 & I1 & S1 & O1 & A1 & Hroot & T1).
  unfold init_page_tables. rewrite Hal. cbn [expect mbind outcome_bind]. rewrite Hm1. clear Hm1 Hal.
  destruct (descriptors_agree (span root PAGE_SIZE) identity_types mm m m1 Hok) as [E1 Hok1]; [|done|].
  { intros x Hx Hx'. specialize (Hsp root (list_elem_of_here _ _)). unfold apart, span in *. lia. }
  assert (funded 0 m1 root l ps) as B1.
  { split_and!; [done..|]. pose proof (need_le m1 root ps). lia. }
  assert (ptr_to root root) as Hptr by by apply (ptr_to_phys false).
  clear Hps. unfold boot_requests in Hall |- *. rewrite !Forall_app in Hall.
  destruct Hall as (HA & HB & HC & HD & HE). rewrite <- E1 in HA |- *.
  unfold identity_requests in *. rewrite <- !bind_singletons in *.
  rewrite checked_div_segments by apply Hok. cbn [mbind outcome_bind].
  destruct (map_descriptors_ok identity_types (λ phys, phys) (λ _, Z.lor PRESENT WRITABLE)
    mm root root ps pmm1 m1 l) as ([p2 m2] & l2 & -> & M2 & _); [done..|].
  cbn [mbind outcome_bind fst snd].
  pose proof (same_config_trans _ _ _ C1 (proj1 (proj2 M2))) as C2. cbn in C2.
  replace (kernel_start p2) with (kernel_start pmm) by by rewrite C2.
  replace (kernel_end p2) with (kernel_end pmm) by by rewrite C2.
  destruct Hrg as [Rk Rs Rf Rm].
  rewrite (u64_small (stack_base_addr mm + _)), (u64_small (framebuffer_addr fb + _)),
    (u64_small (memory_map_addr mm + _))
    by (unfold range_ok, PAGE_SIZE in *; lia).
  apply range_ok_down in Rs, Rf, Rm. fold (fb_start fb) in Rf.
  destruct (boot_loop_ok root root ps _ _ _ _ p2 m2 l2 Hptr
    (λ a s, two_requests root a (a ⊞ KERNEL_VIRTUAL_BASE) a (Z.lor PRESENT WRITABLE) s)
    Rk (proj1 M2) (proj1 (proj2 (proj2 M2))) HB) as (p3 & m3 & l3 & Hrun3 & M3).
  setoid_rewrite Hrun3. cbn [mbind outcome_bind fst snd].
  destruct (boot_loop_ok root root ps _ _ _ _ p3 m3 l3 Hptr
    (λ a s, two_requests root a (a ⊞ KERNEL_VIRTUAL_BASE) a (Z.lor (Z.lor PRESENT WRITABLE) NX) s)
    Rs (proj1 M3) (proj1 (proj2 (proj2 M3))) HC) as (p4 & m4 & l4 & Hrun4 & M4).
  setoid_rewrite Hrun4. cbn [mbind outcome_bind fst snd].
  destruct (boot_loop_ok root root ps _ _ _ _ p4 m4 l4 Hptr
    (λ a s, one_request root a a (Z.lor PRESENT WRITABLE) s)
    Rf (proj1 M4) (proj1 (proj2 (proj2 M4))) HD) as (p5 & m5 & l5 & Hrun5 & M5).
  setoid_rewrite Hrun5. cbn [mbind outcome_bind fst snd].
  destruct (boot_loop_ok root root ps _ _ _ _ p5 m5 l5 Hptr
    (λ a s, one_request root a a (Z.lor PRESENT WRITABLE) s)
    Rm (proj1 M5) (proj1 (proj2 (proj2 M5))) HE) as (p6 & m6 & l6 & Hrun6 & M6).
  setoid_rewrite Hrun6. cbn [mbind outcome_bind fst snd].
  pose proof (mapped_to_app _ _ _ _ _ _ _ _ _ _ _ M5 M6) as M56.
  pose proof (mapped_to_app _ _ _ _ _ _ _ _ _ _ _ M4 M56) as M46.
  pose proof (mapped_to_app _ _ _ _ _ _ _ _ _ _ _ M3 M46) as M36.
  pose proof (mapped_to_app _ _ _ _ _ _ _ _ _ _ _ M2 M36) as (I6 & C6 & B6 & [O6 A6] & T6).
  exists p6, m6, l6. split; [done|]. split; [done|].
  split; [exact (same_config_trans _ _ _ C1 C6)|]. split; [done|]. split; [intros f; by rewrite O6, O1|]. split.
  - eapply agree_off_trans; (eapply agree_off_mono; [|done]); cbn.
    + intros x Hx. exists root. split; [left|done].
    + intros x (f & Hf & Hx). exists f. by rewrite <- O1.
  - intros va. rewrite <- (T1 va). apply T6.
Qed.

(** ** Properties *)

Lemma requested_hit reqs va r old :
  r ∈ reqs → vpn va = vpn r.1.1 →
  ∃ r', r' ∈ reqs ∧ vpn va = vpn r'.1.1 ∧ requested reqs va old = Some (leaf_entry_of r'.1.2 r'.2).
Proof.
  revert old. induction reqs as [|[[va' pa] fl] reqs IH] using rev_ind; intros old Hr Hv.
  { by apply not_elem_of_nil in Hr. }
  rewrite requested_app. cbn. case_decide as E.
  - exists (va', pa, fl). split_and!; [|done..]. apply elem_of_app. right. left.
  - apply elem_of_app in Hr as [Hr|Hr].
    + destruct (IH old Hr Hv) as (r' & ? & ? & ->). exists r'.
      split_and!; [apply elem_of_app; by left|done..].
    + apply list_elem_of_singleton in Hr as ->. done.
Qed.

Lemma requested_miss reqs va old : Forall (λ r, vpn va ≠ vpn r.1.1) reqs → requested reqs va old = old.
Proof.
  revert old. induction reqs as [|[[va' pa] fl] reqs IH]; intros old Hall; [done|].
  apply Forall_cons in Hall as [Hne Hall]. cbn. rewrite decide_False by done. by apply IH.
Qed.

(** Page [a] of physical memory is page [2^35 + a / 4096] of the direct map. *)
Lemma vpn_direct a : 0 ≤ a < PHYS_LIMIT → vpn (KERNEL_PHYSICAL_MAP_BASE ⊞ a) = 2 ^ 35 + a / PAGE_SIZE.
Proof.
  intros Ha. unfold vpn, PHYS_LIMIT, PAGE_SIZE in *. rewrite u64_small.
  2: { unfold W64, KERNEL_PHYSICAL_MAP_BASE. lia. }
  rewrite Z.shiftr_div_pow2 by lia. change (2 ^ 12) with 4096.
  replace (KERNEL_PHYSICAL_MAP_BASE + a) with (a + (2 ^ 52 - 2 ^ 35) * 4096)
    by (unfold KERNEL_PHYSICAL_MAP_BASE; lia).
  rewrite Z.div_add by lia.
  replace (a / 4096 + (2 ^ 52 - 2 ^ 35)) with ((2 ^ 35 + a / 4096) + (2 ^ 16 - 1) * 2 ^ 36) by lia.
  rewrite Z.mod_add by lia. apply Z.mod_small.
  pose proof (Z.div_pos a 4096). pose proof (Z.div_lt_upper_bound a 4096 (2 ^ 35)). lia.
Qed.

Lemma vpn_direct_inj a b :
  0 ≤ a < PHYS_LIMIT → 0 ≤ b < PHYS_LIMIT → page_aligned a → page_aligned b →
  vpn (KERNEL_PHYSICAL_MAP_BASE ⊞ a) = vpn (KERNEL_PHYSICAL_MAP_BASE ⊞ b) → a = b.
Proof.
  intros Ha Hb Pa Pb. rewrite !vpn_direct by done. unfold page_aligned in *.
  intros E. rewrite (Z.div_mod a PAGE_SIZE), (Z.div_mod b PAGE_SIZE), Pa, Pb by done. lia.
Qed.

(** Every request of the direct map is for the page that bears its name. *)
Lemma direct_request_shape m mm r :
  boot_map_ok direct_types mm m → r ∈ direct_requests m mm →
  r.1.1 = KERNEL_PHYSICAL_MAP_BASE ⊞ r.1.2 ∧ 0 ≤ r.1.2 < PHYS_LIMIT ∧ page_aligned r.1.2.
Proof.
  intros Hok [Hr|Hr]%elem_of_app.
  - apply list_elem_of_bind in Hr as (d & Hr & Hd). unfold descriptor_requests in Hr.
    destruct (region_is d direct_types) eqn:E; [|by apply not_elem_of_nil in Hr].
    apply list_elem_of_fmap in Hr as (a & -> & (i & -> & Hi)%list_elem_of_fmap).
    apply elem_of_seqZ in Hi. destruct (bm_descs _ _ _ Hok d Hd) as (? & Hal & He); [by rewrite E|].
    cbn [fst snd]. unfold page_aligned, PAGE_SIZE in *. split; [done|]. split; [lia|].
    by rewrite Z.mod_add.
  - apply list_elem_of_fmap in Hr as (a & -> & Ha). cbn [fst snd]. split; [done|].
    unfold PHYS_LIMIT, page_aligned, PAGE_SIZE. set_unfold in Ha.
    destruct Ha as [->|[->|[->|[]]]]; by split.
Qed.

(** The direct physical map: [build_direct_map] completes whenever the
    free list covers the page tables it must create, and afterwards every page
    of a mapped region is reached at [KERNEL_PHYSICAL_MAP_BASE + page] through
    a leaf entry for that very page; the three MMIO pages are mapped uncached;
    addresses outside the requested pages translate as before. *)
Theorem build_direct_map_spec (pmm : PhysicalMemoryManager) (m : mem) (root pml4 : Z) (l : list Z)
    (mm : MemoryMapInfo) :
  vm_inv pmm m root l → ptr_to pml4 root → boot_map_ok direct_types mm m →
  map_spared mm root m l →
  (length (request_tables (direct_requests m mm)) ≤ length l)%nat →
  ∃ pmm' m' l',
    build_direct_map pmm m pml4 mm = Done (pmm', m') ∧
    vm_inv pmm' m' root l' ∧ same_config pmm pmm' ∧ confined m root l m' l' ∧
    (∀ a, a ∈ pages_of_types direct_types (descriptors m mm) →
      ∃ flags, pte_of m' root (KERNEL_PHYSICAL_MAP_BASE ⊞ a) = Some (leaf_entry_of a flags)) ∧
    (∀ a, a ∈ [0xFEE00000; 0xFEC00000; 0xFED00000] →
      pte_of m' root (KERNEL_PHYSICAL_MAP_BASE ⊞ a) = Some (leaf_entry_of a mmio_flags)) ∧
    (∀ va, Forall (λ r, vpn va ≠ vpn r.1.1) (direct_requests m mm) →
      pte_of m' root va = pte_of m root va).
Proof.
  intros Hinv Hptr Hok Hsp Hlen.
  pose proof (with_tables _ (direct_requests_ok mm m Hok)) as Hall.
  destruct (request_tables_ok (direct_requests m mm)) as [? ?].
  destruct (build_direct_map_ok pmm m root pml4 l mm (request_tables (direct_requests m mm)))
    as ([pmm' m'] & l' & Hrun & I & C & _ & F & T); try done.
  { split_and!; [done..|]. pose proof (need_le m root (request_tables (direct_requests m mm))). lia. }
  cbn [fst snd] in *. exists pmm', m', l'. split_and!; try done.
  - intros a Ha.
    assert (∃ fl, (KERNEL_PHYSICAL_MAP_BASE ⊞ a, a, fl) ∈ direct_requests m mm) as [fl Hr].
    { apply list_elem_of_bind in Ha as (d & Ha & Hd).
      destruct (region_is d direct_types) eqn:E; [|by apply not_elem_of_nil in Ha].
      exists (direct_flags d). apply elem_of_app. left. apply list_elem_of_bind. exists d.
      split; [|done]. unfold descriptor_requests. rewrite E. apply list_elem_of_fmap. by exists a. }
    rewrite T. destruct (requested_hit _ (KERNEL_PHYSICAL_MAP_BASE ⊞ a) _
      (pte_of m root (KERNEL_PHYSICAL_MAP_BASE ⊞ a)) Hr eq_refl) as (r' & Hr' & Hv & ->).
    destruct (direct_request_shape m mm _ Hok Hr) as (_ & ? & ?).
    destruct (direct_request_shape m mm _ Hok Hr') as (E' & ? & ?).
    rewrite E' in Hv. cbn [fst snd] in *. exists r'.2. by rewrite (vpn_direct_inj a r'.1.2).
  - intros a Ha. rewrite T. unfold direct_requests. rewrite requested_app. set_unfold in Ha.
    destruct Ha as [->|[->|[->|[]]]]; reflexivity.
  - intros va Hm. rewrite T. by apply requested_miss.
Qed.

Lemma demo_direct_ok : boot_map_ok direct_types demo_map demo_pool.2.
Proof.
  split; try done.
  - intros d Hd Hr.
    assert (Forall (λ d, region_is d direct_types → descriptor_ok d)
      (descriptors demo_pool.2 demo_map)) as Hall.
    { unfold descriptor_ok, page_aligned. apply (bool_decide_unpack _). vm_compute. exact I. }
    rewrite Forall_forall in Hall. by apply Hall.
  - apply (bool_decide_unpack _). vm_compute. exact I.
Qed.

Lemma demo_spared : map_spared demo_map 0x10000 demo_pool.2 ((λ k, k * PAGE_SIZE) <$> seqZ 1 8).
Proof.
  assert (Forall (λ f, apart f PAGE_SIZE (memory_map_addr demo_map) (memory_map_size demo_map))
    (0x10000 :: ((λ k, k * PAGE_SIZE) <$> seqZ 1 8))) as H.
  { unfold apart. apply (bool_decide_unpack _). vm_compute. exact I. }
  rewrite Forall_forall in H. intros f [Hf|(p & Hp & Hf)]; apply H; [by right|].
  apply (empty_root_walk _ _ _ _ demo_pool_root Hp) in Hf as [_ ->]. left.
Qed.

Lemma build_direct_map_spec_witness :
  ∃ pmm' m' l',
    build_direct_map demo_pool.1 demo_pool.2 0x10000 demo_map = Done (pmm', m') ∧
    vm_inv pmm' m' 0x10000 l' ∧ same_config demo_pool.1 pmm' ∧
    confined demo_pool.2 0x10000 ((λ k, k * PAGE_SIZE) <$> seqZ 1 8) m' l' ∧
    (∀ a, a ∈ pages_of_types direct_types (descriptors demo_pool.2 demo_map) →
      ∃ flags, pte_of m' 0x10000 (KERNEL_PHYSICAL_MAP_BASE ⊞ a) = Some (leaf_entry_of a flags)) ∧
    (∀ a, a ∈ [0xFEE00000; 0xFEC00000; 0xFED00000] →
      pte_of m' 0x10000 (KERNEL_PHYSICAL_MAP_BASE ⊞ a) = Some (leaf_entry_of a mmio_flags)) ∧
    (∀ va, Forall (λ r, vpn va ≠ vpn r.1.1) (direct_requests demo_pool.2 demo_map) →
      pte_of m' 0x10000 va = pte_of demo_pool.2 0x10000 va).
Proof.
  apply (build_direct_map_spec demo_pool.1 demo_pool.2 0x10000 0x10000
    ((λ k, k * PAGE_SIZE) <$> seqZ 1 8) demo_map).
  - exact demo_pool_inv.
  - apply (ptr_to_phys false). by split.
  - exact demo_direct_ok.
  - exact demo_spared.
  - apply (bool_decide_unpack _). vm_compute. exact I.
Defined.

(** Boot page tables: with enough free pages [init_page_tables] completes
    and returns a PML4 whose translation is exactly the requested one: the
    conventional, loader and boot-services pages, the framebuffer and the
    memory map mapped to themselves, the kernel image and stack mapped both to
    themselves and at [KERNEL_VIRTUAL_BASE], and nothing else. *)
Theorem init_page_tables_spec (pmm : PhysicalMemoryManager) (m : mem) (root : Z) (l : list Z)
    (fb : FramebufferInfo) (mm : MemoryMapInfo) :
  pmm_repr pmm m (root :: l) → boot_map_ok identity_types mm m → boot_ranges_ok pmm fb mm →
  (∀ a, a ∈ root :: l → apart a PAGE_SIZE (memory_map_addr mm) (memory_map_size mm)) →
  (length (request_tables (boot_requests pmm m fb mm)) ≤ length l)%nat →
  ∃ pmm' m' l',
    init_page_tables pmm m fb mm = Done (root, pmm', m') ∧ vm_inv pmm' m' root l' ∧
    same_config pmm pmm' ∧
    ∀ va, pte_of m' root va = requested (boot_requests pmm m fb mm) va None.
Proof.
  intros Hr Hok Hrg Hsp Hlen. destruct (request_tables_ok (boot_requests pmm m fb mm)) as [? ?].
  destruct (init_page_tables_ok pmm m root l fb mm _ Hr Hok Hrg Hsp (reflexivity _))
    as (p' & m' & l' & ? & ? & ? & _ & _ & _ & ?); [done..|]. by exists p', m', l'.
Qed.

(** Free frames for the boot page tables of the demo machine. *)
Definition demo_frames : list Z := (λ k, (0x100 + k) * PAGE_SIZE) <$> seqZ 0 24.

Definition demo_boot : PhysicalMemoryManager * mem :=
  foldr (λ a s, free_page s.1 s.2 a) (init_state 0x2000 0x3000 demo_fb demo_map, demo_mem) demo_frames.

Lemma init_page_tables_spec_witness :
  ∃ pmm' m' l',
    init_page_tables demo_boot.1 demo_boot.2 demo_fb demo_map = Done (0x100000, pmm', m') ∧
    vm_inv pmm' m' 0x100000 l' ∧ same_config demo_boot.1 pmm' ∧
    ∀ va, pte_of m' 0x100000 va =
      requested (boot_requests demo_boot.1 demo_boot.2 demo_fb demo_map) va None.
Proof.
  apply (init_page_tables_spec demo_boot.1 demo_boot.2 0x100000 (tail demo_frames)).
  - apply (free_all_repr (init_state 0x2000 0x3000 demo_fb demo_map, demo_mem) demo_frames).
    + split; [done|constructor|constructor|done].
    + unfold is_frame, page_aligned. apply (bool_decide_unpack _). vm_compute. exact I.
    + apply (bool_decide_unpack _). vm_compute. exact I.
  - split; try done.
    + intros d Hd Hr.
      assert (Forall (λ d, region_is d identity_types → descriptor_ok d)
        (descriptors demo_boot.2 demo_map)) as Hall.
      { unfold descriptor_ok, page_aligned. apply (bool_decide_unpack _). vm_compute. exact I. }
      rewrite Forall_forall in Hall. by apply Hall.
    + apply (bool_decide_unpack _). vm_compute. exact I.
  - split; unfold range_ok, in_u64; apply (bool_decide_unpack _); vm_compute; exact I.
  - apply Forall_forall. unfold apart. apply (bool_decide_unpack _). vm_compute. exact I.
  - apply (bool_decide_unpack _). vm_compute. exact I.
Defined.

(** The lower half of the address space, by the PML4 slot. *)
Lemma pml4_index_low va : pml4_index va < 256 ↔ va mod 2 ^ 48 < 2 ^ 47.
Proof.
  unfold pml4_index. rewrite land_1ff, Z.shiftr_div_pow2 by done.
  change (2 ^ 48) with (2 ^ 39 * 2 ^ 9). rewrite Z.rem_mul_r by done.
  pose proof (Z.mod_pos_bound va (2 ^ 39) eq_refl). lia.
Qed.

(** [remove_identity_maps] unmaps the whole lower half of the address
    space and leaves every upper-half translation and the invariant alone. *)
Theorem remove_identity_maps_spec (pmm : PhysicalMemoryManager) (m : mem) (root : Z) (l : list Z) :
  vm_inv pmm m root l →
  let m' := remove_identity_maps m root in
  vm_inv pmm m' root l ∧ agree_off (span root PAGE_SIZE) m m' ∧
  ∀ va, in_u64 va → pte_of m' root va = if decide (va mod 2 ^ 48 < 2 ^ 47) then None else pte_of m root va.
Proof.
  intros Hinv. destruct (remove_identity_maps_ok pmm m root l Hinv) as (H1 & H2 & _ & _ & H4).
  split; [done|]. split; [done|]. intros va Hva. rewrite H4.
  pose proof (pml4_index_low va). repeat case_decide; (done || tauto).
Qed.

Lemma remove_identity_maps_spec_witness :
  let m' := remove_identity_maps demo_mapped.2 0x10000 in
  (∃ l, vm_inv demo_mapped.1 m' 0x10000 l) ∧
  agree_off (span 0x10000 PAGE_SIZE) demo_mapped.2 m' ∧
  ∀ va, in_u64 va → pte_of m' 0x10000 va =
    if decide (va mod 2 ^ 48 < 2 ^ 47) then None else pte_of demo_mapped.2 0x10000 va.
Proof.
  intros m'. destruct demo_mapped_inv as [l Hl].
  destruct (remove_identity_maps_spec demo_mapped.1 demo_mapped.2 0x10000 l Hl) as (H1 & H2 & H3).
  split; [by exists l|]. split; [exact H2|exact H3].
Defined.
