(* ===== verification/MemoryManager.v ===== *)
(** * MemoryManager.v: the memory manager's interface and user address spaces
      (memory_manager/manager.rs, memory_manager/address_space.rs, and
      [reload_gdt_and_idt] of vmm.rs)

    [MemoryManager] owns the page allocator and the kernel's page tables; user
    address spaces get a PML4 of their own whose upper half is copied from the
    kernel's. *)

From S2P Require Import Prelude Machine Pmm Vmm HigherHalf.

Local Open Scope Z_scope.

(** ** State *)

Record MemoryManager := {
  mm_pmm : PhysicalMemoryManager;
  mm_pml4 : Z;
  mm_pml4_phys : Z;
}.

(** [self.pmm.f(..)]: the page allocator is the part the operations change. *)
Definition with_pmm (self : MemoryManager) (pmm : PhysicalMemoryManager) : MemoryManager :=
  {| mm_pmm := pmm; mm_pml4 := mm_pml4 self; mm_pml4_phys := mm_pml4_phys self |}.

(** The pseudo-descriptors [sgdt]/[sidt] store: ten bytes each, a 16-bit limit
    and a 64-bit base, least significant byte first. *)
Record DescriptorRegs := { gdtr : list Z; idtr : list Z }.

Fixpoint from_le_bytes (bs : list Z) : Z :=
  match bs with
  | [] => 0
  | b :: bs' => b + 256 * from_le_bytes bs'
  end.

Fixpoint to_le_bytes (n : nat) (v : Z) : list Z :=
  match n with
  | O => []
  | S n' => v mod 256 :: to_le_bytes n' (v / 256)
  end.

(** ** Operations of [MemoryManager] *)

(** The NXE bit of EFER, set through the two 32-bit halves [rdmsr] returns. *)
Definition enable_nx (efer : Z) : Z :=
  let low := efer mod 2 ^ 32 in
  let high := efer / 2 ^ 32 in
  let low := Z.lor low (Z.shiftl 1 11) in
  high * 2 ^ 32 + low.

(** [MemoryManager::init] *)
Definition MemoryManager_init (efer : Z) (pmm : PhysicalMemoryManager) (pml4_phys : Z)
    : Z * MemoryManager :=
  (enable_nx efer, {| mm_pmm := pmm; mm_pml4 := pml4_phys; mm_pml4_phys := pml4_phys |}).

(** [reload_gdt_and_idt] *)
Definition rebase_descriptor (desc : list Z) : list Z :=
  let phys := from_le_bytes (drop 2 desc) in
  let limit := from_le_bytes (take 2 desc) in
  let virt := phys ⊞ KERNEL_PHYSICAL_MAP_BASE in
  to_le_bytes 2 limit ++ to_le_bytes 8 virt.

Definition reload_gdt_and_idt (r : DescriptorRegs) : DescriptorRegs :=
  {| gdtr := rebase_descriptor (gdtr r); idtr := rebase_descriptor (idtr r) |}.

(** [self.pmm.is_higher_half = true] *)
Definition set_higher_half (p : PhysicalMemoryManager) : PhysicalMemoryManager :=
  {| pmm_kernel_load_addr := pmm_kernel_load_addr p;
     pmm_kernel_image_size := pmm_kernel_image_size p;
     kernel_stack_base_addr := kernel_stack_base_addr p;
     kernel_stack_size := kernel_stack_size p;
     pmm_framebuffer_addr := pmm_framebuffer_addr p;
     pmm_framebuffer_size := pmm_framebuffer_size p;
     pmm_memory_map_addr := pmm_memory_map_addr p;
     pmm_memory_map_size := pmm_memory_map_size p;
     pmm_memory_map_desc_size := pmm_memory_map_desc_size p;
     kernel_start := kernel_start p;
     kernel_end := kernel_end p;
     is_higher_half := true;
     free_list_head := free_list_head p;
     free_pages := free_pages p |}.

(** [MemoryManager::init_higher_half] *)
Definition init_higher_half (self : MemoryManager) (m : mem) (r : DescriptorRegs)
    (framebuffer_info : FramebufferInfo) (memory_map : MemoryMapInfo)
    : outcome (MemoryManager * mem * DescriptorRegs) :=
  '(pmm, m) ← build_direct_map (mm_pmm self) m (mm_pml4 self) memory_map;
  let pmm := set_higher_half pmm in
  '(pmm, m) ← map_framebuffer_higher_half pmm m (mm_pml4 self) framebuffer_info;
  let pml4 := mm_pml4_phys self ⊞ KERNEL_PHYSICAL_MAP_BASE in
  let r := reload_gdt_and_idt r in
  let m := remove_identity_maps m (mm_pml4_phys self) in
  '(pmm, m) ← reclaim_boot_memory pmm m memory_map;
  Done ({| mm_pmm := pmm; mm_pml4 := pml4; mm_pml4_phys := mm_pml4_phys self |}, m, r).

Definition phys_to_virt (phys : Z) : Z := phys ⊞ KERNEL_PHYSICAL_MAP_BASE.
Definition virt_to_phys (virt : Z) : Z := virt ⊟ KERNEL_PHYSICAL_MAP_BASE.

Definition mm_alloc_page (self : MemoryManager) (m : mem) : option Z * MemoryManager :=
  let '(r, pmm) := alloc_page (mm_pmm self) m in (r, with_pmm self pmm).

Definition mm_free_page (self : MemoryManager) (m : mem) (addr : Z) : MemoryManager * mem :=
  let '(pmm, m) := free_page (mm_pmm self) m addr in (with_pmm self pmm, m).

(** [match pml4_phys { KERNEL_PML4 => self.pml4, _ => .. }] *)
Definition select_pml4 (self : MemoryManager) (pml4_phys : Z) : Z :=
  if pml4_phys =? KERNEL_PML4 then mm_pml4 self else pml4_phys ⊞ KERNEL_PHYSICAL_MAP_BASE.

Definition mm_map_page (self : MemoryManager) (m : mem)
    (pml4_phys virtual_addr physical_addr flags : Z) : outcome (MemoryManager * mem) :=
  '(pmm, m) ← map_page (mm_pmm self) m (select_pml4 self pml4_phys) virtual_addr physical_addr
    flags true;
  Done (with_pmm self pmm, m).

Definition mm_get_physical_addr (self : MemoryManager) (m : mem) (pml4_phys virtual_addr : Z)
    : option Z :=
  get_physical_addr m (select_pml4 self pml4_phys) virtual_addr.

Definition mm_unmap_page (self : MemoryManager) (m : mem) (pml4_phys virtual_addr : Z)
    : bool * MemoryManager * mem :=
  let '(b, pmm, m) := unmap_page (mm_pmm self) m (select_pml4 self pml4_phys) virtual_addr in
  (b, with_pmm self pmm, m).

Definition unmap_and_free_page (self : MemoryManager) (m : mem) (pml4_phys virtual_addr : Z)
    : MemoryManager * mem :=
  match mm_get_physical_addr self m pml4_phys virtual_addr with
  | Some phys =>
      let '(_, self, m) := mm_unmap_page self m pml4_phys virtual_addr in
      mm_free_page self m phys
  | None => (self, m)
  end.

Definition free_page_count (self : MemoryManager) : Z := free_pages (mm_pmm self).

(** ** [AddressSpace] *)

Record AddressSpace := {
  as_pml4_phys : Z;
  user_stack_top : Z;
  user_stack_pages : Z;
}.

Definition USER_STACK_PAGES : Z := 4.
Definition USER_STACK_TOP : Z := 0x7FFFFFFF0000.

(** [for i in 256..512]: copy entry [i] of the kernel's PML4. *)
Fixpoint copy_entries (n : nat) (i : Z) (m : mem) (kernel_pml4 pml4 : Z) : mem :=
  match n with
  | O => m
  | S n' =>
      let entry := pload m (ptr_add8 kernel_pml4 i) in
      copy_entries n' (i + 1) (pstore m (ptr_add8 pml4 i) entry) kernel_pml4 pml4
  end.

Definition user_stack_flags : Z := Z.lor (Z.lor (Z.lor PRESENT WRITABLE) USER) NX.

(** [AddressSpace::init] *)
Definition AddressSpace_init (mm : MemoryManager) (m : mem) (kernel_pml4_phys : Z)
    : outcome (AddressSpace * MemoryManager * mem) :=
  let '(r, mm) := mm_alloc_page mm m in
  pml4_phys ← expect "[CRITICAL] OOM allocating user PML4" r;
  let pml4 := pml4_phys ⊞ KERNEL_PHYSICAL_MAP_BASE in
  let m := zero_words 512 m pml4 0 in
  let kernel_pml4 := kernel_pml4_phys ⊞ KERNEL_PHYSICAL_MAP_BASE in
  let m := copy_entries 256 256 m kernel_pml4 pml4 in
  '(mm, m) ← for_range (Z.to_nat USER_STACK_PAGES) 0 (fun i '(mm, m) =>
    let '(r, mm) := mm_alloc_page mm m in
    phys ← expect "[CRITICAL] OOM allocating user stack page" r;
    let virt := USER_STACK_TOP ⊟ (i + 1) ⊠ PAGE_SIZE in
    mm_map_page mm m pml4_phys virt phys user_stack_flags) (mm, m);
  Done ({| as_pml4_phys := pml4_phys; user_stack_top := USER_STACK_TOP;
           user_stack_pages := USER_STACK_PAGES |}, mm, m).

(** [AddressSpace::from_existing] *)
Definition AddressSpace_from_existing (kernel_pml4_phys : Z) : AddressSpace :=
  {| as_pml4_phys := kernel_pml4_phys; user_stack_top := USER_STACK_TOP;
     user_stack_pages := USER_STACK_PAGES |}.

(** ** Lemmas *)

Lemma virt_phys_inverse a : in_u64 a → virt_to_phys (phys_to_virt a) = a ∧ phys_to_virt (virt_to_phys a) = a.
Proof.
  intros Ha. unfold virt_to_phys, phys_to_virt, u64. rewrite Zminus_mod_idemp_l, Zplus_mod_idemp_l.
  replace (a + KERNEL_PHYSICAL_MAP_BASE - KERNEL_PHYSICAL_MAP_BASE) with a by lia.
  replace (a - KERNEL_PHYSICAL_MAP_BASE + KERNEL_PHYSICAL_MAP_BASE) with a by lia.
  split; by apply u64_small.
Qed.

Lemma from_to_le_bytes n v : from_le_bytes (to_le_bytes n v) = v mod 256 ^ Z.of_nat n.
Proof.
  revert v. induction n as [|n IH]; intros v; [cbn; by rewrite Z.mod_1_r|].
  cbn [to_le_bytes from_le_bytes]. rewrite IH, Nat2Z.inj_succ, Z.pow_succ_r by lia.
  rewrite Z.rem_mul_r; [done|done|]. apply Z.pow_pos_nonneg; lia.
Qed.

Lemma length_to_le_bytes n v : length (to_le_bytes n v) = n.
Proof. revert v. induction n as [|n IH]; intros v; simpl; [done|]. by rewrite IH. Qed.

Lemma from_le_bytes_range bs :
  Forall (λ b, 0 ≤ b < 256) bs → 0 ≤ from_le_bytes bs < 256 ^ Z.of_nat (length bs).
Proof.
  induction bs as [|b bs IH]; intros H; [cbn; lia|]. apply Forall_cons in H as [Hb H].
  cbn [from_le_bytes length]. rewrite Nat2Z.inj_succ, Z.pow_succ_r by lia. specialize (IH H). lia.
Qed.

(** Reloading moves the base by the direct-map offset and keeps the limit. *)
Lemma rebase_descriptor_ok desc :
  length desc = 10%nat → Forall (λ b, 0 ≤ b < 256) desc →
  from_le_bytes (take 2 (rebase_descriptor desc)) = from_le_bytes (take 2 desc) ∧
  from_le_bytes (drop 2 (rebase_descriptor desc)) = phys_to_virt (from_le_bytes (drop 2 desc)).
Proof.
  intros Hl Hb. unfold rebase_descriptor.
  rewrite take_app_length', drop_app_length' by by rewrite length_to_le_bytes.
  rewrite !from_to_le_bytes. split.
  - apply Z.mod_small. pose proof (from_le_bytes_range (take 2 desc)) as H.
    rewrite length_take, Hl in H. apply H. by apply Forall_take.
  - apply Z.mod_small, u64_range.
Qed.

Lemma set_higher_half_inv pmm m root l : vm_inv pmm m root l → vm_inv (set_higher_half pmm) m root l.
Proof. intros [[? ? ? ?] ? ?]. split; [by split|done..]. Qed.

Lemma set_higher_half_config p q :
  same_config p q → same_config (set_higher_half p) (set_higher_half q).
Proof. intros ->. by destruct p. Qed.

(** What holds of a memory map for some region types holds for fewer of them. *)
Lemma boot_map_mono ts ts' mm m :
  (∀ d, region_is d ts → region_is d ts') → boot_map_ok ts' mm m → boot_map_ok ts mm m.
Proof.
  intros Hsub [Hd Ha Hs He Hok Hnd]. split; try done; [by eauto|].
  eapply sublist_NoDup; [exact Hnd|]. unfold pages_of_types. clear -Hsub.
  induction (descriptors m mm) as [|d ds IH]; [done|]. rewrite !bind_cons.
  apply sublist_app; [|exact IH].
  specialize (Hsub d). destruct (region_is d ts), (region_is d ts');
    [done|by destruct Hsub|apply sublist_nil_l|done].
Qed.

Lemma region_is_incl d ts ts' : ts ⊆ ts' → region_is d ts → region_is d ts'.
Proof.
  unfold region_is. intros Hi H%Is_true_eq_true. apply Is_true_eq_left. apply existsb_exists in H as (t & Ht & E).
  apply existsb_exists. exists t. split; [|done]. apply list_elem_of_In, Hi. by apply list_elem_of_In.
Qed.

Lemma reclaimable_direct : reclaimable_types ⊆ direct_types.
Proof. unfold reclaimable_types, direct_types. intros t. rewrite !elem_of_cons. tauto. Qed.

(** Fewer page tables need fewer pages. *)
Lemma funded_sub n m root l ps qs :
  NoDup qs → qs ⊆ ps → funded n m root l ps → funded n m root l qs.
Proof.
  intros Hnd Hsub (Hp & Hf & Hn). split; [done|]. split.
  { rewrite Forall_forall in *. intros p Hp'. by apply Hf, Hsub. }
  enough (need m root qs ≤ need m root ps)%nat by lia.
  apply submseteq_length, NoDup_submseteq; [by apply NoDup_filter|].
  intros p. rewrite !list_elem_of_filter. intros [? ?]. split; [done|by apply Hsub].
Qed.

Lemma root_owned m root l : owned m root l root.
Proof. right. exists []. split; [|done]. split; [simpl; lia|constructor]. Qed.

(** What [init_higher_half] relies on. *)
Record higher_half_ready (self : MemoryManager) (m : mem) (root : Z) (l : list Z)
    (fb : FramebufferInfo) (mm : MemoryMapInfo) : Prop := {
  hr_inv : vm_inv (mm_pmm self) m root l;
  hr_pml4 : mm_pml4 self = root ∧ mm_pml4_phys self = root;
  hr_map : boot_map_ok direct_types mm m;
  hr_fb : fb_ok fb;
  hr_spared : map_spared mm root m l;
  hr_budget : funded 0 m root l (request_tables (direct_requests m mm ++ fb_requests fb));
  hr_fresh : ∀ a, a ∈ pages_of_types reclaimable_types (descriptors m mm) → ¬ owned m root l a;
}.

Lemma fb_requests_ok fb : fb_ok fb → Forall request_ok (fb_requests fb).
Proof.
  intros Hok. destruct (fb_bounds fb Hok) as [H0 H1]. apply Forall_fmap, Forall_forall.
  intros a Ha%elem_of_pages_between. split; [|done]. unfold in_u64, PAGE_SIZE in *. cbn. lia.
Qed.

(** The mapping phase: direct map, then framebuffer. *)
Lemma higher_half_maps self m root l fb mm :
  higher_half_ready self m root l fb mm →
  ∃ p1 m1 p2 m2 l2,
    build_direct_map (mm_pmm self) m (mm_pml4 self) mm = Done (p1, m1) ∧
    map_framebuffer_higher_half (set_higher_half p1) m1 (mm_pml4 self) fb = Done (p2, m2) ∧
    vm_inv p2 m2 root l2 ∧ same_config (set_higher_half (mm_pmm self)) p2 ∧
    confined m root l m2 l2 ∧
    ∀ va, pte_of m2 root va =
      requested (direct_requests m mm ++ fb_requests fb) va (pte_of m root va).
Proof.
  intros [Hinv [-> _] Hmap Hfb Hsp Hfund _].
  assert (is_frame root) as Hroot by (apply (pw_frame _ _ (vi_wf _ _ _ _ Hinv) []); [split; [simpl; lia|constructor]|done]).
  pose proof (ptr_to_phys false root Hroot : ptr_to root root) as Hptr.
  assert (Forall request_ok (direct_requests m mm ++ fb_requests fb)) as Hall.
  { apply Forall_app. split; [by apply direct_requests_ok|by apply fb_requests_ok]. }
  apply with_tables in Hall.
  set (ps := request_tables _) in *. apply Forall_app in Hall as [Ha1 Ha2].
  destruct (build_direct_map_ok (mm_pmm self) m root root l mm ps) as ([p1 m1] & l1 & E1 & M1); try done.
  destruct M1 as (I1 & C1 & B1 & F1 & T1). cbn [fst snd] in *.
  destruct (map_framebuffer_ok (set_higher_half p1) m1 root root l1 fb ps)
    as ([p2 m2] & l2 & E2 & I2 & C2 & _ & F2 & T2); try done.
  { by apply set_higher_half_inv. }
  { eapply Forall_impl; [exact Ha2|]. by intros r [_ ?]. }
  cbn [fst snd] in *. exists p1, m1, p2, m2, l2. do 3 (split; [done|]).
  split; [eapply same_config_trans; [by apply set_higher_half_config|done]|].
  split; [by eapply confined_trans|]. intros va. by rewrite T2, T1, requested_app.
Qed.

Lemma init_higher_half_ok self m r root l fb mm :
  higher_half_ready self m root l fb mm →
  ∃ pmm' m' l',
    init_higher_half self m r fb mm =
      Done ({| mm_pmm := pmm'; mm_pml4 := phys_to_virt root; mm_pml4_phys := root |}, m',
            reload_gdt_and_idt r) ∧
    vm_inv pmm' m' root (rev (kept (reclaim_page_skipped mm (mm_pmm self))
      (pages_of_types reclaimable_types (descriptors m mm))) ++ l') ∧
    is_higher_half pmm' = true ∧
    (∀ f, f ∈ l' → owned m root l f) ∧
    (∀ j, 0 ≤ j < 256 → walk m' root [j] = None) ∧
    ∀ va, pte_of m' root va =
      if decide (pml4_index va < 256) then None
      else requested (direct_requests m mm ++ fb_requests fb) va (pte_of m root va).
Proof.
  intros Hready. destruct (higher_half_maps self m root l fb mm Hready)
    as (p1 & m1 & p2 & m2 & l2 & E1 & E2 & I2 & C2 & F2 & T2).
  destruct Hready as [Hinv [_ Hphys] Hmap Hfb Hsp _ Hfresh].
  unfold init_higher_half. rewrite E1. cbn [mbind outcome_bind]. rewrite E2. cbn [mbind outcome_bind].
  rewrite Hphys.
  destruct (remove_identity_maps_ok p2 m2 root l2 I2) as (I3 & A3 & W3 & L3 & T3).
  set (m3 := remove_identity_maps m2 root) in *. clearbody m3.
  destruct F2 as [O2 A2].
  destruct (descriptors_agree (owned_bytes m root l) direct_types mm m m3 Hmap) as [D3 Hmap3].
  { intros x Hx (f & Hf & Hs). specialize (Hsp f Hf). unfold apart, span in *. lia. }
  { eapply agree_off_trans; [exact A2|]. eapply agree_off_mono; [|exact A3].
    intros x Hx. exists root. split; [apply root_owned|done]. }
  destruct (reclaim_ok p2 m3 root l2 mm I3) as (p4 & m4 & E4 & I4 & C4 & W4 & T4).
  { apply (boot_map_mono _ direct_types); [|done]. intros d. apply region_is_incl, reclaimable_direct. }
  { rewrite D3. intros a Ha Ho. apply (Hfresh a Ha). apply O2.
    destruct Ho as [?|(p & Hp & Hf)]; [by left|right; eauto]. }
  rewrite E4. cbn [mbind outcome_bind]. exists p4, m4, l2. split; [done|].
  rewrite D3 in I4. rewrite (kept_ext _ (reclaim_page_skipped mm (mm_pmm self))) in I4.
  2: { intros a. rewrite C2. done. }
  split; [done|]. split; [by rewrite (same_config_hh _ _ C4), (same_config_hh _ _ C2)|].
  split; [intros f Hin; apply O2; by left|]. split; [|intros va; by rewrite T4, T3, T2].
  intros j Hj. rewrite W4; [by apply L3|]. split; [cbn; lia|]. apply Forall_singleton. unfold is_index. lia.
Qed.

(** Freeing a frame that is neither free nor a table. *)
Lemma free_fresh_inv pmm m root l a :
  vm_inv pmm m root l → is_frame a → ¬ owned m root l a →
  ∃ pmm' m', free_page pmm m a = (pmm', m') ∧ vm_inv pmm' m' root (a :: l) ∧
    same_config pmm pmm' ∧ (∀ q, table_path q → walk m' root q = walk m root q) ∧
    ∀ va, pte_of m' root va = pte_of m root va.
Proof.
  intros [Hr Hwf Hap] Ha Hno.
  destruct (free_page_cons pmm m l a Hr Ha) as (pmm' & m' & E & Hc & Hr' & Hag).
  { intros Hin. apply Hno. by left. }
  exists pmm', m'. split; [done|].
  assert (∀ p f j, table_path p → walk m root p = Some f → is_index j →
    entry_at m' f j = entry_at m f j) as He.
  { intros p f j Hp Hf Hj. apply (agree_off_span _ _ a 8); [done|].
    assert (f ≠ a) as Hne by (intros ->; apply Hno; right; eauto).
    destruct (entry_page_apart f j a) as [H|H]; try done; [by eapply (pw_frame _ _ Hwf)|left|by right].
    unfold PAGE_SIZE in H. lia. }
  destruct (same_entries_inv m m' root He) as [Hw Hpe].
  split; [|split_and!; [done|done|intros va; apply Hpe; auto with vmm]]. split; [done| |].
  - split; [intros p f Hp|intros p q f Hp Hq]; rewrite !Hw by done;
      [by apply (pw_frame _ _ Hwf)|by apply (pw_inj _ _ Hwf)].
  - intros p f Hp. rewrite Hw by done. intros Hf. apply not_elem_of_cons.
    split; [intros ->; apply Hno; right; eauto|by apply (Hap p)].
Qed.

(** The pointer the operations derive from [pml4_phys] reaches the PML4. *)
Lemma select_pml4_ok self root : is_frame root → ptr_to (select_pml4 self root) root.
Proof.
  intros Hf. unfold select_pml4. destruct (Z.eqb_spec root KERNEL_PML4) as [->|].
  - destruct Hf as [[H _] _]. by unfold KERNEL_PML4 in H.
  - by apply (ptr_to_phys true).
Qed.

Lemma leaf_addr pa flags va :
  is_frame pa → 0 ≤ flags < 4096 →
  Z.lor (pte_addr (leaf_entry_of pa flags)) (page_offset va) = pa + va mod PAGE_SIZE.
Proof.
  intros Hpa Hfl. unfold leaf_entry_of, page_offset. rewrite <- Z.lor_assoc.
  assert (pte_addr pa = pa) as ->.
  { rewrite <- (Z.lor_0_r pa) at 1. by apply pte_addr_frame. }
  rewrite pte_addr_frame; [|done|apply (lor_range _ _ 12); [lia|done|done]].
  change 0xFFF with (Z.ones 12). rewrite Z.land_ones by done. change (2 ^ 12) with PAGE_SIZE.
  apply (lor_aligned _ _ 12); [done|apply Hpa|by apply Z.mod_pos_bound].
Qed.

(** ** Properties *)

(** The move to the higher half: from the boot page tables,
    [init_higher_half] completes; afterwards the lower half is unmapped, the
    upper half translates as the direct map and framebuffer requests say (and
    as before elsewhere), the PML4 is addressed through the direct map, the
    descriptor registers are rebased, and the free list holds exactly the
    reclaimable boot pages that pass the checks on top of what was left of
    it. *)
Theorem init_higher_half_spec (self : MemoryManager) (m : mem) (r : DescriptorRegs) (root : Z)
    (l : list Z) (fb : FramebufferInfo) (mm : MemoryMapInfo) :
  higher_half_ready self m root l fb mm →
  ∃ pmm' m' l',
    init_higher_half self m r fb mm =
      Done ({| mm_pmm := pmm'; mm_pml4 := phys_to_virt root; mm_pml4_phys := root |}, m',
            reload_gdt_and_idt r) ∧
    vm_inv pmm' m' root (rev (kept (reclaim_page_skipped mm (mm_pmm self))
      (pages_of_types reclaimable_types (descriptors m mm))) ++ l') ∧
    is_higher_half pmm' = true ∧ (∀ f, f ∈ l' → owned m root l f) ∧
    ∀ va, pte_of m' root va =
      if decide (pml4_index va < 256) then None
      else requested (direct_requests m mm ++ fb_requests fb) va (pte_of m root va).
Proof.
  intros Hready. destruct (init_higher_half_ok self m r root l fb mm Hready) as (pmm' & m' & l' & ? & ? & ? & ? & _ & ?).
  by exists pmm', m', l'.
Qed.

Lemma demo_boot_root j : is_index j → absent (entry_at demo_boot.2 0x10000 j) = true.
Proof.
  intros Hj.
  assert (Forall (λ j, absent (entry_at demo_boot.2 0x10000 j) = true) (seqZ 0 512)) as H.
  { apply (bool_decide_unpack _). vm_compute. exact I. }
  rewrite Forall_forall in H. apply H, elem_of_seqZ. unfold is_index in Hj. lia.
Qed.

Lemma demo_boot_inv : vm_inv demo_boot.1 demo_boot.2 0x10000 demo_frames.
Proof.
  apply empty_root_inv.
  - apply free_all_repr; [by split; [|constructor|constructor|]| |];
      unfold is_frame, page_aligned; apply (bool_decide_unpack _); vm_compute; exact I.
  - by split.
  - apply (bool_decide_unpack _). vm_compute. exact I.
  - exact demo_boot_root.
Qed.

Lemma demo_boot_owned f : owned demo_boot.2 0x10000 demo_frames f → f ∈ 0x10000 :: demo_frames.
Proof.
  intros [Hf|(p & Hp & Hf)]; [by right|].
  apply (empty_root_walk _ _ _ _ demo_boot_root Hp) in Hf as [_ ->]. left.
Qed.

Definition demo_manager : MemoryManager := (MemoryManager_init 0x500 demo_boot.1 0x10000).2.

Lemma demo_ready : higher_half_ready demo_manager demo_boot.2 0x10000 demo_frames demo_fb demo_map.
Proof.
  split.
  - exact demo_boot_inv.
  - done.
  - split; try done.
    + intros d Hd Hr.
      assert (Forall (λ d, region_is d direct_types → descriptor_ok d)
        (descriptors demo_boot.2 demo_map)) as Hall.
      { unfold descriptor_ok, page_aligned. apply (bool_decide_unpack _). vm_compute. exact I. }
      rewrite Forall_forall in Hall. by apply Hall.
    + apply (bool_decide_unpack _). vm_compute. exact I.
  - unfold fb_ok. apply (bool_decide_unpack _). vm_compute. exact I.
  - intros f Hf%demo_boot_owned. revert f Hf. apply Forall_forall. unfold apart.
    apply (bool_decide_unpack _). vm_compute. exact I.
  - apply (bool_decide_unpack _). vm_compute. exact I.
  - intros a Ha Hf%demo_boot_owned. revert a Ha Hf.
    assert (Forall (λ a, a ∉ 0x10000 :: demo_frames)
      (pages_of_types reclaimable_types (descriptors demo_boot.2 demo_map))) as H.
    { apply (bool_decide_unpack _). vm_compute. exact I. }
    rewrite Forall_forall in H. intros a Ha. by apply H.
Qed.

Definition demo_regs : DescriptorRegs := {| gdtr := replicate 10 7; idtr := replicate 10 9 |}.

Lemma init_higher_half_spec_witness :
  ∃ pmm' m' l',
    init_higher_half demo_manager demo_boot.2 demo_regs demo_fb demo_map =
      Done ({| mm_pmm := pmm'; mm_pml4 := phys_to_virt 0x10000; mm_pml4_phys := 0x10000 |}, m',
            reload_gdt_and_idt demo_regs) ∧
    vm_inv pmm' m' 0x10000 (rev (kept (reclaim_page_skipped demo_map (mm_pmm demo_manager))
      (pages_of_types reclaimable_types (descriptors demo_boot.2 demo_map))) ++ l') ∧
    is_higher_half pmm' = true ∧ (∀ f, f ∈ l' → owned demo_boot.2 0x10000 demo_frames f) ∧
    ∀ va, pte_of m' 0x10000 va =
      if decide (pml4_index va < 256) then None
      else requested (direct_requests demo_boot.2 demo_map ++ fb_requests demo_fb) va
             (pte_of demo_boot.2 0x10000 va).
Proof.
  exact (init_higher_half_spec demo_manager demo_boot.2 demo_regs 0x10000 demo_frames demo_fb demo_map demo_ready).
Defined.

(** [unmap_and_free_page] on a page mapped with ordinary flags (bits below
    12) gives exactly the mapped frame back: the page loses its translation,
    all others keep theirs, and the free list grows by the frame and the page
    tables that became empty. *)
Theorem unmap_and_free_spec (self : MemoryManager) (m : mem) (root : Z) (l : list Z)
    (va pa flags : Z) :
  vm_inv (mm_pmm self) m root l → is_frame root → page_aligned va → is_frame pa →
  0 ≤ flags < 4096 → ¬ owned m root l pa → pte_of m root va = Some (leaf_entry_of pa flags) →
  ∃ pmm' m' k,
    unmap_and_free_page self m root va = (with_pmm self pmm', m') ∧
    vm_inv pmm' m' root (pa :: k ++ l) ∧ (length k ≤ 3)%nat ∧
    ∀ va', pte_of m' root va' = if decide (vpn va' = vpn va) then None else pte_of m root va'.
Proof.
  intros Hinv Hroot Hva Hpa Hfl Hno He. pose proof (select_pml4_ok self root Hroot) as Hptr.
  unfold unmap_and_free_page, mm_get_physical_addr.
  rewrite (get_physical_addr_ok m root) by (apply Hinv || done).
  unfold translate. rewrite He. cbn [fmap option_fmap option_map].
  rewrite leaf_addr, (Hva : va mod PAGE_SIZE = 0), Z.add_0_r by done.
  unfold mm_unmap_page.
  destruct (unmap_page_present (mm_pmm self) m root l _ va _ Hinv Hptr He)
    as (p1 & m1 & -> & k & I1 & C1 & Hk & [O1 _] & T1 & _).
  destruct (free_fresh_inv p1 m1 root (k ++ l) pa I1 Hpa) as (p2 & m2 & E2 & I2 & _ & _ & T2).
  { by rewrite O1. }
  unfold mm_free_page. cbn [mm_pmm with_pmm]. rewrite E2. exists p2, m2, k.
  split_and!; try done. intros va'. by rewrite T2, T1.
Qed.

(** The demo manager with frame 0x77000 mapped at 0x40003000. *)
Definition demo_user : PhysicalMemoryManager * mem :=
  done_or demo_boot (map_page demo_boot.1 demo_boot.2 0x10000 0x40003000 0x77000
    (Z.lor (Z.lor PRESENT WRITABLE) USER) true).

Definition demo_user_manager : MemoryManager :=
  {| mm_pmm := demo_user.1; mm_pml4 := 0x10000; mm_pml4_phys := 0x10000 |}.

Lemma demo_user_inv : ∃ l, vm_inv (mm_pmm demo_user_manager) demo_user.2 0x10000 l ∧
  (¬ owned demo_user.2 0x10000 l 0x77000) ∧
  pte_of demo_user.2 0x10000 0x40003000
    = Some (leaf_entry_of 0x77000 (Z.lor (Z.lor PRESENT WRITABLE) USER)).
Proof.
  destruct (map_page_ok 0 demo_boot.1 demo_boot.2 0x10000 demo_frames 0x10000 0x40003000 0x77000
    (Z.lor (Z.lor PRESENT WRITABLE) USER) true (va_tables 0x40003000))
    as (pmm' & m' & l' & E & Hinv & _ & _ & _ & [HO _] & _ & _ & HT).
  - exact demo_boot_inv.
  - split_and!; [apply va_tables_nodup|apply va_tables_ok|].
    apply (bool_decide_unpack _). vm_compute. exact I.
  - done.
  - apply (ptr_to_phys false). by split.
  - by split.
  - by split.
  - exists l'. unfold demo_user_manager. cbn [mm_pmm]. unfold demo_user. rewrite E. cbn [done_or fst snd]. split; [done|]. split.
    + rewrite HO. intros H%demo_boot_owned. revert H. apply (bool_decide_unpack _). vm_compute. exact I.
    + rewrite HT, decide_True; done.
Qed.

Lemma demo_root_frame : is_frame 0x10000. Proof. by split. Qed.
Lemma demo_page_frame : is_frame 0x77000. Proof. by split. Qed.

Lemma unmap_and_free_spec_witness : ∃ l pmm' m' k,
  unmap_and_free_page demo_user_manager demo_user.2 0x10000 0x40003000
    = (with_pmm demo_user_manager pmm', m') ∧
  vm_inv pmm' m' 0x10000 (0x77000 :: k ++ l) ∧ (length k ≤ 3)%nat ∧
  ∀ va', pte_of m' 0x10000 va' =
    if decide (vpn va' = vpn 0x40003000) then None else pte_of demo_user.2 0x10000 va'.
Proof.
  destruct demo_user_inv as (l & Hl & Ho & He). exists l.
  apply (unmap_and_free_spec demo_user_manager demo_user.2 0x10000 l 0x40003000 0x77000
    (Z.lor (Z.lor PRESENT WRITABLE) USER)).
  - exact Hl.
  - exact demo_root_frame.
  - reflexivity.
  - exact demo_page_frame.
  - split; [apply Z.leb_le|apply Z.ltb_lt]; reflexivity.
  - exact Ho.
  - exact He.
Defined.

(** The same operation on a page mapped with the no-execute flag: the
    value pushed on the free list is the frame with bit 63 still set, so the
    next allocation returns an address that is no page frame. *)
Theorem unmap_and_free_nx (self : MemoryManager) (m : mem) (root : Z) (l : list Z)
    (va pa flags : Z) :
  vm_inv (mm_pmm self) m root l → is_frame root → page_aligned va → is_frame pa →
  0 ≤ flags < 4096 → pte_of m root va = Some (leaf_entry_of pa (Z.lor flags NX)) →
  let '(self', m') := unmap_and_free_page self m root va in
  (mm_alloc_page self' m').1 = Some (2 ^ 63 + pa) ∧ ¬ is_frame (2 ^ 63 + pa).
Proof.
  intros Hinv Hroot Hva Hpa Hfl He. pose proof (select_pml4_ok self root Hroot) as Hptr.
  unfold unmap_and_free_page, mm_get_physical_addr.
  rewrite (get_physical_addr_ok m root) by (apply Hinv || done).
  unfold translate. rewrite He. cbn [fmap option_fmap option_map].
  rewrite nx_leaf_addr, (Hva : va mod PAGE_SIZE = 0), Z.add_0_r by done.
  unfold mm_unmap_page. destruct (unmap_page _ _ _ _) as [[b p1] m1].
  unfold mm_free_page, free_page. split; [done|].
  intros [Hr _]. unfold PHYS_LIMIT in Hr. destruct Hpa as [? _]. lia.
Qed.

Lemma unmap_and_free_nx_witness :
  (mm_alloc_page
     (unmap_and_free_page (with_pmm demo_manager demo_mapped.1) demo_mapped.2 0x10000 0xFFFFA00000000000).1
     (unmap_and_free_page (with_pmm demo_manager demo_mapped.1) demo_mapped.2 0x10000 0xFFFFA00000000000).2).1
    = Some (2 ^ 63 + 0x77000) ∧ ¬ is_frame (2 ^ 63 + 0x77000).
Proof.
  destruct demo_mapped_inv as [l Hl].
  pose proof (unmap_and_free_nx (with_pmm demo_manager demo_mapped.1) demo_mapped.2 0x10000 l
    0xFFFFA00000000000 0x77000 (Z.lor PRESENT WRITABLE) Hl) as H.
  destruct (unmap_and_free_page _ _ _ _) as [s' m'] in H |- *. cbn [fst snd].
  apply H; [exact demo_root_frame|reflexivity|exact demo_page_frame| |].
  - split; [apply Z.leb_le|apply Z.ltb_lt]; reflexivity.
  - vm_compute. reflexivity.
Defined.

(** ** User address spaces *)

Lemma copy_entries_spec kroot uroot n i m :
  is_frame kroot → is_frame uroot → kroot ≠ uroot → 0 ≤ i → i + Z.of_nat n ≤ 512 →
  let m' := copy_entries n i m (phys_ptr true kroot) (phys_ptr true uroot) in
  agree_off (span uroot PAGE_SIZE) m m' ∧
  ∀ j, is_index j → entry_at m' uroot j =
    if decide (i ≤ j < i + Z.of_nat n) then entry_at m kroot j else entry_at m uroot j.
Proof.
  intros Hk Hu Hne. revert i m. induction n as [|n IH]; intros i m Hi Hn; cbn [copy_entries].
  { split; [apply agree_off_refl|]. intros j Hj. by rewrite decide_False by lia. }
  assert (is_index i) as Hii by (unfold is_index; lia).
  rewrite (ptr_to_store m _ uroot i), (ptr_to_load m _ kroot i) by (done || by apply ptr_to_phys).
  set (m1 := store64 m (uroot + 8 * i) (entry_at m kroot i)).
  destruct (IH (i + 1) m1) as [Hag He]; [lia|lia|]. split.
  - eapply agree_off_trans; [|done]. apply agree_off_store64.
    unfold span, is_index, PAGE_SIZE in *. lia.
  - intros j Hj. rewrite He by done.
    assert (entry_at m1 kroot j = entry_at m kroot j) as ->.
    { apply entry_at_store_other; try done. by intros [= -> _]. }
    destruct (decide (j = i)) as [->|Hji].
    + rewrite decide_False, decide_True by lia. apply entry_at_store_same, load64_range.
    + unfold m1. rewrite entry_at_store_other; try done; [|by intros [= ->]].
      repeat case_decide; (lia || done).
Qed.

(** A PML4 [uroot] whose upper half repeats that of [kroot]. *)
Section shared_root.
Context (m m' : mem) (kroot uroot : Z) (l : list Z) (pmm : PhysicalMemoryManager).
Hypothesis Hinv : vm_inv pmm m kroot (uroot :: l).
Hypothesis Hag : agree_off (span uroot PAGE_SIZE) m m'.
Hypothesis Hlow : ∀ j, 0 ≤ j < 256 → entry_at m' uroot j = 0.
Hypothesis Hhigh : ∀ j, 256 ≤ j < 512 → entry_at m' uroot j = entry_at m kroot j.

Let Hwf : pt_wf m kroot := vi_wf _ _ _ _ Hinv.

Lemma shared_uroot : is_frame uroot ∧ uroot ∉ l.
Proof.
  pose proof (vi_pmm _ _ _ _ Hinv) as Hr. split.
  - pose proof (repr_frames _ _ _ Hr) as H. by apply Forall_cons in H as [? _].
  - pose proof (repr_nodup _ _ _ Hr) as H. by apply NoDup_cons in H as [? _].
Qed.

Lemma shared_entry p f j : table_path p → walk m kroot p = Some f → is_index j →
  entry_at m' f j = entry_at m f j.
Proof.
  intros Hp Hf Hj. apply (agree_off_span _ _ uroot PAGE_SIZE); [done|].
  apply entry_page_apart; [by eapply (pw_frame _ _ Hwf)|apply shared_uroot|done|].
  intros ->. apply (vi_apart _ _ _ _ Hinv p uroot Hp Hf). left.
Qed.

Lemma shared_walk i p : table_path (i :: p) →
  walk m' uroot (i :: p) = if decide (i < 256) then None else walk m kroot (i :: p).
Proof.
  intros Hp. assert (is_index i) as Hi by (destruct Hp as [_ H]; apply Forall_cons in H; tauto).
  unfold is_index in Hi. case_decide.
  - cbn [walk]. by rewrite Hlow by lia.
  - destruct (same_entries_inv m m' kroot shared_entry) as [Hw _].
    rewrite <- Hw by done. cbn [walk]. rewrite Hhigh by lia.
    rewrite (shared_entry [] kroot i); [done|split; [simpl; lia|constructor]|done|done].
Qed.

Lemma shared_inv pmm' : pmm_repr pmm' m l → vm_inv pmm' m' uroot l.
Proof.
  intros Hr. destruct shared_uroot as [Huf Hul].
  assert (∀ i p f, table_path (i :: p) → walk m' uroot (i :: p) = Some f →
    walk m kroot (i :: p) = Some f ∧ f ≠ uroot) as Hsub.
  { intros i p f Hp. rewrite shared_walk by done. case_decide; [done|]. intros Hf. split; [done|].
    intros ->. apply (vi_apart _ _ _ _ Hinv _ _ Hp Hf). left. }
  split.
  - eapply (pmm_repr_agree_off (span uroot PAGE_SIZE)); [done| |done]. intros a x Ha Hx Hx'.
    pose proof (proj1 (Forall_forall _ _) (repr_frames _ _ _ Hr) a Ha) as Haf.
    destruct (frame_disjoint a uroot) as [H|H]; try done; [|unfold span in *; lia..].
    by intros ->.
  - split.
    + intros [|i p] f Hp; [by intros [= <-]|]. intros Hf%Hsub; [|done].
      destruct Hf as [Hf _]. by apply (pw_frame _ _ Hwf (i :: p)).
    + intros [|i p] [|j q] f Hp Hq.
      * done.
      * intros [= <-] Hf%Hsub; [|done]. by destruct Hf.
      * intros Hf%Hsub; [|done]. intros [= <-]. by destruct Hf.
      * intros [Hf _]%Hsub; [|done]. intros [Hf' _]%Hsub; [|done]. by apply (pw_inj _ _ Hwf _ _ f).
  - intros [|i p] f Hp; [by intros [= <-]|]. intros Hf%Hsub; [|done]. destruct Hf as [Hf _].
    intros Hin. apply (vi_apart _ _ _ _ Hinv _ _ Hp Hf). by right.
Qed.

Lemma shared_owned f : owned m' uroot l f → owned m kroot (uroot :: l) f.
Proof.
  intros [Hin|([|i p] & Hp & Hf)]; [left; by right|injection Hf as <-; left; left|].
  rewrite shared_walk in Hf by done. case_decide; [done|]. right. by exists (i :: p).
Qed.

Lemma shared_kroot : ¬ owned m' uroot l kroot.
Proof.
  assert (table_path []) as H0 by (split; [simpl; lia|constructor]).
  intros [Hin|([|i p] & Hp & Hf)].
  - apply (vi_apart _ _ _ _ Hinv [] kroot H0 eq_refl). by right.
  - injection Hf as ->. apply (vi_apart _ _ _ _ Hinv [] kroot H0 eq_refl). left.
  - rewrite shared_walk in Hf by done. case_decide; [done|].
    by discriminate (pw_inj _ _ Hwf [] (i :: p) kroot H0 Hp eq_refl Hf).
Qed.

Lemma shared_pte va :
  pte_of m' uroot va = if decide (pml4_index va < 256) then None else pte_of m kroot va.
Proof.
  unfold pte_of, pt_entry, va_path. rewrite shared_walk by apply va_path_ok. case_decide; [done|].
  destruct (walk m kroot _) as [f|] eqn:Hf; [|done]. cbn [mbind option_bind].
  rewrite (shared_entry _ f _ (va_path_ok va) Hf) by auto with vmm. done.
Qed.
End shared_root.

(** Taking a page off the free list. *)
Lemma alloc_inv pmm m root a l :
  vm_inv pmm m root (a :: l) →
  ∃ pmm', alloc_page pmm m = (Some a, pmm') ∧ vm_inv pmm' m root l ∧ is_frame a ∧
    ¬ owned m root l a ∧ ∀ f, owned m root l f → owned m root (a :: l) f.
Proof.
  intros [Hr Hwf Hap]. destruct (alloc_page_cons pmm m a l Hr) as (pmm' & E & _ & Hr').
  pose proof (repr_frames _ _ _ Hr) as Hf. apply Forall_cons in Hf as [Ha _].
  pose proof (repr_nodup _ _ _ Hr) as Hn. apply NoDup_cons in Hn as [Hal _].
  exists pmm'. split_and!; try done.
  - split; [done..|]. intros p f Hp Hf Hin. apply (Hap p f Hp Hf). by right.
  - intros [?|(p & Hp & Hf)]; [done|]. apply (Hap p a Hp Hf). left.
  - intros f [?|?]; [left; by right|by right].
Qed.

(** The loop body shared by the user stack and the kernel heap: back the
    virtual page [va i] by a fresh frame. *)
Definition map_fresh_page (msg : string) (pml4_phys flags : Z) (va : Z)
    (s : MemoryManager * mem) : outcome (MemoryManager * mem) :=
  let '(mm, m) := s in
  let '(r, mm) := mm_alloc_page mm m in
  phys ← expect msg r;
  mm_map_page mm m pml4_phys va phys flags.

Definition fresh_requests (va : Z → Z) (flags : Z) (fs : list Z) : list request :=
  imap (λ k f, (va (Z.of_nat k), f, flags)) fs.

Section fresh_pages.
Context (mm0 : MemoryManager) (m0 : mem) (root : Z) (l0 : list Z).
Context (msg : string) (pml4_phys flags : Z) (va : Z → Z) (n : nat) (ps : list (list Z)).
Hypothesis Hflags : in_u64 flags.
Hypothesis Hsel : ∀ pmm, ptr_to (select_pml4 (with_pmm mm0 pmm) pml4_phys) root.
Hypothesis Hva : ∀ i, 0 ≤ i < Z.of_nat n → va_tables (va i) ⊆ ps.

(** Free pages the loop does not need. *)
Definition slack : nat := length l0 - need m0 root ps - n.

(** The state after [i] pages, against the state [(m0, l0)] of the start. *)
Definition fresh_state (i : Z) (s : MemoryManager * mem) : Prop :=
  ∃ pmm l fs, s.1 = with_pmm mm0 pmm ∧ vm_inv pmm s.2 root l ∧
    funded (Z.to_nat (Z.of_nat n - i) + slack) s.2 root l ps ∧
    Z.of_nat (length fs) = i ∧ NoDup fs ∧
    l ⊆ l0 ∧ (∀ f, f ∈ fs → f ∈ l0 ∧ ¬ owned s.2 root l f) ∧
    (∀ f, owned s.2 root l f → owned m0 root l0 f) ∧
    agree_off (owned_bytes m0 root l0) m0 s.2 ∧ links_kept m0 s.2 root ∧
    (∀ q j, table_path q → is_index j →
      (∀ k, 0 ≤ k < Z.of_nat n → ¬ (q ++ [j]) `prefix_of` (va_path (va k) ++ [pt_index (va k)])) →
      pt_entry s.2 root q j = pt_entry m0 root q j) ∧
    ∀ v, pte_of s.2 root v = requested (fresh_requests va flags fs) v (pte_of m0 root v).

Lemma fresh_start :
  vm_inv (mm_pmm mm0) m0 root l0 → NoDup ps → Forall table_path ps →
  (need m0 root ps + n ≤ length l0)%nat → fresh_state 0 (mm0, m0).
Proof.
  intros Hinv Hnd Hps Hb. exists (mm_pmm mm0), l0, []. cbn [fst snd].
  split; [by destruct mm0|].
  split_and!; auto using NoDup_nil_2, agree_off_refl, links_kept_refl; [|by intros ? ?%not_elem_of_nil].
  split_and!; [done..|]. unfold slack. lia.
Qed.

Lemma fresh_step i s :
  0 ≤ i < Z.of_nat n → fresh_state i s →
  ∃ s', map_fresh_page msg pml4_phys flags (va i) s = Done s' ∧ fresh_state (i + 1) s'.
Proof.
  intros Hi (pmm & l & fs & E & Hinv & (Hnd & Hps & Hb) & Hlen & Hfs & Hll & Hfl & Ho & Hag & Hlk & Hup & HT).
  destruct s as [mm m]. cbn [fst snd] in *. subst mm.
  destruct l as [|a l]; [simpl in Hb; lia|].
  destruct (alloc_inv pmm m root a l Hinv) as (p1 & E1 & I1 & Ha & Hna & Hsub).
  unfold map_fresh_page, mm_alloc_page. cbn [mm_pmm with_pmm]. rewrite E1.
  cbn [expect mbind outcome_bind].
  destruct (map_page_ok (Z.to_nat (Z.of_nat n - (i + 1)) + slack) p1 m root l
    (select_pml4 (with_pmm (with_pmm mm0 pmm) p1) pml4_phys) (va i) a flags true ps)
    as (p2 & m2 & l2 & E2 & I2 & _ & F2 & S2 & [O2 A2] & K2 & Hup2 & T2); auto using frame_in_u64.
  { split_and!; [done..|]. simpl in Hb. lia. }
  { apply Hsel. }
  unfold mm_map_page. cbn [mm_pmm with_pmm] in *. rewrite E2. cbn [mbind outcome_bind].
  eexists. split; [done|]. exists p2, l2, (fs ++ [a]). cbn [fst snd].
  assert (∀ f, owned m2 root l2 f → owned m root (a :: l) f) as Ho2.
  { intros f Hf. apply Hsub, O2, Hf. }
  split_and!; try done.
  - rewrite length_app. simpl. lia.
  - apply NoDup_app. split_and!; [done| |apply NoDup_singleton].
    intros f Hf ->%list_elem_of_singleton. apply (Hfl a Hf). left. left.
  - intros f Hf. apply Hll. right. by apply S2.
  - intros f [Hf| ->%list_elem_of_singleton]%elem_of_app.
    + split; [by apply Hfl|]. intros Hf2%Ho2. by apply (Hfl f Hf).
    + split; [apply Hll; left|]. intros Hf2. apply Hna. by rewrite <- O2.
  - intros f Hf%Ho2. by apply Ho.
  - eapply agree_off_trans; [exact Hag|]. eapply agree_off_mono; [|exact A2].
    intros x (f & Hf & Hx). exists f. split; [by apply Ho, Hsub|done].
  - by eapply links_kept_trans.
  - intros q j Hq Hj Hnp. rewrite Hup2, Hup; auto.
  - intros v. rewrite T2, HT. unfold fresh_requests. rewrite imap_app, requested_app. cbn.
    rewrite Nat.add_0_r. by rewrite Hlen.
Qed.

(** The whole loop. *)
Lemma fresh_pages_ok :
  vm_inv (mm_pmm mm0) m0 root l0 → NoDup ps → Forall table_path ps →
  (need m0 root ps + n ≤ length l0)%nat →
  ∃ s', for_range n 0 (λ i, map_fresh_page msg pml4_phys flags (va i)) (mm0, m0) = Done s' ∧
    fresh_state (Z.of_nat n) s'.
Proof.
  intros. destruct (for_range_done fresh_state (λ i, map_fresh_page msg pml4_phys flags (va i))
    n 0 (mm0, m0)) as (s' & E & H'); [|by apply fresh_start|].
  - intros j t Hj Ht. apply fresh_step; [lia|done].
  - exists s'. split; [done|]. by rewrite Z.add_0_l in H'.
Qed.
End fresh_pages.

(** *** The user stack *)

Definition stack_va (i : Z) : Z := USER_STACK_TOP - (i + 1) * PAGE_SIZE.

Definition stack_requests (fs : list Z) : list request := fresh_requests stack_va user_stack_flags fs.

Lemma stack_va_facts i : 0 ≤ i < 4 →
  USER_STACK_TOP ⊟ (i + 1) ⊠ PAGE_SIZE = stack_va i ∧
  va_tables (stack_va i) = va_tables (stack_va 0) ∧ pml4_index (stack_va i) = 255.
Proof.
  intros Hi. assert (i = 0 ∨ i = 1 ∨ i = 2 ∨ i = 3) as [->|[->|[->| ->]]] by lia; done.
Qed.

Lemma prefix_head (p q : list Z) : p ≠ [] → p `prefix_of` q → hd 0 p = hd 0 q.
Proof. intros Hp [k ->]. by destruct p. Qed.

(** The kernel's tables are read through [uroot] just as through [kroot]. *)
Lemma kernel_unchanged m m2 m' kroot uroot :
  (∀ j, 0 ≤ j < 256 → absent (entry_at m kroot j) = true) →
  (∀ j, is_index j → entry_at m' kroot j = entry_at m kroot j) →
  (∀ j, 256 ≤ j < 512 → pt_entry m2 uroot [] j = pt_entry m kroot [] j) →
  (∀ q j, table_path q → is_index j → 256 ≤ hd 0 (q ++ [j]) →
    pt_entry m' uroot q j = pt_entry m2 uroot q j) →
  (∀ va, 256 ≤ pml4_index va → pte_of m2 uroot va = pte_of m kroot va) →
  ∀ va, pte_of m' kroot va = pte_of m kroot va.
Proof.
  intros Hlow Hk Hhigh Hup HT va. pose proof (pml4_index_ok va) as Hi. unfold is_index in Hi.
  destruct (decide (pml4_index va < 256)) as [Hlt|Hge].
  { unfold pte_of, pt_entry, va_path. cbn [walk]. rewrite Hk by done. by rewrite Hlow by lia. }
  rewrite <- HT by lia. transitivity (pte_of m' uroot va).
  2: { apply Hup; [apply va_path_ok|apply pt_index_ok|]. cbn. lia. }
  assert (pt_entry m' uroot [] (pml4_index va) = pt_entry m kroot [] (pml4_index va)) as E0.
  { rewrite <- Hhigh by lia. apply Hup; [split; [simpl; lia|constructor]|apply pml4_index_ok|cbn; lia]. }
  unfold pt_entry in E0. cbn [walk mbind option_bind] in E0.
  unfold pte_of, pt_entry, va_path. cbn [walk]. rewrite Hk by apply pml4_index_ok.
  destruct (absent (entry_at m kroot (pml4_index va))), (absent (entry_at m' uroot (pml4_index va)));
    try done. by injection E0 as ->.
Qed.

(** The PML4 of a new address space before its stack is mapped. *)
Lemma fresh_user_root pmm m kroot uroot l :
  vm_inv pmm m kroot (uroot :: l) →
  ∃ p1 m2,
    alloc_page pmm m = (Some uroot, p1) ∧
    copy_entries 256 256 (zero_words 512 m (phys_ptr true uroot) 0) (phys_ptr true kroot)
      (phys_ptr true uroot) = m2 ∧
    is_frame kroot ∧ is_frame uroot ∧ vm_inv p1 m2 uroot l ∧ (¬ owned m2 uroot l kroot) ∧
    agree_off (span uroot PAGE_SIZE) m m2 ∧ (∀ f, owned m2 uroot l f → owned m kroot (uroot :: l) f) ∧
    (∀ j, is_index j → entry_at m2 kroot j = entry_at m kroot j) ∧
    (∀ j, 256 ≤ j < 512 → entry_at m2 uroot j = entry_at m kroot j) ∧
    ∀ va, pte_of m2 uroot va = if decide (pml4_index va < 256) then None else pte_of m kroot va.
Proof.
  intros Hinv. pose proof (vi_wf _ _ _ _ Hinv) as Hwf.
  assert (table_path []) as H0 by (split; [simpl; lia|constructor]).
  pose proof (pw_frame _ _ Hwf [] kroot H0 eq_refl) as Hkf.
  destruct (alloc_inv _ _ _ _ _ Hinv) as (p1 & E1 & I1 & Huf & Hnu & _).
  assert (kroot ≠ uroot) as Hne by (intros ->; apply Hnu, root_owned).
  destruct (zero_words_spec true uroot 512 m 0 Huf) as [A1 Z1]; [lia|lia|].
  set (m1 := zero_words 512 m (phys_ptr true uroot) 0) in *. clearbody m1.
  destruct (copy_entries_spec kroot uroot 256 256 m1) as [A2 Z2]; [done..|lia|lia|].
  set (m2 := copy_entries 256 256 m1 (phys_ptr true kroot) (phys_ptr true uroot)) in *. clearbody m2.
  assert (agree_off (span uroot PAGE_SIZE) m m2) as A by by eapply agree_off_trans.
  assert (∀ j, 0 ≤ j < 256 → entry_at m2 uroot j = 0) as HL.
  { intros j Hj. assert (is_index j) by (unfold is_index; lia).
    rewrite Z2, decide_False, Z1, decide_True by (done || lia). done. }
  assert (∀ j, 256 ≤ j < 512 → entry_at m2 uroot j = entry_at m kroot j) as HH.
  { intros j Hj. assert (is_index j) by (unfold is_index; lia). rewrite Z2, decide_True by (done || lia).
    apply (agree_off_span _ _ uroot PAGE_SIZE); [done|]. by apply entry_page_apart. }
  exists p1, m2. split_and!; try done.
  - by apply (shared_inv m m2 kroot uroot l pmm Hinv A HL HH), (vi_pmm _ _ _ _ I1).
  - by apply (shared_kroot m m2 kroot uroot l pmm).
  - by apply (shared_owned m m2 kroot uroot l pmm).
  - intros j Hj. apply (agree_off_span _ _ uroot PAGE_SIZE); [done|]. by apply entry_page_apart.
  - by apply (shared_pte m m2 kroot uroot l pmm).
Qed.

Lemma owned_frame pmm m root l f : vm_inv pmm m root l → owned m root l f → is_frame f.
Proof.
  intros [Hr Hwf _] [Hf|(p & Hp & Hf)]; [|by eapply (pw_frame _ _ Hwf)].
  pose proof (repr_frames _ _ _ Hr) as H. rewrite Forall_forall in H. by apply H.
Qed.

(** A frame nobody owns keeps its words. *)
Lemma unowned_entry pmm m root l m' f j :
  vm_inv pmm m root l → agree_off (owned_bytes m root l) m m' → is_frame f → ¬ owned m root l f →
  is_index j → entry_at m' f j = entry_at m f j.
Proof.
  intros Hinv Hag Hf Hno Hj. apply Hag. intros k Hk (g & Hg & Hs).
  assert (f ≠ g) as Hne by by intros ->.
  destruct (frame_disjoint f g Hf (owned_frame _ _ _ _ _ Hinv Hg) Hne);
    unfold span, is_index, PAGE_SIZE in *; lia.
Qed.

(** The loop of [AddressSpace::init] is the shared one. *)
Lemma stack_loop uroot s :
  for_range (Z.to_nat USER_STACK_PAGES) 0 (fun i '(mm, m) =>
    let '(r, mm) := mm_alloc_page mm m in
    phys ← expect "[CRITICAL] OOM allocating user stack page" r;
    let virt := USER_STACK_TOP ⊟ (i + 1) ⊠ PAGE_SIZE in
    mm_map_page mm m uroot virt phys user_stack_flags) s
  = for_range 4 0 (λ i, map_fresh_page "[CRITICAL] OOM allocating user stack page" uroot
      user_stack_flags (stack_va i)) s.
Proof.
  apply for_range_ext. intros j [mm1 m1] Hj. destruct (stack_va_facts j) as [-> _]; [lia|done].
Qed.

(** What [AddressSpace::init] leaves: the new space under [uroot], at least the
    pages it did not need, and every frame the kernel does not own as it was. *)
Record space_made (mm : MemoryManager) (m : mem) (kroot uroot : Z) (l : list Z)
    (pmm' : PhysicalMemoryManager) (m' : mem) (l' fs : list Z) : Prop := {
  sm_run : AddressSpace_init mm m kroot =
    Done ({| as_pml4_phys := uroot; user_stack_top := USER_STACK_TOP;
             user_stack_pages := USER_STACK_PAGES |}, with_pmm mm pmm', m');
  sm_inv : vm_inv pmm' m' uroot l';
  sm_frames : length fs = 4%nat ∧ NoDup fs ∧ ∀ f, f ∈ fs → f ∈ l ∧ ¬ owned m' uroot l' f;
  sm_left : (length l ≤ length l' + 7)%nat;
  sm_owned : ∀ f, owned m' uroot l' f → owned m kroot (uroot :: l) f;
  sm_off : agree_off (owned_bytes m kroot (uroot :: l)) m m';
  sm_user : ∀ va, pte_of m' uroot va = requested (stack_requests fs) va
    (if decide (pml4_index va < 256) then None else pte_of m kroot va);
  sm_kernel : ∀ va, pte_of m' kroot va = pte_of m kroot va;
  (** the two roots share the tables of the upper half *)
  sm_root : ¬ owned m' uroot l' kroot ∧ ∀ j, is_index j → entry_at m' kroot j = entry_at m kroot j;
  sm_share : ∀ j, 256 ≤ j < 512 → pt_entry m' uroot [] j = pt_entry m kroot [] j;
  sm_upper : ∀ va, 256 ≤ pml4_index va → pte_of m' uroot va = pte_of m kroot va;
  sm_sub : l' ⊆ l;
}.

Lemma address_space_init_ok mm m kroot uroot l :
  vm_inv (mm_pmm mm) m kroot (uroot :: l) → (7 ≤ length l)%nat →
  (∀ j, 0 ≤ j < 256 → absent (entry_at m kroot j) = true) →
  ∃ pmm' m' l' fs, space_made mm m kroot uroot l pmm' m' l' fs.
Proof.
  intros Hinv Hlen Hlow.
  destruct (fresh_user_root _ _ _ _ _ Hinv) as (p1 & m2 & E1 & E2 & Hkf & Huf & I2 & Hko & A2 & O2 & HK & HH & T2).
  destruct (fresh_pages_ok (with_pmm mm p1) m2 uroot l
    "[CRITICAL] OOM allocating user stack page" uroot user_stack_flags stack_va 4
    (va_tables (stack_va 0))) as ([mm' m'] & Hrun & pmm' & l' & fs & E & I3 & F3 & Hl3 & Hn3 & Hs3 & Hf3 & Ho3 & A3 & _ & U3 & T3).
  { by split. }
  { intros pmm. by apply select_pml4_ok. }
  { intros i Hi. destruct (stack_va_facts i) as (_ & -> & _); [lia|done]. }
  { done. }
  { apply va_tables_nodup. }
  { apply va_tables_ok. }
  { pose proof (need_le m2 uroot (va_tables (stack_va 0))) as Hneed.
    change (length (va_tables _)) with 3%nat in Hneed. lia. }
  cbn [fst snd] in *. subst mm'.
  assert (HK' : ∀ j, is_index j → entry_at m' kroot j = entry_at m kroot j).
  { intros j Hj. rewrite <- HK by done. by apply (unowned_entry p1 m2 uroot l). }
  assert (HU : ∀ q j, table_path q → is_index j → 256 ≤ hd 0 (q ++ [j]) → pt_entry m' uroot q j = pt_entry m2 uroot q j).
  { intros q j Hq Hj Hhd. apply U3; [done..|]. intros k Hk Hpre.
    apply prefix_head in Hpre; [|by destruct q]. destruct (stack_va_facts k) as (_ & _ & Eidx); [lia|].
    rewrite Hpre in Hhd. change (hd 0 _) with (pml4_index (stack_va k)) in Hhd. lia. }
  assert (HS : ∀ j, 256 ≤ j < 512 → pt_entry m2 uroot [] j = pt_entry m kroot [] j).
  { intros j Hj. unfold pt_entry. cbn [walk mbind option_bind]. by rewrite HH. }
  assert (HS' : ∀ j, 256 ≤ j < 512 → pt_entry m' uroot [] j = pt_entry m kroot [] j).
  { intros j Hj. rewrite <- HS by done. apply HU; [split; [simpl; lia|constructor]|unfold is_index; lia|cbn; lia]. }
  assert (HV : ∀ va, 256 ≤ pml4_index va → pte_of m2 uroot va = pte_of m kroot va).
  { intros va Hva. by rewrite T2, decide_False by lia. }
  assert (HV' : ∀ va, 256 ≤ pml4_index va → pte_of m' uroot va = pte_of m kroot va).
  { intros va Hva. rewrite <- HV by done. apply HU; [apply va_path_ok|apply pt_index_ok|cbn; lia]. }
  exists pmm', m', l', fs. split.
  - unfold AddressSpace_init, mm_alloc_page. rewrite E1. cbn [expect mbind outcome_bind].
    change (uroot ⊞ KERNEL_PHYSICAL_MAP_BASE) with (phys_ptr true uroot).
    change (kroot ⊞ KERNEL_PHYSICAL_MAP_BASE) with (phys_ptr true kroot). rewrite E2.
    setoid_rewrite stack_loop. setoid_rewrite Hrun. reflexivity.
  - exact I3.
  - split; [clear -Hl3; lia|exact (conj Hn3 Hf3)].
  - clear -F3. destruct F3 as (_ & _ & F3). unfold slack in F3.
    pose proof (need_le m2 uroot (va_tables (stack_va 0))) as Hneed.
    change (length (va_tables _)) with 3%nat in Hneed. lia.
  - intros f Hf. by apply O2, Ho3.
  - eapply agree_off_trans; [eapply agree_off_mono, A2|eapply agree_off_mono, A3].
    + intros x Hx. exists uroot. split; [left; left|done].
    + intros x (f & Hf & Hx). exists f. split; [by apply O2|done].
  - intros va. by rewrite T3, T2.
  - exact (kernel_unchanged m m2 m' kroot uroot Hlow HK' HS HU HV).
  - exact (conj (λ Hf, Hko (Ho3 _ Hf)) HK').
  - exact HS'.
  - exact HV'.
  - exact Hs3.
Qed.

(** A new user address space: with eight free pages [AddressSpace::init]
    completes.  The fresh PML4 translates the upper half exactly as the
    kernel's does; the lower half holds four writable, user, no-execute stack
    pages below [USER_STACK_TOP], backed by four distinct frames that came off
    the free list and belong to nobody else, and nothing else.  The kernel's
    own translation does not change. *)
Theorem address_space_init_spec (mm : MemoryManager) (m : mem) (kroot uroot : Z) (l : list Z) :
  vm_inv (mm_pmm mm) m kroot (uroot :: l) → (7 ≤ length l)%nat →
  (∀ j, 0 ≤ j < 256 → absent (entry_at m kroot j) = true) →
  ∃ pmm' m' l' fs,
    AddressSpace_init mm m kroot =
      Done ({| as_pml4_phys := uroot; user_stack_top := USER_STACK_TOP;
               user_stack_pages := USER_STACK_PAGES |}, with_pmm mm pmm', m') ∧
    vm_inv pmm' m' uroot l' ∧ length fs = 4%nat ∧ NoDup fs ∧
    (∀ f, f ∈ fs → f ∈ l ∧ ¬ owned m' uroot l' f) ∧
    (∀ va, pte_of m' uroot va = requested (stack_requests fs) va
      (if decide (pml4_index va < 256) then None else pte_of m kroot va)) ∧
    ∀ va, pte_of m' kroot va = pte_of m kroot va.
Proof.
  intros Hinv Hlen Hlow.
  destruct (address_space_init_ok mm m kroot uroot l Hinv Hlen Hlow) as (pmm' & m' & l' & fs & [Hrun I3 (Hl & Hn & Hf) _ _ _ Hu Hk _ _ _]).
  by exists pmm', m', l', fs.
Qed.

Lemma address_space_init_spec_witness :
  ∃ pmm' m' l' fs,
    AddressSpace_init demo_manager demo_boot.2 0x10000 =
      Done ({| as_pml4_phys := 0x100000; user_stack_top := USER_STACK_TOP;
               user_stack_pages := USER_STACK_PAGES |}, with_pmm demo_manager pmm', m') ∧
    vm_inv pmm' m' 0x100000 l' ∧ length fs = 4%nat ∧ NoDup fs ∧
    (∀ f, f ∈ fs → f ∈ tail demo_frames ∧ ¬ owned m' 0x100000 l' f) ∧
    (∀ va, pte_of m' 0x100000 va = requested (stack_requests fs) va
      (if decide (pml4_index va < 256) then None else pte_of demo_boot.2 0x10000 va)) ∧
    ∀ va, pte_of m' 0x10000 va = pte_of demo_boot.2 0x10000 va.
Proof.
  apply (address_space_init_spec demo_manager demo_boot.2 0x10000 0x100000 (tail demo_frames)).
  - exact demo_boot_inv.
  - apply (bool_decide_unpack _). vm_compute. exact I.
  - intros j Hj. apply demo_boot_root. unfold is_index. lia.
Defined.
