(* ===== verification/SelfTests.v ===== *)
(** * SelfTests.v: the kernel's memory self test

    [test_memory_manager] of [tests/memory.rs]: five tests that allocate, map,
    resolve, unmap and free pages and panic when something is off.  Here they
    run on the modelled memory manager.  The theorem shows that they pass on
    every machine whose page tables have room for them, and that the machine
    is left as it was.  The heap self test drives the collections of Rust's
    [alloc] crate and is left out. *)

From S2P Require Import Prelude Machine Pmm Vmm HigherHalf MemoryManager.

Local Open Scope Z_scope.

(** ** The tests *)

(** [assert!] *)
Definition rust_assert (msg : string) (b : bool) : outcome unit := if b then Done tt else Panic msg.

Definition virt1 : Z := 0xFFFFC00000000000.
Definition virt2 : Z := 0xFFFFC00000010000.
Definition virt3 : Z := 0xFFFFA00000020000.
Definition virt4 : Z := 0xFFFFD00000000000.

Definition test_flags : Z := Z.lor PRESENT WRITABLE.

(** Tests 1 and 2: map, resolve, unmap and free, allocate again. *)
Definition test_map_resolve (self : MemoryManager) (m : mem) : outcome (MemoryManager * mem) :=
  let '(r, self) := mm_alloc_page self m in
  phys1 ← expect "Test 1: alloc failed" r;
  '(self, m) ← mm_map_page self m KERNEL_PML4 virt1 phys1 test_flags;
  _ ← (match mm_get_physical_addr self m KERNEL_PML4 virt1 with
       | Some resolved => rust_assert "Test 1 FAILED: expected {:#x}, got {:#x}" (resolved =? phys1)
       | None => Panic "Test 1 FAILED: address not mapped"
       end);
  let '(self, m) := unmap_and_free_page self m KERNEL_PML4 virt1 in
  _ ← rust_assert "Test 2 FAILED: address should be unmapped after unmap_and_free_page"
        (bool_decide (mm_get_physical_addr self m KERNEL_PML4 virt1 = None));
  let '(r, self) := mm_alloc_page self m in
  reallocated ← expect "Test 2: realloc failed" r;
  _ ← rust_assert "Test 2 FAILED: expected freed page {:#x} to be reallocated, got {:#x}" (reallocated =? phys1);
  Done (mm_free_page self m reallocated).

(** Test 3: [unmap_page] does not free the frame. *)
Definition test_unmap_keeps_frame (self : MemoryManager) (m : mem) : outcome (MemoryManager * mem) :=
  let '(r, self) := mm_alloc_page self m in
  phys3 ← expect "Test 3: alloc failed" r;
  '(self, m) ← mm_map_page self m KERNEL_PML4 virt2 phys3 test_flags;
  let '(_, self, m) := mm_unmap_page self m KERNEL_PML4 virt2 in
  _ ← rust_assert "Test 3 FAILED: address should be unmapped"
        (bool_decide (mm_get_physical_addr self m KERNEL_PML4 virt2 = None));
  let '(r, self) := mm_alloc_page self m in
  next_alloc ← expect "Test 3: second alloc failed" r;
  _ ← rust_assert "Test 3 FAILED: physical frame was freed when it should not have been"
        (negb (next_alloc =? phys3));
  let '(self, m) := mm_free_page self m next_alloc in
  Done (mm_free_page self m phys3).

(** Test 4: unmapping an unmapped address returns [false]. *)
Definition test_unmap_unmapped (self : MemoryManager) (m : mem) : outcome (MemoryManager * mem) :=
  let '(result, self, m) := mm_unmap_page self m KERNEL_PML4 virt3 in
  _ ← rust_assert "Test 4 FAILED: expected false for unmapped address" (negb result);
  Done (self, m).

(** Test 5: the page tables made for one page are reclaimed. *)
Definition test_table_reclamation (self : MemoryManager) (m : mem) : outcome (MemoryManager * mem) :=
  let free_before := free_page_count self in
  let '(r, self) := mm_alloc_page self m in
  phys5 ← expect "Test 5: alloc failed" r;
  '(self, m) ← mm_map_page self m KERNEL_PML4 virt4 phys5 test_flags;
  _ ← rust_assert "Test 5 FAILED: expected 4 pages consumed after map"
        (free_page_count self =? free_before ⊟ 4);
  let '(self, m) := unmap_and_free_page self m KERNEL_PML4 virt4 in
  _ ← rust_assert "Test 5 FAILED: expected full reclamation after unmap, got {} free (expected {})" (free_page_count self =? free_before);
  Done (self, m).

(** [test_memory_manager]; every [mm!()] unwraps the same static. *)
Definition test_memory_manager (MEMORY_MANAGER : option MemoryManager) (m : mem)
    : outcome (MemoryManager * mem) :=
  self ← expect "called `Option::unwrap()` on a `None` value" MEMORY_MANAGER;
  '(self, m) ← test_map_resolve self m;
  '(self, m) ← test_unmap_keeps_frame self m;
  '(self, m) ← test_unmap_unmapped self m;
  test_table_reclamation self m.

(** ** Mapping below an empty PML4 entry and unmapping again *)

(** The address with another page table index. *)
Definition sibling (va j : Z) : Z := Z.shiftl (vpn va - pt_index va + j) 12.

Lemma sibling_path va j : is_index j → va_path (sibling va j) = va_path va ∧ pt_index (sibling va j) = j.
Proof.
  intros Hj. unfold is_index in Hj.
  assert (vpn (sibling va j) = vpn va - pt_index va + j) as E.
  { unfold vpn at 1, sibling. rewrite Z.shiftr_shiftl_l, Z.shiftl_0_r by done.
    apply Z.mod_small. rewrite vpn_indices.
    pose proof (pml4_index_ok va). pose proof (pdpt_index_ok va). pose proof (pd_index_ok va).
    unfold is_index in *. change (2 ^ 9) with 512. change (2 ^ 36) with 68719476736. lia. }
  rewrite !vpn_indices in E. unfold va_path.
  pose proof (pml4_index_ok va). pose proof (pdpt_index_ok va). pose proof (pd_index_ok va).
  pose proof (pml4_index_ok (sibling va j)). pose proof (pdpt_index_ok (sibling va j)).
  pose proof (pd_index_ok (sibling va j)). pose proof (pt_index_ok (sibling va j)).
  unfold is_index in *. change (2 ^ 9) with 512 in E.
  assert (pml4_index (sibling va j) = pml4_index va ∧ pdpt_index (sibling va j) = pdpt_index va ∧
    pd_index (sibling va j) = pd_index va ∧ pt_index (sibling va j) = j) as (-> & -> & -> & ->) by lia.
  done.
Qed.

Lemma walk_below m f i p : walk m f [i] = None → walk m f (i :: p) = None.
Proof. intros H. change (i :: p) with ([i] ++ p). by rewrite walk_app, H. Qed.

Lemma prefix_va_path q va : q `prefix_of` va_path va →
  q = [] ∨ q = [pml4_index va] ∨ q = [pml4_index va; pdpt_index va] ∨ q = va_path va.
Proof.
  intros [k E]. unfold va_path in *.
  destruct q as [|a [|b [|c [|d q]]]]; simplify_eq/=; auto.
Qed.

(** The frames of the tables. *)
Definition is_table (m : mem) (root f : Z) : Prop := ∃ p, table_path p ∧ walk m root p = Some f.

Section below_empty.
Context (m m1 : mem) (root va e f1 f2 f3 : Z).
Hypothesis Hwf1 : pt_wf m1 root.
Hypothesis Hempty : walk m root [pml4_index va] = None.
Hypothesis Hentry : ∀ q j, table_path q → is_index j →
  ¬ (q ++ [j]) `prefix_of` (va_path va ++ [pt_index va]) → pt_entry m1 root q j = pt_entry m root q j.
Hypothesis Hpath : mapped_path m1 root va e f1 f2 f3.

Lemma map_walk q : table_path q → q ≠ [] → ¬ q `prefix_of` va_path va → walk m1 root q = walk m root q.
Proof.
  intros Hq Hne Hnp. destruct (exists_last Hne) as (p & j & ->).
  rewrite !walk_snoc, Hentry; [done|by eapply table_path_prefix| |].
  - destruct Hq as [_ H]. apply Forall_app in H as [_ H]. by inversion H.
  - intros [k E]. apply Hnp. destruct k as [|x k _] using rev_ind.
    + exfalso. rewrite app_nil_r in E. apply (f_equal length) in E. destruct Hq as [Hl _].
      rewrite <- E in Hl. simpl in Hl. lia.
    + rewrite app_assoc in E. apply app_inj_tail in E as [E _]. by exists k.
Qed.

(** No table goes. *)
Lemma map_keeps q f : table_path q → walk m root q = Some f → walk m1 root q = Some f.
Proof.
  intros Hq Hf. destruct (decide (q = [])) as [->|Hne]; [done|]. rewrite map_walk; try done.
  intros Hp. destruct (prefix_va_path q va Hp) as [-> |[-> |[-> | ->]]]; try done.
  all: unfold va_path in Hf; by rewrite (walk_below _ _ _ _ Hempty) in Hf.
Qed.

(** The three tables are the only new ones. *)
Lemma map_tables f : is_table m1 root f ↔ is_table m root f ∨ f ∈ [f1; f2; f3].
Proof.
  destruct Hpath as [W1 W2 W3 _ _ _ _ _ _ _ _]. split.
  - intros (q & Hq & Hf). destruct (decide (q `prefix_of` va_path va)) as [Hp|Hp].
    + destruct (prefix_va_path q va Hp) as [-> |[-> |[-> | ->]]].
      * left. by exists [].
      * right. simplify_eq. set_solver.
      * right. simplify_eq. set_solver.
      * right. simplify_eq. set_solver.
    + left. exists q. split; [done|]. rewrite <- map_walk; try done. intros ->. apply Hp, prefix_nil.
  - intros [(q & Hq & Hf)|Hin].
    + exists q. auto using map_keeps.
    + rewrite !elem_of_cons, elem_of_nil in Hin.
      destruct Hin as [-> |[-> |[-> |[]]]]; eexists; split; [|exact W1| |exact W2| |exact W3]; auto with vmm.
Qed.

Lemma new_tables_nodup : NoDup [f1; f2; f3].
Proof.
  destruct Hpath as [W1 W2 W3 _ _ _ _ _ _ _ _].
  assert (∀ p q f, table_path p → table_path q → walk m1 root p = Some f → length p ≠ length q →
    walk m1 root q ≠ Some f) as H.
  { intros p q f Hp Hq Ep Hl Eq. apply Hl. by rewrite (pw_inj _ _ Hwf1 p q f). }
  assert (f1 ≠ f2) by (intros ->; by apply (H _ _ _ (va_path_1 va) (va_path_2 va) W1)).
  assert (f1 ≠ f3) by (intros ->; by apply (H _ _ _ (va_path_1 va) (va_path_ok va) W1)).
  assert (f2 ≠ f3) by (intros ->; by apply (H _ _ _ (va_path_2 va) (va_path_ok va) W2)).
  rewrite !NoDup_cons, !elem_of_cons, !elem_of_nil. split_and!; [naive_solver..|by apply NoDup_nil_2].
Qed.

Lemma new_tables_fresh f : f ∈ [f1; f2; f3] → ¬ is_table m root f.
Proof.
  intros Hin (q & Hq & Hf). destruct Hpath as [W1 W2 W3 _ _ _ _ _ _ _ _].
  assert (∀ p, table_path ([pml4_index va] ++ p) → walk m1 root ([pml4_index va] ++ p) ≠ Some f) as H.
  { intros p Hp E. rewrite (pw_inj _ _ Hwf1 q _ f Hq Hp (map_keeps q f Hq Hf) E) in Hf.
    cbn [app] in Hf. by rewrite (walk_below _ _ _ _ Hempty) in Hf. }
  rewrite !elem_of_cons, elem_of_nil in Hin. destruct Hin as [-> |[-> |[-> |[]]]].
  - by apply (H [] (va_path_1 va)).
  - by apply (H _ (va_path_2 va)).
  - by apply (H _ (va_path_ok va)).
Qed.
End below_empty.

(** Pages that are owned and not tables are free. *)
Lemma free_iff pmm m root l f :
  vm_inv pmm m root l → f ∈ l ↔ owned m root l f ∧ ¬ is_table m root f.
Proof.
  intros [_ _ Hap]. split; [|by intros [[?|?] ?]]. intros Hf. split; [by left|].
  intros (p & Hp & Hw). by apply (Hap p f).
Qed.

(** The tables are as before, and so is the set of free pages. *)
Record same_space (m : mem) (root : Z) (l : list Z) (m' : mem) (l' : list Z) : Prop := {
  ss_free : l' ≡ₚ l;
  ss_walk : ∀ q, table_path q → walk m' root q = walk m root q;
  ss_pte : ∀ va, pte_of m' root va = pte_of m root va;
}.

Section map_unmap.
Context (pmm pmm1 pmm2 : PhysicalMemoryManager) (m m1 m2 : mem) (root va e f1 f2 f3 : Z) (l l1 k : list Z).
Hypothesis Hinv : vm_inv pmm m root l.
Hypothesis Hinv1 : vm_inv pmm1 m1 root l1.
Hypothesis Hinv2 : vm_inv pmm2 m2 root (k ++ l1).
Hypothesis Hempty : walk m root [pml4_index va] = None.
Hypothesis Hentry : ∀ q j, table_path q → is_index j →
  ¬ (q ++ [j]) `prefix_of` (va_path va ++ [pt_index va]) → pt_entry m1 root q j = pt_entry m root q j.
Hypothesis Hpath : mapped_path m1 root va e f1 f2 f3.
Hypothesis Hown1 : ∀ f, owned m1 root l1 f ↔ owned m root l f.

(** Mapping took the three tables off the free list. *)
Lemma map_takes : l ≡ₚ [f1; f2; f3] ++ l1.
Proof.
  pose proof (vi_wf _ _ _ _ Hinv1) as Hwf1.
  pose proof (map_tables m m1 root va e f1 f2 f3 Hwf1 Hempty Hentry Hpath) as Ht.
  pose proof (new_tables_fresh m m1 root va e f1 f2 f3 Hwf1 Hempty Hentry Hpath) as Hn.
  apply NoDup_Permutation; [apply (repr_nodup _ _ _ (vi_pmm _ _ _ _ Hinv))| |].
  - apply NoDup_app. split_and!; [by eapply new_tables_nodup; [apply Hinv1|exact Hpath]| |apply (repr_nodup _ _ _ (vi_pmm _ _ _ _ Hinv1))].
    intros f Hf Hin. apply (free_iff _ _ _ _ _ Hinv1) in Hin as [_ Hin]. apply Hin, Ht. by right.
  - intros f. rewrite (free_iff _ _ _ _ f Hinv), elem_of_app, (free_iff _ _ _ _ f Hinv1), Hown1, Ht.
    assert (f ∈ [f1; f2; f3] → owned m root l f).
    { intros Hf. apply Hown1. right. apply Ht. by right. }
    specialize (Hn f). destruct (decide (f ∈ [f1; f2; f3])); naive_solver.
Qed.

Hypothesis Hpte1 : ∀ va', vpn va' ≠ vpn va → pte_of m1 root va' = pte_of m root va'.
Hypothesis Hpte2 : ∀ va', pte_of m2 root va' = if decide (vpn va' = vpn va) then None else pte_of m1 root va'.
Hypothesis Hlen : (length k ≤ 3)%nat.
Hypothesis Htight : path_tight m2 root va.
Hypothesis Hshrink : ∀ q f, table_path q → walk m2 root q = Some f → walk m1 root q = Some f.
Hypothesis Hown2 : ∀ f, owned m2 root (k ++ l1) f ↔ owned m1 root l1 f.

(** A table left on the path has its entry towards the next one. *)
Lemma tight_next n f :
  (1 ≤ n ≤ 2)%nat → walk m2 root (take n (va_path va)) = Some f →
  is_Some (walk m2 root (take (S n) (va_path va))).
Proof.
  intros Hn Hf. destruct (Htight n f) as (j & Hj & Hp); [lia|done|].
  assert (table_path (take n (va_path va) ++ [j])) as Hq.
  { split; [rewrite length_app, length_take; simpl; lia|].
    apply Forall_app. split; [apply Forall_take, va_path_ok|by apply Forall_singleton]. }
  assert (walk m2 root (take n (va_path va) ++ [j]) = Some (pte_addr (entry_at m2 f j))) as Hw.
  { rewrite walk_app, Hf. simpl. by rewrite Hp. }
  destruct (decide ((take n (va_path va) ++ [j]) `prefix_of` va_path va)) as [Hpre|Hpre].
  - replace (take (S n) (va_path va)) with (take n (va_path va) ++ [j]) by
      (destruct (prefix_va_path _ _ Hpre) as [E|[E|[E|E]]]; destruct n as [|[|[|n]]]; try lia;
       unfold va_path in *; simpl in *; by simplify_eq).
    by rewrite Hw.
  - exfalso. pose proof (Hshrink _ _ Hq Hw) as H1.
    rewrite (map_walk m m1 root va Hentry) in H1; [|done| |done].
    2: { destruct n; [lia|done]. }
    destruct n as [|n]; [lia|]. unfold va_path in H1. simpl take in H1. cbn [app] in H1.
    by rewrite (walk_below _ _ _ _ Hempty) in H1.
Qed.

Lemma unmap_empties : walk m2 root [pml4_index va] = None.
Proof.
  destruct (walk m2 root [pml4_index va]) as [g1|] eqn:W1; [exfalso|done].
  destruct (tight_next 1 g1) as [g2 W2]; [lia|done|].
  destruct (tight_next 2 g2) as [g3 W3]; [lia|done|].
  destruct (Htight 3%nat g3) as (j & Hj & Hp); [lia|done|].
  destruct (sibling_path va j Hj) as [Ep Ej].
  assert (pte_of m2 root (sibling va j) = Some (entry_at m2 g3 j)) as H.
  { unfold pte_of, pt_entry. rewrite Ep, Ej. change (take 3 (va_path va)) with (va_path va) in W3.
    rewrite W3. simpl. by rewrite Hp. }
  rewrite Hpte2 in H. case_decide; [done|]. rewrite Hpte1 in H by done.
  unfold pte_of, pt_entry in H. rewrite Ep in H. unfold va_path in H.
  by rewrite (walk_below _ _ _ _ Hempty) in H.
Qed.

(** So the three tables are what unmapping freed. *)
Lemma unmap_frees : k ≡ₚ [f1; f2; f3].
Proof.
  pose proof (vi_wf _ _ _ _ Hinv1) as Hwf1. pose proof unmap_empties as He.
  assert (∀ p, table_path ([pml4_index va] ++ p) → ∀ f, walk m1 root ([pml4_index va] ++ p) = Some f → f ∈ k) as H.
  { intros p Hp f Hf. assert (is_table m1 root f) as Ht by (eexists; eauto).
    assert (f ∈ k ++ l1) as Hin.
    { apply (free_iff _ _ _ _ _ Hinv2). split; [apply Hown2; by right|].
      intros (q & Hq & Hw). pose proof (Hshrink _ _ Hq Hw) as Hw1.
      rewrite (pw_inj _ _ Hwf1 q _ f Hq Hp Hw1 Hf) in Hw. cbn [app] in Hw.
      by rewrite (walk_below _ _ _ _ He) in Hw. }
    apply elem_of_app in Hin as [?|Hin]; [done|]. by apply (free_iff _ _ _ _ _ Hinv1) in Hin as [_ ?]. }
  destruct Hpath as [W1 W2 W3 _ _ _ _ _ _ _ _]. symmetry. apply submseteq_length_Permutation.
  - apply NoDup_submseteq; [by eapply new_tables_nodup|]. intros f Hf.
    rewrite !elem_of_cons, elem_of_nil in Hf. destruct Hf as [-> |[-> |[-> |[]]]].
    + by apply (H [] (va_path_1 va)).
    + by apply (H _ (va_path_2 va)).
    + by apply (H _ (va_path_ok va)).
  - done.
Qed.

Lemma map_unmap_same : same_space m root l m2 (k ++ l1).
Proof.
  pose proof (vi_wf _ _ _ _ Hinv1) as Hwf1.
  assert (k ++ l1 ≡ₚ l) as Hl by (by rewrite unmap_frees, map_takes).
  assert (∀ f, is_table m2 root f ↔ is_table m root f) as Ht.
  { assert (∀ f, owned m2 root (k ++ l1) f ↔ owned m root l f) as Ho by (intros f; by rewrite Hown2).
    assert (∀ pmm m l f, vm_inv pmm m root l → is_table m root f ↔ owned m root l f ∧ f ∉ l) as Hi.
    { intros ? ? ? f [_ _ Hap]. split; [|by intros [[?|?] ?]].
      intros (p & Hp & Hf). split; [right; by exists p|by apply (Hap p)]. }
    intros f. rewrite (Hi _ _ _ f Hinv2), (Hi _ _ _ f Hinv), Ho. by rewrite Hl. }
  split; [done| |].
  - intros q Hq. destruct (walk m root q) as [f|] eqn:Hf.
    + destruct (proj2 (Ht f)) as (r & Hr & Hw); [by exists q|].
      by rewrite (pw_inj _ _ Hwf1 q r f Hq Hr (map_keeps m m1 root va Hempty Hentry q f Hq Hf) (Hshrink _ _ Hr Hw)).
    + destruct (walk m2 root q) as [f|] eqn:Hw; [|done].
      destruct (proj1 (Ht f)) as (r & Hr & Hf'); [by exists q|].
      by rewrite (pw_inj _ _ Hwf1 q r f Hq Hr (Hshrink _ _ Hq Hw) (map_keeps m m1 root va Hempty Hentry r f Hr Hf')), Hf' in Hf.
  - intros va'. rewrite Hpte2. case_decide as Hv; [|by apply Hpte1].
    apply same_vpn, app_inj_tail in Hv as [Ev _]. unfold pte_of, pt_entry. rewrite Ev. unfold va_path.
    by rewrite (walk_below _ _ _ _ Hempty).
Qed.
End map_unmap.

(** [map_page] below an empty entry of the PML4 takes three pages, and
    [unmap_page] right after it undoes it. *)
Lemma map_then_unmap self m root l va pa :
  vm_inv (mm_pmm self) m root l → ptr_to (mm_pml4 self) root →
  walk m root [pml4_index va] = None → (3 ≤ length l)%nat → in_u64 pa →
  ∃ pmm1 m1 l1 pmm2 m2 l2,
    mm_map_page self m KERNEL_PML4 va pa test_flags = Done (with_pmm self pmm1, m1) ∧
    vm_inv pmm1 m1 root l1 ∧ length l = (3 + length l1)%nat ∧
    pte_of m1 root va = Some (leaf_entry_of pa test_flags) ∧
    mm_unmap_page (with_pmm self pmm1) m1 KERNEL_PML4 va = (true, with_pmm self pmm2, m2) ∧
    vm_inv pmm2 m2 root l2 ∧ same_space m root l m2 l2 ∧
    pte_of m2 root va = None ∧ ∀ f, owned m2 root l2 f ↔ owned m root l f.
Proof.
  intros Hinv Hptr Hempty Hl Hpa.
  destruct (map_page_ok 0 (mm_pmm self) m root l (mm_pml4 self) va pa test_flags true (va_tables va))
    as (pmm1 & m1 & l1 & E1 & I1 & C1 & _ & _ & [O1 _] & _ & Q1 & T1); try done.
  { split_and!; [apply va_tables_nodup|apply va_tables_ok|]. unfold need.
    rewrite Nat.add_0_r. etransitivity; [apply length_filter|done]. }
  pose proof (T1 va) as He. rewrite decide_True in He by done.
  destruct (pte_of_path m1 root va _ (vi_wf _ _ _ _ I1) He) as (f1 & f2 & f3 & Hpath).
  destruct (unmap_page_present pmm1 m1 root l1 (mm_pml4 self) va _ I1 Hptr He)
    as (pmm2 & m2 & E2 & k & I2 & _ & Hk & [O2 _] & T2 & Ht & Hsh).
  assert (∀ va', vpn va' ≠ vpn va → pte_of m1 root va' = pte_of m root va') as T1'.
  { intros va' Hv. by rewrite T1, decide_False. }
  exists pmm1, m1, l1, pmm2, m2, (k ++ l1). unfold mm_map_page, mm_unmap_page.
  change (select_pml4 self KERNEL_PML4) with (mm_pml4 self).
  change (select_pml4 (with_pmm self pmm1) KERNEL_PML4) with (mm_pml4 self).
  cbn [mm_pmm with_pmm]. rewrite E1, E2. cbn [mbind outcome_bind]. split_and!; try done.
  - by rewrite (map_takes (mm_pmm self) pmm1 m m1 root va (leaf_entry_of pa test_flags) f1 f2 f3 l l1).
  - by apply (map_unmap_same (mm_pmm self) pmm1 pmm2 m m1 m2 root va (leaf_entry_of pa test_flags) f1 f2 f3).
  - by rewrite T2, decide_True.
  - intros f. by rewrite O2.
Qed.

(** ** The tests pass *)

(** A machine the tests can run on: four free pages, nothing below the PML4
    entries of [virt1] and [virt4], and [virt3] unmapped. *)
Record testable (self : MemoryManager) (m : mem) (root : Z) (l : list Z) : Prop := {
  ts_inv : vm_inv (mm_pmm self) m root l;
  ts_ptr : ptr_to (mm_pml4 self) root;
  ts_free : (4 ≤ length l)%nat;
  ts_virt1 : walk m root [pml4_index virt1] = None;
  ts_virt4 : walk m root [pml4_index virt4] = None;
  ts_virt3 : pte_of m root virt3 = None;
}.

(** What a test returns: the same manager on the same space. *)
Definition passes (self : MemoryManager) (m : mem) (root : Z) (l : list Z)
    (o : outcome (MemoryManager * mem)) : Prop :=
  ∃ pmm' m' l', o = Done (with_pmm self pmm', m') ∧ vm_inv pmm' m' root l' ∧ same_space m root l m' l'.

Lemma testable_same self m root l pmm' m' l' :
  testable self m root l → vm_inv pmm' m' root l' → same_space m root l m' l' →
  testable (with_pmm self pmm') m' root l'.
Proof.
  intros [_ Hptr Hl H1 H4 H3] Hinv [Hp Hw He]. split; cbn [mm_pmm mm_pml4 with_pmm]; try done.
  - by rewrite Hp.
  - by rewrite Hw by auto with vmm.
  - by rewrite Hw by auto with vmm.
  - by rewrite He.
Qed.

Lemma same_space_trans m root l m1 l1 m2 l2 :
  same_space m root l m1 l1 → same_space m1 root l1 m2 l2 → same_space m root l m2 l2.
Proof.
  intros [P1 W1 E1] [P2 W2 E2]. split; [by rewrite P2|intros; by rewrite W2, W1|intros; by rewrite E2].
Qed.

(** Freeing the page that was allocated before the tests of a space. *)
Lemma free_restores self pmm1 m m1 root a l l1 :
  vm_inv pmm1 m1 root l1 → same_space m root l m1 l1 → is_frame a → ¬ owned m1 root l1 a →
  ∃ pmm2 m2, mm_free_page (with_pmm self pmm1) m1 a = (with_pmm self pmm2, m2) ∧
    vm_inv pmm2 m2 root (a :: l1) ∧ same_space m root (a :: l) m2 (a :: l1).
Proof.
  intros Hinv [Hp Hw He] Ha Hno.
  destruct (free_fresh_inv pmm1 m1 root l1 a Hinv Ha Hno) as (p2 & m2 & E & I2 & _ & W2 & T2).
  exists p2, m2. unfold mm_free_page. cbn [mm_pmm with_pmm]. rewrite E. split_and!; try done.
  split; [by rewrite Hp|intros; by rewrite W2, Hw|intros; by rewrite T2].
Qed.

(** A page allocated on a testable machine, mapped at [va] and unmapped. *)
Lemma alloc_map_unmap self m root l va :
  testable self m root l → walk m root [pml4_index va] = None →
  ∃ a l0 pmm0 pmm1 m1 l1 pmm2 m2 l2,
    l = a :: l0 ∧ mm_alloc_page self m = (Some a, with_pmm self pmm0) ∧ is_frame a ∧
    mm_map_page (with_pmm self pmm0) m KERNEL_PML4 va a test_flags = Done (with_pmm self pmm1, m1) ∧
    vm_inv pmm1 m1 root l1 ∧ length l = (4 + length l1)%nat ∧
    pte_of m1 root va = Some (leaf_entry_of a test_flags) ∧
    mm_unmap_page (with_pmm self pmm1) m1 KERNEL_PML4 va = (true, with_pmm self pmm2, m2) ∧
    vm_inv pmm2 m2 root l2 ∧ same_space m root l0 m2 l2 ∧ pte_of m2 root va = None ∧
    ¬ owned m2 root l2 a.
Proof.
  intros [Hinv Hptr Hl _ _ _] He. destruct l as [|a l0]; [simpl in Hl; lia|].
  destruct (alloc_inv _ _ _ _ _ Hinv) as (pmm0 & E0 & I0 & Ha & Hno & _).
  destruct (map_then_unmap (with_pmm self pmm0) m root l0 va a)
    as (p1 & m1 & l1 & p2 & m2 & l2 & E1 & I1 & Hn & T1 & E2 & I2 & S2 & T2 & O2); try done.
  { simpl in Hl. lia. }
  { by apply frame_in_u64. }
  exists a, l0, pmm0, p1, m1, l1, p2, m2, l2. unfold mm_alloc_page. rewrite E0.
  split_and!; try done; [simpl; lia|by rewrite O2].
Qed.

Lemma resolve_ok self m root va :
  pt_wf m root → ptr_to (mm_pml4 self) root →
  mm_get_physical_addr self m KERNEL_PML4 va = translate m root va.
Proof. exact (get_physical_addr_ok m root (mm_pml4 self) va). Qed.

Lemma resolve_mapped m root va a :
  is_frame a → page_aligned va → pte_of m root va = Some (leaf_entry_of a test_flags) →
  translate m root va = Some a.
Proof.
  intros Ha Hva He. unfold translate. rewrite He. cbn [fmap option_fmap option_map].
  by rewrite leaf_addr, (Hva : va mod PAGE_SIZE = 0), Z.add_0_r.
Qed.

Lemma resolve_unmapped m root va : pte_of m root va = None → translate m root va = None.
Proof. intros He. unfold translate. by rewrite He. Qed.

(** [unmap_and_free_page] on the page the test mapped. *)
Lemma unmap_and_free_mapped self m m1 root l0 l2 pmm1 pmm2 m2 va a :
  pt_wf m1 root → ptr_to (mm_pml4 self) root → page_aligned va → is_frame a →
  pte_of m1 root va = Some (leaf_entry_of a test_flags) →
  mm_unmap_page (with_pmm self pmm1) m1 KERNEL_PML4 va = (true, with_pmm self pmm2, m2) →
  vm_inv pmm2 m2 root l2 → same_space m root l0 m2 l2 → ¬ owned m2 root l2 a →
  ∃ pmm3 m3, unmap_and_free_page (with_pmm self pmm1) m1 KERNEL_PML4 va = (with_pmm self pmm3, m3) ∧
    vm_inv pmm3 m3 root (a :: l2) ∧ same_space m root (a :: l0) m3 (a :: l2).
Proof.
  intros Hwf Hptr Hva Ha He E2 I2 S2 Hno. unfold unmap_and_free_page.
  rewrite (resolve_ok _ _ root), (resolve_mapped _ _ _ a), E2 by done.
  by apply (free_restores self pmm2 m m2 root a l0 l2).
Qed.

Lemma test_map_resolve_passes self m root l :
  testable self m root l → passes self m root l (test_map_resolve self m).
Proof.
  intros Ht. destruct (alloc_map_unmap self m root l virt1 Ht (ts_virt1 _ _ _ _ Ht))
    as (a & l0 & p0 & p1 & m1 & l1 & p2 & m2 & l2 & -> & E0 & Ha & E1 & I1 & _ & T1 & E2 & I2 & S2 & T2 & Hno).
  pose proof (ts_ptr _ _ _ _ Ht) as Hptr. pose proof (vi_wf _ _ _ _ I1) as Hwf1.
  destruct (unmap_and_free_mapped self m m1 root l0 l2 p1 p2 m2 virt1 a) as (p3 & m3 & E3 & I3 & S3); try done.
  unfold test_map_resolve. rewrite E0. cbn [expect]. rewrite bind_Done, E1, bind_Done.
  rewrite (resolve_ok _ _ root), (resolve_mapped _ _ _ a), Z.eqb_refl by done.
  cbn [rust_assert]. rewrite bind_Done, E3.
  rewrite (resolve_ok _ _ root) by (done || apply (vi_wf _ _ _ _ I3)).
  rewrite (resolve_unmapped m3 root) by
    (rewrite (ss_pte _ _ _ _ _ S3), <- (ss_pte _ _ _ _ _ S2); exact T2).
  rewrite bool_decide_true by done. cbn [rust_assert]. rewrite bind_Done.
  destruct (alloc_inv _ _ _ _ _ I3) as (p4 & E4 & I4 & _ & Hno4 & _).
  unfold mm_alloc_page. cbn [mm_pmm with_pmm]. rewrite E4. cbn [expect].
  rewrite bind_Done, Z.eqb_refl. cbn [rust_assert]. rewrite bind_Done.
  destruct S3 as [P3 W3 T3].
  destruct (free_restores self p4 m m3 root a l0 l2 I4) as (p5 & m5 & E5 & I5 & S5); try done.
  { split; [by apply Permutation_cons_inv in P3|done|done]. }
  exists p5, m5, (a :: l2). change (with_pmm (with_pmm self p3) p4) with (with_pmm self p4). by rewrite E5.
Qed.

Lemma test_unmap_keeps_frame_passes self m root l :
  testable self m root l → passes self m root l (test_unmap_keeps_frame self m).
Proof.
  intros Ht. destruct (alloc_map_unmap self m root l virt2 Ht (ts_virt1 _ _ _ _ Ht))
    as (a & l0 & p0 & p1 & m1 & l1 & p2 & m2 & l2 & -> & E0 & Ha & E1 & I1 & _ & T1 & E2 & I2 & S2 & T2 & Hno).
  pose proof (ts_ptr _ _ _ _ Ht) as Hptr.
  unfold test_unmap_keeps_frame. rewrite E0. cbn [expect]. rewrite bind_Done, E1, bind_Done, E2.
  rewrite (resolve_ok _ _ root), (resolve_unmapped m2 root) by (done || apply (vi_wf _ _ _ _ I2)).
  rewrite bool_decide_true by done. cbn [rust_assert]. rewrite bind_Done.
  destruct l2 as [|b l3].
  { pose proof (ts_free _ _ _ _ Ht) as Hl. pose proof (Permutation_length (ss_free _ _ _ _ _ S2)) as Hl2.
    simpl in Hl, Hl2. lia. }
  destruct (alloc_inv _ _ _ _ _ I2) as (p3 & E3 & I3 & Hb & Hno3 & _).
  unfold mm_alloc_page. cbn [mm_pmm with_pmm]. rewrite E3. cbn [expect]. rewrite bind_Done.
  assert (b ≠ a) as Hba by (intros ->; apply Hno; left; left).
  rewrite (proj2 (Z.eqb_neq b a) Hba). cbn [negb rust_assert]. rewrite bind_Done.
  destruct (free_restores self p3 m2 m2 root b l3 l3 I3) as (p4 & m4 & E4 & I4 & S4); try done.
  destruct (free_restores self p4 m m4 root a l0 (b :: l3) I4) as (p5 & m5 & E5 & I5 & S5); try done.
  { by apply (same_space_trans _ _ _ m2 (b :: l3)). }
  { intros [Hin|(q & Hq & Hw)]; apply Hno; [by left|right; exists q]. by rewrite <- (ss_walk _ _ _ _ _ S4). }
  exists p5, m5, (a :: b :: l3). change (with_pmm (with_pmm self p2) p3) with (with_pmm self p3). by rewrite E4, E5.
Qed.

Lemma test_unmap_unmapped_passes self m root l :
  testable self m root l → passes self m root l (test_unmap_unmapped self m).
Proof.
  intros [Hinv Hptr _ _ _ H3]. unfold test_unmap_unmapped, mm_unmap_page.
  change (select_pml4 self KERNEL_PML4) with (mm_pml4 self).
  rewrite (unmap_page_absent _ m root) by (done || apply (vi_wf _ _ _ _ Hinv)).
  by exists (mm_pmm self), m, l.
Qed.

Lemma test_table_reclamation_passes self m root l :
  testable self m root l → passes self m root l (test_table_reclamation self m).
Proof.
  intros Ht. destruct (alloc_map_unmap self m root l virt4 Ht (ts_virt4 _ _ _ _ Ht))
    as (a & l0 & p0 & p1 & m1 & l1 & p2 & m2 & l2 & -> & E0 & Ha & E1 & I1 & Hn & T1 & E2 & I2 & S2 & T2 & Hno).
  pose proof (ts_ptr _ _ _ _ Ht) as Hptr. pose proof (vi_wf _ _ _ _ I1) as Hwf1.
  destruct (unmap_and_free_mapped self m m1 root l0 l2 p1 p2 m2 virt4 a) as (p3 & m3 & E3 & I3 & S3); try done.
  pose proof (repr_count _ _ _ (vi_pmm _ _ _ _ (ts_inv _ _ _ _ Ht))) as C0.
  pose proof (repr_count _ _ _ (vi_pmm _ _ _ _ I1)) as C1.
  pose proof (repr_count _ _ _ (vi_pmm _ _ _ _ I3)) as C3.
  rewrite (Permutation_length (ss_free _ _ _ _ _ S3)) in C3.
  unfold test_table_reclamation. rewrite E0. cbn [expect]. rewrite bind_Done, E1, bind_Done.
  unfold free_page_count. cbn [mm_pmm with_pmm]. rewrite C0, C1, E3. cbn [mm_pmm with_pmm]. rewrite C3.
  assert (Z.of_nat (length (a :: l0)) ⊟ 4 = Z.of_nat (length l1)) as ->.
  { pose proof (frames_length l1 (repr_nodup _ _ _ (vi_pmm _ _ _ _ I1)) (repr_frames _ _ _ (vi_pmm _ _ _ _ I1))).
    rewrite Hn, u64_small; unfold in_u64, W64; lia. }
  rewrite !Z.eqb_refl. cbn [rust_assert]. rewrite !bind_Done. by exists p3, m3, (a :: l2).
Qed.

(** C39. The memory self test passes: on a machine with four free pages, with
    nothing mapped below the two PML4 entries the test uses and with its third
    address unmapped, none of the assertions of [test_memory_manager] fails,
    and afterwards the free pages are the same set and the page tables and
    every translation are as before. *)
Theorem memory_self_test_passes (self : MemoryManager) (m : mem) (root : Z) (l : list Z) :
  testable self m root l →
  ∃ self' m' l', test_memory_manager (Some self) m = Done (self', m') ∧
    testable self' m' root l' ∧ same_space m root l m' l' ∧
    free_page_count self' = free_page_count self.
Proof.
  intros Ht. unfold test_memory_manager. cbn [expect]. rewrite bind_Done.
  destruct (test_map_resolve_passes self m root l Ht) as (p1 & m1 & l1 & -> & I1 & S1).
  pose proof (testable_same _ _ _ _ _ _ _ Ht I1 S1) as T1. rewrite bind_Done.
  destruct (test_unmap_keeps_frame_passes _ _ _ _ T1) as (p2 & m2 & l2 & -> & I2 & S2).
  pose proof (testable_same _ _ _ _ _ _ _ T1 I2 S2) as T2. rewrite bind_Done.
  destruct (test_unmap_unmapped_passes _ _ _ _ T2) as (p3 & m3 & l3 & -> & I3 & S3).
  pose proof (testable_same _ _ _ _ _ _ _ T2 I3 S3) as T3. rewrite bind_Done.
  destruct (test_table_reclamation_passes _ _ _ _ T3) as (p4 & m4 & l4 & -> & I4 & S4).
  pose proof (same_space_trans _ _ _ _ _ _ _ S1 (same_space_trans _ _ _ _ _ _ _ S2
    (same_space_trans _ _ _ _ _ _ _ S3 S4))) as S.
  exists (with_pmm self p4), m4, l4. split_and!; try done.
  - by apply (testable_same self m root l).
  - unfold free_page_count. cbn [mm_pmm with_pmm].
    rewrite (repr_count _ _ _ (vi_pmm _ _ _ _ I4)), (repr_count _ _ _ (vi_pmm _ _ _ _ (ts_inv _ _ _ _ Ht))).
    by rewrite (Permutation_length (ss_free _ _ _ _ _ S)).
Qed.

(** Eight free pages and an empty PML4 at 0x10000. *)
Definition demo_test_manager : MemoryManager :=
  {| mm_pmm := demo_pool.1; mm_pml4 := 0x10000; mm_pml4_phys := 0x10000 |}.

Lemma demo_testable :
  testable demo_test_manager demo_pool.2 0x10000 ((λ k, k * PAGE_SIZE) <$> seqZ 1 8).
Proof.
  split.
  - exact demo_pool_inv.
  - apply (ptr_to_phys false). by split.
  - apply Nat.leb_le. vm_compute. reflexivity.
  - cbn [walk]. by rewrite demo_pool_root by apply pml4_index_ok.
  - cbn [walk]. by rewrite demo_pool_root by apply pml4_index_ok.
  - unfold pte_of, pt_entry, va_path. cbn [walk]. by rewrite demo_pool_root by apply pml4_index_ok.
Qed.

Lemma memory_self_test_passes_witness :
  ∃ self' m' l', test_memory_manager (Some demo_test_manager) demo_pool.2 = Done (self', m') ∧
    testable self' m' 0x10000 l' ∧
    same_space demo_pool.2 0x10000 ((λ k, k * PAGE_SIZE) <$> seqZ 1 8) m' l' ∧
    free_page_count self' = free_page_count demo_test_manager.
Proof. exact (memory_self_test_passes _ _ _ _ demo_testable). Defined.
