(* ===== verification/KernelHeap.v ===== *)
(** * KernelHeap.v: the kernel heap (memory_manager/kernel_heap.rs)

    A first-fit allocator over an address-sorted free list whose nodes live in
    the free memory itself: a free block starts with its size and the address
    of the next free block.  [hm] is the memory seen through the heap's virtual
    range; what it holds at addresses the heap has not committed yet is
    whatever the backing frames will contain, and nothing is assumed of it.
    Physical memory and the memory manager are threaded through [grow].

    The concrete operations are shown to implement operations on an abstract
    list of blocks, and the allocator's laws are proved on that list. *)

From S2P Require Import Prelude Machine Pmm Vmm HigherHalf MemoryManager.

Local Open Scope Z_scope.

(** ** State and operations *)

(** [core::alloc::Layout] *)
Record Layout := { layout_size : Z; layout_align : Z }.

Record KernelHeap := {
  base : Z;
  max_size : Z;
  committed : Z;
  free_list : Z;
}.

Definition set_free_list_head (h : KernelHeap) (p : Z) : KernelHeap :=
  {| base := base h; max_size := max_size h; committed := committed h; free_list := p |}.

Definition set_committed (h : KernelHeap) (c : Z) : KernelHeap :=
  {| base := base h; max_size := max_size h; committed := c; free_list := free_list h |}.

Definition FreeBlock_SIZE : Z := 16.
Definition AllocHeader_SIZE : Z := 16.

(** Field accesses of [FreeBlock] and [AllocHeader], both [#[repr(C)]]. *)
Definition get_size (hm : mem) (p : Z) : Z := load64 hm p.
Definition get_next (hm : mem) (p : Z) : Z := load64 hm (p + 8).
Definition set_size (hm : mem) (p v : Z) : mem := store64 hm p v.
Definition set_next (hm : mem) (p v : Z) : mem := store64 hm (p + 8) v.

(** [KernelHeap::new] *)
Definition KernelHeap_new (base max_size : Z) : KernelHeap :=
  {| base := base; max_size := max_size; committed := 0; free_list := 0 |}.

(** The walk [while !next.is_null() && next < ptr]. *)
Fixpoint find_position (fuel : nat) (hm : mem) (ptr prev next : Z) : outcome (Z * Z) :=
  if (next =? 0) || (ptr <=? next) then Done (prev, next)
  else match fuel with
       | O => OutOfFuel
       | S fuel' => find_position fuel' hm ptr next (get_next hm next)
       end.

(** Free blocks are disjoint and at least 16 bytes long. *)
Definition list_fuel (h : KernelHeap) : nat := Z.to_nat (committed h / FreeBlock_SIZE).

Definition insert_free_block_sorted (h : KernelHeap) (hm : mem) (ptr total_size : Z)
    : outcome (KernelHeap * mem) :=
  if total_size <? FreeBlock_SIZE
  then Panic "[KERNEL_HEAP] block is too small to hold FreeBlock header"
  else
  '(prev, next) ← find_position (list_fuel h) hm ptr 0 (free_list h);
  let block := ptr in
  let hm := set_next (set_size hm block total_size) block next in
  let '(h, hm) := if prev =? 0 then (set_free_list_head h block, hm)
                  else (h, set_next hm prev block) in
  let hm :=
    if negb (next =? 0) && (block ⊞ get_size hm block =? next) then
      let hm := set_size hm block (get_size hm block ⊞ get_size hm next) in
      set_next hm block (get_next hm next)
    else hm in
  let hm :=
    if negb (prev =? 0) && (prev ⊞ get_size hm prev =? block) then
      let hm := set_size hm prev (get_size hm prev ⊞ get_size hm block) in
      set_next hm prev (get_next hm block)
    else hm in
  Done (h, hm).

Definition heap_flags : Z := Z.lor (Z.lor PRESENT WRITABLE) NX.

Definition grow (h : KernelHeap) (hm : mem) (mm : MemoryManager) (pm : mem) (num_pages : Z)
    : outcome (KernelHeap * mem * MemoryManager * mem) :=
  let num_bytes := num_pages ⊠ PAGE_SIZE in
  if max_size h <? committed h ⊞ num_bytes
  then Panic "[KERNEL_HEAP] Out of heap memory: grow() would exceed max size"
  else
  let region_virtual_addr := base h ⊞ committed h in
  '(mm, pm) ← for_range (Z.to_nat num_pages) 0 (fun i '(mm, pm) =>
    let virt_addr := region_virtual_addr ⊞ i ⊠ PAGE_SIZE in
    let '(r, mm) := mm_alloc_page mm pm in
    phys_addr ← expect "[KERNEL_HEAP] PMM out of memory during heap grow" r;
    mm_map_page mm pm KERNEL_PML4 virt_addr phys_addr heap_flags) (mm, pm);
  let h := set_committed h (committed h ⊞ num_bytes) in
  '(h, hm) ← insert_free_block_sorted h hm region_virtual_addr num_bytes;
  Done (h, hm, mm, pm).

(** [KernelHeap::init] *)
Definition KernelHeap_init (h : KernelHeap) (hm : mem) (mm : MemoryManager) (pm : mem)
    (initial_pages : Z) : outcome (KernelHeap * mem * MemoryManager * mem) :=
  grow h hm mm pm initial_pages.

Definition allocation_sizes (layout : Layout) : Z * Z :=
  let align := layout_align layout in
  let data_offset := Z.land (AllocHeader_SIZE ⊞ align ⊟ 1) (not64 (align ⊟ 1)) in
  let total_size := data_offset ⊞ layout_size layout in
  (total_size, data_offset).

Definition pages_needed (total_size : Z) : Z :=
  Z.max ((total_size ⊞ PAGE_SIZE ⊟ 1) / PAGE_SIZE) 4.

(** The part of [allocate] that takes the block [current] apart. *)
Definition carve (h : KernelHeap) (hm : mem) (total_size data_offset previous current : Z)
    : outcome (Z * KernelHeap * mem) :=
  let available := get_size hm current in
  let next := get_next hm current in
  let '(h, hm) := if previous =? 0 then (set_free_list_head h next, hm)
                  else (h, set_next hm previous next) in
  let block_ptr := current in
  let remaining := available ⊟ total_size in
  '(h, hm) ←
    (if FreeBlock_SIZE <=? remaining
     then insert_free_block_sorted h hm (block_ptr ⊞ total_size) remaining
     else Done (h, hm));
  let hm := store64 hm block_ptr total_size in
  let hm := store64 hm (block_ptr + 8) data_offset in
  let data_ptr := block_ptr ⊞ data_offset in
  let hm := store64 hm (data_ptr ⊟ 8) data_offset in
  Done (data_ptr, h, hm).

(** The [loop] of [allocate]. *)
Fixpoint allocate_loop (fuel : nat) (h : KernelHeap) (hm : mem) (mm : MemoryManager) (pm : mem)
    (total_size data_offset previous current : Z)
    : outcome (Z * KernelHeap * mem * MemoryManager * mem) :=
  match fuel with
  | O => OutOfFuel
  | S fuel' =>
      if current =? 0 then
        '(h, hm, mm, pm) ← grow h hm mm pm (pages_needed total_size);
        allocate_loop fuel' h hm mm pm total_size data_offset 0 (free_list h)
      else if total_size <=? get_size hm current then
        '(p, h, hm) ← carve h hm total_size data_offset previous current;
        Done (p, h, hm, mm, pm)
      else
        allocate_loop fuel' h hm mm pm total_size data_offset current (get_next hm current)
  end.

(** One pass over the list, a [grow], and one pass over the longer list. *)
Definition allocate_fuel (h : KernelHeap) (total_size : Z) : nat :=
  (list_fuel h + list_fuel (set_committed h (committed h + pages_needed total_size * PAGE_SIZE)) + 3)%nat.

Definition allocate (h : KernelHeap) (hm : mem) (mm : MemoryManager) (pm : mem) (layout : Layout)
    : outcome (Z * KernelHeap * mem * MemoryManager * mem) :=
  let '(total_size, data_offset) := allocation_sizes layout in
  allocate_loop (allocate_fuel h total_size) h hm mm pm total_size data_offset 0 (free_list h).

Definition deallocate (h : KernelHeap) (hm : mem) (ptr : Z) : outcome (KernelHeap * mem) :=
  let data_offset := load64 hm (ptr ⊟ 8) in
  let block_ptr := ptr ⊟ data_offset in
  let total_size := load64 hm block_ptr in
  insert_free_block_sorted h hm block_ptr total_size.

(** [LockedHeap] and the [GlobalAlloc] trait: the same operations under the lock; the
    layout of a freed block is ignored. *)
Definition LockedHeap_new (base max_size : Z) : KernelHeap := KernelHeap_new base max_size.
Definition alloc (h : KernelHeap) (hm : mem) (mm : MemoryManager) (pm : mem) (layout : Layout)
    : outcome (Z * KernelHeap * mem * MemoryManager * mem) := allocate h hm mm pm layout.
Definition dealloc (h : KernelHeap) (hm : mem) (ptr : Z) (layout : Layout) : outcome (KernelHeap * mem) :=
  deallocate h hm ptr.

(** ** The abstract free list

    Blocks are [(address, size)] pairs.  A list is well formed in [lo, hi) when
    it is sorted, its blocks are at least 16 bytes long and no two of them
    touch: what can be merged has been merged. *)

Abbreviation block := (Z * Z)%type.

Fixpoint blocks_ok (lo hi : Z) (bs : list block) : Prop :=
  match bs with
  | [] => True
  | (a, n) :: bs' => lo ≤ a ∧ FreeBlock_SIZE ≤ n ∧ a + n ≤ hi ∧ blocks_ok (a + n + 1) hi bs'
  end.

(** The bytes the blocks cover. *)
Definition free_byte (bs : list block) (x : Z) : Prop :=
  ∃ b, b ∈ bs ∧ span b.1 b.2 x.

Definition merge_next (blk : block) (post : list block) : block * list block :=
  match post with
  | (b, k) :: post' => if blk.1 + blk.2 =? b then ((blk.1, blk.2 + k), post') else (blk, post)
  | [] => (blk, post)
  end.

Fixpoint merge_prev (pre : list block) (blk : block) (post : list block) : list block :=
  match pre with
  | [] => blk :: post
  | [(p, q)] => if p + q =? blk.1 then (p, q + blk.2) :: post else (p, q) :: blk :: post
  | b :: pre' => b :: merge_prev pre' blk post
  end.

(** Inserting a block between the blocks before it and those after it. *)
Definition glue (pre : list block) (blk : block) (post : list block) : list block :=
  let '(blk', post') := merge_next blk post in merge_prev pre blk' post'.

(** The blocks that start below [a], and the others. *)
Definition before (a : Z) (bs : list block) : list block := base.filter (λ b, b.1 < a) bs.
Definition after (a : Z) (bs : list block) : list block := base.filter (λ b, a ≤ b.1) bs.

Definition insert_block (a n : Z) (bs : list block) : list block := glue (before a bs) (a, n) (after a bs).

(** First fit: the blocks passed over, the block chosen, the blocks behind. *)
Fixpoint first_fit (need : Z) (bs : list block) : option (list block * block * list block) :=
  match bs with
  | [] => None
  | (a, n) :: bs' =>
      if need <=? n then Some ([], (a, n), bs')
      else '(pre, b, post) ← first_fit need bs'; Some ((a, n) :: pre, b, post)
  end.

(** What is left of a block [n] bytes long once [t] are taken. *)
Definition leftover (a n t : Z) : list block :=
  if FreeBlock_SIZE <=? n - t then [(a + t, n - t)] else [].

(** ** Lists of blocks in memory *)

(** The nodes from [head] up to, not including, [tail]. *)
Fixpoint lseg (hm : mem) (head : Z) (bs : list block) (tail : Z) : Prop :=
  match bs with
  | [] => head = tail
  | (a, n) :: bs' => head = a ∧ a ≠ 0 ∧ get_size hm a = n ∧ lseg hm (get_next hm a) bs' tail
  end.

(** Eight bytes at [x] miss the header of every block. *)
Definition clear_of (x : Z) (bs : list block) : Prop := Forall (λ b, apart x 8 b.1 16) bs.

Lemma lseg_app hm head xs ys t :
  lseg hm head (xs ++ ys) t ↔ ∃ mid, lseg hm head xs mid ∧ lseg hm mid ys t.
Proof.
  revert head. induction xs as [|[a n] xs IH]; intros head; simpl.
  - split; [eauto|]. by intros (mid & -> & ?).
  - rewrite IH. split.
    + intros (-> & ? & ? & mid & ? & ?). exists mid. done.
    + intros (mid & (-> & ? & ? & ?) & ?). eauto 10.
Qed.

Lemma lseg_agree hm hm' head bs t :
  (∀ b, b ∈ bs → load64 hm' b.1 = load64 hm b.1 ∧ load64 hm' (b.1 + 8) = load64 hm (b.1 + 8)) →
  lseg hm head bs t → lseg hm' head bs t.
Proof.
  revert head. induction bs as [|[a n] bs IH]; intros head Hag; simpl; [done|].
  intros (-> & ? & Hs & Hl). destruct (Hag (a, n)) as [H1 H2]; [left|]. cbn [fst] in *.
  unfold get_size, get_next in *. rewrite H1, H2. split_and!; try done.
  apply IH; [|done]. intros b Hb. apply Hag. by right.
Qed.

Lemma lseg_store hm head bs t x v :
  clear_of x bs → lseg hm head bs t → lseg (store64 hm x v) head bs t.
Proof.
  unfold clear_of. rewrite Forall_forall. intros Hc. apply lseg_agree. intros b Hb.
  specialize (Hc b Hb). unfold apart in Hc. split; apply load64_store64_ne; unfold apart; lia.
Qed.

(** Changing the size field of a node. *)
Lemma node_size hm head xs b k ys t k' :
  clear_of b (xs ++ ys) → in_u64 k' → lseg hm head (xs ++ (b, k) :: ys) t →
  lseg (set_size hm b k') head (xs ++ (b, k') :: ys) t.
Proof.
  intros [Hx Hy]%Forall_app Hk (mid & Hl & -> & ? & Hs & Hn)%lseg_app. apply lseg_app. exists b.
  split; [by apply lseg_store|]. cbn [lseg]. unfold get_size, get_next, set_size in *.
  rewrite load64_store64_same by done. rewrite load64_store64_ne by (unfold apart; lia).
  split_and!; try done. by apply lseg_store.
Qed.

(** Redirecting the next field of a node. *)
Lemma node_next hm head xs b k ys t nx ys' t' :
  clear_of (b + 8) (xs ++ ys') → in_u64 nx → lseg hm nx ys' t' →
  lseg hm head (xs ++ (b, k) :: ys) t →
  lseg (set_next hm b nx) head (xs ++ (b, k) :: ys') t'.
Proof.
  intros [Hx Hy]%Forall_app Hk Hnx (mid & Hl & -> & ? & Hs & _)%lseg_app. apply lseg_app. exists b.
  split; [by apply lseg_store|]. cbn [lseg]. unfold get_size, get_next, set_next in *.
  rewrite (load64_store64_ne hm (b + 8) b) by (unfold apart; lia).
  rewrite load64_store64_same by done. split_and!; try done. by apply lseg_store.
Qed.

(** Writing the header of a new node in front of a list. *)
Lemma node_new hm a n nx ys t :
  a ≠ 0 → in_u64 n → in_u64 nx → clear_of a ys → clear_of (a + 8) ys → lseg hm nx ys t →
  lseg (set_next (set_size hm a n) a nx) a ((a, n) :: ys) t.
Proof.
  intros Ha Hn Hnx Hc1 Hc2 Hl. cbn [lseg]. unfold get_size, get_next, set_next, set_size.
  rewrite (load64_store64_ne _ (a + 8) a) by (unfold apart; lia).
  rewrite !load64_store64_same by done. split_and!; try done.
  apply lseg_store; [done|]. by apply lseg_store.
Qed.

(** ** Sorted blocks *)

(** Sorted and disjoint, but neighbours may touch. *)
Fixpoint blocks_weak (lo hi : Z) (bs : list block) : Prop :=
  match bs with
  | [] => True
  | (a, n) :: bs' => lo ≤ a ∧ FreeBlock_SIZE ≤ n ∧ a + n ≤ hi ∧ blocks_weak (a + n) hi bs'
  end.

Lemma blocks_ok_lower lo lo' hi bs : lo' ≤ lo → blocks_ok lo hi bs → blocks_ok lo' hi bs.
Proof. destruct bs as [|[a n] bs]; simpl; [done|]. intros ? (? & ?). split; [lia|done]. Qed.

Lemma blocks_weak_lower lo lo' hi bs : lo' ≤ lo → blocks_weak lo hi bs → blocks_weak lo' hi bs.
Proof. destruct bs as [|[a n] bs]; simpl; [done|]. intros ? (? & ?). split; [lia|done]. Qed.

Lemma blocks_ok_weak lo hi bs : blocks_ok lo hi bs → blocks_weak lo hi bs.
Proof.
  revert lo. induction bs as [|[a n] bs IH]; intros lo; simpl; [done|].
  intros (? & ? & ? & H). split_and!; try done. eapply blocks_weak_lower, IH, H. lia.
Qed.

Lemma blocks_weak_app lo hi xs a n ys :
  blocks_weak lo hi (xs ++ (a, n) :: ys) ↔
    blocks_weak lo a xs ∧ (lo ≤ a ∧ FreeBlock_SIZE ≤ n ∧ a + n ≤ hi) ∧ blocks_weak (a + n) hi ys.
Proof.
  revert lo. induction xs as [|[b k] xs IH]; intros lo; simpl.
  - tauto.
  - rewrite IH. unfold FreeBlock_SIZE. split.
    + intros (? & ? & ? & Hx & (? & ? & ?) & Hy). split_and!; (done || lia).
    + intros ((? & ? & ? & Hx) & (? & ? & ?) & Hy). split_and!; (done || lia).
Qed.

Lemma blocks_weak_in lo hi bs b :
  blocks_weak lo hi bs → b ∈ bs → lo ≤ b.1 ∧ FreeBlock_SIZE ≤ b.2 ∧ b.1 + b.2 ≤ hi.
Proof.
  revert lo. induction bs as [|[a n] bs IH]; intros lo; simpl; [by intros _ ?%not_elem_of_nil|].
  intros (? & ? & ? & H) [->|Hb]%elem_of_cons; [done|].
  destruct (IH (a + n) H Hb) as (? & ? & ?). unfold FreeBlock_SIZE in *. lia.
Qed.

(** Below and above a block, headers are out of reach. *)
Lemma weak_clear_below lo hi bs x : blocks_weak lo hi bs → hi ≤ x → clear_of x bs.
Proof.
  intros H Hx. apply Forall_forall. intros b Hb.
  destruct (blocks_weak_in lo hi bs b H Hb) as (? & ? & ?). unfold apart, FreeBlock_SIZE in *. lia.
Qed.

Lemma weak_clear_above lo hi bs x : blocks_weak lo hi bs → x + 8 ≤ lo → clear_of x bs.
Proof.
  intros H Hx. apply Forall_forall. intros b Hb.
  destruct (blocks_weak_in lo hi bs b H Hb) as (? & ? & ?). unfold apart, FreeBlock_SIZE in *. lia.
Qed.

Lemma blocks_count lo hi bs :
  blocks_weak lo hi bs → bs = [] ∨ Z.of_nat (length bs) * FreeBlock_SIZE ≤ hi - lo.
Proof.
  unfold FreeBlock_SIZE. revert lo. induction bs as [|[a n] bs IH]; intros lo; simpl; [by left|].
  unfold FreeBlock_SIZE. intros (? & ? & ? & H). right. destruct (IH _ H) as [->|]; simpl; lia.
Qed.

(** ** [insert_free_block_sorted] *)

Definition last_addr (d : Z) (pre : list block) : Z :=
  match last pre with Some b => b.1 | None => d end.

Lemma last_addr_cons d a n pre : last_addr d ((a, n) :: pre) = last_addr a pre.
Proof. unfold last_addr. rewrite last_cons. by destruct (last pre). Qed.

Lemma last_addr_snoc d pre p q : last_addr d (pre ++ [(p, q)]) = p.
Proof. unfold last_addr. by rewrite last_snoc. Qed.

Lemma find_position_ok hm a pre prev head mid fuel :
  lseg hm head pre mid → Forall (λ b, b.1 < a) pre → mid = 0 ∨ a ≤ mid →
  (length pre ≤ fuel)%nat → find_position fuel hm a prev head = Done (last_addr prev pre, mid).
Proof.
  revert prev head fuel. induction pre as [|[b k] pre IH]; intros prev head fuel Hl Hlt Hmid Hf.
  - simpl in Hl. subst head. destruct fuel; cbn [find_position];
      destruct Hmid as [->|Hm]; [done| |done|]; rewrite (proj2 (Z.leb_le a mid) Hm), orb_true_r; done.
  - destruct Hl as (-> & Hb & _ & Hl). apply Forall_cons in Hlt as [Hlt Hlts]. cbn [fst] in Hlt.
    destruct fuel as [|fuel]; [simpl in Hf; lia|]. cbn [find_position].
    rewrite (proj2 (Z.eqb_neq b 0) Hb), (proj2 (Z.leb_gt a b) Hlt). cbn [orb].
    rewrite (IH b) by (done || simpl in Hf; lia). by rewrite last_addr_cons.
Qed.

(** The headers an insertion may write. *)
Definition headers (bs : list block) (x : Z) : Prop := ∃ b, b ∈ bs ∧ span b.1 16 x.

Lemma headers_store bs hm b x v :
  b ∈ bs → x = b.1 ∨ x = b.1 + 8 → agree_off (headers bs) hm (store64 hm x v).
Proof.
  intros Hb Hx. apply agree_off_store64. intros i Hi. exists b. split; [done|]. unfold span. lia.
Qed.

(** Linking the new node between its neighbours. *)
Lemma splice_ok h hm pre a n post lo hi :
  lseg hm (free_list h) (pre ++ post) 0 → blocks_weak lo hi (pre ++ (a, n) :: post) →
  0 < lo → hi < W64 →
  ∃ mid h1 hm1,
    lseg hm (free_list h) pre mid ∧ (mid = 0 ∨ a ≤ mid) ∧
    mid = match post with (b, _) :: _ => b | [] => 0 end ∧
    (if last_addr 0 pre =? 0
     then (set_free_list_head h a, set_next (set_size hm a n) a mid)
     else (h, set_next (set_next (set_size hm a n) a mid) (last_addr 0 pre) a)) = (h1, hm1) ∧
    h1 = set_free_list_head h (free_list h1) ∧
    lseg hm1 (free_list h1) (pre ++ (a, n) :: post) 0 ∧
    agree_off (headers (pre ++ (a, n) :: post)) hm hm1.
Proof.
  intros Hl Hw Hlo Hhi. apply lseg_app in Hl as (mid & Hpre & Hpost).
  apply blocks_weak_app in Hw as (Wpre & (Ha1 & Hn & Ha2) & Wpost). unfold FreeBlock_SIZE in Hn.
  assert (mid = match post with (b, _) :: _ => b | [] => 0 end) as Emid.
  { destruct post as [|[b k] post]; simpl in Hpost; tauto. }
  assert (mid = 0 ∨ a + n ≤ mid) as Hmid.
  { destruct post as [|[b k] post]; [by left|right]. simpl in Wpost. lia. }
  assert (in_u64 mid) as Hmu.
  { destruct post as [|[b k] post]; subst mid; [by split|]. simpl in Wpost.
    unfold in_u64, FreeBlock_SIZE in *. lia. }
  assert (lseg (set_next (set_size hm a n) a mid) a ((a, n) :: post) 0) as Hnew.
  { apply node_new; [lia|unfold in_u64; lia|done|..|done].
    - eapply weak_clear_above; [exact Wpost|lia].
    - eapply weak_clear_above; [exact Wpost|lia]. }
  assert ((a, n) ∈ pre ++ (a, n) :: post) as Hin by (apply elem_of_app; right; left).
  assert (agree_off (headers (pre ++ (a, n) :: post)) hm (set_next (set_size hm a n) a mid)) as Hag.
  { eapply agree_off_trans; apply (headers_store _ _ (a, n)); auto. }
  exists mid. destruct pre as [|[p q] pre _] using rev_ind.
  { do 2 eexists. split; [done|]. split; [destruct Hmid; [by left|right; lia]|].
    split; [done|]. split; [reflexivity|]. split_and!; done. }
  rewrite !last_addr_snoc.
  apply blocks_weak_app in Wpre as (Wpre & (Hp1 & Hq & Hp2) & _). unfold FreeBlock_SIZE in Hq.
  rewrite (proj2 (Z.eqb_neq p 0)) by lia. do 2 eexists. split; [done|].
  split; [destruct Hmid; [by left|right; lia]|]. split; [done|]. split; [reflexivity|].
  split; [by destruct h|]. split.
  - rewrite <- app_assoc. cbn [app]. eapply node_next; [|unfold in_u64; lia|exact Hnew|].
    + apply Forall_app. split; [eapply weak_clear_below; [exact Wpre|lia]|].
      apply Forall_cons. cbn [fst]. split; [unfold apart; lia|].
      eapply weak_clear_above; [exact Wpost|lia].
    + apply lseg_store; [|apply lseg_store; [|exact Hpre]];
        apply Forall_app; split; (eapply weak_clear_below; [exact Wpre|lia]) ||
        (apply Forall_cons; cbn [fst]; split; [unfold apart; lia|constructor]).
  - eapply agree_off_trans; [exact Hag|]. apply (headers_store _ _ (p, q)); [|by right].
    rewrite <- app_assoc. apply elem_of_app. right. left.
Qed.

(** Forward merge: absorbing the following block when the two touch. *)
Lemma forward_ok hm head pre a n post lo hi :
  let mid := match post with (b, _) :: _ => b | [] => 0 end in
  let '(blk', post') := merge_next (a, n) post in
  lseg hm head (pre ++ (a, n) :: post) 0 → blocks_weak lo hi (pre ++ (a, n) :: post) →
  0 < lo → hi < W64 →
  ∃ hm1,
    (if negb (mid =? 0) && (a ⊞ get_size hm a =? mid) then
       set_next (set_size hm a (get_size hm a ⊞ get_size hm mid)) a
         (get_next (set_size hm a (get_size hm a ⊞ get_size hm mid)) mid)
     else hm) = hm1 ∧
    blk'.1 = a ∧ lseg hm1 head (pre ++ blk' :: post') 0 ∧ blocks_weak lo hi (pre ++ blk' :: post') ∧
    agree_off (headers (pre ++ (a, n) :: post)) hm hm1.
Proof.
  intros mid. unfold merge_next, mid. destruct post as [|[b k] post].
  { intros. exists hm. by split_and!. }
  cbn [fst snd]. destruct (Z.eqb_spec (a + n) b) as [E|E]; intros Hl Hw Hlo Hhi;
    pose proof Hl as (m1 & Hl1 & -> & Ha0 & Hsz & _ & Hb0 & Hsb & Hnb)%lseg_app;
    pose proof Hw as (Wpre & (Ha1 & Hn & Ha2) & (Hb1 & Hk & Hb2 & Wpost))%blocks_weak_app;
    rewrite (proj2 (Z.eqb_neq _ 0) Hb0); cbn [negb andb]; rewrite Hsz;
    rewrite (u64_small (a + n)) by (unfold FreeBlock_SIZE in *; lia).
  2: { rewrite (proj2 (Z.eqb_neq (a + n) b)) by done.
       exists hm. by split_and!. }
  unfold FreeBlock_SIZE in *. rewrite E, Z.eqb_refl. rewrite Hsb. rewrite (u64_small (n + k)) by lia.
  eexists. split; [done|]. split; [done|].
  assert (clear_of (a + 8) (pre ++ post) ∧ clear_of a (pre ++ post)) as (Ca8 & Ca).
  { split_and!; apply Forall_app; split;
      (eapply weak_clear_below; [exact Wpre|lia]) || (eapply weak_clear_above; [exact Wpost|lia]). }
  split_and!.
  - eapply node_next; [done|apply load64_range| |].
    + assert (get_next (set_size hm a (n + k)) b = get_next hm b) as ->.
      { apply load64_store64_ne. unfold apart. lia. }
      apply lseg_store; [by apply Forall_app in Ca as [_ ?]|done].
    + eapply node_size; [|unfold in_u64; lia|exact Hl].
      apply Forall_app in Ca as [? ?]. apply Forall_app. split; [done|]. apply Forall_cons.
      split; [|done]. unfold apart. cbn [fst]. lia.
  - apply blocks_weak_app. unfold FreeBlock_SIZE. split_and!; [done|lia..|].
    eapply blocks_weak_lower, Wpost. lia.
  - eapply agree_off_trans; apply (headers_store _ _ (a, n)); auto; apply elem_of_app; right; left.
Qed.

Lemma merge_prev_snoc pre p q blk post :
  merge_prev (pre ++ [(p, q)]) blk post =
    pre ++ (if p + q =? blk.1 then (p, q + blk.2) :: post else (p, q) :: blk :: post).
Proof.
  induction pre as [|b pre IH]; [done|]. destruct b as [b k]. cbn [app merge_prev].
  destruct (pre ++ [(p, q)]) eqn:E; [by destruct pre|]. by rewrite IH.
Qed.

(** Backward merge: the preceding block absorbs the new one when they touch. *)
Lemma backward_ok hm head pre a n post lo hi :
  lseg hm head (pre ++ (a, n) :: post) 0 → blocks_weak lo hi (pre ++ (a, n) :: post) →
  0 < lo → hi < W64 →
  ∃ hm1,
    (let prev := last_addr 0 pre in
     if negb (prev =? 0) && (prev ⊞ get_size hm prev =? a) then
       set_next (set_size hm prev (get_size hm prev ⊞ get_size hm a)) prev
         (get_next (set_size hm prev (get_size hm prev ⊞ get_size hm a)) a)
     else hm) = hm1 ∧
    lseg hm1 head (merge_prev pre (a, n) post) 0 ∧
    agree_off (headers (pre ++ (a, n) :: post)) hm hm1.
Proof.
  intros Hl Hw Hlo Hhi. destruct pre as [|[p q] pre _] using rev_ind.
  { exists hm. by split_and!. }
  cbv zeta. rewrite !last_addr_snoc.
  rewrite merge_prev_snoc. rewrite <- app_assoc in Hl, Hw |- *. cbn [app] in *.
  pose proof Hl as (m1 & Hl1 & -> & Hp0 & Hsp & _ & Ha0 & Hsa & Hna)%lseg_app.
  pose proof Hw as (Wpre & (Hp1 & Hq & Hp2) & (Ha1 & Hn & Ha2 & Wpost))%blocks_weak_app.
  unfold FreeBlock_SIZE in *. rewrite (proj2 (Z.eqb_neq p 0) Hp0). cbn [negb andb fst snd].
  rewrite Hsp, Hsa, (u64_small (p + q)) by lia.
  destruct (Z.eqb_spec (p + q) a) as [E|E].
  2: { exists hm. by split_and!. }
  rewrite (u64_small (q + n)) by lia. eexists. split; [done|].
  assert (clear_of (p + 8) (pre ++ post) ∧ clear_of p (pre ++ post)) as (Cp8 & Cp).
  { split_and!; apply Forall_app; split;
      (eapply weak_clear_below; [exact Wpre|lia]) || (eapply weak_clear_above; [exact Wpost|lia]). }
  split.
  - eapply node_next; [done|apply load64_range| |].
    + assert (get_next (set_size hm p (q + n)) a = get_next hm a) as ->.
      { apply load64_store64_ne. unfold apart. lia. }
      apply lseg_store; [by apply Forall_app in Cp as [_ ?]|done].
    + eapply node_size; [|unfold in_u64; lia|exact Hl].
      apply Forall_app in Cp as [? ?]. apply Forall_app. split; [done|]. apply Forall_cons.
      split; [|done]. unfold apart. cbn [fst]. lia.
  - eapply agree_off_trans; apply (headers_store _ _ (p, q)); auto; apply elem_of_app; right; left.
Qed.

Definition same_range (h h' : KernelHeap) : Prop := h' = set_free_list_head h (free_list h').

(** The whole insertion, at a given position of the list. *)
Lemma insert_at_ok h hm pre a n post lo hi :
  lseg hm (free_list h) (pre ++ post) 0 → blocks_weak lo hi (pre ++ (a, n) :: post) →
  0 < lo → hi < W64 → (length pre ≤ list_fuel h)%nat →
  ∃ h' hm', insert_free_block_sorted h hm a n = Done (h', hm') ∧ same_range h h' ∧
    lseg hm' (free_list h') (glue pre (a, n) post) 0 ∧
    agree_off (headers (pre ++ (a, n) :: post)) hm hm'.
Proof.
  intros Hl Hw Hlo Hhi Hf.
  destruct (splice_ok h hm pre a n post lo hi Hl Hw Hlo Hhi)
    as (mid & h1 & hm1 & Hl1 & Hmid & Emid & Esp & Hh & Hl2 & A1).
  pose proof Hw as (Wpre & (Ha1 & Hn & Ha2) & _)%blocks_weak_app.
  unfold insert_free_block_sorted. unfold FreeBlock_SIZE in *. rewrite (proj2 (Z.ltb_ge n 16)) by lia.
  rewrite (find_position_ok hm a pre 0 (free_list h) mid) by
    (done || (apply Forall_forall; intros b Hb; destruct (blocks_weak_in _ _ _ _ Wpre Hb);
      unfold FreeBlock_SIZE in *; lia)).
  cbn [mbind outcome_bind]. rewrite Esp.
  pose proof (forward_ok hm1 (free_list h1) pre a n post lo hi) as Hfw.
  unfold glue. destruct (merge_next (a, n) post) as [[a' n'] post'] eqn:Emn.
  rewrite <- Emid in Hfw. destruct (Hfw Hl2 Hw Hlo Hhi) as (hm2 & E2 & Ea & Hl3 & Hw3 & A2).
  cbn [fst] in Ea. subst a'. cbv zeta. rewrite E2.
  destruct (backward_ok hm2 (free_list h1) pre a n' post' lo hi Hl3 Hw3 Hlo Hhi) as (hm3 & E3 & Hl4 & A3).
  cbv zeta in E3. rewrite E3. exists h1, hm3. split; [done|]. split; [done|]. split; [done|].
  eapply agree_off_trans; [exact A1|]. eapply agree_off_trans; [exact A2|].
  eapply agree_off_mono; [|exact A3]. intros x (b & Hb & Hx).
  apply elem_of_app in Hb as [Hb|[->|Hb]%elem_of_cons].
  - exists b. split; [apply elem_of_app; by left|done].
  - exists (a, n). split; [apply elem_of_app; right; left|done].
  - exists b. split; [|done]. apply elem_of_app. right. right.
    unfold merge_next in Emn. destruct post as [|[b0 k0] post]; simplify_eq; [done|].
    cbn [fst snd] in Emn. destruct (a + n =? b0); injection Emn as <- <-; [by right|done].
Qed.

(** ** The abstract operations *)

Lemma blocks_ok_app lo hi xs a n ys :
  blocks_ok lo hi (xs ++ (a, n) :: ys) ↔
    blocks_ok lo (a - 1) xs ∧ (lo ≤ a ∧ FreeBlock_SIZE ≤ n ∧ a + n ≤ hi) ∧ blocks_ok (a + n + 1) hi ys.
Proof.
  revert lo. induction xs as [|[b k] xs IH]; intros lo; simpl; [tauto|].
  rewrite IH. unfold FreeBlock_SIZE. split.
  - intros (? & ? & ? & Hx & (? & ? & ?) & Hy). split_and!; (done || lia).
  - intros ((? & ? & ? & Hx) & (? & ? & ?) & Hy). split_and!; (done || lia).
Qed.

Lemma blocks_ok_upper lo hi hi' bs : hi ≤ hi' → blocks_ok lo hi bs → blocks_ok lo hi' bs.
Proof.
  intros Hh. revert lo. induction bs as [|[a n] bs IH]; intros lo; simpl; [done|].
  intros (? & ? & ? & ?). split_and!; try (done || lia). by apply IH.
Qed.

Lemma free_byte_nil x : free_byte [] x ↔ False.
Proof. split; [|done]. by intros (b & ?%not_elem_of_nil & _). Qed.

Lemma free_byte_cons b bs x : free_byte (b :: bs) x ↔ span b.1 b.2 x ∨ free_byte bs x.
Proof.
  unfold free_byte. setoid_rewrite elem_of_cons. split.
  - intros (c & [->|Hc] & ?); [by left|right; eauto].
  - intros [?|(c & Hc & ?)]; eauto.
Qed.

Lemma free_byte_app xs ys x : free_byte (xs ++ ys) x ↔ free_byte xs x ∨ free_byte ys x.
Proof.
  induction xs as [|b xs IH]; simpl.
  - rewrite free_byte_nil. tauto.
  - rewrite !free_byte_cons, IH. tauto.
Qed.

Lemma free_byte_range lo hi bs x : blocks_weak lo hi bs → free_byte bs x → lo ≤ x < hi.
Proof.
  intros H (b & Hb & Hx). destruct (blocks_weak_in lo hi bs b H Hb) as (? & ? & ?).
  unfold span in Hx. lia.
Qed.

Lemma headers_free lo hi bs x : blocks_weak lo hi bs → headers bs x → free_byte bs x.
Proof.
  intros H (b & Hb & Hx). destruct (blocks_weak_in lo hi bs b H Hb) as (? & ? & ?).
  exists b. split; [done|]. unfold span, FreeBlock_SIZE in *. lia.
Qed.

(** Insertion adds exactly the new bytes ... *)
Lemma glue_bytes pre a n post x :
  0 ≤ n → Forall (λ b, 0 ≤ b.2) (pre ++ post) →
  free_byte (glue pre (a, n) post) x ↔ free_byte (pre ++ post) x ∨ span a n x.
Proof.
  intros Hn [Hpre Hpost]%Forall_app. unfold glue.
  assert (∃ n' post', merge_next (a, n) post = ((a, n'), post') ∧ 0 ≤ n' ∧
    ∀ y, span a n' y ∨ free_byte post' y ↔ span a n y ∨ free_byte post y) as (n' & post' & -> & Hn' & Hm).
  { unfold merge_next. destruct post as [|[b k] post]; [eauto 10|]. cbn [fst snd].
    apply Forall_cons in Hpost as [Hk _]. cbn in Hk.
    destruct (Z.eqb_spec (a + n) b) as [<-|]; [|eauto 10].
    do 2 eexists. split; [done|]. split; [lia|]. intros y. rewrite free_byte_cons.
    unfold span. cbn [fst snd]. destruct (decide (a + n ≤ y < a + n + k)); [|intuition lia].
    intuition lia. }
  destruct pre as [|[p q] pre _] using rev_ind.
  { cbn [merge_prev app]. rewrite free_byte_cons. cbn [fst snd]. rewrite Hm. tauto. }
  rewrite merge_prev_snoc, !free_byte_app. cbn [fst snd].
  apply Forall_app in Hpre as [_ Hq]. apply Forall_cons in Hq as [Hq _]. cbn in Hq.
  specialize (Hm x). destruct (Z.eqb_spec (p + q) a) as [<-|];
    rewrite ?free_byte_cons, ?free_byte_nil; cbn [fst snd]; unfold span in *; [|tauto].
  assert (p ≤ x < p + (q + n') ↔ p ≤ x < p + q ∨ p + q ≤ x < p + q + n') as -> by lia. tauto.
Qed.

(** ... and restores the invariant: neighbours that touch are merged. *)
Lemma glue_ok lo hi pre a n post :
  blocks_ok lo hi (pre ++ post) → blocks_weak lo hi (pre ++ (a, n) :: post) →
  blocks_ok lo hi (glue pre (a, n) post).
Proof.
  intros Hok Hw. pose proof Hw as (Wpre & (Ha1 & Hn & Ha2) & Wpost)%blocks_weak_app.
  unfold glue.
  assert (∃ n' post', merge_next (a, n) post = ((a, n'), post') ∧
    blocks_ok a hi ((a, n') :: post')) as (n' & post' & -> & Hnext).
  { unfold merge_next. destruct post as [|[b k] post]; cbn [fst snd].
    - do 2 eexists. split; [done|]. cbn. split_and!; (done || lia).
    - apply blocks_ok_app in Hok as (_ & (? & ? & ?) & Hpost). cbn in Wpost. unfold FreeBlock_SIZE in *.
      destruct (Z.eqb_spec (a + n) b) as [<-|]; do 2 eexists; (split; [done|]); cbn;
        unfold FreeBlock_SIZE; split_and!; try (done || lia).
      by replace (a + (n + k) + 1) with (a + n + k + 1) by lia. }
  destruct pre as [|[p q] pre _] using rev_ind.
  { cbn [merge_prev]. eapply blocks_ok_lower, Hnext. lia. }
  rewrite merge_prev_snoc. rewrite <- app_assoc in Hok. cbn [app] in Hok.
  apply blocks_ok_app in Hok as (Hpre & (? & ? & ?) & _).
  apply blocks_weak_app in Wpre as (_ & (_ & _ & Hpa) & _).
  cbn in Hnext. destruct Hnext as (_ & Hn' & Hn2 & Hpost'). unfold FreeBlock_SIZE in *. cbn [fst snd].
  destruct (Z.eqb_spec (p + q) a) as [E|E]; apply blocks_ok_app; unfold FreeBlock_SIZE;
    split_and!; try (done || lia).
  - by replace (p + (q + n') + 1) with (a + n' + 1) by lia.
  - cbn. unfold FreeBlock_SIZE. split_and!; (done || lia).
Qed.

(** A well-formed list is determined by the bytes it covers. *)
Lemma blocks_canonical lo hi xs ys :
  blocks_ok lo hi xs → blocks_ok lo hi ys → (∀ x, free_byte xs x ↔ free_byte ys x) → xs = ys.
Proof.
  revert lo ys. induction xs as [|[a n] xs IH]; intros lo [|[b k] ys] Hx Hy Heq.
  - done.
  - exfalso. apply (free_byte_nil b), Heq, free_byte_cons. left. cbn in *. unfold span, FreeBlock_SIZE in *. cbn. lia.
  - exfalso. apply (free_byte_nil a), Heq, free_byte_cons. left. cbn in *. unfold span, FreeBlock_SIZE in *. cbn. lia.
  - cbn in Hx, Hy. destruct Hx as (Ha & Hn & Hn2 & Hx), Hy as (Hb & Hk & Hk2 & Hy).
    unfold FreeBlock_SIZE in *. pose proof (blocks_ok_weak _ _ _ Hx) as Wx.
    pose proof (blocks_ok_weak _ _ _ Hy) as Wy.
    assert (∀ x, free_byte ((a, n) :: xs) x ↔ a ≤ x < a + n ∨ (a + n + 1 ≤ x ∧ free_byte xs x)) as Ex.
    { intros x. rewrite free_byte_cons. unfold span. cbn [fst snd]. split; [|tauto].
      intros [?|Hf]; [by left|right]. split; [|done]. apply (free_byte_range _ _ _ _ Wx Hf). }
    assert (∀ x, free_byte ((b, k) :: ys) x ↔ b ≤ x < b + k ∨ (b + k + 1 ≤ x ∧ free_byte ys x)) as Ey.
    { intros x. rewrite free_byte_cons. unfold span. cbn [fst snd]. split; [|tauto].
      intros [?|Hf]; [by left|right]. split; [|done]. apply (free_byte_range _ _ _ _ Wy Hf). }
    assert (∀ x, a ≤ x < a + n ∨ (a + n + 1 ≤ x ∧ free_byte xs x) ↔
      b ≤ x < b + k ∨ (b + k + 1 ≤ x ∧ free_byte ys x)) as E by (intros x; by rewrite <- Ex, <- Ey).
    assert (a = b) as ->. { pose proof (E a). pose proof (E b). lia. }
    assert (n = k) as ->. { pose proof (E (b + n)). pose proof (E (b + k)). lia. }
    f_equal. apply (IH (b + k + 1)); try done. intros x. specialize (E x).
    split; intros Hf; [pose proof (free_byte_range _ _ _ _ Wx Hf)|pose proof (free_byte_range _ _ _ _ Wy Hf)];
      intuition lia.
Qed.

(** Where a region that shares no byte with the list goes. *)
Lemma before_after lo hi a bs :
  blocks_ok lo hi bs → bs = before a bs ++ after a bs.
Proof.
  unfold before, after. revert lo. induction bs as [|[b k] bs IH]; intros lo; [done|].
  cbn [blocks_ok]. intros (? & ? & ? & Hok). unfold FreeBlock_SIZE in *. rewrite !filter_cons. cbn [fst].
  destruct (decide (b < a)).
  - rewrite decide_False by lia. cbn [app]. f_equal. by apply (IH (b + k + 1)).
  - rewrite decide_True by lia.
    assert (Forall (λ c, a ≤ c.1) bs) as Hall.
    { apply Forall_forall. intros c Hc.
      destruct (blocks_weak_in _ _ _ c (blocks_ok_weak _ _ _ Hok) Hc). lia. }
    rewrite filter_none, filter_all; [done|done|].
    eapply Forall_impl; [exact Hall|]. intros c Hc. cbn in Hc. lia.
Qed.

Lemma region_fits lo hi a n bs :
  blocks_ok lo hi bs → lo ≤ a → FreeBlock_SIZE ≤ n → a + n ≤ hi →
  (∀ x, span a n x → ¬ free_byte bs x) →
  blocks_weak lo hi (before a bs ++ (a, n) :: after a bs).
Proof.
  intros Hok Ha Hn Hhi Hno. pose proof (before_after lo hi a bs Hok) as E.
  assert (∀ b, b ∈ bs → b.1 + b.2 ≤ a ∨ a + n ≤ b.1) as Hsep.
  { intros b Hb. destruct (blocks_weak_in _ _ _ b (blocks_ok_weak _ _ _ Hok) Hb) as (? & ? & ?).
    unfold FreeBlock_SIZE in *. destruct (decide (b.1 + b.2 ≤ a)) as [|Hc1]; [by left|].
    destruct (decide (a + n ≤ b.1)) as [|Hc2]; [by right|]. exfalso.
    apply (Hno (Z.max a b.1)); [unfold span; lia|]. exists b. split; [done|]. unfold span. lia. }
  assert (Forall (λ b, b.1 < a ∧ b.1 + b.2 ≤ a) (before a bs)) as Hb.
  { apply Forall_forall. intros b [Hlt Hb]%list_elem_of_filter. destruct (Hsep b Hb); [by split|].
    destruct (blocks_weak_in _ _ _ b (blocks_ok_weak _ _ _ Hok) Hb). unfold FreeBlock_SIZE in *. lia. }
  assert (Forall (λ b, a + n ≤ b.1) (after a bs)) as Hf.
  { apply Forall_forall. intros b [Hge Hb']%list_elem_of_filter. destruct (Hsep b Hb') as [Hs|?]; [|done].
    destruct (blocks_weak_in _ _ _ b (blocks_ok_weak _ _ _ Hok) Hb'). unfold FreeBlock_SIZE in *. lia. }
  rewrite E in Hok. revert Hok Hb Hf. generalize (before a bs) as pre, (after a bs) as post.
  intros pre post Hok Hb Hf. apply blocks_weak_app. split_and!; try done.
  - apply blocks_ok_weak in Hok. revert lo Ha Hok Hb. clear -Hn. induction pre as [|[b k] pre IH].
    + done.
    + cbn. intros lo Ha (? & ? & ? & H) [[? ?] Hb]%Forall_cons. split_and!; try done. by apply IH.
  - assert (blocks_weak lo hi post) as Hp.
    { clear -Hok. revert lo Hok. induction pre as [|[b k] pre IH]; intros lo; [by apply blocks_ok_weak|].
      cbn. intros (? & ? & ? & H). apply IH in H. eapply blocks_weak_lower; [|done].
      unfold FreeBlock_SIZE in *. lia. }
    destruct post as [|[b k] post]; [done|]. apply Forall_cons in Hf as [? _]. cbn in *. intuition lia.
Qed.

(** ** The heap invariant *)

Record heap_bounds (h : KernelHeap) : Prop := {
  hb_base : 0 < base h;
  hb_committed : 0 ≤ committed h ≤ max_size h;
  hb_end : base h + max_size h < W64;
}.

Record heap_repr (h : KernelHeap) (hm : mem) (bs : list block) : Prop := {
  hp_bounds : heap_bounds h;
  hp_list : lseg hm (free_list h) bs 0;
  hp_blocks : blocks_ok (base h) (base h + committed h) bs;
}.

Lemma list_fuel_enough h bs :
  heap_bounds h → blocks_weak (base h) (base h + committed h) bs → (length bs ≤ list_fuel h)%nat.
Proof.
  intros [? ? ?] Hw. unfold list_fuel. destruct (blocks_count _ _ _ Hw) as [->|Hc]; [simpl; lia|].
  unfold FreeBlock_SIZE in *. apply Nat2Z.inj_le. rewrite Z2Nat.id by (apply Z.div_pos; lia).
  apply Z.div_le_lower_bound; lia.
Qed.

Lemma same_range_bounds h h' : same_range h h' → heap_bounds h → heap_bounds h'.
Proof. intros -> [? ? ?]. by split. Qed.

Lemma insert_repr h hm bs a n :
  heap_repr h hm bs → base h ≤ a → FreeBlock_SIZE ≤ n → a + n ≤ base h + committed h →
  (∀ x, span a n x → ¬ free_byte bs x) →
  ∃ h' hm', insert_free_block_sorted h hm a n = Done (h', hm') ∧ same_range h h' ∧
    heap_repr h' hm' (insert_block a n bs) ∧
    agree_off (λ x, free_byte bs x ∨ span a n x) hm hm' ∧
    ∀ x, free_byte (insert_block a n bs) x ↔ free_byte bs x ∨ span a n x.
Proof.
  intros [Hb Hl Hok] Ha Hn He Hno. pose proof (region_fits _ _ a n bs Hok Ha Hn He Hno) as Hw.
  pose proof (before_after _ _ a bs Hok) as E. rewrite E in Hl, Hok.
  pose proof Hb as [? ? ?].
  destruct (insert_at_ok h hm (before a bs) a n (after a bs) (base h) (base h + committed h))
    as (h' & hm' & Hrun & Hs & Hl' & Hag); try done; [lia| |].
  { etransitivity; [|apply (list_fuel_enough h _ Hb (blocks_ok_weak _ _ _ Hok))].
    rewrite length_app. lia. }
  assert (∀ x, free_byte (insert_block a n bs) x ↔ free_byte bs x ∨ span a n x) as Hbytes.
  { intros x. unfold insert_block. unfold FreeBlock_SIZE in *. rewrite glue_bytes; [by rewrite <- E|lia|].
    apply Forall_forall. intros b Hin.
    destruct (blocks_weak_in _ _ _ b (blocks_ok_weak _ _ _ Hok) Hin) as (_ & ? & _).
    unfold FreeBlock_SIZE in *. lia. }
  exists h', hm'. split; [done|]. split; [done|]. split; [|split; [|done]].
  - split; [by eapply same_range_bounds|done|]. rewrite Hs. cbn. by apply glue_ok.
  - eapply agree_off_mono; [|done]. intros x Hx. apply (headers_free _ _ _ _ Hw) in Hx.
    rewrite free_byte_app, free_byte_cons in Hx. rewrite E, free_byte_app. cbn in Hx. tauto.
Qed.

(** ** [allocate] *)

(** What Rust guarantees of a [Layout], and sizes a heap can meet. *)
Definition layout_ok (lay : Layout) : Prop :=
  0 < layout_size lay ∧ layout_size lay < 2 ^ 62 ∧ ∃ k, 0 ≤ k < 62 ∧ layout_align lay = 2 ^ k.

Lemma allocation_sizes_ok lay :
  layout_ok lay →
  allocation_sizes lay =
    (Z.max 16 (layout_align lay) + layout_size lay, Z.max 16 (layout_align lay)).
Proof.
  intros (Hs & Hs2 & k & Hk & E). unfold allocation_sizes. rewrite E. unfold AllocHeader_SIZE.
  assert (0 < 2 ^ k < 2 ^ 62) as Hp by (split; [lia|by apply Z.pow_lt_mono_r; lia]).
  assert (Z.land (16 ⊞ 2 ^ k ⊟ 1) (not64 (2 ^ k ⊟ 1)) = Z.max 16 (2 ^ k)) as ->.
  { rewrite (u64_small (16 + 2 ^ k)), (u64_small (16 + 2 ^ k - 1)), (u64_small (2 ^ k - 1))
      by (unfold W64; lia).
    rewrite land_not64_mask by (unfold in_u64, W64; lia).
    destruct (decide (k ≤ 4)) as [H4|H4].
    - assert (k = 0 ∨ k = 1 ∨ k = 2 ∨ k = 3 ∨ k = 4) as [->|[->|[->|[->| ->]]]] by lia; done.
    - assert (2 ^ 5 ≤ 2 ^ k) by (apply Z.pow_le_mono_r; lia).
      replace (16 + 2 ^ k - 1) with (15 + 1 * 2 ^ k) by lia.
      rewrite Z.mod_add, Z.mod_small by lia. lia. }
  by rewrite u64_small by (unfold W64; lia).
Qed.

Lemma leftover_bytes a n t x :
  free_byte (leftover a n t) x ↔ FreeBlock_SIZE ≤ n - t ∧ a + t ≤ x < a + n.
Proof.
  unfold leftover. destruct (Z.leb_spec FreeBlock_SIZE (n - t)).
  - rewrite free_byte_cons, free_byte_nil. unfold span. cbn [fst snd]. lia.
  - rewrite free_byte_nil. lia.
Qed.

(** Taking a block apart leaves the other blocks and the rest of this one. *)
Lemma leftover_ok lo hi pre a n post t :
  0 ≤ t ≤ n → blocks_ok lo hi (pre ++ (a, n) :: post) →
  blocks_ok lo hi (pre ++ post) ∧ blocks_ok lo hi (pre ++ leftover a n t ++ post).
Proof.
  intros Ht Hok. pose proof Hok as (Hpre & (H1 & H2 & H3) & Hpost)%blocks_ok_app.
  unfold FreeBlock_SIZE in *.
  assert (blocks_ok lo hi (pre ++ post)) as Hpp.
  { destruct post as [|[b k] post].
    - rewrite app_nil_r. eapply blocks_ok_upper, Hpre. lia.
    - apply blocks_ok_app. cbn in Hpost. unfold FreeBlock_SIZE in *. split_and!; try (tauto || lia).
      eapply blocks_ok_upper, Hpre. lia. }
  split; [done|]. unfold leftover, FreeBlock_SIZE. destruct (Z.leb_spec 16 (n - t)); [|done].
  cbn [app]. apply blocks_ok_app. unfold FreeBlock_SIZE. split_and!; try lia.
  - eapply blocks_ok_upper, Hpre. lia.
  - by replace (a + t + (n - t) + 1) with (a + n + 1) by lia.
Qed.

(** The block [current] out of the list. *)
Lemma unlink_block h hm pre a n post lo hi :
  lseg hm (free_list h) (pre ++ (a, n) :: post) 0 → blocks_ok lo hi (pre ++ (a, n) :: post) →
  0 < lo → hi < W64 →
  ∃ h1 hm1,
    (if last_addr 0 pre =? 0 then (set_free_list_head h (get_next hm a), hm)
     else (h, set_next hm (last_addr 0 pre) (get_next hm a))) = (h1, hm1) ∧
    same_range h h1 ∧ lseg hm1 (free_list h1) (pre ++ post) 0 ∧
    agree_off (headers (pre ++ (a, n) :: post)) hm hm1.
Proof.
  intros Hl Hok Hlo Hhi. pose proof Hl as (m1 & Hpre & -> & _ & _ & Hpost)%lseg_app.
  pose proof (blocks_ok_weak _ _ _ Hok) as Hw.
  pose proof Hw as (Wpre & (Ha1 & Hn & Ha2) & Wpost)%blocks_weak_app.
  destruct pre as [|[p q] pre _] using rev_ind.
  { do 2 eexists. split; [reflexivity|]. by split_and!. }
  rewrite !last_addr_snoc.
  apply blocks_weak_app in Wpre as (Wpre & (Hp1 & Hq & Hp2) & _). unfold FreeBlock_SIZE in *.
  rewrite (proj2 (Z.eqb_neq p 0)) by lia. do 2 eexists. split; [reflexivity|].
  split; [by destruct h|]. rewrite <- app_assoc in Hl |- *. cbn [app] in *. split.
  - eapply node_next; [|apply load64_range|exact Hpost|exact Hl].
    apply Forall_app. split; [eapply weak_clear_below; [exact Wpre|lia]|].
    eapply weak_clear_above; [exact Wpost|lia].
  - apply (headers_store _ _ (p, q)); [|by right]. apply elem_of_app. left.
    apply elem_of_app. right. left.
Qed.

(** The fields [allocate] writes and [deallocate] reads: [t] bytes at [a], the
    data [off] bytes in. *)
Record alloc_block := { ab_start : Z; ab_total : Z; ab_offset : Z }.

Definition header_ok (hm : mem) (b : alloc_block) : Prop :=
  16 ≤ ab_offset b ≤ ab_total b ∧
  load64 hm (ab_start b) = ab_total b ∧
  load64 hm (ab_start b + ab_offset b - 8) = ab_offset b.

Lemma write_header hm a t off :
  in_u64 t → in_u64 off → 16 ≤ off ≤ t →
  header_ok (store64 (store64 (store64 hm a t) (a + 8) off) (a + off - 8) off)
    {| ab_start := a; ab_total := t; ab_offset := off |}.
Proof.
  intros Ht Ho Hr. split; [done|]. cbn. split.
  - rewrite !(load64_store64_ne _ _ a) by (unfold apart; lia). by apply load64_store64_same.
  - by apply load64_store64_same.
Qed.

(** A block that touches no other is inserted as it is. *)
Lemma glue_apart lo hi pre a n post :
  blocks_ok lo hi (pre ++ (a, n) :: post) → glue pre (a, n) post = pre ++ (a, n) :: post.
Proof.
  intros (Hpre & _ & Hpost)%blocks_ok_app. unfold glue.
  assert (merge_next (a, n) post = ((a, n), post)) as ->.
  { destruct post as [|[b k] post]; [done|]. cbn in Hpost |- *.
    rewrite (proj2 (Z.eqb_neq (a + n) b)) by lia. done. }
  destruct pre as [|[p q] pre _] using rev_ind; [done|].
  apply blocks_ok_app in Hpre as (_ & (_ & _ & Hpq) & _). rewrite merge_prev_snoc. cbn [fst].
  rewrite (proj2 (Z.eqb_neq (p + q) a)) by lia. by rewrite <- app_assoc.
Qed.

(** Giving the leftover of the chosen block back. *)
Lemma return_leftover h hm pre a n post t :
  heap_bounds h → blocks_ok (base h) (base h + committed h) (pre ++ (a, n) :: post) →
  lseg hm (free_list h) (pre ++ post) 0 → 0 ≤ t ≤ n →
  ∃ h' hm',
    (if FreeBlock_SIZE <=? n - t
     then insert_free_block_sorted h hm (a + t) (n - t) else Done (h, hm)) = Done (h', hm') ∧
    same_range h h' ∧ lseg hm' (free_list h') (pre ++ leftover a n t ++ post) 0 ∧
    agree_off (free_byte (pre ++ (a, n) :: post)) hm hm'.
Proof.
  intros Hb Hok Hl Ht. pose proof Hb as [Hb1 Hb2 Hb3].
  destruct (leftover_ok _ _ pre a n post t Ht Hok) as [Hok1 Hok2].
  unfold leftover in *. destruct (Z.leb_spec FreeBlock_SIZE (n - t)) as [Hle|].
  2: { exists h, hm. split_and!; try done. by destruct h. }
  cbn [app] in Hok2 |- *. pose proof (blocks_ok_weak _ _ _ Hok2) as Hw2.
  destruct (insert_at_ok h hm pre (a + t) (n - t) post (base h) (base h + committed h))
    as (h2 & hm2 & E2 & Hs2 & Hl2 & A2); try done; [lia| |].
  { etransitivity; [|apply (list_fuel_enough h _ Hb (blocks_ok_weak _ _ _ Hok1))].
    rewrite length_app. lia. }
  rewrite (glue_apart _ _ _ _ _ _ Hok2) in Hl2.
  exists h2, hm2. split_and!; try done. eapply agree_off_mono; [|exact A2]. intros x Hx.
  apply (headers_free _ _ _ _ Hw2) in Hx. rewrite free_byte_app, free_byte_cons in *.
  unfold span in *. cbn [fst snd] in *. intuition lia.
Qed.

Lemma free_byte_clear lo hi bs x a n :
  blocks_weak lo hi bs → (∀ y, span a n y → ¬ free_byte bs y) → a ≤ x → x + 8 ≤ a + n → clear_of x bs.
Proof.
  intros Hw Hno H1 H2. apply Forall_forall. intros b Hb.
  destruct (blocks_weak_in _ _ _ b Hw Hb) as (? & ? & ?). unfold FreeBlock_SIZE, apart in *.
  destruct (decide (x + 8 ≤ b.1)) as [|Hc1]; [by left|].
  destruct (decide (b.1 + 16 ≤ x)) as [|Hc2]; [by right|]. exfalso.
  apply (Hno (Z.max x b.1)); [unfold span; lia|]. exists b. split; [done|]. unfold span. lia.
Qed.

Lemma carve_ok h hm pre a n post t off :
  heap_repr h hm (pre ++ (a, n) :: post) → 16 ≤ off ≤ t → t ≤ n →
  ∃ h' hm', carve h hm t off (last_addr 0 pre) a = Done (a + off, h', hm') ∧ same_range h h' ∧
    heap_repr h' hm' (pre ++ leftover a n t ++ post) ∧
    header_ok hm' {| ab_start := a; ab_total := t; ab_offset := off |} ∧
    agree_off (free_byte (pre ++ (a, n) :: post)) hm hm'.
Proof.
  intros [Hb Hl Hok] Hoff Ht. pose proof Hb as [Hb1 Hb2 Hb3].
  pose proof (blocks_ok_weak _ _ _ Hok) as Hw.
  pose proof Hw as (Wpre & (Ha1 & Hn & Ha2) & Wpost)%blocks_weak_app. unfold FreeBlock_SIZE in Hn.
  assert (get_size hm a = n) as Hsz.
  { apply lseg_app in Hl as (m1 & _ & -> & _ & ? & _). done. }
  destruct (unlink_block h hm pre a n post _ _ Hl Hok) as (h1 & hm1 & E1 & Hs1 & Hl1 & A1); [lia..|].
  destruct (leftover_ok _ _ pre a n post t ltac:(lia) Hok) as [_ Hok2].
  assert (∀ y, span a t y → ¬ free_byte (pre ++ leftover a n t ++ post) y) as Hout.
  { intros y Hy. rewrite !free_byte_app, leftover_bytes. unfold span in Hy.
    intros [Hf|[Hf|Hf]]; [|lia|].
    - apply (free_byte_range _ _ _ _ Wpre) in Hf. lia.
    - apply (free_byte_range _ _ _ _ Wpost) in Hf. lia. }
  destruct (return_leftover h1 hm1 pre a n post t) as (h2 & hm2 & E2 & Hs2 & Hl2 & A2);
    [by eapply same_range_bounds|by rewrite Hs1|done|lia|].
  unfold carve. rewrite E1, Hsz. rewrite (u64_small (n - t)), (u64_small (a + t)) by lia.
  rewrite E2. cbn [mbind outcome_bind].
  rewrite (u64_small (a + off)), (u64_small (a + off - 8)) by lia.
  do 2 eexists. split; [done|]. split; [by rewrite Hs2, Hs1|]. split; [|split].
  - split; [by do 2 (eapply same_range_bounds; [eassumption|])| |by rewrite Hs2, Hs1].
    pose proof (blocks_ok_weak _ _ _ Hok2) as Hw2.
    do 3 (apply lseg_store; [by eapply (free_byte_clear _ _ _ _ a t); (done || lia)|]). done.
  - apply write_header; unfold in_u64; lia.
  - eapply agree_off_trans; [eapply agree_off_mono; [|exact A1]|].
    { intros x Hx. by apply (headers_free _ _ _ _ Hw). }
    eapply agree_off_trans; [exact A2|].
    assert (∀ x v hm, a ≤ x → x + 8 ≤ a + t →
      agree_off (free_byte (pre ++ (a, n) :: post)) hm (store64 hm x v)) as Hst.
    { intros x v hm0 H1 H2. apply agree_off_store64. intros i Hi.
      apply free_byte_app. right. apply free_byte_cons. left. unfold span. cbn. lia. }
    do 2 (eapply agree_off_trans; [|apply Hst; lia]). apply Hst; lia.
Qed.

(** The search: blocks that are too small are passed over. *)
Lemma allocate_loop_search fuel h hm mm pm t off pre a n post done_ :
  lseg hm (free_list h) (done_ ++ pre ++ (a, n) :: post) 0 →
  Forall (λ b, b.2 < t) pre → t ≤ n → (length pre < fuel)%nat →
  allocate_loop fuel h hm mm pm t off (last_addr 0 done_)
    (match pre with (b, _) :: _ => b | [] => a end)
  = '(p, h, hm) ← carve h hm t off (last_addr 0 (done_ ++ pre)) a; Done (p, h, hm, mm, pm).
Proof.
  revert fuel done_. induction pre as [|[b k] pre IH]; intros fuel done_ Hl Hsm Ht Hf;
    (destruct fuel as [|fuel]; [simpl in Hf; lia|]); cbn [allocate_loop app] in *.
  - rewrite app_nil_r. apply lseg_app in Hl as (m1 & _ & -> & Ha & -> & _).
    rewrite (proj2 (Z.eqb_neq a 0) Ha), (proj2 (Z.leb_le t n)) by lia. done.
  - pose proof Hl as (m1 & _ & -> & Hb & Hsz & Hnx)%lseg_app.
    apply Forall_cons in Hsm as [Hk Hsm]. cbn in Hk.
    rewrite (proj2 (Z.eqb_neq b 0) Hb), Hsz, (proj2 (Z.leb_gt t k)) by lia.
    assert (get_next hm b = match pre with (c, _) :: _ => c | [] => a end) as ->.
    { destruct pre as [|[c j] pre]; cbn in Hnx; tauto. }
    specialize (IH fuel (done_ ++ [(b, k)])). rewrite <- !app_assoc in IH. cbn [app] in IH.
    rewrite <- IH by (done || simpl in Hf; lia).
    by rewrite last_addr_snoc.
Qed.

Lemma first_fit_split t bs pre b post :
  first_fit t bs = Some (pre, b, post) →
  bs = pre ++ b :: post ∧ t ≤ b.2 ∧ Forall (λ c, c.2 < t) pre.
Proof.
  revert pre. induction bs as [|[a n] bs IH]; intros pre; cbn [first_fit]; [done|].
  destruct (Z.leb_spec t n).
  - intros [= <- <- <-]. done.
  - destruct (first_fit t bs) as [[[pre' b'] post']|]; [|done]. cbn. intros [= <- <- <-].
    destruct (IH pre' eq_refl) as (-> & ? & ?). split; [done|]. split; [done|]. by constructor.
Qed.

Lemma first_fit_none t bs : first_fit t bs = None → Forall (λ c, c.2 < t) bs.
Proof.
  induction bs as [|[a n] bs IH]; cbn [first_fit]; [constructor|].
  destruct (Z.leb_spec t n); [done|]. destruct (first_fit t bs) as [[[pre' b'] post']|]; [done|].
  intros _. constructor; [done|by apply IH].
Qed.

Lemma first_fit_some t bs : Exists (λ c, t ≤ c.2) bs → is_Some (first_fit t bs).
Proof.
  intros H. destruct (first_fit t bs) eqn:E; [done|]. exfalso. apply first_fit_none in E.
  rewrite Exists_exists in H. rewrite Forall_forall in E. destruct H as (c & Hc & ?).
  specialize (E c Hc). cbn in E. lia.
Qed.

(** A pass that finds nothing ends at the end of the list. *)
Lemma allocate_loop_pass fuel h hm mm pm t off bs done_ :
  lseg hm (free_list h) (done_ ++ bs) 0 → Forall (λ b, b.2 < t) bs →
  allocate_loop (length bs + fuel) h hm mm pm t off (last_addr 0 done_)
    (match bs with (b, _) :: _ => b | [] => 0 end)
  = allocate_loop fuel h hm mm pm t off (last_addr 0 (done_ ++ bs)) 0.
Proof.
  revert done_. induction bs as [|[b k] bs IH]; intros done_ Hl Hsm; [by rewrite app_nil_r|].
  cbn [length Nat.add allocate_loop]. pose proof Hl as (m1 & _ & -> & Hb & Hsz & Hnx)%lseg_app.
  apply Forall_cons in Hsm as [Hk Hsm]. cbn in Hk.
  rewrite (proj2 (Z.eqb_neq b 0) Hb), Hsz, (proj2 (Z.leb_gt t k)) by lia.
  assert (get_next hm b = match bs with (c, _) :: _ => c | [] => 0 end) as ->.
  { destruct bs as [|[c j] bs]; cbn in Hnx; tauto. }
  specialize (IH (done_ ++ [(b, k)])). rewrite <- !app_assoc in IH. cbn [app] in IH.
  rewrite <- IH by done. by rewrite last_addr_snoc.
Qed.

(** ** [grow] *)

(** The [i]-th new page of a growing heap, and the tables the pages need. *)
Definition heap_va (h : KernelHeap) (i : Z) : Z := base h + committed h + i * PAGE_SIZE.

Definition heap_tables (h : KernelHeap) (n : Z) : list (list Z) :=
  remove_dups (seqZ 0 n ≫= λ i, va_tables (heap_va h i)).

(** The kernel's page tables and free list can take [n] more heap pages. *)
Record can_grow (h : KernelHeap) (mm : MemoryManager) (pm : mem) (root : Z) (l : list Z) (n : Z)
    : Prop := {
  cg_pages : 0 < n;
  cg_room : committed h + n * PAGE_SIZE ≤ max_size h;
  cg_inv : vm_inv (mm_pmm mm) pm root l;
  cg_pml4 : ptr_to (mm_pml4 mm) root;
  cg_budget : (need pm root (heap_tables h n) + Z.to_nat n ≤ length l)%nat;
}.

Definition grown (h : KernelHeap) (mm : MemoryManager) (pm : mem) (root : Z) (l : list Z) (n : Z)
    : Z → MemoryManager * mem → Prop :=
  fresh_state mm pm root l heap_flags (heap_va h) (Z.to_nat n) (heap_tables h n).

Lemma grow_maps h mm pm root l n :
  heap_bounds h → can_grow h mm pm root l n →
  ∃ s', for_range (Z.to_nat n) 0 (fun i '(mm, pm) =>
    let virt_addr := base h ⊞ committed h ⊞ i ⊠ PAGE_SIZE in
    let '(r, mm) := mm_alloc_page mm pm in
    phys_addr ← expect "[KERNEL_HEAP] PMM out of memory during heap grow" r;
    mm_map_page mm pm KERNEL_PML4 virt_addr phys_addr heap_flags) (mm, pm) = Done s' ∧
    grown h mm pm root l n n s'.
Proof.
  intros [Hb1 Hb2 Hb3] [Hn Hroom Hinv Hptr Hbud]. unfold PAGE_SIZE in Hroom.
  destruct (fresh_pages_ok mm pm root l "[KERNEL_HEAP] PMM out of memory during heap grow"
    KERNEL_PML4 heap_flags (heap_va h) (Z.to_nat n) (heap_tables h n)) as (s' & Hrun & Hs); try done.
  - intros i Hi p Hp. apply elem_of_remove_dups, list_elem_of_bind. exists i.
    split; [done|]. apply elem_of_seqZ. lia.
  - apply NoDup_remove_dups.
  - apply Forall_forall. intros p. unfold heap_tables.
    rewrite elem_of_remove_dups, list_elem_of_bind. intros (i & Hp & _).
    pose proof (va_tables_ok (heap_va h i)) as H. rewrite Forall_forall in H. by apply H.
  - exists s'. rewrite Z2Nat.id in Hs by lia. split; [|done]. rewrite <- Hrun.
    apply for_range_ext. intros i [mm1 pm1] Hi. cbv zeta.
    assert (base h ⊞ committed h ⊞ i ⊠ PAGE_SIZE = heap_va h i) as ->; [|done].
    unfold heap_va, PAGE_SIZE.
    rewrite (u64_small (base h + committed h)), (u64_small (i * 4096)), u64_small by (unfold W64 in *; lia).
    done.
Qed.

Lemma insert_block_size a n bs :
  0 ≤ n → Forall (λ b, 0 ≤ b.2) bs → Exists (λ b, n ≤ b.2) (insert_block a n bs).
Proof.
  intros Hn Hb. unfold insert_block, glue.
  assert (Forall (λ b, 0 ≤ b.2) (before a bs) ∧ Forall (λ b, 0 ≤ b.2) (after a bs)) as [H1 H2].
  { rewrite Forall_forall in Hb.
    split; apply Forall_forall; intros b [_ ?]%list_elem_of_filter; by apply Hb. }
  revert H1 H2. generalize (before a bs) as pre, (after a bs) as post. intros pre post H1 H2.
  assert (∃ n' post', merge_next (a, n) post = ((a, n'), post') ∧ n ≤ n') as (n' & post' & -> & Hn').
  { destruct post as [|[b k] post]; cbn; [eauto with lia|]. apply Forall_cons in H2 as [? _].
    cbn in *. destruct (a + n =? b); eauto with lia. }
  destruct pre as [|[p q] pre _] using rev_ind; [by left|]. rewrite merge_prev_snoc. cbn [fst snd].
  apply Forall_app in H1 as [_ H1]. apply Forall_cons in H1 as [? _]. cbn in *.
  apply Exists_app. right. destruct (p + q =? a); [left; cbn; lia|by right; left].
Qed.

Lemma grow_ok h hm bs mm pm root l n :
  heap_repr h hm bs → can_grow h mm pm root l n →
  ∃ h' hm' mm' pm',
    grow h hm mm pm n = Done (h', hm', mm', pm') ∧
    same_range (set_committed h (committed h + n * PAGE_SIZE)) h' ∧
    heap_repr h' hm' (insert_block (base h + committed h) (n * PAGE_SIZE) bs) ∧
    (∀ x, free_byte (insert_block (base h + committed h) (n * PAGE_SIZE) bs) x ↔
      free_byte bs x ∨ span (base h + committed h) (n * PAGE_SIZE) x) ∧
    agree_off (λ x, free_byte bs x ∨ base h + committed h ≤ x) hm hm' ∧
    grown h mm pm root l n n (mm', pm').
Proof.
  intros [Hb Hl Hok] Hcg. destruct (grow_maps h mm pm root l n Hb Hcg) as ([mm' pm'] & Hrun & Hg).
  pose proof Hb as [Hb1 Hb2 Hb3]. pose proof Hcg as [Hn Hroom _ _ _]. unfold PAGE_SIZE in *.
  assert (∀ x, free_byte bs x → base h ≤ x < base h + committed h) as Hfr.
  { intros x. apply free_byte_range. by apply blocks_ok_weak. }
  unfold grow. rewrite (u64_small (n * PAGE_SIZE)), (u64_small (committed h + _))
    by (unfold PAGE_SIZE, W64 in *; lia).
  unfold PAGE_SIZE at 1. rewrite (proj2 (Z.ltb_ge _ _)) by lia. setoid_rewrite Hrun.
  cbn [mbind outcome_bind]. rewrite (u64_small (base h + committed h)) by (unfold W64 in *; lia).
  destruct (insert_repr (set_committed h (committed h + n * 4096)) hm bs (base h + committed h)
    (n * 4096)) as (h' & hm' & Hins & Hs & Hr & Hag & Hby); cbn; unfold FreeBlock_SIZE; try lia.
  { split; [by split; cbn; lia|done|]. cbn. eapply blocks_ok_upper, Hok. lia. }
  { intros x Hx Hf%Hfr. unfold span in Hx. lia. }
  unfold PAGE_SIZE. rewrite Hins. cbn [mbind outcome_bind].
  exists h', hm', mm', pm'. split_and!; try done. eapply agree_off_mono; [|exact Hag].
  intros x [?|Hx]; [by left|right]. unfold span in Hx. lia.
Qed.

(** ** Live allocations *)

Definition block_byte (b : alloc_block) (x : Z) : Prop := span (ab_start b) (ab_total b) x.

Record heap_inv (h : KernelHeap) (hm : mem) (bs : list block) (live : list alloc_block) : Prop := {
  hi_repr : heap_repr h hm bs;
  hi_header : ∀ b, b ∈ live → header_ok hm b;
  hi_range : ∀ b, b ∈ live → base h ≤ ab_start b ∧ ab_start b + ab_total b ≤ base h + committed h;
  hi_free : ∀ b x, b ∈ live → block_byte b x → ¬ free_byte bs x;
  hi_apart : ∀ i j b c x, live !! i = Some b → live !! j = Some c → i ≠ j →
    block_byte b x → ¬ block_byte c x;
}.

(** Memory outside the free bytes [F] and above [top] is not written. *)
Definition preserves (F : Z → Prop) (top : Z) (hm hm' : mem) : Prop :=
  agree_off (λ x, F x ∨ top ≤ x) hm hm'.

Lemma header_kept hm hm' (P : Z → Prop) b :
  agree_off P hm hm' → (∀ x, block_byte b x → ¬ P x) → header_ok hm b → header_ok hm' b.
Proof.
  intros Hag HP (Ho & Ht & Hb). unfold block_byte, span in HP.
  split; [done|]. split; (rewrite Hag; [done|]); intros i Hi; apply HP; lia.
Qed.

(** The result of a successful allocation, on the abstract level. *)
Lemma heap_inv_alloc h hm bs live h' hm' pre a n post t off :
  heap_inv h hm bs live → bs = pre ++ (a, n) :: post → 16 ≤ off ≤ t → t ≤ n →
  same_range h h' → heap_repr h' hm' (pre ++ leftover a n t ++ post) →
  header_ok hm' {| ab_start := a; ab_total := t; ab_offset := off |} →
  agree_off (free_byte bs) hm hm' →
  heap_inv h' hm' (pre ++ leftover a n t ++ post)
    ({| ab_start := a; ab_total := t; ab_offset := off |} :: live).
Proof.
  intros [Hr Hh Hrg Hf Hap] E Hoff Ht Hs Hr' Hh' Hag.
  pose proof (blocks_ok_weak _ _ _ (hp_blocks _ _ _ Hr)) as Hw. rewrite E in Hw.
  pose proof Hw as (Wpre & (Ha1 & Hn & Ha2) & Wpost)%blocks_weak_app.
  assert (∀ x, free_byte (pre ++ leftover a n t ++ post) x → free_byte bs x ∧ ¬ span a t x) as Hsub.
  { intros x. rewrite E, !free_byte_app, leftover_bytes, free_byte_cons. unfold span. cbn [fst snd].
    intros [Hx|[Hx|Hx]]; [split; [tauto|]|split; [right; left; lia|lia]|split; [tauto|]].
    - apply (free_byte_range _ _ _ _ Wpre) in Hx. lia.
    - apply (free_byte_range _ _ _ _ Wpost) in Hx. lia. }
  assert (∀ x, span a t x → free_byte bs x) as Hin.
  { intros x Hx. rewrite E, free_byte_app, free_byte_cons. right. left. unfold span in *. cbn. lia. }
  split.
  - done.
  - intros b [->|Hb]%elem_of_cons; [done|]. eapply header_kept; [exact Hag| |by apply Hh].
    intros x Hx. by apply (Hf b).
  - rewrite Hs. cbn. intros b [->|Hb]%elem_of_cons; [cbn; lia|by apply Hrg].
  - intros b x [->|Hb]%elem_of_cons Hx Hfx; apply Hsub in Hfx as [Hfx Hno]; [done|].
    by apply (Hf b x Hb).
  - intros [|i] [|j] b c x Hi Hj Hij Hb Hc; cbn in Hi, Hj; [done|..]; simplify_eq.
    + apply (Hf c x); [by eapply list_elem_of_lookup_2|done|by apply Hin].
    + apply (Hf b x); [by eapply list_elem_of_lookup_2|done|by apply Hin].
    + eapply (Hap i j); eauto.
Qed.

(** Growing keeps every live block where it is. *)
Lemma heap_inv_grow h hm bs live mm pm root l n :
  heap_inv h hm bs live → can_grow h mm pm root l n →
  ∃ h' hm' mm' pm' bs',
    grow h hm mm pm n = Done (h', hm', mm', pm') ∧
    same_range (set_committed h (committed h + n * PAGE_SIZE)) h' ∧
    heap_inv h' hm' bs' live ∧ Exists (λ b, n * PAGE_SIZE ≤ b.2) bs' ∧
    (∀ x, free_byte bs' x → free_byte bs x ∨ base h + committed h ≤ x) ∧
    preserves (free_byte bs) (base h + committed h) hm hm' ∧
    grown h mm pm root l n n (mm', pm').
Proof.
  intros [Hr Hh Hrg Hf Hap] Hcg.
  destruct (grow_ok h hm bs mm pm root l n Hr Hcg)
    as (h' & hm' & mm' & pm' & Hrun & Hs & Hr' & Hby & Hag & Hg).
  exists h', hm', mm', pm'. eexists. split; [exact Hrun|]. split; [exact Hs|].
  pose proof (cg_pages _ _ _ _ _ _ Hcg) as Hn.
  assert (∀ b x, b ∈ live → block_byte b x → ¬ (free_byte bs x ∨ base h + committed h ≤ x)) as Hout.
  { intros b x Hb Hx [Hfx|Hge]; [by apply (Hf b x)|]. specialize (Hrg b Hb).
    unfold block_byte, span in Hx. lia. }
  split_and!; [|apply insert_block_size| |done|done].
  - split; [done| | | |done].
    + intros b Hb. eapply header_kept; [exact Hag| |by apply Hh]. intros x Hx. by apply (Hout b).
    + intros b Hb. rewrite Hs. cbn. specialize (Hrg b Hb). unfold PAGE_SIZE. lia.
    + intros b x Hb Hx. rewrite Hby. intros [Hfx|Hsp]; apply (Hout b x Hb Hx); [by left|right].
      unfold span in Hsp. lia.
  - unfold PAGE_SIZE. lia.
  - apply Forall_forall. intros b Hb.
    destruct (blocks_weak_in _ _ _ b (blocks_ok_weak _ _ _ (hp_blocks _ _ _ Hr)) Hb) as (_ & ? & _).
    unfold FreeBlock_SIZE in *. lia.
  - intros x. rewrite Hby. unfold span. intros [?|?]; [by left|right; lia].
Qed.

Lemma allocate_loop_fit fuel h hm mm pm bs live pre a n post t off :
  heap_inv h hm bs live → 16 ≤ off ≤ t → first_fit t bs = Some (pre, (a, n), post) →
  (length bs ≤ fuel)%nat →
  ∃ h' hm',
    allocate_loop fuel h hm mm pm t off 0 (free_list h) = Done (a + off, h', hm', mm, pm) ∧
    same_range h h' ∧
    heap_inv h' hm' (pre ++ leftover a n t ++ post)
      ({| ab_start := a; ab_total := t; ab_offset := off |} :: live) ∧
    agree_off (free_byte bs) hm hm'.
Proof.
  intros Hinv Hoff Hff Hfuel. apply first_fit_split in Hff as (E & Hn & Hsm). cbn in Hn. subst bs.
  pose proof (hi_repr _ _ _ _ Hinv) as Hr.
  assert (free_list h = match pre with (b, _) :: _ => b | [] => a end) as ->.
  { pose proof (hp_list _ _ _ Hr) as Hl. destruct pre as [|[b k] pre]; cbn in Hl; tauto. }
  pose proof (allocate_loop_search fuel h hm mm pm t off pre a n post []) as Hs.
  cbn [app last_addr last] in Hs. rewrite Hs; clear Hs; [|apply Hr|done|done|].
  2: { rewrite length_app in Hfuel. simpl in Hfuel. lia. }
  destruct (carve_ok h hm pre a n post t off Hr Hoff Hn) as (h' & hm' & -> & Hs & Hr' & Hh & Hag).
  exists h', hm'. split; [done|]. split; [done|]. split; [|done].
  by eapply (heap_inv_alloc h hm _ live h' hm' pre a n post t off).
Qed.

(** What [allocate] promises: the block it returns, fresh and inside the heap. *)
Definition allocated (h : KernelHeap) (hm : mem) (bs : list block) (live : list alloc_block)
    (lay : Layout) (p : Z) (h' : KernelHeap) (hm' : mem) : Prop :=
  ∃ b bs',
    p = ab_start b + ab_offset b ∧ ab_offset b = Z.max 16 (layout_align lay) ∧
    ab_total b = ab_offset b + layout_size lay ∧
    heap_inv h' hm' bs' (b :: live) ∧ base h' = base h ∧ max_size h' = max_size h ∧
    (∀ x, free_byte bs' x → free_byte bs x ∨ base h + committed h ≤ x) ∧
    preserves (free_byte bs) (base h + committed h) hm hm'.

Lemma pages_needed_ok t : 0 ≤ t < 2 ^ 63 → t ≤ pages_needed t * PAGE_SIZE ∧ 4 ≤ pages_needed t.
Proof.
  intros Ht. unfold pages_needed, PAGE_SIZE. rewrite (u64_small (t + 4096)), u64_small by (unfold W64; lia).
  split; [|lia]. pose proof (Z.mod_pos_bound (t + 4096 - 1) 4096 eq_refl).
  pose proof (Z.div_mod (t + 4096 - 1) 4096 ltac:(lia)). lia.
Qed.

Lemma leftover_sub pre a n post t x :
  free_byte (pre ++ leftover a n t ++ post) x → 0 ≤ t → free_byte (pre ++ (a, n) :: post) x.
Proof.
  rewrite !free_byte_app, leftover_bytes, free_byte_cons. unfold span. cbn [fst snd]. intuition lia.
Qed.

(** A fit in the list [bs0] (the list at hand, or the one after a [grow]). *)
Lemma allocated_intro h hm bs live lay h0 hm0 bs0 mm pm fuel pre a n post
    (off := Z.max 16 (layout_align lay)) (t := off + layout_size lay) :
  heap_inv h0 hm0 bs0 live → 0 < layout_size lay → base h0 = base h → max_size h0 = max_size h →
  (∀ x, free_byte bs0 x → free_byte bs x ∨ base h + committed h ≤ x) →
  preserves (free_byte bs) (base h + committed h) hm hm0 →
  first_fit t bs0 = Some (pre, (a, n), post) → (length bs0 ≤ fuel)%nat →
  ∃ p h' hm', allocate_loop fuel h0 hm0 mm pm t off 0 (free_list h0) = Done (p, h', hm', mm, pm) ∧
    allocated h hm bs live lay p h' hm' ∧ committed h' = committed h0.
Proof.
  intros Hinv Hsz Eb Em Hsub Hpr Hff Hfuel. assert (16 ≤ off ≤ t) as Hoff by lia.
  destruct (allocate_loop_fit fuel h0 hm0 mm pm bs0 live pre a n post t off)
    as (h' & hm' & E & Hsr & Hi & Hag); try done.
  exists (a + off), h', hm'. split; [exact E|]. split; [|by rewrite Hsr].
  exists {| ab_start := a; ab_total := t; ab_offset := off |}, (pre ++ leftover a n t ++ post).
  split; [done|]. split; [done|]. split; [done|]. split; [done|].
  split; [by rewrite Hsr|]. split; [by rewrite Hsr|]. split.
  - intros x Hx. apply Hsub. apply first_fit_split in Hff as (-> & _). eapply leftover_sub; [exact Hx|lia].
  - eapply agree_off_trans; [exact Hpr|]. eapply agree_off_mono; [|exact Hag]. exact Hsub.
Qed.

Lemma allocate_ok h hm mm pm root l bs live lay :
  heap_inv h hm bs live → layout_ok lay →
  (first_fit (allocation_sizes lay).1 bs = None →
    can_grow h mm pm root l (pages_needed (allocation_sizes lay).1)) →
  ∃ p h' hm' mm' pm',
    allocate h hm mm pm lay = Done (p, h', hm', mm', pm') ∧ allocated h hm bs live lay p h' hm' ∧
    match first_fit (allocation_sizes lay).1 bs with
    | Some _ => mm' = mm ∧ pm' = pm ∧ committed h' = committed h
    | None => grown h mm pm root l (pages_needed (allocation_sizes lay).1)
                (pages_needed (allocation_sizes lay).1) (mm', pm') ∧
              committed h' = committed h + pages_needed (allocation_sizes lay).1 * PAGE_SIZE
    end.
Proof.
  intros Hinv Hlay Hcg. unfold allocate. rewrite allocation_sizes_ok in * by done. cbn [fst] in *.
  destruct Hlay as (Hs1 & Hs2 & k & Hk & Eal).
  assert (0 < 2 ^ k < 2 ^ 62) as Hp by (split; [lia|by apply Z.pow_lt_mono_r; lia]). rewrite <- Eal in Hp.
  set (off := Z.max 16 (layout_align lay)) in *. set (t := off + layout_size lay) in *.
  pose proof (hi_repr _ _ _ _ Hinv) as Hr.
  pose proof (list_fuel_enough h bs (hp_bounds _ _ _ Hr) (blocks_ok_weak _ _ _ (hp_blocks _ _ _ Hr))) as Hf1.
  unfold allocate_fuel. set (h1 := set_committed h (committed h + pages_needed t * PAGE_SIZE)).
  destruct (first_fit t bs) as [[[pre [a n]] post]|] eqn:Eff.
  - destruct (allocated_intro h hm bs live lay h hm bs mm pm (list_fuel h + list_fuel h1 + 3) pre a n post)
      as (p & h' & hm' & E & Ha & Hc); try done; [by left|lia|].
    exists p, h', hm', mm, pm. done.
  - specialize (Hcg eq_refl). destruct (pages_needed_ok t ltac:(lia)) as [Hpn _].
    destruct (heap_inv_grow h hm bs live mm pm root l _ Hinv Hcg)
      as (h2 & hm2 & mm2 & pm2 & bs2 & Hgrow & Hs & Hi2 & Hex & Hsub & Hpr & Hg).
    destruct (first_fit_some t bs2) as [[[pre [a n]] post] Eff2].
    { eapply Exists_impl; [exact Hex|]. intros b Hb. cbn in Hb |- *. lia. }
    pose proof (hi_repr _ _ _ _ Hi2) as Hr2.
    pose proof (list_fuel_enough h2 bs2 (hp_bounds _ _ _ Hr2) (blocks_ok_weak _ _ _ (hp_blocks _ _ _ Hr2))) as Hf2.
    assert (list_fuel h2 = list_fuel h1) as Efuel by (rewrite Hs; done).
    assert (free_list h = match bs with (b, _) :: _ => b | [] => 0 end) as Efl.
    { pose proof (hp_list _ _ _ Hr) as Hl. destruct bs as [|[b j] bs]; cbn in Hl; tauto. }
    set (fuel := (list_fuel h - length bs + list_fuel h1 + 2)%nat).
    replace (list_fuel h + list_fuel h1 + 3)%nat with (length bs + S fuel)%nat by lia.
    pose proof (allocate_loop_pass (S fuel) h hm mm pm t off bs []) as Hpass.
    cbn [app last_addr last] in Hpass. rewrite Efl, Hpass; [|apply Hr|by apply first_fit_none].
    cbn [allocate_loop]. rewrite Z.eqb_refl, Hgrow. cbn [mbind outcome_bind].
    destruct (allocated_intro h hm bs live lay h2 hm2 bs2 mm2 pm2 fuel pre a n post)
      as (p & h' & hm' & E & Ha & Hc); try done; [by rewrite Hs..|lia|].
    exists p, h', hm', mm2, pm2. split; [done|]. split; [done|]. split; [done|]. by rewrite Hc, Hs.
Qed.

(** ** [deallocate] *)

Lemma lookup_without {A} (l1 : list A) (b : A) (l2 : list A) i c :
  (l1 ++ l2) !! i = Some c →
  ∃ i', (l1 ++ b :: l2) !! i' = Some c ∧ i' = if decide (i < length l1)%nat then i else S i.
Proof.
  intros H. eexists. split; [|done]. case_decide as E.
  - by rewrite lookup_app_l in H |- * by lia.
  - rewrite lookup_app_r in H |- * by lia. by replace (S i - length l1)%nat with (S (i - length l1)) by lia.
Qed.

Lemma deallocate_ok h hm bs live1 b live2 :
  heap_inv h hm bs (live1 ++ b :: live2) →
  ∃ h' hm',
    deallocate h hm (ab_start b + ab_offset b) = Done (h', hm') ∧ same_range h h' ∧
    heap_inv h' hm' (insert_block (ab_start b) (ab_total b) bs) (live1 ++ live2) ∧
    (∀ x, free_byte (insert_block (ab_start b) (ab_total b) bs) x ↔ free_byte bs x ∨ block_byte b x) ∧
    agree_off (λ x, free_byte bs x ∨ block_byte b x) hm hm'.
Proof.
  intros [Hr Hh Hrg Hf Hap].
  assert (b ∈ live1 ++ b :: live2) as Hb by (apply elem_of_app; right; left).
  destruct (Hh b Hb) as (Ho & Ht & Hbk). destruct (Hrg b Hb) as [Hr1 Hr2].
  pose proof (hp_bounds _ _ _ Hr) as [Hb1 Hb2 Hb3].
  unfold deallocate. rewrite (u64_small (ab_start b + ab_offset b - 8)) by lia. rewrite Hbk.
  replace (ab_start b + ab_offset b - ab_offset b) with (ab_start b) by lia.
  rewrite (u64_small (ab_start b)), Ht by lia.
  destruct (insert_repr h hm bs (ab_start b) (ab_total b)) as (h' & hm' & -> & Hs & Hr' & Hag & Hby);
    try (done || (unfold FreeBlock_SIZE; lia)).
  { intros x. by apply Hf. }
  exists h', hm'. split_and!; try done.
  assert (∀ c, c ∈ live1 ++ live2 → c ∈ live1 ++ b :: live2) as Hsub.
  { intros c Hc. apply elem_of_app in Hc as [?|?]; apply elem_of_app; [by left|right; by right]. }
  assert (∀ c x, c ∈ live1 ++ live2 → block_byte c x → ¬ block_byte b x) as Hdis.
  { intros c x [[i Hi]%list_elem_of_lookup|[i Hi]%list_elem_of_lookup]%elem_of_app Hc.
    - eapply (Hap i (length live1) c b x); [|by apply list_lookup_middle| |done].
      + rewrite lookup_app_l; [done|by eapply lookup_lt_Some].
      + apply lookup_lt_Some in Hi. lia.
    - eapply (Hap (length live1 + S i)%nat (length live1) c b x); [|by apply list_lookup_middle|lia|done].
      rewrite lookup_app_r by lia. by replace (length live1 + S i - length live1)%nat with (S i) by lia. }
  split; [done| | | |].
  - intros c Hc. eapply header_kept; [exact Hag| |by apply Hh, Hsub].
    intros x Hx [Hfx|Hbx]; [by apply (Hf c x (Hsub c Hc))|by apply (Hdis c x)].
  - rewrite Hs. cbn. intros c Hc. by apply Hrg, Hsub.
  - intros c x Hc Hx. rewrite Hby. intros [Hfx|Hbx]; [by apply (Hf c x (Hsub c Hc))|by apply (Hdis c x)].
  - intros i j c d x Hi Hj Hij. apply (lookup_without live1 b live2) in Hi, Hj.
    destruct Hi as (i' & Hi & Ei), Hj as (j' & Hj & Ej). apply (Hap i' j'); try done.
    subst i' j'. repeat case_decide; lia.
Qed.

(** ** Properties *)

(** [insert_free_block_sorted] on a well-formed list and a region that
    shares no byte with it: the walk terminates within the list, the new list
    is again sorted, disjoint and fully coalesced, it covers exactly the old
    free bytes and the region, and only free bytes and the region are
    written. *)
Theorem heap_insert_spec (h : KernelHeap) (hm : mem) (bs : list block) (a n : Z) :
  heap_repr h hm bs → base h ≤ a → FreeBlock_SIZE ≤ n → a + n ≤ base h + committed h →
  (∀ x, span a n x → ¬ free_byte bs x) →
  ∃ h' hm', insert_free_block_sorted h hm a n = Done (h', hm') ∧ same_range h h' ∧
    heap_repr h' hm' (insert_block a n bs) ∧
    agree_off (λ x, free_byte bs x ∨ span a n x) hm hm' ∧
    ∀ x, free_byte (insert_block a n bs) x ↔ free_byte bs x ∨ span a n x.
Proof. apply insert_repr. Qed.

(** An empty heap whose first two pages are committed. *)
Definition demo_range : KernelHeap :=
  set_committed (KernelHeap_new KERNEL_HEAP_BASE 0x100000) 0x2000.

Lemma heap_insert_spec_witness :
  ∃ h' hm', insert_free_block_sorted demo_range ∅ (KERNEL_HEAP_BASE + 64) 256 = Done (h', hm') ∧
    same_range demo_range h' ∧
    heap_repr h' hm' (insert_block (KERNEL_HEAP_BASE + 64) 256 []) ∧
    agree_off (λ x, free_byte [] x ∨ span (KERNEL_HEAP_BASE + 64) 256 x) ∅ hm' ∧
    ∀ x, free_byte (insert_block (KERNEL_HEAP_BASE + 64) 256 []) x ↔
      free_byte [] x ∨ span (KERNEL_HEAP_BASE + 64) 256 x.
Proof.
  apply (heap_insert_spec demo_range ∅ [] (KERNEL_HEAP_BASE + 64) 256).
  - split; [by split|done|done].
  - done.
  - done.
  - done.
  - intros x _ H. by apply free_byte_nil in H.
Defined.

(** C4. [allocate] terminates and succeeds whenever the free list has a fit or
    the memory manager can back enough pages for one.  The block it returns
    has the requested size behind a header of at least 16 bytes, lies inside
    the heap, and overlaps neither the free list nor any live block; the
    memory of live blocks is not written; the page tables change only when no
    fit was found, and then every new page is backed by a frame of its own. *)
Theorem heap_allocate_spec (h : KernelHeap) (hm : mem) (mm : MemoryManager) (pm : mem) (root : Z)
    (l : list Z) (bs : list block) (live : list alloc_block) (lay : Layout) :
  heap_inv h hm bs live → layout_ok lay →
  (first_fit (allocation_sizes lay).1 bs = None →
    can_grow h mm pm root l (pages_needed (allocation_sizes lay).1)) →
  ∃ p h' hm' mm' pm' b bs',
    allocate h hm mm pm lay = Done (p, h', hm', mm', pm') ∧
    p = ab_start b + ab_offset b ∧ ab_offset b = Z.max 16 (layout_align lay) ∧
    ab_total b = ab_offset b + layout_size lay ∧
    heap_inv h' hm' bs' (b :: live) ∧
    (∀ c x, c ∈ live → (∀ i, 0 ≤ i < 8 → block_byte c (x + i)) → load64 hm' x = load64 hm x) ∧
    match first_fit (allocation_sizes lay).1 bs with
    | Some _ => mm' = mm ∧ pm' = pm ∧ committed h' = committed h
    | None => grown h mm pm root l (pages_needed (allocation_sizes lay).1)
                (pages_needed (allocation_sizes lay).1) (mm', pm')
    end.
Proof.
  intros Hinv Hlay Hcg.
  destruct (allocate_ok h hm mm pm root l bs live lay Hinv Hlay Hcg)
    as (p & h' & hm' & mm' & pm' & E & (b & bs' & Hp & Ho & Ht & Hi & _ & _ & _ & Hpr) & Hm).
  exists p, h', hm', mm', pm', b, bs'. split_and!; try done; [|by destruct (first_fit _ _); [|destruct Hm]].
  intros c x Hc Hx. apply Hpr. intros i Hi' [Hf|Hge].
  - by apply (hi_free _ _ _ _ Hinv c (x + i) Hc (Hx i Hi')).
  - pose proof (hi_range _ _ _ _ Hinv c Hc). specialize (Hx i Hi'). unfold block_byte, span in Hx. lia.
Qed.

(** The demo heap: four pages committed through the demo memory manager. *)
Definition demo_new : KernelHeap := KernelHeap_new KERNEL_HEAP_BASE 0x100000.

Definition demo_heap : KernelHeap * mem * MemoryManager * mem :=
  done_or (demo_new, ∅, demo_manager, demo_boot.2)
    (KernelHeap_init demo_new ∅ demo_manager demo_boot.2 4).

Lemma demo_can_grow : can_grow demo_new demo_manager demo_boot.2 0x10000 demo_frames 4.
Proof.
  split.
  - done.
  - done.
  - exact demo_boot_inv.
  - apply (ptr_to_phys false). by split.
  - apply (bool_decide_unpack _). vm_compute. exact I.
Qed.

Lemma demo_heap_inv :
  heap_inv demo_heap.1.1.1 demo_heap.1.1.2 [(KERNEL_HEAP_BASE, 0x4000)] [].
Proof.
  destruct (grow_ok demo_new ∅ [] demo_manager demo_boot.2 0x10000 demo_frames 4)
    as (h' & hm' & mm' & pm' & E & _ & Hr & _ & _ & _).
  - split; [by split|done|done].
  - exact demo_can_grow.
  - unfold demo_heap, KernelHeap_init. rewrite E. cbn [done_or fst snd].
    clear E. split; [exact Hr|by intros b ?%not_elem_of_nil|by intros b ?%not_elem_of_nil
      |by intros b x ?%not_elem_of_nil|].
    intros i j b c x H. by rewrite lookup_nil in H.
Qed.

Definition demo_layout : Layout := {| layout_size := 8; layout_align := 8 |}.

Lemma demo_layout_ok : layout_ok demo_layout.
Proof. split; [done|]. split; [done|]. by exists 3. Qed.

Lemma heap_allocate_spec_witness :
  ∃ p h' hm' mm' pm' b bs',
    allocate demo_heap.1.1.1 demo_heap.1.1.2 demo_heap.1.2 demo_heap.2 demo_layout
      = Done (p, h', hm', mm', pm') ∧
    p = ab_start b + ab_offset b ∧ ab_offset b = 16 ∧ ab_total b = ab_offset b + 8 ∧
    heap_inv h' hm' bs' [b] ∧
    (∀ c x, c ∈ [] → (∀ i, 0 ≤ i < 8 → block_byte c (x + i)) →
      load64 hm' x = load64 demo_heap.1.1.2 x) ∧
    (mm' = demo_heap.1.2 ∧ pm' = demo_heap.2 ∧ committed h' = committed demo_heap.1.1.1).
Proof.
  apply (heap_allocate_spec demo_heap.1.1.1 demo_heap.1.1.2 demo_heap.1.2 demo_heap.2 0 []
    [(KERNEL_HEAP_BASE, 0x4000)] [] demo_layout demo_heap_inv demo_layout_ok).
  intros H. discriminate H.
Defined.

(** C16. [deallocate] of a live block: it recovers the block from the pointer
    alone, the bytes of the block (and only those) become free, touching free
    blocks are merged, and every other live block keeps its header, its place
    and its contents. *)
Theorem heap_deallocate_spec (h : KernelHeap) (hm : mem) (bs : list block)
    (live1 : list alloc_block) (b : alloc_block) (live2 : list alloc_block) :
  heap_inv h hm bs (live1 ++ b :: live2) →
  ∃ h' hm' bs',
    deallocate h hm (ab_start b + ab_offset b) = Done (h', hm') ∧ same_range h h' ∧
    heap_inv h' hm' bs' (live1 ++ live2) ∧
    (∀ x, free_byte bs' x ↔ free_byte bs x ∨ block_byte b x) ∧
    agree_off (λ x, free_byte bs x ∨ block_byte b x) hm hm'.
Proof.
  intros Hinv. destruct (deallocate_ok h hm bs live1 b live2 Hinv) as (h' & hm' & ? & ? & ? & ? & ?).
  by exists h', hm', (insert_block (ab_start b) (ab_total b) bs).
Qed.

(** The demo heap with one live block. *)
Definition demo_alloc : Z * KernelHeap * mem * MemoryManager * mem :=
  done_or (0, demo_heap.1.1.1, demo_heap.1.1.2, demo_heap.1.2, demo_heap.2)
    (allocate demo_heap.1.1.1 demo_heap.1.1.2 demo_heap.1.2 demo_heap.2 demo_layout).

Lemma demo_alloc_inv :
  heap_inv demo_alloc.1.1.1.2 demo_alloc.1.1.2 [(KERNEL_HEAP_BASE + 24, 0x4000 - 24)]
    [{| ab_start := KERNEL_HEAP_BASE; ab_total := 24; ab_offset := 16 |}].
Proof.
  destruct (allocate_loop_fit
    (allocate_fuel demo_heap.1.1.1 24) demo_heap.1.1.1 demo_heap.1.1.2 demo_heap.1.2 demo_heap.2
    [(KERNEL_HEAP_BASE, 0x4000)] [] [] KERNEL_HEAP_BASE 0x4000 [] 24 16)
    as (h' & hm' & E & _ & Hi & _).
  - exact demo_heap_inv.
  - done.
  - done.
  - apply (bool_decide_unpack _). vm_compute. exact I.
  - unfold demo_alloc, allocate. change (allocation_sizes demo_layout) with (24, 16).
    cbv beta iota zeta. rewrite E. exact Hi.
Qed.

Lemma heap_deallocate_spec_witness :
  ∃ h' hm' bs',
    deallocate demo_alloc.1.1.1.2 demo_alloc.1.1.2 (KERNEL_HEAP_BASE + 16) = Done (h', hm') ∧
    same_range demo_alloc.1.1.1.2 h' ∧ heap_inv h' hm' bs' [] ∧
    (∀ x, free_byte bs' x ↔ free_byte [(KERNEL_HEAP_BASE + 24, 0x4000 - 24)] x ∨
      block_byte {| ab_start := KERNEL_HEAP_BASE; ab_total := 24; ab_offset := 16 |} x) ∧
    agree_off (λ x, free_byte [(KERNEL_HEAP_BASE + 24, 0x4000 - 24)] x ∨
      block_byte {| ab_start := KERNEL_HEAP_BASE; ab_total := 24; ab_offset := 16 |} x)
      demo_alloc.1.1.2 hm'.
Proof.
  exact (heap_deallocate_spec demo_alloc.1.1.1.2 demo_alloc.1.1.2 _ [] 
    {| ab_start := KERNEL_HEAP_BASE; ab_total := 24; ab_offset := 16 |} [] demo_alloc_inv).
Defined.

(** The run of a fitting [allocate] followed by [deallocate]. *)
Lemma alloc_free_ok h hm mm pm bs live lay pre a n post :
  heap_inv h hm bs live → layout_ok lay →
  first_fit (allocation_sizes lay).1 bs = Some (pre, (a, n), post) →
  ∃ p h1 hm1 h2 hm2 bs2,
    allocate h hm mm pm lay = Done (p, h1, hm1, mm, pm) ∧
    deallocate h1 hm1 p = Done (h2, hm2) ∧ heap_inv h2 hm2 bs2 live ∧
    base h2 = base h ∧ committed h2 = committed h ∧
    ∀ x, free_byte bs2 x ↔
      free_byte (pre ++ leftover a n (allocation_sizes lay).1 ++ post) x ∨
      span a (allocation_sizes lay).1 x.
Proof.
  intros Hinv Hlay Hff. unfold allocate. rewrite allocation_sizes_ok in * by done. cbn [fst] in *.
  destruct Hlay as (Hs & _ & _). set (off := Z.max 16 (layout_align lay)) in *.
  set (t := off + layout_size lay) in *. pose proof (hi_repr _ _ _ _ Hinv) as Hr.
  destruct (allocate_loop_fit (allocate_fuel h t) h hm mm pm bs live pre a n post t off)
    as (h1 & hm1 & E & Hs1 & Hi & _); [done|lia|done| |].
  { pose proof (list_fuel_enough h bs (hp_bounds _ _ _ Hr) (blocks_ok_weak _ _ _ (hp_blocks _ _ _ Hr))).
    unfold allocate_fuel. lia. }
  destruct (deallocate_ok h1 hm1 _ [] {| ab_start := a; ab_total := t; ab_offset := off |} live Hi)
    as (h2 & hm2 & E2 & Hs2 & Hi2 & Hby & _).
  exists (a + off), h1, hm1, h2, hm2. eexists. split; [exact E|]. split; [exact E2|].
  split; [exact Hi2|]. rewrite Hs2, Hs1. cbn. done.
Qed.

(** Round trip: freeing what was just allocated restores the free list
    exactly, block for block, when the chosen block was used up or its
    leftover was big enough to be tracked. *)
Theorem heap_alloc_free_roundtrip (h : KernelHeap) (hm : mem) (mm : MemoryManager) (pm : mem)
    (bs : list block) (live : list alloc_block) (lay : Layout)
    (pre : list block) (a n : Z) (post : list block) :
  heap_inv h hm bs live → layout_ok lay →
  first_fit (allocation_sizes lay).1 bs = Some (pre, (a, n), post) →
  n = (allocation_sizes lay).1 ∨ FreeBlock_SIZE ≤ n - (allocation_sizes lay).1 →
  ∃ p h1 hm1 h2 hm2,
    allocate h hm mm pm lay = Done (p, h1, hm1, mm, pm) ∧
    deallocate h1 hm1 p = Done (h2, hm2) ∧ heap_inv h2 hm2 bs live.
Proof.
  intros Hinv Hlay Hff Hn.
  destruct (alloc_free_ok h hm mm pm bs live lay pre a n post Hinv Hlay Hff)
    as (p & h1 & hm1 & h2 & hm2 & bs2 & E1 & E2 & Hi & Eb & Ec & Hby).
  exists p, h1, hm1, h2, hm2. split; [done|]. split; [done|].
  assert (bs2 = bs) as ->; [|done].
  pose proof (hp_blocks _ _ _ (hi_repr _ _ _ _ Hi)) as Hok2. rewrite Eb, Ec in Hok2.
  eapply blocks_canonical; [exact Hok2|apply Hinv|]. intros x. rewrite Hby.
  apply first_fit_split in Hff as (-> & Ht & _). cbn [snd] in Ht.
  rewrite !free_byte_app, leftover_bytes, free_byte_cons. unfold span, FreeBlock_SIZE in *. cbn [fst snd].
  rewrite allocation_sizes_ok in * by done. cbn [fst] in *. destruct Hlay as (? & _).
  destruct (decide (a ≤ x < a + n)); intuition lia.
Qed.

Lemma heap_alloc_free_roundtrip_witness :
  ∃ p h1 hm1 h2 hm2,
    allocate demo_heap.1.1.1 demo_heap.1.1.2 demo_heap.1.2 demo_heap.2 demo_layout
      = Done (p, h1, hm1, demo_heap.1.2, demo_heap.2) ∧
    deallocate h1 hm1 p = Done (h2, hm2) ∧ heap_inv h2 hm2 [(KERNEL_HEAP_BASE, 0x4000)] [].
Proof.
  apply (heap_alloc_free_roundtrip demo_heap.1.1.1 demo_heap.1.1.2 demo_heap.1.2 demo_heap.2
    [(KERNEL_HEAP_BASE, 0x4000)] [] demo_layout [] KERNEL_HEAP_BASE 0x4000 []
    demo_heap_inv demo_layout_ok).
  - reflexivity.
  - right. vm_compute. discriminate.
Defined.

(** The leak: when the leftover of the chosen block is between 1 and 15
    bytes it is dropped from the free list and recorded nowhere, so freeing
    the allocation again does not bring those bytes back. *)
Theorem heap_leftover_leak (h : KernelHeap) (hm : mem) (mm : MemoryManager) (pm : mem)
    (bs : list block) (live : list alloc_block) (lay : Layout)
    (pre : list block) (a n : Z) (post : list block) :
  heap_inv h hm bs live → layout_ok lay →
  first_fit (allocation_sizes lay).1 bs = Some (pre, (a, n), post) →
  0 < n - (allocation_sizes lay).1 < FreeBlock_SIZE →
  ∃ p h1 hm1 h2 hm2 bs2,
    allocate h hm mm pm lay = Done (p, h1, hm1, mm, pm) ∧
    deallocate h1 hm1 p = Done (h2, hm2) ∧ heap_inv h2 hm2 bs2 live ∧
    ∀ x, a + (allocation_sizes lay).1 ≤ x < a + n → free_byte bs x ∧ ¬ free_byte bs2 x.
Proof.
  intros Hinv Hlay Hff Hn.
  destruct (alloc_free_ok h hm mm pm bs live lay pre a n post Hinv Hlay Hff)
    as (p & h1 & hm1 & h2 & hm2 & bs2 & E1 & E2 & Hi & _ & _ & Hby).
  exists p, h1, hm1, h2, hm2, bs2. do 3 (split; [done|]). intros x Hx. rewrite Hby.
  pose proof (blocks_ok_weak _ _ _ (hp_blocks _ _ _ (hi_repr _ _ _ _ Hinv))) as Hw.
  rewrite allocation_sizes_ok in * by done. cbn [fst] in *. destruct Hlay as (? & _).
  apply first_fit_split in Hff as (-> & _ & _).
  apply blocks_weak_app in Hw as (Wpre & _ & Wpost).
  rewrite !free_byte_app, leftover_bytes, free_byte_cons. unfold span. cbn [fst snd].
  split; [right; left; lia|]. intros [[Hf|[Hf|Hf]]|Hf]; [|lia| |lia].
  - apply (free_byte_range _ _ _ _ Wpre) in Hf. lia.
  - apply (free_byte_range _ _ _ _ Wpost) in Hf. lia.
Qed.

Lemma heap_leftover_leak_witness :
  ∃ p h1 hm1 h2 hm2 bs2,
    allocate demo_heap.1.1.1 demo_heap.1.1.2 demo_heap.1.2 demo_heap.2
      {| layout_size := 0x4000 - 24; layout_align := 8 |}
      = Done (p, h1, hm1, demo_heap.1.2, demo_heap.2) ∧
    deallocate h1 hm1 p = Done (h2, hm2) ∧ heap_inv h2 hm2 bs2 [] ∧
    ∀ x, KERNEL_HEAP_BASE + (0x4000 - 8) ≤ x < KERNEL_HEAP_BASE + 0x4000 →
      free_byte [(KERNEL_HEAP_BASE, 0x4000)] x ∧ ¬ free_byte bs2 x.
Proof.
  apply (heap_leftover_leak demo_heap.1.1.1 demo_heap.1.1.2 demo_heap.1.2 demo_heap.2
    [(KERNEL_HEAP_BASE, 0x4000)] [] {| layout_size := 0x4000 - 24; layout_align := 8 |}
    [] KERNEL_HEAP_BASE 0x4000 [] demo_heap_inv).
  - split; [reflexivity|]. split; [reflexivity|]. exists 3. by repeat split.
  - reflexivity.
  - by split.
Defined.

(** The pointer of a run of [allocate]. *)
Definition returned (o : outcome (Z * KernelHeap * mem * MemoryManager * mem)) : option Z :=
  match o with Done r => Some r.1.1.1.1 | _ => None end.

Definition demo_wide : Layout := {| layout_size := 16; layout_align := 16 |}.

(** Alignment: the pointer [allocate] returns has the alignment of the free
    block it was cut from and no better, because only the offset inside the
    block is rounded up.  On a fresh heap the first request for 8 bytes makes
    the next free block start 24 bytes in, and a request for 16 bytes aligned
    to 16 then gets a pointer that is 8 modulo 16. *)
Theorem heap_allocate_misaligned :
  layout_ok demo_wide ∧
  heap_inv demo_alloc.1.1.1.2 demo_alloc.1.1.2 [(KERNEL_HEAP_BASE + 24, 0x4000 - 24)]
    [{| ab_start := KERNEL_HEAP_BASE; ab_total := 24; ab_offset := 16 |}] ∧
  returned (allocate demo_alloc.1.1.1.2 demo_alloc.1.1.2 demo_alloc.1.2 demo_alloc.2 demo_wide)
    = Some (KERNEL_HEAP_BASE + 40) ∧
  (KERNEL_HEAP_BASE + 40) mod layout_align demo_wide = 8.
Proof.
  split; [split; [reflexivity|split; [reflexivity|by exists 4]]|].
  split; [exact demo_alloc_inv|]. split; [vm_compute; reflexivity|reflexivity].
Qed.
