(* ===== verification/SharedSpace.v ===== *)
(** * SharedSpace.v: the heap and two address spaces in one memory

    [KernelHeap.v] keeps the bytes of the heap's window apart from physical
    memory; here they are one memory, [joined], in which the heap grows while a
    user address space shares the kernel's upper half.  [advance] is what a
    step of the kernel may do to the kernel's tables: map new heap pages on
    frames of the free list, and nothing else.  [twin] is the relation between
    the PML4 of the kernel and that of a user process: a heap page mapped
    through one is seen through the other. *)

From S2P Require Import Prelude Machine Pmm Vmm HigherHalf MemoryManager KernelHeap.

Local Open Scope Z_scope.

(** ** One memory *)

(** Physical memory below, the heap's window above. *)
Definition joined (m hm : mem) : mem :=
  base.filter (λ x : Z * Z, x.1 < PHYS_LIMIT) m ∪ base.filter (λ x : Z * Z, PHYS_LIMIT ≤ x.1) hm.

(** [alloc] with the heap and the page tables in the same memory. *)
Definition alloc_in (lay : Layout) (h : KernelHeap) (mm : MemoryManager) (m : mem)
    : outcome (Z * KernelHeap * MemoryManager * mem) :=
  '(p, h, hm, mm, pm) ← alloc h m mm m lay;
  Done (p, h, mm, joined pm hm).

(** The heap's window lies above physical memory. *)
Definition high (x : Z) : Prop := PHYS_LIMIT ≤ x.

Lemma joined_low m hm x : x < PHYS_LIMIT → load8 (joined m hm) x = load8 m x.
Proof.
  intros Hx. unfold load8, joined.
  assert (base.filter (λ x : Z * Z, PHYS_LIMIT ≤ x.1) hm !! x = None) as Hn.
  { apply map_lookup_filter_None. right. intros v _. cbn. lia. }
  destruct (m !! x) as [v|] eqn:Hv.
  - by rewrite (lookup_union_Some_l _ _ x v) by (by apply map_lookup_filter_Some).
  - by rewrite (proj2 (lookup_union_None _ _ x)) by (split; [apply map_lookup_filter_None; by left|done]).
Qed.

Lemma joined_high m hm : agree_off high m (joined m hm).
Proof.
  intros x Hx. apply load64_ext. intros i Hi. apply joined_low. specialize (Hx i Hi). unfold high in Hx. lia.
Qed.

(** Page tables and free list do not see writes outside the frames they own. *)
Lemma vm_inv_off P pmm m m' root l :
  vm_inv pmm m root l → agree_off P m m' → (∀ f x, owned m root l f → span f PAGE_SIZE x → ¬ P x) →
  vm_inv pmm m' root l ∧ (∀ p, table_path p → walk m' root p = walk m root p) ∧
  ∀ p j, table_path p → is_index j → pt_entry m' root p j = pt_entry m root p j.
Proof.
  intros I Hag HP. pose proof I as [Hr Hwf Hap].
  destruct (same_entries_inv m m' root) as [Hw Hpe].
  { intros p f j Hp Hf Hj. apply Hag. intros i Hi. apply (HP f); [right; eauto|].
    unfold span, is_index, PAGE_SIZE in *. lia. }
  split; [|done]. split.
  - eapply (pmm_repr_agree_off P); [done| |done]. intros b x Hb Hx. apply (HP b); [by left|done].
  - split; [intros p f Hp|intros p q f Hp Hq]; rewrite !Hw by done; [by apply (pw_frame _ _ Hwf)|by apply (pw_inj _ _ Hwf)].
  - intros p f Hp. rewrite Hw by done. by apply Hap.
Qed.

Lemma owned_low pmm m root l f x : vm_inv pmm m root l → owned m root l f → span f PAGE_SIZE x → ¬ high x.
Proof.
  intros I Hf Hx Hh. pose proof (frame_range f (owned_frame _ _ _ _ _ I Hf)). unfold high, span in *. lia.
Qed.

Lemma owned_off root l m m' f :
  (∀ p, table_path p → walk m' root p = walk m root p) → owned m' root l f → owned m root l f.
Proof. intros Hw [?|(p & Hp & Hf)]; [by left|right; exists p; by rewrite <- Hw]. Qed.

(** A frame nobody owns keeps its first bytes. *)
Lemma unowned_bytes pmm m root l m' f i :
  vm_inv pmm m root l → agree_off (owned_bytes m root l) m m' → is_frame f → ¬ owned m root l f →
  0 ≤ i < 8 → load8 m' (f + i) = load8 m (f + i).
Proof.
  intros I Hag Hf Hno Hi. apply load64_bytes; [|done].
  pose proof (unowned_entry pmm m root l m' f 0 I Hag Hf Hno ltac:(unfold is_index; lia)) as E.
  unfold entry_at in E. by rewrite Z.mul_0_r, Z.add_0_r in E.
Qed.

Lemma high_entry m m' f j : agree_off high m m' → is_frame f → is_index j → entry_at m' f j = entry_at m f j.
Proof.
  intros Hag Hf Hj. apply Hag. intros i Hi Hh. pose proof (frame_range f Hf). unfold high, is_index, PAGE_SIZE in *. lia.
Qed.

Lemma high_bytes m m' f i : agree_off high m m' → is_frame f → 0 ≤ i < 8 → load8 m' (f + i) = load8 m (f + i).
Proof.
  intros Hag Hf Hi. apply load64_bytes; [|done].
  pose proof (high_entry m m' f 0 Hag Hf ltac:(unfold is_index; lia)) as E. unfold entry_at in E. by rewrite Z.mul_0_r, Z.add_0_r in E.
Qed.

Lemma joined_upper m hm x : PHYS_LIMIT ≤ x → load8 (joined m hm) x = load8 hm x.
Proof.
  intros Hx. unfold load8, joined.
  assert (base.filter (λ x : Z * Z, x.1 < PHYS_LIMIT) m !! x = None) as Hn.
  { apply map_lookup_filter_None. right. intros v _. cbn. lia. }
  rewrite lookup_union_r by done. destruct (hm !! x) as [v|] eqn:Hv.
  - by rewrite (proj2 (map_lookup_filter_Some _ _ x v)).
  - by rewrite (proj2 (map_lookup_filter_None _ _ x)) by (by left).
Qed.

Lemma joined_off m hm : agree_off (λ x, ¬ high x) hm (joined m hm).
Proof.
  intros x Hx. apply load64_ext. intros i Hi. apply joined_upper. apply dec_stable, Hx, Hi.
Qed.

(** ** The heap and writes *)

(** The address [allocate] returns for a block. *)
Definition data (b : alloc_block) : Z := ab_start b + ab_offset b.

(** The block an allocation of this layout gets. *)
Definition block_for (lay : Layout) (b : alloc_block) : Prop :=
  ab_offset b = Z.max 16 (layout_align lay) ∧ ab_total b = ab_offset b + layout_size lay.

(** The heap's own bytes are the headers of its blocks. *)
Lemma heap_inv_off P h hm hm' bs live :
  heap_inv h hm bs live → agree_off P hm hm' →
  (∀ b x, b ∈ bs → span b.1 16 x → ¬ P x) → (∀ b x, b ∈ live → span (ab_start b) (ab_offset b) x → ¬ P x) →
  heap_inv h hm' bs live.
Proof.
  intros [[Hb Hl Hok] Hh Hr Hf Ha] Hag HP1 HP2. split; [|..|done|done]; [split; [done| |done]| |done].
  - eapply lseg_agree; [|exact Hl]. intros b Hin. split; apply Hag; intros i Hi; apply (HP1 b); [done| |done|]; unfold span; lia.
  - intros b Hin. destruct (Hh b Hin) as (Ho & H1 & H2). split; [done|].
    split; (rewrite Hag; [done|]); intros i Hi; apply (HP2 b); [done| |done|]; unfold span; lia.
Qed.

Section blocks.
Context (h : KernelHeap) (hm : mem) (bs : list block) (live : list alloc_block).
Hypothesis Hinv : heap_inv h hm bs live.

Lemma live_range b : b ∈ live → base h ≤ ab_start b ∧ data b + (ab_total b - ab_offset b) ≤ base h + committed h ∧ 16 ≤ ab_offset b ≤ ab_total b.
Proof.
  intros Hb. destruct (hi_range _ _ _ _ Hinv b Hb). destruct (hi_header _ _ _ _ Hinv b Hb) as [Ho _].
  unfold data. lia.
Qed.

Lemma free_range b : b ∈ bs → base h ≤ b.1.
Proof.
  intros Hb. destruct Hinv as [[_ _ Hok] _ _ _ _].
  by destruct (blocks_weak_in _ _ _ b (blocks_ok_weak _ _ _ Hok) Hb) as (? & _).
Qed.

(** Memory below the heap. *)
Lemma heap_inv_below hm' : agree_off (λ x, ¬ high x) hm hm' → high (base h) → heap_inv h hm' bs live.
Proof.
  intros Hag Hh. eapply heap_inv_off; [exact Hinv|exact Hag|..]; intros b x Hb Hx Hno; apply Hno; unfold high, span in *.
  - pose proof (free_range b Hb). lia.
  - pose proof (live_range b Hb). lia.
Qed.

(** The data of a live block. *)
Lemma heap_inv_data b n hm' :
  b ∈ live → n ≤ ab_total b - ab_offset b → agree_off (span (data b) n) hm hm' → heap_inv h hm' bs live.
Proof.
  intros Hb Hn Hag. assert (Hin : ∀ x, span (data b) n x → block_byte b x).
  { intros x Hx. unfold block_byte, span, data in *. pose proof (live_range b Hb). lia. }
  eapply heap_inv_off; [exact Hinv|exact Hag|..].
  - intros c x Hc Hx Hx'. apply (hi_free _ _ _ _ Hinv b x Hb (Hin x Hx')). exists c. split; [done|].
    destruct Hinv as [[_ _ Hok] _ _ _ _].
    destruct (blocks_weak_in _ _ _ c (blocks_ok_weak _ _ _ Hok) Hc) as (_ & Hsz & _).
    unfold FreeBlock_SIZE, span in *. lia.
  - intros c x Hc Hx Hx'. assert (block_byte c x) as Hcx.
    { pose proof (live_range c Hc). unfold block_byte, span in *. lia. }
    apply list_elem_of_lookup in Hb as [i Hi]. apply list_elem_of_lookup in Hc as [j Hj].
    destruct (decide (i = j)) as [<-|Hij]; [|by apply (hi_apart _ _ _ _ Hinv i j b c x Hi Hj Hij (Hin x Hx'))].
    assert (b = c) as <- by congruence. unfold span, data in *. lia.
Qed.
End blocks.

(** Two live blocks have two addresses. *)
Lemma data_fresh h hm bs b live : heap_inv h hm bs (b :: live) → data b ∉ data <$> live.
Proof.
  intros Hinv (c & E & Hc)%list_elem_of_fmap. pose proof Hc as [j Hj]%list_elem_of_lookup.
  pose proof (live_range _ _ _ _ Hinv b ltac:(left)) as Hb. pose proof (live_range _ _ _ _ Hinv c ltac:(by right)) as Hc'.
  apply (hi_apart _ _ _ _ Hinv 0 (S j) b c (data b - 1) eq_refl Hj ltac:(done)).
  - unfold block_byte, span, data in *. lia.
  - rewrite E. unfold block_byte, span, data in *. lia.
Qed.

(** ** Walks from their first entry *)

Lemma walk_top m r i p : walk m r (i :: p) = pt_entry m r [] i ≫= λ e, walk m (pte_addr e) p.
Proof. unfold pt_entry. cbn. by destruct (absent (entry_at m r i)). Qed.

Lemma top_path i : is_index i → table_path ([] ++ [i]).
Proof. intros Hi. split; [cbn; lia|by apply Forall_singleton]. Qed.

Lemma nil_path : table_path [].
Proof. split; [cbn; lia|constructor]. Qed.

Lemma path_head i p : table_path (i :: p) → is_index i.
Proof. intros [_ H]. by apply Forall_cons in H as [? _]. Qed.

(** ** The kernel's tables from one state to a later one *)

(** From [h], [m] and [l] to [h'], [m'] and [l']: the new heap pages are mapped
    on the frames [fs] of the free list, nothing else of the kernel's
    translation changes, and no frame joins those the kernel owns. *)
Record advance (root : Z) (h : KernelHeap) (m : mem) (l : list Z) (h' : KernelHeap) (m' : mem) (l' fs : list Z) : Prop := {
  ad_base : base h' = base h;
  ad_max : max_size h' = max_size h;
  ad_committed : committed h' = committed h + Z.of_nat (length fs) * PAGE_SIZE;
  ad_sub : l' ⊆ l;
  ad_frames : NoDup fs ∧ ∀ f, f ∈ fs → f ∈ l ∧ ¬ owned m' root l' f;
  ad_owned : ∀ f, owned m' root l' f → owned m root l f;
  ad_top : ∀ j, is_index j → pt_entry m' root [] j = pt_entry m root [] j;
  ad_pte : ∀ va, pte_of m' root va = requested (fresh_requests (heap_va h) heap_flags fs) va (pte_of m root va)
}.

(** What such a step writes. *)
Definition kernel_byte (m : mem) (root : Z) (l : list Z) (x : Z) : Prop := owned_bytes m root l x ∨ high x.

(** A step that leaves the kernel's tables and the heap's bounds alone. *)
Lemma advance_quiet root h m l m' l' :
  l' ⊆ l → (∀ p, table_path p → walk m' root p = walk m root p) →
  (∀ p j, table_path p → is_index j → pt_entry m' root p j = pt_entry m root p j) →
  advance root h m l h m' l' [].
Proof.
  intros Hl Hw Hp. split; try done; [cbn; lia|..].
  - split; [constructor|]. by intros f ?%not_elem_of_nil.
  - intros f [Hf|(p & Htp & Hf)]; [left; by apply Hl|right]. exists p. by rewrite <- Hw.
  - intros j Hj. apply Hp; [apply nil_path|done].
  - intros va. apply Hp; auto with vmm.
Qed.

Lemma requested_shift h h1 fs1 fs2 va old :
  base h1 = base h → committed h1 = committed h + Z.of_nat (length fs1) * PAGE_SIZE →
  requested (fresh_requests (heap_va h1) heap_flags fs2) va (requested (fresh_requests (heap_va h) heap_flags fs1) va old) =
    requested (fresh_requests (heap_va h) heap_flags (fs1 ++ fs2)) va old.
Proof.
  intros Hb Hc. unfold fresh_requests. rewrite imap_app, requested_app. f_equal. apply imap_ext. intros k f _.
  unfold heap_va. rewrite Hb, Hc. cbn. do 2 f_equal. lia.
Qed.

Lemma advance_trans root h m l h1 m1 l1 fs1 h2 m2 l2 fs2 :
  advance root h m l h1 m1 l1 fs1 → advance root h1 m1 l1 h2 m2 l2 fs2 → advance root h m l h2 m2 l2 (fs1 ++ fs2).
Proof.
  intros [B1 M1 C1 S1 [N1 F1] O1 T1 P1] [B2 M2 C2 S2 [N2 F2] O2 T2 P2]. split.
  - congruence.
  - congruence.
  - rewrite C2, C1, length_app. lia.
  - by transitivity l1.
  - split.
    + apply NoDup_app. split; [done|]. split; [|done]. intros f Hf1 Hf2. apply (F1 f Hf1). left. by apply F2.
    + intros f [Hf|Hf]%elem_of_app.
      * split; [by apply F1|]. intros Ho%O2. by apply (F1 f Hf).
      * split; [by apply S1, F2|by apply F2].
  - intros f Hf. by apply O1, O2.
  - intros j Hj. by rewrite T2, T1.
  - intros va. rewrite P2, P1. by apply requested_shift.
Qed.

Lemma kernel_byte_sub root h m l h1 m1 l1 fs x :
  advance root h m l h1 m1 l1 fs → kernel_byte m1 root l1 x → kernel_byte m root l x.
Proof. intros A [(f & Hf & Hx)|Hx]; [left; exists f; split; [by eapply ad_owned|done]|by right]. Qed.

(** Such a step, with its writes. *)
Definition stepped (root : Z) (h : KernelHeap) (m : mem) (l : list Z) (h' : KernelHeap) (m' : mem) (l' fs : list Z) : Prop :=
  advance root h m l h' m' l' fs ∧ agree_off (kernel_byte m root l) m m'.

Lemma stepped_refl root h m l : stepped root h m l h m l [].
Proof. split; [by apply advance_quiet|apply agree_off_refl]. Qed.

Lemma stepped_trans root h m l h1 m1 l1 fs1 h2 m2 l2 fs2 :
  stepped root h m l h1 m1 l1 fs1 → stepped root h1 m1 l1 h2 m2 l2 fs2 → stepped root h m l h2 m2 l2 (fs1 ++ fs2).
Proof.
  intros [A1 H1] [A2 H2]. split; [by eapply advance_trans|]. eapply agree_off_trans; [exact H1|].
  eapply agree_off_mono; [|exact H2]. intros x. by eapply kernel_byte_sub.
Qed.

(** A frame the kernel does not own keeps its words. *)
Lemma unowned_off pmm m root l m' f :
  vm_inv pmm m root l → agree_off (kernel_byte m root l) m m' → is_frame f → ¬ owned m root l f →
  (∀ j, is_index j → entry_at m' f j = entry_at m f j) ∧ ∀ i, 0 ≤ i < 8 → load8 m' (f + i) = load8 m (f + i).
Proof.
  intros I Hag Hf Hno. assert (He : ∀ j, is_index j → entry_at m' f j = entry_at m f j).
  { intros j Hj. apply Hag. pose proof (frame_range f Hf). intros k Hk [(g & Hg & Hs)|Hh].
    - assert (f ≠ g) as Hne by by intros ->.
      destruct (frame_disjoint f g Hf (owned_frame _ _ _ _ _ I Hg) Hne); unfold span, is_index, PAGE_SIZE in *; lia.
    - unfold high, is_index, PAGE_SIZE in *. lia. }
  split; [exact He|]. intros i Hi. apply load64_bytes; [|done].
  specialize (He 0 ltac:(unfold is_index; lia)). unfold entry_at in He. by rewrite Z.mul_0_r, Z.add_0_r in He.
Qed.

(** ** Two address spaces *)

(** The PML4 of the kernel has an empty lower half, that of the process repeats
    its upper half, and the kernel's PML4 is not a table of the process. *)
Record twin (pmm : PhysicalMemoryManager) (m : mem) (kroot uroot : Z) (l : list Z) : Prop := {
  tw_inv : vm_inv pmm m uroot l;
  tw_frame : is_frame kroot;
  tw_low : ∀ j, 0 ≤ j < 256 → pt_entry m kroot [] j = None;
  tw_high : ∀ j, 256 ≤ j < 512 → pt_entry m uroot [] j = pt_entry m kroot [] j;
  tw_root : ¬ owned m uroot l kroot
}.

Section twin.
Context (pmm : PhysicalMemoryManager) (m : mem) (kroot uroot : Z) (l : list Z).
Hypothesis Htw : twin pmm m kroot uroot l.

Lemma twin_walk i p : table_path (i :: p) →
  walk m kroot (i :: p) = if decide (i < 256) then None else walk m uroot (i :: p).
Proof.
  intros Hp. pose proof (path_head i p Hp) as Hi. unfold is_index in Hi. rewrite !walk_top.
  case_decide; [by rewrite (tw_low _ _ _ _ _ Htw) by lia|by rewrite (tw_high _ _ _ _ _ Htw) by lia].
Qed.

Lemma twin_pte va : pte_of m kroot va = if decide (pml4_index va < 256) then None else pte_of m uroot va.
Proof.
  unfold pte_of, pt_entry, va_path. rewrite twin_walk by apply va_path_ok. by case_decide.
Qed.

Lemma twin_owned f : owned m kroot l f → f = kroot ∨ owned m uroot l f.
Proof.
  intros [Hf|([|i p] & Hp & Hf)]; [right; by left|left; by injection Hf|right; right].
  rewrite twin_walk in Hf by done. case_decide; [done|]. by exists (i :: p).
Qed.

(** The kernel's own tables are a tree too. *)
Lemma twin_kernel : vm_inv pmm m kroot l.
Proof.
  pose proof Htw as [[Hr Hwf Hap] Hk _ _ Hno].
  assert (Hsub : ∀ i p f, table_path (i :: p) → walk m kroot (i :: p) = Some f → walk m uroot (i :: p) = Some f ∧ f ≠ kroot).
  { intros i p f Hp Hf. rewrite twin_walk in Hf by done. case_decide; [done|]. split; [done|].
    intros ->. apply Hno. right. by exists (i :: p). }
  split; [done|split|].
  - intros [|i p] f Hp Hf; [by injection Hf as <-|]. apply Hsub in Hf as [Hf _]; [|done]. by apply (pw_frame _ _ Hwf (i :: p)).
  - intros [|i p] [|j q] f Hp Hq Hf Hg; [done|..].
    + injection Hf as <-. by destruct (Hsub _ _ _ Hq Hg).
    + injection Hg as <-. by destruct (Hsub _ _ _ Hp Hf).
    + apply Hsub in Hf as [Hf _], Hg as [Hg _]; [|done..]. by apply (pw_inj _ _ Hwf _ _ f).
  - intros [|i p] f Hp Hf; [injection Hf as <-; intros Hin; apply Hno; by left|].
    apply Hsub in Hf as [Hf _]; [|done]. by apply (Hap _ _ Hp).
Qed.

(** The tables of the lower half, and the PML4 of the process, are not the
    kernel's. *)
Lemma twin_private p f : table_path p → walk m uroot p = Some f → hd 0 p < 256 → ¬ owned m kroot l f.
Proof.
  pose proof Htw as [[_ Hwf Hap] _ _ _ Hno]. intros Hp Hf Hhd [Hin|([|i q] & Hq & Hg)].
  - by apply (Hap p f).
  - injection Hg as <-. apply Hno. right. by exists p.
  - rewrite twin_walk in Hg by done. case_decide as Hlt; [done|].
    rewrite (pw_inj _ _ Hwf p (i :: q) f Hp Hq Hf Hg) in Hhd. by apply Hlt.
Qed.
End twin.

(** A step of the kernel keeps the two spaces as they are related, and the
    lower half of the process as it is. *)
Section twin_step.
Context (pmm pmm' : PhysicalMemoryManager) (h h' : KernelHeap) (m m' : mem) (kroot uroot : Z) (l l' fs : list Z).
Hypothesis Htw : twin pmm m kroot uroot l.
Hypothesis Hinv : vm_inv pmm' m' kroot l'.
Hypothesis Hadv : advance kroot h m l h' m' l' fs.
Hypothesis Hoff : agree_off (kernel_byte m kroot l) m m'.

Lemma step_private p f j : table_path p → walk m uroot p = Some f → hd 0 p < 256 → is_index j →
  entry_at m' f j = entry_at m f j.
Proof.
  intros Hp Hf Hhd Hj.
  apply (unowned_off pmm m kroot l m' f (twin_kernel _ _ _ _ _ Htw) Hoff); [|by eapply twin_private|done].
  by apply (pw_frame _ _ (vi_wf _ _ _ _ (tw_inv _ _ _ _ _ Htw)) p).
Qed.

Lemma step_top j : is_index j → pt_entry m' uroot [] j = pt_entry m uroot [] j.
Proof.
  intros Hj. unfold pt_entry. cbn [walk mbind option_bind].
  by rewrite (step_private [] uroot j nil_path eq_refl ltac:(cbn; lia) Hj).
Qed.

Lemma step_low p : table_path p → hd 0 p < 256 → walk m' uroot p = walk m uroot p.
Proof.
  intros Hp Hhd. induction p as [|i p IH] using rev_ind; [done|].
  pose proof (table_path_prefix _ _ Hp) as Hp'.
  assert (Hhd' : hd 0 p < 256) by (destruct p; cbn in *; lia). specialize (IH Hp' Hhd').
  rewrite !walk_app, IH. destruct (walk m uroot p) as [f|] eqn:Hf; [|done]. cbn [mbind option_bind walk].
  assert (is_index i) as Hi by (destruct Hp as [_ H]; apply Forall_app in H as [_ H]; by inversion H).
  by rewrite (step_private p f i Hp' Hf Hhd' Hi).
Qed.

Lemma step_high i p : table_path (i :: p) → 256 ≤ i → walk m' uroot (i :: p) = walk m' kroot (i :: p).
Proof.
  intros Hp Hi. pose proof (path_head i p Hp) as Hx. rewrite !walk_top.
  rewrite step_top by done. rewrite (tw_high _ _ _ _ _ Htw) by (unfold is_index in Hx; lia).
  by rewrite (ad_top _ _ _ _ _ _ _ _ Hadv).
Qed.

(** A table of the process is in its lower half, where it was, or the kernel's. *)
Lemma step_cases p f : table_path p → walk m' uroot p = Some f →
  (hd 0 p < 256 ∧ walk m uroot p = Some f ∧ ¬ owned m' kroot l' f) ∨
  (256 ≤ hd 0 p ∧ walk m' kroot p = Some f ∧ f ≠ kroot).
Proof.
  intros Hp Hf. destruct (decide (hd 0 p < 256)) as [Hlt|Hge].
  - left. rewrite step_low in Hf by done. split; [done|]. split; [done|].
    intros Ho%(ad_owned _ _ _ _ _ _ _ _ Hadv). by apply (twin_private _ _ _ _ _ Htw p f).
  - right. destruct p as [|i p]; [cbn in Hge; lia|]. cbn in Hge |- *. rewrite step_high in Hf by (done || lia).
    split; [lia|]. split; [done|]. intros ->.
    by discriminate (pw_inj _ _ (vi_wf _ _ _ _ Hinv) [] (i :: p) kroot nil_path Hp eq_refl Hf).
Qed.

Lemma step_owned f : owned m' uroot l' f → owned m uroot l f.
Proof.
  intros [Hf|(p & Hp & Hf)]; [left; by apply (ad_sub _ _ _ _ _ _ _ _ Hadv)|].
  destruct (step_cases p f Hp Hf) as [(_ & Hf' & _)|(_ & Hf' & Hne)]; [right; by exists p|].
  assert (owned m kroot l f) as Ho by (apply (ad_owned _ _ _ _ _ _ _ _ Hadv); right; by exists p).
  by destruct (twin_owned _ _ _ _ _ Htw f Ho).
Qed.

Lemma step_twin : twin pmm' m' kroot uroot l'.
Proof.
  pose proof Htw as [[_ Hwf Hap] Hk Hlow Hhigh Hno]. pose proof Hinv as [Hr' Hwf' Hap']. split; [split; [done|split|]|..].
  - intros p f Hp Hf. destruct (step_cases p f Hp Hf) as [(_ & ? & _)|(_ & ? & _)]; [by apply (pw_frame _ _ Hwf p)|by apply (pw_frame _ _ Hwf' p)].
  - intros p q f Hp Hq Hf Hg.
    destruct (step_cases p f Hp Hf) as [(_ & Hf' & Hn)|(_ & Hf' & _)], (step_cases q f Hq Hg) as [(_ & Hg' & Hn')|(_ & Hg' & _)].
    + by apply (pw_inj _ _ Hwf _ _ f).
    + destruct Hn. right. by exists q.
    + destruct Hn'. right. by exists p.
    + by apply (pw_inj _ _ Hwf' _ _ f).
  - intros p f Hp Hf. destruct (step_cases p f Hp Hf) as [(_ & _ & Hn)|(_ & Hf' & _)]; [|by apply (Hap' p)].
    intros Hin. apply Hn. by left.
  - done.
  - intros j Hj. rewrite (ad_top _ _ _ _ _ _ _ _ Hadv) by (unfold is_index; lia). by apply Hlow.
  - intros j Hj. rewrite step_top by (unfold is_index; lia).
    rewrite (ad_top _ _ _ _ _ _ _ _ Hadv) by (unfold is_index; lia). by apply Hhigh.
  - by intros Ho%step_owned.
Qed.

Lemma step_user va : pml4_index va < 256 → pte_of m' uroot va = pte_of m uroot va.
Proof.
  intros Hva. unfold pte_of, pt_entry. rewrite step_low; [|apply va_path_ok|done].
  destruct (walk m uroot (va_path va)) as [f|] eqn:Hf; [|done]. cbn [mbind option_bind].
  by rewrite (step_private (va_path va) f (pt_index va) (va_path_ok va) Hf Hva (pt_index_ok va)).
Qed.
End twin_step.

(** ** Allocations in one memory *)

(** The PML4 entry the heap's window lies under. *)
Definition HEAP_SLOT : Z := pml4_index KERNEL_HEAP_BASE.

Lemma heap_slot va : KERNEL_HEAP_BASE ≤ va < KERNEL_HEAP_BASE + 2 ^ 30 → pml4_index va = HEAP_SLOT.
Proof.
  unfold pml4_index, HEAP_SLOT, pml4_index. rewrite !Z.shiftr_div_pow2 by lia. intros Hva. f_equal. symmetry.
  apply (Z.div_unique _ _ _ (va - KERNEL_HEAP_BASE)); [left; unfold KERNEL_HEAP_BASE in *; lia|].
  change (KERNEL_HEAP_BASE / 2 ^ 39) with 33554240. unfold KERNEL_HEAP_BASE in *. lia.
Qed.

(** Layouts of at most five pages, header included. *)
Definition small_layout (lay : Layout) : Prop :=
  layout_ok lay ∧ Z.max 16 (layout_align lay) + layout_size lay ≤ 5 * PAGE_SIZE.

(** The pages one small allocation can take: five for data, and three tables
    for each of them. *)
Definition ALLOC_FRAMES : nat := 20.

(** The heap and the kernel's tables are well formed, in a state with means for
    [n] more small allocations. *)
Record heaped (h : KernelHeap) (mm : MemoryManager) (m : mem) (root : Z) (l : list Z) (bs : list block)
    (live : list alloc_block) (n : nat) : Prop := {
  he_heap : heap_inv h m bs live;
  he_base : base h = KERNEL_HEAP_BASE;
  he_max : max_size h ≤ 2 ^ 30;
  he_room : committed h + Z.of_nat n * (5 * PAGE_SIZE) ≤ max_size h;
  he_inv : vm_inv (mm_pmm mm) m root l;
  he_pml4 : ptr_to (mm_pml4 mm) root;
  he_frames : (ALLOC_FRAMES * n ≤ length l)%nat;
  he_slot : is_Some (pt_entry m root [] HEAP_SLOT)
}.

Lemma heaped_high h mm m root l bs live n : heaped h mm m root l bs live n → high (base h).
Proof. intros H. rewrite (he_base _ _ _ _ _ _ _ _ H). unfold high, PHYS_LIMIT, KERNEL_HEAP_BASE. lia. Qed.

(** [grow] is an advance. *)
Lemma grown_advance h mm m root l n mm' m' h' :
  base h = KERNEL_HEAP_BASE → 0 ≤ committed h → 0 ≤ n → committed h + n * PAGE_SIZE ≤ 2 ^ 30 →
  is_Some (pt_entry m root [] HEAP_SLOT) → grown h mm m root l n n (mm', m') →
  base h' = base h → max_size h' = max_size h → committed h' = committed h + n * PAGE_SIZE →
  ∃ pmm l' fs, mm' = with_pmm mm pmm ∧ vm_inv pmm m' root l' ∧ advance root h m l h' m' l' fs ∧
    Z.of_nat (length fs) = n ∧ agree_off (owned_bytes m root l) m m' ∧
    (length l ≤ length l' + need m root (heap_tables h n) + Z.to_nat n)%nat.
Proof.
  intros Hb Hc0 Hn0 Hroom Hslot (pmm & l' & fs & E & I & (_ & _ & F) & Hlen & Hnd & Hsub & Hfr & Ho & Hag & Hlk & Hup & HT) Eb Em Ec.
  cbn [fst snd] in *. exists pmm, l', fs. split; [done|]. split; [done|]. split; [|unfold slack in F; split; [done|]; split; [done|lia]].
  split; try done; [lia|]. intros j Hj. destruct (decide (j = HEAP_SLOT)) as [->|Hne].
  - by apply Hlk; [apply top_path|].
  - apply Hup; [apply nil_path|done|]. intros k Hk Hpre. apply prefix_head in Hpre; [|done]. cbn in Hpre.
    rewrite heap_slot in Hpre; [done|]. unfold heap_va. rewrite Hb. unfold PAGE_SIZE in *. lia.
Qed.

(** The tables of [n] pages are at most three times as many. *)
Lemma heap_tables_count h n : 0 ≤ n → (length (heap_tables h n) ≤ 3 * Z.to_nat n)%nat.
Proof.
  intros Hn. unfold heap_tables. transitivity (length (seqZ 0 n ≫= λ i, va_tables (heap_va h i))).
  { apply submseteq_length, NoDup_submseteq; [apply NoDup_remove_dups|]. intros p. apply elem_of_remove_dups. }
  rewrite <- (length_seqZ 0 n). induction (seqZ 0 n) as [|i js IH]; [done|].
  rewrite bind_cons, length_app. change (length (va_tables (heap_va h i))) with 3%nat. cbn [length]. lia.
Qed.

Lemma small_pages lay : small_layout lay → 4 ≤ pages_needed (allocation_sizes lay).1 ≤ 5.
Proof.
  intros [Hok Hs]. rewrite allocation_sizes_ok by done. cbn [fst]. destruct Hok as (H1 & _ & k & Hk & E).
  rewrite E in *. assert (0 < 2 ^ k) by lia. destruct (pages_needed_ok (Z.max 16 (2 ^ k) + layout_size lay)) as [_ ?]; [unfold PAGE_SIZE in Hs; lia|].
  split; [lia|]. unfold pages_needed, PAGE_SIZE in *. rewrite (u64_small (_ + 4096)), u64_small by (unfold W64; lia).
  apply Z.max_lub; [|lia]. assert ((Z.max 16 (2 ^ k) + layout_size lay + 4096 - 1) / 4096 < 6); [|lia].
  apply Z.div_lt_upper_bound; lia.
Qed.

Lemma need_tables h m root n : 0 ≤ n → (need m root (heap_tables h n) ≤ 3 * Z.to_nat n)%nat.
Proof. intros Hn. etransitivity; [apply need_le|by apply heap_tables_count]. Qed.

(** The part of an allocation that concerns the page tables. *)
Lemma alloc_tables h mm m root l bs live n lay :
  heaped h mm m root l bs live (S n) → small_layout lay →
  (first_fit (allocation_sizes lay).1 bs = None → can_grow h mm m root l (pages_needed (allocation_sizes lay).1)).
Proof.
  intros [Hh Hb Hm Hr Hi Hp Hf Hs] Hlay _. pose proof (small_pages lay Hlay) as Hn. unfold ALLOC_FRAMES in Hf.
  set (k := pages_needed _) in *. split; [lia| |done|done|].
  - unfold PAGE_SIZE in *. lia.
  - pose proof (need_tables h m root k ltac:(lia)). lia.
Qed.

(** A small allocation succeeds: a block no one has, and at most five new heap
    pages. *)
Lemma alloc_in_ok h mm m root l bs live n lay :
  heaped h mm m root l bs live (S n) → small_layout lay →
  ∃ b h' mm' m' l' bs' fs, alloc_in lay h mm m = Done (data b, h', mm', m') ∧ block_for lay b ∧
    heaped h' mm' m' root l' bs' (b :: live) n ∧ stepped root h m l h' m' l' fs.
Proof.
  intros He Hlay. pose proof He as [Hh Hb Hm Hr Hi Hp Hf Hs]. pose proof (small_pages lay Hlay) as Hn.
  destruct (hp_bounds _ _ _ (hi_repr _ _ _ _ Hh)) as [_ [Hc0 _] _].
  destruct (allocate_ok h m mm m root l bs live lay Hh (proj1 Hlay) (alloc_tables _ _ _ _ _ _ _ _ _ He Hlay))
    as (p & h' & hm' & mm' & pm' & E & (b & bs' & -> & Ho & Ht & Hinv & Eb & Em & _) & Hcase).
  assert (∃ pmm l' fs, mm' = with_pmm mm pmm ∧ vm_inv pmm pm' root l' ∧ advance root h m l h' pm' l' fs ∧
    Z.of_nat (length fs) ≤ 5 ∧ agree_off (owned_bytes m root l) m pm' ∧ (length l ≤ length l' + ALLOC_FRAMES)%nat)
    as (pmm & l1 & fs & Emm & I1 & A1 & Hfs & Hoff & Hl1).
  { destruct (first_fit _ bs).
    - destruct Hcase as (-> & -> & Ec). exists (mm_pmm mm), l, []. split; [by destruct mm|]. split; [done|].
      split; [|cbn; split; [lia|split; [apply agree_off_refl|unfold ALLOC_FRAMES; lia]]].
      destruct (advance_quiet root h m l m l ltac:(done) ltac:(done) ltac:(done)). split; try done. rewrite Ec. cbn. lia.
    - destruct Hcase as [Hg Ec]. set (k := pages_needed _) in *.
      destruct (grown_advance h mm m root l k mm' pm' h' Hb Hc0 ltac:(lia) ltac:(unfold PAGE_SIZE in *; lia) Hs Hg Eb Em Ec)
        as (pmm & l' & fs & ? & ? & ? & ? & ? & Hl). pose proof (need_tables h m root k ltac:(lia)).
      exists pmm, l', fs. split; [done|]. split; [done|]. split; [done|]. split; [lia|]. split; [done|]. unfold ALLOC_FRAMES. lia. }
  set (m' := joined pm' hm').
  destruct (vm_inv_off high pmm pm' m' root l1 I1 (joined_high pm' hm')) as (I2 & W2 & P2); [intros f x; by apply (owned_low pmm)|].
  pose proof (advance_trans _ _ _ _ _ _ _ _ _ _ _ _ A1 (advance_quiet root h' pm' l1 m' l1 ltac:(done) W2 P2)) as A2.
  rewrite app_nil_r in A2.
  exists b, h', mm', m', l1, bs', fs. split; [unfold alloc_in, alloc; by rewrite E|]. split; [by split|]. split; [|split; [exact A2|]].
  - split.
    + apply (heap_inv_below h' hm'); [done|apply joined_off|]. rewrite Eb. by eapply heaped_high.
    + congruence.
    + by rewrite Em.
    + rewrite Em, (ad_committed _ _ _ _ _ _ _ _ A2). unfold PAGE_SIZE in *. lia.
    + by subst mm'.
    + by subst mm'.
    + unfold ALLOC_FRAMES in *. lia.
    + rewrite (ad_top _ _ _ _ _ _ _ _ A2); [done|apply pml4_index_ok].
  - eapply agree_off_trans; [eapply agree_off_mono; [|exact Hoff]|eapply agree_off_mono; [|apply joined_high]]; [by left|by right].
Qed.

Lemma heap_inv_empty h hm bs : heap_repr h hm bs → heap_inv h hm bs [].
Proof.
  intros Hr. split; [exact Hr|by intros b ?%not_elem_of_nil|by intros b ?%not_elem_of_nil|by intros b x ?%not_elem_of_nil|].
  intros i j b c x H. by rewrite lookup_nil in H.
Qed.

(** The heap after its first pages, in one memory with the page tables. *)
Lemma heap_started h mm m root l k h' hm mm' pm bs live n :
  base h = KERNEL_HEAP_BASE → committed h = 0 → max_size h ≤ 2 ^ 30 → 0 < k →
  k * PAGE_SIZE + Z.of_nat n * (5 * PAGE_SIZE) ≤ max_size h →
  grown h mm m root l k k (mm', pm) → same_range (set_committed h (k * PAGE_SIZE)) h' → heap_inv h' hm bs live →
  ptr_to (mm_pml4 mm) root → (need m root (heap_tables h k) + Z.to_nat k + ALLOC_FRAMES * n ≤ length l)%nat →
  (∀ j, 0 ≤ j < 256 → pt_entry m root [] j = None) →
  ∃ l', heaped h' mm' (joined pm hm) root l' bs live n ∧ ∀ j, 0 ≤ j < 256 → pt_entry (joined pm hm) root [] j = None.
Proof.
  intros Hb Hc Hm Hk Hroom (pmm & l' & fs & E & I & (_ & _ & F) & Hlen & _ & _ & _ & _ & _ & _ & Hup & HT) Hs Hinv Hp Hl Hlow.
  cbn [fst snd] in *. subst mm'. unfold slack in F.
  destruct (vm_inv_off high pmm pm (joined pm hm) root l' I (joined_high pm hm)) as (I2 & _ & P2); [intros f x; by apply (owned_low pmm)|].
  assert (Eb : base h' = KERNEL_HEAP_BASE) by (by rewrite Hs).
  assert (Hva : ∀ i, 0 ≤ i < k → pml4_index (heap_va h i) = HEAP_SLOT).
  { intros i Hi. apply heap_slot. unfold heap_va. rewrite Hb, Hc. unfold PAGE_SIZE in *. lia. }
  exists l'. split; [split|].
  - apply (heap_inv_below h' hm); [done|apply joined_off|]. rewrite Eb. unfold high, PHYS_LIMIT, KERNEL_HEAP_BASE. lia.
  - done.
  - by rewrite Hs.
  - by rewrite Hs.
  - exact I2.
  - done.
  - unfold ALLOC_FRAMES in *. lia.
  - rewrite P2 by (apply nil_path || apply pml4_index_ok).
    destruct fs as [|f fs]; [cbn in Hlen; lia|]. destruct (requested_hit (fresh_requests (heap_va h) heap_flags (f :: fs)) (heap_va h 0)
      (heap_va h 0, f, heap_flags) (pte_of m root (heap_va h 0))) as (r & _ & _ & Hr); [left|done|]. rewrite <- HT in Hr.
    unfold pte_of, va_path, pt_entry in Hr. rewrite walk_top, Hva in Hr by lia.
    destruct (pt_entry pm root [] HEAP_SLOT); [by eexists|discriminate Hr].
  - intros j Hj. assert (is_index j) as Hi by (unfold is_index; lia). rewrite P2 by (done || apply nil_path).
    rewrite Hup; [by apply Hlow|apply nil_path|done|]. intros i Hi' Hpre. apply prefix_head in Hpre; [|done]. cbn in Hpre.
    rewrite Hva in Hpre by lia. change HEAP_SLOT with 320 in Hpre. lia.
Qed.

(** Writes to the data of a live block. *)
Lemma heaped_write h mm m root l bs live n b k m' :
  heaped h mm m root l bs live n → b ∈ live → k ≤ ab_total b - ab_offset b → agree_off (span (data b) k) m m' →
  heaped h mm m' root l bs live n ∧ stepped root h m l h m' l [].
Proof.
  intros He Hb Hk Hag. pose proof He as [Hh Eb Hm Hr Hi Hp Hf Hs].
  assert (Hag' : agree_off high m m').
  { eapply agree_off_mono; [|exact Hag]. intros x Hx. pose proof (heaped_high _ _ _ _ _ _ _ _ He).
    pose proof (live_range _ _ _ _ Hh b Hb). unfold high, span, data in *. lia. }
  destruct (vm_inv_off high (mm_pmm mm) m m' root l Hi Hag') as (I2 & W2 & P2); [intros f x; by apply (owned_low (mm_pmm mm))|].
  split; [|split; [by apply advance_quiet|eapply agree_off_mono; [|exact Hag']; by right]]. split; try done.
  - by eapply heap_inv_data.
  - by rewrite P2; [|apply nil_path|apply pml4_index_ok].
Qed.

(** ** Steps through the two address spaces *)

(** [AddressSpace::init] makes a twin and is an advance without new pages. *)
Lemma space_twin mm m kroot uroot l pmm' m' l' fs h :
  is_frame kroot → (∀ j, 0 ≤ j < 256 → pt_entry m kroot [] j = None) → space_made mm m kroot uroot l pmm' m' l' fs →
  twin pmm' m' kroot uroot l' ∧ advance kroot h m (uroot :: l) h m' l' [].
Proof.
  intros Hk Hlow [_ I _ _ Ho _ _ Hkern [Hno Hent] Hshare _ Hsub].
  assert (Htop : ∀ j, is_index j → pt_entry m' kroot [] j = pt_entry m kroot [] j).
  { intros j Hj. unfold pt_entry. cbn [walk mbind option_bind]. by rewrite Hent. }
  assert (Htw : twin pmm' m' kroot uroot l').
  { split; try done; intros j Hj; rewrite Htop by (unfold is_index; lia); [by apply Hlow|by apply Hshare]. }
  split; [exact Htw|]. split; try done; [cbn; lia|..].
  - intros f Hf. right. by apply Hsub.
  - split; [constructor|]. by intros f ?%not_elem_of_nil.
  - intros f [->|Hf]%(twin_owned _ _ _ _ _ Htw); [apply root_owned|by apply Ho].
Qed.

(** A page mapped in the lower half of the process. *)
Lemma user_map pmm m kroot uroot l pml4 va pa flags h :
  twin pmm m kroot uroot l → (3 ≤ length l)%nat → ptr_to pml4 uroot → in_u64 pa → in_u64 flags → pml4_index va < 256 →
  ∃ pmm' m' l', map_page pmm m pml4 va pa flags true = Done (pmm', m') ∧
    twin pmm' m' kroot uroot l' ∧ advance kroot h m l h m' l' [] ∧ agree_off (owned_bytes m uroot l) m m' ∧
    (∀ f, owned m' uroot l' f ↔ owned m uroot l f) ∧
    ∀ va', pte_of m' uroot va' = if decide (vpn va' = vpn va) then Some (leaf_entry_of pa flags) else pte_of m uroot va'.
Proof.
  intros Htw Hl Hptr Hpa Hfl Hva. pose proof Htw as [I Hk Hlow Hhigh Hno].
  destruct (map_page_ok 0 pmm m uroot l pml4 va pa flags true (va_tables va))
    as (pmm' & m' & l' & E & I' & _ & _ & Hsub & [Ho Hag] & _ & Hup & HT); try done.
  { split; [apply va_tables_nodup|]. split; [apply va_tables_ok|]. pose proof (need_le m uroot (va_tables va)) as Hneed.
    change (length (va_tables _)) with 3%nat in Hneed. lia. }
  assert (Hup' : ∀ q j, table_path q → is_index j → 256 ≤ hd 0 (q ++ [j]) → pt_entry m' uroot q j = pt_entry m uroot q j).
  { intros q j Hq Hj Hhd. apply Hup; [done..|]. intros Hpre. apply prefix_head in Hpre; [|by destruct q].
    rewrite Hpre in Hhd. cbn in Hhd. lia. }
  assert (Htop : ∀ j, is_index j → pt_entry m' kroot [] j = pt_entry m kroot [] j).
  { intros j Hj. unfold pt_entry. cbn [walk mbind option_bind]. by rewrite (unowned_entry pmm m uroot l m' kroot j). }
  assert (Htw' : twin pmm' m' kroot uroot l').
  { split; try done.
    - intros j Hj. rewrite Htop by (unfold is_index; lia). by apply Hlow.
    - intros j Hj. assert (is_index j) by (unfold is_index; lia). rewrite Htop, Hup' by (done || apply nil_path || cbn; lia). by apply Hhigh.
    - by rewrite Ho. }
  exists pmm', m', l'. split; [done|]. split; [done|]. split; [|done]. split; try done; [cbn; lia|..].
  - split; [constructor|]. by intros f ?%not_elem_of_nil.
  - intros f [Hf|([|i p] & Hp & Hf)]; [left; by apply Hsub|injection Hf as <-; apply root_owned|].
    right. exists (i :: p). split; [done|]. rewrite (twin_walk _ _ _ _ _ Htw' i p Hp) in Hf. rewrite (twin_walk _ _ _ _ _ Htw i p Hp).
    case_decide; [done|]. rewrite <- Hf. destruct (exists_last (l := i :: p)) as (q & j & E'); [done|]. rewrite E' in *.
    rewrite !walk_snoc. f_equal. symmetry. destruct Hp as [Hlen Hp]. apply Forall_app in Hp as [Hp1 Hp2].
    apply Hup'; [|by inversion Hp2|rewrite <- E'; cbn; lia]. split; [|done]. rewrite length_app in Hlen. cbn in Hlen. lia.
  - intros va'. rewrite (twin_pte _ _ _ _ _ Htw'), (twin_pte _ _ _ _ _ Htw). case_decide; [done|].
    apply (Hup' (va_path va') (pt_index va')); [apply va_path_ok|apply pt_index_ok|cbn; lia].
Qed.

(** A page taken off the free list and written by its new owner. *)
Lemma page_taken pmm m root a l m' h :
  vm_inv pmm m root (a :: l) → agree_off (span a PAGE_SIZE) m m' →
  ∃ pmm', alloc_page pmm m = (Some a, pmm') ∧ is_frame a ∧ vm_inv pmm' m' root l ∧ (¬ owned m' root l a) ∧
    advance root h m (a :: l) h m' l [].
Proof.
  intros I Hag. destruct (alloc_inv _ _ _ _ _ I) as (pmm' & E & I1 & Ha & Hno & _).
  destruct (vm_inv_off (span a PAGE_SIZE) pmm' m m' root l I1 Hag) as (I2 & Hw & Hpe).
  { intros f x Hf Hx Hc. assert (f ≠ a) as Hne by by intros ->.
    destruct (frame_disjoint f a (owned_frame _ _ _ _ _ I1 Hf) Ha Hne); unfold span in *; lia. }
  exists pmm'. split; [done|]. split; [done|]. split; [done|]. split; [intros Hf; apply Hno; by apply (owned_off _ _ _ m')|].
  apply advance_quiet; [|done..]. intros f Hf. by right.
Qed.
