(* ===== verification/Bytes.v ===== *)
(** * Bytes.v: byte strings, machine words and array loops

    What the text encodings and the cryptographic routines share: slices,
    conversions between words and bytes ([to_be_bytes], [from_le_bytes], ...),
    rotations, [chunks_exact], and the lemmas that turn a loop that fills an
    array, or folds over a counter, into a function on lists. *)

From S2P Require Import Prelude.

Local Open Scope Z_scope.

Definition byte_ok (b : Z) : Prop := 0 ≤ b < 256.

(** The bytes of a string literal. *)
Definition bytes_of (s : string) : list Z :=
  (λ c, Z.of_N (Ascii.N_of_ascii c)) <$> String.list_ascii_of_string s.

(** ** Slices *)

(** [&l[a..b]] *)
Definition slice {A} (l : list A) (a b : Z) : outcome (list A) :=
  if (a <=? b) && (b <=? Z.of_nat (length l)) then
    Done (take (Z.to_nat (b - a)) (drop (Z.to_nat a) l))
  else Panic "range out of bounds for slice".

(** [l[a..a + src.len()].copy_from_slice(src)] *)
Definition copy_at {A} (l : list A) (a : Z) (src : list A) : outcome (list A) :=
  if a + Z.of_nat (length src) <=? Z.of_nat (length l) then
    Done (take (Z.to_nat a) l ++ src ++ drop (Z.to_nat a + length src) l)
  else Panic "range out of bounds for slice".

(** [l.chunks_exact(n)] and its remainder. *)
Fixpoint chunks_loop {A} (fuel n : nat) (l : list A) : list (list A) * list A :=
  match fuel with
  | O => ([], l)
  | S fuel =>
      if (length l <? n)%nat then ([], l)
      else let '(cs, r) := chunks_loop fuel n (drop n l) in (take n l :: cs, r)
  end.
Definition chunks_exact {A} (n : nat) (l : list A) : list (list A) := (chunks_loop (length l) n l).1.
Definition chunks_remainder {A} (n : nat) (l : list A) : list A := (chunks_loop (length l) n l).2.

(** ** Words *)

Definition add32 (a b : Z) : Z := u32 (a + b).
Definition not32 (a : Z) : Z := 2 ^ 32 - 1 - a.

(** [x.rotate_left(n)] and [x.rotate_right(n)] on [w]-bit words. *)
Definition rotl (w n x : Z) : Z := Z.lor (Z.shiftl x n mod 2 ^ w) (Z.shiftr x (w - n)).
Definition rotr (w n x : Z) : Z := Z.lor (Z.shiftr x n) (Z.shiftl x (w - n) mod 2 ^ w).

(** [v.to_be_bytes()], [v.to_le_bytes()] for an [n]-byte word. *)
Fixpoint be_bytes (n : nat) (v : Z) : list Z :=
  match n with
  | O => []
  | S n => be_bytes n (v / 256) ++ [v mod 256]
  end.
Fixpoint le_bytes (n : nat) (v : Z) : list Z :=
  match n with
  | O => []
  | S n => v mod 256 :: le_bytes n (v / 256)
  end.

(** [from_be_bytes], [from_le_bytes] *)
Definition from_be (bs : list Z) : Z := foldl (λ a b, a * 256 + b) 0 bs.
Definition from_le (bs : list Z) : Z := foldr (λ b a, b + 256 * a) 0 bs.

Definition xor_bytes (a b : list Z) : list Z := zip_with Z.lxor a b.

(** ** Facts *)

(** A property of all small numbers, by evaluation. *)
Lemma forall_below (n : nat) (f : Z → bool) :
  forallb (λ i, f (Z.of_nat i)) (seq 0 n) = true → ∀ v, 0 ≤ v < Z.of_nat n → f v = true.
Proof.
  rewrite forallb_forall. intros H v Hv. rewrite <- (Z2Nat.id v) by lia. apply H, in_seq. lia.
Qed.

(** Shifts and disjoint ors are arithmetic. *)
Lemma lor_shiftl a k b : 0 ≤ k → 0 ≤ b < 2 ^ k → Z.lor (Z.shiftl a k) b = a * 2 ^ k + b.
Proof.
  intros Hk Hb. rewrite Z.shiftl_mul_pow2 by lia. apply lor_aligned with k; [lia| |lia].
  apply Z.mod_mul. lia.
Qed.

Lemma xor_bytes_app a1 a2 b1 b2 :
  length a1 = length b1 → xor_bytes (a1 ++ a2) (b1 ++ b2) = xor_bytes a1 b1 ++ xor_bytes a2 b2.
Proof. intros H. unfold xor_bytes. by apply zip_with_app. Qed.

(** Testing a mask of one bit. *)
Lemma land_bit b k : 0 ≤ k → negb (Z.land b (Z.shiftl 1 k) =? 0) = Z.testbit b k.
Proof.
  intros Hk. rewrite Z.shiftl_1_l. destruct (Z.testbit b k) eqn:Hb.
  - apply negb_true_iff, Z.eqb_neq. intros H0.
    assert (Z.testbit (Z.land b (2 ^ k)) k = true) as Ht by (rewrite Z.land_spec, Hb, Z.pow2_bits_true; done).
    by rewrite H0, Z.bits_0 in Ht.
  - apply negb_false_iff, Z.eqb_eq, Z.bits_inj'. intros i Hi. rewrite Z.land_spec, Z.bits_0, Z.pow2_bits_eqb by done.
    destruct (Z.eqb_spec k i) as [<-|]; [by rewrite Hb|apply andb_false_r].
Qed.

Lemma length_be_bytes n v : length (be_bytes n v) = n.
Proof. revert v. induction n as [|n IH]; intros v; [done|]. cbn. rewrite length_app, IH. cbn. lia. Qed.

Lemma length_le_bytes n v : length (le_bytes n v) = n.
Proof. revert v. induction n as [|n IH]; intros v; [done|]. cbn. by rewrite IH. Qed.

Lemma be_bytes_ok n v : Forall byte_ok (be_bytes n v).
Proof.
  revert v. induction n as [|n IH]; intros v; [by apply Forall_nil|]. apply Forall_app.
  split; [apply IH|]. apply Forall_singleton, Z.mod_pos_bound. lia.
Qed.

Lemma le_bytes_ok n v : Forall byte_ok (le_bytes n v).
Proof.
  revert v. induction n as [|n IH]; intros v; [by apply Forall_nil|].
  apply Forall_cons. split; [apply Z.mod_pos_bound; lia|apply IH].
Qed.

Lemma from_be_bytes n v : from_be (be_bytes n v) = v mod 256 ^ Z.of_nat n.
Proof.
  revert v. induction n as [|n IH]; intros v; [cbn; by rewrite Z.mod_1_r|].
  unfold from_be in *. cbn [be_bytes]. rewrite foldl_app, IH. cbn.
  rewrite Nat2Z.inj_succ, Z.pow_succ_r by lia.
  rewrite (Z.rem_mul_r v 256) by lia. lia.
Qed.

Lemma from_le_bytes n v : from_le (le_bytes n v) = v mod 256 ^ Z.of_nat n.
Proof.
  revert v. induction n as [|n IH]; intros v; [cbn; by rewrite Z.mod_1_r|].
  unfold from_le in *. cbn [le_bytes foldr]. rewrite IH.
  rewrite Nat2Z.inj_succ, Z.pow_succ_r by lia. by rewrite (Z.rem_mul_r v 256) by lia.
Qed.

Lemma from_be_range bs : Forall byte_ok bs → 0 ≤ from_be bs < 256 ^ Z.of_nat (length bs).
Proof.
  unfold from_be. induction bs as [|b bs IH] using rev_ind; intros Hb; [cbn; lia|].
  apply Forall_app in Hb as [Hb Hx]. rewrite Forall_singleton in Hx. specialize (IH Hb).
  rewrite foldl_app, length_app, Nat2Z.inj_add. cbn [foldl length]. rewrite Z.pow_add_r by lia.
  change (256 ^ Z.of_nat 1) with 256. unfold byte_ok in Hx. lia.
Qed.

Lemma from_le_range bs : Forall byte_ok bs → 0 ≤ from_le bs < 256 ^ Z.of_nat (length bs).
Proof.
  unfold from_le. induction 1 as [|b bs Hb _ IH]; [cbn; lia|]. cbn [foldr length].
  rewrite Nat2Z.inj_succ, Z.pow_succ_r by lia. unfold byte_ok in Hb. lia.
Qed.

(** Both conversions are inverse to each other. *)
Lemma be_bytes_from bs : Forall byte_ok bs → be_bytes (length bs) (from_be bs) = bs.
Proof.
  induction bs as [|b bs IH] using rev_ind; intros Hb; [done|].
  apply Forall_app in Hb as [Hb Hx]. rewrite Forall_singleton in Hx. unfold byte_ok in Hx.
  rewrite length_app. cbn [length]. rewrite Nat.add_1_r. cbn [be_bytes].
  replace (from_be (bs ++ [b])) with (b + from_be bs * 256) by (unfold from_be; rewrite foldl_app; cbn; lia).
  rewrite Z.div_add, Z.mod_add by lia. rewrite Z.div_small, Z.mod_small, Z.add_0_l by lia. by rewrite IH.
Qed.

Lemma le_bytes_from bs : Forall byte_ok bs → le_bytes (length bs) (from_le bs) = bs.
Proof.
  induction 1 as [|b bs Hb _ IH]; [done|]. unfold byte_ok in Hb. cbn [length le_bytes].
  change (from_le (b :: bs)) with (b + 256 * from_le bs). rewrite (Z.mul_comm 256).
  rewrite Z.div_add, Z.mod_add by lia. rewrite Z.div_small, Z.mod_small, Z.add_0_l by lia. by rewrite IH.
Qed.

Lemma from_be_inj a b : length a = length b → Forall byte_ok a → Forall byte_ok b → from_be a = from_be b → a = b.
Proof. intros Hl Ha Hb He. rewrite <- (be_bytes_from a Ha), <- (be_bytes_from b Hb). congruence. Qed.

(** ** Slices and chunks *)

Lemma slice_ok {A} (l : list A) a b :
  0 ≤ a ≤ b → b ≤ Z.of_nat (length l) → slice l a b = Done (take (Z.to_nat (b - a)) (drop (Z.to_nat a) l)).
Proof.
  intros. unfold slice. by rewrite (proj2 (Z.leb_le _ _)), (proj2 (Z.leb_le _ _)) by lia.
Qed.

Lemma copy_at_ok {A} (l1 l2 l3 src : list A) a :
  a = Z.of_nat (length l1) → length src = length l2 →
  copy_at (l1 ++ l2 ++ l3) a src = Done (l1 ++ src ++ l3).
Proof.
  intros -> Hs. unfold copy_at. rewrite !length_app.
  rewrite (proj2 (Z.leb_le _ _)) by lia. rewrite Nat2Z.id, take_app_length. do 3 f_equal.
  by rewrite Hs, app_assoc, drop_app_length' by (by rewrite length_app).
Qed.

Lemma copy_at_app {A} (ws rest src : list A) a :
  a = Z.of_nat (length ws) → (length src ≤ length rest)%nat →
  copy_at (ws ++ rest) a src = Done (ws ++ src ++ drop (length src) rest).
Proof.
  intros Ha Hs. rewrite <- (take_drop (length src) rest) at 1.
  apply copy_at_ok; [done|]. rewrite length_take. lia.
Qed.

(** The reference for [chunks_exact]: the list is the concatenation of its
    chunks and a remainder that is too short to be one. *)
Lemma chunks_loop_ok {A} fuel n (l : list A) cs r :
  (0 < n)%nat → (length l ≤ fuel)%nat → chunks_loop fuel n l = (cs, r) →
  l = concat cs ++ r ∧ Forall (λ c, length c = n) cs ∧ (length r < n)%nat.
Proof.
  intros Hn. revert l cs r. induction fuel as [|fuel IH]; intros l cs r Hf Hc; cbn [chunks_loop] in Hc.
  { injection Hc as <- <-. destruct l; [|cbn in Hf; lia]. by split_and!; [|apply Forall_nil|cbn; lia]. }
  destruct (Nat.ltb_spec (length l) n) as [Hlt|Hge].
  { injection Hc as <- <-. by split_and!; [|apply Forall_nil|]. }
  destruct (chunks_loop fuel n (drop n l)) as [cs' r'] eqn:Hl. injection Hc as <- <-.
  destruct (IH (drop n l) cs' r' ltac:(rewrite length_drop; lia) Hl) as (He & Hc & Hr). split_and!; [|apply Forall_cons; split|done].
  - cbn. rewrite <- app_assoc, <- He. by rewrite take_drop.
  - rewrite length_take. lia.
  - done.
Qed.

Lemma chunks_exact_concat {A} n (cs : list (list A)) r :
  (0 < n)%nat → Forall (λ c, length c = n) cs → (length r < n)%nat →
  chunks_exact n (concat cs ++ r) = cs ∧ chunks_remainder n (concat cs ++ r) = r.
Proof.
  intros Hn Hcs Hr. unfold chunks_exact, chunks_remainder.
  set (fuel := length (concat cs ++ r)). assert (Hf : (length (concat cs ++ r) ≤ fuel)%nat) by done.
  clearbody fuel. revert fuel Hf. induction Hcs as [|c cs Hc Hcs IH]; intros fuel Hf.
  - cbn. destruct fuel as [|fuel]; [done|]. cbn [chunks_loop]. by rewrite (proj2 (Nat.ltb_lt _ _)).
  - cbn in *. rewrite <- app_assoc in *. rewrite !length_app in *. destruct fuel as [|fuel]; [lia|].
    cbn [chunks_loop]. rewrite (proj2 (Nat.ltb_ge _ _)) by (rewrite length_app; lia).
    rewrite drop_app_length', take_app_length' by done.
    destruct (IH fuel) as [H1 H2]; [rewrite ?length_app in *; lia|].
    destruct (chunks_loop fuel n (concat cs ++ r)) as [cs' r']. cbn in *. by subst.
Qed.

(** Numeral indices in their [nat] form. *)
Ltac norm_index :=
  repeat match goal with
  | |- context [Z.to_nat (Zpos ?p)] =>
      let n := eval vm_compute in (Z.to_nat (Zpos p)) in change (Z.to_nat (Zpos p)) with n
  | |- context [Z.to_nat 0] => change (Z.to_nat 0) with 0%nat
  end.

(** ** Array loops *)

(** Growing a list: each step appends what [f] computes from the list so far. *)
Fixpoint extend {A} (n : nat) (f : list A → list A) (ws : list A) : list A :=
  match n with
  | O => ws
  | S n => extend n f (ws ++ f ws)
  end.

Lemma length_extend {A} k n (f : list A → list A) ws :
  (∀ ws, length (f ws) = k) → length (extend n f ws) = (length ws + k * n)%nat.
Proof.
  intros Hf. revert ws. induction n as [|n IH]; intros ws; cbn [extend]; [lia|].
  rewrite IH, length_app, Hf. lia.
Qed.

(** A loop that writes [k] cells per round, left to right, is [extend]; the
    cells written so far satisfy [P]. *)
Lemma fill_loop_inv {A} (P : list A → Prop) (k : nat) (f : list A → list A)
    (body : Z → list A → outcome (list A)) n i ws rest :
  0 ≤ i → P ws →
  (∀ j ws rest, i ≤ j < i + Z.of_nat n → P ws → length ws = (k * Z.to_nat j)%nat → (k ≤ length rest)%nat →
    body j (ws ++ rest) = Done (ws ++ f ws ++ drop k rest) ∧ length (f ws) = k ∧ P (ws ++ f ws)) →
  length ws = (k * Z.to_nat i)%nat → (k * n ≤ length rest)%nat →
  for_range n i body (ws ++ rest) = Done (extend n f ws ++ drop (k * n) rest) ∧
  P (extend n f ws) ∧ length (extend n f ws) = (k * Z.to_nat i + k * n)%nat.
Proof.
  revert i ws rest. induction n as [|n IH]; intros i ws rest Hi HP Hb Hw Hr; cbn [for_range extend].
  { rewrite Nat.mul_0_r, drop_0, Nat.add_0_r. done. }
  destruct (Hb i ws rest) as (-> & Hf & HP'); [lia|done|done|lia|]. rewrite bind_Done, app_assoc.
  destruct (IH (i + 1) (ws ++ f ws) (drop k rest)) as (-> & HP2 & Hl).
  - lia.
  - done.
  - intros j ws' rest' Hj. apply Hb. lia.
  - rewrite length_app, Hw, Hf. replace (Z.to_nat (i + 1)) with (S (Z.to_nat i)) by lia. lia.
  - rewrite length_drop. lia.
  - split_and!; [|done|rewrite Hl; replace (Z.to_nat (i + 1)) with (S (Z.to_nat i)) by lia; lia].
    do 2 f_equal. rewrite drop_drop. f_equal. lia.
Qed.

Lemma fill_loop {A} (k : nat) (f : list A → list A) (body : Z → list A → outcome (list A)) n i ws rest :
  0 ≤ i →
  (∀ j ws rest, i ≤ j < i + Z.of_nat n → length ws = (k * Z.to_nat j)%nat → (k ≤ length rest)%nat →
    body j (ws ++ rest) = Done (ws ++ f ws ++ drop k rest) ∧ length (f ws) = k) →
  length ws = (k * Z.to_nat i)%nat → (k * n ≤ length rest)%nat →
  for_range n i body (ws ++ rest) = Done (extend n f ws ++ drop (k * n) rest).
Proof.
  intros Hi Hb Hw Hr. refine (proj1 (fill_loop_inv (λ _, True) k f body n i ws rest Hi I _ Hw Hr)).
  intros j ws' rest' Hj _ Hw' Hr'. destruct (Hb j ws' rest' Hj Hw' Hr') as [? ?]. by split_and!.
Qed.

(** When what is appended depends on the position only. *)
Lemma extend_map {A} k (g : nat → list A) n i ws :
  (0 < k)%nat → (∀ j, length (g j) = k) → length ws = (k * i)%nat →
  extend n (λ ws, g (length ws / k)%nat) ws = ws ++ (seq i n ≫= g).
Proof.
  intros Hk Hg. revert i ws. induction n as [|n IH]; intros i ws Hw; cbn [extend seq].
  { by rewrite app_nil_r. }
  rewrite Hw, Nat.mul_comm, Nat.div_mul by lia. rewrite (IH (S i)) by (rewrite length_app, Hw, Hg; lia).
  rewrite bind_cons. by rewrite app_assoc.
Qed.

(** A loop whose body never panics is a fold. *)
Lemma for_range_fold {T} (g : T → nat → T) (body : Z → T → outcome T) n i s :
  0 ≤ i → (∀ j t, i ≤ j < i + Z.of_nat n → body j t = Done (g t (Z.to_nat j))) →
  for_range n i body s = Done (foldl g s (seq (Z.to_nat i) n)).
Proof.
  revert i s. induction n as [|n IH]; intros i s Hi Hb; [done|].
  cbn [for_range seq foldl]. rewrite Hb by lia. cbn [mbind outcome_bind].
  rewrite IH by (intros; try apply Hb; lia).
  by replace (Z.to_nat (i + 1)) with (S (Z.to_nat i)) by lia.
Qed.

Lemma for_range_fold0 {T} (g : T → nat → T) (body : Z → T → outcome T) n s :
  (∀ j t, 0 ≤ j < Z.of_nat n → body j t = Done (g t (Z.to_nat j))) →
  for_range n 0 body s = Done (foldl g s (seq 0 n)).
Proof. intros Hb. apply (for_range_fold g); [lia|done]. Qed.

(** The same with an invariant that keeps the body from panicking. *)
Lemma for_range_fold_inv {T} (P : T → Prop) (g : T → nat → T) (body : Z → T → outcome T) n i s :
  0 ≤ i → P s →
  (∀ j t, i ≤ j < i + Z.of_nat n → P t → body j t = Done (g t (Z.to_nat j)) ∧ P (g t (Z.to_nat j))) →
  for_range n i body s = Done (foldl g s (seq (Z.to_nat i) n)) ∧ P (foldl g s (seq (Z.to_nat i) n)).
Proof.
  revert i s. induction n as [|n IH]; intros i s Hi Hs Hb; [done|].
  cbn [for_range seq foldl]. destruct (Hb i s) as [-> HP]; [lia|done|]. cbn [mbind outcome_bind].
  replace (S (Z.to_nat i)) with (Z.to_nat (i + 1)) by lia.
  apply IH; [lia|done|]. intros j t Hj. apply Hb. lia.
Qed.

Lemma for_range_fold_inv0 {T} (P : T → Prop) (g : T → nat → T) (body : Z → T → outcome T) n s :
  P s →
  (∀ j t, 0 ≤ j < Z.of_nat n → P t → body j t = Done (g t (Z.to_nat j)) ∧ P (g t (Z.to_nat j))) →
  for_range n 0 body s = Done (foldl g s (seq 0 n)) ∧ P (foldl g s (seq 0 n)).
Proof. intros Hs Hb. by apply (for_range_fold_inv P g). Qed.

(** [for x in xs { body }] *)
Fixpoint for_each {A T} (xs : list A) (body : A → T → outcome T) (s : T) : outcome T :=
  match xs with
  | [] => Done s
  | x :: xs => body x s ≫= for_each xs body
  end.

Lemma for_each_fold {A T} (P : T → Prop) (Q : A → Prop) (g : T → A → T) (body : A → T → outcome T) xs s :
  (∀ x t, Q x → P t → body x t = Done (g t x) ∧ P (g t x)) → Forall Q xs → P s →
  for_each xs body s = Done (foldl g s xs) ∧ P (foldl g s xs).
Proof.
  intros Hb Hxs. revert s. induction Hxs as [|x xs Hx _ IH]; intros s Hs; [done|].
  cbn. destruct (Hb x s Hx Hs) as [-> HP]. cbn. by apply IH.
Qed.

(** Reading an array whose first cells are known. *)
Lemma slot_get_default {A} (d : A) (ws : list A) i :
  0 ≤ i < Z.of_nat (length ws) → slot_get ws i = Done (nth (Z.to_nat i) ws d).
Proof.
  intros Hi. apply slot_get_ok.
  destruct (lookup_lt_is_Some_2 ws (Z.to_nat i)) as [x Hx]; [lia|]. rewrite Hx. f_equal.
  symmetry. by apply nth_lookup_Some.
Qed.

Lemma slot_get_nth (ws rest : list Z) i :
  0 ≤ i < Z.of_nat (length ws) → slot_get (ws ++ rest) i = Done (nth (Z.to_nat i) ws 0).
Proof.
  intros Hi. rewrite (slot_get_default 0) by (rewrite length_app; lia). by rewrite app_nth1 by lia.
Qed.

Lemma slot_get_nth0 (ws : list Z) i :
  0 ≤ i < Z.of_nat (length ws) → slot_get ws i = Done (nth (Z.to_nat i) ws 0).
Proof. apply slot_get_default. Qed.

(** A loop that writes one cell per round. *)
Lemma fill_cells (f : list Z → Z) (body : Z → list Z → outcome (list Z)) n i ws rest :
  0 ≤ i → Z.of_nat (length ws) = i → length rest = n →
  (∀ j ws r rest, i ≤ j < i + Z.of_nat n → Z.of_nat (length ws) = j →
    body j (ws ++ r :: rest) = slot_set (ws ++ r :: rest) j (f ws)) →
  for_range n i body (ws ++ rest) = Done (extend n (λ ws, [f ws]) ws).
Proof.
  intros Hi Hw Hr Hb. rewrite (fill_loop 1 (λ ws, [f ws])); [|done| |lia|lia].
  - by rewrite Nat.mul_1_l, drop_ge, app_nil_r by lia.
  - intros j ws' rest' Hj Hw' Hr'. split; [|done]. destruct rest' as [|r rest']; [cbn in Hr'; lia|].
    rewrite Hb by lia. by rewrite slot_set_mid by lia.
Qed.

(** The chunks of a list by their position. *)
Lemma chunks_exact_seq {A} n (l : list A) :
  (0 < n)%nat → chunks_exact n l = (λ i, take n (drop (n * i) l)) <$> seq 0 (length l / n).
Proof.
  intros Hn. unfold chunks_exact. set (fuel := length l). assert (Hf : (length l ≤ fuel)%nat) by done.
  change (length l / n)%nat with (fuel / n)%nat in *. replace (fuel / n)%nat with (length l / n)%nat by done.
  clearbody fuel. revert l Hf. induction fuel as [|fuel IH]; intros l Hf.
  { destruct l; [|cbn in Hf; lia]. cbn [length]. by rewrite Nat.Div0.div_0_l. }
  cbn [chunks_loop]. destruct (Nat.ltb_spec (length l) n) as [Hlt|Hge].
  { by rewrite Nat.div_small by lia. }
  specialize (IH (drop n l) ltac:(rewrite length_drop; lia)).
  destruct (chunks_loop fuel n (drop n l)) as [cs r]. cbn [fst] in *. rewrite IH, length_drop.
  replace (length l / n)%nat with (S ((length l - n) / n))%nat.
  - cbn [seq fmap list_fmap]. rewrite Nat.mul_0_r, drop_0. f_equal.
    rewrite <- seq_shift. rewrite <- (list_fmap_compose S). apply list_fmap_ext.
    intros _ i _. cbn. rewrite drop_drop. do 2 f_equal. lia.
  - replace (length l) with (length l - n + 1 * n)%nat at 2 by lia. rewrite Nat.div_add by lia. lia.
Qed.

Lemma seq_bind_nth {B} (g : Z → list B) (h : list Z) : (seq 0 (length h) ≫= λ t, g (nth t h 0)) = h ≫= g.
Proof.
  induction h as [|x h IH]; [done|]. cbn [length seq]. rewrite !bind_cons. cbn [nth]. f_equal.
  rewrite <- IH, <- seq_shift. generalize (seq 0 (length h)). intros l. clear.
  induction l as [|i l IHl]; [done|]. cbn [map]. rewrite !bind_cons. by rewrite IHl.
Qed.

(** [for i in 0..n { d[i*k..i*k+k].copy_from_slice(&bytes(h[i])) }] *)
Lemma write_loop_ok (wb : Z → list Z) (k : nat) (n : nat) (h : list Z) :
  (0 < k)%nat → (∀ v, length (wb v) = k) → (n ≤ length h)%nat →
  for_range n 0 (λ i d, word ← slot_get h i; copy_at d (i * Z.of_nat k) (wb word)) (replicate (k * n) 0) =
    Done (seq 0 n ≫= λ t, wb (nth t h 0)).
Proof.
  intros Hk Hwb Hh. change (replicate (k * n) 0) with ([] ++ replicate (k * n) 0).
  rewrite (fill_loop k (λ ws, (λ t, wb (nth t h 0)) (length ws / k)%nat)).
  - rewrite (extend_map k (λ t, wb (nth t h 0)) n 0); [|done|intros; apply Hwb|cbn; lia].
    by rewrite drop_ge, app_nil_r by (rewrite length_replicate; lia).
  - lia.
  - intros j ws rest Hj Hw Hr. split; [|apply Hwb]. rewrite slot_get_nth0, bind_Done by lia.
    rewrite copy_at_app by (rewrite ?Hwb; lia). rewrite Hwb. do 3 f_equal. do 2 f_equal.
    rewrite Hw, Nat.mul_comm, Nat.div_mul by lia. done.
  - cbn. lia.
  - rewrite length_replicate. lia.
Qed.

(** A table given by a function. *)
Lemma table_get (f : nat → Z) n (l : list Z) j :
  f <$> seq 0 n = l → 0 ≤ j < Z.of_nat n → slot_get l j = Done (f (Z.to_nat j)).
Proof.
  intros <- Hj. apply slot_get_ok. rewrite list_lookup_fmap, lookup_seq_lt by lia. done.
Qed.

Lemma lxor_byte a b : byte_ok a → byte_ok b → byte_ok (Z.lxor a b).
Proof.
  unfold byte_ok. intros Ha Hb. split; [apply Z.lxor_nonneg; lia|].
  destruct (decide (Z.lxor a b = 0)) as [->|]; [lia|]. apply (Z.log2_lt_cancel _ 256).
  assert (Hl : ∀ x, 0 ≤ x < 256 → Z.log2 x < 8).
  { intros x Hx. destruct (decide (x = 0)) as [->|]; [done|]. apply Z.log2_lt_pow2; lia. }
  eapply Z.le_lt_trans; [apply Z.log2_lxor; lia|]. change (Z.log2 256) with 8.
  apply Z.max_lub_lt; by apply Hl.
Qed.

Lemma xor_bytes_involutive a k : (length a ≤ length k)%nat → xor_bytes (xor_bytes a k) k = a.
Proof.
  unfold xor_bytes. revert k. induction a as [|x a IH]; intros [|y k] Hl; cbn in Hl; try done; try lia.
  cbn. f_equal; [|apply IH; lia]. by rewrite Z.lxor_assoc, Z.lxor_nilpotent, Z.lxor_0_r.
Qed.

Lemma length_xor_bytes a b : length (xor_bytes a b) = Nat.min (length a) (length b).
Proof. apply length_zip_with. Qed.

Lemma xor_bytes_ok a b : Forall byte_ok a → Forall byte_ok b → Forall byte_ok (xor_bytes a b).
Proof.
  intros Ha Hb. apply Forall_lookup. intros i x Hx. apply lookup_zip_with_Some in Hx as (u & v & -> & Hu & Hv).
  apply lxor_byte; [by eapply Forall_lookup_1 in Hu|by eapply Forall_lookup_1 in Hv].
Qed.

(** [for i in 0..n { d[i] ^= k[i] }] *)
Lemma xor_loop_ok n d k :
  length d = n → (n ≤ length k)%nat →
  for_range n 0 (λ i d, a ← slot_get d i; b ← slot_get k i; slot_set d i (Z.lxor a b)) d = Done (xor_bytes d k).
Proof.
  intros Hd Hk.
  assert (Hrun : ∀ m i d1 d2, 0 ≤ i → Z.of_nat (length d1) = i → length d2 = m →
    (Z.to_nat i + m ≤ length k)%nat →
    for_range m i (λ i d, a ← slot_get d i; b ← slot_get k i; slot_set d i (Z.lxor a b)) (d1 ++ d2) =
      Done (d1 ++ xor_bytes d2 (drop (Z.to_nat i) k))).
  { induction m as [|m IH]; intros i d1 d2 Hi H1 H2 Hm.
    { destruct d2; [|done]. done. }
    destruct d2 as [|x d2]; [done|]. cbn [for_range]. rewrite slot_get_mid, bind_Done by lia.
    rewrite slot_get_nth0, bind_Done by lia. rewrite slot_set_mid by lia. rewrite bind_Done.
    replace (d1 ++ Z.lxor x (nth (Z.to_nat i) k 0) :: d2) with ((d1 ++ [Z.lxor x (nth (Z.to_nat i) k 0)]) ++ d2)
      by (by rewrite <- app_assoc).
    rewrite IH; [|lia|rewrite length_app; cbn; lia|by injection H2|lia].
    rewrite <- app_assoc. do 2 f_equal. cbn [app].
    rewrite (drop_S k (nth (Z.to_nat i) k 0) (Z.to_nat i)).
    - unfold xor_bytes. cbn [zip_with]. by replace (Z.to_nat (i + 1)) with (S (Z.to_nat i)) by lia.
    - destruct (lookup_lt_is_Some_2 k (Z.to_nat i)) as [y Hy]; [lia|]. rewrite Hy. f_equal. symmetry. by apply nth_lookup_Some. }
  specialize (Hrun n 0 [] d ltac:(lia) eq_refl Hd ltac:(lia)). cbn [app] in Hrun. rewrite Hrun. done.
Qed.

Lemma from_be_app a b : from_be (a ++ b) = from_be a * 256 ^ Z.of_nat (length b) + from_be b.
Proof.
  unfold from_be. rewrite foldl_app. generalize (foldl (λ a b, a * 256 + b) 0 a). intros x.
  induction b as [|y b IH] using rev_ind; [cbn; lia|].
  rewrite !foldl_app, length_app, Nat2Z.inj_add. cbn [foldl length]. rewrite IH, Z.pow_add_r by lia.
  change (256 ^ Z.of_nat 1) with 256. lia.
Qed.

Lemma be_bytes_app m n hi lo :
  0 ≤ lo < 256 ^ Z.of_nat n → be_bytes (m + n) (hi * 256 ^ Z.of_nat n + lo) = be_bytes m hi ++ be_bytes n lo.
Proof.
  revert lo. induction n as [|n IH]; intros lo Hlo.
  { cbn in Hlo. replace lo with 0 by lia. cbn. rewrite Nat.add_0_r, app_nil_r. f_equal. lia. }
  rewrite Nat2Z.inj_succ, Z.pow_succ_r in * by lia. rewrite Nat.add_succ_r. cbn [be_bytes].
  replace (hi * (256 * 256 ^ Z.of_nat n) + lo) with (lo + hi * 256 ^ Z.of_nat n * 256) by lia.
  rewrite Z.div_add, Z.mod_add by lia. rewrite (Z.add_comm (lo / 256)), IH, app_assoc; [done|].
  split; [apply Z.div_pos; lia|apply Z.div_lt_upper_bound; lia].
Qed.
