(* ===== verification/Task.v ===== *)
(** * Task.v: tasks, their initial stack frames and the context switch

    [src/crap_os/src/task_scheduler/task.rs] and [switcher.rs], with the
    [TaskId] packing of [helper_functions.rs].  The assembly of [switch_to]
    and of the two entry stubs is a straight-line program over a register
    file and a byte memory, one definition per instruction.

    Addresses the linker or the kernel heap choose (the entry stubs, the stack
    allocation) are arguments. *)

From S2P Require Import Prelude Machine Vmm HigherHalf MemoryManager.

Local Open Scope Z_scope.

(** ** Identifiers and states *)

Record TaskId := mk_TaskId { slot_index : Z; slot_generation : Z }.

#[global] Instance TaskId_eq_dec : EqDecision TaskId.
Proof. solve_decision. Defined.

Definition TaskId_IDLE : TaskId := mk_TaskId 0 0.
Definition TaskId_PENDING : TaskId := mk_TaskId (W64 - 1) 0.

(** A [usize] index and a [u8] generation. *)
Definition task_id_wf (i : TaskId) : Prop :=
  in_u64 (slot_index i) ∧ 0 ≤ slot_generation i < 256.

Inductive TaskState := Ready | Running | Blocked | Dying | Dead.

#[global] Instance TaskState_eq_dec : EqDecision TaskState.
Proof. solve_decision. Defined.

Definition TASK_STACK_SIZE : Z := 16 * 1024.
Definition TASK_QUANTUM_TICKS : Z := 4.

(** [thread] is the allocation behind the [Weak] reference; [t_stack] is the
    base address of the boxed stack and its length. *)
Record Task := mk_Task {
  t_id : TaskId;
  t_state : TaskState;
  t_saved_rsp : Z;
  t_kernel_stack_top : Z;
  t_is_user_task : bool;
  t_cr3 : Z;
  t_ticks_remaining : Z;
  t_ticks_executed : Z;
  t_thread : Z;
  t_stack : Z * Z
}.

Definition set_id (i : TaskId) (t : Task) : Task :=
  mk_Task i (t_state t) (t_saved_rsp t) (t_kernel_stack_top t) (t_is_user_task t) (t_cr3 t)
    (t_ticks_remaining t) (t_ticks_executed t) (t_thread t) (t_stack t).
Definition set_state (s : TaskState) (t : Task) : Task :=
  mk_Task (t_id t) s (t_saved_rsp t) (t_kernel_stack_top t) (t_is_user_task t) (t_cr3 t)
    (t_ticks_remaining t) (t_ticks_executed t) (t_thread t) (t_stack t).
Definition set_saved_rsp (r : Z) (t : Task) : Task :=
  mk_Task (t_id t) (t_state t) r (t_kernel_stack_top t) (t_is_user_task t) (t_cr3 t)
    (t_ticks_remaining t) (t_ticks_executed t) (t_thread t) (t_stack t).
Definition set_ticks_remaining (n : Z) (t : Task) : Task :=
  mk_Task (t_id t) (t_state t) (t_saved_rsp t) (t_kernel_stack_top t) (t_is_user_task t) (t_cr3 t)
    n (t_ticks_executed t) (t_thread t) (t_stack t).
Definition set_ticks_executed (n : Z) (t : Task) : Task :=
  mk_Task (t_id t) (t_state t) (t_saved_rsp t) (t_kernel_stack_top t) (t_is_user_task t) (t_cr3 t)
    (t_ticks_remaining t) n (t_thread t) (t_stack t).

(** ** Packing a [TaskId] into the [u64] argument of a system task *)

Definition compress_task_id (i : TaskId) : Z :=
  Z.lor (slot_index i) (u64 (Z.shiftl (slot_generation i) 56)).

Definition expand_task_id (encoded : Z) : TaskId :=
  mk_TaskId (Z.shiftr (u64 (Z.shiftl encoded 8)) 8) (u8 (Z.shiftr encoded (64 - 8))).

(** ** The processor *)

Record Cpu := mk_Cpu {
  rsp : Z; rbp : Z; rbx : Z; r12 : Z; r13 : Z; r14 : Z; r15 : Z;
  rdi : Z; rip : Z; cr3 : Z; IF : bool
}.

(** The six callee-saved general-purpose registers. *)
Record Callee := mk_Callee {
  c_rbp : Z; c_rbx : Z; c_r12 : Z; c_r13 : Z; c_r14 : Z; c_r15 : Z
}.

Definition callee (c : Cpu) : Callee :=
  mk_Callee (rbp c) (rbx c) (r12 c) (r13 c) (r14 c) (r15 c).

Definition set_rsp (v : Z) (c : Cpu) : Cpu :=
  mk_Cpu v (rbp c) (rbx c) (r12 c) (r13 c) (r14 c) (r15 c) (rdi c) (rip c) (cr3 c) (IF c).
Definition set_rdi (v : Z) (c : Cpu) : Cpu :=
  mk_Cpu (rsp c) (rbp c) (rbx c) (r12 c) (r13 c) (r14 c) (r15 c) v (rip c) (cr3 c) (IF c).
Definition set_rip (v : Z) (c : Cpu) : Cpu :=
  mk_Cpu (rsp c) (rbp c) (rbx c) (r12 c) (r13 c) (r14 c) (r15 c) (rdi c) v (cr3 c) (IF c).
Definition set_cr3 (v : Z) (c : Cpu) : Cpu :=
  mk_Cpu (rsp c) (rbp c) (rbx c) (r12 c) (r13 c) (r14 c) (r15 c) (rdi c) (rip c) v (IF c).
Definition set_IF (b : bool) (c : Cpu) : Cpu :=
  mk_Cpu (rsp c) (rbp c) (rbx c) (r12 c) (r13 c) (r14 c) (r15 c) (rdi c) (rip c) (cr3 c) b.

(** [push v] and the value [pop] reads. *)
Definition push (v : Z) (s : Cpu * mem) : Cpu * mem :=
  let sp := rsp s.1 ⊟ 8 in (set_rsp sp s.1, store64 s.2 sp v).
Definition pop (s : Cpu * mem) : Z * (Cpu * mem) :=
  (load64 s.2 (rsp s.1), (set_rsp (rsp s.1 ⊞ 8) s.1, s.2)).

Definition push_callee (s : Cpu * mem) : Cpu * mem :=
  push (r15 s.1) (push (r14 s.1) (push (r13 s.1)
    (push (r12 s.1) (push (rbx s.1) (push (rbp s.1) s))))).

(** [pop r15; pop r14; pop r13; pop r12; pop rbx; pop rbp] *)
Definition pop_callee (s : Cpu * mem) : Cpu * mem :=
  let '(v15, s) := pop s in
  let '(v14, s) := pop s in
  let '(v13, s) := pop s in
  let '(v12, s) := pop s in
  let '(vbx, s) := pop s in
  let '(vbp, s) := pop s in
  let c := s.1 in
  (mk_Cpu (rsp c) vbp vbx v12 v13 v14 v15 (rdi c) (rip c) (cr3 c) (IF c), s.2).

Definition ret (s : Cpu * mem) : Cpu * mem :=
  let '(a, s) := pop s in (set_rip a s.1, s.2).

(** [switch_to] returns what it stores through [old_rsp_ptr] ([rdi]), which
    points at a [saved_rsp] field of the task table and not at a stack. *)
Definition switch_to (c : Cpu) (m : mem) (new_rsp new_cr3 : Z) : Z * (Cpu * mem) :=
  let s := push_callee (c, m) in
  let saved := rsp s.1 in
  let c' := set_rsp new_rsp s.1 in
  let c' := if new_cr3 =? 0 then c' else set_cr3 new_cr3 c' in
  (saved, ret (pop_callee (c', s.2))).

(** [call target], whose return address is [ra]. *)
Definition call (target ra : Z) (s : Cpu * mem) : Cpu * mem :=
  let s := push ra s in (set_rip target s.1, s.2).

(** [task_entry_stub] up to the call of the entry function; [ra] is the
    address of the [call {exit}] that follows it. *)
Definition task_entry_stub (ra : Z) (s : Cpu * mem) : Cpu * mem :=
  let c := set_IF true s.1 in
  let c := set_rdi (r13 c) c in
  call (r12 c) ra (c, s.2).

(** What [iretq] loads. *)
Record UserContext := mk_UserContext {
  u_rip : Z; u_cs : Z; u_rflags : Z; u_rsp : Z; u_ss : Z
}.

(** [user_task_entry_stub]: [sti; iretq].  Also returns the kernel stack
    pointer after the five words are consumed. *)
Definition user_task_entry_stub (s : Cpu * mem) : UserContext * Z :=
  let '(ip, s) := pop (set_IF true s.1, s.2) in
  let '(cs, s) := pop s in
  let '(fl, s) := pop s in
  let '(sp, s) := pop s in
  let '(ss, s) := pop s in
  (mk_UserContext ip cs fl sp ss, rsp s.1).

(** ** Initial frames *)

Record KernelInitialFrame := mk_KernelInitialFrame {
  k_r15 : Z; k_r14 : Z; k_r13 : Z; k_r12 : Z; k_rbx : Z; k_rbp : Z; k_rip : Z
}.

Record UserInitialFrame := mk_UserInitialFrame {
  f_r15 : Z; f_r14 : Z; f_r13 : Z; f_r12 : Z; f_rbx : Z; f_rbp : Z; f_rip : Z;
  iretq_rip : Z; iretq_cs : Z; iretq_rflags : Z; iretq_rsp : Z; iretq_ss : Z
}.

(** The words of a [repr(C, packed)] struct of [u64] fields, written at [a]. *)
Fixpoint write_words (m : mem) (a : Z) (ws : list Z) : mem :=
  match ws with
  | [] => m
  | w :: ws => write_words (store64 m a w) (a + 8) ws
  end.

Definition kernel_frame_words (f : KernelInitialFrame) : list Z :=
  [k_r15 f; k_r14 f; k_r13 f; k_r12 f; k_rbx f; k_rbp f; k_rip f].

Definition user_frame_words (f : UserInitialFrame) : list Z :=
  [f_r15 f; f_r14 f; f_r13 f; f_r12 f; f_rbx f; f_rbp f; f_rip f;
   iretq_rip f; iretq_cs f; iretq_rflags f; iretq_rsp f; iretq_ss f].

Definition USER_DS_RPL3 : Z := 0x2B.
Definition USER_CS_RPL3 : Z := 0x33.
Definition USER_RFLAGS : Z := Z.lor (Z.shiftl 1 9) (Z.shiftl 1 1).

(** [resize(n, 0u8)] of a fresh allocation at [a]. *)
Fixpoint zero_bytes (n : nat) (m : mem) (a : Z) : mem :=
  match n with
  | O => m
  | S n' => zero_bytes n' (store8 m a 0) (a + 1)
  end.

Definition align16 (a : Z) : Z := Z.land a (not64 15).

Definition Task_new_idle (stack thread : Z) : Task :=
  mk_Task TaskId_IDLE Running 0 0 false 0 TASK_QUANTUM_TICKS 0 thread (stack, 16).

Definition Task_new_kernel (m : mem) (stack stub entry arg thread : Z) : Task * mem :=
  let m := zero_bytes (Z.to_nat TASK_STACK_SIZE) m stack in
  let stack_top := align16 (stack ⊞ TASK_STACK_SIZE) in
  let frame_ptr := align16 (stack_top ⊟ 56) in
  let m := write_words m frame_ptr
    (kernel_frame_words (mk_KernelInitialFrame 0 0 arg entry 0 0 stub)) in
  (mk_Task TaskId_PENDING Ready frame_ptr stack_top false 0 TASK_QUANTUM_TICKS 0 thread
     (stack, TASK_STACK_SIZE), m).

Definition Task_new_user (m : mem) (stack stub user_entry : Z) (space : AddressSpace)
    (pml4_phys thread : Z) : Task * mem :=
  let m := zero_bytes (Z.to_nat TASK_STACK_SIZE) m stack in
  let kernel_stack_top := align16 (stack ⊞ TASK_STACK_SIZE) in
  let frame_ptr := align16 (kernel_stack_top ⊟ 96) in
  let m := write_words m frame_ptr
    (user_frame_words (mk_UserInitialFrame 0 0 0 0 0 0 stub
       user_entry USER_CS_RPL3 USER_RFLAGS (user_stack_top space) USER_DS_RPL3)) in
  (mk_Task TaskId_PENDING Ready frame_ptr kernel_stack_top true pml4_phys TASK_QUANTUM_TICKS 0
     thread (stack, TASK_STACK_SIZE), m).

(** ** Words on a stack *)

Lemma write_words_keep ws m a b :
  b + 8 ≤ a → load64 (write_words m a ws) b = load64 m b.
Proof.
  revert m a. induction ws as [|w ws IH]; intros m a Hb; [done|]. cbn [write_words].
  rewrite IH by lia. apply load64_store64_ne. right. lia.
Qed.

Lemma write_words_at ws m a : Forall in_u64 ws → words_at (write_words m a ws) a ws.
Proof.
  revert m a. induction ws as [|w ws IH]; intros m a Hw; [apply words_at_nil|].
  apply Forall_cons in Hw as [Hw Hws]. apply words_at_cons. cbn [write_words]. split.
  - rewrite write_words_keep by lia. by apply load64_store64_same.
  - by apply IH.
Qed.

(** ** Saving and resuming a context *)

Record cpu_ok (c : Cpu) : Prop := {
  cpu_rsp : 48 ≤ rsp c ∧ rsp c + 8 < W64;
  cpu_callee : Forall in_u64 [rbp c; rbx c; r12 c; r13 c; r14 c; r15 c]
}.

Definition frame_of (k : Callee) (ra : Z) : list Z :=
  [c_r15 k; c_r14 k; c_r13 k; c_r12 k; c_rbx k; c_rbp k; ra].

Lemma push_ok v c m :
  8 ≤ rsp c → rsp c < W64 → push v (c, m) = (set_rsp (rsp c - 8) c, store64 m (rsp c - 8) v).
Proof. intros. unfold push. cbn [fst snd]. by rewrite u64_small by lia. Qed.

Lemma push_callee_ok c m :
  cpu_ok c →
  ∃ m', push_callee (c, m) = (set_rsp (rsp c - 48) c, m') ∧
    words_at m' (rsp c - 48) (frame_of (callee c) (load64 m (rsp c))) ∧
    agree_off (span (rsp c - 48) 48) m m'.
Proof.
  intros [[Hlo Hhi] Hreg]. repeat apply Forall_cons in Hreg as [? Hreg].
  unfold push_callee. rewrite !push_ok by (cbn; lia). cbn [fst snd rsp set_rsp r15 r14 r13 r12 rbx rbp].
  eexists. split; [f_equal; unfold set_rsp; cbn; f_equal; lia|]. split.
  - unfold frame_of. rewrite !words_at_cons. cbn [c_r15 c_r14 c_r13 c_r12 c_rbx c_rbp callee].
    repeat split; try apply words_at_nil;
      repeat first
        [ rewrite load64_store64_ne by (unfold apart; lia)
        | match goal with |- load64 (store64 _ ?a ?v) ?b = _ =>
            replace b with a by lia; by apply load64_store64_same end ].
    f_equal. lia.
  - repeat (eapply agree_off_trans; [|apply agree_off_store64; unfold span; lia]).
    apply agree_off_refl.
Qed.

(** Popping a saved frame and returning through it. *)
Lemma resume_ok c m k ra :
  0 ≤ rsp c → rsp c + 56 < W64 → words_at m (rsp c) (frame_of k ra) →
  ret (pop_callee (c, m)) =
    (mk_Cpu (rsp c + 56) (c_rbp k) (c_rbx k) (c_r12 k) (c_r13 k) (c_r14 k) (c_r15 k)
       (rdi c) ra (cr3 c) (IF c), m).
Proof.
  intros Hlo Hhi Hw. unfold frame_of in Hw. rewrite !words_at_cons in Hw.
  destruct Hw as (H15 & H14 & H13 & H12 & Hbx & Hbp & Hra & _).
  unfold ret, pop_callee, pop. cbn [fst snd rsp set_rsp set_rip rdi cr3 IF rip rbp rbx r12 r13 r14 r15].
  u64_exact.
  rewrite H15, H14, H13, H12, Hbx, Hbp, Hra. unfold set_rip, set_rsp. cbn. f_equal. f_equal. lia.
Qed.

Definition loaded_cr3 (old new : Z) : Z := if new =? 0 then old else new.

(** One switch, on both sides. *)
Lemma switch_to_ok c m new_rsp new_cr3 k ra :
  cpu_ok c → 0 ≤ new_rsp → new_rsp + 56 < W64 →
  apart (rsp c - 48) 48 new_rsp 56 → words_at m new_rsp (frame_of k ra) →
  ∃ c' m', switch_to c m new_rsp new_cr3 = (rsp c - 48, (c', m')) ∧
    callee c' = k ∧ rip c' = ra ∧ rsp c' = new_rsp + 56 ∧ rdi c' = rdi c ∧ IF c' = IF c ∧
    cr3 c' = loaded_cr3 (cr3 c) new_cr3 ∧
    words_at m' (rsp c - 48) (frame_of (callee c) (load64 m (rsp c))) ∧
    agree_off (span (rsp c - 48) 48) m m'.
Proof.
  intros Hc Hlo Hhi Hap Hw. destruct (push_callee_ok c m Hc) as (m' & Hp & Hf & Ha).
  unfold switch_to. rewrite Hp. cbn [fst snd].
  set (c1 := if new_cr3 =? 0 then _ else _).
  assert (Hsp : rsp c1 = new_rsp) by (unfold c1; by destruct (new_cr3 =? 0)).
  rewrite (resume_ok c1 m' k ra); rewrite ?Hsp; [|done|done|].
  - eexists _, m'. split; [done|]. cbn. split; [by destruct k|].
    unfold c1, loaded_cr3. by destruct (new_cr3 =? 0).
  - eapply words_at_agree; [|exact Hw]. intros i Hi. cbn in Hi.
    eapply agree_off_span; [exact Ha|]. unfold apart in *. lia.
Qed.

(** C18. A context switched away from comes back unchanged.  If a context [c]
    calls [switch_to], the word at its stack pointer being the return
    address, and a later [switch_to] of some other context is given the
    stored stack pointer, with the saved frame's seven words still in memory
    and out of reach of the other context's own frame, then the second switch
    resumes the first context: same callee-saved registers, execution at the
    return address, the stack pointer just above it, and [CR3] reloaded exactly
    when the new value is not zero. *)
Theorem switch_roundtrip (c c2 : Cpu) (m m2 : mem) (to_rsp to_cr3 back_cr3 saved : Z)
    (s1 : Cpu * mem) :
  cpu_ok c → cpu_ok c2 →
  switch_to c m to_rsp to_cr3 = (saved, s1) →
  (∀ i, 0 ≤ i < 7 → load64 m2 (saved + 8 * i) = load64 s1.2 (saved + 8 * i)) →
  apart (rsp c2 - 48) 48 saved 56 →
  ∃ c3 m3, switch_to c2 m2 saved back_cr3 = (rsp c2 - 48, (c3, m3)) ∧
    callee c3 = callee c ∧ rip c3 = load64 m (rsp c) ∧ rsp c3 = rsp c + 8 ∧
    cr3 c3 = loaded_cr3 (cr3 c2) back_cr3.
Proof.
  intros Hc Hc2 Hsw Hkeep Hap. destruct (push_callee_ok c m Hc) as (m' & Hp & Hf & _).
  unfold switch_to in Hsw. rewrite Hp in Hsw. injection Hsw as <- <-.
  cbn [fst snd rsp set_rsp] in *. pose proof (cpu_rsp _ Hc).
  destruct (switch_to_ok c2 m2 (rsp c - 48) back_cr3 (callee c) (load64 m (rsp c)))
    as (c3 & m3 & Hs & ? & ? & Hr & _ & _ & ? & _); [done|lia|lia|done| |].
  - eapply words_at_agree; [|exact Hf]. exact Hkeep.
  - exists c3, m3. repeat split; try done. lia.
Qed.

Definition demo_cpu (sp : Z) : Cpu := mk_Cpu sp 11 12 13 14 15 16 17 0 0x1000 false.
Definition demo_stacks : mem := store64 (store64 ∅ 0x8000 0x1111) 0x9030 0x2222.

Lemma demo_cpu_ok sp : 48 ≤ sp ∧ sp + 8 < W64 → cpu_ok (demo_cpu sp).
Proof.
  intros. split; [done|]. unfold demo_cpu, in_u64, W64. cbn. repeat constructor; lia.
Qed.

Lemma switch_roundtrip_witness :
  let s1 := switch_to (demo_cpu 0x8000) demo_stacks 0x9000 0 in
  ∃ c3 m3, switch_to (demo_cpu 0x9038) s1.2.2 s1.1 0 = (0x9008, (c3, m3)) ∧
    callee c3 = callee (demo_cpu 0x8000) ∧ rip c3 = 0x1111 ∧ rsp c3 = 0x8008 ∧ cr3 c3 = 0x1000.
Proof.
  intros s1.
  assert (Hra : load64 demo_stacks 0x8000 = 0x1111) by (vm_compute; reflexivity).
  assert (Hs : s1.1 = 0x8000 - 48) by (vm_compute; reflexivity).
  destruct (switch_roundtrip (demo_cpu 0x8000) (demo_cpu 0x9038) demo_stacks s1.2.2 0x9000 0 0
    s1.1 s1.2) as (c3 & m3 & Hsw & Hk & Hip & Hsp & Hcr).
  - apply demo_cpu_ok. unfold W64. lia.
  - apply demo_cpu_ok. unfold W64. lia.
  - exact (surjective_pairing s1).
  - done.
  - rewrite Hs. right. cbn [demo_cpu rsp]. lia.
  - change (rip c3 = load64 demo_stacks 0x8000) in Hip. rewrite Hra in Hip.
    exists c3, m3. split; [exact Hsw|]. split; [exact Hk|]. split; [exact Hip|]. split; [exact Hsp|exact Hcr].
Defined.

(** ** Packing *)

Lemma task_id_pack_ok (i : TaskId) :
  0 ≤ slot_index i < 2 ^ 56 → 0 ≤ slot_generation i < 256 →
  in_u64 (compress_task_id i) ∧ expand_task_id (compress_task_id i) = i.
Proof.
  destruct i as [x g]. cbn. intros Hx Hg.
  assert (Hc : compress_task_id (mk_TaskId x g) = x + g * 2 ^ 56).
  { unfold compress_task_id. cbn. rewrite Z.shiftl_mul_pow2 by lia.
    rewrite u64_small by (unfold W64; lia). rewrite Z.lor_comm, (lor_aligned (g * 2 ^ 56) x 56); [lia|lia| |lia].
    by apply Z.mod_mul. }
  rewrite Hc. split; [unfold in_u64, W64; lia|]. unfold expand_task_id. f_equal.
  - rewrite Z.shiftl_mul_pow2, Z.shiftr_div_pow2 by lia. unfold u64, W64.
    replace ((x + g * 2 ^ 56) * 2 ^ 8) with (x * 2 ^ 8 + g * 2 ^ 64) by lia.
    rewrite Z.mod_add by done. rewrite Z.mod_small by lia. by apply Z.div_mul.
  - rewrite Z.shiftr_div_pow2 by lia. change (64 - 8) with 56.
    rewrite Z.div_add by done. rewrite (Z.div_small x) by lia. unfold u8. apply Z.mod_small. lia.
Qed.

(** The packing used to hand a [TaskId] to a system task is lossless for
    every index below [2^56], in particular for every slot of the table. *)
Theorem task_id_pack_roundtrip (i : TaskId) :
  0 ≤ slot_index i < 2 ^ 56 → 0 ≤ slot_generation i < 256 →
  in_u64 (compress_task_id i) ∧ expand_task_id (compress_task_id i) = i.
Proof. apply task_id_pack_ok. Qed.

Lemma task_id_pack_roundtrip_witness :
  in_u64 (compress_task_id (mk_TaskId 255 254)) ∧
  expand_task_id (compress_task_id (mk_TaskId 255 254)) = mk_TaskId 255 254.
Proof. apply (task_id_pack_roundtrip (mk_TaskId 255 254)); cbn; lia. Defined.

(** ** First run of a new task *)

Lemma align16_down a : in_u64 a → align16 a = a - a mod 16.
Proof. intros. unfold align16. change 15 with (2 ^ 4 - 1). change 16 with (2 ^ 4).
  apply land_not64_mask; [lia|done]. Qed.

Ltac all_u64 :=
  cbn; repeat (apply Forall_cons; split; [first [assumption | unfold in_u64, W64; cbn; lia]|]);
  apply Forall_nil; exact I.

(** A stack allocation the heap can return. *)
Definition stack_ok (stack : Z) : Prop := 4096 ≤ stack ∧ stack + TASK_STACK_SIZE + 64 < W64.

Definition stack_top_of (stack : Z) : Z :=
  stack + TASK_STACK_SIZE - (stack + TASK_STACK_SIZE) mod 16.

Lemma stack_top_ok stack :
  stack_ok stack →
  align16 (stack ⊞ TASK_STACK_SIZE) = stack_top_of stack ∧
  stack_top_of stack mod 16 = 0 ∧
  stack + TASK_STACK_SIZE - 16 < stack_top_of stack ≤ stack + TASK_STACK_SIZE.
Proof.
  unfold stack_ok, stack_top_of, TASK_STACK_SIZE. intros Hs.
  rewrite u64_small by lia. rewrite align16_down by (unfold in_u64; lia).
  pose proof (Z.mod_pos_bound (stack + 16 * 1024) 16). repeat split; try lia.
  pose proof (Z.div_mod (stack + 16 * 1024) 16). rewrite <- (Z.mod_mul ((stack + 16 * 1024) / 16) 16) by lia.
  f_equal. lia.
Qed.

Lemma align16_below top n :
  in_u64 top → top mod 16 = 0 → 0 ≤ n ≤ top → n mod 16 = 0 → align16 (top ⊟ n) = top - n.
Proof.
  unfold in_u64. intros Ht Hm Hn Hn16. rewrite u64_small by lia.
  rewrite align16_down by (unfold in_u64; lia). rewrite Zminus_mod, Hm, Hn16.
  change ((0 - 0) mod 16) with 0. lia.
Qed.

Lemma align16_below_56 top :
  in_u64 top → top mod 16 = 0 → 64 ≤ top → align16 (top ⊟ 56) = top - 64.
Proof.
  unfold in_u64. intros Ht Hm Hn. rewrite u64_small by lia.
  rewrite align16_down by (unfold in_u64; lia). rewrite Zminus_mod, Hm.
  change ((0 - 56 mod 16) mod 16) with 8. lia.
Qed.

(** The first switch to a task built by [Task::new_kernel].  Whatever
    context [c] is switched away from, provided its frame is outside the new
    stack, execution arrives in [task_entry_stub] and from there at the
    entry function, with the task's argument in [RDI], interrupts enabled, the
    return address of the call pointing at the exit path and [CR3] unchanged.
    The stack pointer stays inside the task's own stack, and at the entry
    function it is a multiple of 16: the System V ABI, and the comment in the
    source, want it 8 modulo 16 there. *)
Theorem new_kernel_first_run (c : Cpu) (m : mem) (stack stub entry arg thread ra : Z) :
  cpu_ok c → stack_ok stack → Forall in_u64 [stub; entry; arg; ra] →
  apart (rsp c - 48) 48 stack TASK_STACK_SIZE →
  let '(t, m1) := Task_new_kernel m stack stub entry arg thread in
  ∃ c1 m2 c2 m3, switch_to c m1 (t_saved_rsp t) (t_cr3 t) = (rsp c - 48, (c1, m2)) ∧
    rip c1 = stub ∧ rsp c1 mod 16 = 8 ∧
    task_entry_stub ra (c1, m2) = (c2, m3) ∧
    rip c2 = entry ∧ rdi c2 = arg ∧ IF c2 = true ∧ cr3 c2 = cr3 c ∧
    load64 m3 (rsp c2) = ra ∧ rsp c2 mod 16 = 0 ∧
    stack ≤ rsp c2 ∧ rsp c2 + 16 = t_kernel_stack_top t ∧
    t_kernel_stack_top t ≤ stack + TASK_STACK_SIZE.
Proof.
  intros Hc Hs Hv Hap. unfold Task_new_kernel. destruct (stack_top_ok stack Hs) as (Htop & Hmod & Hrng).
  rewrite Htop. set (top := stack_top_of stack) in *.
  unfold stack_ok, TASK_STACK_SIZE in *.
  rewrite align16_below_56 by (unfold in_u64; lia).
  repeat apply Forall_cons in Hv as [? Hv]. cbn [t_saved_rsp t_cr3 t_kernel_stack_top].
  set (m1 := write_words _ _ _).
  assert (Hw : words_at m1 (top - 64) (frame_of (mk_Callee 0 0 entry arg 0 0) stub)).
  { apply (write_words_at (frame_of (mk_Callee 0 0 entry arg 0 0) stub)).
    all_u64. }
  clearbody m1. clear Htop.
  destruct (switch_to_ok c m1 (top - 64) 0 (mk_Callee 0 0 entry arg 0 0) stub)
    as (c1 & m2 & Hsw & Hk & Hip & Hsp & _ & _ & Hcr & _);
    [done|lia|lia|unfold apart in *; lia|done|].
  injection Hk as Hk1 Hk2 Hk3 Hk4 Hk5 Hk6.
  exists c1, m2. unfold task_entry_stub, call. rewrite push_ok by (cbn; lia).
  do 2 eexists. split; [exact Hsw|]. split; [done|]. rewrite Hsp.
  split; [replace (top - 64 + 56) with (8 + (top / 16 - 1) * 16);
          [by rewrite Z.mod_add | pose proof (Z.div_mod top 16); lia]|].
  split; [done|]. cbn. rewrite Hk3, Hk4, Hcr, Hsp. repeat split; try done; try lia.
  - by apply load64_store64_same.
  - replace (top - 64 + 56 - 8) with (0 + (top / 16 - 1) * 16);
      [by rewrite Z.mod_add | pose proof (Z.div_mod top 16); lia].
Qed.

Lemma new_kernel_first_run_witness :
  let '(t, m1) := Task_new_kernel ∅ 0x20000 0x7000 0x5000 42 1 in
  ∃ c1 m2 c2 m3,
    switch_to (demo_cpu 0x8000) m1 (t_saved_rsp t) (t_cr3 t) = (0x8000 - 48, (c1, m2)) ∧
    rip c1 = 0x7000 ∧ rsp c1 mod 16 = 8 ∧
    task_entry_stub 0x7008 (c1, m2) = (c2, m3) ∧
    rip c2 = 0x5000 ∧ rdi c2 = 42 ∧ IF c2 = true ∧ cr3 c2 = 0x1000 ∧
    load64 m3 (rsp c2) = 0x7008 ∧ rsp c2 mod 16 = 0 ∧
    0x20000 ≤ rsp c2 ∧ rsp c2 + 16 = t_kernel_stack_top t ∧
    t_kernel_stack_top t ≤ 0x20000 + TASK_STACK_SIZE.
Proof.
  apply (new_kernel_first_run (demo_cpu 0x8000) ∅ 0x20000 0x7000 0x5000 42 1 0x7008).
  - apply demo_cpu_ok. unfold W64. lia.
  - unfold stack_ok, TASK_STACK_SIZE, W64. lia.
  - all_u64.
  - left. cbn [demo_cpu rsp]. lia.
Defined.

(** The first switch to a task built by [Task::new_user]: [CR3] holds the
    process's page tables, execution reaches [user_task_entry_stub] on the
    task's kernel stack, and its [iretq] enters ring 3 at the user entry point
    with the user stack pointer of the address space, the user selectors,
    and interrupts enabled, leaving the kernel stack empty at the top recorded
    in the task. *)
Theorem new_user_first_run (c : Cpu) (m : mem) (stack stub entry thread pml4 : Z)
    (space : AddressSpace) :
  cpu_ok c → stack_ok stack → Forall in_u64 [stub; entry; user_stack_top space] →
  pml4 ≠ 0 → apart (rsp c - 48) 48 stack TASK_STACK_SIZE →
  let '(t, m1) := Task_new_user m stack stub entry space pml4 thread in
  ∃ c1 m2, switch_to c m1 (t_saved_rsp t) (t_cr3 t) = (rsp c - 48, (c1, m2)) ∧
    rip c1 = stub ∧ cr3 c1 = pml4 ∧
    user_task_entry_stub (c1, m2) =
      (mk_UserContext entry 0x33 0x202 (user_stack_top space) 0x2B, t_kernel_stack_top t) ∧
    t_kernel_stack_top t mod 16 = 0 ∧
    stack ≤ t_saved_rsp t ∧ t_kernel_stack_top t ≤ stack + TASK_STACK_SIZE.
Proof.
  intros Hc Hs Hv Hp Hap. unfold Task_new_user. destruct (stack_top_ok stack Hs) as (Htop & Hmod & Hrng).
  rewrite Htop. set (top := stack_top_of stack) in *.
  unfold stack_ok, TASK_STACK_SIZE in *.
  rewrite align16_below by (unfold in_u64; (lia || done)).
  repeat apply Forall_cons in Hv as [? Hv]. cbn [t_saved_rsp t_cr3 t_kernel_stack_top].
  set (m1 := write_words _ _ _).
  assert (Hw : words_at m1 (top - 96) (frame_of (mk_Callee 0 0 0 0 0 0) stub ++
    [entry; 0x33; 0x202; user_stack_top space; 0x2B])).
  { apply (write_words_at (frame_of (mk_Callee 0 0 0 0 0 0) stub ++
      [entry; 0x33; 0x202; user_stack_top space; 0x2B])).
    all_u64. }
  clearbody m1. clear Htop.
  cbn [app frame_of] in Hw. rewrite !words_at_cons in Hw.
  destruct Hw as (W0 & W1 & W2 & W3 & W4 & W5 & W6 & W7 & W8 & W9 & W10 & W11 & _).
  destruct (switch_to_ok c m1 (top - 96) pml4 (mk_Callee 0 0 0 0 0 0) stub)
    as (c1 & m2 & Hsw & _ & Hip & Hsp & _ & _ & Hcr & _ & Hag);
    [done|lia|lia|unfold apart in *; lia| |].
  { unfold frame_of. rewrite !words_at_cons. repeat split; (done || apply words_at_nil). }
  exists c1, m2. split; [exact Hsw|]. split; [done|].
  split; [rewrite Hcr; unfold loaded_cr3; by destruct (Z.eqb_spec pml4 0)|].
  split; [|lia]. unfold user_task_entry_stub, pop. cbn [fst snd rsp set_rsp set_IF]. rewrite Hsp.
  u64_exact.
  rewrite !(agree_off_span _ _ _ _ _ Hag) by (unfold apart in *; lia).
  replace (top - 96 + 56) with (top - 96 + 8 + 8 + 8 + 8 + 8 + 8 + 8) by lia.
  rewrite W7, W8, W9, W10, W11. f_equal. lia.
Qed.

Definition demo_space : AddressSpace :=
  {| as_pml4_phys := 0x3000; user_stack_top := 0x7FFFFFFFE000; user_stack_pages := 4 |}.

Lemma new_user_first_run_witness :
  let '(t, m1) := Task_new_user ∅ 0x20000 0x7000 0x400000 demo_space 0x3000 1 in
  ∃ c1 m2, switch_to (demo_cpu 0x8000) m1 (t_saved_rsp t) (t_cr3 t) = (0x8000 - 48, (c1, m2)) ∧
    rip c1 = 0x7000 ∧ cr3 c1 = 0x3000 ∧
    user_task_entry_stub (c1, m2) =
      (mk_UserContext 0x400000 0x33 0x202 0x7FFFFFFFE000 0x2B, t_kernel_stack_top t) ∧
    t_kernel_stack_top t mod 16 = 0 ∧
    0x20000 ≤ t_saved_rsp t ∧ t_kernel_stack_top t ≤ 0x20000 + TASK_STACK_SIZE.
Proof.
  apply (new_user_first_run (demo_cpu 0x8000) ∅ 0x20000 0x7000 0x400000 1 0x3000 demo_space).
  - apply demo_cpu_ok. unfold W64. lia.
  - unfold stack_ok, TASK_STACK_SIZE, W64. lia.
  - all_u64.
  - done.
  - left. cbn [demo_cpu rsp]. lia.
Defined.
