(* ===== verification/Queues.v ===== *)
(** * Queues.v: the fixed-size ring buffers

    The kernel keeps four ring buffers of a power-of-two capacity: the ready
    queue of a CPU ([PerCpuQueue], scheduler.rs), the reaper and tombstone
    queues (reaper.rs) and the system task queue (system_task_queue.rs).
    They share one shape: a backing array, a head and a tail index wrapped by
    a mask, and a length.  They differ in what a slot holds: an [Option] that
    [pop] takes, or a bare [TaskId] that [pop] leaves behind.

    [BoundedFifo] states what a client may rely on; every queue is an
    instance, and the scheduler's theorems use the interface only. *)

From S2P Require Import Prelude Task.

Local Open Scope Z_scope.

(** ** The interface *)

Class BoundedFifo (Q A E : Type) := {
  fifo_cap : nat;
  fifo_full : E;
  fifo_push : Q → A → outcome (result unit E * Q);
  fifo_pop : Q → outcome (option A * Q);
  fifo_repr : Q → list A → Prop;
  fifo_repr_cap q l : fifo_repr q l → (length l ≤ fifo_cap)%nat;
  fifo_push_ok q l x : fifo_repr q l → (length l < fifo_cap)%nat →
    ∃ q', fifo_push q x = Done (Ok tt, q') ∧ fifo_repr q' (l ++ [x]);
  fifo_push_full q l x : fifo_repr q l → length l = fifo_cap →
    fifo_push q x = Done (Err fifo_full, q);
  fifo_pop_ok q x l : fifo_repr q (x :: l) →
    ∃ q', fifo_pop q = Done (Some x, q') ∧ fifo_repr q' l;
  fifo_pop_empty q : fifo_repr q [] → fifo_pop q = Done (None, q)
}.

(** ** The ring *)

Record Ring (S : Type) := mk_Ring {
  q_slots : list S;
  q_head : Z;
  q_tail : Z;
  q_len : Z
}.

Arguments mk_Ring {S} q_slots q_head q_tail q_len.
Arguments q_slots {S} r.
Arguments q_head {S} r.
Arguments q_tail {S} r.
Arguments q_len {S} r.

(** [put] is what a push writes in a slot, [get] what a pop returns of one and
    [left] what the pop leaves in it. *)
Definition ring_new {S} (size : nat) (empty : S) : Ring S := mk_Ring (replicate size empty) 0 0 0.

Definition ring_push {S A E} (put : A → S) (size : Z) (full : E) (q : Ring S) (x : A)
    : outcome (result unit E * Ring S) :=
  if q_len q =? size then Done (Err full, q)
  else
    slots ← slot_set (q_slots q) (q_tail q) (put x);
    Done (Ok tt, mk_Ring slots (q_head q) (Z.land (q_tail q ⊞ 1) (size - 1)) (q_len q ⊞ 1)).

Definition ring_pop {S A} (get : S → option A) (left : S → S) (size : Z) (q : Ring S)
    : outcome (option A * Ring S) :=
  if q_len q =? 0 then Done (None, q)
  else
    s ← slot_get (q_slots q) (q_head q);
    slots ← slot_set (q_slots q) (q_head q) (left s);
    Done (get s, mk_Ring slots (Z.land (q_head q ⊞ 1) (size - 1)) (q_tail q) (q_len q ⊟ 1)).

(** [take()] on an [Option] slot. *)
Definition taken {A} (_ : option A) : option A := None.

(** ** Errors *)

Inductive SchedulerError := QueueFull | TaskTableFull | UnknownTask.
Inductive ReaperError := ReaperQueueFull | TombstoneQueueFull | ReaperUnknownTask.

#[global] Instance SchedulerError_eq_dec : EqDecision SchedulerError.
Proof. solve_decision. Defined.

(** ** The four queues *)

Definition QUEUE_SIZE : Z := 256.
Definition PerCpuQueue := Ring TaskId.
Definition PerCpuQueue_new : PerCpuQueue := ring_new 256 TaskId_IDLE.
Definition PerCpuQueue_push : PerCpuQueue → TaskId → outcome (result unit SchedulerError * PerCpuQueue) :=
  ring_push id QUEUE_SIZE QueueFull.
Definition PerCpuQueue_pop : PerCpuQueue → outcome (option TaskId * PerCpuQueue) :=
  ring_pop Some id QUEUE_SIZE.

Definition REAPER_QUEUE_SIZE : Z := 64.
Definition ReaperQueue := Ring (option TaskId).
Definition ReaperQueue_new : ReaperQueue := ring_new 64 None.
Definition ReaperQueue_push : ReaperQueue → TaskId → outcome (result unit ReaperError * ReaperQueue) :=
  ring_push Some REAPER_QUEUE_SIZE ReaperQueueFull.
Definition ReaperQueue_pop : ReaperQueue → outcome (option TaskId * ReaperQueue) :=
  ring_pop id taken REAPER_QUEUE_SIZE.

Definition TOMBSTONE_QUEUE_SIZE : Z := 64.
Definition TombstoneQueue := Ring (option TaskId).
Definition TombstoneQueue_new : TombstoneQueue := ring_new 64 None.
Definition TombstoneQueue_push
    : TombstoneQueue → TaskId → outcome (result unit ReaperError * TombstoneQueue) :=
  ring_push Some TOMBSTONE_QUEUE_SIZE TombstoneQueueFull.
Definition TombstoneQueue_pop : TombstoneQueue → outcome (option TaskId * TombstoneQueue) :=
  ring_pop id taken TOMBSTONE_QUEUE_SIZE.

(** [fn(u64)] values of the kernel: [task_killer] is the only function it
    ever queues. *)
Inductive SystemFn := task_killer.

Record SystemTask := mk_SystemTask { function : SystemFn; func_arg : Z }.

Definition MAX_SYSTEM_TASKS : Z := 32.
Definition SystemTaskQueue := Ring (option SystemTask).
Definition SystemTaskQueue_new : SystemTaskQueue := ring_new 32 None.
Definition SystemTaskQueue_push
    : SystemTaskQueue → SystemTask → outcome (result unit string * SystemTaskQueue) :=
  ring_push Some MAX_SYSTEM_TASKS "[SYSTEM_TASK] Queue full, dropping SystemTask"%string.
Definition SystemTaskQueue_pop : SystemTaskQueue → outcome (option SystemTask * SystemTaskQueue) :=
  ring_pop id taken MAX_SYSTEM_TASKS.

(** ** A ring implements a bounded FIFO *)

(** The slot [i] places after the head. *)
Definition ring_at (size head i : Z) : Z :=
  if head + i <? size then head + i else head + i - size.

Ltac ring_lia :=
  unfold ring_at in *;
  repeat match goal with
  | |- context [Z.ltb ?a ?b] => destruct (Z.ltb_spec a b)
  end; lia.

Lemma mask_next k i :
  0 ≤ k < 64 → 0 ≤ i < 2 ^ k → Z.land (i ⊞ 1) (2 ^ k - 1) = ring_at (2 ^ k) i 1.
Proof.
  intros Hk Hi. assert (2 ^ k < W64) by (apply Z.pow_lt_mono_r; lia).
  rewrite u64_small by lia. replace (2 ^ k - 1) with (Z.ones k) by (rewrite Z.ones_equiv; lia).
  rewrite Z.land_ones by lia. unfold ring_at. destruct (Z.ltb_spec (i + 1) (2 ^ k)).
  - apply Z.mod_small. lia.
  - replace (i + 1) with (2 ^ k) by lia. rewrite Z.mod_same; lia.
Qed.

Section ring.
Context {S A E : Type} (put : A → S) (get : S → option A) (left : S → S) (full : E).
Context (k : Z) (Hk : 0 ≤ k < 63) (clean : S → Prop).
Context (get_put : ∀ x, get (put x) = Some x) (clean_left : ∀ s, clean (left s)).

Local Abbreviation size := (2 ^ k).

(** Live slots hold the queue in order, every other slot is clean. *)
Record ring_repr (q : Ring S) (l : list A) : Prop := {
  rr_len : q_len q = Z.of_nat (length l);
  rr_cap : Z.of_nat (length l) ≤ size;
  rr_slots : Z.of_nat (length (q_slots q)) = size;
  rr_head : 0 ≤ q_head q < size;
  rr_tail : q_tail q = ring_at size (q_head q) (Z.of_nat (length l)) ∨
            Z.of_nat (length l) = size ∧ q_tail q = q_head q;
  rr_live i x : l !! i = Some x →
    q_slots q !! Z.to_nat (ring_at size (q_head q) (Z.of_nat i)) = Some (put x);
  rr_clean i s : Z.of_nat (length l) ≤ i < size →
    q_slots q !! Z.to_nat (ring_at size (q_head q) i) = Some s → clean s
}.

Lemma ring_at_range h i : 0 ≤ h < size → 0 ≤ i < size → 0 ≤ ring_at size h i < size.
Proof. unfold ring_at. intros. destruct (Z.ltb_spec (h + i) size); lia. Qed.

Lemma ring_at_next h i :
  0 ≤ h < size → 0 ≤ i → i + 1 < size →
  ring_at size (ring_at size h 1) i = ring_at size h (i + 1).
Proof.
  intros. ring_lia.
Qed.

Lemma ring_at_inj h i j :
  0 ≤ h < size → 0 ≤ i < size → 0 ≤ j < size →
  Z.to_nat (ring_at size h i) = Z.to_nat (ring_at size h j) → i = j.
Proof.
  unfold ring_at. intros. destruct (Z.ltb_spec (h + i) size), (Z.ltb_spec (h + j) size); lia.
Qed.

Lemma size_bounds : 1 ≤ size < 2 ^ 63.
Proof. split; [change 1 with (2 ^ 0); apply Z.pow_le_mono_r | apply Z.pow_lt_mono_r]; lia. Qed.

Lemma ring_new_repr e : clean e → ring_repr (ring_new (Z.to_nat size) e) [].
Proof.
  intros He. pose proof size_bounds. split; cbn [ring_new q_len q_slots q_head q_tail length]; try lia; try done.
  - rewrite length_replicate. lia.
  - left. ring_lia.
  - intros i s _ Hs. apply lookup_replicate in Hs as [-> _]. done.
Qed.

Lemma ring_push_ok q l x :
  ring_repr q l → Z.of_nat (length l) < size →
  ∃ q', ring_push put size full q x = Done (Ok tt, q') ∧ ring_repr q' (l ++ [x]).
Proof.
  intros [Hlen Hcap Hs Hh Ht Hlive Hclean] Hl. pose proof size_bounds.
  destruct Ht as [Ht|]; [|lia].
  pose proof (ring_at_range (q_head q) (Z.of_nat (length l)) Hh ltac:(lia)) as Htr.
  unfold ring_push. rewrite (proj2 (Z.eqb_neq _ _)) by lia.
  rewrite slot_set_ok by lia. cbn [mbind outcome_bind].
  rewrite mask_next by lia. rewrite u64_small by (unfold W64; lia). eexists. split; [done|].
  split; cbn [q_len q_slots q_head q_tail]; rewrite ?length_app, ?length_insert; cbn [length]; try lia.
  - rewrite Ht. destruct (decide (Z.of_nat (length l) + 1 = size)) as [Hf|].
    + right. split; [lia|]. ring_lia.
    + left. ring_lia.
  - intros i y Hi. rewrite Ht. apply lookup_snoc_Some in Hi as [[Hlt Hi]|[-> ->]].
    + rewrite list_lookup_insert_ne; [by apply Hlive|]. intros He%ring_at_inj; lia.
    + apply list_lookup_insert_eq. lia.
  - intros i s Hi. rewrite Ht. rewrite list_lookup_insert_ne; [apply Hclean; lia|].
    intros He%ring_at_inj; lia.
Qed.

Lemma ring_push_full q l x :
  ring_repr q l → Z.of_nat (length l) = size → ring_push put size full q x = Done (Err full, q).
Proof. intros [Hlen _ _ _ _ _ _] Hl. unfold ring_push. by rewrite Hlen, Hl, Z.eqb_refl. Qed.

Lemma ring_pop_empty q : ring_repr q [] → ring_pop get left size q = Done (None, q).
Proof. intros [Hlen _ _ _ _ _ _]. unfold ring_pop. by rewrite Hlen. Qed.

Lemma ring_pop_ok q x l :
  ring_repr q (x :: l) →
  ∃ q', ring_pop get left size q = Done (Some x, q') ∧ ring_repr q' l.
Proof.
  intros [Hlen Hcap Hs Hh Ht Hlive Hclean]. pose proof size_bounds.
  cbn [length] in *. rewrite Nat2Z.inj_succ in *.
  assert (H0 : ring_at size (q_head q) 0 = q_head q).
  { ring_lia. }
  pose proof (Hlive 0%nat x eq_refl) as Hx. change (Z.of_nat 0) with 0 in Hx. rewrite H0 in Hx.
  unfold ring_pop. rewrite (proj2 (Z.eqb_neq _ _)) by lia.
  rewrite (slot_get_ok _ _ _ Hx). cbn [mbind outcome_bind]. rewrite slot_set_ok by lia.
  cbn [mbind outcome_bind]. rewrite get_put, mask_next by lia.
  rewrite u64_small by (unfold W64; lia). eexists. split; [done|].
  split; cbn [q_len q_slots q_head q_tail]; rewrite ?length_insert; try lia.
  - pose proof (ring_at_range (q_head q) 1). ring_lia.
  - left. destruct Ht as [->|[Hf ->]]; ring_lia.
  - intros i y Hi. pose proof (lookup_lt_Some _ _ _ Hi).
    rewrite ring_at_next by lia. rewrite list_lookup_insert_ne.
    + rewrite <- (Hlive (Datatypes.S i) y) by done. do 3 f_equal. lia.
    + rewrite <- H0 at 1. intros He%ring_at_inj; lia.
  - intros i s Hi. destruct (decide (i + 1 = size)) as [Hl|].
    + replace (ring_at size (ring_at size (q_head q) 1) i) with (q_head q)
        by (ring_lia).
      rewrite list_lookup_insert_eq by lia. intros [= <-]. apply clean_left.
    + rewrite ring_at_next by lia. rewrite list_lookup_insert_ne; [apply Hclean; lia|].
      rewrite <- H0 at 1. intros He%ring_at_inj; lia.
Qed.

(** A pair of operations on a ring as an instance of the interface. *)
Definition ring_fifo (cap : nat) (push : Ring S → A → outcome (result unit E * Ring S))
    (pop : Ring S → outcome (option A * Ring S)) :
  cap = Z.to_nat size → push = ring_push put size full → pop = ring_pop get left size → BoundedFifo (Ring S) A E.
Proof.
  intros Hcap Hpush Hpop.
  refine {| fifo_cap := cap; fifo_full := full; fifo_push := push; fifo_pop := pop; fifo_repr := ring_repr |};
    pose proof size_bounds.
  - intros q l H1. pose proof (rr_cap _ _ H1). lia.
  - intros q l x H1 H2. rewrite Hpush. apply ring_push_ok; [done|lia].
  - intros q l x H1 H2. rewrite Hpush. eapply ring_push_full; [done|lia].
  - intros q x l H1. rewrite Hpop. by apply ring_pop_ok.
  - intros q H1. rewrite Hpop. by apply ring_pop_empty.
Defined.
End ring.

(** A stale [TaskId] slot is never read, so any content is clean; an [Option]
    slot that is not live is [None]. *)
Definition any_slot {S} (_ : S) : Prop := True.

#[global] Instance PerCpuQueue_fifo : BoundedFifo PerCpuQueue TaskId SchedulerError :=
  ring_fifo id Some id QueueFull 8 ltac:(lia) any_slot (λ _, eq_refl) (λ _, I)
    256 PerCpuQueue_push PerCpuQueue_pop eq_refl eq_refl eq_refl.

#[global] Instance ReaperQueue_fifo : BoundedFifo ReaperQueue TaskId ReaperError :=
  ring_fifo Some id taken ReaperQueueFull 6 ltac:(lia) (eq None) (λ _, eq_refl) (λ _, eq_refl)
    64 ReaperQueue_push ReaperQueue_pop eq_refl eq_refl eq_refl.

Definition TombstoneQueue_fifo : BoundedFifo TombstoneQueue TaskId ReaperError :=
  ring_fifo Some id taken TombstoneQueueFull 6 ltac:(lia) (eq None) (λ _, eq_refl) (λ _, eq_refl)
    64 TombstoneQueue_push TombstoneQueue_pop eq_refl eq_refl eq_refl.

#[global] Instance SystemTaskQueue_fifo : BoundedFifo SystemTaskQueue SystemTask string :=
  ring_fifo Some id taken "[SYSTEM_TASK] Queue full, dropping SystemTask"%string 5 ltac:(lia)
    (eq None) (λ _, eq_refl) (λ _, eq_refl)
    32 SystemTaskQueue_push SystemTaskQueue_pop eq_refl eq_refl eq_refl.

(** ** Refinement *)

Inductive fifo_op (A : Type) := Push (x : A) | Pop.
Arguments Push {A} x.
Arguments Pop {A}.

(** What an operation returns: the outcome of a push or the popped element. *)
Definition fifo_answer (A E : Type) : Type := result unit E + option A.

(** A queue's operations, run in sequence; what each returned. *)
Section run.
Context {Q A E : Type} (push : Q → A → outcome (result unit E * Q)) (pop : Q → outcome (option A * Q)).

Definition fifo_step (q : Q) (op : fifo_op A) : outcome (fifo_answer A E * Q) :=
  match op with
  | Push x => '(r, q) ← push q x; Done (inl r, q)
  | Pop => '(r, q) ← pop q; Done (inr r, q)
  end.

Fixpoint fifo_run (q : Q) (ops : list (fifo_op A)) : outcome (list (fifo_answer A E)) :=
  match ops with
  | [] => Done []
  | op :: ops => '(r, q) ← fifo_step q op; rs ← fifo_run q ops; Done (r :: rs)
  end.
End run.

(** The specification: a list of at most [cap] elements. *)
Section bounded_list.
Context {A E : Type} (cap : nat) (full : E).

Definition list_step (l : list A) (op : fifo_op A) : fifo_answer A E * list A :=
  match op, l with
  | Push x, _ => if (length l <? cap)%nat then (inl (Ok tt), l ++ [x]) else (inl (Err full), l)
  | Pop, [] => (inr None, [])
  | Pop, x :: l => (inr (Some x), l)
  end.

Fixpoint list_run (l : list A) (ops : list (fifo_op A)) : list (fifo_answer A E) :=
  match ops with
  | [] => []
  | op :: ops => let '(r, l) := list_step l op in r :: list_run l ops
  end.
End bounded_list.

Section refinement.
Context {Q A E : Type} {F : BoundedFifo Q A E}.

Lemma fifo_step_refines q l op :
  @fifo_repr Q A E F q l →
  ∃ q', fifo_step fifo_push fifo_pop q op = Done ((list_step (@fifo_cap Q A E F) fifo_full l op).1, q') ∧
    @fifo_repr Q A E F q' (list_step (@fifo_cap Q A E F) (@fifo_full Q A E F) l op).2.
Proof.
  intros Hr. pose proof (fifo_repr_cap q l Hr). destruct op as [x|]; cbn [fifo_step list_step].
  - destruct (Nat.ltb_spec (length l) (@fifo_cap Q A E F)).
    + destruct (@fifo_push_ok Q A E F q l x) as (q2 & Hq & Hr2); [exact Hr|assumption|]. rewrite Hq. by exists q2.
    + rewrite (@fifo_push_full Q A E F q l x) by (done || lia). by exists q.
  - destruct l as [|x l].
    + rewrite (@fifo_pop_empty Q A E F) by done. by exists q.
    + destruct (@fifo_pop_ok Q A E F q x l Hr) as (q' & -> & Hr'). by exists q'.
Qed.

Lemma fifo_run_refines q l ops :
  @fifo_repr Q A E F q l → fifo_run fifo_push fifo_pop q ops = Done (list_run (@fifo_cap Q A E F) (@fifo_full Q A E F) l ops).
Proof.
  revert q l. induction ops as [|op ops IH]; intros q l Hr; [done|]. cbn [fifo_run list_run].
  destruct (fifo_step_refines q l op Hr) as (q' & -> & Hr'). rewrite bind_Done.
  destruct (list_step _ _ l op) as [r l']. cbn [fst snd] in *. by rewrite (IH q' l' Hr').
Qed.
End refinement.

Lemma PerCpuQueue_new_repr : fifo_repr PerCpuQueue_new [].
Proof. by apply (ring_new_repr id 8). Qed.
Lemma ReaperQueue_new_repr : fifo_repr ReaperQueue_new [].
Proof. by apply (ring_new_repr Some 6). Qed.
Lemma TombstoneQueue_new_repr : fifo_repr (BoundedFifo := TombstoneQueue_fifo) TombstoneQueue_new [].
Proof. by apply (ring_new_repr Some 6). Qed.
Lemma SystemTaskQueue_new_repr : fifo_repr SystemTaskQueue_new [].
Proof. by apply (ring_new_repr Some 5). Qed.

(** C15. The four ring buffers are bounded FIFO queues: from the empty queue,
    any sequence of the queue's [push] and [pop] completes without an index panic
    and returns, operation by operation, what a first-in first-out list returns
    that holds at most 256 tasks (ready queue), 64 (reaper and tombstone queues) or
    32 system tasks, a push into a full queue being refused with the queue's error
    and no other effect. *)
Theorem ring_queues_refine_fifo (ops : list (fifo_op TaskId)) (sys : list (fifo_op SystemTask)) :
  fifo_run PerCpuQueue_push PerCpuQueue_pop PerCpuQueue_new ops = Done (list_run 256 QueueFull [] ops) ∧
  fifo_run ReaperQueue_push ReaperQueue_pop ReaperQueue_new ops = Done (list_run 64 ReaperQueueFull [] ops) ∧
  fifo_run TombstoneQueue_push TombstoneQueue_pop TombstoneQueue_new ops = Done (list_run 64 TombstoneQueueFull [] ops) ∧
  fifo_run SystemTaskQueue_push SystemTaskQueue_pop SystemTaskQueue_new sys =
    Done (list_run 32 "[SYSTEM_TASK] Queue full, dropping SystemTask"%string [] sys).
Proof.
  split_and!.
  - apply (fifo_run_refines (F := PerCpuQueue_fifo)), PerCpuQueue_new_repr.
  - apply (fifo_run_refines (F := ReaperQueue_fifo)), ReaperQueue_new_repr.
  - apply (fifo_run_refines (F := TombstoneQueue_fifo)), TombstoneQueue_new_repr.
  - apply (fifo_run_refines (F := SystemTaskQueue_fifo)), SystemTaskQueue_new_repr.
Qed.
