(* ===== verification/SleepQueue.v ===== *)
(** * SleepQueue.v: the delta queue of sleeping tasks

    [src/crap_os/src/task_scheduler/sleep_queue.rs].  The model keeps the
    fixed array of [Option] slots and the loops that walk and shift it; the
    specification is a list of timers holding absolute times. *)

From S2P Require Import Prelude Task.

Local Open Scope Z_scope.

Definition MAX_SLEEP_ENTRIES : Z := 256.

Record SleepEntry := mk_SleepEntry { delta_ticks : Z; sleep_task_id : TaskId }.

Record SleepQueue := mk_SleepQueue {
  entries : list (option SleepEntry);
  sq_len : Z
}.

Definition SleepQueue_new : SleepQueue := mk_SleepQueue (replicate 256 None) 0.

(** The walk of [insert]: [n] entries are left, from index [i]. *)
Fixpoint find_insert_pos (n : nat) (es : list (option SleepEntry)) (i remaining : Z)
    : outcome (Z * Z) :=
  match n with
  | O => Done (i, remaining)
  | S n =>
      e ← slot_get es i;
      e ← expect "called Option::unwrap() on a None value" e;
      if remaining <=? delta_ticks e then Done (i, remaining)
      else find_insert_pos n es (i + 1) (remaining ⊟ delta_ticks e)
  end.

(** [entries[to] = entries[from].take()] *)
Definition move_slot (es : list (option SleepEntry)) (to from : Z)
    : outcome (list (option SleepEntry)) :=
  e ← slot_get es from;
  es ← slot_set es from None;
  slot_set es to e.

(** [while i > insert_pos { entries[i] = entries[i - 1].take(); i -= 1 }],
    [n] being [i - insert_pos]. *)
Fixpoint shift_right (n : nat) (es : list (option SleepEntry)) (i : Z)
    : outcome (list (option SleepEntry)) :=
  match n with
  | O => Done es
  | S n => es ← move_slot es i (i - 1); shift_right n es (i - 1)
  end.

Definition SleepQueue_insert (q : SleepQueue) (task_id : TaskId) (ticks : Z) : outcome SleepQueue :=
  if ticks =? 0 then Done q
  else if sq_len q =? MAX_SLEEP_ENTRIES then Done q
  else
    '(insert_pos, remaining) ← find_insert_pos (Z.to_nat (sq_len q)) (entries q) 0 ticks;
    es ← shift_right (Z.to_nat (sq_len q - insert_pos)) (entries q) (sq_len q);
    es ← slot_set es insert_pos (Some (mk_SleepEntry remaining task_id));
    let queue_len := sq_len q ⊞ 1 in
    if insert_pos + 1 <? queue_len then
      next ← slot_get es (insert_pos + 1);
      match next with
      | Some e =>
          es ← slot_set es (insert_pos + 1)
                 (Some (mk_SleepEntry (delta_ticks e ⊟ remaining) (sleep_task_id e)));
          Done (mk_SleepQueue es queue_len)
      | None => Done (mk_SleepQueue es queue_len)
      end
    else Done (mk_SleepQueue es queue_len).

(** [for i in 0..queue_len - 1 { entries[i] = entries[i + 1].take() }] *)
Fixpoint shift_left (n : nat) (es : list (option SleepEntry)) (i : Z)
    : outcome (list (option SleepEntry)) :=
  match n with
  | O => Done es
  | S n => es ← move_slot es i (i + 1); shift_left n es (i + 1)
  end.

(** The pop loop of [tick].  [wake] is [scheduler::wake], whose result the
    loop discards; [k] is the state it acts on. *)
Fixpoint tick_loop {K} (wake : TaskId → K → outcome K) (fuel : nat) (q : SleepQueue) (k : K)
    (woken : Z) : outcome (Z * SleepQueue * K) :=
  match fuel with
  | O => OutOfFuel
  | S fuel =>
      if 0 <? sq_len q then
        head ← slot_get (entries q) 0;
        let delta := match head with Some e => delta_ticks e | None => 1 end in
        if negb (delta =? 0) then Done (woken, q, k)
        else
          e ← expect "called Option::unwrap() on a None value" head;
          es ← slot_set (entries q) 0 None;
          es ← shift_left (Z.to_nat (sq_len q - 1)) es 0;
          let q := mk_SleepQueue es (sq_len q ⊟ 1) in
          k ← wake (sleep_task_id e) k;
          tick_loop wake fuel q k (woken ⊞ 1)
      else Done (woken, q, k)
  end.

Definition SleepQueue_tick {K} (wake : TaskId → K → outcome K) (q : SleepQueue) (k : K)
    : outcome (Z * SleepQueue * K) :=
  if sq_len q =? 0 then Done (0, q, k)
  else
    head ← slot_get (entries q) 0;
    es ← match head with
         | Some e =>
             if 0 <? delta_ticks e then
               slot_set (entries q) 0
                 (Some (mk_SleepEntry (delta_ticks e ⊟ 1) (sleep_task_id e)))
             else Done (entries q)
         | None => Done (entries q)
         end;
    tick_loop wake (S (Z.to_nat (sq_len q))) (mk_SleepQueue es (sq_len q)) k 0.

(** ** The specification: absolute timers *)

Abbreviation timer := (Z * TaskId)%type.

(** A new timer goes before the first one that expires no earlier. *)
Fixpoint add_timer (t : Z) (i : TaskId) (s : list timer) : list timer :=
  match s with
  | [] => [(t, i)]
  | (u, j) :: s' => if t <=? u then (t, i) :: s else (u, j) :: add_timer t i s'
  end.

Definition spec_insert (i : TaskId) (ticks : Z) (s : list timer) : list timer :=
  if (ticks =? 0) || (length s =? 256)%nat then s else add_timer ticks i s.

(** The timers that expire on this tick, and the others one tick later. *)
Definition expiring (s : list timer) : list TaskId := (base.filter (λ x, x.1 ≤ 1) s).*2.
Definition remaining_timers (s : list timer) : list timer :=
  (λ x, (x.1 - 1, x.2)) <$> base.filter (λ x, 1 < x.1) s.

(** ** Delta encoding *)

Fixpoint timers (t0 : Z) (l : list SleepEntry) : list timer :=
  match l with
  | [] => []
  | e :: l => (t0 + delta_ticks e, sleep_task_id e) :: timers (t0 + delta_ticks e) l
  end.

Fixpoint delta_insert (i : TaskId) (r : Z) (l : list SleepEntry) : list SleepEntry :=
  match l with
  | [] => [mk_SleepEntry r i]
  | e :: l' =>
      if r <=? delta_ticks e
      then mk_SleepEntry r i :: mk_SleepEntry (delta_ticks e - r) (sleep_task_id e) :: l'
      else e :: delta_insert i (r - delta_ticks e) l'
  end.

Definition deltas_ok (l : list SleepEntry) : Prop := Forall (λ e, in_u64 (delta_ticks e)) l.

Record sleep_repr (q : SleepQueue) (s : list timer) : Prop := {
  sp_deltas : ∃ l, entries q = (Some <$> l) ++ replicate (256 - length l) None ∧
    (length l ≤ 256)%nat ∧ sq_len q = Z.of_nat (length l) ∧ deltas_ok l ∧ timers 0 l = s;
  sp_head : Forall (λ x, 0 < x.1) s
}.

Lemma timers_length t l : length (timers t l) = length l.
Proof. revert t. induction l; intros t; cbn; [done|]. by f_equal. Qed.

Lemma timers_delta_insert i r t l :
  0 ≤ r → deltas_ok l → timers t (delta_insert i r l) = add_timer (t + r) i (timers t l).
Proof.
  revert r t. induction l as [|e l IH]; intros r t Hr Hd; [done|].
  apply Forall_cons in Hd as [He Hd]. cbn [delta_insert timers add_timer].
  destruct (Z.leb_spec r (delta_ticks e)).
  - rewrite (proj2 (Z.leb_le _ _)) by lia. cbn [timers delta_ticks sleep_task_id].
    replace (t + r + (delta_ticks e - r)) with (t + delta_ticks e) by lia. done.
  - rewrite (proj2 (Z.leb_gt _ _)) by lia. cbn [timers]. rewrite IH by (done || lia).
    do 2 f_equal. lia.
Qed.

Lemma delta_insert_length i r l : length (delta_insert i r l) = S (length l).
Proof.
  revert r. induction l as [|e l IH]; intros r; [done|]. cbn.
  destruct (r <=? delta_ticks e); cbn; [done|]. by rewrite IH.
Qed.

Lemma delta_insert_ok i r l : 0 ≤ r < W64 → deltas_ok l → deltas_ok (delta_insert i r l).
Proof.
  revert r. induction l as [|e l IH]; intros r Hr Hd; [by apply Forall_singleton|].
  apply Forall_cons in Hd as [He Hd]. cbn [delta_insert]. unfold in_u64 in He.
  destruct (Z.leb_spec r (delta_ticks e)).
  - apply Forall_cons; split; [by unfold in_u64|]. apply Forall_cons; split; [|done].
    unfold in_u64. cbn. lia.
  - apply Forall_cons. split; [done|]. apply IH; [lia|done].
Qed.

(** ** The array loops *)

(** Where the walk stops and what is left of the sleep time there. *)
Fixpoint delta_pos (r : Z) (l : list SleepEntry) : nat * Z :=
  match l with
  | [] => (0%nat, r)
  | e :: l =>
      if r <=? delta_ticks e then (0%nat, r)
      else let '(k, r') := delta_pos (r - delta_ticks e) l in (S k, r')
  end.

(** The successor's delta, made relative to the new entry. *)
Definition adjust_head (r : Z) (l : list SleepEntry) : list SleepEntry :=
  match l with
  | [] => []
  | e :: l => mk_SleepEntry (delta_ticks e - r) (sleep_task_id e) :: l
  end.

Lemma delta_pos_split i r l :
  delta_insert i r l =
    take (delta_pos r l).1 l ++ mk_SleepEntry (delta_pos r l).2 i ::
    adjust_head (delta_pos r l).2 (drop (delta_pos r l).1 l).
Proof.
  revert r. induction l as [|e l IH]; intros r; [done|]. cbn [delta_insert delta_pos].
  destruct (r <=? delta_ticks e); [done|]. rewrite IH.
  by destruct (delta_pos (r - delta_ticks e) l).
Qed.

Lemma delta_pos_bounds r l :
  0 ≤ r → deltas_ok l →
  ((delta_pos r l).1 ≤ length l)%nat ∧ 0 ≤ (delta_pos r l).2 ≤ r ∧
  match drop (delta_pos r l).1 l with [] => True | e :: _ => (delta_pos r l).2 ≤ delta_ticks e end.
Proof.
  revert r. induction l as [|e l IH]; intros r Hr Hd; [cbn; lia|].
  apply Forall_cons in Hd as [He Hd]. unfold in_u64 in He. cbn [delta_pos].
  destruct (Z.leb_spec r (delta_ticks e)); [cbn; lia|].
  destruct (IH (r - delta_ticks e)) as (H1 & H2 & H3); [lia|done|].
  destruct (delta_pos (r - delta_ticks e) l) as [k r']. cbn in *. repeat split; try done; lia.
Qed.

Lemma find_insert_pos_ok pre l post r :
  0 ≤ r < W64 → deltas_ok l →
  find_insert_pos (length l) ((Some <$> pre) ++ (Some <$> l) ++ post) (Z.of_nat (length pre)) r =
    Done (Z.of_nat (length pre + (delta_pos r l).1), (delta_pos r l).2).
Proof.
  revert pre r. induction l as [|e l IH]; intros pre r Hr Hd.
  { cbn. do 2 f_equal. lia. }
  apply Forall_cons in Hd as [He Hd]. unfold in_u64 in He.
  cbn [length find_insert_pos fmap list_fmap app delta_pos].
  rewrite slot_get_mid by (by rewrite length_fmap). cbn [mbind outcome_bind expect].
  destruct (Z.leb_spec r (delta_ticks e)); [cbn; do 2 f_equal; lia|].
  rewrite u64_small by lia.
  replace (Z.of_nat (length pre) + 1) with (Z.of_nat (length (pre ++ [e])))
    by (rewrite length_app; cbn; lia).
  replace ((Some <$> pre) ++ Some e :: (Some <$> l) ++ post)
    with ((Some <$> pre ++ [e]) ++ (Some <$> l) ++ post)
    by (rewrite fmap_app, <- app_assoc; done).
  rewrite IH by (done || lia). rewrite length_app. cbn [length].
  destruct (delta_pos (r - delta_ticks e) l) as [k r']. cbn. do 2 f_equal. lia.
Qed.

Lemma move_slot_right l1 x y l2 :
  move_slot (l1 ++ x :: y :: l2) (Z.of_nat (length l1) + 1) (Z.of_nat (length l1)) =
    Done (l1 ++ None :: x :: l2).
Proof.
  unfold move_slot. rewrite slot_get_mid by done. cbn [mbind outcome_bind].
  rewrite slot_set_mid by done. cbn [mbind outcome_bind].
  replace (l1 ++ None :: y :: l2) with ((l1 ++ [None]) ++ y :: l2) by (by rewrite <- app_assoc).
  rewrite slot_set_mid by (rewrite length_app; cbn; lia). by rewrite <- app_assoc.
Qed.

Lemma move_slot_left l1 x y l2 :
  move_slot (l1 ++ x :: y :: l2) (Z.of_nat (length l1)) (Z.of_nat (length l1) + 1) =
    Done (l1 ++ y :: None :: l2).
Proof.
  unfold move_slot.
  replace (l1 ++ x :: y :: l2) with ((l1 ++ [x]) ++ y :: l2) by (by rewrite <- app_assoc).
  rewrite slot_get_mid by (rewrite length_app; cbn; lia). cbn [mbind outcome_bind].
  rewrite slot_set_mid by (rewrite length_app; cbn; lia). cbn [mbind outcome_bind].
  rewrite <- app_assoc. by apply slot_set_mid.
Qed.

Lemma shift_right_ok l1 l2 post i :
  i = Z.of_nat (length l1 + length l2) →
  shift_right (length l2) (l1 ++ l2 ++ None :: post) i = Done (l1 ++ None :: l2 ++ post).
Proof.
  revert post i. induction l2 as [|x l2 IH] using rev_ind; intros post i ->; [done|].
  rewrite length_app. cbn [length]. rewrite Nat.add_1_r. cbn [shift_right].
  replace (l1 ++ (l2 ++ [x]) ++ None :: post) with ((l1 ++ l2) ++ x :: None :: post)
    by (by rewrite <- !app_assoc).
  replace (Z.of_nat (length l1 + S (length l2))) with (Z.of_nat (length (l1 ++ l2)) + 1)
    by (rewrite length_app; lia).
  replace (Z.of_nat (length (l1 ++ l2)) + 1 - 1) with (Z.of_nat (length (l1 ++ l2))) by lia.
  rewrite move_slot_right. cbn [mbind outcome_bind]. rewrite <- app_assoc.
  rewrite IH by (rewrite length_app; lia). by rewrite <- app_assoc.
Qed.

Lemma shift_left_ok l1 l2 post i :
  i = Z.of_nat (length l1) →
  shift_left (length l2) (l1 ++ None :: l2 ++ post) i = Done (l1 ++ l2 ++ None :: post).
Proof.
  revert l1 i. induction l2 as [|x l2 IH]; intros l1 i ->; [done|]. cbn [length shift_left app].
  rewrite move_slot_left. cbn [mbind outcome_bind].
  replace (l1 ++ x :: None :: l2 ++ post) with ((l1 ++ [x]) ++ None :: l2 ++ post)
    by (by rewrite <- app_assoc).
  rewrite IH by (rewrite length_app; cbn; lia). by rewrite <- app_assoc.
Qed.

Lemma shift_left_head l2 post :
  shift_left (length l2) (None :: l2 ++ post) 0 = Done (l2 ++ None :: post).
Proof. by apply (shift_left_ok []). Qed.

Definition array_of (l : list SleepEntry) : list (option SleepEntry) :=
  (Some <$> l) ++ replicate (256 - length l) None.

Definition queue_of (l : list SleepEntry) : SleepQueue :=
  mk_SleepQueue (array_of l) (Z.of_nat (length l)).

Lemma array_of_next l :
  (length l < 256)%nat → array_of l = (Some <$> l) ++ None :: replicate (255 - length l) None.
Proof.
  intros. unfold array_of. by replace (256 - length l)%nat with (S (255 - length l)) by lia.
Qed.

Lemma array_of_split l1 l2 :
  (length (l1 ++ l2) ≤ 256)%nat →
  (Some <$> l1) ++ (Some <$> l2) ++ replicate (256 - length (l1 ++ l2)) None = array_of (l1 ++ l2).
Proof. intros. unfold array_of. by rewrite fmap_app, <- app_assoc. Qed.

(** The array operation is [delta_insert]. *)
Lemma insert_delta l i ticks :
  (length l < 256)%nat → deltas_ok l → 0 < ticks < W64 →
  SleepQueue_insert (queue_of l) i ticks = Done (queue_of (delta_insert i ticks l)).
Proof.
  intros Hl Hd Ht. unfold SleepQueue_insert. cbn [queue_of sq_len entries].
  rewrite (proj2 (Z.eqb_neq ticks 0)) by lia.
  rewrite (proj2 (Z.eqb_neq (Z.of_nat (length l)) MAX_SLEEP_ENTRIES)) by (unfold MAX_SLEEP_ENTRIES; lia).
  rewrite Nat2Z.id.
  assert (find_insert_pos (length l) (array_of l) 0 ticks =
    Done (Z.of_nat (delta_pos ticks l).1, (delta_pos ticks l).2)) as ->
    by (apply (find_insert_pos_ok []); [lia|done]).
  cbn [mbind outcome_bind].
  pose proof (delta_pos_split i ticks l) as Hsplit.
  destruct (delta_pos_bounds ticks l) as (Hk & Hr & Hnext); [lia|done|].
  destruct (delta_pos ticks l) as [k r]. cbn [fst snd] in *.
  replace (Z.to_nat (Z.of_nat (length l) - Z.of_nat k)) with (length (Some <$> drop k l))
    by (rewrite length_fmap, length_drop; lia).
  rewrite array_of_next by done.
  replace (Some <$> l) with ((Some <$> take k l) ++ (Some <$> drop k l))
    by (rewrite <- fmap_app; by rewrite take_drop).
  rewrite <- app_assoc, shift_right_ok
    by (rewrite !length_fmap, length_take, length_drop; lia).
  cbn [mbind outcome_bind].
  rewrite slot_set_mid by (rewrite length_fmap, length_take; lia). cbn [mbind outcome_bind].
  rewrite u64_small by (unfold W64; lia).
  unfold queue_of, array_of. rewrite delta_insert_length.
  replace (Z.of_nat (S (length l))) with (Z.of_nat (length l) + 1) by lia.
  replace (256 - S (length l))%nat with (255 - length l)%nat by lia.
  destruct (drop k l) as [|e l2] eqn:Hdrop; cbn [adjust_head] in Hsplit.
  - apply (f_equal length) in Hdrop. rewrite length_drop in Hdrop. cbn in Hdrop.
    rewrite (proj2 (Z.ltb_ge _ _)) by lia. rewrite Hsplit, fmap_app. cbn. by rewrite <- app_assoc.
  - assert (k < length l)%nat.
    { apply (f_equal length) in Hdrop. rewrite length_drop in Hdrop. cbn in Hdrop. lia. }
    rewrite (proj2 (Z.ltb_lt _ _)) by lia.
    assert (He : in_u64 (delta_ticks e)).
    { unfold deltas_ok in Hd. rewrite <- (take_drop k l), Hdrop in Hd.
      apply Forall_app in Hd as [_ Hd]. by apply Forall_cons in Hd as [? _]. }
    unfold in_u64 in He. cbn [fmap list_fmap app].
    replace (Z.of_nat k + 1) with (Z.of_nat (length ((Some <$> take k l) ++ [Some (mk_SleepEntry r i)])))
      by (rewrite length_app, length_fmap, length_take; cbn; lia).
    rewrite (cons_middle (Some (mk_SleepEntry r i))), app_assoc.
    rewrite slot_get_mid by done. cbn [mbind outcome_bind].
    rewrite slot_set_mid by done. cbn [mbind outcome_bind].
    rewrite (u64_small (delta_ticks e - r)) by lia. rewrite Hsplit, fmap_app. cbn.
    by rewrite <- !app_assoc.
Qed.

Lemma add_timer_positive t i s :
  0 < t → Forall (λ x, 0 < x.1) s → Forall (λ x : timer, 0 < x.1) (add_timer t i s).
Proof.
  intros Ht Hs. induction Hs as [|[u j] s Hu Hs IH]; [by apply Forall_singleton|].
  cbn. destruct (t <=? u); apply Forall_cons; split; try done. by apply Forall_cons.
Qed.

(** A queue that stands for a list of timers. *)
Lemma sleep_repr_queue q s :
  sleep_repr q s ↔ ∃ l, q = queue_of l ∧ (length l ≤ 256)%nat ∧ deltas_ok l ∧
    timers 0 l = s ∧ Forall (λ x, 0 < x.1) s.
Proof.
  split.
  - intros [(l & He & Hl & Hlen & Hd & Ht) Hp]. exists l. destruct q as [es n]. cbn in *.
    unfold queue_of, array_of. by subst.
  - intros (l & -> & Hl & Hd & Ht & Hp). split; [|done]. by exists l.
Qed.

Lemma insert_refines q s i ticks :
  sleep_repr q s → 0 ≤ ticks < W64 →
  ∃ q', SleepQueue_insert q i ticks = Done q' ∧ sleep_repr q' (spec_insert i ticks s).
Proof.
  intros Hr Ht. pose proof Hr as Hr0. apply sleep_repr_queue in Hr as (l & -> & Hl & Hd & Hs & Hp).
  assert (Hlen : length s = length l) by (rewrite <- Hs; apply timers_length).
  unfold spec_insert. destruct (Z.eqb_spec ticks 0) as [->|Hne].
  { by exists (queue_of l). }
  cbn [orb]. destruct (Nat.eqb_spec (length s) 256).
  { exists (queue_of l). split; [|done]. unfold SleepQueue_insert. cbn [queue_of sq_len].
    rewrite (proj2 (Z.eqb_neq ticks 0)) by lia.
    by rewrite (proj2 (Z.eqb_eq _ MAX_SLEEP_ENTRIES)) by (unfold MAX_SLEEP_ENTRIES; lia). }
  eexists. split; [apply insert_delta; (lia || done)|].
  apply sleep_repr_queue. eexists. split; [done|]. split; [rewrite delta_insert_length; lia|].
  split; [by apply delta_insert_ok|]. split.
  - by rewrite timers_delta_insert, Hs by (done || lia).
  - apply add_timer_positive; [lia|done].
Qed.

(** ** Ticks *)

(** [wake] of every task of a list, in order. *)
Fixpoint wake_all {K} (wake : TaskId → K → outcome K) (ids : list TaskId) (k : K) : outcome K :=
  match ids with
  | [] => Done k
  | i :: ids => k ← wake i k; wake_all wake ids k
  end.

(** The expired prefix of a delta queue. *)
Fixpoint due (l : list SleepEntry) : list TaskId :=
  match l with
  | [] => []
  | e :: l => if delta_ticks e =? 0 then sleep_task_id e :: due l else []
  end.
Fixpoint not_due (l : list SleepEntry) : list SleepEntry :=
  match l with
  | [] => []
  | e :: l' => if delta_ticks e =? 0 then not_due l' else l
  end.

Lemma due_length l : (length (due l) + length (not_due l) = length l)%nat.
Proof. induction l as [|e l IH]; [done|]. cbn. destruct (delta_ticks e =? 0); cbn; lia. Qed.

Lemma array_of_cons e l :
  array_of (e :: l) = Some e :: (Some <$> l) ++ replicate (256 - S (length l)) None.
Proof. done. Qed.

Lemma tick_loop_ok {K} (wake : TaskId → K → outcome K) fuel l k w :
  (length l ≤ 256)%nat → (length l < fuel)%nat → 0 ≤ w → w + Z.of_nat (length l) < W64 →
  tick_loop wake fuel (queue_of l) k w =
    (k' ← wake_all wake (due l) k;
     Done (w + Z.of_nat (length (due l)), queue_of (not_due l), k')).
Proof.
  revert fuel k w. induction l as [|e l IH]; intros fuel k w Hl Hf Hw Hww;
    (destruct fuel as [|fuel]; [lia|]); cbn [tick_loop].
  { cbn. do 3 f_equal. lia. }
  cbn [queue_of sq_len entries length due not_due] in *.
  rewrite (proj2 (Z.ltb_lt 0 _)) by lia.
  rewrite array_of_cons, slot_get_head. cbn [mbind outcome_bind].
  destruct (delta_ticks e =? 0); cbn [negb].
  2: { cbn [wake_all mbind outcome_bind length]. fold (array_of (e :: l)). unfold queue_of. cbn [length]. rewrite Z.add_0_r, array_of_cons. done. }
  cbn [expect mbind outcome_bind wake_all]. rewrite slot_set_head.
  cbn [mbind outcome_bind].
  replace (Z.to_nat (Z.of_nat (S (length l)) - 1)) with (length (Some <$> l))
    by (rewrite length_fmap; lia).
  rewrite shift_left_head. cbn [mbind outcome_bind].
  replace (Z.of_nat (S (length l)) ⊟ 1) with (Z.of_nat (length l)) by (rewrite u64_small; unfold W64; lia).
  replace (None :: replicate (256 - S (length l)) None)
    with (replicate (256 - length l) (@None SleepEntry))
    by (replace (256 - length l)%nat with (S (256 - S (length l))) by lia; done).
  destruct (wake (sleep_task_id e) k) as [k1| |]; [|done|done]. cbn [mbind outcome_bind].
  rewrite u64_small by lia. fold (array_of l). fold (queue_of l).
  rewrite IH by lia. destruct (wake_all wake (due l) k1); [|done|done].
  cbn [mbind outcome_bind length]. rewrite Nat2Z.inj_succ.
  by replace (w + Z.succ (Z.of_nat (length (due l)))) with (w + 1 + Z.of_nat (length (due l))) by lia.
Qed.

Definition decrement (l : list SleepEntry) : list SleepEntry :=
  match l with
  | [] => []
  | e :: l => mk_SleepEntry (delta_ticks e - 1) (sleep_task_id e) :: l
  end.

Lemma timers_shift t d l : timers (t - d) l = (λ x, (x.1 - d, x.2)) <$> timers t l.
Proof.
  revert t. induction l as [|e l IH]; intros t; [done|]. cbn.
  replace (t - d + delta_ticks e) with (t + delta_ticks e - d) by lia. by rewrite IH.
Qed.

Lemma timers_above t l : deltas_ok l → Forall (λ x, t ≤ x.1) (timers t l).
Proof.
  revert t. induction l as [|e l IH]; intros t Hd; [done|]. apply Forall_cons in Hd as [He Hd].
  unfold in_u64 in He. cbn. apply Forall_cons. split; [cbn; lia|].
  eapply Forall_impl; [by apply IH|]. cbn. intros; lia.
Qed.

Lemma due_timers l :
  deltas_ok l →
  due l = (base.filter (λ x, x.1 ≤ 0) (timers 0 l)).*2 ∧
  timers 0 (not_due l) = base.filter (λ x, 0 < x.1) (timers 0 l).
Proof.
  induction l as [|e l IH]; intros Hd; [done|]. pose proof Hd as [He Hd']%Forall_cons.
  unfold in_u64 in He. cbn [due not_due timers]. rewrite Z.add_0_l.
  destruct (Z.eqb_spec (delta_ticks e) 0) as [H0|Hne].
  - rewrite H0, !filter_cons. cbn. destruct (IH Hd') as [-> ->]. done.
  - pose proof (timers_above (delta_ticks e) l Hd') as Hab. rewrite !filter_cons.
    rewrite decide_False by (cbn; lia). rewrite decide_True by (cbn; lia). rewrite filter_none, filter_all.
    + cbn. by rewrite Z.add_0_l.
    + eapply Forall_impl; [exact Hab|]. cbn. intros; lia.
    + eapply Forall_impl; [exact Hab|]. cbn. intros; lia.
Qed.

Lemma expire_shift (s : list timer) :
  (base.filter (λ x, x.1 ≤ 0) ((λ x, (x.1 - 1, x.2)) <$> s)).*2 = expiring s ∧
  base.filter (λ x, 0 < x.1) ((λ x, (x.1 - 1, x.2)) <$> s) = remaining_timers s.
Proof.
  unfold expiring, remaining_timers. induction s as [|[t i] s [IH1 IH2]]; [done|].
  rewrite !fmap_cons, !filter_cons. cbn. repeat case_decide; try lia; cbn; rewrite ?IH1, ?IH2; done.
Qed.

Lemma not_due_ok l : deltas_ok l → deltas_ok (not_due l).
Proof.
  induction 1 as [|x l Hx Hl IH]; [apply Forall_nil; exact I|]. cbn.
  destruct (delta_ticks x =? 0); [done|]. by apply Forall_cons.
Qed.

Lemma tick_refines {K} (wake : TaskId → K → outcome K) q s k :
  sleep_repr q s →
  ∃ q', SleepQueue_tick wake q k =
      (k' ← wake_all wake (expiring s) k; Done (Z.of_nat (length (expiring s)), q', k')) ∧
    sleep_repr q' (remaining_timers s).
Proof.
  intros Hr. apply sleep_repr_queue in Hr as (l & -> & Hl & Hd & Hs & Hp).
  destruct l as [|e l].
  { cbn in Hs. subst s. exists (queue_of []). split; [done|].
    apply sleep_repr_queue. by exists []. }
  cbn [timers] in Hs. rewrite Z.add_0_l in Hs.
  assert (He : 1 ≤ delta_ticks e < W64).
  { rewrite <- Hs in Hp. apply Forall_cons in Hp as [Hp _]. cbn in Hp.
    apply Forall_cons in Hd as [Hd _]. unfold in_u64 in Hd. lia. }
  assert (Hd1 : deltas_ok (decrement (e :: l))).
  { apply Forall_cons in Hd as [_ Hd]. apply Forall_cons. split; [unfold in_u64; cbn; lia|done]. }
  assert (Ht1 : timers 0 (decrement (e :: l)) = (λ x, (x.1 - 1, x.2)) <$> s).
  { rewrite <- Hs. cbn [decrement timers delta_ticks sleep_task_id fmap list_fmap fst snd].
    by rewrite Z.add_0_l, timers_shift. }
  destruct (due_timers _ Hd1) as [Hdue Hnd]. rewrite Ht1 in Hdue, Hnd.
  destruct (expire_shift s) as [Hex Hrem]. rewrite Hex in Hdue. rewrite Hrem in Hnd.
  exists (queue_of (not_due (decrement (e :: l)))). split.
  - unfold SleepQueue_tick. cbn [queue_of sq_len entries].
    rewrite (proj2 (Z.eqb_neq _ 0)) by (cbn [length]; lia).
    rewrite array_of_cons, slot_get_head. cbn [mbind outcome_bind].
    rewrite (proj2 (Z.ltb_lt 0 _)) by lia. rewrite slot_set_head. cbn [mbind outcome_bind].
    rewrite u64_small by lia. rewrite Nat2Z.id.
    change (mk_SleepQueue _ _) with (queue_of (decrement (e :: l))).
    rewrite tick_loop_ok by (cbn [decrement length] in *; unfold W64; lia). rewrite Hdue, Z.add_0_l. done.
  - apply sleep_repr_queue. eexists. split; [done|].
    pose proof (due_length (decrement (e :: l))) as Hlen. cbn [decrement length] in *.
    split; [lia|]. split.
    + by apply not_due_ok.
    + split; [done|]. unfold remaining_timers. apply Forall_fmap.
      apply Forall_forall. intros x Hx. apply list_elem_of_filter in Hx as [Hx _]. cbn. lia.
Qed.

Lemma sleep_new_repr : sleep_repr SleepQueue_new [].
Proof.
  apply sleep_repr_queue. exists []. repeat split; try done; try apply Forall_nil; try done. cbn; lia.
Qed.

(** ** Histories *)

Inductive sleep_op := Sleep (i : TaskId) (ticks : Z) | Tick.

Definition op_ok (o : sleep_op) : Prop :=
  match o with Sleep _ n => 0 ≤ n < W64 | Tick => True end.

(** Runs a history, recording the tasks woken by each tick. *)
Fixpoint sleep_run (q : SleepQueue) (ops : list sleep_op) : outcome (list (list TaskId)) :=
  match ops with
  | [] => Done []
  | Sleep i n :: ops => q ← SleepQueue_insert q i n; sleep_run q ops
  | Tick :: ops =>
      '(_, q, woken) ← SleepQueue_tick (λ i k, Done (k ++ [i])) q [];
      rest ← sleep_run q ops;
      Done (woken :: rest)
  end.

Fixpoint spec_state (s : list timer) (ops : list sleep_op) : list timer :=
  match ops with
  | [] => s
  | Sleep i n :: ops => spec_state (spec_insert i n s) ops
  | Tick :: ops => spec_state (remaining_timers s) ops
  end.

Fixpoint spec_run (s : list timer) (ops : list sleep_op) : list (list TaskId) :=
  match ops with
  | [] => []
  | Sleep i n :: ops => spec_run (spec_insert i n s) ops
  | Tick :: ops => expiring s :: spec_run (remaining_timers s) ops
  end.

Lemma wake_all_record ids k :
  wake_all (λ i k, Done (k ++ [i])) ids k = Done (k ++ ids).
Proof.
  revert k. induction ids as [|i ids IH]; intros k; cbn; [by rewrite app_nil_r|].
  rewrite IH. by rewrite <- app_assoc.
Qed.

Lemma sleep_run_ok q s ops :
  sleep_repr q s → Forall op_ok ops → sleep_run q ops = Done (spec_run s ops).
Proof.
  revert q s. induction ops as [|[i n|] ops IH]; intros q s Hr Hops; [done| |];
    apply Forall_cons in Hops as [Ho Hops]; cbn [sleep_run spec_run].
  - destruct (insert_refines q s i n Hr Ho) as (q' & -> & Hr'). by apply IH.
  - destruct (tick_refines (λ i k, Done (k ++ [i])) q s [] Hr) as (q' & -> & Hr').
    rewrite wake_all_record. cbn [mbind outcome_bind app]. by rewrite (IH q' _ Hr' Hops).
Qed.

(** C14. The delta queue implements independent countdown timers.  For every
    history of sleeps and ticks from the empty queue, no array access panics,
    and each tick wakes exactly the tasks whose timers reach zero on it, as in
    a list of absolute timers in which a tick decrements every timer and a
    sleep adds one; a sleep of zero ticks or into a full queue does nothing. *)
Theorem sleep_queue_refines_timers (ops : list sleep_op) :
  Forall op_ok ops → sleep_run SleepQueue_new ops = Done (spec_run [] ops).
Proof. apply sleep_run_ok, sleep_new_repr. Qed.

Lemma sleep_queue_refines_timers_witness :
  sleep_run SleepQueue_new
    [Sleep (mk_TaskId 1 0) 2; Sleep (mk_TaskId 2 0) 1; Sleep (mk_TaskId 3 0) 2; Tick; Tick] =
  Done [[mk_TaskId 2 0]; [mk_TaskId 3 0; mk_TaskId 1 0]].
Proof.
  apply (sleep_queue_refines_timers
    [Sleep (mk_TaskId 1 0) 2; Sleep (mk_TaskId 2 0) 1; Sleep (mk_TaskId 3 0) 2; Tick; Tick]).
  repeat constructor; cbn; unfold W64; lia.
Defined.

(** ** A sleeper is woken on time *)

Definition is_tick (o : sleep_op) : bool := match o with Tick => true | _ => false end.
Definition ticks_in (ops : list sleep_op) : nat := length (List.filter is_tick ops).

Definition sleeps (i : TaskId) (o : sleep_op) : Prop :=
  match o with Sleep j _ => j = i | Tick => False end.

(** [i] sleeps, has exactly one timer, and it expires in [t] ticks. *)
Definition waits (i : TaskId) (t : Z) (s : list timer) : Prop :=
  ∃ s1 s2, s = s1 ++ (t, i) :: s2 ∧ i ∉ s1.*2 ∧ i ∉ s2.*2.

Lemma add_timer_split t i s : ∃ s1 s2, s = s1 ++ s2 ∧ add_timer t i s = s1 ++ (t, i) :: s2.
Proof.
  induction s as [|[u j] s (s1 & s2 & -> & IH)]; [by exists [], []|]. cbn.
  destruct (t <=? u).
  - by exists [], ((u, j) :: s1 ++ s2).
  - exists ((u, j) :: s1), s2. by rewrite IH.
Qed.

Lemma waits_insert i t j n s : j ≠ i → waits i t s → waits i t (spec_insert j n s).
Proof.
  intros Hne Hw. unfold spec_insert. destruct (_ || _); [done|].
  destruct Hw as (s1 & s2 & -> & H1 & H2).
  assert (Hs : ∃ s1' s2', add_timer n j (s1 ++ (t, i) :: s2) = s1' ++ (t, i) :: s2' ∧
    i ∉ s1'.*2 ∧ i ∉ s2'.*2); [|done].
  induction s1 as [|[u k] s1 IH]; cbn.
  - destruct (n <=? t).
    + exists [(n, j)], s2. set_solver.
    + destruct (add_timer_split n j s2) as (a & b & -> & ->).
      exists [], (a ++ (n, j) :: b). rewrite fmap_app in *. set_solver.
  - destruct (n <=? u).
    + exists ((n, j) :: (u, k) :: s1), s2. set_solver.
    + destruct IH as (s1' & s2' & -> & ? & ?); [set_solver|].
      exists ((u, k) :: s1'), s2'. set_solver.
Qed.

Lemma waits_tick i t s :
  1 < t → waits i t s → waits i (t - 1) (remaining_timers s) ∧ i ∉ expiring s.
Proof.
  intros Ht (s1 & s2 & -> & H1 & H2). split.
  - exists (remaining_timers s1), (remaining_timers s2). split; [|split].
    + unfold remaining_timers. rewrite filter_app, filter_cons_True by (cbn; lia).
      by rewrite fmap_app.
    + unfold remaining_timers. rewrite <- list_fmap_compose. intros Hin. apply H1.
      apply list_elem_of_fmap in Hin as ([u j] & -> & Hin).
      apply list_elem_of_fmap. exists (u, j). split; [done|].
      by apply list_elem_of_filter in Hin as [_ ?].
    + unfold remaining_timers. rewrite <- list_fmap_compose. intros Hin. apply H2.
      apply list_elem_of_fmap in Hin as ([u j] & -> & Hin).
      apply list_elem_of_fmap. exists (u, j). split; [done|].
      by apply list_elem_of_filter in Hin as [_ ?].
  - unfold expiring. intros Hin. apply list_elem_of_fmap in Hin as ([u j] & Hj & Hin).
    cbn in Hj. subst j. apply list_elem_of_filter in Hin as [Hle Hin]. cbn in Hle.
    apply elem_of_app in Hin as [Hin|[Heq|Hin]%elem_of_cons].
    + apply H1. apply list_elem_of_fmap. by exists (u, i).
    + injection Heq as ->. lia.
    + apply H2. apply list_elem_of_fmap. by exists (u, i).
Qed.

Lemma waits_expire i s : waits i 1 s → i ∈ expiring s.
Proof.
  intros (s1 & s2 & -> & _). unfold expiring. apply list_elem_of_fmap. exists (1, i). split; [done|].
  apply list_elem_of_filter. split; [done|]. apply elem_of_app. right. left.
Qed.

Lemma spec_run_app s ops1 ops2 :
  spec_run s (ops1 ++ ops2) = spec_run s ops1 ++ spec_run (spec_state s ops1) ops2.
Proof.
  revert s. induction ops1 as [|[i n|] ops1 IH]; intros s; cbn; [done|by rewrite IH|].
  by rewrite IH.
Qed.

Lemma waits_run i t s mid :
  waits i t s → Forall (λ o, ¬ sleeps i o) mid → Z.of_nat (ticks_in mid) < t →
  waits i (t - Z.of_nat (ticks_in mid)) (spec_state s mid) ∧ Forall (λ w, i ∉ w) (spec_run s mid).
Proof.
  unfold ticks_in. revert t s. induction mid as [|[j n|] mid IH]; intros t s Hw Hno Hlt.
  - cbn. rewrite Z.sub_0_r. by split.
  - apply Forall_cons in Hno as [Hj Hno]. cbn [List.filter is_tick] in *. cbn [spec_state spec_run].
    apply IH; [|done|done]. apply waits_insert; [exact Hj|done].
  - apply Forall_cons in Hno as [_ Hno]. cbn [List.filter is_tick length] in *.
    cbn [spec_state spec_run].
    destruct (waits_tick i t s) as [Hw' Hni]; [lia|done|].
    destruct (IH (t - 1) (remaining_timers s)) as [H1 H2]; [done|done|lia|].
    split; [|by apply Forall_cons]. by replace (t - Z.of_nat (S (length (List.filter is_tick mid))))
      with (t - 1 - Z.of_nat (length (List.filter is_tick mid))) by lia.
Qed.

(** A task put to sleep for [n] ticks is woken by the [n]-th tick that
    follows and by none before it, whatever other tasks go to sleep or wake in
    between and whatever the history before, provided the queue has room and
    the task is not already sleeping. *)
Theorem sleep_wakes_on_time (pre mid : list sleep_op) (i : TaskId) (n : Z) :
  Forall op_ok pre → Forall op_ok mid → 0 < n < W64 →
  (length (spec_state [] pre) < 256)%nat → i ∉ (spec_state [] pre).*2 →
  Forall (λ o, ¬ sleeps i o) mid → Z.of_nat (ticks_in mid) = n - 1 →
  ∃ before during at_last,
    sleep_run SleepQueue_new (pre ++ Sleep i n :: mid ++ [Tick]) =
      Done (before ++ during ++ [at_last]) ∧
    length before = ticks_in pre ∧ Forall (λ w, i ∉ w) during ∧ i ∈ at_last.
Proof.
  intros Hpre Hmid Hn Hroom Hfresh Hno Hticks.
  assert (Hw : waits i n (spec_insert i n (spec_state [] pre))).
  { unfold spec_insert. rewrite (proj2 (Z.eqb_neq n 0)) by lia.
    rewrite (proj2 (Nat.eqb_neq _ 256)) by lia. cbn [orb].
    destruct (add_timer_split n i (spec_state [] pre)) as (s1 & s2 & Hs & Ha).
    exists s1, s2. rewrite Hs, fmap_app in Hfresh. set_solver. }
  destruct (waits_run i n _ mid Hw Hno ltac:(lia)) as [Hw' Hduring].
  rewrite Hticks in Hw'. replace (n - (n - 1)) with 1 in Hw' by lia.
  eexists (spec_run [] pre), _, _. split; [|split; [|split; [exact Hduring|exact (waits_expire _ _ Hw')]]].
  - rewrite (sleep_run_ok _ [] _ sleep_new_repr).
    + rewrite spec_run_app. cbn [spec_run]. by rewrite spec_run_app.
    + apply Forall_app. split; [done|]. apply Forall_cons. split; [cbn; lia|].
      apply Forall_app. split; [done|]. by apply Forall_singleton.
  - clear. unfold ticks_in. generalize (@nil timer). induction pre as [|[j k|] pre IH]; intros s; cbn;
      [done|apply IH|]. by rewrite IH.
Qed.

Lemma sleep_wakes_on_time_witness :
  ∃ before during at_last,
    sleep_run SleepQueue_new
      ([Sleep (mk_TaskId 1 0) 5; Tick] ++
       Sleep (mk_TaskId 2 0) 3 :: [Tick; Sleep (mk_TaskId 3 0) 1; Tick] ++ [Tick]) =
      Done (before ++ during ++ [at_last]) ∧
    length before = 1%nat ∧ Forall (λ w, mk_TaskId 2 0 ∉ w) during ∧ mk_TaskId 2 0 ∈ at_last.
Proof.
  apply (sleep_wakes_on_time [Sleep (mk_TaskId 1 0) 5; Tick]
    [Tick; Sleep (mk_TaskId 3 0) 1; Tick] (mk_TaskId 2 0) 3).
  - repeat constructor; cbn; unfold W64; lia.
  - repeat constructor; cbn; unfold W64; lia.
  - unfold W64. lia.
  - apply (bool_decide_unpack _). vm_compute. exact I.
  - apply (bool_decide_unpack _). vm_compute. exact I.
  - repeat constructor; cbn; congruence.
  - done.
Defined.
