(* ===== verification/Scheduler.v ===== *)
(** * Scheduler.v: the task table, the scheduler and the death pipeline

    [src/crap_os/src/task_scheduler/scheduler.rs] and [reaper.rs], the
    [Thread] object of [process_manager/thread.rs] the scheduler updates, the
    exit path of [task.rs], the system task queue's drain and the timer and
    fault handlers of [processor_control/idt.rs] that drive them.

    The kernel runs on the boot processor only, so [CpuId::current()] and
    [CpuId::from_apic_id(0)] name the same per-CPU slot, an [option] that
    [init_idle] fills.  A [Weak] reference to a thread is a key of the thread
    heap, and [upgrade().unwrap()] panics when the thread is gone.  The locks
    are held around straight-line code with interrupts off and are not part
    of the state.  [k_cpu] and [k_mem] are the registers and the memory at the
    moment [switch_to] is entered, its return address being on top of the
    stack; serial output has no effect on the state. *)

From S2P Require Import Prelude Bytes Machine Task Queues SleepQueue.

Local Open Scope Z_scope.

(** ** Threads *)

Inductive ThreadState := Active | Waiting | ThreadDying | ThreadDead.

#[global] Instance ThreadState_eq_dec : EqDecision ThreadState.
Proof. solve_decision. Defined.

Record Thread := mk_Thread {
  th_id : Z;
  th_task_id : option TaskId;
  th_name : string;
  th_state : ThreadState;
  th_process : Z
}.

Definition set_th_task_id (v : option TaskId) (t : Thread) : Thread :=
  mk_Thread (th_id t) v (th_name t) (th_state t) (th_process t).
Definition set_th_state (v : ThreadState) (t : Thread) : Thread :=
  mk_Thread (th_id t) (th_task_id t) (th_name t) v (th_process t).

(** ** State *)

Definition MAX_TASKS : nat := 256.

Record TaskSlot := mk_TaskSlot { slot_task : option Task; slot_gen : Z }.

Definition TaskSlot_new : TaskSlot := mk_TaskSlot None 0.
Definition GlobalScheduler_new : list TaskSlot := replicate MAX_TASKS TaskSlot_new.

(** The slot of this CPU in [CPU_SCHEDULER], [CPU_TICKS_REMAINING] and
    [CPU_FORCE_RESCHEDULE]. *)
Record CpuSlot := mk_CpuSlot {
  c_queue : PerCpuQueue;
  c_current : TaskId;
  c_ticks : Z;
  c_force : bool
}.

Definition set_c_queue (v : PerCpuQueue) (c : CpuSlot) : CpuSlot :=
  mk_CpuSlot v (c_current c) (c_ticks c) (c_force c).
Definition set_c_current (v : TaskId) (c : CpuSlot) : CpuSlot :=
  mk_CpuSlot (c_queue c) v (c_ticks c) (c_force c).
Definition set_c_ticks (v : Z) (c : CpuSlot) : CpuSlot :=
  mk_CpuSlot (c_queue c) (c_current c) v (c_force c).
Definition set_c_force (v : bool) (c : CpuSlot) : CpuSlot :=
  mk_CpuSlot (c_queue c) (c_current c) (c_ticks c) v.

(** [PerCpuScheduler::new()] with the quantum and flag [init_idle] stores. *)
Definition PerCpuScheduler_new : CpuSlot :=
  mk_CpuSlot PerCpuQueue_new TaskId_IDLE TASK_QUANTUM_TICKS false.

Record Kernel := mk_Kernel {
  k_tasks : list TaskSlot;
  k_cpu0 : option CpuSlot;
  k_init_complete : bool;
  k_reaper : ReaperQueue;
  k_tombstone : TombstoneQueue;
  k_sleep : SleepQueue;
  k_system : SystemTaskQueue;
  k_threads : gmap Z Thread;
  k_timer_ticks : Z;
  k_tss_rsp0 : Z;
  k_cpu : Cpu;
  k_mem : mem;
  k_serial : list Z
}.

Definition set_k_tasks (v : list TaskSlot) (k : Kernel) : Kernel :=
  mk_Kernel v (k_cpu0 k) (k_init_complete k) (k_reaper k) (k_tombstone k) (k_sleep k) (k_system k) (k_threads k) (k_timer_ticks k) (k_tss_rsp0 k) (k_cpu k) (k_mem k) (k_serial k).
Definition set_k_cpu0 (v : option CpuSlot) (k : Kernel) : Kernel :=
  mk_Kernel (k_tasks k) v (k_init_complete k) (k_reaper k) (k_tombstone k) (k_sleep k) (k_system k) (k_threads k) (k_timer_ticks k) (k_tss_rsp0 k) (k_cpu k) (k_mem k) (k_serial k).
Definition set_k_init_complete (v : bool) (k : Kernel) : Kernel :=
  mk_Kernel (k_tasks k) (k_cpu0 k) v (k_reaper k) (k_tombstone k) (k_sleep k) (k_system k) (k_threads k) (k_timer_ticks k) (k_tss_rsp0 k) (k_cpu k) (k_mem k) (k_serial k).
Definition set_k_reaper (v : ReaperQueue) (k : Kernel) : Kernel :=
  mk_Kernel (k_tasks k) (k_cpu0 k) (k_init_complete k) v (k_tombstone k) (k_sleep k) (k_system k) (k_threads k) (k_timer_ticks k) (k_tss_rsp0 k) (k_cpu k) (k_mem k) (k_serial k).
Definition set_k_tombstone (v : TombstoneQueue) (k : Kernel) : Kernel :=
  mk_Kernel (k_tasks k) (k_cpu0 k) (k_init_complete k) (k_reaper k) v (k_sleep k) (k_system k) (k_threads k) (k_timer_ticks k) (k_tss_rsp0 k) (k_cpu k) (k_mem k) (k_serial k).
Definition set_k_sleep (v : SleepQueue) (k : Kernel) : Kernel :=
  mk_Kernel (k_tasks k) (k_cpu0 k) (k_init_complete k) (k_reaper k) (k_tombstone k) v (k_system k) (k_threads k) (k_timer_ticks k) (k_tss_rsp0 k) (k_cpu k) (k_mem k) (k_serial k).
Definition set_k_system (v : SystemTaskQueue) (k : Kernel) : Kernel :=
  mk_Kernel (k_tasks k) (k_cpu0 k) (k_init_complete k) (k_reaper k) (k_tombstone k) (k_sleep k) v (k_threads k) (k_timer_ticks k) (k_tss_rsp0 k) (k_cpu k) (k_mem k) (k_serial k).
Definition set_k_threads (v : gmap Z Thread) (k : Kernel) : Kernel :=
  mk_Kernel (k_tasks k) (k_cpu0 k) (k_init_complete k) (k_reaper k) (k_tombstone k) (k_sleep k) (k_system k) v (k_timer_ticks k) (k_tss_rsp0 k) (k_cpu k) (k_mem k) (k_serial k).
Definition set_k_timer_ticks (v : Z) (k : Kernel) : Kernel :=
  mk_Kernel (k_tasks k) (k_cpu0 k) (k_init_complete k) (k_reaper k) (k_tombstone k) (k_sleep k) (k_system k) (k_threads k) v (k_tss_rsp0 k) (k_cpu k) (k_mem k) (k_serial k).
Definition set_k_tss_rsp0 (v : Z) (k : Kernel) : Kernel :=
  mk_Kernel (k_tasks k) (k_cpu0 k) (k_init_complete k) (k_reaper k) (k_tombstone k) (k_sleep k) (k_system k) (k_threads k) (k_timer_ticks k) v (k_cpu k) (k_mem k) (k_serial k).
Definition set_k_cpu (v : Cpu) (k : Kernel) : Kernel :=
  mk_Kernel (k_tasks k) (k_cpu0 k) (k_init_complete k) (k_reaper k) (k_tombstone k) (k_sleep k) (k_system k) (k_threads k) (k_timer_ticks k) (k_tss_rsp0 k) v (k_mem k) (k_serial k).
Definition set_k_mem (v : mem) (k : Kernel) : Kernel :=
  mk_Kernel (k_tasks k) (k_cpu0 k) (k_init_complete k) (k_reaper k) (k_tombstone k) (k_sleep k) (k_system k) (k_threads k) (k_timer_ticks k) (k_tss_rsp0 k) (k_cpu k) v (k_serial k).
Definition set_k_serial (v : list Z) (k : Kernel) : Kernel :=
  mk_Kernel (k_tasks k) (k_cpu0 k) (k_init_complete k) (k_reaper k) (k_tombstone k) (k_sleep k) (k_system k) (k_threads k) (k_timer_ticks k) (k_tss_rsp0 k) (k_cpu k) (k_mem k) v.

(** [hardware_manager::sprint], on the bytes sent to the serial line so far. *)
Definition NL : list Z := [10].
Definition ksprint (msg : list Z) (k : Kernel) : Kernel := set_k_serial (k_serial k ++ msg) k.

(** [CPU_SCHEDULER.get_mut(cpu)] and its like assert that the slot is
    initialized. *)
Definition cpu_slot (k : Kernel) : outcome CpuSlot :=
  expect "PerCpu slot accessed before init" (k_cpu0 k).

Definition put_slot (c : CpuSlot) (k : Kernel) : Kernel := set_k_cpu0 (Some c) k.

(** [thread.upgrade().unwrap().lock()] and an update of the thread. *)
Definition with_thread (w : Z) (f : Thread → Thread) (k : Kernel) : outcome Kernel :=
  th ← expect "called Option::unwrap() on a None value" (k_threads k !! w);
  Done (set_k_threads (<[w := f th]> (k_threads k)) k).

(** ** The task table *)

Definition insert_idle_task (idle : Task) (tasks : list TaskSlot) : outcome (list TaskSlot) :=
  slot_set tasks 0 (mk_TaskSlot (Some idle) 0).

(** The first free slot, counting from [i]. *)
Fixpoint first_free (i : Z) (tasks : list TaskSlot) : option (Z * Z) :=
  match tasks with
  | [] => None
  | s :: tasks =>
      match slot_task s with
      | None => Some (i, slot_gen s)
      | Some _ => first_free (i + 1) tasks
      end
  end.

Definition insert_task (task : Task) (tasks : list TaskSlot)
    : result TaskId SchedulerError * list TaskSlot :=
  match first_free 0 tasks with
  | Some (i, gen) =>
      let task_id := mk_TaskId i gen in
      (Ok task_id,
       <[Z.to_nat i := mk_TaskSlot (Some (set_state Ready (set_id task_id task))) gen]> tasks)
  | None => (Err TaskTableFull, tasks)
  end.

(** [tasks.get(index)] *)
Definition get_slot (tasks : list TaskSlot) (i : Z) : option TaskSlot :=
  if (0 <=? i) && (i <? Z.of_nat (length tasks)) then tasks !! Z.to_nat i else None.

Definition get_task (tasks : list TaskSlot) (task_id : TaskId) : option Task :=
  match get_slot tasks (slot_index task_id) with
  | Some s => if slot_gen s =? slot_generation task_id then slot_task s else None
  | None => None
  end.

(** A write through the reference [get_task_mut] returns. *)
Definition put_task (task_id : TaskId) (t : Task) (tasks : list TaskSlot) : list TaskSlot :=
  <[Z.to_nat (slot_index task_id) := mk_TaskSlot (Some t) (slot_generation task_id)]> tasks.

Definition update_task (task_id : TaskId) (t : Task) (k : Kernel) : Kernel :=
  set_k_tasks (put_task task_id t (k_tasks k)) k.

Definition remove_task (task_id : TaskId) (k : Kernel) : outcome Kernel :=
  match get_task (k_tasks k) task_id with
  | Some task =>
      k ← with_thread (t_thread task)
            (λ th, set_th_state ThreadDead (set_th_task_id None th)) k;
      let gen := u8 (slot_generation task_id + 1) in
      Done (set_k_tasks
        (<[Z.to_nat (slot_index task_id) := mk_TaskSlot None gen]> (k_tasks k)) k)
  | None => Done k
  end.

(** ** Initialization and insertion *)

Definition init_idle (stack thread : Z) (k : Kernel) : outcome Kernel :=
  match k_cpu0 k with
  | Some _ => Panic "PerCpu slot already initialized"
  | None =>
      tasks ← insert_idle_task (Task_new_idle stack thread) (k_tasks k);
      Done (put_slot (set_c_current TaskId_IDLE PerCpuScheduler_new) (set_k_tasks tasks k))
  end.

Definition insert_and_queue_task (task : Task) (k : Kernel)
    : outcome (result TaskId SchedulerError * Kernel) :=
  match insert_task task (k_tasks k) with
  | (Err e, _) => Done (Err e, k)
  | (Ok task_id, tasks) =>
      let k := set_k_tasks tasks k in
      c ← cpu_slot k;
      '(r, q) ← PerCpuQueue_push (c_queue c) task_id;
      match r with
      | Ok _ => Done (Ok task_id, put_slot (set_c_queue q c) k)
      | Err _ => Panic "[SCHEDULER] Task inserted into table but CPU Ready queue is full"
      end
  end.

(** ** The scheduling pass *)

(** The loop that picks the next task.  Every round pops an entry, so one
    round more than the queue's length is enough. *)
Fixpoint pick_next (fuel : nat) (k : Kernel) : outcome (TaskId * Kernel) :=
  match fuel with
  | O => OutOfFuel
  | S fuel =>
      c ← cpu_slot k;
      '(candidate, q) ← PerCpuQueue_pop (c_queue c);
      let k := put_slot (set_c_queue q c) k in
      match candidate with
      | None => Done (TaskId_IDLE, k)
      | Some id =>
          match get_task (k_tasks k) id with
          | Some task =>
              if decide (t_state task = Ready)
              then Done (id, update_task id (set_state Running task) k)
              else pick_next fuel k
          | None => pick_next fuel k
          end
      end
  end.

Definition pick_fuel (c : CpuSlot) : nat := S (Z.to_nat (q_len (c_queue c))).

(** The outgoing task goes back to the ready queue if it still runs; a full
    queue is only reported on the serial port. *)
Definition requeue_outgoing (outgoing : TaskId) (k : Kernel) : outcome Kernel :=
  match get_task (k_tasks k) outgoing with
  | Some t =>
      if decide (t_state t = Running) then
        let k := update_task outgoing (set_state Ready t) k in
        let queue_idle := negb (k_init_complete k) in
        if negb (bool_decide (outgoing = TaskId_IDLE)) || queue_idle then
          c ← cpu_slot k;
          '(_, q) ← PerCpuQueue_push (c_queue c) outgoing;
          Done (put_slot (set_c_queue q c) k)
        else Done k
      else Done k
  | None => Done k
  end.

(** From the update of [current] to the [ret] of [switch_to]; the boolean
    tells whether the switch took place. *)
Definition hand_over (outgoing_id next_id : TaskId) (k : Kernel) : outcome (bool * Kernel) :=
  c ← cpu_slot k;
  let k := put_slot (set_c_current next_id c) k in
  let old_rsp_ptr := get_task (k_tasks k) outgoing_id in
  next ← expect "called Option::unwrap() on a None value" (get_task (k_tasks k) next_id);
  let k := if t_is_user_task next then set_k_tss_rsp0 (t_kernel_stack_top next) k else k in
  let new_rsp := t_saved_rsp next in
  let new_cr3 := t_cr3 next in
  c ← cpu_slot k;
  let k := put_slot (set_c_ticks (t_ticks_remaining next) c) k in
  match old_rsp_ptr with
  | None => Done (false, k)
  | Some old =>
      if new_rsp =? 0 then Done (false, k)
      else
        let '(saved, (cpu, m)) := switch_to (k_cpu k) (k_mem k) new_rsp new_cr3 in
        Done (true, update_task outgoing_id (set_saved_rsp saved old)
                      (set_k_mem m (set_k_cpu cpu k)))
  end.

(** [schedule] up to the [ret] of [switch_to].  The interrupt flag is cleared
    on entry and only the code behind the switch, which runs when the outgoing
    task is resumed, restores it. *)
Definition schedule (k : Kernel) : outcome (bool * Kernel) :=
  let k := set_k_cpu (set_IF false (k_cpu k)) k in
  c ← cpu_slot k;
  '(next_id, k) ← pick_next (pick_fuel c) k;
  c ← cpu_slot k;
  let outgoing_id := c_current c in
  k ← requeue_outgoing outgoing_id k;
  hand_over outgoing_id next_id k.

(** ** Waking, blocking and sleeping *)

Definition wake (task_id : TaskId) (k : Kernel) : outcome (result unit SchedulerError * Kernel) :=
  match get_task (k_tasks k) task_id with
  | None => Done (Err UnknownTask, k)
  | Some task =>
      if decide (t_state task = Blocked) then
        let k := update_task task_id (set_state Ready task) k in
        k ← with_thread (t_thread task) (set_th_state Active) k;
        c ← cpu_slot k;
        '(r, q) ← PerCpuQueue_push (c_queue c) task_id;
        Done (r, put_slot (set_c_queue q c) k)
      else Done (Ok tt, k)
  end.

(** [let _ = scheduler::wake(id)] of the sleep queue. *)
Definition wake_discard (task_id : TaskId) (k : Kernel) : outcome Kernel :=
  '(_, k) ← wake task_id k; Done k.

Definition tick_sleep_queue (k : Kernel) : outcome (Z * Kernel) :=
  '(woken, q, k) ← SleepQueue_tick wake_discard (k_sleep k) k;
  Done (woken, set_k_sleep q k).

Definition on_timer_tick (k : Kernel) : outcome (bool * Kernel) :=
  '(_, k) ← tick_sleep_queue k;
  c ← cpu_slot k;
  let k := match get_task (k_tasks k) (c_current c) with
           | Some t => update_task (c_current c) (set_ticks_executed (t_ticks_executed t ⊞ 1) t) k
           | None => k
           end in
  if c_ticks c <=? 1 then Done (true, put_slot (set_c_ticks TASK_QUANTUM_TICKS c) k)
  else Done (false, put_slot (set_c_ticks (c_ticks c - 1) c) k).

Definition get_current_task_id (k : Kernel) : outcome TaskId :=
  c ← cpu_slot k; Done (c_current c).

(** The current task becomes [Blocked] and its thread [Waiting]. *)
Definition block_current (current_id : TaskId) (k : Kernel) : outcome Kernel :=
  match get_task (k_tasks k) current_id with
  | Some task =>
      let k := update_task current_id
        (set_state Blocked (set_ticks_remaining TASK_QUANTUM_TICKS task)) k in
      with_thread (t_thread task) (set_th_state Waiting) k
  | None => Done k
  end.

(** Blocking and the scheduling pass are one step here and in [sleep].  The code
    releases the lock in between, with interrupts enabled again: an interrupt may
    run its own scheduling pass there, after which this one follows when the task
    is next chosen.  That interleaving is not part of the model. *)
Definition yield_blocked (k : Kernel) : outcome (bool * Kernel) :=
  current_id ← get_current_task_id k;
  k ← block_current current_id k;
  schedule k.

Definition sleep (seconds : Z) (k : Kernel) : outcome (bool * Kernel) :=
  task_id ← get_current_task_id k;
  if seconds =? 0 then schedule k
  else
    current_id ← get_current_task_id k;
    q ← SleepQueue_insert (k_sleep k) task_id (u32 (seconds * 1000));
    k ← block_current current_id (set_k_sleep q k);
    schedule k.

(** ** Dying *)

Definition queue_task_reaper (task_id : TaskId) (k : Kernel) : outcome (result unit ReaperError * Kernel) :=
  '(r, q) ← ReaperQueue_push (k_reaper k) task_id;
  Done (r, set_k_reaper q k).

(** The warning of a caller of [queue_task_reaper]. *)
Definition reaper_warning (r : result unit ReaperError) (k : Kernel) : Kernel :=
  match r with
  | Ok _ => k
  | Err _ => ksprint (NL ++ bytes_of "[REAPER] Failed to queue task reaper..." ++ NL) k
  end.

(** [task.state = Dying] and the thread's state. *)
Definition mark_dying (task_id : TaskId) (task : Task) (k : Kernel) : outcome Kernel :=
  with_thread (t_thread task) (set_th_state ThreadDying)
    (update_task task_id (set_state Dying task) k).

(** The block of [kill_task] that runs under the scheduler lock. *)
Definition kill_mark (task_id current_id : TaskId) (k : Kernel) : outcome (bool * Kernel) :=
  match get_task (k_tasks k) task_id with
  | Some task =>
      k ← mark_dying task_id task k;
      Done (bool_decide (task_id = current_id), k)
  | None => Done (false, k)
  end.

Definition kill_task (task_id_u64 : Z) (k : Kernel) : outcome Kernel :=
  let task_id := expand_task_id task_id_u64 in
  current_id ← get_current_task_id k;
  '(is_current, k) ← kill_mark task_id current_id k;
  '(r, k) ← queue_task_reaper task_id k;
  let k := reaper_warning r k in
  if (is_current : bool) then
    c ← cpu_slot k;
    Done (put_slot (set_c_force true c) k)
  else Done k.

Definition kill_current_task (k : Kernel) : outcome Kernel :=
  current_id ← get_current_task_id k;
  match get_task (k_tasks k) current_id with
  | Some task =>
      k ← mark_dying current_id task k;
      '(r, k) ← queue_task_reaper current_id k;
      Done (reaper_warning r k)
  | None => Done k
  end.

(** [task_exit] runs the statements of [kill_current_task] before it hands
    over; returning from [schedule] reaches [unreachable!]. *)
Definition task_exit (k : Kernel) : outcome Kernel :=
  let k := set_k_cpu (set_IF false (k_cpu k)) k in
  this_id ← get_current_task_id k;
  k ← match get_task (k_tasks k) this_id with
      | Some task =>
          k ← mark_dying this_id task k;
          '(r, k) ← queue_task_reaper this_id k;
          Done (reaper_warning r k)
      | None => Done k
      end;
  '(switched, k) ← schedule k;
  if (switched : bool) then Done k
  else Panic "task_exit: schedule() returned to a dying/dead task".

(** The exception path of a faulting task; a fault of the idle task halts. *)
Definition try_kill_current_task (k : Kernel) : outcome Kernel :=
  task_id ← get_current_task_id k;
  if decide (task_id = TaskId_IDLE) then Panic "[KERNEL FAULT] in kernel context. Halting"
  else
    k ← kill_current_task k;
    '(switched, k) ← schedule k;
    if (switched : bool) then Done k
    else Panic "try_kill_current_task: schedule() returned to a dead task".

(** ** The reaper *)

Definition tombstone_warning (r : result unit ReaperError) (k : Kernel) : Kernel :=
  match r with
  | Ok _ => k
  | Err _ => ksprint (bytes_of "[REAPER] Failed to queue tombstone cleanup..." ++ NL) k
  end.

(** The drain loops pop once per round, so the length of the queue plus one
    is enough fuel. *)
Fixpoint reap_loop (fuel : nat) (k : Kernel) : outcome Kernel :=
  match fuel with
  | O => OutOfFuel
  | S fuel =>
      '(id, q) ← ReaperQueue_pop (k_reaper k);
      let k := set_k_reaper q k in
      match id with
      | None => Done k
      | Some task_id =>
          match get_task (k_tasks k) task_id with
          | Some task =>
              if decide (t_state task = Dying) then
                let k := update_task task_id (set_state Dead task) k in
                '(r, q) ← TombstoneQueue_push (k_tombstone k) task_id;
                reap_loop fuel (tombstone_warning r (set_k_tombstone q k))
              else reap_loop fuel k
          | None => reap_loop fuel k
          end
      end
  end.

Definition drain_fuel {S} (q : Ring S) : nat := Datatypes.S (Z.to_nat (q_len q)).

Definition reap_dying_tasks (k : Kernel) : outcome Kernel :=
  if q_len (k_reaper k) =? 0 then Done k else reap_loop (drain_fuel (k_reaper k)) k.

Fixpoint tombstone_loop (fuel : nat) (k : Kernel) : outcome Kernel :=
  match fuel with
  | O => OutOfFuel
  | S fuel =>
      '(id, q) ← TombstoneQueue_pop (k_tombstone k);
      let k := set_k_tombstone q k in
      match id with
      | None => Done k
      | Some task_id => k ← remove_task task_id k; tombstone_loop fuel k
      end
  end.

Definition tombstone_cleanup (k : Kernel) : outcome Kernel :=
  if q_len (k_tombstone k) =? 0 then Done k else tombstone_loop (drain_fuel (k_tombstone k)) k.

(** ** System tasks and the timer interrupt *)

Definition queue_system_task (f : SystemFn) (arg : Z) (k : Kernel) : outcome Kernel :=
  '(r, q) ← SystemTaskQueue_push (k_system k) (mk_SystemTask f arg);
  let k := set_k_system q k in
  Done (match r with Ok _ => k | Err error_message => ksprint NL (ksprint (bytes_of error_message) k) end).

Definition run_system_task (t : SystemTask) (k : Kernel) : outcome Kernel :=
  match function t with task_killer => kill_task (func_arg t) k end.

Fixpoint drain_loop (fuel : nat) (k : Kernel) : outcome Kernel :=
  match fuel with
  | O => OutOfFuel
  | S fuel =>
      '(t, q) ← SystemTaskQueue_pop (k_system k);
      let k := set_k_system q k in
      match t with
      | Some t => k ← run_system_task t k; drain_loop fuel k
      | None => Done k
      end
  end.

Definition drain_system_tasks (k : Kernel) : outcome Kernel :=
  drain_loop (drain_fuel (k_system k)) k.

(** The handler of the timer up to its end-of-interrupt: whether it is to
    reschedule, and the state. *)
Definition timer_work (k : Kernel) : outcome (bool * Kernel) :=
  let k := set_k_timer_ticks (k_timer_ticks k ⊞ 1) k in
  '(should_schedule, k) ← on_timer_tick k;
  k ← drain_system_tasks k;
  k ← tombstone_cleanup k;
  k ← reap_dying_tasks k;
  c ← cpu_slot k;
  let should_schedule := should_schedule || c_force c in
  let k := if c_force c then put_slot (set_c_force false c) k else k in
  Done (should_schedule, k).

(** And from there on. *)
Definition timer_schedule (should_schedule : bool) (k : Kernel) : outcome Kernel :=
  if should_schedule then '(_, k) ← schedule k; Done k else Done k.

(** The effect on the scheduler of the whole handler. *)
Definition handler_apic_timer (k : Kernel) : outcome Kernel :=
  '(should_schedule, k) ← timer_work k; timer_schedule should_schedule k.

(** ** Thread exit *)

Definition Thread_exit (th : Thread) (k : Kernel) : outcome Kernel :=
  match th_state th, th_task_id th with
  | ThreadDead, _ | ThreadDying, _ | _, None => Done k
  | _, Some task_id => queue_system_task task_killer (compress_task_id task_id) k
  end.

Definition exit_thread (thread : Z) (k : Kernel) : outcome Kernel :=
  th ← expect "dangling thread reference" (k_threads k !! thread);
  Thread_exit th k.

(** ** The table seen through [get_task] *)

Lemma get_slot_some tasks i s :
  get_slot tasks i = Some s ↔ 0 ≤ i < Z.of_nat (length tasks) ∧ tasks !! Z.to_nat i = Some s.
Proof.
  unfold get_slot. destruct (Z.leb_spec 0 i), (Z.ltb_spec i (Z.of_nat (length tasks))); cbn;
    split; try done; intros; destruct_and?; try done; lia.
Qed.

Lemma get_task_some tasks id t :
  get_task tasks id = Some t ↔
  0 ≤ slot_index id < Z.of_nat (length tasks) ∧
  tasks !! Z.to_nat (slot_index id) = Some (mk_TaskSlot (Some t) (slot_generation id)).
Proof.
  unfold get_task. destruct (get_slot tasks (slot_index id)) as [[o g]|] eqn:Hs.
  - apply get_slot_some in Hs as [Hr Hs]. rewrite Hs. cbn [slot_gen slot_task].
    destruct (Z.eqb_spec g (slot_generation id)) as [->|Hne]; split; intros H.
    + by rewrite H.
    + destruct H as [_ H]. by injection H as ->.
    + done.
    + destruct H as [_ H]. injection H as -> ->. done.
  - split; [done|]. intros [Hr H]. exfalso.
    assert (Hs' : get_slot tasks (slot_index id) = Some (mk_TaskSlot (Some t) (slot_generation id)))
      by (apply get_slot_some; done). congruence.
Qed.

(** A write into the slot [i]. *)
Lemma get_task_insert tasks i o g id :
  0 ≤ i < Z.of_nat (length tasks) →
  get_task (<[Z.to_nat i := mk_TaskSlot o g]> tasks) id =
    if decide (slot_index id = i) then (if g =? slot_generation id then o else None)
    else get_task tasks id.
Proof.
  intros Hi. unfold get_task, get_slot. rewrite length_insert.
  destruct (decide (slot_index id = i)) as [<-|Hne].
  - rewrite (proj2 (Z.leb_le _ _)), (proj2 (Z.ltb_lt _ _)) by lia. cbn.
    by rewrite list_lookup_insert_eq by lia.
  - destruct (Z.leb_spec 0 (slot_index id)); [|done]. cbn.
    destruct (slot_index id <? Z.of_nat (length tasks)); [|done].
    by rewrite list_lookup_insert_ne by lia.
Qed.

Lemma get_task_put tasks id t t0 id' :
  get_task tasks id = Some t0 →
  get_task (put_task id t tasks) id' = if decide (id' = id) then Some t else get_task tasks id'.
Proof.
  intros H. pose proof H as [Hr Hs]%get_task_some. unfold put_task.
  rewrite get_task_insert by done. destruct (decide (id' = id)) as [->|Hne].
  - rewrite decide_True by done. by rewrite Z.eqb_refl.
  - destruct (decide (slot_index id' = slot_index id)) as [Hi|]; [|done].
    rewrite (proj2 (Z.eqb_neq _ _)) by (intros Hg; apply Hne; destruct id, id'; cbn in *; congruence).
    unfold get_task, get_slot. rewrite Hi, (proj2 (Z.leb_le _ _)), (proj2 (Z.ltb_lt _ _)) by lia.
    cbn [andb]. rewrite Hs. cbn [slot_gen]. rewrite (proj2 (Z.eqb_neq _ _)); [done|].
    intros Hg. apply Hne. destruct id, id'. cbn in *. congruence.
Qed.

(** The two updates of the table, on a whole kernel. *)
Lemma get_task_update k id t t0 id' :
  get_task (k_tasks k) id = Some t0 →
  get_task (k_tasks (update_task id t k)) id' =
    if decide (id' = id) then Some t else get_task (k_tasks k) id'.
Proof. apply get_task_put. Qed.

Lemma remove_task_ok (k : Kernel) (id : TaskId) (t : Task) (th : Thread) :
  get_task (k_tasks k) id = Some t → k_threads k !! t_thread t = Some th →
  ∃ k', remove_task id k = Done k' ∧
    (∀ id', get_task (k_tasks k') id' =
       if decide (slot_index id' = slot_index id) then None else get_task (k_tasks k) id') ∧
    k_tasks k' !! Z.to_nat (slot_index id) = Some (mk_TaskSlot None (u8 (slot_generation id + 1))) ∧
    k_threads k' = <[t_thread t := mk_Thread (th_id th) None (th_name th) ThreadDead (th_process th)]>
                     (k_threads k).
Proof.
  intros H Hth. pose proof H as [Hr Hs]%get_task_some. unfold remove_task, with_thread.
  rewrite H, Hth. cbn. eexists. split; [done|]. cbn. split; [|split; [|done]].
  - intros id'. rewrite get_task_insert by done.
    destruct (decide (slot_index id' = slot_index id)); [|done]. by destruct (_ =? _).
  - apply list_lookup_insert_eq. lia.
Qed.

Lemma remove_task_none k id : get_task (k_tasks k) id = None → remove_task id k = Done k.
Proof. intros H. unfold remove_task. by rewrite H. Qed.

Lemma first_free_some i tasks j g :
  first_free i tasks = Some (j, g) →
  i ≤ j < i + Z.of_nat (length tasks) ∧ tasks !! Z.to_nat (j - i) = Some (mk_TaskSlot None g).
Proof.
  revert i. induction tasks as [|[[t|] g'] tasks IH]; intros i H; cbn in H; [done| |].
  - apply IH in H as [Hr Hl]. cbn [length]. split; [lia|].
    replace (Z.to_nat (j - i)) with (S (Z.to_nat (j - (i + 1)))) by lia. done.
  - injection H as -> ->. cbn [length]. split; [lia|]. by replace (j - j) with 0 by lia.
Qed.

Lemma first_free_none i tasks :
  first_free i tasks = None → Forall (λ s, is_Some (slot_task s)) tasks.
Proof.
  revert i. induction tasks as [|[[t|] g] tasks IH]; intros i H; cbn in H; [by apply Forall_nil| |done].
  apply Forall_cons. split; [by eexists|]. by eapply IH.
Qed.

(** ** Stale identifiers *)

(** What can happen to the table while a stale [TaskId] is kept somewhere. *)
Inductive table_op := TInsert (t : Task) | TRemove (id : TaskId) | TWrite (id : TaskId) (t : Task).

Definition table_step (op : table_op) (k : Kernel) : outcome Kernel :=
  match op with
  | TInsert t => Done (set_k_tasks (insert_task t (k_tasks k)).2 k)
  | TRemove id => remove_task id k
  | TWrite id t =>
      match get_task (k_tasks k) id with
      | Some _ => Done (update_task id t k)
      | None => Done k
      end
  end.

Fixpoint table_run (ops : list table_op) (k : Kernel) : outcome Kernel :=
  match ops with
  | [] => Done k
  | op :: ops => k ← table_step op k; table_run ops k
  end.

Definition removes (i : Z) (op : table_op) : bool :=
  match op with TRemove id => slot_index id =? i | _ => false end.

(** The generation of slot [i] is [r] removals past [g]. *)
Definition gen_after (k : Kernel) (i g r : Z) : Prop :=
  0 ≤ i < Z.of_nat (length (k_tasks k)) ∧
  ∃ o, k_tasks k !! Z.to_nat i = Some (mk_TaskSlot o ((g + r) mod 256)).

Lemma gen_after_write k i g r j o o' g' :
  gen_after k i g r → 0 ≤ j → k_tasks k !! Z.to_nat j = Some (mk_TaskSlot o' g') →
  gen_after (set_k_tasks (<[Z.to_nat j := mk_TaskSlot o g']> (k_tasks k)) k) i g r.
Proof.
  intros [Hr [o1 Hi]] Hj Hs. split; cbn; [by rewrite length_insert|].
  destruct (decide (Z.to_nat j = Z.to_nat i)) as [He|Hne].
  - rewrite He in *. rewrite Hi in Hs. injection Hs as <- <-. exists o. apply list_lookup_insert_eq. lia.
  - exists o1. by rewrite list_lookup_insert_ne.
Qed.

Lemma gen_after_step op k k' i g r :
  gen_after k i g r → table_step op k = Done k' →
  gen_after k' i g r ∨ removes i op = true ∧ gen_after k' i g (r + 1).
Proof.
  intros Hg Hop. destruct op as [t|id|id t]; cbn in Hop.
  - left. injection Hop as <-. unfold insert_task.
    destruct (first_free 0 (k_tasks k)) as [[j g']|] eqn:Hf; cbn; [|by destruct k].
    apply first_free_some in Hf as [Hr Hl]. rewrite Z.sub_0_r in Hl.
    eapply gen_after_write; [done|lia|exact Hl].
  - destruct (get_task (k_tasks k) id) as [t|] eqn:Hid.
    2: { left. rewrite remove_task_none in Hop by done. by injection Hop as <-. }
    destruct (k_threads k !! t_thread t) as [th|] eqn:Hth.
    2: { unfold remove_task, with_thread in Hop. rewrite Hid, Hth in Hop. done. }
    pose proof Hid as [Hr Hs]%get_task_some.
    unfold remove_task, with_thread in Hop. rewrite Hid, Hth in Hop. cbn in Hop. injection Hop as <-.
    destruct Hg as [Hi [o Ho]]. destruct (decide (slot_index id = i)) as [<-|Hne].
    + right. cbn [removes]. rewrite Z.eqb_refl. split; [done|]. split; cbn; [by rewrite length_insert|].
      exists None. rewrite list_lookup_insert_eq by lia. do 2 f_equal. rewrite Ho in Hs.
      injection Hs as -> Hgen. unfold u8. rewrite <- Hgen, Zplus_mod_idemp_l. f_equal. lia.
    + left. split; cbn; [by rewrite length_insert|]. exists o. by rewrite list_lookup_insert_ne by lia.
  - left. destruct (get_task (k_tasks k) id) as [t0|] eqn:Hid; injection Hop as <-; [|done].
    apply get_task_some in Hid as [Hr Hs]. eapply gen_after_write; [done|lia|exact Hs].
Qed.

Lemma gen_after_run ops k k' i g r :
  gen_after k i g r → table_run ops k = Done k' →
  ∃ r', r ≤ r' ≤ r + Z.of_nat (length (List.filter (removes i) ops)) ∧ gen_after k' i g r'.
Proof.
  revert k r. induction ops as [|op ops IH]; intros k r Hg Hrun; cbn [table_run List.filter] in *.
  { injection Hrun as <-. exists r. cbn. split; [lia|done]. }
  apply bind_done in Hrun as (k1 & Hop & Hrun).
  destruct (gen_after_step _ _ _ _ _ _ Hg Hop) as [Hg1|[Hrm Hg1]];
    destruct (IH _ _ Hg1 Hrun) as (r' & Hr & Hg').
  - exists r'. split; [|done]. destruct (removes i op); cbn [length]; lia.
  - exists r'. split; [|done]. rewrite Hrm. cbn [length]. lia.
Qed.

(** C19. A [TaskId] whose task was removed never resolves again, whatever tasks
    are inserted, written or removed afterwards, as long as its slot sees fewer
    than 255 further removals (the generation counter is a byte). *)
Theorem stale_id_never_resolves (k k1 k2 : Kernel) (id : TaskId) (t : Task) (ops : list table_op) :
  get_task (k_tasks k) id = Some t → 0 ≤ slot_generation id < 256 →
  remove_task id k = Done k1 → table_run ops k1 = Done k2 →
  (length (List.filter (removes (slot_index id)) ops) < 255)%nat →
  get_task (k_tasks k2) id = None.
Proof.
  intros Hid Hgen Hrm Hrun Hcount. pose proof Hid as [Hr Hs]%get_task_some.
  assert (Hg : gen_after k (slot_index id) (slot_generation id) 0).
  { split; [done|]. exists (Some t). by rewrite Z.add_0_r, Z.mod_small by lia. }
  destruct (k_threads k !! t_thread t) as [th|] eqn:Hth.
  2: { unfold remove_task, with_thread in Hrm. rewrite Hid, Hth in Hrm. done. }
  destruct (remove_task_ok k id t th Hid Hth) as (k1' & Hk1 & _ & Hslot & _).
  rewrite Hk1 in Hrm. injection Hrm as ->.
  assert (Hg1 : gen_after k1 (slot_index id) (slot_generation id) 1).
  { split; [|eexists; exact Hslot]. apply lookup_lt_Some in Hslot. lia. }
  destruct (gen_after_run _ _ _ _ _ _ Hg1 Hrun) as (r & Hrr & Hi & o & Ho).
  destruct (get_task (k_tasks k2) id) as [t'|] eqn:H2; [|done]. exfalso.
  apply get_task_some in H2 as [_ H2]. rewrite H2 in Ho. injection Ho as _ Ho.
  assert ((r mod 256) = 0).
  { rewrite Z.add_comm in Ho. rewrite Ho in Hgen at 1. clear -Ho Hgen Hrr.
    apply Z.mod_divide; [lia|].
    assert (slot_generation id mod 256 = (r + slot_generation id) mod 256) as He.
    { rewrite <- Ho. rewrite Ho at 1. by rewrite Z.mod_mod. }
    replace r with ((r + slot_generation id) - slot_generation id) by lia.
    apply Z.mod_divide; [lia|]. rewrite Zminus_mod, <- He, Z.sub_diag. done. }
  rewrite Z.mod_small in H by lia. lia.
Qed.

(** ** One scheduling pass *)

Definition is_ready (tasks : list TaskSlot) (id : TaskId) : bool :=
  match get_task tasks id with
  | Some t => bool_decide (t_state t = Ready)
  | None => false
  end.

(** The entry the pass takes from the ready queue, and what is left of it. *)
Fixpoint take_ready (tasks : list TaskSlot) (l : list TaskId) : option TaskId * list TaskId :=
  match l with
  | [] => (None, [])
  | id :: l => if is_ready tasks id then (Some id, l) else take_ready tasks l
  end.

Definition mark_running (picked : option TaskId) (k : Kernel) : Kernel :=
  match picked with
  | Some id =>
      match get_task (k_tasks k) id with
      | Some t => update_task id (set_state Running t) k
      | None => k
      end
  | None => k
  end.

Lemma cpu_slot_some k c : k_cpu0 k = Some c → cpu_slot k = Done c.
Proof. intros H. unfold cpu_slot. by rewrite H. Qed.

Lemma cpu_slot_put c k : cpu_slot (put_slot c k) = Done c.
Proof. done. Qed.

Lemma pick_next_ok fuel k c l :
  k_cpu0 k = Some c → fifo_repr (c_queue c) l → (length l < fuel)%nat →
  ∃ q, pick_next fuel k =
      Done (default TaskId_IDLE (take_ready (k_tasks k) l).1,
            mark_running (take_ready (k_tasks k) l).1 (put_slot (set_c_queue q c) k)) ∧
    fifo_repr q (take_ready (k_tasks k) l).2.
Proof.
  revert fuel k c. induction l as [|id l IH]; intros fuel k c Hc Hq Hf;
    (destruct fuel as [|fuel]; [lia|]); cbn [pick_next]; unfold cpu_slot; rewrite Hc; cbn [expect mbind outcome_bind].
  - change PerCpuQueue_pop with (@fifo_pop _ _ _ PerCpuQueue_fifo).
    rewrite fifo_pop_empty by done. cbn [mbind outcome_bind take_ready fst snd default mark_running].
    by exists (c_queue c).
  - change PerCpuQueue_pop with (@fifo_pop _ _ _ PerCpuQueue_fifo).
    destruct (fifo_pop_ok (c_queue c) id l Hq) as (q & -> & Hq'). cbn [mbind outcome_bind].
    change (k_tasks (put_slot (set_c_queue q c) k)) with (k_tasks k).
    cbn [take_ready]. unfold is_ready at 1 2 3. destruct (get_task (k_tasks k) id) as [t|] eqn:Ht.
    + case_decide as Hst.
      * rewrite bool_decide_true by done. exists q. split; [|done]. cbn [fst default mark_running].
        change (k_tasks (put_slot (set_c_queue q c) k)) with (k_tasks k). by rewrite Ht.
      * rewrite bool_decide_false by done.
        destruct (IH fuel (put_slot (set_c_queue q c) k) (set_c_queue q c)) as (q' & Hp & Hr);
          [done|exact Hq'|cbn in Hf; lia|]. exists q'. split; [exact Hp|exact Hr].
    + destruct (IH fuel (put_slot (set_c_queue q c) k) (set_c_queue q c)) as (q' & Hp & Hr);
        [done|exact Hq'|cbn in Hf; lia|]. exists q'. split; [exact Hp|exact Hr].
Qed.

Lemma take_ready_some tasks l id rest :
  take_ready tasks l = (Some id, rest) → is_ready tasks id = true ∧ id ∈ l.
Proof.
  induction l as [|j l IH]; cbn; [done|]. destruct (is_ready tasks j) eqn:Hj.
  - intros [= -> ->]. split; [done|]. left.
  - intros H. destruct (IH H). split; [done|]. by right.
Qed.

Lemma take_ready_length tasks l :
  (length (take_ready tasks l).2 ≤ length l)%nat ∧ (l ≠ [] → length (take_ready tasks l).2 < length l)%nat.
Proof.
  induction l as [|id l [IH1 IH2]]; cbn; [done|].
  destruct (is_ready tasks id); cbn; lia.
Qed.

(** What the pass does to the task [id]: the picked task runs, the outgoing
    one becomes ready again if it was running and, when the switch takes place,
    its stack pointer is saved. *)
Definition sched_task (picked : option TaskId) (out : TaskId) (saved : option Z) (id : TaskId) (t : Task)
    : Task :=
  let t := if decide (picked = Some id) then set_state Running t else t in
  let t := if decide (id = out ∧ t_state t = Running) then set_state Ready t else t in
  match saved with
  | Some r => if decide (id = out) then set_saved_rsp r t else t
  | None => t
  end.

(** Whether the outgoing task [out], in the state [s] when its turn comes, goes
    back to the queue. *)
Definition requeued (init_complete : bool) (out : TaskId) (s : TaskState) : list TaskId :=
  if decide (s = Running) then
    if negb (bool_decide (out = TaskId_IDLE)) || negb init_complete then [out] else []
  else [].

(** The components a scheduling pass leaves alone. *)
Record sched_frame (k k' : Kernel) : Prop := {
  sf_init : k_init_complete k' = k_init_complete k;
  sf_reaper : k_reaper k' = k_reaper k;
  sf_tombstone : k_tombstone k' = k_tombstone k;
  sf_sleep : k_sleep k' = k_sleep k;
  sf_system : k_system k' = k_system k;
  sf_threads : k_threads k' = k_threads k;
  sf_timer : k_timer_ticks k' = k_timer_ticks k;
  sf_length : length (k_tasks k') = length (k_tasks k)
}.

Lemma mark_running_tasks picked k id :
  (∀ i, picked = Some i → is_ready (k_tasks k) i = true) →
  get_task (k_tasks (mark_running picked k)) id =
    (λ t, if decide (picked = Some id) then set_state Running t else t) <$> get_task (k_tasks k) id.
Proof.
  intros Hp. destruct picked as [i|]; cbn [mark_running].
  - specialize (Hp i eq_refl). unfold is_ready in Hp.
    destruct (get_task (k_tasks k) i) as [t|] eqn:Ht; [|done].
    rewrite (get_task_update _ _ _ _ _ Ht).
    destruct (decide (id = i)) as [->|Hne].
    + rewrite Ht. cbn. by rewrite decide_True by done.
    + destruct (get_task (k_tasks k) id); cbn; [|done]. by rewrite decide_False by congruence.
  - destruct (get_task (k_tasks k) id); cbn; [|done]. by rewrite decide_False by done.
Qed.

Lemma length_put_task id t tasks : length (put_task id t tasks) = length tasks.
Proof. apply length_insert. Qed.

Lemma requeue_ok k c l out t :
  k_cpu0 k = Some c → fifo_repr (c_queue c) l → (length l < 256)%nat →
  get_task (k_tasks k) out = Some t →
  ∃ c' k', requeue_outgoing out k = Done k' ∧ k_cpu0 k' = Some c' ∧
    fifo_repr (c_queue c') (l ++ requeued (k_init_complete k) out (t_state t)) ∧
    c_current c' = c_current c ∧ c_force c' = c_force c ∧ c_ticks c' = c_ticks c ∧
    sched_frame k k' ∧ k_cpu k' = k_cpu k ∧ k_mem k' = k_mem k ∧ k_tss_rsp0 k' = k_tss_rsp0 k ∧
    ∀ id, get_task (k_tasks k') id =
      (λ t, if decide (id = out ∧ t_state t = Running) then set_state Ready t else t)
        <$> get_task (k_tasks k) id.
Proof.
  intros Hc Hq Hl Ht. unfold requeue_outgoing, requeued. rewrite Ht.
  assert (Htab : ∀ id, t_state t = Running →
    get_task (k_tasks (update_task out (set_state Ready t) k)) id =
    (λ t, if decide (id = out ∧ t_state t = Running) then set_state Ready t else t)
        <$> get_task (k_tasks k) id).
  { intros id Hst. rewrite (get_task_update _ _ _ _ _ Ht). destruct (decide (id = out)) as [->|Hne].
    - rewrite Ht. cbn. by rewrite decide_True by done.
    - destruct (get_task (k_tasks k) id); cbn; [|done]. by rewrite decide_False by (intros [??]; done). }
  case_decide as Hst.
  2: { exists c, k. rewrite app_nil_r. split_and!; try done.
    intros id. destruct (get_task (k_tasks k) id) as [t'|] eqn:Ht'; cbn; [|done].
    rewrite decide_False; [done|]. intros [-> Hr]. rewrite Ht in Ht'. injection Ht' as ->. done. }
  cbn [k_init_complete update_task set_k_tasks].
  destruct (negb (bool_decide (out = TaskId_IDLE)) || negb (k_init_complete k)).
  - unfold cpu_slot. cbn [k_cpu0 update_task set_k_tasks]. rewrite Hc. cbn [expect mbind outcome_bind].
    change PerCpuQueue_push with (@fifo_push _ _ _ PerCpuQueue_fifo).
    destruct (fifo_push_ok (c_queue c) l out Hq) as (q & -> & Hq'); [exact Hl|].
    cbn [mbind outcome_bind]. exists (set_c_queue q c). eexists. split; [done|].
    split_and!; try done; [split; try done; apply length_put_task|]. intros id. by apply Htab.
  - exists c. eexists. split; [done|]. rewrite app_nil_r.
    split_and!; try done; [split; try done; apply length_put_task|]. intros id. by apply Htab.
Qed.

Lemma push_rsp v s : rsp (push v s).1 = rsp s.1 ⊟ 8.
Proof. done. Qed.

Lemma switch_saved c m r cr : 48 ≤ rsp c < W64 → (switch_to c m r cr).1 = rsp c - 48.
Proof.
  intros Hr. unfold switch_to. cbn [fst]. unfold push_callee. rewrite !push_rsp. cbn [fst].
  u64_exact. lia.
Qed.

(** The outcome of a pass from the kernel [k] whose CPU slot is [c], whose
    ready queue is [l] and whose running task is [t_out]. *)
Record scheduled (k : Kernel) (c : CpuSlot) (l : list TaskId) (t_out t_next : Task) (sw : bool)
    (k' : Kernel) (c' : CpuSlot) : Prop := {
  sd_next : get_task (k_tasks k) (default TaskId_IDLE (take_ready (k_tasks k) l).1) = Some t_next;
  sd_switched : sw = negb (t_saved_rsp t_next =? 0);
  sd_cpu0 : k_cpu0 k' = Some c';
  sd_current : c_current c' = default TaskId_IDLE (take_ready (k_tasks k) l).1;
  sd_ticks : c_ticks c' = t_ticks_remaining t_next;
  sd_force : c_force c' = c_force c;
  sd_queue : fifo_repr (c_queue c')
    ((take_ready (k_tasks k) l).2 ++
     requeued (k_init_complete k) (c_current c)
       (if decide ((take_ready (k_tasks k) l).1 = Some (c_current c)) then Running else t_state t_out));
  sd_tasks id : get_task (k_tasks k') id =
    sched_task (take_ready (k_tasks k) l).1 (c_current c)
      (if sw then Some (rsp (k_cpu k) - 48) else None) id <$> get_task (k_tasks k) id;
  sd_tss : k_tss_rsp0 k' = if t_is_user_task t_next then t_kernel_stack_top t_next else k_tss_rsp0 k;
  sd_machine : (k_cpu k', k_mem k') =
    if sw then (switch_to (set_IF false (k_cpu k)) (k_mem k) (t_saved_rsp t_next) (t_cr3 t_next)).2
    else (set_IF false (k_cpu k), k_mem k);
  sd_frame : sched_frame k k'
}.

(** The fields of a task that no state change touches. *)
Definition same_context (t t' : Task) : Prop :=
  t_saved_rsp t' = t_saved_rsp t ∧ t_cr3 t' = t_cr3 t ∧ t_is_user_task t' = t_is_user_task t ∧
  t_kernel_stack_top t' = t_kernel_stack_top t ∧ t_ticks_remaining t' = t_ticks_remaining t ∧
  t_thread t' = t_thread t.

Definition requeue_view (out id : TaskId) (t : Task) : Task :=
  if decide (id = out ∧ t_state t = Running) then set_state Ready t else t.
Definition pick_view (picked : option TaskId) (id : TaskId) (t : Task) : Task :=
  if decide (picked = Some id) then set_state Running t else t.

Lemma views_context picked out id t : same_context t (requeue_view out id (pick_view picked id t)).
Proof. unfold requeue_view, pick_view. repeat case_decide; by repeat split. Qed.

(** Everything after the outgoing task is back in the queue. *)
Lemma hand_over_ok k out next t t_next c :
  k_cpu0 k = Some c → get_task (k_tasks k) out = Some t → get_task (k_tasks k) next = Some t_next →
  48 ≤ rsp (k_cpu k) < W64 →
  let sw := negb (t_saved_rsp t_next =? 0) in
  ∃ k' c',
    hand_over out next k = Done (sw, k') ∧
    k_cpu0 k' = Some c' ∧ c_current c' = next ∧ c_ticks c' = t_ticks_remaining t_next ∧
    c_force c' = c_force c ∧ c_queue c' = c_queue c ∧
    (∀ id, get_task (k_tasks k') id =
       (λ t, if sw then if decide (id = out) then set_saved_rsp (rsp (k_cpu k) - 48) t else t else t)
         <$> get_task (k_tasks k) id) ∧
    k_tss_rsp0 k' = (if t_is_user_task t_next then t_kernel_stack_top t_next else k_tss_rsp0 k) ∧
    (k_cpu k', k_mem k') =
      (if sw then (switch_to (k_cpu k) (k_mem k) (t_saved_rsp t_next) (t_cr3 t_next)).2
       else (k_cpu k, k_mem k)) ∧
    sched_frame k k'.
Proof.
  intros Hc Hout Hnext Hrsp sw. unfold hand_over. rewrite (cpu_slot_some k c Hc). cbn [mbind outcome_bind].
  change (k_tasks (put_slot (set_c_current next c) k)) with (k_tasks k).
  rewrite Hnext. cbn [expect mbind outcome_bind].
  set (k1 := if t_is_user_task t_next then _ else _).
  assert (Hk1 : k_cpu0 k1 = Some (set_c_current next c) ∧ k_tasks k1 = k_tasks k ∧ sched_frame k k1 ∧
    k_cpu k1 = k_cpu k ∧ k_mem k1 = k_mem k ∧
    k_tss_rsp0 k1 = (if t_is_user_task t_next then t_kernel_stack_top t_next else k_tss_rsp0 k)).
  { unfold k1. destruct (t_is_user_task t_next); split_and!; by try split. }
  clearbody k1. destruct Hk1 as (Hc1 & Ht1 & Hf1 & Hcpu1 & Hm1 & Htss1).
  rewrite (cpu_slot_some k1 _ Hc1). cbn [mbind outcome_bind]. rewrite Hout.
  unfold sw. destruct (t_saved_rsp t_next =? 0) eqn:Hz; cbn [negb].
  - do 2 eexists. split; [done|]. split; [done|]. split; [done|]. split; [done|]. split; [done|].
    split; [done|]. split; [|split; [exact Htss1|split; [cbn; by rewrite Hcpu1, Hm1|by destruct Hf1]]].
    intros id. cbn [k_tasks put_slot set_k_cpu0]. rewrite Ht1. by destruct (get_task (k_tasks k) id).
  - cbn [k_cpu k_mem put_slot set_k_cpu0]. rewrite Hcpu1, Hm1.
    pose proof (switch_saved (k_cpu k) (k_mem k) (t_saved_rsp t_next) (t_cr3 t_next) Hrsp) as Hsv.
    destruct (switch_to (k_cpu k) (k_mem k) (t_saved_rsp t_next) (t_cr3 t_next)) as [saved [cpu m]].
    cbn [fst] in Hsv. subst saved.
    do 2 eexists. split; [done|]. split; [done|]. split; [done|]. split; [done|]. split; [done|].
    split; [done|]. split; [|split; [exact Htss1|split; [done|]]].
    + intros id. cbn [k_tasks update_task put_slot set_k_cpu0 set_k_tasks set_k_cpu set_k_mem]. rewrite Ht1.
      rewrite (get_task_put _ _ _ _ _ Hout).
      destruct (decide (id = out)) as [->|]; [by rewrite Hout|]. by destruct (get_task (k_tasks k) id).
    + destruct Hf1. split; try done. cbn. by rewrite length_put_task, Ht1.
Qed.

Lemma schedule_ok k c l t_out t_idle :
  k_cpu0 k = Some c → fifo_repr (c_queue c) l →
  get_task (k_tasks k) (c_current c) = Some t_out →
  get_task (k_tasks k) TaskId_IDLE = Some t_idle → 48 ≤ rsp (k_cpu k) < W64 →
  ∃ t_next sw k' c', schedule k = Done (sw, k') ∧ scheduled k c l t_out t_next sw k' c'.
Proof.
  intros Hc Hq Hout Hidle Hrsp.
  destruct (take_ready (k_tasks k) l) as [picked rest] eqn:Htk.
  assert (Hpick : ∀ i, picked = Some i → is_ready (k_tasks k) i = true).
  { intros i ->. by apply take_ready_some in Htk as [? _]. }
  assert (∃ t_next, get_task (k_tasks k) (default TaskId_IDLE picked) = Some t_next) as [t_next Hnext].
  { destruct picked as [i|]; cbn; [|by exists t_idle]. specialize (Hpick i eq_refl).
    unfold is_ready in Hpick. destruct (get_task (k_tasks k) i) as [t|]; [by exists t|done]. }
  unfold schedule. set (k0 := set_k_cpu (set_IF false (k_cpu k)) k).
  change (cpu_slot k0) with (cpu_slot k). rewrite (cpu_slot_some k c Hc). cbn [mbind outcome_bind].
  destruct (pick_next_ok (pick_fuel c) k0 c l Hc Hq) as (q & -> & Hq').
  { unfold pick_fuel. pose proof (rr_len _ _ _ _ _ Hq) as Hlen. rewrite Hlen. lia. }
  change (k_tasks k0) with (k_tasks k) in *. rewrite Htk in *. cbn [fst snd] in *.
  cbn [mbind outcome_bind].
  set (k1 := mark_running picked (put_slot (set_c_queue q c) k0)).
  assert (Hk1 : k_cpu0 k1 = Some (set_c_queue q c) ∧ sched_frame k k1 ∧ k_cpu k1 = set_IF false (k_cpu k) ∧
    k_mem k1 = k_mem k ∧ k_tss_rsp0 k1 = k_tss_rsp0 k ∧
    ∀ id, get_task (k_tasks k1) id = pick_view picked id <$> get_task (k_tasks k) id).
  { assert (Hv := mark_running_tasks picked (put_slot (set_c_queue q c) k0)).
    unfold k1. destruct picked as [i|].
    2: { split_and!; [done|by split|done|done|done|]. intros id. apply Hv. done. }
    cbn [mark_running] in *. change (k_tasks (put_slot (set_c_queue q c) k0)) with (k_tasks k) in *.
    destruct (get_task (k_tasks k) i); split_and!; try done; try (intros id; by apply Hv);
      split; try done; apply length_put_task. }
  clearbody k1. destruct Hk1 as (Hc1 & Hf1 & Hcpu1 & Hm1 & Htss1 & Hv1).
  rewrite (cpu_slot_some k1 _ Hc1). cbn [mbind outcome_bind].
  change (c_current (set_c_queue q c)) with (c_current c).
  destruct (requeue_ok k1 (set_c_queue q c) rest (c_current c) (pick_view picked (c_current c) t_out))
    as (c2 & k2 & -> & Hc2 & Hq2 & Hcur2 & Hforce2 & _ & Hf2 & Hcpu2 & Hm2 & Htss2 & Hv2); [done|exact Hq'| | |].
  { destruct (take_ready_length (k_tasks k) l) as [Hl1 Hl2]. rewrite Htk in Hl1, Hl2. cbn in Hl1, Hl2.
    pose proof (rr_cap _ _ _ _ _ Hq) as Hcap. change (2 ^ 8) with 256 in Hcap.
    destruct l; [cbn in *; lia|]. specialize (Hl2 ltac:(done)). lia. }
  { by rewrite Hv1, Hout. }
  cbn [mbind outcome_bind].
  assert (Hv : ∀ id, get_task (k_tasks k2) id =
    (λ t, requeue_view (c_current c) id (pick_view picked id t)) <$> get_task (k_tasks k) id).
  { intros id. rewrite Hv2, Hv1. by destruct (get_task (k_tasks k) id). }
  set (tn := requeue_view (c_current c) (default TaskId_IDLE picked) (pick_view picked (default TaskId_IDLE picked) t_next)).
  assert (Hnext2 : get_task (k_tasks k2) (default TaskId_IDLE picked) = Some tn) by (by rewrite Hv, Hnext).
  destruct (views_context picked (c_current c) (default TaskId_IDLE picked) t_next)
    as (Hs1 & Hs2 & Hs3 & Hs4 & Hs5 & _). fold tn in Hs1, Hs2, Hs3, Hs4, Hs5.
  destruct (hand_over_ok k2 (c_current c) (default TaskId_IDLE picked)
    (requeue_view (c_current c) (c_current c) (pick_view picked (c_current c) t_out)) tn c2)
    as (k' & c' & -> & Hc' & Hcur & Htk' & Hfo & Hqu & Hvw & Htss & Hmach & Hfr);
    [done|by rewrite Hv, Hout|done|by rewrite Hcpu2, Hcpu1|].
  rewrite Hs1 in *.
  exists t_next, (negb (t_saved_rsp t_next =? 0)), k', c'. split; [done|].
  split; rewrite ?Htk; cbn [fst snd]; try done.
  - by rewrite Htk', Hs5.
  - by rewrite Hfo, Hforce2.
  - rewrite Hqu. rewrite (sf_init _ _ Hf1) in Hq2. unfold pick_view in Hq2.
    destruct (decide (picked = Some (c_current c))); exact Hq2.
  - intros id. rewrite Hvw, Hv. destruct (get_task (k_tasks k) id) as [t|]; [|done]. cbn. f_equal.
    unfold sched_task, requeue_view, pick_view. rewrite Hcpu2, Hcpu1.
    destruct (negb (t_saved_rsp t_next =? 0)); [|done]. done.
  - rewrite Htss, Hs3, Hs4, Htss2, Htss1. done.
  - rewrite Hmach, Hcpu2, Hcpu1, Hm2, Hm1, Hs2. done.
  - destruct Hf1, Hf2, Hfr. split; congruence.
Qed.
