(* ===== verification/SchedulerInv.v ===== *)
(** * SchedulerInv.v: the scheduler's invariant and what follows from it

    Every entry point of the scheduler (timer interrupt, blocking, sleeping,
    exiting, faulting, waking, spawning, killing a thread) completes from any
    reachable state and keeps the invariant: one running task at most, the
    current task in the table, the dying and dead tasks in their queues, every
    suspended task with a saved stack pointer. *)

From S2P Require Import Prelude Machine Task Queues SleepQueue Scheduler.

Local Open Scope Z_scope.

(** ** Invariants *)

Definition state_of (k : Kernel) (id : TaskId) : option TaskState := t_state <$> get_task (k_tasks k) id.

(** A task the system task queue may be asked to kill. *)
Definition killable (id : TaskId) : Prop :=
  0 ≤ slot_index id < 2 ^ 56 ∧ 0 ≤ slot_generation id < 256 ∧ id ≠ TaskId_IDLE.

Definition kills (st : SystemTask) : Prop :=
  ∃ id, func_arg st = compress_task_id id ∧ killable id.

(** What holds throughout an interrupt or a scheduler call: [lq], [lr], [lt],
    [ls] and [s] are the contents of the five queues and [u] the processor. *)
Record winv (k : Kernel) (c : CpuSlot) (lq lr lt : list TaskId) (ls : list SystemTask)
    (s : list timer) (u : Cpu) : Prop := {
  w_cpu0 : k_cpu0 k = Some c;
  w_len : length (k_tasks k) = MAX_TASKS;
  w_queue : fifo_repr (c_queue c) lq;
  w_reaper : fifo_repr (k_reaper k) lr;
  w_tomb : fifo_repr (BoundedFifo := TombstoneQueue_fifo) (k_tombstone k) lt;
  w_system : fifo_repr (k_system k) ls;
  w_sleep : sleep_repr (k_sleep k) s;
  w_idle : state_of k TaskId_IDLE = Some Ready ∨ state_of k TaskId_IDLE = Some Running;
  w_threads id t : get_task (k_tasks k) id = Some t → is_Some (k_threads k !! t_thread t);
  w_current : is_Some (get_task (k_tasks k) (c_current c));
  w_running id : state_of k id = Some Running → id = c_current c;
  w_ready : state_of k (c_current c) = Some Ready → c_current c = TaskId_IDLE;
  w_rsp id t : get_task (k_tasks k) id = Some t → id ≠ c_current c → t_saved_rsp t ≠ 0;
  w_reap_idle : TaskId_IDLE ∉ lr;
  w_tomb_idle : TaskId_IDLE ∉ lt;
  w_kills : Forall kills ls;
  w_machine : k_cpu k = u
}.

(** What holds between events. *)
Record binv (k : Kernel) (c : CpuSlot) (lq lr lt : list TaskId) (ls : list SystemTask)
    (s : list timer) (u : Cpu) : Prop := {
  b_winv : winv k c lq lr lt ls s u;
  b_current : c_current c = TaskId_IDLE ∨ state_of k (c_current c) = Some Running;
  b_reap id : id ∈ lr → state_of k id = Some Dying;
  b_tomb id : id ∈ lt → state_of k id = Some Dead
}.

Lemma state_of_some k id t : get_task (k_tasks k) id = Some t → state_of k id = Some (t_state t).
Proof. intros H. unfold state_of. by rewrite H. Qed.

Lemma state_of_inv k id s : state_of k id = Some s → ∃ t, get_task (k_tasks k) id = Some t ∧ t_state t = s.
Proof.
  unfold state_of. destruct (get_task (k_tasks k) id) as [t|]; cbn; [|done].
  intros [= <-]. by exists t.
Qed.

Lemma state_of_update k id t t0 id' :
  get_task (k_tasks k) id = Some t0 →
  state_of (update_task id t k) id' = if decide (id' = id) then Some (t_state t) else state_of k id'.
Proof.
  intros H. unfold state_of. rewrite (get_task_update _ _ _ _ _ H). by destruct (decide (id' = id)).
Qed.

(** A write to one task. *)
Lemma winv_update k c lq lr lt ls s u id t t' :
  winv k c lq lr lt ls s u → get_task (k_tasks k) id = Some t →
  t_thread t' = t_thread t →
  (id ≠ c_current c → t_saved_rsp t' ≠ 0) →
  (t_state t' = Running → id = c_current c) →
  (id = c_current c → t_state t' = Ready → c_current c = TaskId_IDLE) →
  (id = TaskId_IDLE → t_state t' = Ready ∨ t_state t' = Running) →
  winv (update_task id t' k) c lq lr lt ls s u.
Proof.
  intros W Hid Hth Hrsp Hrun Hrdy Hidl. pose proof (state_of_update k id t' t) as Hst.
  destruct W. split; try done.
  - cbn. by rewrite length_put_task.
  - rewrite Hst by done. destruct (decide (TaskId_IDLE = id)) as [<-|]; [|done].
    destruct Hidl as [->| ->]; [done|by left|by right].
  - intros id' t1. rewrite (get_task_update _ _ _ _ _ Hid).
    destruct (decide (id' = id)) as [->|]; [|by apply w_threads0].
    intros [= <-]. rewrite Hth. by apply (w_threads0 id).
  - rewrite (get_task_update _ _ _ _ _ Hid). by destruct (decide (c_current c = id)).
  - intros id'. rewrite Hst by done. destruct (decide (id' = id)) as [->|]; [|by apply w_running0].
    intros [= ?]. by apply Hrun.
  - rewrite Hst by done. destruct (decide (c_current c = id)) as [Heq|]; [|done].
    intros [= ?]. by apply Hrdy.
  - intros id' t1. rewrite (get_task_update _ _ _ _ _ Hid).
    destruct (decide (id' = id)) as [->|]; [|by apply w_rsp0]. intros [= <-]. done.
Qed.

(** A write to one thread. *)
Lemma with_thread_ok k c lq lr lt ls s u id t f :
  winv k c lq lr lt ls s u → get_task (k_tasks k) id = Some t →
  ∃ th, with_thread (t_thread t) f k = Done (set_k_threads (<[t_thread t := f th]> (k_threads k)) k) ∧
    k_threads k !! t_thread t = Some th ∧
    winv (set_k_threads (<[t_thread t := f th]> (k_threads k)) k) c lq lr lt ls s u.
Proof.
  intros W Hid. destruct (w_threads _ _ _ _ _ _ _ _ W id t Hid) as [th Hth].
  exists th. unfold with_thread. rewrite Hth. split; [done|]. split; [done|].
  destruct W. split; try done. intros id' t' Hid'. cbn.
  destruct (decide (t_thread t' = t_thread t)) as [->|Hne].
  - rewrite lookup_insert_eq. by eexists.
  - rewrite lookup_insert_ne by done. by apply (w_threads0 id').
Qed.

(** Changes of the CPU slot other than its current task and queue, and of the
    machine. *)
Lemma winv_slot k c c' lq lr lt ls s u :
  winv k c lq lr lt ls s u → c_current c' = c_current c → c_queue c' = c_queue c →
  winv (put_slot c' k) c' lq lr lt ls s u.
Proof.
  intros W Hc Hq. destruct W. split; rewrite ?Hc, ?Hq; try done.
Qed.

Lemma winv_machine k c lq lr lt ls s u cpu m :
  winv k c lq lr lt ls s u → winv (set_k_mem m (set_k_cpu cpu k)) c lq lr lt ls s cpu.
Proof. intros []. by split. Qed.

(** ** A scheduling pass keeps the invariant *)

Lemma sched_task_thread picked out saved id t : t_thread (sched_task picked out saved id t) = t_thread t.
Proof. unfold sched_task. repeat case_decide; by destruct saved; repeat case_decide. Qed.

Lemma sched_task_state picked out saved id t :
  t_state (sched_task picked out saved id t) =
    (if decide (picked = Some id) then (if decide (id = out) then Ready else Running)
     else if decide (id = out ∧ t_state t = Running) then Ready else t_state t).
Proof.
  unfold sched_task. destruct saved; repeat case_decide; cbn in *; try done; naive_solver.
Qed.

Definition settled (s : TaskState) : Prop := s = Blocked ∨ s = Dying ∨ s = Dead.

Lemma sched_settled picked out saved id t s :
  settled s → (picked = Some id → t_state t = Ready) →
  t_state (sched_task picked out saved id t) = s ↔ t_state t = s.
Proof.
  intros Hs Hp. rewrite sched_task_state. destruct Hs as [->|[->| ->]];
    repeat case_decide; try specialize (Hp ltac:(done)); destruct_and?; split; congruence.
Qed.

(** What a pass does to the states of the tasks. *)
Definition states_kept (k k' : Kernel) : Prop :=
  (∀ id, is_Some (get_task (k_tasks k') id) ↔ is_Some (get_task (k_tasks k) id)) ∧
  ∀ id s, settled s → state_of k' id = Some s ↔ state_of k id = Some s.

Lemma schedule_inv k c lq lr lt ls s u :
  winv k c lq lr lt ls s u → 48 < rsp u < W64 →
  ∃ sw k' c' lq', schedule k = Done (sw, k') ∧ winv k' c' lq' lr lt ls s (k_cpu k') ∧
    (c_current c ≠ TaskId_IDLE → sw = true) ∧
    (c_current c' = TaskId_IDLE ∨ state_of k' (c_current c') = Some Running) ∧
    states_kept k k' ∧ c_force c' = c_force c.
Proof.
  intros W Hrsp. rewrite <- (w_machine _ _ _ _ _ _ _ _ W) in Hrsp. destruct (w_current _ _ _ _ _ _ _ _ W) as [t_out Hout].
  assert (∃ t_idle, get_task (k_tasks k) TaskId_IDLE = Some t_idle) as [t_idle Hidle].
  { destruct (w_idle _ _ _ _ _ _ _ _ W) as [(t & ? & _)%state_of_inv|(t & ? & _)%state_of_inv]; by exists t. }
  destruct (schedule_ok k c lq t_out t_idle) as (t_next & sw & k' & c' & Hs & D);
    [apply W|apply W|done|done|lia|].
  destruct D as [Hnext Hsw Hc' Hcur' _ Hforce Hqueue Htasks _ _ Hframe].
  destruct (take_ready (k_tasks k) lq) as [picked rest] eqn:Htk. cbn [fst snd] in *.
  set (next := default TaskId_IDLE picked) in *.
  assert (Hpick : ∀ id, picked = Some id → state_of k id = Some Ready).
  { intros id ->. apply take_ready_some in Htk as [Hr _]. unfold is_ready in Hr. unfold state_of.
    destruct (get_task (k_tasks k) id); [|done]. cbn. f_equal. by apply bool_decide_eq_true in Hr. }
  assert (Hst : ∀ id, state_of k' id =
    (λ t, t_state (sched_task picked (c_current c) (if sw then Some (rsp (k_cpu k) - 48) else None) id t))
      <$> get_task (k_tasks k) id).
  { intros id. unfold state_of. rewrite Htasks. by destruct (get_task (k_tasks k) id). }
  assert (Hself : next = c_current c → c_current c = TaskId_IDLE).
  { unfold next. destruct picked as [i|]; cbn; [|done]. intros ->.
    apply (w_ready _ _ _ _ _ _ _ _ W). by apply Hpick. }
  assert (Hswne : next ≠ c_current c → sw = true).
  { intros Hne. rewrite Hsw. rewrite (proj2 (Z.eqb_neq _ _)); [done|].
    by apply (w_rsp _ _ _ _ _ _ _ _ W next). }
  exists sw, k', c', (rest ++ requeued (k_init_complete k) (c_current c)
    (if decide (picked = Some (c_current c)) then Running else t_state t_out)).
  split; [done|]. split; [|split; [naive_solver|split; [|split; [split|done]]]].
  - destruct Hframe as [Fi Fr Ft Fs Fy Fth _ Fl]. destruct W. split; rewrite ?Fr, ?Ft, ?Fy, ?Fs; try done.
    + by rewrite Fl.
    + rewrite Hst, Hidle. cbn. rewrite sched_task_state.
      unfold state_of in w_idle0. rewrite Hidle in w_idle0. cbn in w_idle0.
      repeat case_decide; naive_solver.
    + intros id t. rewrite Htasks. destruct (get_task (k_tasks k) id) as [t0|] eqn:Ht0; [|done].
      intros [= <-]. rewrite sched_task_thread, Fth. by apply (w_threads0 id).
    + rewrite Hcur', Htasks, Hnext. by eexists.
    + intros id. rewrite Hst. destruct (get_task (k_tasks k) id) as [t|] eqn:Ht; [|done]. cbn.
      rewrite sched_task_state. intros [= Hr]. rewrite Hcur'. unfold next.
      case_decide as Hp; [by rewrite Hp|]. case_decide as Hq; [done|]. exfalso. apply Hq.
      split; [|done]. apply w_running0. by rewrite (state_of_some _ _ _ Ht), Hr.
    + rewrite Hcur', Hst, Hnext. cbn. rewrite sched_task_state. intros [= Hr].
      destruct picked as [i|]; cbn in *; [|done]. rewrite decide_True in Hr by done.
      case_decide; [|done]. by rewrite <- Hself.
    + intros id t. rewrite Htasks, Hcur'. destruct (get_task (k_tasks k) id) as [t0|] eqn:Ht0; [|done].
      intros [= <-] Hne. destruct (decide (id = c_current c)) as [->|Ho].
      * rewrite (Hswne ltac:(done)). unfold sched_task. repeat case_decide; cbn; try done; lia.
      * assert (t_saved_rsp t0 ≠ 0) by (by apply (w_rsp0 id)).
        unfold sched_task. destruct sw; repeat case_decide; naive_solver.
  - rewrite Hcur'. destruct picked as [i|]; cbn in *; [|by left].
    destruct (decide (i = c_current c)) as [->|Hne]; [left; by apply Hself|]. right.
    rewrite Hst, Hnext. cbn. by rewrite sched_task_state, decide_True, decide_False by done.
  - intros id. rewrite Htasks. by rewrite fmap_is_Some.
  - intros id st Hset. rewrite Hst. unfold state_of.
    destruct (get_task (k_tasks k) id) as [t|] eqn:Ht; cbn; [|done].
    assert (Hse := sched_settled picked (c_current c) (if sw then Some (rsp (k_cpu k) - 48) else None) id t st Hset).
    split; intros [= Hx]; f_equal; apply Hse; try done; intros Hp; specialize (Hpick id Hp);
      rewrite (state_of_some _ _ _ Ht) in Hpick; by injection Hpick.
Qed.

(** ** Operations between two scheduling passes *)

Definition has_inv (k : Kernel) : Prop := ∃ c lq lr lt ls s u, binv k c lq lr lt ls s u.

Lemma push_ready_ok k c lq lr lt ls s u id :
  winv k c lq lr lt ls s u →
  ∃ r q lq', PerCpuQueue_push (c_queue c) id = Done (r, q) ∧
    winv (put_slot (set_c_queue q c) k) (set_c_queue q c) lq' lr lt ls s u ∧
    (length lq < 256 → r = Ok tt ∧ lq' = lq ++ [id])%nat.
Proof.
  intros W. change PerCpuQueue_push with (@fifo_push _ _ _ PerCpuQueue_fifo).
  pose proof (w_queue _ _ _ _ _ _ _ _ W) as Hq.
  assert (Hfin : ∀ q l, fifo_repr q l →
    winv (put_slot (set_c_queue q c) k) (set_c_queue q c) l lr lt ls s u).
  { intros q l Hl. destruct W. by split. }
  destruct (decide (length lq < 256)%nat) as [Hl|Hl].
  - destruct (fifo_push_ok (c_queue c) lq id Hq Hl) as (q & -> & Hq').
    exists (Ok tt), q, (lq ++ [id]). split; [done|]. split; [by apply Hfin|done].
  - pose proof (fifo_repr_cap _ _ Hq) as Hcap. change fifo_cap with 256%nat in Hcap.
    rewrite (fifo_push_full (c_queue c) lq id Hq); [|change fifo_cap with 256%nat; lia].
    exists (Err QueueFull), (c_queue c), lq. split; [done|]. split; [by apply Hfin|done].
Qed.

Lemma wake_inv k c lq lr lt ls s u id :
  binv k c lq lr lt ls s u →
  ∃ r k' c' lq', wake id k = Done (r, k') ∧ binv k' c' lq' lr lt ls s u ∧
    c_current c' = c_current c ∧ c_ticks c' = c_ticks c ∧ c_force c' = c_force c ∧
    (∀ id', is_Some (get_task (k_tasks k') id') ↔ is_Some (get_task (k_tasks k) id')) ∧
    (∀ id', state_of k' id' =
       if decide (id' = id ∧ state_of k id = Some Blocked) then Some Ready else state_of k id').
Proof.
  intros [W Bc Br Bt]. unfold wake. destruct (get_task (k_tasks k) id) as [t|] eqn:Ht.
  2: { exists (Err UnknownTask), k, c, lq. split_and!; try done. intros id'.
    rewrite decide_False; [done|]. unfold state_of. rewrite Ht. by intros [_ ?]. }
  pose proof (state_of_some _ _ _ Ht) as Hst. case_decide as Hb.
  2: { exists (Ok tt), k, c, lq. split_and!; try done. intros id'.
    rewrite decide_False; [done|]. rewrite Hst. intros [_ [= ?]]. done. }
  assert (Hnc : id ≠ c_current c).
  { intros ->. destruct Bc as [Hi|Hr].
    - rewrite Hi, Hb in Hst. destruct (w_idle _ _ _ _ _ _ _ _ W) as [H|H]; congruence.
    - congruence. }
  assert (W1 : winv (update_task id (set_state Ready t) k) c lq lr lt ls s u).
  { apply winv_update with t; try done; cbn.
    - intros Hne. by apply (w_rsp _ _ _ _ _ _ _ _ W id).
    - intros _. by left. }
  assert (Ht1 : get_task (k_tasks (update_task id (set_state Ready t) k)) id = Some (set_state Ready t)).
  { rewrite (get_task_update _ _ _ _ _ Ht). by rewrite decide_True. }
  destruct (with_thread_ok _ _ _ _ _ _ _ _ id (set_state Ready t) (set_th_state Active) W1 Ht1)
    as (th & Hth & _ & W2). change (t_thread (set_state Ready t)) with (t_thread t) in *. rewrite Hth. cbn [mbind outcome_bind].
  rewrite (cpu_slot_some _ c (w_cpu0 _ _ _ _ _ _ _ _ W2)). cbn [mbind outcome_bind].
  destruct (push_ready_ok _ _ _ _ _ _ _ _ id W2) as (r & q & lq' & -> & W3 & _). cbn [mbind outcome_bind].
  assert (Hv : ∀ id', state_of (put_slot (set_c_queue q c)
      (set_k_threads (<[t_thread t := set_th_state Active th]>
         (k_threads (update_task id (set_state Ready t) k))) (update_task id (set_state Ready t) k))) id' =
    if decide (id' = id) then Some Ready else state_of k id').
  { intros id'. etransitivity; [|apply (state_of_update k id (set_state Ready t) t id' Ht)]. done. }
  exists r. do 2 eexists. exists lq'. split; [done|]. split; [split; [exact W3| | |]|].
  - cbn [c_current set_c_queue]. rewrite Hv. rewrite decide_False by done. exact Bc.
  - intros id' Hin. rewrite Hv. specialize (Br id' Hin). rewrite decide_False; [done|]. congruence.
  - intros id' Hin. rewrite Hv. specialize (Bt id' Hin). rewrite decide_False; [done|]. congruence.
  - split_and!; try done.
    + intros id'. cbn [k_tasks put_slot set_k_cpu0 set_k_threads].
      rewrite (get_task_update _ _ _ _ _ Ht). destruct (decide (id' = id)) as [->|]; [|done].
      rewrite Ht. by split; intros; eexists.
    + intros id'. rewrite Hv, Hst, Hb. by repeat case_decide; naive_solver.
Qed.

(** [Blocked] becomes [Ready] for some tasks and nothing else changes. *)
Definition woken_only (k k' : Kernel) : Prop :=
  (∀ id, is_Some (get_task (k_tasks k') id) ↔ is_Some (get_task (k_tasks k) id)) ∧
  ∀ id, state_of k' id = state_of k id ∨ state_of k id = Some Blocked ∧ state_of k' id = Some Ready.

Lemma woken_only_trans k1 k2 k3 : woken_only k1 k2 → woken_only k2 k3 → woken_only k1 k3.
Proof.
  intros [H1 H1'] [H2 H2']. split; [intros; by rewrite H2, H1|]. intros id.
  destruct (H1' id) as [Ha|[Ha Hb]], (H2' id) as [Hc|[Hc Hd]].
  - left. congruence.
  - right. split; congruence.
  - right. split; congruence.
  - congruence.
Qed.

Lemma wake_discard_done id k r k' : wake id k = Done (r, k') → wake_discard id k = Done k'.
Proof. intros H. unfold wake_discard. by rewrite H. Qed.

Lemma wake_all_inv k c lq lr lt ls s u ids :
  binv k c lq lr lt ls s u →
  ∃ k' c' lq', wake_all wake_discard ids k = Done k' ∧ binv k' c' lq' lr lt ls s u ∧
    c_current c' = c_current c ∧ c_ticks c' = c_ticks c ∧ c_force c' = c_force c ∧ woken_only k k'.
Proof.
  revert k c lq. induction ids as [|id ids IH]; intros k c lq B; cbn [wake_all].
  { exists k, c, lq. split_and!; try done. split; [done|]. by left. }
  destruct (wake_inv _ _ _ _ _ _ _ _ id B) as (r & k1 & c1 & lq1 & Hw1 & B1 & Hc1 & Ht1 & Hf1 & Hd1 & Hs1).
  rewrite (wake_discard_done _ _ _ _ Hw1). cbn [mbind outcome_bind].
  destruct (IH k1 c1 lq1 B1) as (k2 & c2 & lq2 & Hw2 & B2 & Hc2 & Ht2 & Hf2 & Hw).
  exists k2, c2, lq2. split_and!; try done; try congruence.
  eapply woken_only_trans; [|done]. split; [done|]. intros id'. rewrite Hs1.
  destruct (decide (id' = id ∧ state_of k id = Some Blocked)) as [[-> ?]|]; [by right|by left].
Qed.

Lemma tick_sleep_inv k c lq lr lt ls s u :
  binv k c lq lr lt ls s u →
  ∃ n k' c' lq' s', tick_sleep_queue k = Done (n, k') ∧ binv k' c' lq' lr lt ls s' u ∧
    c_current c' = c_current c ∧ c_ticks c' = c_ticks c ∧ c_force c' = c_force c ∧ woken_only k k'.
Proof.
  intros B. unfold tick_sleep_queue.
  destruct (tick_refines wake_discard (k_sleep k) s k (w_sleep _ _ _ _ _ _ _ _ (b_winv _ _ _ _ _ _ _ _ B)))
    as (q & -> & Hq).
  destruct (wake_all_inv _ _ _ _ _ _ _ _ (expiring s) B) as (k1 & c1 & lq1 & -> & [W1 H1 H2 H3] & Hc & Ht & Hf & Hw).
  cbn [mbind outcome_bind]. do 5 eexists. split; [done|]. split; [split; [|exact H1|exact H2|exact H3]|].
  - destruct W1. split; try done; exact Hq.
  - by split_and!.
Qed.

Lemma on_timer_tick_inv k c lq lr lt ls s u :
  binv k c lq lr lt ls s u →
  ∃ b k' c' lq' s', on_timer_tick k = Done (b, k') ∧ binv k' c' lq' lr lt ls s' u ∧
    c_current c' = c_current c ∧ c_force c' = c_force c ∧ woken_only k k' ∧
    b = (c_ticks c <=? 1) ∧ c_ticks c' = (if c_ticks c <=? 1 then TASK_QUANTUM_TICKS else c_ticks c - 1).
Proof.
  intros B. unfold on_timer_tick.
  destruct (tick_sleep_inv _ _ _ _ _ _ _ _ B) as (n & k1 & c1 & lq1 & s1 & -> & B1 & Hc & Ht & Hf & Hw).
  cbn [mbind outcome_bind].
  rewrite (cpu_slot_some k1 c1 (w_cpu0 _ _ _ _ _ _ _ _ (b_winv _ _ _ _ _ _ _ _ B1))). cbn [mbind outcome_bind].
  destruct (w_current _ _ _ _ _ _ _ _ (b_winv _ _ _ _ _ _ _ _ B1)) as [t Hcur]. rewrite Hcur.
  set (k2 := update_task _ _ k1).
  assert (Hst : ∀ id, state_of k2 id = state_of k1 id).
  { intros id. unfold k2. rewrite (state_of_update _ _ _ _ _ Hcur).
    destruct (decide (id = c_current c1)) as [->|]; [|done]. by rewrite (state_of_some _ _ _ Hcur). }
  assert (Hdom : ∀ id, is_Some (get_task (k_tasks k2) id) ↔ is_Some (get_task (k_tasks k1) id)).
  { intros id. unfold k2. rewrite (get_task_update _ _ _ _ _ Hcur).
    destruct (decide (id = c_current c1)) as [->|]; [|done]. rewrite Hcur. by split; intros; eexists. }
  assert (W2 : winv k2 c1 lq1 lr lt ls s1 u).
  { destruct B1 as [W1 _ _ _]. eapply winv_update; try done; cbn; try done.
    - intros _ Hr. apply (w_ready _ _ _ _ _ _ _ _ W1). by rewrite (state_of_some _ _ _ Hcur), Hr.
    - intros He. pose proof (w_idle _ _ _ _ _ _ _ _ W1) as Hi.
      rewrite <- He, (state_of_some _ _ _ Hcur) in Hi. naive_solver. }
  assert (Hall : ∀ n, ∃ c', c_current c' = c_current c ∧ c_force c' = c_force c ∧ c_ticks c' = n ∧
    set_c_ticks n c1 = c' ∧ binv (put_slot c' k2) c' lq1 lr lt ls s1 u).
  { intros m. exists (set_c_ticks m c1). split; [exact Hc|]. split; [exact Hf|]. split; [done|]. split; [done|].
    destruct B1 as [W1 H1 H2 H3]. split.
    - by apply winv_slot with c1.
    - cbn [c_current set_c_ticks]. change (state_of (put_slot (set_c_ticks m c1) k2)) with (state_of k2).
      by rewrite Hst.
    - intros id Hin. change (state_of k2 id = Some Dying). rewrite Hst. by apply H2.
    - intros id Hin. change (state_of k2 id = Some Dead). rewrite Hst. by apply H3. }
  assert (Hw2 : ∀ c', woken_only k (put_slot c' k2)).
  { intros c'. eapply woken_only_trans; [exact Hw|]. split; [exact Hdom|]. intros id. left. apply Hst. }
  rewrite Ht. destruct (c_ticks c <=? 1).
  - destruct (Hall TASK_QUANTUM_TICKS) as (c' & ? & ? & ? & <- & Bf).
    do 5 eexists. split; [done|]. split; [exact Bf|]. by split_and!.
  - destruct (Hall (c_ticks c - 1)) as (c' & ? & ? & ? & <- & Bf).
    do 5 eexists. split; [done|]. split; [exact Bf|]. by split_and!.
Qed.

(** ** Killing and reaping *)

(** What holds inside the timer interrupt between the drain of the system
    tasks and the scheduling pass: the running task may have been killed, but
    then the reschedule flag is set. *)
Record minv (k : Kernel) (c : CpuSlot) (lq lr lt : list TaskId) (ls : list SystemTask)
    (s : list timer) (u : Cpu) : Prop := {
  m_winv : winv k c lq lr lt ls s u;
  m_current : c_current c = TaskId_IDLE ∨ state_of k (c_current c) = Some Running ∨ c_force c = true;
  m_tomb id : id ∈ lt → id ≠ c_current c ∧ (state_of k id = Some Dead ∨ state_of k id = Some Dying)
}.

Definition same_domain (k k' : Kernel) : Prop :=
  ∀ id, is_Some (get_task (k_tasks k') id) ↔ is_Some (get_task (k_tasks k) id).

(** Some tasks are [Dying] now and nothing else changed. *)
Definition killed_only (k k' : Kernel) : Prop :=
  same_domain k k' ∧ ∀ id, state_of k' id = state_of k id ∨ state_of k' id = Some Dying.

Lemma killed_only_trans k1 k2 k3 : killed_only k1 k2 → killed_only k2 k3 → killed_only k1 k3.
Proof.
  intros [H1 H1'] [H2 H2']. split; [intros id; etransitivity; [apply H2|apply H1]|].
  intros id. destruct (H1' id) as [Ha|Ha], (H2' id) as [Hb|Hb]; [left|right..]; congruence.
Qed.

Lemma mark_dying_ok k c lq lr lt ls s u id t :
  winv k c lq lr lt ls s u → get_task (k_tasks k) id = Some t → id ≠ TaskId_IDLE →
  ∃ k', mark_dying id t k = Done k' ∧ winv k' c lq lr lt ls s u ∧ same_domain k k' ∧
    ∀ id', state_of k' id' = if decide (id' = id) then Some Dying else state_of k id'.
Proof.
  intros W Ht Hne. unfold mark_dying.
  assert (W1 : winv (update_task id (set_state Dying t) k) c lq lr lt ls s u).
  { apply winv_update with t; try done; cbn. intros Hc. by apply (w_rsp _ _ _ _ _ _ _ _ W id). }
  assert (Ht1 : get_task (k_tasks (update_task id (set_state Dying t) k)) id = Some (set_state Dying t)).
  { rewrite (get_task_update _ _ _ _ _ Ht). by rewrite decide_True. }
  destruct (with_thread_ok _ _ _ _ _ _ _ _ id (set_state Dying t) (set_th_state ThreadDying) W1 Ht1)
    as (th & Hth & _ & W2). change (t_thread (set_state Dying t)) with (t_thread t) in *.
  rewrite Hth. eexists. split; [done|]. split; [exact W2|]. split.
  - intros id'. cbn [k_tasks set_k_threads]. rewrite (get_task_update _ _ _ _ _ Ht).
    destruct (decide (id' = id)) as [->|]; [|done]. rewrite Ht. by split; intros; eexists.
  - intros id'. etransitivity; [|apply (state_of_update k id (set_state Dying t) t id' Ht)]. done.
Qed.

(** A message changes nothing the invariant speaks of. *)
Lemma winv_serial v k c lq lr lt ls s u : winv k c lq lr lt ls s u → winv (set_k_serial v k) c lq lr lt ls s u.
Proof. intros []. by split. Qed.

Lemma serial_same k : set_k_serial (k_serial k) k = k.
Proof. by destruct k. Qed.

Lemma queue_reaper_ok k c lq lr lt ls s u id :
  winv k c lq lr lt ls s u → id ≠ TaskId_IDLE →
  ∃ r q v, queue_task_reaper id k = Done (r, set_k_reaper q k) ∧
    reaper_warning r (set_k_reaper q k) = set_k_serial v (set_k_reaper q k) ∧
    ∃ lr', winv (set_k_serial v (set_k_reaper q k)) c lq lr' lt ls s u ∧ (lr' = lr ++ [id] ∨ lr' = lr) ∧
      ((length lr < 64)%nat → lr' = lr ++ [id]).
Proof.
  intros W Hne. unfold queue_task_reaper.
  change ReaperQueue_push with (@fifo_push _ _ _ ReaperQueue_fifo).
  pose proof (w_reaper _ _ _ _ _ _ _ _ W) as Hq. pose proof (w_reap_idle _ _ _ _ _ _ _ _ W) as Hi.
  assert (Hfin : ∀ q v l, fifo_repr q l → TaskId_IDLE ∉ l → winv (set_k_serial v (set_k_reaper q k)) c lq l lt ls s u).
  { intros q v l Hl Hil. apply winv_serial. destruct W. by split. }
  destruct (decide (length lr < 64)%nat) as [Hl|Hl].
  - destruct (fifo_push_ok (k_reaper k) lr id Hq Hl) as (q & -> & Hq').
    exists (Ok tt), q, (k_serial k). split; [done|]. split; [symmetry; apply (serial_same (set_k_reaper q k))|].
    exists (lr ++ [id]). split; [|by split; [left|]]. apply Hfin; [done|]. set_solver.
  - pose proof (fifo_repr_cap _ _ Hq) as Hcap. change fifo_cap with 64%nat in Hcap.
    rewrite (fifo_push_full (k_reaper k) lr id Hq); [|change fifo_cap with 64%nat; lia].
    eexists (Err ReaperQueueFull), (k_reaper k), _. split; [done|]. split; [reflexivity|]. exists lr. split; [|by split; [right|]].
    by apply Hfin.
Qed.

(** The kill of [id]: in the reaper queue, if that has room, and [Dying]. *)
Record kill_done (k k' : Kernel) (lr lr' : list TaskId) (id : TaskId) : Prop := {
  kd_len : (length lr' ≤ S (length lr))%nat;
  kd_queued : (length lr < 64)%nat → id ∈ lr';
  kd_dying : is_Some (get_task (k_tasks k) id) → state_of k' id = Some Dying
}.

Lemma kill_queued (k k' : Kernel) lr lr' id :
  lr' = lr ++ [id] ∨ lr' = lr → ((length lr < 64)%nat → lr' = lr ++ [id]) →
  (is_Some (get_task (k_tasks k) id) → state_of k' id = Some Dying) → lr ⊆ lr' ∧ kill_done k k' lr lr' id.
Proof.
  intros Hlr Hroom Hd. split; [destruct Hlr as [->| ->]; set_solver|]. split; [|intros Hl; rewrite Hroom by done; set_solver|done].
  destruct Hlr as [->| ->]; rewrite ?length_app; cbn; lia.
Qed.

Lemma kill_task_inv k c lq lr lt ls s u id :
  minv k c lq lr lt ls s u → killable id →
  ∃ k' c' lr', kill_task (compress_task_id id) k = Done k' ∧ minv k' c' lq lr' lt ls s u ∧
    c_current c' = c_current c ∧ killed_only k k' ∧ lr ⊆ lr' ∧ kill_done k k' lr lr' id.
Proof.
  intros [W Mc Mt] (Hidx & Hgen & Hne). unfold kill_task, get_current_task_id.
  rewrite (proj2 (task_id_pack_ok id Hidx Hgen)).
  rewrite (cpu_slot_some k c (w_cpu0 _ _ _ _ _ _ _ _ W)). cbn [mbind outcome_bind].
  unfold kill_mark. destruct (get_task (k_tasks k) id) as [t|] eqn:Ht.
  - destruct (mark_dying_ok _ _ _ _ _ _ _ _ id t W Ht Hne) as (k1 & -> & W1 & Hd1 & Hs1).
    cbn [mbind outcome_bind].
    destruct (queue_reaper_ok _ _ _ _ _ _ _ _ id W1 Hne) as (r & q & v & -> & Hwarn & lr' & W2 & Hlr & Hroom).
    cbn [mbind outcome_bind]. rewrite Hwarn. clear Hwarn r.
    assert (Hko : killed_only k k1).
    { split; [done|]. intros id'. rewrite Hs1. destruct (decide (id' = id)); [by right|by left]. }
    assert (Hsub : lr ⊆ lr' ∧ kill_done k k1 lr lr' id).
    { apply kill_queued; [done..|]. intros _. by rewrite Hs1, decide_True. }
    assert (Hmt : ∀ id', id' ∈ lt → id' ≠ c_current c ∧
      (state_of k1 id' = Some Dead ∨ state_of k1 id' = Some Dying)).
    { intros id' Hin. destruct (Mt id' Hin) as [H1 H2]. split; [done|]. rewrite Hs1.
      destruct (decide (id' = id)); [by right|done]. }
    case_bool_decide as Hcur.
    + rewrite (cpu_slot_some _ c (w_cpu0 _ _ _ _ _ _ _ _ W2)). cbn [mbind outcome_bind].
      eexists _, (set_c_force true c), lr'. split; [done|]. split; [|by destruct Hsub as [? []]].
      split; [by apply winv_slot with c|by right; right|exact Hmt].
    + eexists _, c, lr'. split; [done|]. split; [|by destruct Hsub as [? []]].
      split; [exact W2| |exact Hmt].
      destruct Mc as [?|[?|?]]; [by left| |by right; right]. right; left.
      change (state_of k1 (c_current c) = Some Running). rewrite Hs1. by rewrite decide_False by congruence.
  - cbn [mbind outcome_bind].
    destruct (queue_reaper_ok _ _ _ _ _ _ _ _ id W Hne) as (r & q & v & -> & Hwarn & lr' & W2 & Hlr & Hroom).
    cbn [mbind outcome_bind]. rewrite Hwarn. clear Hwarn r. eexists _, c, lr'. split; [done|]. split; [by split|].
    split; [done|]. split; [split; [done|by left]|]. apply kill_queued; [done..|]. rewrite Ht. by intros [? ?].
Qed.

(** [ls] asks for the kill of [id]. *)
Definition condemned (ls : list SystemTask) (id : TaskId) : Prop :=
  ∃ st, st ∈ ls ∧ func_arg st = compress_task_id id ∧ killable id.

Lemma compress_inj id id' : killable id → killable id' → compress_task_id id = compress_task_id id' → id = id'.
Proof.
  intros (H1 & H2 & _) (H1' & H2' & _) He. rewrite <- (proj2 (task_id_pack_ok id H1 H2)), He. apply task_id_pack_ok; done.
Qed.

Lemma drain_inv fuel k c lq lr lt ls s u :
  minv k c lq lr lt ls s u → (length ls < fuel)%nat →
  ∃ k' c' lr', drain_loop fuel k = Done k' ∧ minv k' c' lq lr' lt [] s u ∧
    c_current c' = c_current c ∧ killed_only k k' ∧ lr ⊆ lr' ∧
    ((length lr + length ls ≤ 64)%nat → ∀ id, condemned ls id →
      id ∈ lr' ∧ (is_Some (get_task (k_tasks k) id) → state_of k' id = Some Dying)).
Proof.
  revert fuel k c lr. induction ls as [|st ls IH]; intros fuel k c lr M Hf;
    (destruct fuel as [|fuel]; [lia|]); cbn [drain_loop];
    change SystemTaskQueue_pop with (@fifo_pop _ _ _ SystemTaskQueue_fifo);
    pose proof (w_system _ _ _ _ _ _ _ _ (m_winv _ _ _ _ _ _ _ _ M)) as Hq.
  - rewrite (fifo_pop_empty _ Hq). cbn [mbind outcome_bind]. exists (set_k_system (k_system k) k), c, lr.
    split; [done|]. split; [destruct M as [[] ? ?]; by split; [split|..]|].
    split; [done|]. split; [split; [done|by left]|]. split; [done|]. by intros _ id (st & ?%not_elem_of_nil & _).
  - destruct (fifo_pop_ok _ _ _ Hq) as (q & -> & Hq'). cbn [mbind outcome_bind].
    pose proof (w_kills _ _ _ _ _ _ _ _ (m_winv _ _ _ _ _ _ _ _ M)) as Hk.
    apply Forall_cons in Hk as [(id & Harg & Hid) Hk].
    assert (M1 : minv (set_k_system q k) c lq lr lt ls s u).
    { destruct M as [[] ? ?]. by split; [split|..]. }
    destruct (kill_task_inv _ _ _ _ _ _ _ _ id M1 Hid) as (k1 & c1 & lr1 & Hk1 & M2 & Hc1 & Hd1 & Hl1 & [Hlen1 Hq1 Hdy1]).
    unfold run_system_task. destruct (function st). rewrite Harg, Hk1. cbn [mbind outcome_bind].
    destruct (IH fuel k1 c1 lr1 M2) as (k2 & c2 & lr2 & Hk2 & M3 & Hc2 & Hd2 & Hl2 & Hin2); [cbn in Hf; lia|].
    exists k2, c2, lr2. split; [done|]. split; [done|]. split; [congruence|].
    split; [by eapply killed_only_trans|]. split; [set_solver|]. cbn [length]. intros Hroom id' (st' & Hst & Ha & Hid').
    apply elem_of_cons in Hst as [->|Hst].
    + assert (id' = id) as -> by (apply compress_inj; congruence). split; [apply Hl2, Hq1; lia|].
      intros Hal. apply Hdy1 in Hal. destruct Hd2 as [_ Hd2]. destruct (Hd2 id); congruence.
    + destruct (Hin2 ltac:(lia) id') as [Hin Hdy]; [by exists st'|]. split; [done|]. intros Hal. apply Hdy. by apply Hd1.
Qed.

Lemma drain_fuel_ok {S A} (q : Ring S) (l : list A) :
  q_len q = Z.of_nat (length l) → drain_fuel q = Datatypes.S (length l).
Proof. intros H. unfold drain_fuel. by rewrite H, Nat2Z.id. Qed.

(** Two identifiers of one slot that both resolve are equal. *)
Lemma get_task_slot_inj tasks id id' t t' :
  get_task tasks id = Some t → get_task tasks id' = Some t' → slot_index id' = slot_index id → id' = id.
Proof.
  intros [_ H1]%get_task_some [_ H2]%get_task_some Hi. rewrite Hi, H1 in H2.
  injection H2 as _ Hg. destruct id, id'. cbn in *. congruence.
Qed.

Lemma remove_task_inv k c lq lr lt ls s u id :
  winv k c lq lr lt ls s u → id ≠ c_current c → id ≠ TaskId_IDLE →
  ∃ k', remove_task id k = Done k' ∧ winv k' c lq lr lt ls s u ∧
    ∀ id', get_task (k_tasks k') id' = if decide (id' = id) then None else get_task (k_tasks k) id'.
Proof.
  intros W Hnc Hni. destruct (get_task (k_tasks k) id) as [t|] eqn:Ht.
  2: { rewrite remove_task_none by done. exists k. split; [done|]. split; [done|]. intros id'.
    by destruct (decide (id' = id)) as [->|]. }
  destruct (w_threads _ _ _ _ _ _ _ _ W id t Ht) as [th Hth].
  destruct (remove_task_ok k id t th Ht Hth) as (k' & Hk' & Hv0 & _ & _).
  assert (Hv : ∀ id', get_task (k_tasks k') id' = if decide (id' = id) then None else get_task (k_tasks k) id').
  { intros id'. rewrite Hv0. destruct (decide (id' = id)) as [->|Hne]; [by rewrite decide_True|].
    case_decide as Hs; [|done]. destruct (get_task (k_tasks k) id') as [t'|] eqn:Ht'; [|done].
    exfalso. apply Hne. by eapply get_task_slot_inj. }
  exists k'. split; [done|]. split; [|done].
  assert (Hst : ∀ id', id' ≠ id → state_of k' id' = state_of k id').
  { intros id' Hne. unfold state_of. rewrite Hv. by rewrite decide_False. }
  unfold remove_task, with_thread in Hk'. rewrite Ht, Hth in Hk'. cbn in Hk'. injection Hk' as <-.
  destruct W. split; try done.
  - cbn. by rewrite length_insert.
  - rewrite Hst by done. done.
  - intros id' t'. rewrite Hv. case_decide; [done|]. intros Ht'. cbn.
    destruct (decide (t_thread t' = t_thread t)) as [->|]; [rewrite lookup_insert_eq; by eexists|].
    rewrite lookup_insert_ne by done. by apply (w_threads0 id').
  - rewrite Hv, decide_False by done. done.
  - intros id' Hr. destruct (decide (id' = id)) as [->|Hne].
    + exfalso. unfold state_of in Hr. rewrite Hv, decide_True in Hr by done. done.
    + apply w_running0. by rewrite <- Hst.
  - rewrite Hst by done. done.
  - intros id' t'. rewrite Hv. case_decide; [done|]. by apply w_rsp0.
Qed.

Lemma tombstone_loop_inv fuel k c lq lr lt ls s u :
  winv k c lq lr lt ls s u → Forall (λ id, id ≠ c_current c) lt → (length lt < fuel)%nat →
  ∃ k', tombstone_loop fuel k = Done k' ∧ winv k' c lq lr [] ls s u ∧
    ∀ id, get_task (k_tasks k') id = if decide (id ∈ lt) then None else get_task (k_tasks k) id.
Proof.
  revert fuel k. induction lt as [|id lt IH]; intros fuel k W Hlt Hf;
    (destruct fuel as [|fuel]; [lia|]); cbn [tombstone_loop];
    change TombstoneQueue_pop with (@fifo_pop _ _ _ TombstoneQueue_fifo);
    pose proof (w_tomb _ _ _ _ _ _ _ _ W) as Hq.
  - rewrite (@fifo_pop_empty _ _ _ TombstoneQueue_fifo _ Hq). cbn [mbind outcome_bind].
    exists (set_k_tombstone (k_tombstone k) k). split; [done|]. destruct W. split; [by split|].
    intros id. by rewrite decide_False by set_solver.
  - destruct (@fifo_pop_ok _ _ _ TombstoneQueue_fifo _ _ _ Hq) as (q & -> & Hq'). cbn [mbind outcome_bind].
    apply Forall_cons in Hlt as [Hid Hlt]. pose proof (w_tomb_idle _ _ _ _ _ _ _ _ W) as Hi.
    assert (W1 : winv (set_k_tombstone q k) c lq lr lt ls s u).
    { destruct W. split; try done. set_solver. }
    destruct (remove_task_inv _ _ _ _ _ _ _ _ id W1 Hid ltac:(set_solver)) as (k1 & -> & W2 & Hv1).
    cbn [mbind outcome_bind].
    destruct (IH fuel k1 W2 Hlt) as (k2 & Hk2 & W3 & Hv2); [cbn in Hf; lia|].
    exists k2. split; [done|]. split; [done|]. intros id'. rewrite Hv2, Hv1.
    cbn [k_tasks set_k_tombstone]. repeat case_decide; set_solver.
Qed.

(** What draining the reaper queue [lr] leaves of kernel [k] with tombstones [lt]. *)
Record reaped (k : Kernel) (lr lt : list TaskId) (k' : Kernel) (lt' : list TaskId) : Prop := {
  rp_dead : ∀ id, id ∈ lt' → state_of k' id = Some Dead;
  rp_domain : same_domain k k';
  rp_state : ∀ id, state_of k' id = state_of k id ∨
    id ∈ lr ∧ state_of k id = Some Dying ∧ state_of k' id = Some Dead;
  rp_room : (length lt + length lr ≤ 64)%nat →
    lt ⊆ lt' ∧ ∀ id, id ∈ lr → state_of k id = Some Dying → id ∈ lt'
}.

Lemma reaped_nil k lt q : (∀ id, id ∈ lt → state_of k id = Some Dead) → reaped k [] lt (set_k_reaper q k) lt.
Proof. intros H. split; [done|done|by left|]. intros _. split; [done|set_solver]. Qed.

Lemma reaped_queue k lr lt k' lt' q : reaped (set_k_reaper q k) lr lt k' lt' → reaped k lr lt k' lt'.
Proof. intros [H1 H2 H3 H4]. by split. Qed.

(** A queued task that is not dying is skipped. *)
Lemma reaped_skip k id lr lt k' lt' :
  state_of k id ≠ Some Dying → reaped k lr lt k' lt' → reaped k (id :: lr) lt k' lt'.
Proof.
  intros Hnd [H1 H2 H3 H4]. split; [done|done| |].
  - intros id'. destruct (H3 id') as [?|(? & ? & ?)]; [by left|right]. split; [by right|done].
  - intros Hr. cbn in Hr. destruct H4 as [Ha Hb]; [lia|]. split; [done|].
    intros id' [->|Hin]%elem_of_cons Hd; [done|]. by apply Hb.
Qed.

(** A dying task is marked dead and, if there is room, gets a tombstone. *)
Lemma reaped_bury k k1 id lr lt lt1 k' lt' :
  state_of k id = Some Dying → same_domain k k1 →
  (∀ id', state_of k1 id' = if decide (id' = id) then Some Dead else state_of k id') →
  ((length lt < 64)%nat → lt1 = lt ++ [id]) →
  reaped k1 lr lt1 k' lt' → reaped k (id :: lr) lt k' lt'.
Proof.
  intros Hdy Hdom Hs1 Hroom [H1 H2 H3 H4].
  assert (Hsid : state_of k' id = Some Dead).
  { destruct (H3 id) as [He|(_ & _ & ?)]; [|done]. by rewrite He, Hs1, decide_True. }
  split; [done| | |].
  - intros id'. etransitivity; [apply H2|apply Hdom].
  - intros id'. destruct (decide (id' = id)) as [->|Hn]; [right; split; [left|done]|].
    destruct (H3 id') as [He|(? & He & ?)]; rewrite Hs1, decide_False in He by done;
      [by left|right; split; [by right|done]].
  - intros Hr. cbn [length] in Hr. specialize (Hroom ltac:(lia)). subst lt1. rewrite length_app in H4.
    cbn [length] in H4. destruct H4 as [Ha Hb]; [lia|]. split; [set_solver|].
    intros id' [->|Hin]%elem_of_cons Hd'; [set_solver|].
    destruct (decide (id' = id)) as [->|Hn]; [set_solver|]. apply Hb; [done|]. by rewrite Hs1, decide_False.
Qed.

(** A push on the tombstone queue completes, full or not. *)
Lemma tombstone_push_total q lt id :
  fifo_repr (BoundedFifo := TombstoneQueue_fifo) q lt →
  ∃ r q' lt', @fifo_push _ _ _ TombstoneQueue_fifo q id = Done (r, q') ∧
    fifo_repr (BoundedFifo := TombstoneQueue_fifo) q' lt' ∧ (lt' = lt ++ [id] ∨ lt' = lt) ∧
    ((length lt < 64)%nat → lt' = lt ++ [id]).
Proof.
  intros Hq. destruct (decide (length lt < 64)%nat) as [Hl|Hl].
  - destruct (@fifo_push_ok _ _ _ TombstoneQueue_fifo _ lt id Hq Hl) as (qt & -> & Hq1).
    exists (Ok tt), qt, (lt ++ [id]). by split_and!; [..|left|].
  - pose proof (@fifo_repr_cap _ _ _ TombstoneQueue_fifo _ _ Hq) as Hcap.
    change (@fifo_cap _ _ _ TombstoneQueue_fifo) with 64%nat in Hcap.
    rewrite (@fifo_push_full _ _ _ TombstoneQueue_fifo _ lt id Hq);
      [|change (@fifo_cap _ _ _ TombstoneQueue_fifo) with 64%nat; lia].
    eexists _, _, lt. by split_and!; [..|right|].
Qed.

Lemma tombstone_warning_serial r k : ∃ v, tombstone_warning r k = set_k_serial v k.
Proof. destruct r; [exists (k_serial k); symmetry; apply serial_same|by eexists]. Qed.

Lemma reap_loop_inv fuel k c lq lr lt ls s u :
  winv k c lq lr lt ls s u → (∀ id, id ∈ lt → state_of k id = Some Dead) → (length lr < fuel)%nat →
  ∃ k' lt', reap_loop fuel k = Done k' ∧ winv k' c lq [] lt' ls s u ∧ reaped k lr lt k' lt'.
Proof.
  revert fuel k lt. induction lr as [|id lr IH]; intros fuel k lt W Hlt Hf;
    (destruct fuel as [|fuel]; [lia|]); cbn [reap_loop];
    change ReaperQueue_pop with (@fifo_pop _ _ _ ReaperQueue_fifo);
    pose proof (w_reaper _ _ _ _ _ _ _ _ W) as Hq.
  { rewrite (fifo_pop_empty _ Hq). cbn [mbind outcome_bind]. exists (set_k_reaper (k_reaper k) k), lt.
    split; [done|]. split; [destruct W; by split|]. by apply reaped_nil. }
  destruct (fifo_pop_ok _ _ _ Hq) as (q & -> & Hq'). cbn [mbind outcome_bind].
  change (k_tasks (set_k_reaper q k)) with (k_tasks k).
  pose proof (w_reap_idle _ _ _ _ _ _ _ _ W) as Hi. cbn in Hf.
  assert (W1 : winv (set_k_reaper q k) c lq lr lt ls s u).
  { destruct W. split; try done. set_solver. }
  assert (Hskip : state_of k id ≠ Some Dying →
    ∃ k' lt', reap_loop fuel (set_k_reaper q k) = Done k' ∧ winv k' c lq [] lt' ls s u ∧ reaped k (id :: lr) lt k' lt').
  { intros Hnd. destruct (IH fuel (set_k_reaper q k) lt W1 Hlt ltac:(lia)) as (k' & lt' & ? & ? & ?).
    exists k', lt'. by eauto using reaped_skip, reaped_queue. }
  destruct (get_task (k_tasks k) id) as [t|] eqn:Ht; [|apply Hskip; unfold state_of; by rewrite Ht].
  pose proof (state_of_some _ _ _ Ht) as Hst. case_decide as Hd; [|apply Hskip; rewrite Hst; congruence].
  clear Hskip. rewrite Hd in Hst. assert (Hne : id ≠ TaskId_IDLE) by set_solver. set (k1 := update_task id (set_state Dead t) (set_k_reaper q k)).
  assert (W2 : winv k1 c lq lr lt ls s u).
  { apply winv_update with t; try done; cbn. intros Hc. by apply (w_rsp _ _ _ _ _ _ _ _ W id). }
  assert (Hs1 : ∀ id', state_of k1 id' = if decide (id' = id) then Some Dead else state_of k id').
  { intros id'. apply (state_of_update (set_k_reaper q k) id (set_state Dead t) t id' Ht). }
  assert (Hd1 : same_domain k k1).
  { intros id'. unfold k1. rewrite (get_task_update (set_k_reaper q k) _ _ _ _ Ht).
    destruct (decide (id' = id)) as [->|]; [|done]. rewrite Ht. by split; intros; eexists. }
  change TombstoneQueue_push with (@fifo_push _ _ _ TombstoneQueue_fifo).
  destruct (tombstone_push_total (k_tombstone k1) lt id (w_tomb _ _ _ _ _ _ _ _ W2))
    as (r & qt & lt1 & -> & Hqt1 & Hlt1 & Hroom). cbn [mbind outcome_bind].
  destruct (tombstone_warning_serial r (set_k_tombstone qt k1)) as [v ->]. set (k1' := set_k_serial v _).
  destruct (IH fuel k1' lt1) as (k2 & lt2 & H1 & H2 & H3).
  - apply winv_serial. pose proof (w_tomb_idle _ _ _ _ _ _ _ _ W2). destruct W2. split; try done.
    destruct Hlt1 as [->| ->]; set_solver.
  - intros id' Hin. change (state_of k1 id' = Some Dead). rewrite Hs1.
    destruct (decide (id' = id)); [done|]. apply Hlt. destruct Hlt1 as [->| ->]; set_solver.
  - lia.
  - exists k2, lt2. split; [exact H1|]. split; [done|]. by apply (reaped_bury k k1' id lr lt lt1).
Qed.

Lemma tombstone_cleanup_inv k c lq lr lt ls s u :
  winv k c lq lr lt ls s u → Forall (λ id, id ≠ c_current c) lt →
  ∃ k', tombstone_cleanup k = Done k' ∧ winv k' c lq lr [] ls s u ∧
    ∀ id, get_task (k_tasks k') id = if decide (id ∈ lt) then None else get_task (k_tasks k) id.
Proof.
  intros W Hlt. unfold tombstone_cleanup.
  pose proof (rr_len _ _ _ _ _ (w_tomb _ _ _ _ _ _ _ _ W)) as Hlen.
  destruct (Z.eqb_spec (q_len (k_tombstone k)) 0) as [H0|_].
  - destruct lt as [|? ?]; [|cbn in Hlen; lia]. exists k. split; [done|]. split; [done|].
    intros id. by rewrite decide_False by set_solver.
  - rewrite (drain_fuel_ok _ lt) by done. apply tombstone_loop_inv; [done..|lia].
Qed.

Lemma reap_dying_inv k c lq lr ls s u :
  winv k c lq lr [] ls s u →
  ∃ k' lt', reap_dying_tasks k = Done k' ∧ winv k' c lq [] lt' ls s u ∧
    (∀ id, id ∈ lt' → state_of k' id = Some Dead) ∧ same_domain k k' ∧
    (∀ id, state_of k' id = state_of k id ∨
       id ∈ lr ∧ state_of k id = Some Dying ∧ state_of k' id = Some Dead) ∧
    ∀ id, id ∈ lr → state_of k id = Some Dying → id ∈ lt'.
Proof.
  intros W. unfold reap_dying_tasks. pose proof (rr_len _ _ _ _ _ (w_reaper _ _ _ _ _ _ _ _ W)) as Hlen.
  destruct (Z.eqb_spec (q_len (k_reaper k)) 0) as [H0|_].
  - destruct lr as [|? ?]; [|cbn in Hlen; lia]. exists k, []. split; [done|]. split; [done|].
    split; [set_solver|]. split; [done|]. split; [by left|set_solver].
  - rewrite (drain_fuel_ok _ lr) by done.
    pose proof (fifo_repr_cap _ _ (w_reaper _ _ _ _ _ _ _ _ W)) as Hcap. change fifo_cap with 64%nat in Hcap.
    destruct (reap_loop_inv (S (length lr)) k c lq lr [] ls s u W) as (k' & lt' & H1 & H2 & [H3 H4 H5 H6]);
      [set_solver|lia|]. exists k', lt'. destruct H6 as [_ H6]; [cbn; lia|]. by split_and!.
Qed.

Lemma state_of_dead_alive k id s : state_of k id = Some s → is_Some (get_task (k_tasks k) id).
Proof. intros (t & -> & _)%state_of_inv. by eexists. Qed.

(** What the timer interrupt does before it schedules: sleepers wake, the
    system tasks run, the tombstones are freed and the dying tasks buried. *)
Record housekept (k k' : Kernel) (lr lt lt' : list TaskId) (ls : list SystemTask) : Prop := {
  hk_domain id : is_Some (get_task (k_tasks k') id) ↔ is_Some (get_task (k_tasks k) id) ∧ id ∉ lt;
  hk_buried id : id ∈ lr → id ∈ lt';
  hk_killed : (length lr + length ls ≤ 64)%nat → ∀ id, condemned ls id → is_Some (get_task (k_tasks k') id) → id ∈ lt'
}.

Lemma housekeeping_inv k c lq lr lt ls s u :
  binv k c lq lr lt ls s u →
  ∃ b k1 k2 k3 k4 c4 lq4 lt4 s4, on_timer_tick k = Done (b, k1) ∧ drain_system_tasks k1 = Done k2 ∧
    tombstone_cleanup k2 = Done k3 ∧ reap_dying_tasks k3 = Done k4 ∧ winv k4 c4 lq4 [] lt4 [] s4 u ∧
    (c_current c4 = TaskId_IDLE ∨ state_of k4 (c_current c4) = Some Running ∨ c_force c4 = true) ∧
    (∀ id, id ∈ lt4 → state_of k4 id = Some Dead) ∧ housekept k k4 lr lt lt4 ls ∧ c_current c4 = c_current c.
Proof.
  intros B.
  assert (Hlt0 : Forall (λ id, id ≠ c_current c) lt).
  { apply Forall_forall. intros id Hin He. pose proof (b_tomb _ _ _ _ _ _ _ _ B id Hin) as Hd.
    destruct (b_current _ _ _ _ _ _ _ _ B) as [Hi|Hi].
    - apply (w_tomb_idle _ _ _ _ _ _ _ _ (b_winv _ _ _ _ _ _ _ _ B)). congruence.
    - congruence. }
  destruct (on_timer_tick_inv _ _ _ _ _ _ _ _ B)
    as (b & k1 & c1 & lq1 & s1 & Hrun1 & B1 & Hc1 & Hf1 & [Hd1 Hw1] & _ & _).
  assert (M1 : minv k1 c1 lq1 lr lt ls s1 u).
  { destruct B1 as [W1 H1 H2 H3]. split; [done|naive_solver|]. intros id Hin. split; [|left; by apply H3].
    rewrite Hc1. rewrite Forall_forall in Hlt0. by apply Hlt0. }
  pose proof (rr_len _ _ _ _ _ (w_system _ _ _ _ _ _ _ _ (m_winv _ _ _ _ _ _ _ _ M1))) as Hfuel.
  destruct (drain_inv (S (length ls)) _ _ _ _ _ _ _ _ M1) as (k2 & c2 & lr2 & Hrun2 & [W2 Mc2 Mt2] & Hc2 & [Hd2 Hk2] & Hl2 & Hcon2); [lia|].
  destruct (tombstone_cleanup_inv _ _ _ _ _ _ _ _ W2) as (k3 & Hrun3 & W3 & Hv3); [by rewrite Hc2, Hc1|].
  destruct (reap_dying_inv _ _ _ _ _ _ _ W3) as (k4 & lt4 & Hrun4 & W4 & Hdead4 & Hd4 & Hs4 & Hin4).
  assert (Hdom4 : ∀ id, is_Some (get_task (k_tasks k4) id) ↔ is_Some (get_task (k_tasks k) id) ∧ id ∉ lt).
  { intros id. rewrite (Hd4 id), Hv3. destruct (decide (id ∈ lt)).
    - split; [by intros [? ?]|by intros [_ ?]].
    - rewrite (Hd2 id), (Hd1 id). naive_solver. }
  assert (Hs3 : ∀ id, id ∉ lt → state_of k3 id = state_of k2 id).
  { intros id Hn. unfold state_of. by rewrite Hv3, decide_False. }
  exists b, k1, k2, k3, k4, c2, lq1, lt4, s1. split; [done|].
  split; [unfold drain_system_tasks; by rewrite (drain_fuel_ok _ ls)|]. split; [done|]. split; [done|]. split; [done|].
  split; [|split; [done|split; [split|congruence]]].
  - destruct Mc2 as [?|[Hr|?]]; [by left|right; left|by right; right].
    rewrite <- Hs3 in Hr by (intros Hin; by destruct (Mt2 _ Hin)). destruct (Hs4 (c_current c2)) as [->|(_ & Hd & _)]; [done|congruence].
  - exact Hdom4.
  - intros id Hin. pose proof (b_reap _ _ _ _ _ _ _ _ B id Hin) as Hdy.
    assert (Hnlt : id ∉ lt) by (intros Hl; pose proof (b_tomb _ _ _ _ _ _ _ _ B id Hl); congruence).
    apply Hin4; [by apply Hl2|]. rewrite Hs3 by done.
    destruct (Hw1 id) as [He|[He _]]; [|congruence]. destruct (Hk2 id); congruence.
  - intros Hroom id Hcon [Hal Hnlt]%Hdom4. destruct (Hcon2 Hroom id Hcon) as [Hin Hdy].
    apply Hin4; [done|]. rewrite Hs3 by done. by apply Hdy, Hd1.
Qed.

(** The handler up to its end-of-interrupt: the interrupted task is still the
    current one. *)
Lemma timer_work_inv k c lq lr lt ls s u :
  binv k c lq lr lt ls s u →
  ∃ b k' c' lq' lt' s', timer_work k = Done (b, k') ∧ winv k' c' lq' [] lt' [] s' u ∧ c_current c' = c_current c ∧
    (b = false → c_current c' = TaskId_IDLE ∨ state_of k' (c_current c') = Some Running) ∧
    (∀ id, id ∈ lt' → state_of k' id = Some Dead) ∧ housekept k k' lr lt lt' ls.
Proof.
  intros B. unfold timer_work.
  set (k0 := set_k_timer_ticks (k_timer_ticks k ⊞ 1) k).
  assert (B0 : binv k0 c lq lr lt ls s u) by (destruct B as [[] ? ? ?]; by split; [split|..]).
  destruct (housekeeping_inv _ _ _ _ _ _ _ _ B0)
    as (b & k1 & k2 & k3 & k4 & c4 & lq4 & lt4 & s4 & -> & Hr2 & Hr3 & Hr4 & W4 & Hc4 & Hdead4 & [Hd4 Hb4 Hk4] & Hcur).
  rewrite bind_Done, Hr2, bind_Done, Hr3, bind_Done, Hr4, bind_Done.
  rewrite (cpu_slot_some k4 c4 (w_cpu0 _ _ _ _ _ _ _ _ W4)), bind_Done.
  set (k5 := if c_force c4 then _ else _).
  assert (∃ c5, winv k5 c5 lq4 [] lt4 [] s4 u ∧ c_current c5 = c_current c4 ∧ k_tasks k5 = k_tasks k4)
    as (c5 & W5 & Hc5 & Ht5).
  { unfold k5. destruct (c_force c4).
    - exists (set_c_force false c4). split; [|done]. by apply winv_slot with c4.
    - by exists c4. }
  assert (Hs5 : ∀ id, state_of k5 id = state_of k4 id) by (intros; unfold state_of; by rewrite Ht5).
  clearbody k5. exists (b || c_force c4), k5, c5, lq4, lt4, s4. split; [done|]. split; [done|]. split; [congruence|]. split.
  { intros [_ Hforce]%orb_false_iff. rewrite Hc5, Hs5. destruct Hc4 as [?|[Hr|?]]; [by left|by right|congruence]. }
  split; [intros id Hin; rewrite Hs5; by apply Hdead4|]. split; rewrite ?Ht5; done.
Qed.

(** The timer interrupt: it completes, restores the invariant, frees exactly
    the tasks that were waiting in the tombstone queue and moves every task of
    the reaper queue there. *)
Lemma handler_inv k c lq lr lt ls s u :
  binv k c lq lr lt ls s u → 48 < rsp u < W64 →
  ∃ k' c' lq' lt' s' u', handler_apic_timer k = Done k' ∧ binv k' c' lq' [] lt' [] s' u' ∧ housekept k k' lr lt lt' ls.
Proof.
  intros B Hrsp. unfold handler_apic_timer, timer_schedule.
  destruct (timer_work_inv _ _ _ _ _ _ _ _ B) as (b & k5 & c5 & lq4 & lt4 & s4 & -> & W5 & _ & Hrun & Hdead & [Hd4 Hb4 Hk4]).
  rewrite bind_Done. destruct b.
  - destruct (schedule_inv _ _ _ _ _ _ _ _ W5 Hrsp) as (sw & k6 & c6 & lq6 & -> & W6 & _ & Hcur6 & [Hd6 Hs6] & _).
    rewrite bind_Done. exists k6, c6, lq6, lt4, s4, (k_cpu k6). split; [done|]. split.
    + split; [done|done|set_solver|]. intros id Hin. apply Hs6; [by right; right|]. by apply Hdead.
    + split; [intros id; rewrite (Hd6 id); apply Hd4|done|]. intros Hroom id Hcon Hal. apply Hk4; [done|done|by apply Hd6].
  - exists k5, c5, lq4, lt4, s4, u. split; [done|]. split; [|done].
    split; [done|by apply Hrun|set_solver|done].
Qed.

(** ** Events *)

(** The entry points of the scheduler, as the rest of the kernel reaches them. *)
Inductive event :=
| EvTimer
| EvYieldBlocked
| EvSleep (seconds : Z)
| EvTaskExit
| EvFault
| EvWake (id : TaskId)
| EvSpawn (t : Task)
| EvExitThread (thread : Z).

(** One event; [cpu] and [m] are the registers and memory the running task has
    produced by then. *)
Definition step (ev : event) (cpu : Cpu) (m : mem) (k : Kernel) : outcome Kernel :=
  let k := set_k_mem m (set_k_cpu cpu k) in
  match ev with
  | EvTimer => handler_apic_timer k
  | EvYieldBlocked => '(_, k) ← yield_blocked k; Done k
  | EvSleep n => '(_, k) ← sleep n k; Done k
  | EvTaskExit => task_exit k
  | EvFault => try_kill_current_task k
  | EvWake id => '(_, k) ← wake id k; Done k
  | EvSpawn t => '(_, k) ← insert_and_queue_task t k; Done k
  | EvExitThread th => exit_thread th k
  end.

(** When an event may happen: only tasks other than the idle task block,
    sleep, exit or fault; a new task has a thread and a stack, and the ready
    queue has room for it; the thread that is told to exit is alive and not
    the idle thread. *)
Definition event_ok (k : Kernel) (ev : event) : Prop :=
  match ev with
  | EvTimer | EvWake _ => True
  | EvSleep n => 0 ≤ n < 2 ^ 32 ∧ ∃ c, k_cpu0 k = Some c ∧ c_current c ≠ TaskId_IDLE
  | EvYieldBlocked | EvTaskExit | EvFault => ∃ c, k_cpu0 k = Some c ∧ c_current c ≠ TaskId_IDLE
  | EvSpawn t =>
      t_saved_rsp t ≠ 0 ∧ is_Some (k_threads k !! t_thread t) ∧
      ∃ c, k_cpu0 k = Some c ∧ q_len (c_queue c) < QUEUE_SIZE
  | EvExitThread w =>
      ∃ th, k_threads k !! w = Some th ∧ ∀ id, th_task_id th = Some id → killable id
  end.

Definition stack_pointer_ok (cpu : Cpu) : Prop := 48 < rsp cpu < W64.

(** [Blocked], [Dying] or [Dead] is what the running task becomes before it
    gives the processor away. *)
Lemma give_up_inv k c lq lr lt ls s u lr' k1 :
  binv k c lq lr lt ls s u → stack_pointer_ok u →
  winv k1 c lq lr' lt ls s u → same_domain k k1 →
  (∀ id, id ≠ c_current c → state_of k1 id = state_of k id) →
  (∀ id, id ∈ lr' → id ∈ lr ∨ id = c_current c ∧ state_of k1 id = Some Dying) →
  c_current c ≠ TaskId_IDLE →
  ∃ k2 c2 lq2 u2, schedule k1 = Done (true, k2) ∧ binv k2 c2 lq2 lr' lt ls s u2 ∧ same_domain k k2 ∧
    ∀ id st, settled st → state_of k1 id = Some st → state_of k2 id = Some st.
Proof.
  intros B Hsp W1 Hd1 Hs1 Hlr Hni.
  destruct (schedule_inv _ _ _ _ _ _ _ _ W1 Hsp) as (sw & k2 & c2 & lq2 & Hsch & W2 & Hsw & Hcur & [Hd2 Hs2] & _).
  rewrite (Hsw Hni) in Hsch. exists k2, c2, lq2, (k_cpu k2). split; [done|].
  destruct B as [W Bc Br Bt]. assert (Hrun : state_of k (c_current c) = Some Running) by naive_solver.
  split; [|split].
  - split; [done|done| |].
    + intros id Hin. apply Hs2; [by right; left|]. destruct (Hlr id Hin) as [Hin'|[_ ?]]; [|done].
      specialize (Br id Hin'). rewrite Hs1; [done|]. congruence.
    + intros id Hin. apply Hs2; [by right; right|]. specialize (Bt id Hin). rewrite Hs1; [done|]. congruence.
  - intros id. rewrite Hd2. apply Hd1.
  - intros id st Hset Hst. by apply Hs2.
Qed.

Lemma has_inv_intro k c lq lr lt ls s u : binv k c lq lr lt ls s u → has_inv k.
Proof. intros B. by exists c, lq, lr, lt, ls, s, u. Qed.

#[export] Hint Resolve has_inv_intro : core.

Lemma block_current_ok k c lq lr lt ls s u t :
  winv k c lq lr lt ls s u → get_task (k_tasks k) (c_current c) = Some t → c_current c ≠ TaskId_IDLE →
  ∃ k', block_current (c_current c) k = Done k' ∧ winv k' c lq lr lt ls s u ∧ same_domain k k' ∧
    ∀ id, state_of k' id = if decide (id = c_current c) then Some Blocked else state_of k id.
Proof.
  intros W Ht Hne. unfold block_current. rewrite Ht.
  set (t' := set_state Blocked (set_ticks_remaining TASK_QUANTUM_TICKS t)).
  assert (W1 : winv (update_task (c_current c) t' k) c lq lr lt ls s u).
  { by apply winv_update with t. }
  assert (Ht1 : get_task (k_tasks (update_task (c_current c) t' k)) (c_current c) = Some t').
  { rewrite (get_task_update _ _ _ _ _ Ht). by rewrite decide_True. }
  destruct (with_thread_ok _ _ _ _ _ _ _ _ (c_current c) t' (set_th_state Waiting) W1 Ht1)
    as (th & Hth & _ & W2). change (t_thread t') with (t_thread t) in *.
  rewrite Hth. eexists. split; [done|]. split; [exact W2|]. split.
  - intros id'. cbn [k_tasks set_k_threads]. rewrite (get_task_update _ _ _ _ _ Ht).
    destruct (decide (id' = c_current c)) as [->|]; [|done]. rewrite Ht. by split; intros; eexists.
  - intros id'. etransitivity; [|apply (state_of_update k (c_current c) t' t id' Ht)]. done.
Qed.

Lemma yield_inv k c lq lr lt ls s u :
  binv k c lq lr lt ls s u → stack_pointer_ok u → c_current c ≠ TaskId_IDLE →
  ∃ k', yield_blocked k = Done (true, k') ∧ has_inv k' ∧ same_domain k k'.
Proof.
  intros B Hsp Hni. pose proof (b_winv _ _ _ _ _ _ _ _ B) as W. unfold yield_blocked, get_current_task_id.
  rewrite (cpu_slot_some k c (w_cpu0 _ _ _ _ _ _ _ _ W)). cbn [mbind outcome_bind].
  destruct (w_current _ _ _ _ _ _ _ _ W) as [t Ht].
  destruct (block_current_ok _ _ _ _ _ _ _ _ t W Ht Hni) as (k1 & -> & W1 & Hd1 & Hs1). cbn [mbind outcome_bind].
  destruct (give_up_inv _ _ _ _ _ _ _ _ lr k1 B Hsp W1 Hd1) as (k2 & c2 & lq2 & u2 & -> & Hi & Hd2 & _); try done.
  - intros id Hne. rewrite Hs1. by rewrite decide_False.
  - by left.
  - exists k2. eauto.
Qed.

Lemma sleep_inv n k c lq lr lt ls s u :
  binv k c lq lr lt ls s u → stack_pointer_ok u → c_current c ≠ TaskId_IDLE → 0 ≤ n < 2 ^ 32 →
  ∃ k', sleep n k = Done (true, k') ∧ has_inv k' ∧ same_domain k k'.
Proof.
  intros B Hsp Hni Hn. pose proof (b_winv _ _ _ _ _ _ _ _ B) as W. unfold sleep, get_current_task_id.
  rewrite (cpu_slot_some k c (w_cpu0 _ _ _ _ _ _ _ _ W)). cbn [mbind outcome_bind].
  destruct (n =? 0).
  { destruct (give_up_inv _ _ _ _ _ _ _ _ lr k B Hsp W) as (k2 & c2 & lq2 & u2 & -> & Hi & Hd2 & _); try done;
      [by left|]. exists k2. eauto. }
  destruct (insert_refines (k_sleep k) s (c_current c) (u32 (n * 1000)) (w_sleep _ _ _ _ _ _ _ _ W))
    as (q & -> & Hq).
  { unfold u32. pose proof (Z.mod_pos_bound (n * 1000) (2 ^ 32)). unfold W64. lia. }
  cbn [mbind outcome_bind]. set (k0 := set_k_sleep q k). set (s0 := spec_insert _ _ _) in *.
  assert (B0 : binv k0 c lq lr lt ls s0 u) by (destruct B as [[] ? ? ?]; by split; [split|..]).
  pose proof (b_winv _ _ _ _ _ _ _ _ B0) as W0.
  destruct (w_current _ _ _ _ _ _ _ _ W0) as [t Ht].
  destruct (block_current_ok _ _ _ _ _ _ _ _ t W0 Ht Hni) as (k1 & -> & W1 & Hd1 & Hs1). cbn [mbind outcome_bind].
  destruct (give_up_inv _ _ _ _ _ _ _ _ lr k1 B0 Hsp W1 Hd1) as (k2 & c2 & lq2 & u2 & -> & Hi & Hd2 & _); try done.
  - intros id Hne. rewrite Hs1. by rewrite decide_False.
  - by left.
  - exists k2. eauto.
Qed.

(** The common part of [task_exit] and [kill_current_task]. *)
Lemma die_ok k c lq lr lt ls s u t :
  binv k c lq lr lt ls s u → get_task (k_tasks k) (c_current c) = Some t → c_current c ≠ TaskId_IDLE →
  ∃ k1 r k2 k3 lr', mark_dying (c_current c) t k = Done k1 ∧
    queue_task_reaper (c_current c) k1 = Done (r, k2) ∧ reaper_warning r k2 = k3 ∧
    winv k3 c lq lr' lt ls s u ∧ same_domain k k3 ∧
    (∀ id, id ≠ c_current c → state_of k3 id = state_of k id) ∧
    (∀ id, id ∈ lr' → id ∈ lr ∨ id = c_current c ∧ state_of k3 id = Some Dying) ∧
    ((length lr < 64)%nat → c_current c ∈ lr').
Proof.
  intros B Ht Hni. pose proof (b_winv _ _ _ _ _ _ _ _ B) as W.
  destruct (mark_dying_ok _ _ _ _ _ _ _ _ (c_current c) t W Ht Hni) as (k1 & Hm & W1 & Hd1 & Hs1).
  destruct (queue_reaper_ok _ _ _ _ _ _ _ _ (c_current c) W1 Hni) as (r & q & v & Hq & Hwarn & lr' & W2 & Hlr & Hroom).
  exists k1, r, (set_k_reaper q k1), (set_k_serial v (set_k_reaper q k1)), lr'. do 5 (split; [done|]).
  change (state_of (set_k_serial v (set_k_reaper q k1))) with (state_of k1). split; [|split].
  - intros id Hne. rewrite Hs1. by rewrite decide_False.
  - intros id Hin. assert (id ∈ lr ∨ id = c_current c) as [?| ->] by (destruct Hlr as [->| ->]; set_solver).
    + by left.
    + right. rewrite Hs1. by rewrite decide_True.
  - intros Hl. rewrite Hroom by done. set_solver.
Qed.

Lemma binv_machine k c lq lr lt ls s u cpu m :
  binv k c lq lr lt ls s u → binv (set_k_mem m (set_k_cpu cpu k)) c lq lr lt ls s cpu.
Proof. intros [[] ? ? ?]. by split; [split|..]. Qed.

Lemma binv_cpu k c lq lr lt ls s u cpu :
  binv k c lq lr lt ls s u → binv (set_k_cpu cpu k) c lq lr lt ls s cpu.
Proof. intros [[] ? ? ?]. by split; [split|..]. Qed.

Lemma task_exit_inv k c lq lr lt ls s u :
  binv k c lq lr lt ls s u → stack_pointer_ok u → c_current c ≠ TaskId_IDLE →
  ∃ k' c' lq' lr' u', task_exit k = Done k' ∧ binv k' c' lq' lr' lt ls s u' ∧ same_domain k k' ∧
    ((length lr < 64)%nat → c_current c ∈ lr').
Proof.
  intros B0 Hsp Hni. unfold task_exit, get_current_task_id.
  apply (binv_cpu _ _ _ _ _ _ _ _ (set_IF false (k_cpu k))) in B0 as B.
  set (k0 := set_k_cpu _ _) in *. pose proof (b_winv _ _ _ _ _ _ _ _ B) as W.
  rewrite (cpu_slot_some k0 c (w_cpu0 _ _ _ _ _ _ _ _ W)). cbn [mbind outcome_bind].
  destruct (w_current _ _ _ _ _ _ _ _ W) as [t Ht]. rewrite Ht.
  destruct (die_ok _ _ _ _ _ _ _ _ t B Ht Hni) as (k1 & r & k2' & k3 & lr' & -> & Hq & Hwarn & W1 & Hd1 & Hs1 & Hlr & Hroom).
  cbn [mbind outcome_bind]. rewrite Hq. cbn [mbind outcome_bind]. rewrite Hwarn.
  destruct (give_up_inv _ _ _ _ _ _ _ _ lr' k3 B)
    as (k2 & c2 & lq2 & u2 & -> & Hi & Hd2 & _); try done.
  - unfold stack_pointer_ok. cbn. by rewrite (w_machine _ _ _ _ _ _ _ _ (b_winv _ _ _ _ _ _ _ _ B0)).
  - exists k2, c2, lq2, lr', u2. by split_and!.
Qed.

Lemma fault_inv k c lq lr lt ls s u :
  binv k c lq lr lt ls s u → stack_pointer_ok u → c_current c ≠ TaskId_IDLE →
  ∃ k', try_kill_current_task k = Done k' ∧ has_inv k' ∧ same_domain k k'.
Proof.
  intros B Hsp Hni. unfold try_kill_current_task, kill_current_task, get_current_task_id.
  pose proof (b_winv _ _ _ _ _ _ _ _ B) as W.
  rewrite (cpu_slot_some k c (w_cpu0 _ _ _ _ _ _ _ _ W)). cbn [mbind outcome_bind].
  rewrite decide_False by done. destruct (w_current _ _ _ _ _ _ _ _ W) as [t Ht]. rewrite Ht.
  destruct (die_ok _ _ _ _ _ _ _ _ t B Ht Hni) as (k1 & r & k2' & k3 & lr' & -> & Hq & Hwarn & W1 & Hd1 & Hs1 & Hlr & _).
  cbn [mbind outcome_bind]. rewrite Hq. cbn [mbind outcome_bind]. rewrite Hwarn.
  destruct (give_up_inv _ _ _ _ _ _ _ _ lr' k3 B)
    as (k2 & c2 & lq2 & u2 & -> & Hi & Hd2 & _); try done. exists k2. eauto.
Qed.

(** A free slot resolves no identifier, so an insertion changes the view of
    the new identifier only. *)
Lemma insert_task_ok t tasks :
  (∃ id, insert_task t tasks = (Ok id, <[Z.to_nat (slot_index id) :=
       mk_TaskSlot (Some (set_state Ready (set_id id t))) (slot_generation id)]> tasks) ∧
     (∀ id', slot_index id' = slot_index id → get_task tasks id' = None) ∧
     ∀ id', get_task (insert_task t tasks).2 id' =
       if decide (id' = id) then Some (set_state Ready (set_id id t)) else get_task tasks id') ∨
  insert_task t tasks = (Err TaskTableFull, tasks) ∧ Forall (λ s, is_Some (slot_task s)) tasks.
Proof.
  unfold insert_task. destruct (first_free 0 tasks) as [[i g]|] eqn:Hf.
  2: { right. split; [done|]. by eapply first_free_none. }
  left. apply first_free_some in Hf as [Hr Hl]. rewrite Z.sub_0_r in Hl. rewrite Z.add_0_l in Hr.
  exists (mk_TaskId i g). cbn [slot_index slot_generation snd]. split; [done|].
  assert (Hnone : ∀ id', slot_index id' = i → get_task tasks id' = None).
  { intros id' Hi. destruct (get_task tasks id') as [t'|] eqn:Ht'; [|done].
    apply get_task_some in Ht' as [_ Ht']. rewrite Hi in Ht'. congruence. }
  split; [done|]. intros id'. rewrite get_task_insert by done.
  destruct (decide (slot_index id' = i)) as [Hi|Hi].
  - destruct id' as [i' g']. cbn in *. subst i'. destruct (Z.eqb_spec g g') as [->|Hg].
    + by rewrite decide_True.
    + rewrite decide_False by congruence. symmetry. by apply Hnone.
  - rewrite decide_False; [done|]. intros ->. done.
Qed.

Lemma spawn_inv k c lq lr lt ls s u t :
  binv k c lq lr lt ls s u → t_saved_rsp t ≠ 0 → is_Some (k_threads k !! t_thread t) →
  (length lq < 256)%nat →
  ∃ r k', insert_and_queue_task t k = Done (r, k') ∧ has_inv k' ∧
    (∀ id, is_Some (get_task (k_tasks k) id) → is_Some (get_task (k_tasks k') id)).
Proof.
  intros B Hsp Hth Hroom. unfold insert_and_queue_task. pose proof B as B0.
  destruct (insert_task_ok t (k_tasks k)) as [(id & Hins & Hfree & Hv)|[-> _]].
  2: { exists (Err TaskTableFull), k. split; [done|]. split; [|done]. by exists c, lq, lr, lt, ls, s, u. }
  rewrite Hins in *. cbn [snd] in *. set (tasks := <[_ := _]> (k_tasks k)) in *.
  set (k1 := set_k_tasks tasks k). specialize (Hfree id eq_refl).
  assert (Hs1 : ∀ id', state_of k1 id' = if decide (id' = id) then Some Ready else state_of k id').
  { intros id'. unfold state_of. cbn. rewrite Hv. by destruct (decide (id' = id)). }
  destruct B as [W Bc Br Bt].
  assert (Hne : ∀ id', is_Some (get_task (k_tasks k) id') → id' ≠ id) by (intros id' [? ?] ->; congruence).
  assert (Hni : TaskId_IDLE ≠ id).
  { apply Hne. destruct (w_idle _ _ _ _ _ _ _ _ W) as [H|H]; by apply state_of_dead_alive in H. }
  assert (Hnc : c_current c ≠ id) by (apply Hne, W).
  assert (W1 : winv k1 c lq lr lt ls s u).
  { destruct W. split; try done.
    - cbn. unfold tasks. by rewrite length_insert.
    - rewrite Hs1, decide_False by done. done.
    - intros id' t'. cbn. rewrite Hv. case_decide; [|by apply w_threads0]. intros [= <-]. done.
    - cbn. rewrite Hv, decide_False by done. done.
    - intros id'. rewrite Hs1. case_decide; [done|]. by apply w_running0.
    - rewrite Hs1, decide_False by done. done.
    - intros id' t'. cbn. rewrite Hv. case_decide; [|by apply w_rsp0]. intros [= <-] _. done. }
  rewrite (cpu_slot_some k1 c (w_cpu0 _ _ _ _ _ _ _ _ W1)). cbn [mbind outcome_bind].
  destruct (push_ready_ok _ _ _ _ _ _ _ _ id W1) as (r & q & lq' & -> & W2 & Hr). cbn [mbind outcome_bind].
  destruct (Hr Hroom) as [-> _]. do 2 eexists. split; [done|]. split.
  - eexists _, lq', lr, lt, ls, s, u. split; [exact W2| | |].
    + cbn [c_current set_c_queue]. destruct Bc as [?|Hrun]; [by left|right].
      change (state_of k1 (c_current c) = Some Running). rewrite Hs1, decide_False by done. done.
    + intros id' Hin. change (state_of k1 id' = Some Dying). specialize (Br id' Hin).
      rewrite Hs1, decide_False; [done|]. apply Hne. by apply state_of_dead_alive in Br.
    + intros id' Hin. change (state_of k1 id' = Some Dead). specialize (Bt id' Hin).
      rewrite Hs1, decide_False; [done|]. apply Hne. by apply state_of_dead_alive in Bt.
  - intros id' Hid. cbn [k_tasks put_slot set_k_cpu0 k1 set_k_tasks]. rewrite Hv.
    by destruct (decide (id' = id)).
Qed.

Lemma queue_system_task_inv k c lq lr lt ls s u id :
  binv k c lq lr lt ls s u → killable id →
  ∃ k', queue_system_task task_killer (compress_task_id id) k = Done k' ∧ has_inv k' ∧ k_tasks k' = k_tasks k.
Proof.
  intros B Hid. unfold queue_system_task.
  change SystemTaskQueue_push with (@fifo_push _ _ _ SystemTaskQueue_fifo).
  pose proof (w_system _ _ _ _ _ _ _ _ (b_winv _ _ _ _ _ _ _ _ B)) as Hq.
  pose proof (w_kills _ _ _ _ _ _ _ _ (b_winv _ _ _ _ _ _ _ _ B)) as Hk.
  assert (Hfin : ∀ q v l, fifo_repr q l → Forall kills l → has_inv (set_k_serial v (set_k_system q k))).
  { intros q v l Hl Hkl. exists c, lq, lr, lt, l, s, u. destruct B as [[] ? ? ?]. by split; [split|..]. }
  set (st := mk_SystemTask task_killer (compress_task_id id)).
  destruct (decide (length ls < 32)%nat) as [Hl|Hl].
  - destruct (fifo_push_ok (k_system k) ls st Hq Hl) as (q & -> & Hq'). eexists. split; [done|].
    split; [|done]. rewrite <- (serial_same (set_k_system q k)). eapply Hfin; [exact Hq'|]. apply Forall_app. split; [done|].
    apply Forall_singleton. by exists id.
  - pose proof (fifo_repr_cap _ _ Hq) as Hcap. change fifo_cap with 32%nat in Hcap.
    rewrite (fifo_push_full (k_system k) ls st Hq); [|change fifo_cap with 32%nat; lia].
    eexists. split; [done|]. split; [|done]. by eapply Hfin.
Qed.

Lemma step_inv ev cpu m k c lq lr lt ls s u :
  binv k c lq lr lt ls s u → event_ok k ev → stack_pointer_ok cpu →
  ∃ k', step ev cpu m k = Done k' ∧ has_inv k' ∧
    ∀ id, is_Some (get_task (k_tasks k) id) → ¬ is_Some (get_task (k_tasks k') id) → id ∈ lt.
Proof.
  intros B0 Hev Hsp. apply (binv_machine _ _ _ _ _ _ _ _ cpu m) in B0 as B. unfold step.
  set (k0 := set_k_mem m (set_k_cpu cpu k)) in *.
  assert (Hcpu0 : k_cpu0 k = Some c) by apply B.
  assert (Hkeep : ∀ k', same_domain k0 k' → ∀ id, is_Some (get_task (k_tasks k) id) →
    ¬ is_Some (get_task (k_tasks k') id) → id ∈ lt).
  { intros k' Hd id Ha Hb. exfalso. apply Hb, Hd, Ha. }
  destruct ev as [| |n| | |id|t|w]; cbn [event_ok] in Hev.
  - destruct (handler_inv _ _ _ _ _ _ _ _ B Hsp) as (k' & c' & lq' & lt' & s' & u' & -> & B' & [Hd _ _]).
    exists k'. split; [done|]. split; [by exists c', lq', [], lt', [], s', u'|].
    intros id Ha Hb. destruct (decide (id ∈ lt)); [done|]. exfalso. apply Hb, Hd. done.
  - destruct Hev as (c0 & Hc0 & Hni). assert (c0 = c) as -> by congruence.
    destruct (yield_inv _ _ _ _ _ _ _ _ B Hsp Hni) as (k' & -> & Hi & Hd). exists k'. split; [done|]. by split; [|apply Hkeep].
  - destruct Hev as (Hn & c0 & Hc0 & Hni). assert (c0 = c) as -> by congruence.
    destruct (sleep_inv n _ _ _ _ _ _ _ _ B Hsp Hni Hn) as (k' & -> & Hi & Hd). exists k'. split; [done|]. by split; [|apply Hkeep].
  - destruct Hev as (c0 & Hc0 & Hni). assert (c0 = c) as -> by congruence.
    destruct (task_exit_inv _ _ _ _ _ _ _ _ B Hsp Hni) as (k' & c' & lq' & lr' & u' & -> & Hi & Hd & _).
    exists k'. split; [done|]. split; [eauto|by apply Hkeep].
  - destruct Hev as (c0 & Hc0 & Hni). assert (c0 = c) as -> by congruence.
    destruct (fault_inv _ _ _ _ _ _ _ _ B Hsp Hni) as (k' & -> & Hi & Hd). exists k'. split; [done|]. by split; [|apply Hkeep].
  - destruct (wake_inv _ _ _ _ _ _ _ _ id B) as (r & k' & c' & lq' & -> & B' & _ & _ & _ & Hd & _).
    exists k'. split; [done|]. split; [by exists c', lq', lr, lt, ls, s, cpu|by apply Hkeep].
  - destruct Hev as (Hr & Hth & c0 & Hc0 & Hroom). assert (c0 = c) as -> by congruence.
    destruct (spawn_inv _ _ _ _ _ _ _ _ t B Hr Hth) as (r & k' & -> & Hi & Hd).
    { pose proof (rr_len _ _ _ _ _ (w_queue _ _ _ _ _ _ _ _ (b_winv _ _ _ _ _ _ _ _ B))) as Hl.
      unfold QUEUE_SIZE in Hroom. lia. }
    exists k'. split; [done|]. split; [done|]. intros id Ha Hb. exfalso. apply Hb. by apply Hd.
  - destruct Hev as (th & Hth & Hid). unfold exit_thread. cbn [k_threads k0 set_k_mem set_k_cpu].
    rewrite Hth. cbn [expect mbind outcome_bind]. unfold Thread_exit.
    assert (Hnop : ∃ k', Done k0 = Done k' ∧ has_inv k' ∧ ∀ id, is_Some (get_task (k_tasks k) id) →
      ¬ is_Some (get_task (k_tasks k') id) → id ∈ lt).
    { exists k0. split; [done|]. split; [by exists c, lq, lr, lt, ls, s, cpu|]. intros id Ha Hb. by exfalso. }
    assert (Hq : ∀ i, th_task_id th = Some i → ∃ k',
      queue_system_task task_killer (compress_task_id i) k0 = Done k' ∧ has_inv k' ∧
      ∀ id, is_Some (get_task (k_tasks k) id) → ¬ is_Some (get_task (k_tasks k') id) → id ∈ lt).
    { intros i Hi. destruct (queue_system_task_inv _ _ _ _ _ _ _ _ i B (Hid i Hi)) as (k' & Hk' & Hinv & Htk).
      exists k'. split; [done|]. split; [done|]. rewrite Htk. intros id Ha Hb. by exfalso. }
    destruct (th_state th), (th_task_id th); try exact Hnop; by apply Hq.
Qed.

(** ** Reachable states *)

(** The statics of the kernel before [init_idle]. *)
Definition fresh_kernel (threads : gmap Z Thread) (cpu : Cpu) (m : mem) : Kernel :=
  mk_Kernel GlobalScheduler_new None false ReaperQueue_new TombstoneQueue_new SleepQueue_new
    SystemTaskQueue_new threads 0 0 cpu m [].

(** [init_idle] on a fresh kernel whose thread heap holds the idle thread. *)
Inductive reachable : Kernel → Prop :=
| reach_boot threads cpu m stack thread k :
    is_Some (threads !! thread) → init_idle stack thread (fresh_kernel threads cpu m) = Done k →
    reachable k
| reach_init_complete k : reachable k → reachable (set_k_init_complete true k)
| reach_thread k w th : reachable k → reachable (set_k_threads (<[w := th]> (k_threads k)) k)
| reach_step k ev cpu m k' :
    reachable k → event_ok k ev → stack_pointer_ok cpu → step ev cpu m k = Done k' → reachable k'.

Lemma fresh_table_empty id : get_task GlobalScheduler_new id = None.
Proof.
  destruct (get_task GlobalScheduler_new id) as [t|] eqn:Ht; [|done].
  apply get_task_some in Ht as [_ Ht]. unfold GlobalScheduler_new in Ht.
  by apply lookup_replicate in Ht as [? _].
Qed.

Lemma boot_inv threads cpu m stack thread k :
  is_Some (threads !! thread) → init_idle stack thread (fresh_kernel threads cpu m) = Done k → has_inv k.
Proof.
  intros Hth Hi. unfold init_idle in Hi. cbn [fresh_kernel k_cpu0 k_tasks] in Hi.
  unfold insert_idle_task in Hi. rewrite slot_set_ok in Hi by (cbn; lia). cbn [mbind outcome_bind] in Hi.
  injection Hi as <-. set (idle := Task_new_idle stack thread). set (tasks := <[Z.to_nat 0 := mk_TaskSlot (Some idle) 0]> GlobalScheduler_new).
  assert (Hv : ∀ id, get_task tasks id = if decide (id = TaskId_IDLE) then Some idle else None).
  { intros id. unfold tasks. rewrite get_task_insert by (cbn; lia).
    destruct (decide (slot_index id = 0)) as [He|Hn].
    - destruct id as [i g]. cbn in He. subst i. destruct (Z.eqb_spec 0 g) as [<-|Hg]; [done|].
      cbn [slot_generation]. rewrite (proj2 (Z.eqb_neq 0 g)) by done.
      rewrite decide_False; [done|]. unfold TaskId_IDLE. congruence.
    - rewrite fresh_table_empty, decide_False; [done|]. intros ->. done. }
  eexists _, [], [], [], [], [], cpu.
  assert (Hst : ∀ id, t_state <$> get_task tasks id = if decide (id = TaskId_IDLE) then Some Running else None).
  { intros id. rewrite Hv. by destruct (decide (id = TaskId_IDLE)). }
  split; [split; try done| | |].
  - apply PerCpuQueue_new_repr.
  - apply ReaperQueue_new_repr.
  - apply TombstoneQueue_new_repr.
  - apply SystemTaskQueue_new_repr.
  - apply sleep_new_repr.
  - right. apply (Hst TaskId_IDLE).
  - intros id t Ht. change (get_task tasks id = Some t) in Ht. rewrite Hv in Ht.
    case_decide; [|done]. by injection Ht as <-.
  - intros id Hr. change (t_state <$> get_task tasks id = Some Running) in Hr. rewrite Hst in Hr.
    by case_decide.
  - intros id t Ht. change (get_task tasks id = Some t) in Ht. rewrite Hv in Ht.
    by case_decide.
  - set_solver.
  - set_solver.
  - by left.
  - set_solver.
  - set_solver.
Qed.

Lemma reachable_inv k : reachable k → has_inv k.
Proof.
  induction 1 as [|k _ (c & lq & lr & lt & ls & s & u & B)
    |k w th _ (c & lq & lr & lt & ls & s & u & B)|k ev cpu m k' _ (c & lq & lr & lt & ls & s & u & B) Hev Hsp Hst].
  - by eapply boot_inv.
  - exists c, lq, lr, lt, ls, s, u. destruct B as [[] ? ? ?]. by split; [split|..].
  - exists c, lq, lr, lt, ls, s, u. destruct B as [[] ? ? ?]. split; [split; try done|done..].
    intros id t Ht. cbn. destruct (decide (t_thread t = w)) as [->|]; [rewrite lookup_insert_eq; by eexists|].
    rewrite lookup_insert_ne by done. by apply (w_threads0 id).
  - destruct (step_inv ev cpu m _ _ _ _ _ _ _ _ B Hev Hsp) as (k1 & Hk1 & Hi & _). congruence.
Qed.

(** C1. From every reachable state, every admissible event runs to completion:
    no panic, no missing task or thread, no exhausted loop.  Afterwards the
    current task is in the table, it is the only one that can be [Running], and
    the idle task is still there. *)
Theorem kernel_step_safe (k : Kernel) (ev : event) (cpu : Cpu) (m : mem) :
  reachable k → event_ok k ev → stack_pointer_ok cpu →
  ∃ k' c, step ev cpu m k = Done k' ∧ k_cpu0 k' = Some c ∧
    is_Some (get_task (k_tasks k') (c_current c)) ∧
    is_Some (get_task (k_tasks k') TaskId_IDLE) ∧
    ∀ id t, get_task (k_tasks k') id = Some t → t_state t = Running → id = c_current c.
Proof.
  intros (c & lq & lr & lt & ls & s & u & B)%reachable_inv Hev Hsp.
  destruct (step_inv ev cpu m _ _ _ _ _ _ _ _ B Hev Hsp)
    as (k' & Hk' & (c' & lq' & lr' & lt' & ls' & s' & u' & [W' _ _ _]) & _).
  exists k', c'. destruct W'. split_and!; try done.
  - destruct w_idle0 as [H|H]; by apply state_of_dead_alive in H.
  - intros id t Ht Hr. apply w_running0. by rewrite (state_of_some _ _ _ Ht), Hr.
Qed.

(** C3. A task's stack is freed only when the task is [Dead] and not running:
    if an event removes a task from the table, the task was [Dead] before
    the event, and it was not the task the processor was executing. *)
Theorem only_dead_tasks_freed (k k' : Kernel) (ev : event) (cpu : Cpu) (m : mem) (c : CpuSlot)
    (id : TaskId) (t : Task) :
  reachable k → event_ok k ev → stack_pointer_ok cpu → step ev cpu m k = Done k' →
  k_cpu0 k = Some c →
  get_task (k_tasks k) id = Some t → get_task (k_tasks k') id = None →
  t_state t = Dead ∧ id ≠ c_current c.
Proof.
  intros (c0 & lq & lr & lt & ls & s & u & B)%reachable_inv Hev Hsp Hst Hc Ht Ht'.
  destruct (step_inv ev cpu m _ _ _ _ _ _ _ _ B Hev Hsp) as (k1 & Hk1 & _ & Hfree).
  rewrite Hk1 in Hst. injection Hst as ->.
  assert (c0 = c) as -> by (pose proof (w_cpu0 _ _ _ _ _ _ _ _ (b_winv _ _ _ _ _ _ _ _ B)); congruence).
  assert (Hin : id ∈ lt).
  { apply Hfree; [by eexists|]. rewrite Ht'. by intros [? ?]. }
  pose proof (b_tomb _ _ _ _ _ _ _ _ B id Hin) as Hd. rewrite (state_of_some _ _ _ Ht) in Hd.
  injection Hd as Hd. split; [done|]. intros ->.
  destruct (b_current _ _ _ _ _ _ _ _ B) as [Hi|Hr].
  - apply (w_tomb_idle _ _ _ _ _ _ _ _ (b_winv _ _ _ _ _ _ _ _ B)). congruence.
  - rewrite (state_of_some _ _ _ Ht), Hd in Hr. done.
Qed.

(** The death pipeline takes two timer ticks.  When the running task
    exits (and the reaper queue has room), it is [Dying] and another task
    runs; the next timer interrupt makes it [Dead] and keeps it in the table;
    the one after removes it.  All three events complete. *)
Theorem exit_reaped_in_two_ticks (k : Kernel) (c : CpuSlot) (cpu0 cpu1 cpu2 : Cpu) (m0 m1 m2 : mem) :
  reachable k → k_cpu0 k = Some c → c_current c ≠ TaskId_IDLE → q_len (k_reaper k) < REAPER_QUEUE_SIZE →
  Forall stack_pointer_ok [cpu0; cpu1; cpu2] →
  ∃ k1 k2 k3,
    step EvTaskExit cpu0 m0 k = Done k1 ∧ state_of k1 (c_current c) = Some Dying ∧
    step EvTimer cpu1 m1 k1 = Done k2 ∧ state_of k2 (c_current c) = Some Dead ∧
    step EvTimer cpu2 m2 k2 = Done k3 ∧ get_task (k_tasks k3) (c_current c) = None.
Proof.
  intros (c0 & lq & lr & lt & ls & s & u & B)%reachable_inv Hc Hni Hroom Hsp.
  apply Forall_cons in Hsp as [Hsp0 Hsp]. apply Forall_cons in Hsp as [Hsp1 Hsp]. apply Forall_cons in Hsp as [Hsp2 _].
  assert (c0 = c) as -> by (pose proof (w_cpu0 _ _ _ _ _ _ _ _ (b_winv _ _ _ _ _ _ _ _ B)); congruence).
  pose proof (rr_len _ _ _ _ _ (w_reaper _ _ _ _ _ _ _ _ (b_winv _ _ _ _ _ _ _ _ B))) as Hl.
  apply (binv_machine _ _ _ _ _ _ _ _ cpu0 m0) in B.
  destruct (task_exit_inv _ _ _ _ _ _ _ _ B Hsp0 Hni) as (k1 & c1 & lq1 & lr1 & u1 & Hk1 & B1 & _ & Hin1).
  specialize (Hin1 ltac:(unfold REAPER_QUEUE_SIZE in Hroom; lia)).
  exists k1. pose proof (b_reap _ _ _ _ _ _ _ _ B1 _ Hin1) as Hd1.
  apply (binv_machine _ _ _ _ _ _ _ _ cpu1 m1) in B1.
  destruct (handler_inv _ _ _ _ _ _ _ _ B1 Hsp1) as (k2 & c2 & lq2 & lt2 & s2 & u2 & Hk2 & B2 & [_ Hin2 _]).
  exists k2. pose proof (b_tomb _ _ _ _ _ _ _ _ B2 _ (Hin2 _ Hin1)) as Hd2.
  apply (binv_machine _ _ _ _ _ _ _ _ cpu2 m2) in B2.
  destruct (handler_inv _ _ _ _ _ _ _ _ B2 Hsp2) as (k3 & c3 & lq3 & lt3 & s3 & u3 & Hk3 & _ & [Hd3 _ _]).
  exists k3. split; [exact Hk1|]. split; [done|]. split; [exact Hk2|]. split; [done|]. split; [exact Hk3|].
  destruct (get_task (k_tasks k3) (c_current c)) as [t|] eqn:Ht; [|done].
  exfalso. destruct (Hd3 (c_current c)) as [Hx _]. rewrite Ht in Hx.
  destruct Hx as [_ Hx]; [by eexists|]. by apply Hx, Hin2.
Qed.

(** A condemned task is [Dead] after the next timer interrupt, unless it is gone
    already, and gone after the one that follows. *)
Lemma condemned_reaped k c lq lr lt ls s u id cpu1 cpu2 m1 m2 :
  binv k c lq lr lt ls s u → condemned ls id → (length lr + length ls ≤ 64)%nat →
  stack_pointer_ok cpu1 → stack_pointer_ok cpu2 →
  ∃ k1 k2, step EvTimer cpu1 m1 k = Done k1 ∧ (state_of k1 id = Some Dead ∨ get_task (k_tasks k1) id = None) ∧
    step EvTimer cpu2 m2 k1 = Done k2 ∧ get_task (k_tasks k2) id = None.
Proof.
  intros B Hcon Hroom Hsp1 Hsp2. apply (binv_machine _ _ _ _ _ _ _ _ cpu1 m1) in B.
  destruct (handler_inv _ _ _ _ _ _ _ _ B Hsp1) as (k1 & c1 & lq1 & lt1 & s1 & u1 & Hk1 & B1 & [_ _ Hkill]).
  specialize (Hkill Hroom id Hcon). pose proof (b_tomb _ _ _ _ _ _ _ _ B1 id) as Hdead.
  apply (binv_machine _ _ _ _ _ _ _ _ cpu2 m2) in B1.
  destruct (handler_inv _ _ _ _ _ _ _ _ B1 Hsp2) as (k2 & c2 & lq2 & lt2 & s2 & u2 & Hk2 & _ & [Hdom _ _]).
  exists k1, k2. split; [exact Hk1|]. split; [|split; [exact Hk2|]].
  - destruct (get_task (k_tasks k1) id) as [t|] eqn:Ht; [left; apply Hdead, Hkill; by eexists|by right].
  - apply eq_None_not_Some. intros [Hal Hn]%Hdom. by apply Hn, Hkill.
Qed.

(** C17. A thread that has a task other than the idle one and is not dying already,
    told to exit, is gone two timer interrupts later, whether its task is running,
    ready, blocked or asleep.  [exit_thread] itself only
    queues the kill and changes no task; the next interrupt kills the task and
    makes it [Dead], the one after frees its slot.  The system task queue and
    the reaper queue must have room: neither tells the caller when it has none. *)
Theorem exit_thread_reaped (k : Kernel) (w : Z) (th : Thread) (id : TaskId) (cpu0 cpu1 cpu2 : Cpu) (m0 m1 m2 : mem) :
  reachable k → k_threads k !! w = Some th → th_state th ∉ [ThreadDying; ThreadDead] → th_task_id th = Some id → killable id →
  q_len (k_system k) < MAX_SYSTEM_TASKS → q_len (k_reaper k) + q_len (k_system k) < REAPER_QUEUE_SIZE →
  Forall stack_pointer_ok [cpu0; cpu1; cpu2] →
  ∃ k1 k2 k3,
    step (EvExitThread w) cpu0 m0 k = Done k1 ∧ k_tasks k1 = k_tasks k ∧
    step EvTimer cpu1 m1 k1 = Done k2 ∧ (state_of k2 id = Some Dead ∨ get_task (k_tasks k2) id = None) ∧
    step EvTimer cpu2 m2 k2 = Done k3 ∧ get_task (k_tasks k3) id = None.
Proof.
  intros (c & lq & lr & lt & ls & s & u & B)%reachable_inv Hth Hst Hid Hki Hs Hr Hsp.
  apply Forall_cons in Hsp as [Hsp0 Hsp]. apply Forall_cons in Hsp as [Hsp1 Hsp]. apply Forall_cons in Hsp as [Hsp2 _].
  pose proof (rr_len _ _ _ _ _ (w_reaper _ _ _ _ _ _ _ _ (b_winv _ _ _ _ _ _ _ _ B))) as Hlr.
  pose proof (rr_len _ _ _ _ _ (w_system _ _ _ _ _ _ _ _ (b_winv _ _ _ _ _ _ _ _ B))) as Hls.
  unfold MAX_SYSTEM_TASKS, REAPER_QUEUE_SIZE in *. apply (binv_machine _ _ _ _ _ _ _ _ cpu0 m0) in B.
  set (st := mk_SystemTask task_killer (compress_task_id id)).
  destruct (fifo_push_ok (k_system k) ls st (w_system _ _ _ _ _ _ _ _ (b_winv _ _ _ _ _ _ _ _ B))) as (q & Hq & Hq');
    [change fifo_cap with 32%nat; lia|].
  assert (Hcon : condemned (ls ++ [st]) id) by (exists st; split; [set_solver|done]).
  set (k0 := set_k_mem m0 (set_k_cpu cpu0 k)) in *.
  assert (B1 : binv (set_k_system q k0) c lq lr lt (ls ++ [st]) s cpu0).
  { destruct B as [[] ? ? ?]. split; [split; try done|done..]. apply Forall_app. split; [done|]. apply Forall_singleton. by exists id. }
  destruct (condemned_reaped _ _ _ _ _ _ _ _ id cpu1 cpu2 m1 m2 B1 Hcon) as (k2 & k3 & H2 & Hd2 & H3 & Hg3);
    [rewrite length_app; cbn; lia|done..|].
  exists (set_k_system q k0), k2, k3. split; [|done].
  unfold step. fold k0. unfold exit_thread. change (k_threads k0) with (k_threads k). rewrite Hth. cbn [expect]. rewrite bind_Done.
  unfold Thread_exit. rewrite Hid.
  assert (queue_system_task task_killer (compress_task_id id) k0 = Done (set_k_system q k0)) as Hqs.
  { unfold queue_system_task. change SystemTaskQueue_push with (@fifo_push _ _ _ SystemTaskQueue_fifo).
    change (k_system k0) with (k_system k). fold st. by rewrite Hq, bind_Done. }
  destruct (th_state th); [exact Hqs..|exfalso; apply Hst; set_solver|exfalso; apply Hst; set_solver].
Qed.

(** ** The scheduling pass, the quantum and the idle task *)

(** C7. What one scheduling pass does from a reachable state, on every branch.
    The next task is the first entry of the ready queue that still names a
    [Ready] task, or the idle task; stale entries before it are dropped.  The
    outgoing task, if it was [Running], becomes [Ready] and goes to the tail of
    the queue (the idle task only while the kernel initializes); [switch_to]
    saves its stack pointer and resumes the next task with that task's stack
    pointer and page tables; the quantum is reloaded and [TSS.rsp0] follows
    user tasks.  No other task changes.  The record [scheduled] spells this out. *)
Theorem schedule_spec (k : Kernel) (c : CpuSlot) :
  reachable k → k_cpu0 k = Some c → stack_pointer_ok (k_cpu k) →
  ∃ l t_out t_next sw k' c', fifo_repr (c_queue c) l ∧
    get_task (k_tasks k) (c_current c) = Some t_out ∧
    schedule k = Done (sw, k') ∧ scheduled k c l t_out t_next sw k' c'.
Proof.
  intros (c0 & lq & lr & lt & ls & s & u & [W _ _ _])%reachable_inv Hc Hsp.
  assert (c0 = c) as -> by (pose proof (w_cpu0 _ _ _ _ _ _ _ _ W); congruence).
  destruct (w_current _ _ _ _ _ _ _ _ W) as [t_out Hout].
  assert (is_Some (get_task (k_tasks k) TaskId_IDLE)) as [t_idle Hidle].
  { destruct (w_idle _ _ _ _ _ _ _ _ W) as [H|H]; by apply state_of_dead_alive in H. }
  destruct (schedule_ok k c lq t_out t_idle) as (t_next & sw & k' & c' & Hs & D);
    [apply W|apply W|done|done|unfold stack_pointer_ok in Hsp; lia|].
  exists lq, t_out, t_next, sw, k', c'. split; [apply W|]. by split_and!.
Qed.

(** [n] timer ticks, without the scheduling pass that follows an expired
    quantum. *)
Fixpoint timer_ticks (n : nat) (k : Kernel) : outcome (list bool * Kernel) :=
  match n with
  | O => Done ([], k)
  | S n =>
      '(b, k) ← on_timer_tick k;
      '(bs, k) ← timer_ticks n k;
      Done (b :: bs, k)
  end.

Lemma timer_ticks_inv n k c lq lr lt ls s u :
  binv k c lq lr lt ls s u → c_ticks c = Z.of_nat (S n) →
  ∃ k' c', timer_ticks (S n) k = Done (replicate n false ++ [true], k') ∧
    k_cpu0 k' = Some c' ∧ c_ticks c' = TASK_QUANTUM_TICKS ∧ c_current c' = c_current c.
Proof.
  revert k c lq s. induction n as [|n IH]; intros k c lq s B Hn;
    destruct (on_timer_tick_inv _ _ _ _ _ _ _ _ B) as (b & k1 & c1 & lq1 & s1 & Hk1 & B1 & Hc1 & _ & _ & -> & Ht1).
  - rewrite (proj2 (Z.leb_le _ _)) in * by lia. cbn [timer_ticks]. rewrite Hk1. cbn.
    exists k1, c1. split; [done|]. split; [apply B1|done].
  - rewrite (proj2 (Z.leb_gt _ _)) in * by lia.
    destruct (IH k1 c1 lq1 s1 B1) as (k2 & c2 & Hk2 & Hc2 & Ht2 & Hcc2); [lia|].
    exists k2, c2. split; [|split; [done|split; congruence]].
    change (timer_ticks (S (S n)) k) with
      ('(b, k) ← on_timer_tick k; '(bs, k) ← timer_ticks (S n) k; Done (b :: bs, k)).
    rewrite Hk1. cbn [mbind outcome_bind]. by rewrite Hk2.
Qed.

(** A task keeps the processor for exactly its quantum: with [n] ticks
    left, the first [n - 1] timer ticks ask for no preemption, the [n]-th does
    and the counter is back at a full quantum. *)
Theorem quantum_preempts_on_last_tick (k : Kernel) (c : CpuSlot) (n : nat) :
  reachable k → k_cpu0 k = Some c → c_ticks c = Z.of_nat (S n) →
  ∃ k' c', timer_ticks (S n) k = Done (replicate n false ++ [true], k') ∧
    k_cpu0 k' = Some c' ∧ c_ticks c' = TASK_QUANTUM_TICKS ∧ c_current c' = c_current c.
Proof.
  intros (c0 & lq & lr & lt & ls & s & u & B)%reachable_inv Hc Hn.
  assert (c0 = c) as -> by (pose proof (w_cpu0 _ _ _ _ _ _ _ _ (b_winv _ _ _ _ _ _ _ _ B)); congruence).
  by eapply timer_ticks_inv.
Qed.

Lemma ret_rsp s : rsp (ret s).1 = rsp s.1 ⊞ 8.
Proof. by destruct s. Qed.

Lemma pop_callee_rsp s : rsp (pop_callee s).1 = rsp s.1 ⊞ 8 ⊞ 8 ⊞ 8 ⊞ 8 ⊞ 8 ⊞ 8.
Proof. by destruct s. Qed.

Lemma switch_rsp c m r cr :
  0 ≤ r → r + 56 < W64 → rsp (switch_to c m r cr).2.1 = r + 56.
Proof.
  intros H0 H1. unfold switch_to. cbn [snd]. generalize (push_callee (c, m)). intros s.
  rewrite ret_rsp, pop_callee_rsp. cbn [fst].
  replace (rsp (if cr =? 0 then _ else _)) with r by (by destruct (cr =? 0)).
  u64_exact. lia.
Qed.

(** When the idle task is interrupted while no task is ready and it has
    been switched out before, the pass switches from the idle task to itself:
    it saves the current stack pointer and resumes the frame at the stack
    pointer read before the switch, that is the one saved by the previous
    switch, whatever the idle task has done since. *)
Theorem idle_resumes_stale_frame (k : Kernel) (c : CpuSlot) (t : Task) :
  reachable k → k_cpu0 k = Some c → stack_pointer_ok (k_cpu k) →
  c_current c = TaskId_IDLE → q_len (c_queue c) = 0 →
  get_task (k_tasks k) TaskId_IDLE = Some t → 0 < t_saved_rsp t → t_saved_rsp t + 56 < W64 →
  ∃ k' t', schedule k = Done (true, k') ∧ rsp (k_cpu k') = t_saved_rsp t + 56 ∧
    get_task (k_tasks k') TaskId_IDLE = Some t' ∧ t_saved_rsp t' = rsp (k_cpu k) - 48.
Proof.
  intros (c0 & lq & lr & lt & ls & s & u & [W _ _ _])%reachable_inv Hc Hsp Hcur Hempty Ht Hr Hr'.
  assert (c0 = c) as -> by (pose proof (w_cpu0 _ _ _ _ _ _ _ _ W); congruence).
  pose proof (rr_len _ _ _ _ _ (w_queue _ _ _ _ _ _ _ _ W)) as Hl. destruct lq; [|cbn in Hl; lia].
  destruct (schedule_ok k c [] t t) as (t_next & sw & k' & c' & Hs & D);
    [apply W|apply W|by rewrite Hcur|done|unfold stack_pointer_ok in Hsp; lia|].
  destruct D as [Hn Hsw _ _ _ _ _ Htasks _ Hm _]. cbn in Hn. rewrite Ht in Hn. injection Hn as <-.
  rewrite (proj2 (Z.eqb_neq _ _)) in Hsw by lia. cbn in Hsw. subst sw.
  exists k'. eexists. split; [done|]. split; [|split; [rewrite Htasks, Ht; done|]].
  - apply (f_equal fst) in Hm. cbn [fst] in Hm. rewrite Hm. apply switch_rsp; lia.
  - unfold sched_task. rewrite Hcur. by repeat case_decide.
Qed.

(** ** A small kernel: the idle task and one kernel task *)

Definition demo_threads : gmap Z Thread :=
  {[ 1 := mk_Thread 0 (Some TaskId_IDLE) "Idle" Active 0;
     2 := mk_Thread 1 (Some (mk_TaskId 1 0)) "main" Active 1 ]}.

Definition demo_regs : Cpu := mk_Cpu 0x8000 11 12 13 14 15 16 17 0 0x1000 false.
Definition demo_task : Task :=
  mk_Task TaskId_PENDING Ready 0x23FC0 0x24000 false 0 TASK_QUANTUM_TICKS 0 2 (0x20000, TASK_STACK_SIZE).

Definition demo_fresh : Kernel := fresh_kernel demo_threads demo_regs ∅.
Definition demo_boot_kernel : Kernel := done_or demo_fresh (init_idle 0x100 1 demo_fresh).
Definition demo_next (ev : event) (k : Kernel) : Kernel := done_or k (step ev demo_regs ∅ k).

(** After boot, after the spawn, and after the four ticks that hand the
    processor to the new task. *)
Definition demo_spawned : Kernel := demo_next (EvSpawn demo_task) demo_boot_kernel.
Definition demo_running : Kernel :=
  demo_next EvTimer (demo_next EvTimer (demo_next EvTimer (demo_next EvTimer demo_spawned))).

Definition current_of (k : Kernel) : option TaskId := c_current <$> k_cpu0 k.

Lemma done_or_eq {A} (d : A) (o : outcome A) : is_done o = true → o = Done (done_or d o).
Proof. by destruct o. Qed.

Lemma demo_regs_ok : stack_pointer_ok demo_regs.
Proof. unfold stack_pointer_ok, W64. cbn. lia. Qed.

Lemma demo_boot_reachable : reachable demo_boot_kernel.
Proof.
  eapply (reach_boot demo_threads demo_regs ∅ 0x100 1).
  - by eexists.
  - apply done_or_eq. vm_compute. reflexivity.
Qed.

Lemma demo_next_reachable ev k :
  reachable k → event_ok k ev → is_done (step ev demo_regs ∅ k) = true → reachable (demo_next ev k).
Proof.
  intros Hr Hev Hd. eapply reach_step; [exact Hr|exact Hev|exact demo_regs_ok|]. by apply done_or_eq.
Qed.

Lemma demo_spawn_ok : event_ok demo_boot_kernel (EvSpawn demo_task).
Proof.
  split; [by vm_compute|]. split; [by eexists|]. eexists. split; [vm_compute; reflexivity|].
  vm_compute. reflexivity.
Qed.

Lemma demo_spawned_reachable : reachable demo_spawned.
Proof.
  apply demo_next_reachable; [exact demo_boot_reachable|exact demo_spawn_ok|vm_compute; reflexivity].
Qed.

Lemma demo_running_reachable : reachable demo_running.
Proof.
  repeat (apply demo_next_reachable; [|exact I|vm_compute; reflexivity]). exact demo_spawned_reachable.
Qed.

Definition demo_slot (k : Kernel) : CpuSlot := default PerCpuScheduler_new (k_cpu0 k).

Example demo_current :
  current_of demo_spawned = Some TaskId_IDLE ∧ current_of demo_running = Some (mk_TaskId 1 0).
Proof. vm_compute. split; reflexivity. Qed.

Lemma demo_running_slot : k_cpu0 demo_running = Some (demo_slot demo_running).
Proof. vm_compute. reflexivity. Qed.

Lemma demo_running_not_idle : c_current (demo_slot demo_running) ≠ TaskId_IDLE.
Proof. vm_compute. discriminate. Qed.

Lemma demo_exit_ok : event_ok demo_running EvTaskExit.
Proof. exists (demo_slot demo_running). split; [exact demo_running_slot|exact demo_running_not_idle]. Qed.

Lemma kernel_step_safe_witness :
  ∃ k' c, step EvTaskExit demo_regs ∅ demo_running = Done k' ∧ k_cpu0 k' = Some c ∧
    is_Some (get_task (k_tasks k') (c_current c)) ∧
    is_Some (get_task (k_tasks k') TaskId_IDLE) ∧
    ∀ id t, get_task (k_tasks k') id = Some t → t_state t = Running → id = c_current c.
Proof.
  apply (kernel_step_safe demo_running EvTaskExit demo_regs ∅).
  - exact demo_running_reachable.
  - exact demo_exit_ok.
  - exact demo_regs_ok.
Defined.

Lemma exit_reaped_in_two_ticks_witness :
  ∃ k1 k2 k3,
    step EvTaskExit demo_regs ∅ demo_running = Done k1 ∧
    state_of k1 (c_current (demo_slot demo_running)) = Some Dying ∧
    step EvTimer demo_regs ∅ k1 = Done k2 ∧
    state_of k2 (c_current (demo_slot demo_running)) = Some Dead ∧
    step EvTimer demo_regs ∅ k2 = Done k3 ∧
    get_task (k_tasks k3) (c_current (demo_slot demo_running)) = None.
Proof.
  apply (exit_reaped_in_two_ticks demo_running (demo_slot demo_running) demo_regs demo_regs demo_regs ∅ ∅ ∅).
  - exact demo_running_reachable.
  - exact demo_running_slot.
  - exact demo_running_not_idle.
  - vm_compute. reflexivity.
  - repeat (apply Forall_cons; split; [exact demo_regs_ok|]). apply Forall_nil. exact I.
Defined.

Lemma exit_thread_reaped_witness :
  ∃ k1 k2 k3,
    step (EvExitThread 2) demo_regs ∅ demo_running = Done k1 ∧ k_tasks k1 = k_tasks demo_running ∧
    step EvTimer demo_regs ∅ k1 = Done k2 ∧
    (state_of k2 (mk_TaskId 1 0) = Some Dead ∨ get_task (k_tasks k2) (mk_TaskId 1 0) = None) ∧
    step EvTimer demo_regs ∅ k2 = Done k3 ∧ get_task (k_tasks k3) (mk_TaskId 1 0) = None.
Proof.
  apply (exit_thread_reaped demo_running 2 (mk_Thread 1 (Some (mk_TaskId 1 0)) "main" Active 1) (mk_TaskId 1 0)
    demo_regs demo_regs demo_regs ∅ ∅ ∅).
  - exact demo_running_reachable.
  - vm_compute. reflexivity.
  - cbn. rewrite !elem_of_cons. intros [H|[H|H%not_elem_of_nil]]; [discriminate H|discriminate H|exact H].
  - reflexivity.
  - unfold killable. cbn. repeat split; try lia. discriminate.
  - vm_compute. reflexivity.
  - vm_compute. reflexivity.
  - repeat (apply Forall_cons; split; [exact demo_regs_ok|]). apply Forall_nil. exact I.
Defined.

(** The task has exited and one tick has passed. *)
Definition demo_dead : Kernel := demo_next EvTimer (demo_next EvTaskExit demo_running).

Lemma demo_dead_reachable : reachable demo_dead.
Proof.
  apply demo_next_reachable; [|exact I|vm_compute; reflexivity].
  apply demo_next_reachable; [exact demo_running_reachable|exact demo_exit_ok|vm_compute; reflexivity].
Qed.

Definition demo_dead_task : Task := default demo_task (get_task (k_tasks demo_dead) (mk_TaskId 1 0)).

Lemma only_dead_tasks_freed_witness :
  t_state demo_dead_task = Dead ∧ mk_TaskId 1 0 ≠ c_current (demo_slot demo_dead).
Proof.
  apply (only_dead_tasks_freed demo_dead (demo_next EvTimer demo_dead) EvTimer demo_regs ∅
    (demo_slot demo_dead) (mk_TaskId 1 0) demo_dead_task).
  - exact demo_dead_reachable.
  - exact I.
  - exact demo_regs_ok.
  - apply done_or_eq. vm_compute. reflexivity.
  - vm_compute. reflexivity.
  - vm_compute. reflexivity.
  - vm_compute. reflexivity.
Defined.

Lemma schedule_spec_witness :
  ∃ l t_out t_next sw k' c', fifo_repr (c_queue (demo_slot demo_spawned)) l ∧
    get_task (k_tasks demo_spawned) (c_current (demo_slot demo_spawned)) = Some t_out ∧
    schedule demo_spawned = Done (sw, k') ∧
    scheduled demo_spawned (demo_slot demo_spawned) l t_out t_next sw k' c'.
Proof.
  apply (schedule_spec demo_spawned (demo_slot demo_spawned)).
  - exact demo_spawned_reachable.
  - vm_compute. reflexivity.
  - exact demo_regs_ok.
Defined.

Lemma quantum_preempts_on_last_tick_witness :
  ∃ k' c', timer_ticks 4 demo_running = Done ([false; false; false; true], k') ∧
    k_cpu0 k' = Some c' ∧ c_ticks c' = 4 ∧ c_current c' = c_current (demo_slot demo_running).
Proof.
  apply (quantum_preempts_on_last_tick demo_running (demo_slot demo_running) 3).
  - exact demo_running_reachable.
  - exact demo_running_slot.
  - vm_compute. reflexivity.
Defined.

(** The idle task runs again after the other task is gone. *)
Definition demo_idle : Kernel := demo_next EvTimer demo_dead.

Lemma demo_idle_reachable : reachable demo_idle.
Proof. apply demo_next_reachable; [exact demo_dead_reachable|exact I|vm_compute; reflexivity]. Qed.

Definition demo_idle_task : Task := default demo_task (get_task (k_tasks demo_idle) TaskId_IDLE).

(** The same kernel interrupted at another stack depth. *)
Definition demo_deeper : Cpu := mk_Cpu 0x7000 11 12 13 14 15 16 17 0 0x1000 false.
Definition demo_interrupted : Kernel := done_or demo_idle (step (EvWake TaskId_IDLE) demo_deeper ∅ demo_idle).

Lemma demo_deeper_ok : stack_pointer_ok demo_deeper.
Proof. unfold stack_pointer_ok, W64. cbn. lia. Qed.

Lemma demo_interrupted_reachable : reachable demo_interrupted.
Proof.
  eapply (reach_step demo_idle (EvWake TaskId_IDLE) demo_deeper ∅).
  - exact demo_idle_reachable.
  - exact I.
  - exact demo_deeper_ok.
  - apply done_or_eq. vm_compute. reflexivity.
Qed.

Lemma idle_resumes_stale_frame_witness :
  ∃ k' t', schedule demo_interrupted = Done (true, k') ∧
    rsp (k_cpu k') = t_saved_rsp demo_idle_task + 56 ∧
    get_task (k_tasks k') TaskId_IDLE = Some t' ∧ t_saved_rsp t' = 0x7000 - 48.
Proof.
  apply (idle_resumes_stale_frame demo_interrupted (demo_slot demo_interrupted) demo_idle_task).
  - exact demo_interrupted_reachable.
  - vm_compute. reflexivity.
  - exact demo_deeper_ok.
  - vm_compute. reflexivity.
  - vm_compute. reflexivity.
  - vm_compute. reflexivity.
  - vm_compute. reflexivity.
  - vm_compute. reflexivity.
Defined.

Definition demo_removed : Kernel := done_or demo_spawned (remove_task (mk_TaskId 1 0) demo_spawned).
Definition demo_reused : Kernel :=
  done_or demo_removed (table_run [TInsert demo_task; TRemove (mk_TaskId 1 1); TInsert demo_task] demo_removed).

Lemma stale_id_never_resolves_witness : get_task (k_tasks demo_reused) (mk_TaskId 1 0) = None.
Proof.
  apply (stale_id_never_resolves demo_spawned demo_removed demo_reused (mk_TaskId 1 0)
    (default demo_task (get_task (k_tasks demo_spawned) (mk_TaskId 1 0)))
    [TInsert demo_task; TRemove (mk_TaskId 1 1); TInsert demo_task]).
  - vm_compute. reflexivity.
  - cbn. lia.
  - apply done_or_eq. vm_compute. reflexivity.
  - apply done_or_eq. vm_compute. reflexivity.
  - cbn. lia.
Defined.
