(* ===== verification/SpinLock.v ===== *)
(** * SpinLock.v: spinlocks and interrupt safety

    [src/crap_os/src/spinlock.rs] and the two flag helpers of
    [src/crap_os/src/helper_functions.rs].  Every atomic access, every flag
    instruction and every drop is a step of its own, and the steps of different
    threads, processors and interrupt handlers interleave freely; memory is
    sequentially consistent (the acquire and release orderings of the code are
    what makes the accesses to the data ordered by the accesses to [locked]).
    [Spin] is the plain lock used by threads, [Irq] the interrupt-safe one used
    by tasks and interrupt handlers on several processors. *)

From S2P Require Import Prelude.

Local Open Scope Z_scope.

(** ** The lock word *)

Record SpinLock := mk_SpinLock { locked : bool; data : Z }.

Definition SpinLock_new (d : Z) : SpinLock := mk_SpinLock false d.

(** [compare_exchange(false, true)] *)
Definition try_lock (l : SpinLock) : bool * SpinLock :=
  if locked l then (false, l) else (true, mk_SpinLock true (data l)).

Definition is_locked (l : SpinLock) : bool := locked l.

(** [force_unlock] and the drop of a [SpinLockGuard]. *)
Definition unlock (l : SpinLock) : SpinLock := mk_SpinLock false (data l).

Definition deref_mut (l : SpinLock) (v : Z) : SpinLock := mk_SpinLock (locked l) v.

(** ** The plain lock *)

Module Spin.

(** Where a thread is in [lock] or [try_lock]. *)
Inductive pc :=
| Out
| Attempt (once : bool)  (** at the compare-exchange; [once] in [try_lock] *)
| Wait                   (** at the relaxed load of the inner loop *)
| Held.

Inductive action := ALock | ATryLock | AStep | AWrite (v : Z) | ADrop.

Inductive event := Acquired (t : nat) | Wrote (t : nat) (v : Z) | Released (t : nat).

Definition thread_step (t : nat) (p : pc) (a : action) (l : SpinLock) : option (pc * SpinLock * list event) :=
  match p, a with
  | Out, ALock => Some (Attempt false, l, [])
  | Out, ATryLock => Some (Attempt true, l, [])
  | Attempt once, AStep =>
      match try_lock l with
      | (true, l) => Some (Held, l, [Acquired t])
      | (false, l) => Some (if once then Out else Wait, l, [])
      end
  | Wait, AStep => Some (if is_locked l then Wait else Attempt false, l, [])
  | Held, AWrite v => Some (Held, deref_mut l v, [Wrote t v])
  | Held, ADrop => Some (Out, unlock l, [Released t])
  | _, _ => None
  end.

(** The lock and every thread that uses it. *)
Record state := mk_state { s_lock : SpinLock; s_pc : gmap nat pc }.

Definition pc_of (s : state) (t : nat) : pc := default Out (s_pc s !! t).

Definition init (d : Z) : state := mk_state (SpinLock_new d) ∅.

Definition step (s : state) (ta : nat * action) : option (state * list event) :=
  '(p, l, ev) ← thread_step ta.1 (pc_of s ta.1) ta.2 (s_lock s);
  Some (mk_state l (<[ta.1 := p]> (s_pc s)), ev).

Fixpoint run (s : state) (trace : list (nat * action)) : option (state * list event) :=
  match trace with
  | [] => Some (s, [])
  | ta :: trace =>
      '(s, ev) ← step s ta;
      '(s, evs) ← run s trace;
      Some (s, ev ++ evs)
  end.

(** The abstract mutex: an owner and the data. *)
Definition mutex_step (m : option nat * Z) (e : event) : option (option nat * Z) :=
  match e, m.1 with
  | Acquired t, None => Some (Some t, m.2)
  | Wrote t v, Some o => if decide (o = t) then Some (Some o, v) else None
  | Released t, Some o => if decide (o = t) then Some (None, m.2) else None
  | _, _ => None
  end.

Fixpoint mutex_run (m : option nat * Z) (evs : list event) : option (option nat * Z) :=
  match evs with
  | [] => Some m
  | e :: evs => m ← mutex_step m e; mutex_run m evs
  end.

(** The simulation: [locked] says whether there is an owner, and the owner is
    the one thread in its critical section. *)
Definition simulates (s : state) (m : option nat * Z) : Prop :=
  locked (s_lock s) = bool_decide (is_Some m.1) ∧ data (s_lock s) = m.2 ∧
  ∀ t, pc_of s t = Held ↔ m.1 = Some t.

Lemma mutex_run_app m evs1 evs2 :
  mutex_run m (evs1 ++ evs2) = m' ← mutex_run m evs1; mutex_run m' evs2.
Proof.
  revert m. induction evs1 as [|e evs1 IH]; intros m; [done|]. cbn. destruct (mutex_step m e); [apply IH|done].
Qed.

Lemma pc_of_insert s l t p t' :
  pc_of (mk_state l (<[t := p]> (s_pc s))) t' = if decide (t' = t) then p else pc_of s t'.
Proof. unfold pc_of. cbn. destruct (decide (t' = t)) as [->|]; by simplify_map_eq. Qed.

Lemma step_simulates s m ta s' evs :
  simulates s m → step s ta = Some (s', evs) → ∃ m', mutex_run m evs = Some m' ∧ simulates s' m'.
Proof.
  intros (Hl & Hd & Hp) Hs. destruct ta as [t a]. unfold step in Hs. cbn in Hs. pose proof (Hp t) as Hpt.
  destruct (pc_of s t) eqn:Ht, a; cbn in Hs; try done.
  all: unfold try_lock, is_locked, unlock in Hs; destruct m as [[o|] d]; cbn in Hl; rewrite ?Hl in Hs; cbn in *;
    simplify_eq; unfold simulates; setoid_rewrite pc_of_insert.
  all: match goal with
    | H : Held = Held ↔ _ |- _ => pose proof (proj1 H eq_refl); simplify_eq/=
    | _ => idtac end.
  all: eexists; split; [cbn; by rewrite ?decide_True|].
  all: split_and!; [done..|intros t'; pose proof (Hp t'); case_decide; subst; repeat case_match; naive_solver].
Qed.

Lemma run_simulates s m trace s' evs :
  simulates s m → run s trace = Some (s', evs) → ∃ m', mutex_run m evs = Some m' ∧ simulates s' m'.
Proof.
  revert s m evs. induction trace as [|ta trace IH]; intros s m evs Hm Hr; cbn in Hr.
  { simplify_eq. by exists m. }
  destruct (step s ta) as [[s1 ev]|] eqn:Hs; [|done]. cbn in Hr.
  destruct (run s1 trace) as [[s2 evs2]|] eqn:Hr2; [|done]. cbn in Hr. simplify_eq.
  destruct (step_simulates _ _ _ _ _ Hm Hs) as (m1 & H1 & Hm1).
  destruct (IH _ _ _ Hm1 Hr2) as (m2 & H2 & Hm2). exists m2. rewrite mutex_run_app, H1. done.
Qed.

(** C26. The spinlock is a mutex: whatever the interleaving of any number of
    threads, the acquisitions, writes and releases happen in an order that an
    abstract mutex allows (an acquisition only when nobody owns it, writes and
    releases only by the owner), the data is the last value its owner wrote,
    and the one thread inside its critical section is that owner. *)
Theorem spinlock_refines_mutex (d : Z) (trace : list (nat * action)) (s : state) (evs : list event) :
  run (init d) trace = Some (s, evs) →
  ∃ owner, mutex_run (None, d) evs = Some (owner, data (s_lock s)) ∧
    locked (s_lock s) = bool_decide (is_Some owner) ∧
    ∀ t, pc_of s t = Held ↔ owner = Some t.
Proof.
  intros Hr. destruct (run_simulates (init d) (None, d) trace s evs) as ([o v] & Hm & Hl & Hd & Hp); [|done|].
  { by split_and!. }
  cbn in *. subst. by exists o.
Qed.

Lemma spinlock_refines_mutex_witness :
  ∃ s evs, run (init 5) [(0%nat, ALock); (1%nat, ALock); (0%nat, AStep); (1%nat, AStep); (1%nat, AStep);
      (0%nat, AWrite 6); (0%nat, ADrop); (1%nat, AStep); (1%nat, AStep); (1%nat, AWrite 7)] = Some (s, evs) ∧
  ∃ owner, mutex_run (None, 5) evs = Some (owner, data (s_lock s)) ∧
    locked (s_lock s) = bool_decide (is_Some owner) ∧ ∀ t, pc_of s t = Held ↔ owner = Some t.
Proof.
  eexists _, _. split; [vm_compute; reflexivity|].
  apply (spinlock_refines_mutex 5 [(0%nat, ALock); (1%nat, ALock); (0%nat, AStep); (1%nat, AStep); (1%nat, AStep);
      (0%nat, AWrite 6); (0%nat, ADrop); (1%nat, AStep); (1%nat, AStep); (1%nat, AWrite 7)]).
  vm_compute. reflexivity.
Defined.

End Spin.

(** ** The interrupt-safe lock *)

(** The interrupt flag of RFLAGS, and [cli]. *)
Definition IF_BIT : Z := 9.
Definition interrupts_on (rflags : Z) : bool := Z.testbit rflags IF_BIT.
Definition cli (rflags : Z) : Z := Z.clearbit rflags IF_BIT.

(** [pushfq; pop; cli] and [push; popfq], as functions of RFLAGS: the saved
    value and the new register. *)
Definition disable_interrupts_save (rflags : Z) : Z * Z := (rflags, cli rflags).
Definition restore_interrupts (flags : Z) : Z := flags.

Arguments interrupts_on : simpl never.
Arguments cli : simpl never.

Lemma cli_off r : interrupts_on (cli r) = false.
Proof. apply Z.clearbit_eq. Qed.

Module Irq.

(** Where a task or a handler is in [lock], [try_lock] or the drop of the
    guard; the saved flags are a local variable, then a field of the guard. *)
Inductive pc :=
| Out
| Call (once : bool)               (** before [disable_interrupts_save] *)
| Saved (once : bool) (flags : Z)  (** flags read, [cli] not yet executed *)
| Attempt (once : bool) (flags : Z)
| Wait (flags : Z)
| Busy (flags : Z)                 (** [try_lock] failed, flags not yet restored *)
| Held (flags : Z)
| Dropping (flags : Z)             (** [drop_in_place] done, flags not yet restored *)
| FieldDrop.                       (** the body of [drop] done, its field not yet dropped *)

Inductive action := ALock | ATryLock | AStep | AWrite (v : Z) | ADrop | AInterrupt | AIret | ASwitch (task : nat).

(** One step of [lock] or [try_lock]: the new position, RFLAGS and the lock. *)
Definition acquire_step (p : pc) (rflags : Z) (a : action) (l : SpinLock) : option (pc * Z * SpinLock) :=
  match p, a with
  | Out, ALock => Some (Call false, rflags, l)
  | Out, ATryLock => Some (Call true, rflags, l)
  | Call once, AStep => Some (Saved once (disable_interrupts_save rflags).1, rflags, l)
  | Saved once flags, AStep => Some (Attempt once flags, (disable_interrupts_save rflags).2, l)
  | Attempt once flags, AStep =>
      match try_lock l with
      | (true, l) => Some (Held flags, rflags, l)
      | (false, l) => Some (if once then Busy flags else Wait flags, rflags, l)
      end
  | Wait flags, AStep => Some (if is_locked l then Wait flags else Attempt false flags, rflags, l)
  | Busy flags, AStep => Some (Out, restore_interrupts flags, l)
  | _, _ => None
  end.

(** One step of the owner of a guard: a write, and the drop. *)
Definition guard_step (p : pc) (rflags : Z) (a : action) (l : SpinLock) : option (pc * Z * SpinLock) :=
  match p, a with
  | Held flags, AWrite v => Some (Held flags, rflags, deref_mut l v)
  | Held flags, ADrop => Some (Dropping flags, rflags, unlock l)
  | Dropping flags, AStep => Some (FieldDrop, restore_interrupts flags, l)
  | FieldDrop, AStep => Some (Out, rflags, unlock l)
  | _, _ => None
  end.

Definition code_step (p : pc) (rflags : Z) (a : action) (l : SpinLock) : option (pc * Z * SpinLock) :=
  match p with
  | Held _ | Dropping _ | FieldDrop => guard_step p rflags a l
  | _ => acquire_step p rflags a l
  end.

(** An activation: its position and, for a handler, the RFLAGS its interrupt
    frame saved.  The innermost activation comes first. *)
Record frame := mk_frame { f_pc : pc; f_saved : Z }.
Record task := mk_task { t_rflags : Z; t_frames : list frame }.
Record cpu := mk_cpu { c_current : nat; c_tasks : list task }.

Definition top_pc (t : task) : pc :=
  match t_frames t with f :: _ => f_pc f | [] => Out end.

(** A step of the running task.  Interrupts are delivered while the flag is
    set and run with it cleared; a handler returns when it is outside the
    lock. *)
Definition task_step (t : task) (a : action) (l : SpinLock) : option (task * SpinLock) :=
  match t_frames t with
  | [] => None
  | f :: rest =>
      match a with
      | AInterrupt =>
          if interrupts_on (t_rflags t) then
            Some (mk_task (cli (t_rflags t)) (mk_frame Out (t_rflags t) :: f :: rest), l)
          else None
      | AIret =>
          match f_pc f, rest with
          | Out, _ :: _ => Some (mk_task (f_saved f) rest, l)
          | _, _ => None
          end
      | _ =>
          '(p, r, l) ← code_step (f_pc f) (t_rflags t) a l;
          Some (mk_task r (mk_frame p (f_saved f) :: rest), l)
      end
  end.

(** A step of one processor.  The scheduler switches between tasks outside the
    lock only. *)
Definition cpu_step (c : cpu) (a : action) (l : SpinLock) : option (cpu * SpinLock) :=
  t ← c_tasks c !! c_current c;
  match a with
  | ASwitch i =>
      match top_pc t with
      | Out => _ ← c_tasks c !! i; Some (mk_cpu i (c_tasks c), l)
      | _ => None
      end
  | _ =>
      '(t, l) ← task_step t a l;
      Some (mk_cpu (c_current c) (<[c_current c := t]> (c_tasks c)), l)
  end.

(** The machine: the lock and the processors. *)
Record state := mk_state { s_lock : SpinLock; s_cpus : list cpu }.

Definition step (s : state) (ca : nat * action) : option state :=
  c ← s_cpus s !! ca.1;
  '(c, l) ← cpu_step c ca.2 (s_lock s);
  Some (mk_state l (<[ca.1 := c]> (s_cpus s))).

Fixpoint run (s : state) (trace : list (nat * action)) : option state :=
  match trace with
  | [] => Some s
  | ca :: trace => s ← step s ca; run s trace
  end.

(** Every processor starts with some tasks outside the lock, given by their
    flags. *)
Definition init_cpu (flags : list Z) : cpu := mk_cpu 0 ((λ r, mk_task r [mk_frame Out 0]) <$> flags).
Definition init (d : Z) (cpus : list (list Z)) : state := mk_state (SpinLock_new d) (init_cpu <$> cpus).

(** *** The flags of every activation

    [base] is the RFLAGS an activation started with: outside the lock it still
    has them, inside it has them with interrupts off and keeps the original to
    restore.  Interrupted activations had interrupts on. *)

Definition pc_ok (p : pc) (base r : Z) : Prop :=
  match p with
  | Out | Call _ | FieldDrop => r = base
  | Saved _ flags => flags = base ∧ r = base
  | Attempt _ flags | Wait flags | Busy flags | Held flags | Dropping flags => flags = base ∧ r = cli base
  end.

Fixpoint frames_ok (base r : Z) (fs : list frame) : Prop :=
  match fs with
  | [] => False
  | f :: rest =>
      match rest with
      | [] => pc_ok (f_pc f) base r
      | _ => pc_ok (f_pc f) (cli (f_saved f)) r ∧ interrupts_on (f_saved f) = true ∧ frames_ok base (f_saved f) rest
      end
  end.

Definition cpu_ok (bases : list Z) (c : cpu) : Prop :=
  Forall2 (λ base t, frames_ok base (t_rflags t) (t_frames t)) bases (c_tasks c) ∧
  ∀ i t, c_tasks c !! i = Some t → i ≠ c_current c → top_pc t = Out.

Lemma code_step_ok p r a l p' r' l' base :
  pc_ok p base r → code_step p r a l = Some (p', r', l') → pc_ok p' base r'.
Proof.
  intros Hp Hs. destruct p, a; cbn in *; try done; unfold try_lock, is_locked in *;
    repeat case_match; simplify_eq/=; naive_solver.
Qed.

(** The activation on top can be exchanged for one with the same base. *)
Lemma frames_ok_top base r r' p p' saved rest :
  frames_ok base r (mk_frame p saved :: rest) →
  (∀ b, pc_ok p b r → pc_ok p' b r') → frames_ok base r' (mk_frame p' saved :: rest).
Proof. intros H Hp. destruct rest; cbn in *; naive_solver. Qed.

Lemma task_step_ok base t a l t' l' :
  frames_ok base (t_rflags t) (t_frames t) → task_step t a l = Some (t', l') →
  frames_ok base (t_rflags t') (t_frames t').
Proof.
  intros Ht Hs. unfold task_step in Hs. destruct t as [r [|[p saved] rest]]; [done|]. cbn [t_frames t_rflags f_pc f_saved] in *.
  destruct a.
  6: { destruct (interrupts_on r) eqn:Hi; [|done]. simplify_eq/=. done. }
  6: { destruct p, rest; try done. simplify_eq/=. naive_solver. }
  all: match type of Hs with (code_step ?p ?r ?a ?l ≫= _) = _ => destruct (code_step p r a l) as [[[p' r'] l1]|] eqn:Hc; [|done] end.
  all: simplify_eq/=; eapply (frames_ok_top _ r); [exact Ht|intros b Hb; by eapply code_step_ok].
Qed.

Lemma cpu_step_ok bases c a l c' l' :
  cpu_ok bases c → cpu_step c a l = Some (c', l') → cpu_ok bases c'.
Proof.
  intros [Hf Ho] Hs. unfold cpu_step in Hs. destruct (c_tasks c !! c_current c) as [t|] eqn:Ht; [|done]. cbn in Hs.
  destruct (Forall2_lookup_r _ _ _ _ _ Hf Ht) as (base & Hb & Hok).
  assert (Hrun : ∀ t1 l1, task_step t a l = Some (t1, l1) → cpu_ok bases (mk_cpu (c_current c) (<[c_current c := t1]> (c_tasks c)))).
  { intros t1 l1 Hst. split; cbn.
    - apply (task_step_ok base) in Hst; [|done]. rewrite <- (list_insert_id bases (c_current c) base Hb). by apply Forall2_insert.
    - intros i u Hi Hne. rewrite list_lookup_insert_ne in Hi by done. by eapply Ho. }
  destruct a; try (destruct (task_step t _ l) as [[t1 l1]|] eqn:Hst; [|done]; cbn in Hs; simplify_eq; by eapply Hrun).
  destruct (top_pc t) eqn:Htop; try done. destruct (c_tasks c !! task0) eqn:Hi; [|done]. cbn in Hs. simplify_eq.
  split; [done|]. cbn. intros i u Hu Hne. destruct (decide (i = c_current c)) as [->|]; [congruence|by eapply Ho].
Qed.

Lemma step_ok bases s ca s' :
  Forall2 cpu_ok bases (s_cpus s) → step s ca = Some s' → Forall2 cpu_ok bases (s_cpus s').
Proof.
  intros Hf Hs. unfold step in Hs. destruct (s_cpus s !! ca.1) as [c|] eqn:Hc; [|done]. cbn in Hs.
  destruct (cpu_step c ca.2 (s_lock s)) as [[c' l]|] eqn:Hst; [|done]. cbn in Hs. simplify_eq/=.
  destruct (Forall2_lookup_r _ _ _ _ _ Hf Hc) as (b & Hb & Hok).
  rewrite <- (list_insert_id bases ca.1 b Hb). apply Forall2_insert; [done|]. by eapply cpu_step_ok.
Qed.

Lemma run_ok bases s trace s' :
  Forall2 cpu_ok bases (s_cpus s) → run s trace = Some s' → Forall2 cpu_ok bases (s_cpus s').
Proof.
  revert s. induction trace as [|ca trace IH]; intros s Hf Hr; cbn in Hr; [by simplify_eq|].
  destruct (step s ca) as [s1|] eqn:Hs; [|done]. cbn in Hr. eapply IH; [|done]. by eapply step_ok.
Qed.

Lemma irq_init_ok d cpus : Forall2 cpu_ok cpus (s_cpus (init d cpus)).
Proof.
  cbn. apply Forall2_fmap_r, Forall_Forall2_diag, Forall_true. intros flags. split; cbn.
  - apply Forall2_fmap_r, Forall_Forall2_diag, Forall_true. done.
  - intros i t Hi _. rewrite list_lookup_fmap in Hi. destruct (flags !! i); [|done]. cbn in Hi. by simplify_eq.
Qed.

(** An activation inside the lock runs with interrupts off, so it is on top. *)
Definition inside (p : pc) : Prop :=
  match p with Attempt _ _ | Wait _ | Busy _ | Held _ | Dropping _ => True | _ => False end.

Lemma inside_top base r fs k f :
  frames_ok base r fs → fs !! k = Some f → inside (f_pc f) → k = 0%nat ∧ interrupts_on r = false.
Proof.
  revert r k. induction fs as [|g fs IH]; intros r k Hf Hk Hin; [done|]. destruct k as [|k].
  - injection Hk as ->. split; [done|]. destruct fs as [|h fs]; cbn in Hf;
      destruct (f_pc f); cbn in *; try done; destruct_and?; subst; apply cli_off.
  - destruct fs as [|h fs]; [done|]. cbn in Hf. destruct Hf as (_ & Hi & Hf).
    destruct (IH _ _ Hf Hk Hin) as [_ Hoff]. congruence.
Qed.

Lemma inside_current bases c i t k f :
  cpu_ok bases c → c_tasks c !! i = Some t → t_frames t !! k = Some f → inside (f_pc f) →
  i = c_current c ∧ k = 0%nat ∧ interrupts_on (t_rflags t) = false.
Proof.
  intros [Hf Ho] Ht Hk Hin. destruct (Forall2_lookup_r _ _ _ _ _ Hf Ht) as (base & _ & Hok).
  destruct (inside_top _ _ _ _ _ Hok Hk Hin) as [-> Hoff]. split_and!; [|done|done].
  destruct (decide (i = c_current c)); [done|]. pose proof (Ho i t Ht ltac:(done)) as Hout.
  unfold top_pc in Hout. destruct (t_frames t); [done|]. cbn in Hk. simplify_eq. by rewrite Hout in Hin.
Qed.

(** C27. Interrupt safety, on any number of processors with any number of tasks
    and nested handlers: whoever is spinning for, holding or releasing the lock
    is the innermost activation of the running task of its processor and has
    interrupts off there, so no handler can run on top of it and spin for a
    lock its own processor holds; and a task outside the lock has exactly the
    flags it started with, whatever locking, failed [try_lock] and interrupts
    it has been through. *)
Theorem irq_lock_holder_not_interrupted (d : Z) (flags : list (list Z)) (trace : list (nat * action)) (s : state) :
  run (init d flags) trace = Some s →
  ∀ c cpu i t, s_cpus s !! c = Some cpu → c_tasks cpu !! i = Some t →
    (∀ k f, t_frames t !! k = Some f → inside (f_pc f) →
      i = c_current cpu ∧ k = 0%nat ∧ interrupts_on (t_rflags t) = false) ∧
    (∀ f, t_frames t = [f] → f_pc f = Out → ∃ l, flags !! c = Some l ∧ l !! i = Some (t_rflags t)).
Proof.
  intros Hr c cpu i t Hc Ht. pose proof (run_ok _ _ _ _ (irq_init_ok d flags) Hr) as Hok.
  destruct (Forall2_lookup_r _ _ _ _ _ Hok Hc) as (l & Hl & Hcpu). split.
  - intros k f Hk Hin. by eapply inside_current.
  - intros f Hf Hout. exists l. split; [done|]. destruct (Forall2_lookup_r _ _ _ _ _ (proj1 Hcpu) Ht) as (b & Hb & Hfr).
    rewrite Hf in Hfr. cbn in Hfr. rewrite Hout in Hfr. cbn in Hfr. by subst.
Qed.

Lemma irq_lock_holder_not_interrupted_witness :
  ∃ s, run (init 0 [[0x202]]) [(0%nat, ALock); (0%nat, AStep); (0%nat, AStep); (0%nat, AStep)] = Some s ∧
  ∀ c cpu i t, s_cpus s !! c = Some cpu → c_tasks cpu !! i = Some t →
    (∀ k f, t_frames t !! k = Some f → inside (f_pc f) →
      i = c_current cpu ∧ k = 0%nat ∧ interrupts_on (t_rflags t) = false) ∧
    (∀ f, t_frames t = [f] → f_pc f = Out → ∃ l, [[0x202]] !! c = Some l ∧ l !! i = Some (t_rflags t)).
Proof.
  eexists. split; [vm_compute; reflexivity|].
  apply (irq_lock_holder_not_interrupted 0 [[0x202]] [(0%nat, ALock); (0%nat, AStep); (0%nat, AStep); (0%nat, AStep)]).
  vm_compute. reflexivity.
Defined.

(** *** One processor *)

Definition holds (p : pc) : bool := match p with Held _ => true | _ => false end.

Definition current_pc (c : cpu) : pc :=
  match c_tasks c !! c_current c with Some t => top_pc t | None => Out end.

(** With one processor, the lock word is set exactly while the running code
    is in its critical section. *)
Definition uni_ok (s : state) : Prop :=
  ∃ c, s_cpus s = [c] ∧ locked (s_lock s) = holds (current_pc c).

Lemma code_step_lock p r a l p' r' l' :
  locked l = holds p → code_step p r a l = Some (p', r', l') → locked l' = holds p'.
Proof.
  intros Hl Hs. destruct p, a; cbn in *; try done; unfold try_lock, is_locked, unlock in *;
    rewrite ?Hl in Hs; cbn in Hs; simplify_eq/=; by rewrite ?Hl.
Qed.

Lemma task_step_lock base t a l t' l' :
  frames_ok base (t_rflags t) (t_frames t) →
  locked l = holds (top_pc t) → task_step t a l = Some (t', l') → locked l' = holds (top_pc t').
Proof.
  intros Hf Hl Hs. unfold task_step, top_pc in *. destruct t as [r [|[p saved] rest]]; [done|]. cbn [t_frames t_rflags f_pc f_saved] in *.
  destruct a.
  6: { destruct (interrupts_on r) eqn:Hi; [|done]. simplify_eq/=. rewrite Hl. destruct p; try done.
       destruct (inside_top base r (mk_frame (Held flags) saved :: rest) 0 _ Hf eq_refl I) as [_ Hoff]. congruence. }
  6: { destruct p, rest as [|g rest]; try done. simplify_eq/=. rewrite Hl. destruct Hf as (_ & Hon & Hf).
       change (frames_ok base saved (g :: rest)) in Hf. destruct g as [q gs]. cbn [f_pc]. destruct q; try done.
       destruct (inside_top base saved (mk_frame (Held flags) gs :: rest) 0 _ Hf eq_refl I) as [_ Hoff]. congruence. }
  all: match type of Hs with (code_step ?p ?r ?a ?l ≫= _) = _ => destruct (code_step p r a l) as [[[p' r'] l1]|] eqn:Hc; [|done] end.
  all: simplify_eq/=; by eapply code_step_lock.
Qed.

Lemma cpu_step_lock bases c a l c' l' :
  cpu_ok bases c → locked l = holds (current_pc c) → cpu_step c a l = Some (c', l') →
  locked l' = holds (current_pc c').
Proof.
  intros [Hf Ho] Hl Hs. unfold cpu_step, current_pc in *.
  destruct (c_tasks c !! c_current c) as [t|] eqn:Ht; [|done]. cbn in Hs.
  destruct (Forall2_lookup_r _ _ _ _ _ Hf Ht) as (base & Hb & Hok).
  assert (Hlt : (c_current c < length (c_tasks c))%nat) by (by eapply lookup_lt_Some).
  destruct a; try (destruct (task_step t _ l) as [[t1 l1]|] eqn:Hst; [|done]; cbn in Hs; simplify_eq/=;
    rewrite list_lookup_insert_eq by done; by eapply task_step_lock).
  destruct (top_pc t) eqn:Htop; try done. destruct (c_tasks c !! task0) as [u|] eqn:Hi; [|done]. cbn in Hs. simplify_eq/=.
  rewrite Hi. destruct (decide (task0 = c_current c)) as [->|Hne]; [by simplify_eq; rewrite Htop|].
  by rewrite (Ho _ _ Hi Hne).
Qed.

Lemma run_uni l trace s s' :
  Forall2 cpu_ok [l] (s_cpus s) → uni_ok s → run s trace = Some s' → uni_ok s' ∧ Forall2 cpu_ok [l] (s_cpus s').
Proof.
  revert s. induction trace as [|ca trace IH]; intros s Hok Hu Hr; cbn in Hr; [by simplify_eq|].
  destruct (step s ca) as [s1|] eqn:Hs; [|done]. cbn in Hr. apply (IH s1); [by eapply step_ok| |done].
  destruct Hu as (c & Hc & Hl). unfold step in Hs. rewrite Hc in *.
  destruct ca as [[|k] a]; [|done]. cbn in Hs. destruct (cpu_step c a (s_lock s)) as [[c' l']|] eqn:Hst; [|done].
  cbn in Hs. simplify_eq. exists c'. split; [done|]. cbn. eapply cpu_step_lock; [|done|done].
  by apply Forall2_cons_1 in Hok as [? _].
Qed.

(** On a single processor, which is how the kernel runs, the interrupt-safe
    lock gives mutual exclusion and never waits: with any number of tasks,
    switches and nested handlers, the lock word is set exactly while the running
    code is in its critical section, and whenever the running code is at the
    compare-exchange the lock is free and the next step acquires it. *)
Theorem irq_lock_single_cpu (d : Z) (flags : list Z) (trace : list (nat * action)) (s : state) :
  run (init d [flags]) trace = Some s →
  ∃ c, s_cpus s = [c] ∧ locked (s_lock s) = holds (current_pc c) ∧
    (∀ i t k f, c_tasks c !! i = Some t → t_frames t !! k = Some f → holds (f_pc f) = true →
      i = c_current c ∧ k = 0%nat) ∧
    (∀ once saved, current_pc c = Attempt once saved →
      ∃ s' c', step s (0%nat, AStep) = Some s' ∧ s_cpus s' = [c'] ∧ current_pc c' = Held saved).
Proof.
  intros Hr. destruct (run_uni flags trace (init d [flags]) s) as [(c & Hc & Hl) Hok]; [apply irq_init_ok| |done|].
  { exists (init_cpu flags). split; [done|]. unfold current_pc. cbn. by destruct flags. }
  exists c. rewrite Hc in Hok. apply Forall2_cons_1 in Hok as [Hok _]. split_and!; [done|done|..].
  - intros i t k f Ht Hk Hh. destruct (inside_current _ _ _ _ _ _ Hok Ht Hk) as (? & ? & _); [|done].
    by destruct (f_pc f).
  - intros once saved Hp. unfold step. rewrite Hc. cbn. unfold cpu_step, current_pc in *.
    destruct (c_tasks c !! c_current c) as [t|] eqn:Ht; [|done]. cbn. unfold task_step, top_pc in *.
    destruct (t_frames t) as [|f rest]; [done|]. rewrite Hp in *. cbn. unfold try_lock. rewrite Hl. cbn.
    eexists _, _. split_and!; [done|done|]. cbn.
    rewrite list_lookup_insert_eq by (by eapply lookup_lt_Some). done.
Qed.

Lemma irq_lock_single_cpu_witness :
  ∃ s, run (init 0 [[0x202; 0x202]]) [(0%nat, ALock); (0%nat, AStep); (0%nat, AInterrupt); (0%nat, ALock);
      (0%nat, AStep); (0%nat, AStep)] = Some s ∧
  ∃ c, s_cpus s = [c] ∧ locked (s_lock s) = holds (current_pc c) ∧
    (∀ i t k f, c_tasks c !! i = Some t → t_frames t !! k = Some f → holds (f_pc f) = true →
      i = c_current c ∧ k = 0%nat) ∧
    (∀ once saved, current_pc c = Attempt once saved →
      ∃ s' c', step s (0%nat, AStep) = Some s' ∧ s_cpus s' = [c'] ∧ current_pc c' = Held saved).
Proof.
  eexists. split; [vm_compute; reflexivity|].
  apply (irq_lock_single_cpu 0 [0x202; 0x202] [(0%nat, ALock); (0%nat, AStep); (0%nat, AInterrupt); (0%nat, ALock);
      (0%nat, AStep); (0%nat, AStep)]).
  vm_compute. reflexivity.
Defined.

(** *** Several processors *)

(** The guard releases twice: [drop] drops its [guard] field in place and
    the compiler drops the field again after the body.  With two processors the
    second store can release the lock under its next owner, and both end up in
    their critical sections. *)
Theorem irq_lock_double_release :
  ∃ trace s c0 c1 f0 f1, run (init 0 [[0x202]; [0x202]]) trace = Some s ∧ s_cpus s = [c0; c1] ∧
    current_pc c0 = Held f0 ∧ current_pc c1 = Held f1.
Proof.
  exists [(0%nat, ALock); (0%nat, AStep); (0%nat, AStep); (0%nat, AStep); (0%nat, ADrop); (0%nat, AStep);
          (1%nat, ALock); (1%nat, AStep); (1%nat, AStep); (1%nat, AStep);
          (0%nat, AStep); (0%nat, ALock); (0%nat, AStep); (0%nat, AStep); (0%nat, AStep)].
  eexists _, _, _, _, _. vm_compute. done.
Qed.

End Irq.
