(* ===== verification/Text.v ===== *)
(** * Text.v: the strings of Rust

    A [str] is a sequence of Unicode scalar values in UTF-8, and a value of that
    type with other bytes is undefined behaviour.  [is_str] is that definition
    (RFC 3629); [utf8] is the validation of [core::str::from_utf8], and accepts
    exactly these byte strings.  The kernel's formatting code makes strings with
    both [from_utf8] and [from_utf8_unchecked]. *)

From S2P Require Import Prelude Bytes.

Local Open Scope Z_scope.

(** ** The type *)

Definition scalar (c : Z) : Prop := 0 ≤ c < 0xD800 ∨ 0xE000 ≤ c < 0x110000.

(** The encoding of RFC 3629. *)
Definition encode_utf8 (c : Z) : list Z :=
  if c <? 0x80 then [c]
  else if c <? 0x800 then [0xC0 + c / 64; 0x80 + c mod 64]
  else if c <? 0x10000 then [0xE0 + c / 4096; 0x80 + c / 64 mod 64; 0x80 + c mod 64]
  else [0xF0 + c / 262144; 0x80 + c / 4096 mod 64; 0x80 + c / 64 mod 64; 0x80 + c mod 64].

Definition is_str (bytes : list Z) : Prop := ∃ cs, Forall scalar cs ∧ bytes = cs ≫= encode_utf8.

Definition within (lo hi b : Z) : bool := (lo <=? b) && (b <=? hi).

(** The second byte after a leading byte of three or four. *)
Definition second3 (b0 b1 : Z) : bool :=
  if b0 =? 0xE0 then within 0xA0 0xBF b1
  else if b0 =? 0xED then within 0x80 0x9F b1
  else within 0x80 0xBF b1.

Definition second4 (b0 b1 : Z) : bool :=
  if b0 =? 0xF0 then within 0x90 0xBF b1
  else if b0 =? 0xF4 then within 0x80 0x8F b1
  else within 0x80 0xBF b1.

(** The validation behind [core::str::from_utf8]. *)
Fixpoint utf8 (bytes : list Z) : bool :=
  match bytes with
  | [] => true
  | b0 :: l1 =>
      if within 0 0x7F b0 then utf8 l1
      else match l1 with
      | [] => false
      | b1 :: l2 =>
          if within 0xC2 0xDF b0 then within 0x80 0xBF b1 && utf8 l2
          else match l2 with
          | [] => false
          | b2 :: l3 =>
              if within 0xE0 0xEF b0 then second3 b0 b1 && within 0x80 0xBF b2 && utf8 l3
              else match l3 with
              | [] => false
              | b3 :: l4 =>
                  within 0xF0 0xF4 b0 && second4 b0 b1 && within 0x80 0xBF b2 && within 0x80 0xBF b3 && utf8 l4
              end
          end
      end
  end.

Definition from_utf8 (bytes : list Z) : option (list Z) := if utf8 bytes then Some bytes else None.

(** Undefined behaviour, when it is called on anything but a [str], is a panic
    of the model. *)
Definition from_utf8_unchecked (bytes : list Z) : outcome (list Z) :=
  if utf8 bytes then Done bytes else Panic "undefined behavior: invalid value for `str`".

(** ** Facts *)

Lemma within_spec lo hi b : within lo hi b = true ↔ lo ≤ b ≤ hi.
Proof. unfold within. rewrite andb_true_iff, !Z.leb_le. done. Qed.

Lemma is_str_cons c bytes : scalar c → is_str bytes → is_str (encode_utf8 c ++ bytes).
Proof. intros Hc (cs & Hcs & ->). exists (c :: cs). split; [by constructor|done]. Qed.

Local Ltac div_lia := Z.to_euclidean_division_equations; lia.

(** Decoding the four shapes. *)
Lemma decode1 b0 : within 0 0x7F b0 = true → scalar b0 ∧ [b0] = encode_utf8 b0.
Proof. rewrite within_spec. intros H. unfold scalar, encode_utf8. rewrite (proj2 (Z.ltb_lt b0 0x80)) by lia. split; [lia|done]. Qed.

Lemma decode2 b0 b1 : within 0xC2 0xDF b0 = true → within 0x80 0xBF b1 = true →
  ∃ c, scalar c ∧ [b0; b1] = encode_utf8 c.
Proof.
  rewrite !within_spec. intros H0 H1. exists ((b0 - 0xC0) * 64 + (b1 - 0x80)). unfold scalar, encode_utf8.
  rewrite (proj2 (Z.ltb_ge _ 0x80)), (proj2 (Z.ltb_lt _ 0x800)) by lia. split; [lia|].
  repeat f_equal; div_lia.
Qed.

Lemma decode3 b0 b1 b2 : within 0xE0 0xEF b0 = true → second3 b0 b1 = true → within 0x80 0xBF b2 = true →
  ∃ c, scalar c ∧ [b0; b1; b2] = encode_utf8 c.
Proof.
  rewrite !within_spec. unfold second3. intros H0 H1 H2.
  exists ((b0 - 0xE0) * 4096 + (b1 - 0x80) * 64 + (b2 - 0x80)).
  assert (0x80 ≤ b1 ≤ 0xBF ∧ (b0 = 0xE0 → 0xA0 ≤ b1) ∧ (b0 = 0xED → b1 ≤ 0x9F)) as (Hb & Hlo & Hhi).
  { revert H1. destruct (Z.eqb_spec b0 0xE0); [|destruct (Z.eqb_spec b0 0xED)]; rewrite within_spec; lia. }
  unfold scalar, encode_utf8.
  rewrite (proj2 (Z.ltb_ge _ 0x80)), (proj2 (Z.ltb_ge _ 0x800)), (proj2 (Z.ltb_lt _ 0x10000)) by lia. split; [lia|].
  repeat f_equal; div_lia.
Qed.

Lemma decode4 b0 b1 b2 b3 :
  within 0xF0 0xF4 b0 = true → second4 b0 b1 = true → within 0x80 0xBF b2 = true → within 0x80 0xBF b3 = true →
  ∃ c, scalar c ∧ [b0; b1; b2; b3] = encode_utf8 c.
Proof.
  rewrite !within_spec. unfold second4. intros H0 H1 H2 H3.
  exists ((b0 - 0xF0) * 262144 + (b1 - 0x80) * 4096 + (b2 - 0x80) * 64 + (b3 - 0x80)).
  assert (0x80 ≤ b1 ≤ 0xBF ∧ (b0 = 0xF0 → 0x90 ≤ b1) ∧ (b0 = 0xF4 → b1 ≤ 0x8F)) as (Hb & Hlo & Hhi).
  { revert H1. destruct (Z.eqb_spec b0 0xF0); [|destruct (Z.eqb_spec b0 0xF4)]; rewrite within_spec; lia. }
  unfold scalar, encode_utf8.
  rewrite (proj2 (Z.ltb_ge _ 0x80)), (proj2 (Z.ltb_ge _ 0x800)), (proj2 (Z.ltb_ge _ 0x10000)) by lia. split; [lia|].
  repeat f_equal; div_lia.
Qed.

(** Every accepted byte string is a [str]. *)
Lemma utf8_is_str bytes : utf8 bytes = true → is_str bytes.
Proof.
  induction bytes as [bytes IH] using (induction_ltof1 _ (@length Z)). unfold ltof in IH.
  destruct bytes as [|b0 l1]; [by exists []|]. cbn [utf8].
  destruct (within 0 0x7F b0) eqn:E0.
  { intros H. destruct (decode1 b0 E0) as [Hc Hb]. change (b0 :: l1) with ([b0] ++ l1). rewrite Hb.
    apply is_str_cons, IH; (done || cbn; lia). }
  destruct l1 as [|b1 l2]; [done|]. destruct (within 0xC2 0xDF b0) eqn:E1.
  { intros [H1 H]%andb_true_iff. destruct (decode2 b0 b1 E1 H1) as (c & Hc & Hb).
    change (b0 :: b1 :: l2) with ([b0; b1] ++ l2). rewrite Hb. apply is_str_cons, IH; (done || cbn; lia). }
  destruct l2 as [|b2 l3]; [done|]. destruct (within 0xE0 0xEF b0) eqn:E2.
  { intros [[H1 H2]%andb_true_iff H]%andb_true_iff. destruct (decode3 b0 b1 b2 E2 H1 H2) as (c & Hc & Hb).
    change (b0 :: b1 :: b2 :: l3) with ([b0; b1; b2] ++ l3). rewrite Hb. apply is_str_cons, IH; (done || cbn; lia). }
  destruct l3 as [|b3 l4]; [done|].
  intros [[[[E3 H1]%andb_true_iff H2]%andb_true_iff H3]%andb_true_iff H]%andb_true_iff.
  destruct (decode4 b0 b1 b2 b3 E3 H1 H2 H3) as (c & Hc & Hb).
  change (b0 :: b1 :: b2 :: b3 :: l4) with ([b0; b1; b2; b3] ++ l4). rewrite Hb. apply is_str_cons, IH; (done || cbn; lia).
Qed.

Lemma within_true lo hi b : lo ≤ b ≤ hi → within lo hi b = true.
Proof. by rewrite within_spec. Qed.
Lemma within_false lo hi b : ¬ lo ≤ b ≤ hi → within lo hi b = false.
Proof. intros H. apply not_true_is_false. by rewrite within_spec. Qed.

(** An encoded scalar value is accepted. *)
Lemma utf8_encode c bytes : scalar c → utf8 (encode_utf8 c ++ bytes) = utf8 bytes.
Proof.
  intros Hc. unfold scalar in Hc. unfold encode_utf8.
  destruct (Z.ltb_spec c 0x80); [cbn [app utf8]; by rewrite within_true by lia|].
  destruct (Z.ltb_spec c 0x800).
  { cbn [app utf8].
    rewrite within_false, !within_true; [done|div_lia..]. }
  destruct (Z.ltb_spec c 0x10000).
  { cbn [app utf8]. rewrite !within_false by div_lia.
    rewrite within_true by div_lia.
    rewrite (within_true 0x80 0xBF (0x80 + c mod 64)) by div_lia.
    unfold second3. destruct (Z.eqb_spec (0xE0 + c / 4096) 0xE0); [|destruct (Z.eqb_spec (0xE0 + c / 4096) 0xED)];
      rewrite within_true; (done || div_lia). }
  cbn [app utf8]. rewrite !within_false by div_lia.
  rewrite within_true by div_lia.
  rewrite (within_true 0x80 0xBF (0x80 + c mod 64)) by div_lia.
  rewrite (within_true 0x80 0xBF (0x80 + c / 64 mod 64)) by div_lia.
  unfold second4. destruct (Z.eqb_spec (0xF0 + c / 262144) 0xF0); [|destruct (Z.eqb_spec (0xF0 + c / 262144) 0xF4)];
    rewrite within_true; (done || div_lia).
Qed.

(** [from_utf8] accepts exactly the [str]s. *)
Lemma utf8_spec bytes : utf8 bytes = true ↔ is_str bytes.
Proof.
  split; [apply utf8_is_str|]. intros (cs & Hcs & ->). induction Hcs as [|c cs Hc Hcs IH]; [done|].
  cbn [mbind list_bind]. rewrite utf8_encode; done.
Qed.

(** *** ASCII *)

Definition ascii (b : Z) : Prop := 0 ≤ b < 128.

Lemma utf8_ascii bytes : Forall ascii bytes → utf8 bytes = true.
Proof.
  induction 1 as [|b bytes Hb _ IH]; [done|]. unfold ascii in Hb. cbn [utf8]. by rewrite within_true by lia.
Qed.

Lemma from_utf8_ascii bytes : Forall ascii bytes → from_utf8 bytes = Some bytes.
Proof. intros H. unfold from_utf8. by rewrite utf8_ascii. Qed.

Lemma from_utf8_unchecked_ascii bytes : Forall ascii bytes → from_utf8_unchecked bytes = Done bytes.
Proof. intros H. unfold from_utf8_unchecked. by rewrite utf8_ascii. Qed.

Lemma from_utf8_single b : from_utf8 [b] = if within 0 0x7F b then Some [b] else None.
Proof. unfold from_utf8. cbn [utf8]. by destruct (within 0 0x7F b). Qed.
