(* ===== verification/Process.v ===== *)
(** * Process.v: processes, threads and their manager

    [src/crap_os/src/process_manager/process.rs], [thread.rs] and
    [manager.rs].  A reference-counted object is an entry of a heap map under
    its address: processes in [s_processes], threads in the kernel's
    [k_threads]; a [Weak] is an address.  The addresses the allocator returns
    are arguments of the operations that allocate.  The list locks are not part
    of the state. *)

From S2P Require Import Prelude Machine Pmm Vmm HigherHalf MemoryManager Task Queues SleepQueue Scheduler SchedulerInv Bytes.

Local Open Scope Z_scope.

Record Process := mk_Process {
  p_id : Z;
  p_name : string;
  p_address_space : AddressSpace;
  p_threads : list Z
}.

(** The processes, the manager's list, the two identifier counters, and the
    parts of the kernel they work with. *)
Record System := mk_System {
  s_kernel : Kernel;
  s_mm : MemoryManager;
  s_processes : gmap Z Process;
  s_manager : list Z;
  s_next_pid : Z;
  s_next_tid : Z
}.

Definition set_s_kernel (k : Kernel) (s : System) : System :=
  mk_System k (s_mm s) (s_processes s) (s_manager s) (s_next_pid s) (s_next_tid s).
Definition set_s_processes (ps : gmap Z Process) (s : System) : System :=
  mk_System (s_kernel s) (s_mm s) ps (s_manager s) (s_next_pid s) (s_next_tid s).
Definition set_s_mm (mm : MemoryManager) (s : System) : System :=
  mk_System (s_kernel s) mm (s_processes s) (s_manager s) (s_next_pid s) (s_next_tid s).

Definition ProcessManager_new (k : Kernel) (mm : MemoryManager) : System := mk_System k mm ∅ [] 1 1.

(** ** Identifiers *)

Definition ProcessId_IDLE : Z := 0.
Definition ProcessId_next (s : System) : Z * System :=
  (s_next_pid s, mk_System (s_kernel s) (s_mm s) (s_processes s) (s_manager s) (s_next_pid s ⊞ 1) (s_next_tid s)).

Definition ThreadId_IDLE : Z := 0.
Definition ThreadId_next (s : System) : Z * System :=
  (s_next_tid s, mk_System (s_kernel s) (s_mm s) (s_processes s) (s_manager s) (s_next_pid s) (s_next_tid s ⊞ 1)).

(** ** Threads *)

Definition put_thread (w : Z) (th : Thread) (s : System) : System :=
  set_s_kernel (set_k_threads (<[w := th]> (k_threads (s_kernel s))) (s_kernel s)) s.

Definition Thread_new (w : Z) (name : string) (process : Z) (s : System) : System :=
  let '(id, s) := ThreadId_next s in
  put_thread w (mk_Thread id None name Active process) s.

Definition Thread_new_idle (w process : Z) (s : System) : System :=
  put_thread w (mk_Thread ThreadId_IDLE None "Idle" Active process) s.

(** The last [Arc] of a thread goes out of scope. *)
Definition drop_thread (w : Z) (s : System) : System :=
  set_s_kernel (set_k_threads (delete w (k_threads (s_kernel s))) (s_kernel s)) s.

(** ** Processes *)

Definition put_process (p : Z) (P : Process) (s : System) : System :=
  set_s_processes (<[p := P]> (s_processes s)) s.
Definition drop_process (p : Z) (s : System) : System := set_s_processes (delete p (s_processes s)) s.

Definition Process_new_idle (p cr3 : Z) (s : System) : System :=
  put_process p (mk_Process ProcessId_IDLE "Idle" (AddressSpace_from_existing cr3) []) s.

Definition Process_new_kernel (p : Z) (name : string) (cr3 : Z) (s : System) : System :=
  let '(id, s) := ProcessId_next s in
  put_process p (mk_Process id name (AddressSpace_from_existing cr3) []) s.

Definition Process_new_user (p : Z) (name : string) (kernel_pml4_phys : Z) (s : System) : outcome System :=
  let '(id, s) := ProcessId_next s in
  '(space, mm, m) ← AddressSpace_init (s_mm s) (k_mem (s_kernel s)) kernel_pml4_phys;
  let s := set_s_mm mm (set_s_kernel (set_k_mem m (s_kernel s)) s) in
  Done (put_process p (mk_Process id name space []) s).

Definition pml4_phys (P : Process) : Z := as_pml4_phys (p_address_space P).

Definition push_thread (p w : Z) (s : System) : outcome System :=
  P ← expect "dangling process reference" (s_processes s !! p);
  Done (put_process p (mk_Process (p_id P) (p_name P) (p_address_space P) (p_threads P ++ [w])) s).

(** From [insert_and_queue_task] to the end of both spawn functions. *)
Definition finish_spawn (p w : Z) (task : Task) (s : System) : outcome (result Z SchedulerError * System) :=
  '(r, k) ← insert_and_queue_task task (s_kernel s);
  let s := set_s_kernel k s in
  match r with
  | Err e => Done (Err e, drop_thread w s)
  | Ok task_id =>
      k ← with_thread w (set_th_task_id (Some task_id)) (s_kernel s);
      s ← push_thread p w (set_s_kernel k s);
      Done (Ok w, s)
  end.

(** [w], [stack] and [stub] are the addresses of the new thread, its kernel
    stack and [task_entry_stub]. *)
Definition spawn_kernel_thread (p w stack stub : Z) (name : string) (entry arg : Z) (s : System)
    : outcome (result Z SchedulerError * System) :=
  let s := Thread_new w name p s in
  let '(task, m) := Task_new_kernel (k_mem (s_kernel s)) stack stub entry arg w in
  finish_spawn p w task (set_s_kernel (set_k_mem m (s_kernel s)) s).

Definition spawn_user_thread (p w stack stub : Z) (name : string) (user_entry : Z) (s : System)
    : outcome (result Z SchedulerError * System) :=
  P ← expect "dangling process reference" (s_processes s !! p);
  let s := Thread_new w name p s in
  let '(task, m) := Task_new_user (k_mem (s_kernel s)) stack stub user_entry (p_address_space P) (pml4_phys P) w in
  finish_spawn p w task (set_s_kernel (set_k_mem m (s_kernel s)) s).

Definition remove_thread (p thread_id : Z) (s : System) : outcome System :=
  P ← expect "dangling process reference" (s_processes s !! p);
  let keep w := match k_threads (s_kernel s) !! w with Some th => negb (th_id th =? thread_id) | None => true end in
  Done (put_process p (mk_Process (p_id P) (p_name P) (p_address_space P)
    (base.filter (λ w, keep w = true) (p_threads P))) s).

(** ** The manager *)

Definition register (p : Z) (s : System) : System :=
  mk_System (s_kernel s) (s_mm s) (s_processes s) (s_manager s ++ [p]) (s_next_pid s) (s_next_tid s).

Definition init_idle_process (p w stack cr3 : Z) (s : System) : outcome (Z * System) :=
  let s := Process_new_idle p cr3 s in
  let s := Thread_new_idle w p s in
  k ← with_thread w (set_th_task_id (Some TaskId_IDLE)) (s_kernel s);
  s ← push_thread p w (set_s_kernel k s);
  let s := register p s in
  k ← init_idle stack w (s_kernel s);
  Done (p, set_s_kernel k s).

Definition create_kernel_process (p w stack stub : Z) (name : string) (cr3 main_entry main_arg : Z) (s : System)
    : outcome (result Z SchedulerError * System) :=
  let s := Process_new_kernel p name cr3 s in
  '(r, s) ← spawn_kernel_thread p w stack stub "main" main_entry main_arg s;
  match r with
  | Err e => Done (Err e, drop_process p s)
  | Ok _ => Done (Ok p, register p s)
  end.

Definition create_user_process (p w stack stub : Z) (name : string) (kernel_pml4_phys user_entry : Z) (s : System)
    : outcome (result Z SchedulerError * System) :=
  s ← Process_new_user p name kernel_pml4_phys s;
  '(r, s) ← spawn_user_thread p w stack stub "main" user_entry s;
  match r with
  | Err e => Done (Err e, drop_process p s)
  | Ok _ => Done (Ok p, register p s)
  end.

Definition find_by_name (name : string) (s : System) : option Z :=
  '(_, p) ← list_find (λ p, p_name <$> s_processes s !! p = Some name) (s_manager s); Some p.

(** ** Scheduler events keep the identity of every thread *)

Definition identity (th : Thread) : Z * string * Z := (th_id th, th_name th, th_process th).

Definition threads_kept (m m' : gmap Z Thread) : Prop := ∀ w, identity <$> m' !! w = identity <$> m !! w.

Lemma kept_refl m : threads_kept m m.
Proof. done. Qed.

Lemma kept_trans m1 m2 m3 : threads_kept m1 m2 → threads_kept m2 m3 → threads_kept m1 m3.
Proof. intros H1 H2 w. by rewrite H2, H1. Qed.

Lemma kept_with_thread w f k k' :
  with_thread w f k = Done k' → (∀ th, identity (f th) = identity th) → threads_kept (k_threads k) (k_threads k').
Proof.
  intros Hk Hf. unfold with_thread in Hk. inv_bind. subst k'. intros w'. cbn.
  destruct (decide (w' = w)) as [->|]; simplify_map_eq; cbn; [by rewrite Hf|done].
Qed.

#[local] Opaque threads_kept.
Create HintDb kept.
#[export] Hint Resolve kept_refl : kept.

(** Runs an operation to its result: every case, every intermediate kernel. *)
Ltac unroll :=
  repeat match goal with
    | H : Done _ = Done _ |- _ => injection H; clear H; intros; subst
    | H : (_ ≫= _) = Done _ |- _ =>
        let x := fresh "x" in let H1 := fresh "Hb" in apply bind_done in H as (x & H1 & H)
    | H : expect _ _ = Done _ |- _ => apply expect_done in H
    | H : (match ?x with _ => _ end) = Done _ |- _ => destruct x eqn:?; try discriminate H
    | H : (let _ := _ in _) = Done _ |- _ => cbv zeta in H
    end.

(** Only [set_k_threads] reaches the threads. *)
(** Messages concern no thread. *)
Lemma threads_reaper_warning r k : k_threads (reaper_warning r k) = k_threads k.
Proof. by destruct r. Qed.
Lemma threads_tombstone_warning r k : k_threads (tombstone_warning r k) = k_threads k.
Proof. by destruct r. Qed.

Ltac on_threads :=
  rewrite ?threads_reaper_warning, ?threads_tombstone_warning in *;
  cbn [k_threads put_slot update_task set_k_tasks set_k_cpu0 set_k_init_complete set_k_reaper set_k_tombstone
       set_k_sleep set_k_system set_k_timer_ticks set_k_tss_rsp0 set_k_cpu set_k_mem set_k_serial ksprint] in *.

(** From the steps, each a hypothesis, to the whole. *)
Ltac chain :=
  on_threads;
  repeat match goal with
    | |- context [k_threads (match ?b with _ => _ end)] => destruct b
    | H : context [k_threads (match ?b with _ => _ end)] |- _ => destruct b
    end;
  on_threads; eauto 12 using kept_trans with kept.

Lemma kept_pick_next fuel k id k' : pick_next fuel k = Done (id, k') → threads_kept (k_threads k) (k_threads k').
Proof.
  revert k. induction fuel as [|fuel IH]; intros k Hk; cbn [pick_next] in Hk; [discriminate Hk|].
  unroll; try apply IH in Hk; chain.
Qed.

Lemma kept_requeue id k k' : requeue_outgoing id k = Done k' → threads_kept (k_threads k) (k_threads k').
Proof. unfold requeue_outgoing. intros Hk. unroll; chain. Qed.

Lemma kept_hand_over a b k r k' : hand_over a b k = Done (r, k') → threads_kept (k_threads k) (k_threads k').
Proof. unfold hand_over. intros Hk. unroll; chain. Qed.

Lemma kept_schedule k r k' : schedule k = Done (r, k') → threads_kept (k_threads k) (k_threads k').
Proof.
  unfold schedule. intros Hk. unroll.
  repeat match goal with
  | H : hand_over _ _ _ = _ |- _ => apply kept_hand_over in H
  | H : requeue_outgoing _ _ = _ |- _ => apply kept_requeue in H
  | H : pick_next _ _ = _ |- _ => apply kept_pick_next in H
  end. chain.
Qed.

(** An update of one thread that keeps its identity. *)
Ltac keep_thread :=
  repeat match goal with
  | H : with_thread _ _ _ = Done _ |- _ => apply kept_with_thread in H; [|intros; reflexivity]
  end.

Lemma kept_wake id k r k' : wake id k = Done (r, k') → threads_kept (k_threads k) (k_threads k').
Proof. unfold wake. intros Hk. unroll; keep_thread; chain. Qed.

Lemma kept_wake_discard id k k' : wake_discard id k = Done k' → threads_kept (k_threads k) (k_threads k').
Proof. unfold wake_discard. intros Hk. unroll. by eapply kept_wake. Qed.

Lemma kept_block id k k' : block_current id k = Done k' → threads_kept (k_threads k) (k_threads k').
Proof. unfold block_current. intros Hk. unroll; keep_thread; chain. Qed.

Lemma kept_mark_dying id t k k' : mark_dying id t k = Done k' → threads_kept (k_threads k) (k_threads k').
Proof. unfold mark_dying. intros Hk. keep_thread; chain. Qed.

Lemma kept_queue_reaper id k r k' : queue_task_reaper id k = Done (r, k') → threads_kept (k_threads k) (k_threads k').
Proof. unfold queue_task_reaper. intros Hk. unroll; chain. Qed.

Ltac keep_kill :=
  repeat match goal with
  | H : queue_task_reaper _ _ = _ |- _ => apply kept_queue_reaper in H
  | H : mark_dying _ _ _ = _ |- _ => apply kept_mark_dying in H
  end.

Lemma kept_kill_task n k k' : kill_task n k = Done k' → threads_kept (k_threads k) (k_threads k').
Proof. unfold kill_task, kill_mark. intros Hk. unroll; keep_kill; chain. Qed.

Lemma kept_kill_current k k' : kill_current_task k = Done k' → threads_kept (k_threads k) (k_threads k').
Proof. unfold kill_current_task. intros Hk. unroll; keep_kill; chain. Qed.

Lemma kept_remove id k k' : remove_task id k = Done k' → threads_kept (k_threads k) (k_threads k').
Proof. unfold remove_task. intros Hk. unroll; keep_thread; chain. Qed.

Lemma kept_tombstone fuel k k' : tombstone_loop fuel k = Done k' → threads_kept (k_threads k) (k_threads k').
Proof.
  revert k. induction fuel as [|fuel IH]; intros k Hk; cbn [tombstone_loop] in Hk; [discriminate Hk|].
  unroll; try (apply IH in Hk; match goal with H : remove_task _ _ = _ |- _ => apply kept_remove in H end); chain.
Qed.

Lemma kept_reap fuel k k' : reap_loop fuel k = Done k' → threads_kept (k_threads k) (k_threads k').
Proof.
  revert k. induction fuel as [|fuel IH]; intros k Hk; cbn [reap_loop] in Hk; [discriminate Hk|].
  unroll; try apply IH in Hk; chain.
Qed.

Lemma kept_drain fuel k k' : drain_loop fuel k = Done k' → threads_kept (k_threads k) (k_threads k').
Proof.
  revert k. induction fuel as [|fuel IH]; intros k Hk; cbn [drain_loop] in Hk; [discriminate Hk|].
  unfold run_system_task in Hk.
  unroll; try (apply IH in Hk; match goal with H : kill_task _ _ = _ |- _ => apply kept_kill_task in H end); chain.
Qed.

Lemma kept_tick_loop fuel q k n r q' k' :
  tick_loop wake_discard fuel q k n = Done (r, q', k') → threads_kept (k_threads k) (k_threads k').
Proof.
  revert q k n. induction fuel as [|fuel IH]; intros q k n Hk; cbn [tick_loop] in Hk; [discriminate Hk|].
  unroll; try (apply IH in Hk; match goal with H : wake_discard _ _ = _ |- _ => apply kept_wake_discard in H end); chain.
Qed.

Lemma kept_timer_tick k r k' : on_timer_tick k = Done (r, k') → threads_kept (k_threads k) (k_threads k').
Proof.
  unfold on_timer_tick, tick_sleep_queue, SleepQueue_tick. intros Hk.
  unroll; try match goal with H : tick_loop _ _ _ _ _ = _ |- _ => apply kept_tick_loop in H end; chain.
Qed.

Lemma kept_handler k k' : handler_apic_timer k = Done k' → threads_kept (k_threads k) (k_threads k').
Proof.
  unfold handler_apic_timer, timer_work, timer_schedule, drain_system_tasks, tombstone_cleanup, reap_dying_tasks. intros Hk. unroll.
  all: repeat match goal with
    | H : on_timer_tick _ = _ |- _ => apply kept_timer_tick in H
    | H : drain_loop _ _ = _ |- _ => apply kept_drain in H
    | H : tombstone_loop _ _ = _ |- _ => apply kept_tombstone in H
    | H : reap_loop _ _ = _ |- _ => apply kept_reap in H
    | H : schedule _ = _ |- _ => apply kept_schedule in H
    end; chain.
Qed.

(** New tasks come from the process manager only. *)
Definition not_spawn (ev : event) : Prop := match ev with EvSpawn _ => False | _ => True end.

Lemma kept_step ev cpu m k k' :
  not_spawn ev → step ev cpu m k = Done k' → threads_kept (k_threads k) (k_threads k').
Proof.
  intros Hev Hk. unfold step, yield_blocked, sleep, task_exit, try_kill_current_task, exit_thread, Thread_exit,
    queue_system_task, get_current_task_id in Hk.
  destruct ev; try done; unroll.
  all: repeat match goal with
    | H : handler_apic_timer _ = _ |- _ => apply kept_handler in H
    | H : wake _ _ = _ |- _ => apply kept_wake in H
    | H : block_current _ _ = _ |- _ => apply kept_block in H
    | H : kill_current_task _ = _ |- _ => apply kept_kill_current in H
    | H : schedule _ = _ |- _ => apply kept_schedule in H
    end; keep_kill; chain.
Qed.

#[local] Transparent threads_kept.

Lemma kept_lookup m m' w th' :
  threads_kept m m' → m' !! w = Some th' →
  ∃ th, m !! w = Some th ∧ th_id th = th_id th' ∧ th_process th = th_process th'.
Proof.
  intros H Hw. specialize (H w). rewrite Hw in H. destruct (m !! w) as [th|]; [|done]. exists th. cbn in H.
  injection H as ? ? ?. by split_and!.
Qed.

Lemma kept_sym m m' : threads_kept m m' → threads_kept m' m.
Proof. intros H w. by rewrite H. Qed.

(** ** The structure

    Every process is registered once and owns at least one thread, every
    thread belongs to exactly one process, its back reference and the thread
    lists agree, and no identifier is used twice. *)

Record sys_inv (s : System) : Prop := {
  i_kernel : reachable (s_kernel s);
  i_manager : NoDup (s_manager s);
  i_registered p : p ∈ s_manager s ↔ is_Some (s_processes s !! p);
  i_nonempty p P : s_processes s !! p = Some P → p_threads P ≠ [];
  i_nodup p P : s_processes s !! p = Some P → NoDup (p_threads P);
  i_owns p P w : s_processes s !! p = Some P → w ∈ p_threads P →
    ∃ th, k_threads (s_kernel s) !! w = Some th ∧ th_process th = p;
  i_owned w th : k_threads (s_kernel s) !! w = Some th →
    ∃ P, s_processes s !! th_process th = Some P ∧ w ∈ p_threads P;
  i_pid p P : s_processes s !! p = Some P → 0 ≤ p_id P < s_next_pid s;
  i_pid_unique p p' P P' : s_processes s !! p = Some P → s_processes s !! p' = Some P' → p_id P = p_id P' → p = p';
  i_tid w th : k_threads (s_kernel s) !! w = Some th → 0 ≤ th_id th < s_next_tid s;
  i_tid_unique w w' th th' : k_threads (s_kernel s) !! w = Some th → k_threads (s_kernel s) !! w' = Some th' →
    th_id th = th_id th' → w = w';
  i_counters : 0 < s_next_pid s ∧ 0 < s_next_tid s
}.

(** The memory manager is not part of the structure. *)
Lemma inv_mm s mm : sys_inv s → sys_inv (set_s_mm mm s).
Proof. by intros []. Qed.

(** The threads keep their identities and the scheduler goes on. *)
Lemma inv_event s k' :
  sys_inv s → reachable k' → threads_kept (k_threads (s_kernel s)) (k_threads k') → sys_inv (set_s_kernel k' s).
Proof.
  intros [] Hr Hk. split; cbn; try done.
  - intros p P w HP Hw. destruct (i_owns0 p P w HP Hw) as (th & Hth & Hp).
    destruct (kept_lookup _ _ w th (kept_sym _ _ Hk) Hth) as (th' & Hth' & _ & Hp'). exists th'. split; [done|congruence].
  - intros w th' Hw. destruct (kept_lookup _ _ _ _ Hk Hw) as (th & Hth & _ & Hp).
    destruct (i_owned0 w th Hth) as (P & HP & Hin). exists P. by rewrite <- Hp.
  - intros w th' Hw. destruct (kept_lookup _ _ _ _ Hk Hw) as (th & Hth & Hi & _). rewrite <- Hi. by eapply i_tid0.
  - intros w w' th1' th2' H1 H2 He. destruct (kept_lookup _ _ _ _ Hk H1) as (th1 & Hth1 & Hi1 & _).
    destruct (kept_lookup _ _ _ _ Hk H2) as (th2 & Hth2 & Hi2 & _). eapply i_tid_unique0; [done..|congruence].
Qed.

(** ** Spawning *)

Lemma kernel_eta k : set_k_mem (k_mem k) (set_k_cpu (k_cpu k) k) = k.
Proof. by destruct k. Qed.

(** Registers and memory may change between events. *)
Lemma reachable_machine k cpu m : reachable k → stack_pointer_ok cpu → reachable (set_k_mem m (set_k_cpu cpu k)).
Proof.
  intros Hr Hsp. by apply (reach_step k (EvWake (mk_TaskId (-1) 0)) cpu m).
Qed.

Lemma reachable_mem k m : reachable k → stack_pointer_ok (k_cpu k) → reachable (set_k_mem m k).
Proof. intros Hr Hsp. apply (reachable_machine k (k_cpu k) m Hr) in Hsp. by destruct k. Qed.

Definition room (k : Kernel) : Prop := ∃ c, k_cpu0 k = Some c ∧ q_len (c_queue c) < QUEUE_SIZE.

Lemma insert_reachable t k :
  reachable k → stack_pointer_ok (k_cpu k) → t_saved_rsp t ≠ 0 → is_Some (k_threads k !! t_thread t) → room k →
  ∃ r k', insert_and_queue_task t k = Done (r, k') ∧ reachable k' ∧ k_threads k' = k_threads k ∧
    match r with
    | Ok id => get_task (k_tasks k') id = Some (set_state Ready (set_id id t)) ∧
        (∀ id', id' ≠ id → get_task (k_tasks k') id' = get_task (k_tasks k) id')
    | Err e => e = TaskTableFull ∧ k' = k
    end.
Proof.
  intros Hr Hsp Ht Hth Hroom. pose proof (reachable_inv k Hr) as (c & lq & lr & lt & ls & s & u & B).
  assert (Hlq : (length lq < 256)%nat).
  { destruct Hroom as (c' & Hc' & Hl). pose proof (b_winv _ _ _ _ _ _ _ _ B) as W.
    rewrite (w_cpu0 _ _ _ _ _ _ _ _ W) in Hc'. injection Hc' as <-.
    rewrite (rr_len _ _ _ _ _ (w_queue _ _ _ _ _ _ _ _ W)) in Hl. unfold QUEUE_SIZE in Hl. lia. }
  destruct (spawn_inv _ _ _ _ _ _ _ _ t B Ht Hth Hlq) as (r & k' & Hk & _ & _).
  exists r, k'. split; [done|]. split.
  { apply (reach_step k (EvSpawn t) (k_cpu k) (k_mem k)); [done|by split_and!|done|].
    unfold step. rewrite kernel_eta, Hk. done. }
  unfold insert_and_queue_task in Hk. destruct (insert_task_ok t (k_tasks k)) as [(id & Hins & _ & Hv)|[Hins _]].
  2: { rewrite Hins in Hk. injection Hk as <- <-. done. }
  rewrite Hins in Hk, Hv. cbn [snd] in Hv. unroll. cbn. split; [done|]. split.
  - by rewrite Hv, decide_True.
  - intros id' Hne. by rewrite Hv, decide_False.
Qed.

(** What a spawn does to the system: on success the thread and the task point
    at each other and the thread is the last of its process; when the table is
    full, only the thread counter and the memory have changed. *)
Definition spawned (p w : Z) (name : string) (s : System) (r : result Z SchedulerError) (s' : System) : Prop :=
  reachable (s_kernel s') ∧ s_manager s' = s_manager s ∧ s_next_pid s' = s_next_pid s ∧
  s_next_tid s' = s_next_tid s ⊞ 1 ∧ s_mm s' = s_mm s ∧
  match r with
  | Ok w' => w' = w ∧ ∃ P id t,
      s_processes s !! p = Some P ∧
      s_processes s' = <[p := mk_Process (p_id P) (p_name P) (p_address_space P) (p_threads P ++ [w])]> (s_processes s) ∧
      k_threads (s_kernel s') = <[w := mk_Thread (s_next_tid s) (Some id) name Active p]> (k_threads (s_kernel s)) ∧
      get_task (k_tasks (s_kernel s')) id = Some t ∧ t_thread t = w ∧ t_state t = Ready ∧
      (∀ id', id' ≠ id → get_task (k_tasks (s_kernel s')) id' = get_task (k_tasks (s_kernel s)) id')
  | Err e => e = TaskTableFull ∧ s_processes s' = s_processes s ∧
      k_threads (s_kernel s') = k_threads (s_kernel s) ∧ k_tasks (s_kernel s') = k_tasks (s_kernel s)
  end.

Lemma spawn_ok p w name task m s P :
  reachable (s_kernel s) → stack_pointer_ok (k_cpu (s_kernel s)) → room (s_kernel s) →
  s_processes s !! p = Some P → k_threads (s_kernel s) !! w = None →
  t_saved_rsp task ≠ 0 → t_thread task = w →
  ∃ r s', finish_spawn p w task (set_s_kernel (set_k_mem m (s_kernel (Thread_new w name p s))) (Thread_new w name p s)) =
      Done (r, s') ∧ spawned p w name s r s'.
Proof.
  intros Hr Hsp Hroom HP Hw Ht Htw. unfold finish_spawn, Thread_new, ThreadId_next, put_thread. cbn [s_kernel set_s_kernel].
  set (th := mk_Thread (s_next_tid s) None name Active p).
  set (k1 := set_k_mem m (set_k_threads (<[w := th]> (k_threads (s_kernel s))) (s_kernel s))).
  assert (Hr1 : reachable k1) by (apply reachable_mem; [by apply reach_thread|done]).
  destruct (insert_reachable task k1 Hr1 Hsp Ht) as (r & k' & -> & Hr' & Hth & Hres); [|done|].
  { subst w. cbn. rewrite lookup_insert_eq. by eexists. }
  rewrite bind_Done. cbn [k1 k_threads set_k_mem set_k_threads] in Hth. destruct r as [id|e].
  - destruct Hres as [Hid Hother]. unfold with_thread. cbn [s_kernel set_s_kernel]. rewrite Hth, lookup_insert_eq.
    cbn [expect]. rewrite bind_Done, bind_Done. unfold push_thread. cbn [s_processes set_s_kernel]. rewrite HP.
    cbn [expect]. rewrite bind_Done, bind_Done. eexists _, _. split; [done|]. unfold spawned. cbn. split_and!; try done.
    + rewrite <- Hth. by apply reach_thread.
    + exists P, id, (set_state Ready (set_id id task)). split_and!; try done. by rewrite insert_insert_eq.
  - destruct Hres as [-> ->]. eexists _, _. split; [done|]. unfold spawned. cbn. split_and!; try done.
    + apply reachable_mem with (m := m) in Hr; [|done]. destruct s as [k ? ? ? ? ?]. cbn in *.
      rewrite delete_insert_id by done. destruct k. exact Hr.
    + by rewrite delete_insert_id.
Qed.

(** Stacks lie in the upper part of the address space, far from its ends. *)
Definition stack_ok (stack : Z) : Prop := 4096 ≤ stack ∧ stack + TASK_STACK_SIZE < W64.

Lemma frame_nonzero stack n :
  stack_ok stack → 0 ≤ n ≤ 128 → align16 (align16 (stack ⊞ TASK_STACK_SIZE) ⊟ n) ≠ 0.
Proof.
  unfold stack_ok, TASK_STACK_SIZE. intros [H1 H2] Hn.
  rewrite (u64_small (stack + _)) by lia. rewrite (align16_down (stack + 16 * 1024)) by (unfold in_u64; lia).
  pose proof (Z.mod_pos_bound (stack + 16 * 1024) 16 ltac:(lia)).
  rewrite (u64_small (_ - n)) by lia. rewrite align16_down by (unfold in_u64; lia).
  pose proof (Z.mod_pos_bound (stack + 16 * 1024 - (stack + 16 * 1024) mod 16 - n) 16 ltac:(lia)). lia.
Qed.

Lemma kernel_task_facts m stack stub entry arg w :
  let t := (Task_new_kernel m stack stub entry arg w).1 in
  t_saved_rsp t = align16 (align16 (stack ⊞ TASK_STACK_SIZE) ⊟ 56) ∧ t_thread t = w.
Proof. unfold Task_new_kernel. cbv zeta. cbn [fst t_saved_rsp t_thread]. split; reflexivity. Qed.

Lemma user_task_facts m stack stub entry space cr3 w :
  let t := (Task_new_user m stack stub entry space cr3 w).1 in
  t_saved_rsp t = align16 (align16 (stack ⊞ TASK_STACK_SIZE) ⊟ 96) ∧ t_thread t = w.
Proof. unfold Task_new_user. cbv zeta. cbn [fst t_saved_rsp t_thread]. split; reflexivity. Qed.

Lemma spawn_kernel_ok p w stack stub name entry arg s P :
  reachable (s_kernel s) → stack_pointer_ok (k_cpu (s_kernel s)) → room (s_kernel s) → stack_ok stack →
  s_processes s !! p = Some P → k_threads (s_kernel s) !! w = None →
  ∃ r s', spawn_kernel_thread p w stack stub name entry arg s = Done (r, s') ∧ spawned p w name s r s'.
Proof.
  intros Hr Hsp Hroom Hst HP Hw. unfold spawn_kernel_thread.
  pose proof (kernel_task_facts (k_mem (s_kernel (Thread_new w name p s))) stack stub entry arg w) as Ht. cbv zeta in Ht.
  destruct (Task_new_kernel _ stack stub entry arg w) as [task m]. destruct Ht as [Ht Htw]. cbn [fst] in *.
  apply (spawn_ok p w name task m s P); try assumption. rewrite Ht. apply frame_nonzero; [done|lia].
Qed.

Lemma spawn_user_ok p w stack stub name entry s P :
  reachable (s_kernel s) → stack_pointer_ok (k_cpu (s_kernel s)) → room (s_kernel s) → stack_ok stack →
  s_processes s !! p = Some P → k_threads (s_kernel s) !! w = None →
  ∃ r s', spawn_user_thread p w stack stub name entry s = Done (r, s') ∧ spawned p w name s r s'.
Proof.
  intros Hr Hsp Hroom Hst HP Hw. unfold spawn_user_thread. rewrite HP. cbn [expect]. rewrite bind_Done.
  pose proof (user_task_facts (k_mem (s_kernel (Thread_new w name p s))) stack stub entry (p_address_space P) (pml4_phys P) w) as Ht.
  cbv zeta in *. destruct (Task_new_user _ stack stub entry _ _ w) as [task m]. destruct Ht as [Ht Htw]. cbn [fst] in *.
  apply (spawn_ok p w name task m s P); try assumption. rewrite Ht. apply frame_nonzero; [done|lia].
Qed.

(** ** The structure is kept *)

(** A counter that has not wrapped. *)
Definition counters_ok (s : System) : Prop := s_next_pid s + 1 < W64 ∧ s_next_tid s + 1 < W64.

(** The threads of the new map: the old ones and the new one. *)
Ltac thread_cases H :=
  apply lookup_insert_Some in H as [[? ?]|[? H]]; simplify_eq/=.

Lemma inv_spawn p w name s r s' :
  sys_inv s → counters_ok s → k_threads (s_kernel s) !! w = None → spawned p w name s r s' → sys_inv s'.
Proof.
  intros I [_ Hc] Hw (Hr & Hmgr & Hpid & Htid & _ & Hres). pose proof (i_counters _ I) as [Hc1 Hc2].
  rewrite u64_small in Htid by lia. destruct r as [w'|e].
  2: { destruct Hres as (-> & Hps & Hth & _). destruct I. split; try rewrite Hmgr; try rewrite Hps; try rewrite Hth;
       try rewrite Hpid; try rewrite Htid; try done; [|lia]. intros w0 th0 H0. specialize (i_tid0 w0 th0 H0). lia. }
  destruct Hres as (-> & P & id & t & HP & Hps & Hth & _).
  assert (Hwn : ∀ p' P', s_processes s !! p' = Some P' → w ∉ p_threads P').
  { intros p' P' HP' Hin. destruct (i_owns _ I p' P' w HP' Hin) as (th & ? & _). congruence. }
  split; rewrite ?Hps, ?Hth, ?Hmgr, ?Hpid, ?Htid; [done|apply I|..].
  - intros p'. rewrite (i_registered _ I). destruct (decide (p' = p)) as [->|]; [|by rewrite lookup_insert_ne].
    rewrite HP, lookup_insert_eq. by split; eexists.
  - intros p' P' HP'. thread_cases HP'; [|by eapply (i_nonempty _ I)]. by destruct (p_threads P).
  - intros p' P' HP'. thread_cases HP'; [|by eapply (i_nodup _ I)]. apply NoDup_app.
    split_and!; [by eapply (i_nodup _ I)|set_solver|apply NoDup_singleton].
  - intros p' P' w' HP' Hin. thread_cases HP'.
    + apply elem_of_app in Hin as [Hin|Hin%list_elem_of_singleton]; [|subst; rewrite lookup_insert_eq; by eexists].
      destruct (i_owns _ I _ P w' HP Hin) as (th & Hth' & Hp). exists th. split; [|done].
      rewrite lookup_insert_ne; [done|congruence].
    + destruct (i_owns _ I p' P' w' HP' Hin) as (th & Hth' & Hp). exists th. split; [|done].
      rewrite lookup_insert_ne; [done|congruence].
  - intros w' th Hw'. thread_cases Hw'; [eexists; rewrite lookup_insert_eq; split; [done|]; set_solver|].
    destruct (i_owned _ I w' th Hw') as (P' & HP' & Hin). destruct (decide (th_process th = p)) as [He|].
    + eexists. rewrite He, lookup_insert_eq. split; [done|]. simplify_eq. cbn. apply elem_of_app. left. congruence.
    + exists P'. by rewrite lookup_insert_ne.
  - intros p' P' HP'. thread_cases HP'; by eapply (i_pid _ I).
  - intros p1 p2 P1 P2 H1 H2 He. thread_cases H1; thread_cases H2; try done; by eapply (i_pid_unique _ I).
  - intros w' th Hw'. thread_cases Hw'; [lia|]. pose proof (i_tid _ I w' th Hw'). lia.
  - intros w1 w2 th1 th2 H1 H2 He. thread_cases H1; thread_cases H2; try done.
    + pose proof (i_tid _ I w2 th2 H2). lia.
    + pose proof (i_tid _ I w1 th1 H1). lia.
    + by eapply (i_tid_unique _ I).
  - lia.
Qed.

(** A process that has just been constructed: in the heap, without threads and
    not registered. *)
Definition constructed (p : Z) (P : Process) (s s1 : System) : Prop :=
  s_processes s1 = <[p := P]> (s_processes s) ∧ p_threads P = [] ∧ p_id P = s_next_pid s ∧
  s_next_pid s1 = s_next_pid s ⊞ 1 ∧ s_next_tid s1 = s_next_tid s ∧ s_manager s1 = s_manager s ∧
  k_threads (s_kernel s1) = k_threads (s_kernel s).

Lemma inv_create_ok p w name P s s1 s' :
  sys_inv s → counters_ok s → k_threads (s_kernel s) !! w = None → s_processes s !! p = None →
  constructed p P s s1 → spawned p w name s1 (Ok w) s' → sys_inv (register p s').
Proof.
  intros I [Hc1 Hc2] Hw Hp (Hps1 & Hnil & Hpid1 & Hn1 & Hn2 & Hm1 & Hth1) (Hr & Hmgr & Hpid & Htid & _ & _ & Q & id & t & HQ & Hps & Hth & _).
  pose proof (i_counters _ I) as [Hd1 Hd2]. rewrite Hn1 in Hpid. rewrite Hn2 in *.
  rewrite u64_small in Hpid, Htid by lia. rewrite Hps1, lookup_insert_eq in HQ. injection HQ as <-.
  rewrite Hps1, insert_insert_eq, Hnil in Hps. cbn [app] in Hps. rewrite Hth1 in Hth. rewrite Hm1 in Hmgr.
  assert (Hpm : p ∉ s_manager s) by (rewrite (i_registered _ I), Hp; by intros [? ?]).
  split; cbn [s_kernel s_mm s_processes s_manager s_next_pid s_next_tid register];
    rewrite ?Hps, ?Hth, ?Hmgr, ?Hpid, ?Htid; [done|..].
  - apply NoDup_app. split_and!; [apply I|set_solver|apply NoDup_singleton].
  - intros p'. rewrite elem_of_app, list_elem_of_singleton, (i_registered _ I). destruct (decide (p' = p)) as [->|].
    + rewrite lookup_insert_eq. split; [by eexists|by right].
    + rewrite lookup_insert_ne by done. naive_solver.
  - intros p' P' HP'. thread_cases HP'; [done|]. by eapply (i_nonempty _ I).
  - intros p' P' HP'. thread_cases HP'; [apply NoDup_singleton|by eapply (i_nodup _ I)].
  - intros p' P' w' HP' Hin. thread_cases HP'.
    + apply list_elem_of_singleton in Hin. subst. rewrite lookup_insert_eq. by eexists.
    + destruct (i_owns _ I p' P' w' HP' Hin) as (th & Hth' & Hp'). exists th. split; [|done].
      rewrite lookup_insert_ne; [done|congruence].
  - intros w' th Hw'. thread_cases Hw'; [eexists; rewrite lookup_insert_eq; split; [done|]; set_solver|].
    destruct (i_owned _ I w' th Hw') as (P' & HP' & Hin). exists P'. rewrite lookup_insert_ne; [done|congruence].
  - intros p' P' HP'. thread_cases HP'; [lia|]. pose proof (i_pid _ I p' P' HP'). lia.
  - intros p1 p2 P1 P2 H1 H2 He. thread_cases H1; thread_cases H2; try done.
    + pose proof (i_pid _ I p2 P2 H2). lia.
    + pose proof (i_pid _ I p1 P1 H1). lia.
    + by eapply (i_pid_unique _ I).
  - intros w' th Hw'. thread_cases Hw'; [lia|]. pose proof (i_tid _ I w' th Hw'). lia.
  - intros w1 w2 th1 th2 H1 H2 He. thread_cases H1; thread_cases H2; try done.
    + pose proof (i_tid _ I w2 th2 H2). lia.
    + pose proof (i_tid _ I w1 th1 H1). lia.
    + by eapply (i_tid_unique _ I).
  - lia.
Qed.

Lemma inv_create_err p w name P s s1 e s' :
  sys_inv s → counters_ok s → s_processes s !! p = None →
  constructed p P s s1 → spawned p w name s1 (Err e) s' → sys_inv (drop_process p s').
Proof.
  intros I [Hc1 Hc2] Hp (Hps1 & Hnil & Hpid1 & Hn1 & Hn2 & Hm1 & Hth1) (Hr & Hmgr & Hpid & Htid & _ & _ & Hps & Hth & _).
  pose proof (i_counters _ I) as [Hd1 Hd2]. rewrite Hn1 in Hpid. rewrite Hn2 in *.
  rewrite u64_small in Hpid, Htid by lia. rewrite Hps1 in Hps. rewrite Hth1 in Hth. rewrite Hm1 in Hmgr.
  destruct I. split; cbn [s_kernel s_mm s_processes s_manager s_next_pid s_next_tid drop_process set_s_processes];
    rewrite ?Hps, ?Hth, ?Hmgr, ?Hpid, ?Htid, ?delete_insert_id by done; try done; [..|lia].
  - intros p' P' HP'. specialize (i_pid0 p' P' HP'). lia.
  - intros w' th' Hw'. specialize (i_tid0 w' th' Hw'). lia.
Qed.

(** ** The operations of the manager *)

(** When a process or thread may be created: the addresses are fresh, the
    counters have not wrapped, and the ready queue has room (a full queue
    panics in [insert_and_queue_task]). *)
Record may_spawn (w stack : Z) (s : System) : Prop := {
  ms_thread : k_threads (s_kernel s) !! w = None;
  ms_stack : stack_ok stack;
  ms_counters : counters_ok s;
  ms_rsp : stack_pointer_ok (k_cpu (s_kernel s));
  ms_room : room (s_kernel s)
}.

(** What both creation functions promise. *)
Definition created (p w : Z) (name : string) (s : System) (r : result Z SchedulerError) (s' : System) : Prop :=
  sys_inv s' ∧
  match r with
  | Ok p' => p' = p ∧ s_manager s' = s_manager s ++ [p] ∧
      (∃ P, s_processes s' !! p = Some P ∧ p_name P = name ∧ p_id P = s_next_pid s ∧ p_threads P = [w]) ∧
      (∀ q, q ≠ p → s_processes s' !! q = s_processes s !! q)
  | Err e => e = TaskTableFull ∧ s_manager s' = s_manager s ∧ s_processes s' = s_processes s ∧
      k_threads (s_kernel s') = k_threads (s_kernel s) ∧ k_tasks (s_kernel s') = k_tasks (s_kernel s)
  end.

Lemma create_ok p w name P s s1 r s2 :
  sys_inv s → counters_ok s → k_threads (s_kernel s) !! w = None → s_processes s !! p = None →
  constructed p P s s1 → p_name P = name → k_tasks (s_kernel s1) = k_tasks (s_kernel s) → spawned p w "main" s1 r s2 →
  created p w name s (match r with Ok _ => Ok p | Err e => Err e end)
    (match r with Ok _ => register p s2 | Err e => drop_process p s2 end).
Proof.
  intros I Hc Hw Hp Hcon Hname Htasks Hsp. destruct r as [w'|e].
  - pose proof Hsp as (_ & Hmgr & _ & _ & _ & -> & Q & id & t & HQ & Hps & _).
    split; [by eapply inv_create_ok|]. destruct Hcon as (Hps1 & Hnil & Hpid1 & _ & _ & Hm1 & _).
    rewrite Hps1, lookup_insert_eq in HQ. injection HQ as <-. rewrite Hps1, insert_insert_eq, Hnil in Hps.
    cbn. rewrite Hps, Hmgr, Hm1. split_and!; [done|done| |intros q Hq; by rewrite lookup_insert_ne].
    eexists. rewrite lookup_insert_eq. by split_and!.
  - pose proof Hsp as (_ & Hmgr & _ & _ & _ & -> & Hps & Hth & Htk).
    split; [by eapply inv_create_err|]. destruct Hcon as (Hps1 & _ & _ & _ & _ & Hm1 & Hth1).
    cbn. rewrite Hps, Hps1, delete_insert_id by done. split_and!; congruence.
Qed.

Lemma create_kernel_ok p w stack stub name cr3 entry arg s :
  sys_inv s → may_spawn w stack s → s_processes s !! p = None →
  ∃ r s', create_kernel_process p w stack stub name cr3 entry arg s = Done (r, s') ∧ created p w name s r s'.
Proof.
  intros I [] Hp. unfold create_kernel_process.
  set (P := mk_Process (s_next_pid s) name (AddressSpace_from_existing cr3) []).
  assert (Hcon : constructed p P s (Process_new_kernel p name cr3 s)) by (by split_and!).
  destruct (spawn_kernel_ok p w stack stub "main" entry arg (Process_new_kernel p name cr3 s) P) as (r & s2 & -> & Hsp);
    try done; [apply I|apply lookup_insert_eq|]. rewrite bind_Done.
  pose proof (create_ok p w name P s _ r s2 I ms_counters0 ms_thread0 Hp Hcon eq_refl eq_refl Hsp) as H.
  destruct r; eauto.
Qed.

Lemma create_user_ok p w stack stub name kernel_pml4 entry s space mm m :
  sys_inv s → may_spawn w stack s → s_processes s !! p = None →
  AddressSpace_init (s_mm s) (k_mem (s_kernel s)) kernel_pml4 = Done (space, mm, m) →
  ∃ r s', create_user_process p w stack stub name kernel_pml4 entry s = Done (r, s') ∧ created p w name s r s' ∧
    s_mm s' = mm.
Proof.
  intros I [] Hp Has. unfold create_user_process, Process_new_user. cbn [ProcessId_next s_mm s_kernel].
  rewrite Has, bind_Done. cbv zeta. rewrite bind_Done.
  set (P := mk_Process (s_next_pid s) name space []). set (s1 := put_process p P _).
  assert (Hcon : constructed p P s s1) by (by split_and!).
  assert (Hr1 : reachable (s_kernel s1)) by (apply reachable_mem; [apply I|done]).
  destruct (spawn_user_ok p w stack stub "main" entry s1 P) as (r & s2 & -> & Hsp); try done; [apply lookup_insert_eq|].
  rewrite bind_Done. pose proof (create_ok p w name P s _ r s2 I ms_counters0 ms_thread0 Hp Hcon eq_refl eq_refl Hsp) as H.
  pose proof Hsp as (_ & _ & _ & _ & Hmm & _).
  destruct r; eexists _, _; (split; [done|]); (split; [exact H|]); exact Hmm.
Qed.

(** The kernel before the manager runs. *)
Definition boot_system (cpu : Cpu) (m : mem) (mm : MemoryManager) : System :=
  ProcessManager_new (fresh_kernel ∅ cpu m) mm.

Lemma init_idle_ok p w stack cr3 cpu m mm :
  ∃ s, init_idle_process p w stack cr3 (boot_system cpu m mm) = Done (p, s) ∧ sys_inv s ∧ find_by_name "Idle" s = Some p.
Proof.
  set (th := mk_Thread ThreadId_IDLE (Some TaskId_IDLE) "Idle" Active p).
  set (ths := <[w := th]> (<[w := mk_Thread ThreadId_IDLE None "Idle" Active p]> (∅ : gmap Z Thread))).
  assert (Hths : ths = {[ w := th ]}) by (apply insert_insert_eq).
  destruct (init_idle stack w (fresh_kernel ths cpu m)) as [k| |] eqn:Hk; [|exfalso; done..].
  assert (Hr : reachable k).
  { eapply (reach_boot ths); [|exact Hk]. rewrite Hths, lookup_singleton_eq. by eexists. }
  assert (Hkt : k_threads k = {[ w := th ]}).
  { rewrite <- Hths. unfold init_idle in Hk. cbn [fresh_kernel k_cpu0] in Hk. unroll. done. }
  eexists. split.
  { unfold init_idle_process, Process_new_idle, Thread_new_idle, put_thread, with_thread, push_thread, boot_system.
    cbn [set_s_kernel s_kernel put_process set_s_processes k_threads set_k_threads ProcessManager_new fresh_kernel s_processes].
    rewrite !lookup_insert_eq. cbn [expect]. rewrite !bind_Done.
    change (s_kernel (register p _)) with (fresh_kernel ths cpu m). rewrite Hk, bind_Done. reflexivity. }
  split.
  - split; cbn; rewrite ?Hkt, ?insert_insert_eq; try done.
    + apply NoDup_singleton.
    + intros p'. rewrite list_elem_of_singleton. destruct (decide (p' = p)) as [->|].
      * rewrite lookup_insert_eq. by split; [eexists|].
      * rewrite lookup_insert_ne by done. split; [done|]. intros [? He]. discriminate He.
    + intros p' P' HP'. thread_cases HP'; done.
    + intros p' P' HP'. thread_cases HP'. apply NoDup_singleton.
    + intros p' P' w' HP' Hin. thread_cases HP'. apply list_elem_of_singleton in Hin. subst.
      rewrite lookup_singleton_eq. by eexists.
    + intros w' th' Hw'. apply lookup_singleton_Some in Hw' as [<- <-]. cbn. rewrite lookup_insert_eq.
      eexists. split; [done|]. cbn. set_solver.
    + intros p' P' HP'. thread_cases HP'; done.
    + intros p1 p2 P1 P2 H1 H2 _. thread_cases H1; thread_cases H2; done.
    + intros w' th' Hw'. apply lookup_singleton_Some in Hw' as [<- <-]. cbn. unfold ThreadId_IDLE. lia.
    + intros w1 w2 th1 th2 H1 H2 _. apply lookup_singleton_Some in H1 as [<- _]. by apply lookup_singleton_Some in H2 as [<- _].
  - unfold find_by_name. cbn. by rewrite lookup_insert_eq, decide_True.
Qed.

(** ** Systems the kernel can be in

    Between the events the code that runs may change the registers, the memory
    and the memory manager ([sys_machine]). *)

Inductive system : System → Prop :=
| sys_boot p w stack cr3 cpu m mm s :
    init_idle_process p w stack cr3 (boot_system cpu m mm) = Done (p, s) → system s
| sys_init_complete s : system s → system (set_s_kernel (set_k_init_complete true (s_kernel s)) s)
| sys_machine s cpu mm m :
    system s → stack_pointer_ok cpu →
    system (set_s_mm mm (set_s_kernel (set_k_mem m (set_k_cpu cpu (s_kernel s))) s))
| sys_event s ev cpu m k :
    system s → not_spawn ev → event_ok (s_kernel s) ev → stack_pointer_ok cpu →
    step ev cpu m (s_kernel s) = Done k → system (set_s_kernel k s)
| sys_create_kernel s p w stack stub name cr3 entry arg r s' :
    system s → may_spawn w stack s → s_processes s !! p = None →
    create_kernel_process p w stack stub name cr3 entry arg s = Done (r, s') → system s'
| sys_create_user s p w stack stub name kernel_pml4 entry space mm m r s' :
    system s → may_spawn w stack s → s_processes s !! p = None →
    AddressSpace_init (s_mm s) (k_mem (s_kernel s)) kernel_pml4 = Done (space, mm, m) →
    create_user_process p w stack stub name kernel_pml4 entry s = Done (r, s') → system s'
| sys_spawn_kernel s p w stack stub name entry arg r s' :
    system s → may_spawn w stack s → is_Some (s_processes s !! p) →
    spawn_kernel_thread p w stack stub name entry arg s = Done (r, s') → system s'
| sys_spawn_user s p w stack stub name entry r s' :
    system s → may_spawn w stack s → is_Some (s_processes s !! p) →
    spawn_user_thread p w stack stub name entry s = Done (r, s') → system s'.

Lemma system_inv s : system s → sys_inv s.
Proof.
  induction 1 as [p w stack cr3 cpu m mm s Hb|s _ I|s cpu mm m _ I Hsp|s ev cpu m k _ I Hev Hok Hsp Hst|
    s p w stack stub name cr3 entry arg r s' _ I Hms Hp Hc|s p w stack stub name kp entry space mm m r s' _ I Hms Hp Has Hc|
    s p w stack stub name entry arg r s' _ I Hms [P HP] Hc|s p w stack stub name entry r s' _ I Hms [P HP] Hc].
  - destruct (init_idle_ok p w stack cr3 cpu m mm) as (s0 & Hs0 & I & _). congruence.
  - apply inv_event; [done|apply reach_init_complete, I|apply kept_refl].
  - apply (inv_mm _ mm), inv_event; [done|apply reachable_machine; [apply I|done]|apply kept_refl].
  - apply inv_event; [done| |by eapply kept_step]. eapply reach_step; [apply I|done..].
  - destruct (create_kernel_ok p w stack stub name cr3 entry arg s I Hms Hp) as (r0 & s0 & H0 & I' & _). congruence.
  - destruct (create_user_ok p w stack stub name kp entry s space mm m I Hms Hp Has) as (r0 & s0 & H0 & [I' _] & _). congruence.
  - destruct Hms. destruct (spawn_kernel_ok p w stack stub name entry arg s P) as (r0 & s0 & H0 & Hsp); try done; [apply I|].
    rewrite H0 in Hc. injection Hc as <- <-. by eapply inv_spawn.
  - destruct Hms. destruct (spawn_user_ok p w stack stub name entry s P) as (r0 & s0 & H0 & Hsp); try done; [apply I|].
    rewrite H0 in Hc. injection Hc as <- <-. by eapply inv_spawn.
Qed.

(** C30. The process structure is sound in every system the kernel can be in,
    whatever processes and threads were created or failed to be and whatever
    the scheduler did: the manager lists each process once and every live
    process is listed, no process is without threads, the threads of a process
    name it as their process and every thread is in the list of exactly the
    process it names, and process and thread identifiers are unique. *)
Theorem process_structure (s : System) :
  system s →
  NoDup (s_manager s) ∧ (∀ p, p ∈ s_manager s ↔ is_Some (s_processes s !! p)) ∧
  (∀ p P, s_processes s !! p = Some P → p_threads P ≠ [] ∧ NoDup (p_threads P)) ∧
  (∀ p P w, s_processes s !! p = Some P →
    w ∈ p_threads P ↔ ∃ th, k_threads (s_kernel s) !! w = Some th ∧ th_process th = p) ∧
  (∀ w th, k_threads (s_kernel s) !! w = Some th → is_Some (s_processes s !! th_process th)) ∧
  (∀ p p' P P', s_processes s !! p = Some P → s_processes s !! p' = Some P' → p_id P = p_id P' → p = p') ∧
  (∀ w w' th th', k_threads (s_kernel s) !! w = Some th → k_threads (s_kernel s) !! w' = Some th' →
    th_id th = th_id th' → w = w').
Proof.
  intros I%system_inv. split_and!; try apply I.
  - intros p P HP. split; [by eapply (i_nonempty _ I)|by eapply (i_nodup _ I)].
  - intros p P w HP. split; [by apply (i_owns _ I)|]. intros (th & Hth & <-).
    destruct (i_owned _ I w th Hth) as (P' & HP' & Hin). congruence.
  - intros w th Hth. destruct (i_owned _ I w th Hth) as (P' & HP' & _). by eexists.
Qed.

(** Spawning a thread completes, and either links everything or nothing: on
    success the new thread is the last of its process, active, with the next
    identifier and the identifier of a ready task whose thread it is, and no
    other task changes; when the task table is full the error is returned and
    processes, threads and tasks are as before. *)
Theorem spawn_thread_links (s : System) (p w stack stub : Z) (name : string) (entry arg : Z) :
  system s → may_spawn w stack s → is_Some (s_processes s !! p) →
  ∃ r s', spawn_kernel_thread p w stack stub name entry arg s = Done (r, s') ∧
    match r with
    | Ok w' => w' = w ∧ ∃ P id t,
        s_processes s !! p = Some P ∧ p_threads <$> s_processes s' !! p = Some (p_threads P ++ [w]) ∧
        k_threads (s_kernel s') !! w = Some (mk_Thread (s_next_tid s) (Some id) name Active p) ∧
        get_task (k_tasks (s_kernel s')) id = Some t ∧ t_thread t = w ∧ t_state t = Ready ∧
        ∀ id', id' ≠ id → get_task (k_tasks (s_kernel s')) id' = get_task (k_tasks (s_kernel s)) id'
    | Err e => e = TaskTableFull ∧ s_processes s' = s_processes s ∧
        k_threads (s_kernel s') = k_threads (s_kernel s) ∧ k_tasks (s_kernel s') = k_tasks (s_kernel s)
    end.
Proof.
  intros I%system_inv [] [P HP].
  destruct (spawn_kernel_ok p w stack stub name entry arg s P) as (r & s' & H & Hsp); try done; [apply I|].
  exists r, s'. split; [done|]. destruct Hsp as (_ & _ & _ & _ & _ & Hres). destruct r as [w'|e]; [|done].
  destruct Hres as (-> & Q & id & t & HQ & Hps & Hth & Ht & Htw & Hst & Hother).
  split; [done|]. exists Q, id, t. rewrite Hps, Hth, !lookup_insert_eq. by split_and!.
Qed.

(** Creating a process completes and is all or nothing: on success the
    process is registered behind the others, under a fresh identifier, with the
    one thread it was given; when the task table is full the error is returned
    and no process, thread or task is left behind. *)
Theorem create_process_atomic (s : System) (p w stack stub : Z) (name : string) (cr3 entry arg : Z) :
  system s → may_spawn w stack s → s_processes s !! p = None →
  ∃ r s', create_kernel_process p w stack stub name cr3 entry arg s = Done (r, s') ∧
    match r with
    | Ok p' => p' = p ∧ s_manager s' = s_manager s ++ [p] ∧
        (∃ P, s_processes s' !! p = Some P ∧ p_name P = name ∧ p_id P = s_next_pid s ∧ p_threads P = [w]) ∧
        ∀ q, q ≠ p → s_processes s' !! q = s_processes s !! q
    | Err e => e = TaskTableFull ∧ s_manager s' = s_manager s ∧ s_processes s' = s_processes s ∧
        k_threads (s_kernel s') = k_threads (s_kernel s) ∧ k_tasks (s_kernel s') = k_tasks (s_kernel s)
    end.
Proof.
  intros I%system_inv Hms Hp.
  destruct (create_kernel_ok p w stack stub name cr3 entry arg s I Hms Hp) as (r & s' & H & _ & Hres). by exists r, s'.
Qed.

(** Spawning a thread does not touch the memory manager. *)
Lemma finish_spawn_mm p w task s r s' : finish_spawn p w task s = Done (r, s') → s_mm s' = s_mm s.
Proof. unfold finish_spawn, push_thread. intros H. unroll; done. Qed.

Lemma spawn_user_mm p w stack stub name entry s r s' :
  spawn_user_thread p w stack stub name entry s = Done (r, s') → s_mm s' = s_mm s.
Proof.
  unfold spawn_user_thread. intros H. apply bind_done in H as (P & _ & H). cbv zeta in H.
  destruct (Task_new_user _ stack stub entry _ _ w) as [task m]. by apply finish_spawn_mm in H.
Qed.

(** A user process that cannot be created keeps its memory: when the task
    table is full, the process is dropped and the memory manager stays as the
    address space's construction left it, with the PML4, the stack pages and
    their tables still allocated and no process to free them. *)
Theorem failed_user_process_leaks (s : System) (p w stack stub : Z) (name : string) (kernel_pml4 entry : Z)
    (space : AddressSpace) (mm : MemoryManager) (m : mem) (e : SchedulerError) (s' : System) :
  AddressSpace_init (s_mm s) (k_mem (s_kernel s)) kernel_pml4 = Done (space, mm, m) →
  create_user_process p w stack stub name kernel_pml4 entry s = Done (Err e, s') →
  s_mm s' = mm ∧ s_processes s' !! p = None.
Proof.
  intros Has Hc. unfold create_user_process, Process_new_user in Hc. cbn [ProcessId_next s_mm s_kernel] in Hc.
  rewrite Has, bind_Done in Hc. cbv zeta in Hc. rewrite bind_Done in Hc. apply bind_done in Hc as ([r s2] & Hsp & Hc).
  apply spawn_user_mm in Hsp. destruct r; [done|]. injection Hc as <- <-.
  split; [exact Hsp|apply lookup_delete_eq].
Qed.

(** ** A run *)

Definition demo_system : System :=
  match init_idle_process 0x500 0x600 0x100 0x1000 (boot_system demo_regs ∅ demo_manager) with
  | Done (_, s) => s
  | _ => ProcessManager_new demo_fresh demo_manager
  end.

Lemma demo_system_boot : init_idle_process 0x500 0x600 0x100 0x1000 (boot_system demo_regs ∅ demo_manager) = Done (0x500, demo_system).
Proof.
  destruct (init_idle_ok 0x500 0x600 0x100 0x1000 demo_regs ∅ demo_manager) as (s & Hs & _).
  unfold demo_system. rewrite Hs. reflexivity.
Qed.

Lemma demo_system_ok : system demo_system.
Proof. eapply sys_boot. exact demo_system_boot. Qed.

Lemma demo_may_spawn : may_spawn 0x700 0x20000 demo_system.
Proof.
  split.
  - vm_compute. reflexivity.
  - unfold stack_ok, TASK_STACK_SIZE, W64. lia.
  - unfold counters_ok, W64. vm_compute. split; reflexivity.
  - unfold stack_pointer_ok, W64. vm_compute. split; reflexivity.
  - eexists. split; [vm_compute; reflexivity|]. vm_compute. reflexivity.
Qed.

Lemma process_structure_witness : NoDup (s_manager demo_system) ∧
  (∀ p, p ∈ s_manager demo_system ↔ is_Some (s_processes demo_system !! p)).
Proof.
  destruct (process_structure demo_system demo_system_ok) as (H1 & H2 & _). exact (conj H1 H2).
Defined.

Lemma spawn_thread_links_witness :
  ∃ r s', spawn_kernel_thread 0x500 0x700 0x20000 0x9000 "worker" 0xA000 7 demo_system = Done (r, s') ∧
    match r with
    | Ok w' => w' = 0x700 ∧ ∃ P id t,
        s_processes demo_system !! 0x500 = Some P ∧ p_threads <$> s_processes s' !! 0x500 = Some (p_threads P ++ [0x700]) ∧
        k_threads (s_kernel s') !! 0x700 = Some (mk_Thread (s_next_tid demo_system) (Some id) "worker" Active 0x500) ∧
        get_task (k_tasks (s_kernel s')) id = Some t ∧ t_thread t = 0x700 ∧ t_state t = Ready ∧
        ∀ id', id' ≠ id → get_task (k_tasks (s_kernel s')) id' = get_task (k_tasks (s_kernel demo_system)) id'
    | Err e => e = TaskTableFull ∧ s_processes s' = s_processes demo_system ∧
        k_threads (s_kernel s') = k_threads (s_kernel demo_system) ∧ k_tasks (s_kernel s') = k_tasks (s_kernel demo_system)
    end.
Proof.
  apply (spawn_thread_links demo_system 0x500 0x700 0x20000 0x9000 "worker" 0xA000 7).
  - exact demo_system_ok.
  - exact demo_may_spawn.
  - eexists. vm_compute. reflexivity.
Defined.

Lemma create_process_atomic_witness :
  ∃ r s', create_kernel_process 0x800 0x700 0x20000 0x9000 "System" 0x1000 0xA000 0 demo_system = Done (r, s') ∧
    match r with
    | Ok p' => p' = 0x800 ∧ s_manager s' = s_manager demo_system ++ [0x800] ∧
        (∃ P, s_processes s' !! 0x800 = Some P ∧ p_name P = "System"%string ∧ p_id P = s_next_pid demo_system ∧ p_threads P = [0x700]) ∧
        ∀ q, q ≠ 0x800 → s_processes s' !! q = s_processes demo_system !! q
    | Err e => e = TaskTableFull ∧ s_manager s' = s_manager demo_system ∧ s_processes s' = s_processes demo_system ∧
        k_threads (s_kernel s') = k_threads (s_kernel demo_system) ∧ k_tasks (s_kernel s') = k_tasks (s_kernel demo_system)
    end.
Proof.
  apply (create_process_atomic demo_system 0x800 0x700 0x20000 0x9000 "System" 0x1000 0xA000 0).
  - exact demo_system_ok.
  - exact demo_may_spawn.
  - vm_compute. reflexivity.
Defined.

(** The same system with a full task table and pages for an address space. *)
Definition demo_full : System :=
  set_s_kernel (set_k_mem demo_boot.2 (set_k_tasks (replicate 256 (mk_TaskSlot (Some demo_task) 0)) (s_kernel demo_system)))
    demo_system.
Definition demo_space : AddressSpace * MemoryManager * mem :=
  done_or (AddressSpace_from_existing 0, demo_manager, ∅)
    (AddressSpace_init (s_mm demo_full) (k_mem (s_kernel demo_full)) 0x10000).
Definition demo_failed : result Z SchedulerError * System :=
  done_or (Ok 0, demo_full) (create_user_process 0x800 0x700 0x20000 0x9000 "User" 0x10000 0x400000 demo_full).

Lemma demo_failed_error :
  create_user_process 0x800 0x700 0x20000 0x9000 "User" 0x10000 0x400000 demo_full = Done (Err TaskTableFull, demo_failed.2).
Proof.
  assert (He : demo_failed.1 = Err TaskTableFull) by (vm_compute; reflexivity).
  transitivity (Done demo_failed); [apply done_or_eq; vm_compute; reflexivity|].
  revert He. generalize demo_failed. intros [r s] He. cbn [fst snd] in *. rewrite He. reflexivity.
Qed.

Lemma failed_user_process_leaks_witness :
  free_pages (mm_pmm (s_mm demo_failed.2)) = free_pages (mm_pmm (s_mm demo_full)) - 8 ∧
  s_mm demo_failed.2 = demo_space.1.2 ∧ s_processes demo_failed.2 !! 0x800 = None.
Proof.
  split; [vm_compute; reflexivity|].
  apply (failed_user_process_leaks demo_full 0x800 0x700 0x20000 0x9000 "User" 0x10000 0x400000
    demo_space.1.1 demo_space.1.2 demo_space.2 TaskTableFull demo_failed.2).
  - transitivity (Done demo_space); [apply done_or_eq; vm_compute; reflexivity|].
    generalize demo_space. intros [[space mm] m]. reflexivity.
  - exact demo_failed_error.
Defined.
