(* ===== verification/Acpi.v ===== *)
(** * Acpi.v: firmware tables, the processor topology and per-CPU storage

    [processor_control/topology.rs], [processor_control/per_cpu.rs] and
    [hardware_manager/acpi.rs].  The firmware's tables are bytes of physical
    memory, read through the direct map at the offsets of the packed structs.
    The walks over the root table and over the entries of the MADT carry fuel:
    the length of the table, of which every round consumes at least one byte.
    The theorems relate the walks to the list of entries the bytes encode. *)

From S2P Require Import Prelude Machine MemoryManager Bytes.

Local Open Scope Z_scope.
Local Open Scope u64_scope.

(** ** CPU topology *)

Definition MAX_CPUS : Z := 64.

Record CpuInfo := MkCpuInfo {
  apic_id : Z;
  acpi_uid : Z;
  enabled : bool;
  online_capable : bool;
}.

#[global] Instance CpuInfo_eq_dec : EqDecision CpuInfo.
Proof. solve_decision. Defined.

Definition CpuInfo_empty : CpuInfo := MkCpuInfo 0 0 false false.

Record CpuTopology := MkTopology {
  bsp_apic_id : Z;
  cpu_count : Z;
  cpus : list CpuInfo;
}.

Definition CpuTopology_new : CpuTopology := MkTopology 0 0 (replicate (Z.to_nat MAX_CPUS) CpuInfo_empty).

(** [topology.bsp_apic_id = id] *)
Definition with_bsp (self : CpuTopology) (id : Z) : CpuTopology := MkTopology id (cpu_count self) (cpus self).

(** [CpuTopology::push]: entries beyond [MAX_CPUS] are dropped. *)
Definition push (self : CpuTopology) (cpu_info : CpuInfo) : outcome CpuTopology :=
  if cpu_count self <? MAX_CPUS then
    cs ← slot_set (cpus self) (cpu_count self) cpu_info;
    Done (MkTopology (bsp_apic_id self) (cpu_count self + 1) cs)
  else Done self.

(** [self.cpus[..self.cpu_count].iter()] and its clients *)
Definition iter (self : CpuTopology) : outcome (list CpuInfo) := slice (cpus self) 0 (cpu_count self).

Definition bsp (self : CpuTopology) : outcome (option CpuInfo) :=
  cs ← iter self;
  Done (snd <$> list_find (λ c, apic_id c = bsp_apic_id self) cs).

Definition get_enabled_cpus (self : CpuTopology) : outcome (list CpuInfo) :=
  cs ← iter self;
  Done (filter (λ c, enabled c || online_capable c) cs).

Definition get_usable_cpu_count (self : CpuTopology) : outcome Z :=
  cs ← get_enabled_cpus self;
  Done (Z.of_nat (length cs)).

(** The static [CPU_TOPOLOGY] and its one initialization. *)
Definition init_cpu_topology (guard : option CpuTopology) (topology : CpuTopology) : outcome (option CpuTopology) :=
  match guard with
  | None => Done (Some topology)
  | Some _ => Panic "CPU topology already initialized"
  end.

(** ** Per-CPU storage

    [slots] holds [None] for an uninitialized [MaybeUninit]; the flags are kept
    separately, as in the code. *)

Record PerCpu (T : Type) := MkPerCpu {
  slots : list (option T);
  initialized : list bool;
}.

Arguments MkPerCpu {T} slots initialized.
Arguments slots {T} _.
Arguments initialized {T} _.

Section PerCpu.
Context {T : Type}.
Implicit Types p : PerCpu T.

Definition PerCpu_new : PerCpu T :=
  MkPerCpu (replicate (Z.to_nat MAX_CPUS) None) (replicate (Z.to_nat MAX_CPUS) false).

Definition PerCpu_init p (cpu : Z) (value : T) : outcome (PerCpu T) :=
  if negb (cpu <? MAX_CPUS) then Panic "CpuId exceeds MAX_CPUS" else
  done ← slot_get (initialized p) cpu;
  if done : bool then Panic "PerCpu slot already initialized" else
  ss ← slot_set (slots p) cpu (Some value);
  fs ← slot_set (initialized p) cpu true;
  Done (MkPerCpu ss fs).

(** [get]; reading an uninitialized slot behind a set flag cannot happen. *)
Definition PerCpu_get p (cpu : Z) : outcome T :=
  if negb (cpu <? MAX_CPUS) then Panic "CpuId exceeds MAX_CPUS" else
  done ← slot_get (initialized p) cpu;
  if negb done then Panic "PerCpu slot accessed before init" else
  s ← slot_get (slots p) cpu;
  expect "assume_init on an uninitialized slot" s.

(** An assignment through the reference [get_mut] returns. *)
Definition PerCpu_get_mut p (cpu : Z) (f : T → T) : outcome (PerCpu T) :=
  v ← PerCpu_get p cpu;
  ss ← slot_set (slots p) cpu (Some (f v));
  Done (MkPerCpu ss (initialized p)).

Definition is_initialized p (cpu : Z) : outcome bool :=
  if MAX_CPUS <=? cpu then Done false else slot_get (initialized p) cpu.

End PerCpu.

(** ** Packed structures *)

(** [n] bytes of memory from a physical address. *)
Definition read_bytes (n : nat) (m : mem) (a : Z) : list Z := (λ i, load8 m (a + Z.of_nat i)) <$> seq 0 n.

(** Field accesses through a pointer: a byte, [read_unaligned] of [n] bytes, an
    array of bytes. *)
Definition read8 (m : mem) (ptr : Z) : Z := load8 m (direct ptr).
Definition read_unaligned (n : nat) (m : mem) (ptr : Z) : Z := load_le n m (direct ptr).
Definition read_array (n : nat) (m : mem) (ptr : Z) : list Z := read_bytes n m (direct ptr).

(** The fields of [Rsdp] the code reads, at their packed offsets. *)
Record Rsdp := MkRsdp {
  rsdp_signature : list Z;
  rsdp_revision : Z;
  rsdt_addr : Z;
  xsdt_addr : Z;
}.

Definition read_Rsdp (m : mem) (ptr : Z) : Rsdp :=
  MkRsdp (read_array 8 m ptr) (read8 m (ptr ⊞ 15)) (read_unaligned 4 m (ptr ⊞ 16)) (read_unaligned 8 m (ptr ⊞ 24)).

(** [size_of::<SdtHeader>()], [size_of::<MadtHeader>()] and the fields in use. *)
Definition SDT_HEADER_SIZE : Z := 36.
Definition MADT_HEADER_SIZE : Z := 8.
Definition sdt_signature (m : mem) (hdr : Z) : list Z := read_array 4 m hdr.
Definition sdt_length (m : mem) (hdr : Z) : Z := read_unaligned 4 m (hdr ⊞ 4).

Definition RSD_PTR : list Z := [82; 83; 68; 32; 80; 84; 82; 32].
Definition APIC : list Z := [65; 80; 73; 67].

(** ** Locating a table *)

(** The scan of the pointer array; [w] is the size of an entry. *)
Fixpoint scan_table (fuel w : nat) (m : mem) (sig : list Z) (ptr_addr entries_end : Z) : outcome (option Z) :=
  match fuel with
  | O => OutOfFuel
  | S fuel =>
    if ptr_addr ⊞ Z.of_nat w <=? entries_end then
      let entry_phys := read_unaligned w m ptr_addr in
      let ptr_addr := ptr_addr ⊞ Z.of_nat w in
      if entry_phys =? 0 then scan_table fuel w m sig ptr_addr entries_end else
      let entry_hdr := phys_to_virt entry_phys in
      if decide (sdt_signature m entry_hdr = sig) then Done (Some entry_hdr)
      else scan_table fuel w m sig ptr_addr entries_end
    else Done None
  end.

Definition find_table (w : nat) (m : mem) (table_virt : Z) (sig : list Z) : outcome (option Z) :=
  let table_len := sdt_length m table_virt in
  let entries_start := table_virt ⊞ SDT_HEADER_SIZE in
  let entries_end := table_virt ⊞ table_len in
  scan_table (S (Z.to_nat table_len)) w m sig entries_start entries_end.

Definition find_table_in_xsdt := find_table 8.
Definition find_table_in_rsdt := find_table 4.

Definition find_acpi_table (m : mem) (rsdp_virt : Z) (sig : list Z) : outcome (option Z) :=
  let rsdp := read_Rsdp m rsdp_virt in
  if negb (bool_decide (rsdp_signature rsdp = RSD_PTR)) then Done None else
  if (2 <=? rsdp_revision rsdp) && negb (xsdt_addr rsdp =? 0)
  then find_table_in_xsdt m (phys_to_virt (xsdt_addr rsdp)) sig
  else find_table_in_rsdt m (phys_to_virt (rsdt_addr rsdp)) sig.

(** ** The MADT *)

Record ApicInfo := MkApicInfo {
  local_apic_phys : Z;
  io_apic_phys : Z;
  io_apic_gsi_base : Z;
}.

(** The locals of the walk that entries update. *)
Record walk := MkWalk {
  w_io : Z;
  w_gsi : Z;
  w_topology : CpuTopology;
}.

(** [match entry.entry_type], at [cursor]. *)
Definition madt_entry (m : mem) (cursor entry_type entry_len : Z) (s : walk) : outcome walk :=
  if (entry_type =? 0) && (8 <=? entry_len) then
    let id := read8 m (cursor ⊞ 3) in
    let uid := read8 m (cursor ⊞ 2) in
    let flags := read_unaligned 4 m (cursor ⊞ 4) in
    let en := negb (Z.land flags 1 =? 0) in
    let online := negb (Z.land flags 2 =? 0) in
    if en || online then
      t ← push (w_topology s) (MkCpuInfo id uid en online);
      Done (MkWalk (w_io s) (w_gsi s) t)
    else Done s
  else if (entry_type =? 1) && (12 <=? entry_len) then
    if w_io s =? 0
    then Done (MkWalk (read_unaligned 4 m (cursor ⊞ 4)) (read_unaligned 4 m (cursor ⊞ 8)) (w_topology s))
    else Done s
  else Done s.

Fixpoint madt_walk (fuel : nat) (m : mem) (cursor entries_end : Z) (s : walk) : outcome walk :=
  match fuel with
  | O => OutOfFuel
  | S fuel =>
    if cursor ⊞ 2 <=? entries_end then
      let entry_type := read8 m cursor in
      let entry_len := read8 m (cursor ⊞ 1) in
      if entry_len <? 2 then Done s else
      s ← madt_entry m cursor entry_type entry_len s;
      madt_walk fuel m (cursor ⊞ entry_len) entries_end s
    else Done s
  end.

Definition parse_madt (m : mem) (madt_sdt bsp_apic_id : Z) : outcome (option (ApicInfo * CpuTopology)) :=
  let sdt_len := sdt_length m madt_sdt in
  let local_apic_addr := read_unaligned 4 m (madt_sdt ⊞ SDT_HEADER_SIZE) in
  let entries_start := madt_sdt ⊞ SDT_HEADER_SIZE ⊞ MADT_HEADER_SIZE in
  let entries_end := madt_sdt ⊞ sdt_len in
  s ← madt_walk (S (Z.to_nat sdt_len)) m entries_start entries_end
        (MkWalk 0 0 (with_bsp CpuTopology_new bsp_apic_id));
  if w_io s =? 0 then Done None
  else Done (Some (MkApicInfo local_apic_addr (w_io s) (w_gsi s), w_topology s)).

Definition parse_acpi (m : mem) (rsdp_virt bsp_apic_id : Z) : outcome (option (ApicInfo * CpuTopology)) :=
  r ← find_acpi_table m rsdp_virt APIC;
  match r with
  | None => Done None
  | Some madt_ptr => parse_madt m madt_ptr bsp_apic_id
  end.

(** ** Bytes in memory *)

(** Memory holds the bytes [bs] from physical address [a] on. *)
Definition holds (m : mem) (a : Z) (bs : list Z) : Prop := read_bytes (length bs) m a = bs.

Lemma read_bytes_app k n m a : read_bytes (k + n) m a = read_bytes k m a ++ read_bytes n m (a + Z.of_nat k).
Proof.
  unfold read_bytes. rewrite seq_app, fmap_app. f_equal. apply list_eq; intros i.
  rewrite !list_lookup_fmap. destruct (decide (i < n)%nat).
  - rewrite !lookup_seq_lt by lia. simpl. do 2 f_equal. lia.
  - by rewrite !lookup_seq_ge by lia.
Qed.

Lemma length_read_bytes n m a : length (read_bytes n m a) = n.
Proof. unfold read_bytes. by rewrite length_fmap, length_seq. Qed.

Lemma holds_app m a x y : holds m a (x ++ y) ↔ holds m a x ∧ holds m (a + Z.of_nat (length x)) y.
Proof.
  unfold holds. rewrite length_app, read_bytes_app. split.
  - intros H. apply app_inj_1 in H; [done|]. apply length_read_bytes.
  - by intros [-> ->].
Qed.

Lemma holds_take m a bs k : holds m a bs → read_bytes (Nat.min k (length bs)) m a = take k bs.
Proof.
  intros H. rewrite <- (take_drop k bs) in H. apply holds_app in H as [H _].
  unfold holds in H. by rewrite length_take in H.
Qed.

Lemma load_le_read n m a : load_le n m a = from_le (read_bytes n m a).
Proof.
  revert a; induction n as [|n IH]; intros a; [done|].
  change (S n) with (1 + n)%nat. rewrite read_bytes_app. cbn [Nat.add load_le app]. rewrite IH.
  unfold read_bytes at 2. cbn [seq fmap list_fmap app from_le foldr]. by rewrite Z.add_0_r.
Qed.

Lemma holds_le n m a v : holds m a (le_bytes n v) → load_le n m a = v mod 256 ^ Z.of_nat n.
Proof. unfold holds. rewrite length_le_bytes, load_le_read. intros ->. apply from_le_bytes. Qed.

Lemma holds_byte m a b : holds m a [b] → load8 m a = b.
Proof.
  unfold holds, read_bytes. cbn [length seq fmap list_fmap]. change (Z.of_nat 0) with 0. rewrite Z.add_0_r.
  congruence.
Qed.

(** ** Pointers into the direct map *)

Lemma virt_add a n : phys_to_virt a ⊞ n = phys_to_virt (a + n).
Proof. unfold phys_to_virt, u64. rewrite Zplus_mod_idemp_l. f_equal. lia. Qed.

Lemma virt_small a : 0 ≤ a < PHYS_LIMIT → phys_to_virt a = a + KERNEL_PHYSICAL_MAP_BASE.
Proof. intros. apply u64_small. unfold W64, PHYS_LIMIT, KERNEL_PHYSICAL_MAP_BASE in *. lia. Qed.

Lemma virt_leb a b : 0 ≤ a < PHYS_LIMIT → 0 ≤ b < PHYS_LIMIT → (phys_to_virt a <=? phys_to_virt b) = (a <=? b).
Proof. intros. rewrite !virt_small by done. destruct (Z.leb_spec a b), (Z.leb_spec (a + KERNEL_PHYSICAL_MAP_BASE) (b + KERNEL_PHYSICAL_MAP_BASE)); lia || done. Qed.

Lemma direct_virt a : 0 ≤ a < PHYS_LIMIT → direct (phys_to_virt a) = a.
Proof. apply direct_high. Qed.

(** Field accesses relative to a structure at physical address [a]. *)
Lemma read8_at m a n : 0 ≤ a + n < PHYS_LIMIT → read8 m (phys_to_virt a ⊞ n) = load8 m (a + n).
Proof. intros. unfold read8. by rewrite virt_add, direct_virt. Qed.

Lemma read_unaligned_at k m a n : 0 ≤ a + n < PHYS_LIMIT → read_unaligned k m (phys_to_virt a ⊞ n) = load_le k m (a + n).
Proof. intros. unfold read_unaligned. by rewrite virt_add, direct_virt. Qed.

(** ** The walk as a fold over the entries

    What the bytes of the MADT mean: a list of entries.  An entry of type 0 or 1
    may be longer than the structure the code knows. *)

Inductive MadtEntry :=
| ELocalApic (uid id flags : Z) (more : list Z)
| EIoApic (id reserved addr gsi : Z) (more : list Z)
| EOther (ty : Z) (body : list Z).

Definition encode_entry (e : MadtEntry) : list Z :=
  match e with
  | ELocalApic uid id flags more => [0; 8 + Z.of_nat (length more); uid; id] ++ le_bytes 4 flags ++ more
  | EIoApic id rsv addr gsi more => [1; 12 + Z.of_nat (length more); id; rsv] ++ le_bytes 4 addr ++ le_bytes 4 gsi ++ more
  | EOther ty body => [ty; 2 + Z.of_nat (length body)] ++ body
  end.

Definition entry_ok (e : MadtEntry) : Prop :=
  Z.of_nat (length (encode_entry e)) < 256 ∧
  match e with
  | ELocalApic uid id flags _ => 0 ≤ flags < 2 ^ 32
  | EIoApic _ _ addr gsi _ => 0 ≤ addr < 2 ^ 32 ∧ 0 ≤ gsi < 2 ^ 32
  | EOther ty body => (ty = 0 → (length body < 6)%nat) ∧ (ty = 1 → (length body < 10)%nat)
  end.

(** The processor an entry announces, if it can be used. *)
Definition entry_cpu (e : MadtEntry) : option CpuInfo :=
  match e with
  | ELocalApic uid id flags _ =>
      if Z.testbit flags 0 || Z.testbit flags 1
      then Some (MkCpuInfo id uid (Z.testbit flags 0) (Z.testbit flags 1)) else None
  | _ => None
  end.

Definition entry_io (e : MadtEntry) : option (Z * Z) :=
  match e with EIoApic _ _ addr gsi _ => if addr =? 0 then None else Some (addr, gsi) | _ => None end.

(** The topology with processors [cs], of which at most [MAX_CPUS] are kept. *)
Definition topology_of (id : Z) (cs : list CpuInfo) : CpuTopology :=
  let kept := take (Z.to_nat MAX_CPUS) cs in
  MkTopology id (Z.of_nat (length kept)) (kept ++ replicate (Z.to_nat MAX_CPUS - length kept) CpuInfo_empty).

Definition madt_result (lapic id : Z) (es : list MadtEntry) : option (ApicInfo * CpuTopology) :=
  match head (omap entry_io es) with
  | None => None
  | Some (addr, gsi) => Some (MkApicInfo lapic addr gsi, topology_of id (omap entry_cpu es))
  end.

Lemma testbit_land flags k : 0 ≤ k → negb (Z.land flags (2 ^ k) =? 0) = Z.testbit flags k.
Proof.
  intros Hk. destruct (Z.testbit flags k) eqn:Hb.
  - destruct (Z.eqb_spec (Z.land flags (2 ^ k)) 0) as [E|]; [|done].
    apply (f_equal (λ z, Z.testbit z k)) in E.
    rewrite Z.land_spec, Hb, Z.pow2_bits_true, Z.bits_0 in E by done. done.
  - replace (Z.land flags (2 ^ k)) with 0; [done|]. symmetry. apply Z.bits_inj'. intros i Hi.
    rewrite Z.bits_0, Z.land_spec, Z.pow2_bits_eqb by done.
    destruct (Z.eqb_spec k i) as [->|]; [by rewrite Hb | apply andb_false_r].
Qed.

Lemma topology_push_ok id cs c : push (topology_of id cs) c = Done (topology_of id (cs ++ [c])).
Proof.
  unfold push, topology_of. simpl. rewrite length_take.
  destruct (Z.ltb_spec (Z.of_nat (Z.to_nat MAX_CPUS `min` length cs)) MAX_CPUS) as [H|H]; unfold MAX_CPUS in *.
  - assert (length cs < 64)%nat by lia. rewrite (take_ge cs), (take_ge (cs ++ [c])) by (rewrite ?length_app; simpl; lia).
    replace (Z.to_nat 64 - Z.to_nat 64 `min` length cs)%nat with (S (63 - length cs)) by lia. cbn [replicate cpus cpu_count bsp_apic_id].
    rewrite (slot_set_mid cs) by lia. cbn [mbind outcome_bind]. rewrite length_app, <- app_assoc. cbn [length app].
    f_equal. f_equal; [lia|]. do 3 f_equal. lia.
  - rewrite (take_app_le cs) by lia. by rewrite length_take.
Qed.

(** The I/O APIC registers after one more entry. *)
Definition io_after (io : Z * Z) (e : MadtEntry) : Z * Z :=
  if io.1 =? 0 then match e with EIoApic _ _ addr gsi _ => (addr, gsi) | _ => io end else io.

Lemma io_after_nonzero es io : io.1 ≠ 0 → foldl io_after io es = io.
Proof.
  intros H. induction es as [|e es IH]; [done|]. cbn [foldl]. unfold io_after at 2.
  by rewrite (proj2 (Z.eqb_neq _ _) H).
Qed.

Lemma io_after_head es g :
  match head (omap entry_io es) with
  | Some io => foldl io_after (0, g) es = io ∧ io.1 ≠ 0
  | None => (foldl io_after (0, g) es).1 = 0
  end.
Proof.
  revert g; induction es as [|e es IH]; intros g; [done|]. cbn [foldl].
  destruct e as [?? | ?? addr gsi ? | ??]; try apply (IH g).
  cbn [omap list_omap entry_io]. unfold io_after at 2 4. cbn [fst]. destruct (Z.eqb_spec addr 0) as [->|Hne].
  - apply (IH gsi).
  - simpl. split; [by apply io_after_nonzero | done].
Qed.

Definition entry_type (e : MadtEntry) : Z := match e with ELocalApic _ _ _ _ => 0 | EIoApic _ _ _ _ _ => 1 | EOther ty _ => ty end.

Lemma encode_head e : ∃ rest, encode_entry e = entry_type e :: Z.of_nat (length (encode_entry e)) :: rest.
Proof.
  destruct e; simpl; eexists; do 2 f_equal; simpl; try lia; by rewrite ?length_app, ?length_le_bytes; simpl; lia.
Qed.

Lemma length_encode e : (2 ≤ length (encode_entry e))%nat.
Proof. destruct (encode_head e) as [rest H]. rewrite H. simpl. lia. Qed.

(** Reads of a structure whose bytes are known. *)
Lemma holds_field pre k v post m a off :
  holds m a (pre ++ le_bytes k v ++ post) → off = Z.of_nat (length pre) →
  load_le k m (a + off) = v mod 256 ^ Z.of_nat k.
Proof. rewrite !holds_app. intros (_ & H & _) ->. by apply holds_le. Qed.

Lemma holds_field8 pre b post m a off :
  holds m a (pre ++ b :: post) → off = Z.of_nat (length pre) → load8 m (a + off) = b.
Proof.
  rewrite holds_app. change (b :: post) with ([b] ++ post). rewrite holds_app. intros (_ & H & _) ->.
  by apply holds_byte.
Qed.

Section walking.
Context (m : mem) (id : Z).

(** The header of an entry, and what [madt_entry] does with it. *)
Lemma madt_entry_ok e a io cs :
  holds m a (encode_entry e) → entry_ok e → 0 ≤ a → a + Z.of_nat (length (encode_entry e)) < PHYS_LIMIT →
  read8 m (phys_to_virt a) = entry_type e ∧
  read8 m (phys_to_virt a ⊞ 1) = Z.of_nat (length (encode_entry e)) ∧
  madt_entry m (phys_to_virt a) (entry_type e) (Z.of_nat (length (encode_entry e)))
    (MkWalk io.1 io.2 (topology_of id cs)) =
  Done (MkWalk (io_after io e).1 (io_after io e).2 (topology_of id (cs ++ omap entry_cpu [e]))).
Proof.
  intros Hm [Hlen He] Ha Hend. pose proof (length_encode e) as Hmin.
  split; [|split].
  - unfold read8. rewrite direct_virt by lia. destruct (encode_head e) as [rest E]. rewrite E in Hm.
    rewrite <- (Z.add_0_r a). by apply (holds_field8 [] _ _ m a 0 Hm).
  - rewrite read8_at by lia. destruct (encode_head e) as [rest E]. rewrite E in Hm at 1.
    by apply (holds_field8 [_] _ _ m a 1 Hm).
  - unfold madt_entry. destruct e as [uid lid flags more | ioid rsv addr gsi more | ty body]; cbn [entry_type encode_entry] in *.
    + cbn [Z.eqb andb]. rewrite !length_app, length_le_bytes in *. cbn [length] in *.
      rewrite (proj2 (Z.leb_le 8 _)) by lia.
      rewrite !read8_at, read_unaligned_at by lia.
      rewrite (holds_field8 [_; _] uid _ m a 2 Hm), (holds_field8 [_; _; _] lid _ m a 3 Hm) by done.
      rewrite (holds_field [_; _; _; _] 4 flags _ m a 4 Hm), Z.mod_small by (done || lia).
      rewrite (testbit_land flags 0 ltac:(lia) : negb (Z.land flags 1 =? 0) = _).
      rewrite (testbit_land flags 1 ltac:(lia) : negb (Z.land flags 2 =? 0) = _). cbn [omap list_omap entry_cpu w_topology w_io w_gsi].
      unfold io_after. destruct (Z.testbit flags 0 || Z.testbit flags 1).
      * rewrite topology_push_ok. cbn [mbind outcome_bind]. by destruct (io.1 =? 0).
      * rewrite app_nil_r. by destruct (io.1 =? 0).
    + cbn [Z.eqb andb]. rewrite !length_app, !length_le_bytes in *. cbn [length] in *.
      rewrite (proj2 (Z.leb_le 12 _)) by lia.
      rewrite !read_unaligned_at by lia.
      rewrite (holds_field [_; _; _; _] 4 addr _ m a 4 Hm), Z.mod_small by (done || lia).
      rewrite app_assoc in Hm. rewrite (holds_field (_ ++ _) 4 gsi _ m a 8 Hm), Z.mod_small by (done || lia). cbn [omap list_omap entry_cpu w_topology w_io w_gsi]. rewrite app_nil_r.
      unfold io_after. by destruct (io.1 =? 0).
    + cbn [length app] in *. destruct He as [H0 H1].
      cbn [omap list_omap entry_cpu w_topology w_io w_gsi]. rewrite app_nil_r. unfold io_after.
      replace (if io.1 =? 0 then io else io) with io by (by destruct (io.1 =? 0)).
      destruct (Z.eqb_spec ty 0) as [E|_]; [rewrite (proj2 (Z.leb_gt 8 _)) by (specialize (H0 E); lia) | cbn [andb]].
      all: destruct (Z.eqb_spec ty 1) as [E1|_]; [rewrite (proj2 (Z.leb_gt 12 _)) by (specialize (H1 E1); lia)|]; done.
Qed.

(** The bytes after the last entry: too few for a header, or an entry whose
    length is smaller than its header. *)
Definition madt_tail (tail : list Z) : Prop :=
  (length tail < 2)%nat ∨ ∃ ty len rest, tail = ty :: len :: rest ∧ len < 2.

Lemma madt_tail_ok fuel tail a s :
  madt_tail tail → holds m a tail → 0 ≤ a → a + 2 + Z.of_nat (length tail) < PHYS_LIMIT →
  madt_walk (S fuel) m (phys_to_virt a) (phys_to_virt (a + Z.of_nat (length tail))) s = Done s.
Proof.
  intros Ht Hm Ha Hend. cbn [madt_walk]. rewrite virt_add, virt_leb by lia.
  destruct (Z.leb_spec (a + 2) (a + Z.of_nat (length tail))) as [Hle|]; [|done].
  destruct Ht as [Hs | (ty & len & rest & -> & Hlen)]; [lia|].
  rewrite read8_at by lia. rewrite (holds_field8 [ty] len _ m a 1 Hm) by done.
  by rewrite (proj2 (Z.ltb_lt _ _)).
Qed.

Lemma madt_walk_ok es tail a io cs fuel :
  Forall entry_ok es → madt_tail tail → 0 ≤ a →
  let bytes := (es ≫= encode_entry) ++ tail in
  holds m a bytes → a + 2 + Z.of_nat (length bytes) < PHYS_LIMIT → (length bytes < fuel)%nat →
  madt_walk fuel m (phys_to_virt a) (phys_to_virt (a + Z.of_nat (length bytes))) (MkWalk io.1 io.2 (topology_of id cs)) =
  Done (MkWalk (foldl io_after io es).1 (foldl io_after io es).2 (topology_of id (cs ++ omap entry_cpu es))).
Proof.
  intros Hes Ht. revert a io cs fuel. induction Hes as [|e es He _ IH]; intros a io cs fuel Ha bytes Hm Hend Hfuel.
  - unfold bytes in *. cbn [mbind list_bind app omap list_omap foldl] in *. rewrite app_nil_r.
    destruct fuel as [|fuel]; [lia|]. by apply madt_tail_ok.
  - assert (bytes = encode_entry e ++ (es ≫= encode_entry) ++ tail) as E by (unfold bytes; by rewrite app_assoc).
    clearbody bytes. subst bytes. revert IH Hm Hend Hfuel. generalize ((es ≫= encode_entry) ++ tail) as rest.
    intros rest IH Hm Hend Hfuel. rewrite length_app in *.
    apply holds_app in Hm as [Hme Hmr]. pose proof (length_encode e) as Hmin.
    destruct fuel as [|fuel]; [lia|]. cbn [madt_walk].
    destruct (madt_entry_ok e a io cs Hme He Ha ltac:(lia)) as (Hty & Hlen & Hstep).
    rewrite Hty, Hlen, Hstep, virt_add, virt_leb by lia.
    rewrite (proj2 (Z.leb_le _ _)) by lia. rewrite (proj2 (Z.ltb_ge _ _)) by lia.
    cbn [mbind outcome_bind]. rewrite virt_add.
    replace (a + Z.of_nat (length (encode_entry e) + length rest))
      with (a + Z.of_nat (length (encode_entry e)) + Z.of_nat (length rest)) by lia.
    rewrite (IH _ (io_after io e)) by (done || lia). cbn [foldl].
    rewrite <- app_assoc. do 2 f_equal. f_equal. simpl. by destruct (entry_cpu e).
Qed.

End walking.

(** ** Tables in memory *)

(** A table with the given signature and body: the header's length field covers
    both, and the 28 remaining header bytes are arbitrary. *)
Definition sdt_at (m : mem) (a : Z) (sig body : list Z) : Prop :=
  length sig = 4%nat ∧ 0 ≤ a ∧ a + 64 + Z.of_nat (length body) < PHYS_LIMIT ∧
  SDT_HEADER_SIZE + Z.of_nat (length body) < 2 ^ 32 ∧
  ∃ rest, length rest = 28%nat ∧
    holds m a (sig ++ le_bytes 4 (SDT_HEADER_SIZE + Z.of_nat (length body)) ++ rest ++ body).

Definition madt_at (m : mem) (a lapic : Z) (es : list MadtEntry) : Prop :=
  0 ≤ lapic < 2 ^ 32 ∧ Forall entry_ok es ∧ ∃ flags tail, madt_tail tail ∧
    sdt_at m a APIC (le_bytes 4 lapic ++ le_bytes 4 flags ++ (es ≫= encode_entry) ++ tail).

(** A root table with pointers of [w] bytes, and what may follow the last one. *)
Definition root_at (m : mem) (w : nat) (a : Z) (sig : list Z) (ptrs : list Z) : Prop :=
  Forall (λ p, 0 ≤ p < PHYS_LIMIT ∧ p < 256 ^ Z.of_nat w) ptrs ∧
  ∃ slack, (length slack < w)%nat ∧ sdt_at m a sig ((ptrs ≫= le_bytes w) ++ slack).

Definition rsdp_at (m : mem) (a rev rsdt xsdt : Z) : Prop :=
  0 ≤ a ∧ a + 64 < PHYS_LIMIT ∧ 0 ≤ rsdt < 2 ^ 32 ∧ 0 ≤ xsdt < W64 ∧
  ∃ oem len, length oem = 7%nat ∧
    holds m a (RSD_PTR ++ oem ++ [rev] ++ le_bytes 4 rsdt ++ le_bytes 4 len ++ le_bytes 8 xsdt).

(** The root table the code chooses: entry size and address. *)
Definition root_of (rev rsdt xsdt : Z) : nat * Z :=
  if (2 <=? rev) && negb (xsdt =? 0) then (8%nat, xsdt) else (4%nat, rsdt).

(** The first table of the root with the given signature. *)
Definition first_with (m : mem) (sig : list Z) (ptrs : list Z) : option Z :=
  snd <$> list_find (λ p, p ≠ 0 ∧ read_bytes 4 m p = sig) ptrs.

Lemma sdt_fields m a sig body :
  sdt_at m a sig body →
  sdt_length m (phys_to_virt a) = SDT_HEADER_SIZE + Z.of_nat (length body) ∧
  holds m (a + SDT_HEADER_SIZE) body.
Proof.
  intros (Hsig & Ha & Hend & Hlen & rest & Hrest & Hm). unfold SDT_HEADER_SIZE in *. split.
  - unfold sdt_length. rewrite read_unaligned_at by lia.
    rewrite (holds_field sig 4 _ _ m a 4 Hm), Z.mod_small by (done || lia). done.
  - rewrite !holds_app in Hm. destruct Hm as (_ & _ & _ & Hb). rewrite Hsig, Hrest, length_le_bytes in Hb.
    by replace (a + 36) with (a + Z.of_nat 4 + Z.of_nat 4 + Z.of_nat 28) by lia.
Qed.

Lemma parse_madt_ok m a lapic id es :
  madt_at m a lapic es → parse_madt m (phys_to_virt a) id = Done (madt_result lapic id es).
Proof.
  intros (Hl & Hes & flags & tail & Ht & Hs). pose proof Hs as (_ & Ha & Hend & Hlen & _).
  apply sdt_fields in Hs as [Hsl Hb]. unfold SDT_HEADER_SIZE in *. unfold parse_madt, SDT_HEADER_SIZE, MADT_HEADER_SIZE.
  assert (read_unaligned 4 m (phys_to_virt a ⊞ 36) = lapic) as ->.
  { rewrite read_unaligned_at, <- (Z.add_0_r (a + 36)) by lia.
    rewrite (holds_field [] 4 lapic _ m (a + 36) 0 Hb), Z.mod_small by (done || lia). done. }
  rewrite Hsl. rewrite app_assoc in Hb. apply holds_app in Hb as [_ Hb]. rewrite !length_app, !length_le_bytes in *.
  rewrite !virt_add. replace (a + 36 + Z.of_nat (4 + 4)) with (a + 36 + 8) in Hb by lia.
  pose proof (madt_walk_ok m id es tail (a + 36 + 8) (0, 0) [] (S (Z.to_nat (36 + Z.of_nat (4 + (4 + (length (es ≫= encode_entry) + length tail))))))
    Hes Ht ltac:(lia) Hb) as W.
  cbn zeta in W. rewrite length_app in W. specialize (W ltac:(lia) ltac:(lia)).
  replace (a + 36 + 8 + Z.of_nat (length (es ≫= encode_entry) + length tail))
    with (a + (36 + Z.of_nat (4 + (4 + (length (es ≫= encode_entry) + length tail))))) in W by lia.
  change (with_bsp CpuTopology_new id) with (topology_of id []).
  rewrite (W : madt_walk _ _ _ _ (MkWalk 0 0 (topology_of id [])) = _). cbn [mbind outcome_bind w_io w_gsi w_topology app].
  pose proof (io_after_head es 0) as Hio. unfold madt_result. destruct (head (omap entry_io es)) as [[addr gsi]|].
  - destruct Hio as [-> Hne]. cbn [fst snd] in *. by rewrite (proj2 (Z.eqb_neq _ _) Hne).
  - by rewrite Hio.
Qed.

Lemma scan_table_ok m w sig ptrs slack a fuel :
  (0 < w)%nat → Forall (λ p, 0 ≤ p < PHYS_LIMIT ∧ p < 256 ^ Z.of_nat w) ptrs → (length slack < w)%nat → 0 ≤ a →
  let bytes := (ptrs ≫= le_bytes w) ++ slack in
  holds m a bytes → a + Z.of_nat w + Z.of_nat (length bytes) < PHYS_LIMIT → (length bytes < fuel)%nat →
  scan_table fuel w m sig (phys_to_virt a) (phys_to_virt (a + Z.of_nat (length bytes))) =
  Done (phys_to_virt <$> first_with m sig ptrs).
Proof.
  intros Hw Hps Hs. revert a fuel. induction Hps as [|p ps [Hp Hpw] Hps IH]; intros a fuel Ha bytes Hm Hend Hfuel;
    (destruct fuel as [|fuel]; [lia|]); cbn [scan_table]; rewrite virt_add, virt_leb by lia.
  - unfold bytes. cbn [mbind list_bind app]. by rewrite (proj2 (Z.leb_gt _ _)) by lia.
  - assert (bytes = le_bytes w p ++ (ps ≫= le_bytes w) ++ slack) as E by (unfold bytes; by rewrite app_assoc).
    clearbody bytes. subst bytes. revert IH Hm Hend Hfuel. generalize ((ps ≫= le_bytes w) ++ slack) as rest.
    intros rest IH Hm Hend Hfuel. rewrite length_app, length_le_bytes in *.
    apply holds_app in Hm as [Hmp Hmr]. rewrite length_le_bytes in Hmr.
    rewrite (proj2 (Z.leb_le _ _)) by lia. unfold read_unaligned, sdt_signature, read_array.
    rewrite direct_virt, (holds_le _ _ _ _ Hmp), Z.mod_small by lia.
    replace (a + Z.of_nat (w + length rest)) with (a + Z.of_nat w + Z.of_nat (length rest)) by lia.
    unfold first_with. cbn [list_find]. destruct (Z.eqb_spec p 0) as [->|Hne].
    + rewrite decide_False by naive_solver. rewrite (IH _ fuel) by (done || lia). unfold first_with.
      by destruct (list_find _ ps) as [[]|].
    + rewrite direct_virt by done. destruct (decide (read_bytes 4 m p = sig)).
      * by rewrite decide_True by done.
      * rewrite decide_False by naive_solver. rewrite (IH _ fuel) by (done || lia). unfold first_with.
        by destruct (list_find _ ps) as [[]|].
Qed.

Lemma find_table_ok m w a rsig sig ptrs :
  (0 < w ≤ 8)%nat → root_at m w a rsig ptrs →
  find_table w m (phys_to_virt a) sig = Done (phys_to_virt <$> first_with m sig ptrs).
Proof.
  intros Hw (Hps & slack & Hsl & Hs). pose proof Hs as (_ & Ha & Hend & _). apply sdt_fields in Hs as [Hlen Hb].
  unfold find_table. rewrite Hlen, !virt_add, Z.add_assoc. unfold SDT_HEADER_SIZE in *.
  apply scan_table_ok; done || lia.
Qed.

Lemma find_acpi_table_ok m a rev rsdt xsdt rsig sig ptrs :
  rsdp_at m a rev rsdt xsdt → root_at m (root_of rev rsdt xsdt).1 (root_of rev rsdt xsdt).2 rsig ptrs →
  find_acpi_table m (phys_to_virt a) sig = Done (phys_to_virt <$> first_with m sig ptrs).
Proof.
  intros (Ha & Hend & Hr & Hx & oem & len & Hoem & Hm) Hroot. unfold find_acpi_table.
  assert (read_Rsdp m (phys_to_virt a) = MkRsdp RSD_PTR rev rsdt xsdt) as ->.
  { unfold read_Rsdp. f_equal.
    - unfold read_array. rewrite direct_virt by lia. apply holds_app in Hm as [Hm _]. exact Hm.
    - rewrite read8_at by lia. rewrite app_assoc in Hm.
      rewrite (holds_field8 (RSD_PTR ++ oem) rev _ m a 15 Hm) by (rewrite length_app, Hoem; done). done.
    - rewrite read_unaligned_at by lia. rewrite !app_assoc, <- 2!app_assoc in Hm.
      rewrite (holds_field ((RSD_PTR ++ oem) ++ [rev]) 4 rsdt _ m a 16 Hm), Z.mod_small; [done|lia|].
      rewrite !length_app, Hoem. done.
    - rewrite read_unaligned_at by lia. rewrite !app_assoc in Hm. rewrite <- (app_nil_r (_ ++ le_bytes 8 _)), <- app_assoc in Hm.
      rewrite (holds_field ((((RSD_PTR ++ oem) ++ [rev]) ++ le_bytes 4 rsdt) ++ le_bytes 4 len) 8 xsdt _ m a 24 Hm), Z.mod_small; [done|unfold W64 in *; lia|].
      rewrite !length_app, Hoem, !length_le_bytes. done. }
  cbn [rsdp_signature rsdp_revision xsdt_addr rsdt_addr]. rewrite bool_decide_true by done. cbn [negb].
  revert Hroot. unfold root_of, find_table_in_xsdt, find_table_in_rsdt.
  destruct ((2 <=? rev) && negb (xsdt =? 0)); cbn [fst snd]; apply find_table_ok; lia.
Qed.

(** C31. The firmware tables are decoded as they are meant: when memory holds an
    RSDP, the root table it names (the XSDT on revision 2 and later, unless its
    address is 0, else the RSDT) and, as the first table of that root with the
    signature APIC, a MADT, then [parse_acpi] returns the address of the local
    APIC, the first I/O APIC with a non-zero address and the usable processors
    in table order, the first 64 of them; it returns [None] when there is no such
    table or no such I/O APIC.  Entries of unknown types, entries too short for
    their type, longer entries, null pointers and bytes after the last entry do
    not disturb it. *)
Theorem parse_acpi_correct (m : mem) (a rev rsdt xsdt id : Z) (rsig ptrs : list Z) :
  rsdp_at m a rev rsdt xsdt →
  root_at m (root_of rev rsdt xsdt).1 (root_of rev rsdt xsdt).2 rsig ptrs →
  match first_with m APIC ptrs with
  | None => parse_acpi m (phys_to_virt a) id = Done None
  | Some p => ∀ lapic es, madt_at m p lapic es →
      parse_acpi m (phys_to_virt a) id = Done (madt_result lapic id es)
  end.
Proof.
  intros Hr Hroot. unfold parse_acpi. rewrite (find_acpi_table_ok m a rev rsdt xsdt rsig APIC ptrs Hr Hroot), bind_Done.
  destruct (first_with m APIC ptrs); cbn [fmap option_fmap option_map]; [|done].
  intros lapic es Hm. by apply parse_madt_ok.
Qed.

(** A small machine: a FACP table and a MADT with three processors (one of them
    disabled), an unknown entry and two I/O APICs. *)
Fixpoint write_bytes (m : mem) (a : Z) (bs : list Z) : mem :=
  match bs with [] => m | b :: bs => write_bytes (store8 m a b) (a + 1) bs end.

Definition demo_entries : list MadtEntry :=
  [ELocalApic 0 0 1 []; ELocalApic 1 2 2 []; EOther 2 [0; 0; 2; 0; 0; 0; 0; 0]; ELocalApic 2 4 0 [];
   EIoApic 7 0 0xFEC00000 0 []; EIoApic 8 0 0xFEC10000 24 []].

Definition demo_sdt (sig body : list Z) : list Z :=
  sig ++ le_bytes 4 (SDT_HEADER_SIZE + Z.of_nat (length body)) ++ replicate 28 0 ++ body.

Definition demo_tables : mem :=
  write_bytes (write_bytes (write_bytes (write_bytes ∅
    0x1000 (RSD_PTR ++ replicate 7 0 ++ [2] ++ le_bytes 4 0 ++ le_bytes 4 36 ++ le_bytes 8 0x2000))
    0x2000 (demo_sdt [88; 83; 68; 84] (([0; 0x3000; 0x4000] ≫= le_bytes 8) ++ [])))
    0x3000 (demo_sdt [70; 65; 67; 80] []))
    0x4000 (demo_sdt APIC (le_bytes 4 0xFEE00000 ++ le_bytes 4 1 ++ (demo_entries ≫= encode_entry) ++ [0])).

Definition demo_result : option (ApicInfo * CpuTopology) :=
  Some (MkApicInfo 0xFEE00000 0xFEC00000 0,
        topology_of 0 [MkCpuInfo 0 0 true false; MkCpuInfo 2 1 false true]).

Ltac concrete := apply (bool_decide_unpack _); vm_compute; exact I.

Lemma parse_acpi_correct_witness :
  madt_result 0xFEE00000 0 demo_entries = demo_result ∧
  parse_acpi demo_tables (phys_to_virt 0x1000) 0 = Done (madt_result 0xFEE00000 0 demo_entries).
Proof.
  split; [vm_compute; reflexivity|].
  assert (rsdp_at demo_tables 0x1000 2 0 0x2000) as Hr.
  { split; [lia|]. split; [unfold PHYS_LIMIT; lia|]. split; [lia|]. split; [unfold W64; lia|].
    exists (replicate 7 0), 36. split; [reflexivity|]. unfold holds. concrete. }
  assert (root_at demo_tables 8 0x2000 [88; 83; 68; 84] [0; 0x3000; 0x4000]) as Hroot.
  { split; [repeat constructor; vm_compute; congruence|]. exists []. split; [vm_compute; lia|].
    split; [reflexivity|]. split; [vm_compute; congruence|]. split; [vm_compute; reflexivity|].
    split; [vm_compute; reflexivity|]. exists (replicate 28 0). split; [reflexivity|]. unfold holds. concrete. }
  assert (first_with demo_tables APIC [0; 0x3000; 0x4000] = Some 0x4000) as Hp by (vm_compute; reflexivity).
  assert (madt_at demo_tables 0x4000 0xFEE00000 demo_entries) as Hm.
  { split; [lia|]. split.
    - repeat constructor; vm_compute; congruence || lia.
    - exists 1, [0]. split; [left; simpl; lia|].
      split; [reflexivity|]. split; [vm_compute; congruence|]. split; [vm_compute; reflexivity|].
      split; [vm_compute; reflexivity|]. exists (replicate 28 0). split; [reflexivity|]. unfold holds. concrete. }
  pose proof (parse_acpi_correct demo_tables 0x1000 2 0 0x2000 0 [88; 83; 68; 84] [0; 0x3000; 0x4000] Hr Hroot) as H.
  rewrite Hp in H. exact (H 0xFEE00000 demo_entries Hm).
Defined.

(** ** Termination on malformed tables *)

(** A pointer with room for the longest table above it. *)
Definition roomy (v : Z) : Prop := 0 ≤ v ∧ v + 2 ^ 33 ≤ W64.

Definition topology_ok (t : CpuTopology) : Prop :=
  0 ≤ cpu_count t ≤ MAX_CPUS ∧ length (cpus t) = Z.to_nat MAX_CPUS.

Lemma read8_range m p : 0 ≤ read8 m p < 256.
Proof. apply Z.mod_pos_bound. lia. Qed.

Lemma sdt_length_range m v : 0 ≤ sdt_length m v < 2 ^ 32.
Proof. apply load_le_range. Qed.

Lemma push_total t c : topology_ok t → ∃ t', push t c = Done t' ∧ topology_ok t'.
Proof.
  intros [Hc Hl]. unfold push. destruct (Z.ltb_spec (cpu_count t) MAX_CPUS); [|by eexists].
  rewrite slot_set_ok by lia. eexists. split; [done|]. split; simpl; [lia|]. by rewrite length_insert.
Qed.

Lemma scan_table_total fuel w m sig p e :
  (0 < w ≤ 8)%nat → 0 ≤ p → p + 16 ≤ W64 → e + 16 ≤ W64 → (Z.to_nat (e - p) < fuel)%nat →
  ∃ r, scan_table fuel w m sig p e = Done r.
Proof.
  intros Hw. revert p. induction fuel as [|fuel IH]; intros p Hp Hpw He Hf; [lia|]. cbn [scan_table].
  rewrite (u64_small (p + Z.of_nat w)) by lia. destruct (Z.leb_spec (p + Z.of_nat w) e); [|by eexists].
  destruct (_ =? 0); [apply IH; lia|]. destruct (decide _); [by eexists|]. apply IH; lia.
Qed.

Lemma madt_entry_total m cur ty len s :
  topology_ok (w_topology s) → ∃ s', madt_entry m cur ty len s = Done s' ∧ topology_ok (w_topology s').
Proof.
  intros Ht. unfold madt_entry. destruct (_ && _).
  - destruct (_ || _); [|by eexists]. destruct (push_total (w_topology s)
      (MkCpuInfo (read8 m (cur ⊞ 3)) (read8 m (cur ⊞ 2)) (negb (Z.land (read_unaligned 4 m (cur ⊞ 4)) 1 =? 0))
         (negb (Z.land (read_unaligned 4 m (cur ⊞ 4)) 2 =? 0))) Ht) as (t & -> & Ht').
    rewrite bind_Done. by eexists.
  - destruct (_ && _); [destruct (_ =? 0)|]; by eexists.
Qed.

Lemma madt_walk_total fuel m p e s :
  topology_ok (w_topology s) → 0 ≤ p → p + 512 ≤ W64 → e + 1024 ≤ W64 → (Z.to_nat (e - p) < fuel)%nat →
  ∃ s', madt_walk fuel m p e s = Done s' ∧ topology_ok (w_topology s').
Proof.
  revert p s. induction fuel as [|fuel IH]; intros p s Hs Hp Hpw He Hf; [lia|]. cbn [madt_walk].
  rewrite (u64_small (p + 2)) by lia. destruct (Z.leb_spec (p + 2) e); [|by eexists].
  pose proof (read8_range m (p ⊞ 1)) as Hl. destruct (Z.ltb_spec (read8 m (p ⊞ 1)) 2); [by eexists|].
  destruct (madt_entry_total m p (read8 m p) (read8 m (p ⊞ 1)) s Hs) as (s' & -> & Hs').
  rewrite bind_Done, (u64_small (p + read8 m (p ⊞ 1))) by lia. apply IH; try done; lia.
Qed.

(** C32. Table discovery terminates on malformed tables.  Provided the addresses
    memory gives for the root table and for the MADT do not lie within the last
    8 GiB of the address space, where the cursor arithmetic would wrap around,
    [parse_acpi] returns within its fuel and without a panic whatever else memory
    holds, and a topology it returns has at most 64 processors in its 64 slots.
    Addresses from a 32-bit root table satisfy the condition; a 64-bit one in an
    XSDT need not. *)
Theorem parse_acpi_total (m : mem) (rsdp id : Z) :
  let r := read_Rsdp m rsdp in
  roomy (phys_to_virt (root_of (rsdp_revision r) (rsdt_addr r) (xsdt_addr r)).2) →
  (∀ v, find_acpi_table m rsdp APIC = Done (Some v) → roomy v) →
  ∃ res, parse_acpi m rsdp id = Done res ∧ ∀ info t, res = Some (info, t) → topology_ok t.
Proof.
  intros r Hroot Hmadt. unfold parse_acpi.
  assert (∃ o, find_acpi_table m rsdp APIC = Done o) as [o Ho].
  { unfold find_acpi_table. fold r. destruct (negb _); [by eexists|]. revert Hroot. unfold root_of.
    destruct (_ && _); cbn [snd]; intros [Hv Hv']; unfold find_table_in_xsdt, find_table_in_rsdt, find_table, SDT_HEADER_SIZE.
    all: match goal with |- context [sdt_length ?mm ?v] => pose proof (sdt_length_range mm v) end.
    all: rewrite !(u64_small (phys_to_virt _ + _)) by lia; apply scan_table_total; lia. }
  rewrite Ho, bind_Done. destruct o as [v|]; [|by eexists].
  destruct (Hmadt v Ho) as [Hv Hv']. unfold parse_madt, SDT_HEADER_SIZE, MADT_HEADER_SIZE.
  pose proof (sdt_length_range m v). rewrite (u64_small (v + 36)), (u64_small (v + 36 + 8)), (u64_small (v + sdt_length m v)) by lia.
  destruct (madt_walk_total (S (Z.to_nat (sdt_length m v))) m (v + 36 + 8) (v + sdt_length m v)
    (MkWalk 0 0 (with_bsp CpuTopology_new id))) as (s & -> & Hs); try lia.
  { split; [unfold MAX_CPUS; simpl; lia|]. apply length_replicate. }
  rewrite bind_Done. destruct (w_io s =? 0); eexists; (split; [done|]); naive_solver.
Qed.

Lemma parse_acpi_total_witness :
  ∃ res, parse_acpi demo_tables (phys_to_virt 0x1000) 0 = Done res ∧ ∀ info t, res = Some (info, t) → topology_ok t.
Proof.
  apply (parse_acpi_total demo_tables (phys_to_virt 0x1000) 0).
  - split; vm_compute; congruence.
  - intros v Hv. assert (v = phys_to_virt 0x4000) as ->.
    { revert Hv. vm_compute. congruence. }
    split; vm_compute; congruence.
Defined.

(** ** Per-CPU storage as a partial map *)

Section per_cpu_map.
Context {T : Type}.
Implicit Types p : PerCpu T.

(** The value a processor would read, if it has one. *)
Definition view p (cpu : Z) : option T := if decide (0 ≤ cpu < MAX_CPUS) then mjoin (slots p !! Z.to_nat cpu) else None.

(** Flags and contents agree. *)
Definition percpu_ok p : Prop :=
  length (slots p) = Z.to_nat MAX_CPUS ∧ initialized p = (λ s, bool_decide (is_Some s)) <$> slots p.

Lemma percpu_new_ok : percpu_ok (PerCpu_new (T:=T)) ∧ ∀ cpu, view (PerCpu_new (T:=T)) cpu = None.
Proof.
  split; [split; [apply length_replicate|]|].
  - unfold PerCpu_new. cbn [slots initialized]. by rewrite fmap_replicate.
  - intros cpu. unfold view, PerCpu_new. cbn [slots]. destruct (decide _); [|done].
    by rewrite lookup_replicate_2 by (unfold MAX_CPUS in *; lia).
Qed.

Lemma view_slot p cpu : percpu_ok p → 0 ≤ cpu < MAX_CPUS →
  slots p !! Z.to_nat cpu = Some (view p cpu) ∧ initialized p !! Z.to_nat cpu = Some (bool_decide (is_Some (view p cpu))).
Proof.
  intros [Hl Hi] Hc. destruct (lookup_lt_is_Some_2 (slots p) (Z.to_nat cpu)) as [s Hs]; [lia|].
  assert (view p cpu = s) as -> by (unfold view; rewrite decide_True, Hs by done; by destruct s).
  by rewrite Hi, list_lookup_fmap, Hs.
Qed.

Lemma write_slot p cpu v : percpu_ok p → 0 ≤ cpu < MAX_CPUS →
  let p' := MkPerCpu (<[Z.to_nat cpu := Some v]> (slots p)) (<[Z.to_nat cpu := true]> (initialized p)) in
  percpu_ok p' ∧ ∀ c, 0 ≤ c → view p' c = if decide (c = cpu) then Some v else view p c.
Proof.
  intros [Hl Hi] Hc p'. split.
  - split; cbn [slots initialized p']; [by rewrite length_insert|]. rewrite Hi, list_fmap_insert. by rewrite bool_decide_true.
  - intros c Hc0. unfold view, p'. cbn [slots]. destruct (decide (c = cpu)) as [->|Hne].
    + by rewrite decide_True, list_lookup_insert_eq by lia.
    + rewrite list_lookup_insert_ne by lia. done.
Qed.

(** The per-CPU cells behave as a partial map from processor to value:
    [init] adds a binding exactly once per processor and panics on a second
    initialization and on an APIC ID of 64 or more; [get] returns the binding or
    panics; a write through [get_mut] replaces the binding; no operation touches
    the cell of another processor. *)
Theorem per_cpu_refines_map p (cpu : Z) (v : T) (f : T → T) :
  percpu_ok p → 0 ≤ cpu →
  (if decide (cpu < MAX_CPUS ∧ view p cpu = None)
   then ∃ p', PerCpu_init p cpu v = Done p' ∧ percpu_ok p' ∧
          ∀ c, 0 ≤ c → view p' c = if decide (c = cpu) then Some v else view p c
   else ∃ msg, PerCpu_init p cpu v = Panic msg) ∧
  match view p cpu with
  | Some x => PerCpu_get p cpu = Done x ∧
      ∃ p', PerCpu_get_mut p cpu f = Done p' ∧ percpu_ok p' ∧
        ∀ c, 0 ≤ c → view p' c = if decide (c = cpu) then Some (f x) else view p c
  | None => ∃ msg, PerCpu_get p cpu = Panic msg ∧ PerCpu_get_mut p cpu f = Panic msg
  end ∧
  is_initialized p cpu = Done (bool_decide (is_Some (view p cpu))).
Proof.
  intros Hp Hc. unfold PerCpu_init, PerCpu_get_mut, PerCpu_get, is_initialized.
  destruct (decide (cpu < MAX_CPUS)) as [Hlt|Hge].
  - destruct (view_slot p cpu Hp ltac:(lia)) as [Hs Hi]. pose proof Hp as [Hl Hi'].
    assert (length (initialized p) = length (slots p)) as Hl' by (by rewrite Hi', length_fmap).
    rewrite (proj2 (Z.ltb_lt _ _) Hlt), (proj2 (Z.leb_gt _ _) Hlt), (slot_get_ok _ _ _ Hi). cbn [negb]. rewrite bind_Done.
    destruct (view p cpu) as [x|] eqn:Hv.
    + rewrite decide_False by naive_solver. rewrite bool_decide_true by done. cbn [negb].
      rewrite !(slot_get_ok _ _ _ Hs). repeat (rewrite bind_Done; cbn [expect negb]). rewrite slot_set_ok, bind_Done by lia.
      split; [by eexists|]. split; [|done]. split; [done|]. eexists. split; [done|].
      destruct (write_slot p cpu (f x) Hp ltac:(lia)) as [Hok Hview].
      rewrite (list_insert_id (initialized p)) in Hok, Hview by (by rewrite Hi). done.
    + rewrite decide_True by done. rewrite bool_decide_false by (by intros [? ?]). cbn [negb].
      rewrite !slot_set_ok by lia. rewrite !bind_Done. split; [|split; [by eexists|done]].
      eexists. split; [done|]. apply write_slot; [done|lia].
  - assert (view p cpu = None) as -> by (unfold view; by rewrite decide_False by lia).
    rewrite decide_False by naive_solver.
    rewrite (proj2 (Z.ltb_ge _ _)), (proj2 (Z.leb_le _ _)) by lia. cbn [negb mbind outcome_bind].
    split; [by eexists|]. split; [by eexists|]. by rewrite bool_decide_false by (by intros [? ?]).
Qed.

End per_cpu_map.

(** The same laws one at a time, for the clients of a cell. *)
Section cells.
Context {T : Type} (p : PerCpu T) (cpu : Z) (Hp : percpu_ok p) (Hc : 0 ≤ cpu < MAX_CPUS).

Lemma cell_init v : view p cpu = None →
  ∃ p', PerCpu_init p cpu v = Done p' ∧ percpu_ok p' ∧ ∀ c, 0 ≤ c → view p' c = if decide (c = cpu) then Some v else view p c.
Proof.
  intros Hv. pose proof (per_cpu_refines_map p cpu v id Hp ltac:(lia)) as [H _].
  rewrite decide_True in H by (split; [lia|done]). exact H.
Qed.

Lemma cell_update x f : view p cpu = Some x →
  PerCpu_get p cpu = Done x ∧ ∃ p', PerCpu_get_mut p cpu f = Done p' ∧ percpu_ok p' ∧
    ∀ c, 0 ≤ c → view p' c = if decide (c = cpu) then Some (f x) else view p c.
Proof. intros Hv. pose proof (per_cpu_refines_map p cpu x f Hp ltac:(lia)) as (_ & H & _). rewrite Hv in H. exact H. Qed.

Lemma cell_init_twice v x : view p cpu = Some x → ∃ msg, PerCpu_init p cpu v = Panic msg.
Proof.
  intros Hv. pose proof (per_cpu_refines_map p cpu v id Hp ltac:(lia)) as [H _].
  rewrite decide_False in H; [exact H|]. intros [_ E]. congruence.
Qed.

End cells.

Lemma per_cpu_refines_map_witness :
  ∃ p', PerCpu_init PerCpu_new 3 5 = Done p' ∧ percpu_ok p' ∧ ∀ c, 0 ≤ c → view p' c = if decide (c = 3) then Some 5 else None.
Proof.
  destruct (percpu_new_ok (T:=Z)) as [Hok Hnone].
  pose proof (per_cpu_refines_map (PerCpu_new (T:=Z)) 3 5 Z.succ Hok ltac:(lia)) as [H _].
  rewrite decide_True in H by (split; [done | apply Hnone]).
  destruct H as (p' & ? & ? & Hv). exists p'. split; [done|]. split; [done|].
  intros c Hc. rewrite Hv, Hnone by done. done.
Defined.

(** The topology admits 64 processors with any 8-bit APIC ID, the per-CPU cells
    are indexed by APIC ID: a usable processor listed in the topology can have
    no cell. *)
Theorem topology_cpu_without_cell :
  ∃ es info t c, Forall entry_ok es ∧ madt_result 0xFEE00000 0 es = Some (info, t) ∧
    get_enabled_cpus t = Done [MkCpuInfo 0 0 true false; c] ∧ enabled c = true ∧
    ∀ T (p : PerCpu T) v, PerCpu_init p (apic_id c) v = Panic "CpuId exceeds MAX_CPUS".
Proof.
  exists [ELocalApic 0 0 1 []; ELocalApic 1 64 1 []; EIoApic 7 0 0xFEC00000 0 []]. do 2 eexists. exists (MkCpuInfo 64 1 true false).
  split; [repeat constructor; vm_compute; congruence|]. split; [vm_compute; reflexivity|].
  split; [vm_compute; reflexivity|]. split; [reflexivity|]. reflexivity.
Qed.
