(* ===== verification/Apic.v ===== *)
(** * Apic.v: the interrupt controllers and the reference timer

    [hardware_manager/hpet.rs] and [hardware_manager/apic.rs].  The devices are
    modelled as far as the code drives them: the local APIC is a block of
    registers, the I/O APIC a register file behind an index register and a data
    window, the 8259 pair the initialization state machine of its ports.  A
    register returns what was last written to it; the counter of the HPET and the
    countdown of the APIC timer, which move by themselves, are streams of
    readings given as arguments. *)

From S2P Require Import Prelude Machine MemoryManager Bytes Acpi.

Local Open Scope Z_scope.
Local Open Scope u64_scope.

(** ** HPET *)

Definition HPET : list Z := [72; 80; 69; 84].
Definition HPET_REG_CAPABILITIES : Z := 0x000.
Definition HPET_REG_CONFIG : Z := 0x010.
Definition HPET_REG_MAIN_COUNTER : Z := 0x0F0.
Definition HPET_CONFIG_ENABLE : Z := Z.shiftl 1 0.

Record HpetInfo := MkHpet {
  base_virt : Z;
  period_fs : Z;
  num_timers : Z;
  counter_64bit : bool;
  minimum_tick : Z;
}.

(** [u64] division panics on a zero divisor. *)
Definition div64 (a b : Z) : outcome Z := if b =? 0 then Panic "attempt to divide by zero" else Done (a / b).

Definition fs_to_ticks (self : HpetInfo) (fs : Z) : outcome Z := div64 fs (period_fs self).
Definition ticks_to_fs (self : HpetInfo) (ticks : Z) : Z := ticks ⊠ period_fs self.
Definition ticks_to_ns (self : HpetInfo) (ticks : Z) : Z := ticks ⊠ period_fs self / 1000000.

(** The polling loops of [spin_wait_ns] and [calibrate_timer]: read the counter
    until it has advanced by [ticks]; [reads] are the values the register
    returns, the first of them already consumed as [start].  The result is the
    elapsed count and the number of readings. *)
Fixpoint poll (fuel : nat) (reads : nat → Z) (start ticks : Z) (i : nat) : outcome (Z * nat) :=
  match fuel with
  | O => OutOfFuel
  | S fuel =>
    let elapsed := reads i ⊟ start in
    if ticks <=? elapsed then Done (elapsed, S i) else poll fuel reads start ticks (S i)
  end.

Definition spin_wait_ns (fuel : nat) (self : HpetInfo) (reads : nat → Z) (ns : Z) : outcome (Z * nat) :=
  ticks_to_wait ← fs_to_ticks self (ns ⊠ 1000000);
  poll fuel reads (reads 0%nat) ticks_to_wait 1.

(** [parse_hpet]: the body of the ACPI table follows its header; the registers
    are read, and the configuration register written, through the direct map. *)
Definition parse_hpet (m : mem) (rsdp_virt : Z) : outcome (option HpetInfo * mem) :=
  r ← find_acpi_table m rsdp_virt HPET;
  match r with
  | None => Done (None, m)
  | Some hpet_sdt =>
    let table_body := hpet_sdt ⊞ SDT_HEADER_SIZE in
    if negb (read8 m (table_body ⊞ 4) =? 0) then Done (None, m) else
    let base_phys := read_unaligned 8 m (table_body ⊞ 8) in
    if base_phys =? 0 then Done (None, m) else
    let minimum_tick := read_unaligned 2 m (table_body ⊞ 17) in
    let comparator_info := read8 m (table_body ⊞ 1) in
    let num_timers := u8 (Z.land comparator_info 0x1F + 1) in
    let counter_64bit := negb (Z.land comparator_info (Z.shiftl 1 5) =? 0) in
    let base_virt := phys_to_virt base_phys in
    let caps := pload m (base_virt ⊞ HPET_REG_CAPABILITIES) in
    let period_fs := u32 (Z.shiftr caps 32) in
    if (period_fs =? 0) || (100000000 <? period_fs) then Done (None, m) else
    let config_ptr := base_virt ⊞ HPET_REG_CONFIG in
    let config := pload m config_ptr in
    let m := if Z.land config HPET_CONFIG_ENABLE =? 0
             then pstore m config_ptr (Z.lor config HPET_CONFIG_ENABLE) else m in
    Done (Some (MkHpet base_virt period_fs num_timers counter_64bit minimum_tick), m)
  end.

(** ** Devices *)

Record machine := MkMachine {
  lapic_at : Z;
  lapic : gmap Z Z;
  io_at : Z;
  regsel : Z;
  io : gmap Z Z;
}.

Definition with_lapic (s : machine) (r : gmap Z Z) : machine := MkMachine (lapic_at s) r (io_at s) (regsel s) (io s).
Definition with_regsel (s : machine) (i : Z) : machine := MkMachine (lapic_at s) (lapic s) (io_at s) i (io s).
Definition with_io (s : machine) (r : gmap Z Z) : machine := MkMachine (lapic_at s) (lapic s) (io_at s) (regsel s) r.

Definition reg (r : gmap Z Z) (i : Z) : Z := default 0 (r !! i).

(** [write_volatile] and [read_volatile] of a [u32] at a virtual address: the
    index register and the window of the I/O APIC, the page of the local APIC,
    or memory that is neither. *)
Definition write32 (s : machine) (virt v : Z) : machine :=
  let a := direct virt in
  if a =? io_at s then with_regsel s v
  else if a =? io_at s + 0x10 then with_io s (<[regsel s := v]> (io s))
  else if (lapic_at s <=? a) && (a <? lapic_at s + PAGE_SIZE) then with_lapic s (<[a - lapic_at s := v]> (lapic s))
  else s.

Definition read32 (s : machine) (virt : Z) : Z :=
  let a := direct virt in
  if a =? io_at s then regsel s
  else if a =? io_at s + 0x10 then reg (io s) (regsel s)
  else if (lapic_at s <=? a) && (a <? lapic_at s + PAGE_SIZE) then reg (lapic s) (a - lapic_at s)
  else 0.

(** ** The driver's state *)

Definition VECTOR_TIMER : Z := 0x20.
Definition VECTOR_KEYBOARD : Z := 0x21.
Definition VECTOR_SPURIOUS : Z := 0xFF.

Definition LAPIC_TPR : Z := 0x080.
Definition LAPIC_EOI : Z := 0x0B0.
Definition LAPIC_SPURIOUS : Z := 0x0F0.
Definition LAPIC_LVT_TIMER : Z := 0x320.
Definition LAPIC_TIMER_INITIAL_COUNT : Z := 0x380.
Definition LAPIC_TIMER_CURRENT_COUNT : Z := 0x390.
Definition LAPIC_TIMER_DCR : Z := 0x3E0.
Definition LVT_TIMER_ONE_SHOT : Z := 0.
Definition LVT_TIMER_MASKED : Z := Z.shiftl 1 16.
Definition CALIBRATION_MS : Z := 10.
Definition LAPIC_SPURIOUS_ENABLE : Z := Z.shiftl 1 8.
Definition LVT_TIMER_PERIODIC : Z := Z.shiftl 1 17.
Definition LVT_MASKED : Z := Z.shiftl 1 16.
Definition TIMER_DIVIDE_BY_16 : Z := 0x3.
Definition IOAPIC_REG_VER : Z := 0x01.
Definition IOAPIC_REG_REDIRECT_TABLE : Z := 0x10.
Definition IOAPIC_MASKED : Z := Z.shiftl 1 16.

(** The statics of the driver, and the devices. *)
Record Apic := MkApic {
  LAPIC_BASE : Z;
  IOAPIC_BASE : Z;
  APIC_INITIALIZED : bool;
  hw : machine;
}.

Definition with_hw (a : Apic) (s : machine) : Apic := MkApic (LAPIC_BASE a) (IOAPIC_BASE a) (APIC_INITIALIZED a) s.

Definition Apic_static (s : machine) : Apic := MkApic 0xFEE00000 0xFEC00000 false s.

Definition lapic_read (a : Apic) (reg_offset : Z) : Z := read32 (hw a) (LAPIC_BASE a ⊞ reg_offset).
Definition lapic_write (a : Apic) (reg_offset value : Z) : Apic :=
  with_hw a (write32 (hw a) (LAPIC_BASE a ⊞ reg_offset) value).

Definition ioapic_read (a : Apic) (reg_index : Z) : Z * Apic :=
  let a := with_hw a (write32 (hw a) (IOAPIC_BASE a) reg_index) in
  (read32 (hw a) (IOAPIC_BASE a ⊞ 0x10), a).

Definition ioapic_write (a : Apic) (reg_index val : Z) : Apic :=
  let a := with_hw a (write32 (hw a) (IOAPIC_BASE a) reg_index) in
  with_hw a (write32 (hw a) (IOAPIC_BASE a ⊞ 0x10) val).

Definition ioapic_write_redirect (a : Apic) (irq value : Z) : Apic :=
  let reg_low := u32 (IOAPIC_REG_REDIRECT_TABLE + 2 * irq) in
  let reg_high := u32 (reg_low + 1) in
  let a := ioapic_write a reg_high (u32 (Z.shiftr value 32)) in
  ioapic_write a reg_low (u32 value).

(** The port writes of [disable_pic_8259], in order. *)
Definition disable_pic_8259 : list (Z * Z) :=
  [(0x20, 0x11); (0xA0, 0x11); (0x21, 0x20); (0xA1, 0x28); (0x21, 0x04); (0xA1, 0x02);
   (0x21, 0x01); (0xA1, 0x01); (0x21, 0xFF); (0xA1, 0xFF)].

Definition init_local_apic (a : Apic) : Apic :=
  let a := lapic_write a LAPIC_TPR 0 in
  let a := lapic_write a LAPIC_SPURIOUS (Z.lor VECTOR_SPURIOUS LAPIC_SPURIOUS_ENABLE) in
  lapic_write a LAPIC_LVT_TIMER LVT_MASKED.

(** [lo | IOAPIC_MASKED] and [lo & !IOAPIC_MASKED], read-modify-write. *)
Definition ioapic_mask_irq (a : Apic) (irq : Z) : Apic :=
  let reg := u32 (IOAPIC_REG_REDIRECT_TABLE + 2 * irq) in
  let '(lo, a) := ioapic_read a reg in
  ioapic_write a reg (Z.lor lo IOAPIC_MASKED).

Definition ioapic_unmask_irq (a : Apic) (irq : Z) : Apic :=
  let reg := u32 (IOAPIC_REG_REDIRECT_TABLE + 2 * irq) in
  let '(lo, a) := ioapic_read a reg in
  ioapic_write a reg (Z.land lo (not32 IOAPIC_MASKED)).

(** [for irq in 0..max_redir as u8]: the bound is truncated to a byte. *)
Fixpoint mask_from (n : nat) (irq : Z) (a : Apic) : Apic :=
  match n with O => a | S n => mask_from n (irq + 1) (ioapic_mask_irq a irq) end.

Definition redir_keyboard : Z :=
  Z.lor (Z.lor (Z.lor (Z.lor (Z.lor (Z.lor VECTOR_KEYBOARD (Z.shiftl 0 8)) (Z.shiftl 0 11)) (Z.shiftl 0 13)) (Z.shiftl 0 15))
    IOAPIC_MASKED) (Z.shiftl 0 56).

Definition init_io_apic (a : Apic) : Apic :=
  let '(ver, a) := ioapic_read a IOAPIC_REG_VER in
  let max_redir := Z.land (Z.shiftr ver 16) 0xFF + 1 in
  let a := mask_from (Z.to_nat (u8 max_redir)) 0 a in
  ioapic_write_redirect a 1 redir_keyboard.

Definition init_apic (a : Apic) (local_apic_phys io_apic_phys : Z) : Apic :=
  let a := MkApic (if negb (local_apic_phys =? 0) then phys_to_virt local_apic_phys else phys_to_virt 0xFEE00000)
             (if negb (io_apic_phys =? 0) then phys_to_virt io_apic_phys else phys_to_virt 0xFEC00000)
             (APIC_INITIALIZED a) (hw a) in
  let a := init_local_apic a in
  let a := init_io_apic a in
  MkApic (LAPIC_BASE a) (IOAPIC_BASE a) true (hw a).

Definition configure_timer (a : Apic) (initial_count : Z) : Apic :=
  let a := lapic_write a LAPIC_TIMER_DCR TIMER_DIVIDE_BY_16 in
  let a := lapic_write a LAPIC_LVT_TIMER (Z.lor VECTOR_TIMER LVT_TIMER_PERIODIC) in
  lapic_write a LAPIC_TIMER_INITIAL_COUNT initial_count.

(** The countdown moves by itself: the current-count register shows [count]. *)
Definition show_count (a : Apic) (count : Z) : Apic :=
  with_hw a (with_lapic (hw a) (<[LAPIC_TIMER_CURRENT_COUNT := count]> (lapic (hw a)))).

(** [count] is what the countdown has reached when the wait is over. *)
Definition calibrate_timer (fuel : nat) (a : Apic) (hpet : HpetInfo) (reads : nat → Z) (count : Z) : outcome (Z * Apic) :=
  let a := lapic_write a LAPIC_TIMER_DCR TIMER_DIVIDE_BY_16 in
  let a := lapic_write a LAPIC_LVT_TIMER (Z.lor (Z.lor VECTOR_TIMER LVT_TIMER_ONE_SHOT) LVT_TIMER_MASKED) in
  let a := lapic_write a LAPIC_TIMER_INITIAL_COUNT 0xFFFFFFFF in
  hpet_ticks_per_cal ← div64 (CALIBRATION_MS ⊠ 1000000000000) (period_fs hpet);
  _ ← poll fuel reads (reads 0%nat) hpet_ticks_per_cal 1;
  let a := show_count a count in
  let apic_end := lapic_read a LAPIC_TIMER_CURRENT_COUNT in
  let apic_ticks_elapsed := u32 (0xFFFFFFFF - apic_end) in
  let apic_ticks_per_ms := apic_ticks_elapsed / CALIBRATION_MS in
  Done (apic_ticks_per_ms, lapic_write a LAPIC_TIMER_INITIAL_COUNT 0).

Definition eoi (a : Apic) : Apic := lapic_write a LAPIC_EOI 0.

(** ** Waiting on the HPET *)

Lemma poll_ok reads start ticks n i fuel :
  (i ≤ n)%nat → (∀ j, (i ≤ j < n)%nat → reads j ⊟ start < ticks) → ticks ≤ reads n ⊟ start → (n - i < fuel)%nat →
  poll fuel reads start ticks i = Done (reads n ⊟ start, S n).
Proof.
  revert i. induction fuel as [|fuel IH]; intros i Hi Hlow Hn Hf; [lia|]. cbn [poll].
  destruct (decide (i = n)) as [->|Hne].
  - by rewrite (proj2 (Z.leb_le _ _)).
  - rewrite (proj2 (Z.leb_gt _ _)) by (apply Hlow; lia). apply IH; try lia. intros j Hj. apply Hlow. lia.
Qed.

(** The [n]-th reading is the first, after the initial one, at which [ticks] have
    passed on the time line [time]. *)
Definition first_after (time : nat → Z) (ticks : Z) (n : nat) : Prop :=
  (0 < n)%nat ∧ (∀ j, (0 < j < n)%nat → 0 ≤ time j - time 0%nat < ticks) ∧
  0 ≤ time n - time 0%nat < W64 ∧ ticks ≤ time n - time 0%nat.

(** A counter of [bits] bits sampled along a time line. *)
Definition counter (bits : Z) (time : nat → Z) : nat → Z := λ i, time i mod 2 ^ bits.

Lemma counter64_elapsed time i : 0 ≤ time i - time 0%nat < W64 → counter 64 time i ⊟ counter 64 time 0%nat = time i - time 0%nat.
Proof.
  intros H. unfold counter, u64. change (2 ^ 64) with W64. rewrite <- Zminus_mod. by apply Z.mod_small.
Qed.

Lemma poll_counter64 time ticks n : ticks ≤ W64 → first_after time ticks n →
  poll n (counter 64 time) (counter 64 time 0%nat) ticks 1 = Done (time n - time 0%nat, S n).
Proof.
  intros Ht (Hn & Hlow & Hrange & Hend). rewrite (poll_ok _ _ _ n).
  - by rewrite counter64_elapsed.
  - lia.
  - intros j Hj. rewrite counter64_elapsed; [apply Hlow; lia|]. specialize (Hlow j ltac:(lia)). lia.
  - by rewrite counter64_elapsed.
  - lia.
Qed.

(** Waiting on a 64-bit HPET: for a period that [parse_hpet] accepts and a
    delay below 2^64 femtoseconds, [spin_wait_ns] stops at the first reading that
    is the requested number of ticks after the start, also when the counter wraps
    around zero in between, and returns the true number of elapsed ticks; the
    elapsed time falls short of the requested nanoseconds by less than one period
    of the counter. *)
Theorem spin_wait_64bit (h : HpetInfo) (time : nat → Z) (ns : Z) (n : nat) :
  0 < period_fs h ≤ 100000000 → 0 ≤ ns → ns * 1000000 < W64 →
  first_after time (ns * 1000000 / period_fs h) n →
  spin_wait_ns n h (counter 64 time) ns = Done (time n - time 0%nat, S n) ∧
  ns * 1000000 < (time n - time 0%nat + 1) * period_fs h.
Proof.
  intros Hp Hns Hov Hf. unfold spin_wait_ns, fs_to_ticks, div64. rewrite (proj2 (Z.eqb_neq _ _)) by lia.
  rewrite u64_small, bind_Done by lia. split.
  - apply poll_counter64; [|done]. apply Z.div_le_upper_bound; [lia|]. unfold W64 in *. nia.
  - destruct Hf as (_ & _ & _ & Hend). pose proof (Z.div_mod (ns * 1000000) (period_fs h) ltac:(lia)).
    pose proof (Z.mod_pos_bound (ns * 1000000) (period_fs h) ltac:(lia)). nia.
Qed.

Lemma spin_wait_64bit_witness :
  let h := MkHpet 0 10000000 3 true 0 in let time := λ i, W64 - 5 + 4 * Z.of_nat i in
  spin_wait_ns 3 h (counter 64 time) 100 = Done (12, 4%nat) ∧ 100 * 1000000 < 13 * 10000000.
Proof.
  apply (spin_wait_64bit (MkHpet 0 10000000 3 true 0) (λ i, W64 - 5 + 4 * Z.of_nat i) 100 3); cbn [period_fs].
  - lia.
  - lia.
  - reflexivity.
  - change (100 * 1000000 / 10000000) with 10. split; [lia|]. split; [intros j Hj; lia|]. unfold W64. lia.
Defined.

(** The same code on a 32-bit counter: the first reading after the counter has
    wrapped ends the wait, however long it was meant to be. *)
Theorem spin_wait_32bit_wrap (reads : nat → Z) (start ticks : Z) (i fuel : nat) :
  0 ≤ reads i < start → start < 2 ^ 32 → ticks ≤ W64 - 2 ^ 32 →
  poll (S fuel) reads start ticks i = Done (W64 + reads i - start, S i).
Proof.
  intros Hr Hs Ht. cbn [poll].
  assert (reads i ⊟ start = W64 + reads i - start) as ->.
  { unfold u64. rewrite <- (Z.mod_small (W64 + reads i - start) W64) by (unfold W64; lia).
    replace (W64 + reads i - start) with (reads i - start + 1 * W64) by lia. by rewrite Z.mod_add. }
  by rewrite (proj2 (Z.leb_le _ _)) by lia.
Qed.

Lemma spin_wait_32bit_wrap_witness :
  poll 1 (λ i, if (i =? 0)%nat then 2 ^ 32 - 1 else 0) (2 ^ 32 - 1) 1000000000 1 = Done (W64 - (2 ^ 32 - 1), 2%nat).
Proof. apply (spin_wait_32bit_wrap (λ i, if (i =? 0)%nat then 2 ^ 32 - 1 else 0) (2 ^ 32 - 1) 1000000000 1 0); [simpl; lia | lia | vm_compute; congruence]. Defined.

(** ** The 8259 pair

    A controller as its two ports show it: after ICW1 it takes ICW2, ICW3 and
    ICW4 on the data port; otherwise the data port is the mask register. *)

Inductive pic_phase := Operating | WantIcw2 | WantIcw3 | WantIcw4.

Record pic := MkPic {
  phase : pic_phase;
  vector_base : Z;
  cascade : Z;
  mode : Z;
  imr : Z;
}.

Definition pic_command (p : pic) (v : Z) : pic :=
  if Z.testbit v 4 then MkPic WantIcw2 (vector_base p) (cascade p) (mode p) 0 else p.

Definition pic_data (p : pic) (v : Z) : pic :=
  match phase p with
  | WantIcw2 => MkPic WantIcw3 v (cascade p) (mode p) (imr p)
  | WantIcw3 => MkPic WantIcw4 (vector_base p) v (mode p) (imr p)
  | WantIcw4 => MkPic Operating (vector_base p) (cascade p) v (imr p)
  | Operating => MkPic Operating (vector_base p) (cascade p) (mode p) v
  end.

(** A write to an I/O port, seen by the master and the slave. *)
Definition pic_out (s : pic * pic) (w : Z * Z) : pic * pic :=
  let '(master, slave) := s in let '(port, v) := w in
  if port =? 0x20 then (pic_command master v, slave)
  else if port =? 0x21 then (pic_data master v, slave)
  else if port =? 0xA0 then (master, pic_command slave v)
  else if port =? 0xA1 then (master, pic_data slave v)
  else s.

(** [disable_pic_8259] leaves both legacy controllers operating with every
    line masked and their vectors at 0x20 and 0x28, from whatever state the
    firmware left them in, an unfinished initialization included.  Those vectors
    are those of the APIC timer and the keyboard: IRQ 0 and IRQ 1 of the
    controllers would arrive at their handlers, not at unused entries. *)
Theorem pic_disabled (s : pic * pic) :
  foldl pic_out s disable_pic_8259 = (MkPic Operating 0x20 0x04 0x01 0xFF, MkPic Operating 0x28 0x02 0x01 0xFF) ∧
  vector_base (foldl pic_out s disable_pic_8259).1 + 0 = VECTOR_TIMER ∧
  vector_base (foldl pic_out s disable_pic_8259).1 + 1 = VECTOR_KEYBOARD.
Proof. destruct s as [master slave]. by destruct master, slave. Qed.

(** ** Programming the APICs *)

(** The driver's base addresses point at the devices, whose pages are apart. *)
Record wired (a : Apic) : Prop := {
  w_lapic : LAPIC_BASE a = phys_to_virt (lapic_at (hw a));
  w_ioapic : IOAPIC_BASE a = phys_to_virt (io_at (hw a));
  w_lapic_range : 0 ≤ lapic_at (hw a) ∧ lapic_at (hw a) + PAGE_SIZE ≤ PHYS_LIMIT;
  w_io_range : 0 ≤ io_at (hw a) ∧ io_at (hw a) + 0x20 ≤ PHYS_LIMIT;
  w_apart : apart (lapic_at (hw a)) PAGE_SIZE (io_at (hw a)) 0x20;
}.

(** The I/O APIC register file after a write through the window. *)
Definition io_set (a : Apic) (i v : Z) : Apic :=
  with_hw a (with_io (with_regsel (hw a) i) (<[i := v]> (io (hw a)))).

Lemma lapic_write_ok a off v : wired a → 0 ≤ off < PAGE_SIZE →
  lapic_write a off v = with_hw a (with_lapic (hw a) (<[off := v]> (lapic (hw a)))) ∧ wired (lapic_write a off v).
Proof.
  intros [Hl Hi Hlr Hir Hap] Ho. unfold lapic_write, write32.
  rewrite Hl, virt_add, direct_virt by lia. unfold apart in Hap.
  rewrite (proj2 (Z.eqb_neq _ _)) by lia. rewrite (proj2 (Z.eqb_neq _ _)) by lia.
  rewrite (proj2 (Z.leb_le _ _)), (proj2 (Z.ltb_lt _ _)) by lia. cbn [andb].
  replace (lapic_at (hw a) + off - lapic_at (hw a)) with off by lia.
  split; [done|]. by constructor; cbn.
Qed.

Lemma lapic_read_ok a off : wired a → 0 ≤ off < PAGE_SIZE → lapic_read a off = reg (lapic (hw a)) off.
Proof.
  intros [Hl Hi Hlr Hir Hap] Ho. unfold lapic_read, read32. rewrite Hl, virt_add, direct_virt by lia. unfold apart in Hap.
  rewrite (proj2 (Z.eqb_neq _ _)) by lia. rewrite (proj2 (Z.eqb_neq _ _)) by lia.
  rewrite (proj2 (Z.leb_le _ _)), (proj2 (Z.ltb_lt _ _)) by lia. cbn [andb]. f_equal. lia.
Qed.

Lemma io_write_index a i : wired a → write32 (hw a) (IOAPIC_BASE a) i = with_regsel (hw a) i.
Proof. intros [Hl Hi Hlr Hir Hap]. unfold write32. rewrite Hi, direct_virt by lia. by rewrite Z.eqb_refl. Qed.

Lemma wired_with_regsel a i : wired a → wired (with_hw a (with_regsel (hw a) i)).
Proof. intros []. by constructor; cbn. Qed.

Lemma ioapic_read_ok a i : wired a →
  ioapic_read a i = (reg (io (hw a)) i, with_hw a (with_regsel (hw a) i)) ∧ wired (with_hw a (with_regsel (hw a) i)).
Proof.
  intros Hw. split; [|by apply wired_with_regsel]. unfold ioapic_read. rewrite io_write_index by done.
  f_equal. destruct Hw as [Hl Hi Hlr Hir Hap]. unfold read32. cbn [hw with_hw IOAPIC_BASE io_at with_regsel regsel io].
  rewrite Hi, virt_add, direct_virt by lia. rewrite (proj2 (Z.eqb_neq _ _)) by lia. by rewrite Z.eqb_refl.
Qed.

Lemma ioapic_write_ok a i v : wired a → ioapic_write a i v = io_set a i v ∧ wired (io_set a i v).
Proof.
  intros Hw. unfold ioapic_write. rewrite io_write_index by done. destruct Hw as [Hl Hi Hlr Hir Hap]. split.
  - unfold write32, io_set. cbn [hw with_hw IOAPIC_BASE io_at with_regsel regsel io].
    rewrite Hi, virt_add, direct_virt by lia. rewrite (proj2 (Z.eqb_neq _ _)) by lia. by rewrite Z.eqb_refl.
  - by constructor; cbn.
Qed.

(** The register file and the local APIC after [io_set]. *)
Lemma io_set_reg a i v j : reg (io (hw (io_set a i v))) j = if decide (j = i) then v else reg (io (hw a)) j.
Proof. unfold reg. cbn. destruct (decide (j = i)) as [->|]; [by rewrite lookup_insert_eq | by rewrite lookup_insert_ne]. Qed.

(** Index of the low word of an entry. *)
Definition redir (irq : Z) : Z := IOAPIC_REG_REDIRECT_TABLE + 2 * irq.

Lemma redir_u32 irq : 0 ≤ irq < 256 → u32 (IOAPIC_REG_REDIRECT_TABLE + 2 * irq) = redir irq.
Proof. intros. unfold redir, IOAPIC_REG_REDIRECT_TABLE, u32. apply Z.mod_small. lia. Qed.

(** What an operation may change: the I/O APIC registers, in the way given. *)
Definition io_update (a a' : Apic) (f : Z → Z) : Prop :=
  wired a' ∧ LAPIC_BASE a' = LAPIC_BASE a ∧ IOAPIC_BASE a' = IOAPIC_BASE a ∧ APIC_INITIALIZED a' = APIC_INITIALIZED a ∧
  lapic (hw a') = lapic (hw a) ∧ lapic_at (hw a') = lapic_at (hw a) ∧ io_at (hw a') = io_at (hw a) ∧
  ∀ j, reg (io (hw a')) j = f j.

Lemma ioapic_write_update a i v : wired a →
  io_update a (ioapic_write a i v) (λ j, if decide (j = i) then v else reg (io (hw a)) j).
Proof.
  intros Hw. destruct (ioapic_write_ok a i v Hw) as [-> Hw']. repeat (split; [done|]). intros j. apply io_set_reg.
Qed.

Lemma io_modify a i f : wired a →
  io_update a (let '(lo, a') := ioapic_read a i in ioapic_write a' i (f lo))
    (λ j, if decide (j = i) then f (reg (io (hw a)) i) else reg (io (hw a)) j).
Proof.
  intros Hw. destruct (ioapic_read_ok a i Hw) as [-> Hw'].
  exact (ioapic_write_update (with_hw a (with_regsel (hw a) i)) i (f (reg (io (hw a)) i)) Hw').
Qed.

Lemma io_update_trans a b c f g : io_update a b f → io_update b c g → io_update a c g.
Proof. unfold io_update. intros (? & ? & ? & ? & ? & ? & ? & _) (? & ? & ? & ? & ? & ? & ? & ?). split_and!; congruence || done. Qed.


(** [j] is the low word of an entry of the pins [k .. k + n). *)
Definition low_word (k n j : Z) : bool := (redir k <=? j) && (j <? redir (k + n)) && Z.even j.

Lemma low_word_succ k n j : 0 ≤ n → low_word k (1 + n) j = (j =? redir k) || low_word (k + 1) n j.
Proof.
  intros Hn. unfold low_word, redir, IOAPIC_REG_REDIRECT_TABLE.
  replace (k + (1 + n)) with (k + 1 + n) by lia. destruct (Z.eqb_spec j (16 + 2 * k)) as [->|Hne]; cbn [orb].
  - rewrite (proj2 (Z.leb_le _ _)), (proj2 (Z.ltb_lt _ _)) by lia. cbn [andb].
    replace (16 + 2 * k) with (2 * (8 + k)) by lia. by rewrite Z.even_mul.
  - destruct (Z.even j) eqn:Hev; [|by rewrite !andb_false_r]. rewrite !andb_true_r. f_equal.
    apply Z.even_spec in Hev as [q ->]. apply eq_true_iff_eq. rewrite !Z.leb_le. lia.
Qed.

Lemma mask_from_ok n k a : wired a → 0 ≤ k → k + Z.of_nat n ≤ 256 →
  io_update a (mask_from n k a)
    (λ j, if low_word k (Z.of_nat n) j then Z.lor (reg (io (hw a)) j) IOAPIC_MASKED else reg (io (hw a)) j).
Proof.
  revert k a. induction n as [|n IH]; intros k a Hw Hk Hn.
  - cbn [mask_from]. repeat (split; [done|]). intros j. unfold low_word.
    destruct (Z.leb_spec (redir k) j), (Z.ltb_spec j (redir (k + Z.of_nat 0))); try done. unfold redir in *. lia.
  - cbn [mask_from]. assert (io_update a (ioapic_mask_irq a k)
      (λ j, if decide (j = redir k) then Z.lor (reg (io (hw a)) (redir k)) IOAPIC_MASKED else reg (io (hw a)) j)) as H1.
    { unfold ioapic_mask_irq. cbn zeta. rewrite redir_u32 by lia.
      exact (io_modify a (redir k) (λ lo, Z.lor lo IOAPIC_MASKED) Hw). }
    specialize (IH (k + 1) (ioapic_mask_irq a k) (proj1 H1) ltac:(lia) ltac:(lia)).
    destruct (io_update_trans _ _ _ _ _ H1 IH) as (Hw' & ? & ? & ? & ? & ? & ? & Hreg).
    repeat (split; [done|]). intros j. rewrite Hreg. destruct H1 as (_ & _ & _ & _ & _ & _ & _ & Hr1). rewrite Hr1.
    replace (Z.of_nat (S n)) with (1 + Z.of_nat n) by lia. rewrite low_word_succ by lia.
    destruct (Z.eqb_spec j (redir k)) as [->|Hne]; cbn [orb].
    + rewrite decide_True by done. unfold low_word.
      rewrite (proj2 (Z.leb_gt _ _)) by (unfold redir; lia). done.
    + by rewrite decide_False.
Qed.

Lemma write_redirect_ok a irq v : wired a → 0 ≤ irq < 256 →
  io_update a (ioapic_write_redirect a irq v)
    (λ j, if decide (j = redir irq) then u32 v else if decide (j = redir irq + 1) then u32 (Z.shiftr v 32) else reg (io (hw a)) j).
Proof.
  intros Hw Hirq. unfold ioapic_write_redirect. cbn zeta. rewrite !redir_u32 by done.
  assert (u32 (redir irq + 1) = redir irq + 1) as ->
    by (unfold u32; apply Z.mod_small; unfold redir, IOAPIC_REG_REDIRECT_TABLE; lia).
  pose proof (ioapic_write_update a (redir irq + 1) (u32 (Z.shiftr v 32)) Hw) as H1.
  pose proof (ioapic_write_update _ (redir irq) (u32 v) (proj1 H1)) as H2.
  destruct (io_update_trans _ _ _ _ _ H1 H2) as (? & ? & ? & ? & ? & ? & ? & Hr). repeat (split; [done|]).
  intros j. rewrite Hr. destruct H1 as (_ & _ & _ & _ & _ & _ & _ & Hr1). by rewrite Hr1.
Qed.

(** The number of entries the I/O APIC reports, truncated to a byte as the loop
    bound of [init_io_apic] is. *)
Definition entries_of (r : gmap Z Z) : Z := Z.land (Z.shiftr (reg r IOAPIC_REG_VER) 16) 0xFF + 1.

Lemma entries_range r : 1 ≤ entries_of r ≤ 256.
Proof. unfold entries_of. change 0xFF with (Z.ones 8). rewrite Z.land_ones by lia. pose proof (Z.mod_pos_bound (Z.shiftr (reg r IOAPIC_REG_VER) 16) (2 ^ 8)). lia. Qed.

Lemma init_io_apic_ok a : wired a →
  io_update a (init_io_apic a)
    (λ j, if decide (j = redir 1) then redir_keyboard else if decide (j = redir 1 + 1) then 0
          else if low_word 0 (u8 (entries_of (io (hw a)))) j then Z.lor (reg (io (hw a)) j) IOAPIC_MASKED
          else reg (io (hw a)) j).
Proof.
  intros Hw. unfold init_io_apic. destruct (ioapic_read_ok a IOAPIC_REG_VER Hw) as [-> Hw1]. cbn zeta.
  change (Z.land (Z.shiftr (reg (io (hw a)) IOAPIC_REG_VER) 16) 255 + 1) with (entries_of (io (hw a))).
  assert (0 ≤ u8 (entries_of (io (hw a))) < 256) as Hu by (apply Z.mod_pos_bound; lia).
  set (a1 := with_hw a (with_regsel (hw a) IOAPIC_REG_VER)) in *.
  pose proof (mask_from_ok (Z.to_nat (u8 (entries_of (io (hw a))))) 0 a1 Hw1 ltac:(lia) ltac:(lia)) as H1.
  pose proof (write_redirect_ok _ 1 redir_keyboard (proj1 H1) ltac:(lia)) as H2.
  destruct (io_update_trans _ _ _ _ _ H1 H2) as (? & ? & ? & ? & ? & ? & ? & Hr). repeat (split; [done|]).
  intros j. rewrite Hr. destruct H1 as (_ & _ & _ & _ & _ & _ & _ & Hr1). rewrite Hr1, Z2Nat.id by lia. done.
Qed.

(** What an operation on the local APIC changes. *)
Definition lapic_update (a a' : Apic) (r : gmap Z Z) : Prop :=
  wired a' ∧ LAPIC_BASE a' = LAPIC_BASE a ∧ IOAPIC_BASE a' = IOAPIC_BASE a ∧ APIC_INITIALIZED a' = APIC_INITIALIZED a ∧
  io (hw a') = io (hw a) ∧ lapic_at (hw a') = lapic_at (hw a) ∧ io_at (hw a') = io_at (hw a) ∧
  lapic (hw a') = r.

Lemma lapic_write_update a off v : wired a → 0 ≤ off < PAGE_SIZE →
  lapic_update a (lapic_write a off v) (<[off := v]> (lapic (hw a))).
Proof. intros Hw Ho. destruct (lapic_write_ok a off v Hw Ho) as [E Hw']. split; [done|]. by rewrite E. Qed.

Lemma lapic_update_trans a b c r r' : lapic_update a b r → lapic_update b c r' → lapic_update a c r'.
Proof. unfold lapic_update. intros (? & ? & ? & ? & ? & ? & ? & _) (? & ? & ? & ? & ? & ? & ? & ?). split_and!; congruence || done. Qed.

(** One register write after others. *)
Lemma lapic_write_after a b r off v : lapic_update a b r → 0 ≤ off < PAGE_SIZE →
  lapic_update a (lapic_write b off v) (<[off := v]> r).
Proof.
  intros H Ho. pose proof (lapic_write_update b off v (proj1 H) Ho) as H2.
  destruct H as (Hw & ? & ? & ? & ? & ? & ? & <-). eapply lapic_update_trans; [|exact H2]. by split_and!.
Qed.

Lemma lapic_update_refl a : wired a → lapic_update a a (lapic (hw a)).
Proof. intros Hw. by split_and!. Qed.

Lemma init_local_apic_ok a : wired a →
  lapic_update a (init_local_apic a) (<[LAPIC_LVT_TIMER := LVT_MASKED]> (<[LAPIC_SPURIOUS := 0x1FF]> (<[LAPIC_TPR := 0]> (lapic (hw a))))).
Proof. intros Hw. unfold init_local_apic. repeat apply lapic_write_after; [by apply lapic_update_refl | vm_compute; split; congruence..]. Qed.

Lemma configure_timer_ok a n : wired a →
  lapic_update a (configure_timer a n)
    (<[LAPIC_TIMER_INITIAL_COUNT := n]> (<[LAPIC_LVT_TIMER := 0x20020]> (<[LAPIC_TIMER_DCR := 3]> (lapic (hw a))))).
Proof. intros Hw. unfold configure_timer. repeat apply lapic_write_after; [by apply lapic_update_refl | vm_compute; split; congruence..]. Qed.

Lemma calibrate_timer_ok a h time n count :
  wired a → 0 < period_fs h ≤ 100000000 → first_after time (10000000000000 / period_fs h) n → 0 ≤ count ≤ 0xFFFFFFFF →
  ∃ a', calibrate_timer n a h (counter 64 time) count = Done ((0xFFFFFFFF - count) / 10, a') ∧
    lapic_update a a' (<[LAPIC_TIMER_INITIAL_COUNT := 0]> (<[LAPIC_TIMER_CURRENT_COUNT := count]>
      (<[LAPIC_TIMER_INITIAL_COUNT := 0xFFFFFFFF]> (<[LAPIC_LVT_TIMER := 0x10020]> (<[LAPIC_TIMER_DCR := 3]> (lapic (hw a))))))).
Proof.
  intros Hw Hp Hf Hc. unfold calibrate_timer. cbn zeta.
  set (a1 := lapic_write _ LAPIC_TIMER_INITIAL_COUNT _).
  assert (lapic_update a a1 (<[LAPIC_TIMER_INITIAL_COUNT := 0xFFFFFFFF]> (<[LAPIC_LVT_TIMER := 0x10020]> (<[LAPIC_TIMER_DCR := 3]> (lapic (hw a)))))) as H1.
  { unfold a1. repeat apply lapic_write_after; [by apply lapic_update_refl | vm_compute; split; congruence..]. }
  clearbody a1. unfold div64. rewrite (proj2 (Z.eqb_neq _ _)) by lia. rewrite bind_Done.
  change (CALIBRATION_MS ⊠ 1000000000000) with 10000000000000.
  rewrite poll_counter64; [|apply Z.div_le_upper_bound; [lia|]; unfold W64; nia|done]. rewrite bind_Done.
  assert (lapic_update a (show_count a1 count) (<[LAPIC_TIMER_CURRENT_COUNT := count]> (<[LAPIC_TIMER_INITIAL_COUNT := 0xFFFFFFFF]> (<[LAPIC_LVT_TIMER := 0x10020]> (<[LAPIC_TIMER_DCR := 3]> (lapic (hw a))))))) as H2.
  { destruct H1 as ([] & ? & ? & ? & ? & ? & ? & <-). split_and!; done || by constructor; cbn. }
  rewrite lapic_read_ok by (exact (proj1 H2) || (vm_compute; split; congruence)).
  assert (reg (lapic (hw (show_count a1 count))) LAPIC_TIMER_CURRENT_COUNT = count) as ->.
  { unfold reg, show_count. cbn [hw with_hw with_lapic lapic]. by rewrite lookup_insert_eq. }
  eexists. split; [|apply lapic_write_after; [exact H2 | vm_compute; split; congruence]].
  do 3 f_equal. unfold u32. apply Z.mod_small. lia.
Qed.

(** [main.rs] from [init_apic] to [ioapic_unmask_irq]. *)
Definition start_interrupts (fuel : nat) (a : Apic) (info : ApicInfo) (hpet : HpetInfo) (reads : nat → Z) (count : Z) : outcome Apic :=
  let a := init_apic a (local_apic_phys info) (io_apic_phys info) in
  '(apic_ticks_per_ms, a) ← calibrate_timer fuel a hpet reads count;
  let a := configure_timer a apic_ticks_per_ms in
  Done (ioapic_unmask_irq a 1).

(** The devices are where the firmware tables say, or at the default address
    where the tables give none. *)
Definition devices_at (s : machine) (info : ApicInfo) : Prop :=
  lapic_at s = (if local_apic_phys info =? 0 then 0xFEE00000 else local_apic_phys info) ∧
  io_at s = (if io_apic_phys info =? 0 then 0xFEC00000 else io_apic_phys info) ∧
  (0 ≤ lapic_at s ∧ lapic_at s + PAGE_SIZE ≤ PHYS_LIMIT) ∧ (0 ≤ io_at s ∧ io_at s + 0x20 ≤ PHYS_LIMIT) ∧
  apart (lapic_at s) PAGE_SIZE (io_at s) 0x20.

(** The registers of the I/O APIC after [init_io_apic], from those before. *)
Definition io_initialized (r : gmap Z Z) (j : Z) : Z :=
  if decide (j = redir 1) then redir_keyboard else if decide (j = redir 1 + 1) then 0
  else if low_word 0 (u8 (entries_of r)) j then Z.lor (reg r j) IOAPIC_MASKED else reg r j.

Lemma init_devices_ok a : wired a →
  let a' := init_io_apic (init_local_apic a) in
  wired a' ∧ io_at (hw a') = io_at (hw a) ∧
  lapic (hw a') = <[LAPIC_LVT_TIMER := LVT_MASKED]> (<[LAPIC_SPURIOUS := 0x1FF]> (<[LAPIC_TPR := 0]> (lapic (hw a)))) ∧
  ∀ j, reg (io (hw a')) j = io_initialized (io (hw a)) j.
Proof.
  intros Hw a'. pose proof (init_local_apic_ok a Hw) as H1. pose proof (init_io_apic_ok _ (proj1 H1)) as H2. fold a' in H2.
  clearbody a'. revert H1 H2. generalize (init_local_apic a). intros a2.
  intros (_ & _ & _ & _ & Hio & _ & Hia & Hl) (Hw3 & _ & _ & _ & Hl3 & _ & Hia3 & Hr).
  split; [exact Hw3|]. split; [congruence|]. split; [congruence|]. intros j. rewrite Hr, Hio. reflexivity.
Qed.

Lemma wired_flag a b : wired a → wired (MkApic (LAPIC_BASE a) (IOAPIC_BASE a) b (hw a)).
Proof. intros []. constructor; assumption. Qed.

Lemma wired_at a info : devices_at (hw a) info →
  wired (MkApic (if negb (local_apic_phys info =? 0) then phys_to_virt (local_apic_phys info) else phys_to_virt 0xFEE00000)
           (if negb (io_apic_phys info =? 0) then phys_to_virt (io_apic_phys info) else phys_to_virt 0xFEC00000)
           (APIC_INITIALIZED a) (hw a)).
Proof.
  intros (Hl & Hi & Hlr & Hir & Hap). constructor; [| |exact Hlr|exact Hir|exact Hap]; cbn [LAPIC_BASE IOAPIC_BASE hw].
  - rewrite Hl. destruct (local_apic_phys info =? 0); reflexivity.
  - rewrite Hi. destruct (io_apic_phys info =? 0); reflexivity.
Qed.

Lemma init_apic_ok a info : devices_at (hw a) info →
  let a' := init_apic a (local_apic_phys info) (io_apic_phys info) in
  wired a' ∧ APIC_INITIALIZED a' = true ∧
  lapic (hw a') = <[LAPIC_LVT_TIMER := LVT_MASKED]> (<[LAPIC_SPURIOUS := 0x1FF]> (<[LAPIC_TPR := 0]> (lapic (hw a)))) ∧
  ∀ j, reg (io (hw a')) j = io_initialized (io (hw a)) j.
Proof.
  intros Hd. unfold init_apic. cbn zeta. pose proof (init_devices_ok _ (wired_at a info Hd)) as H.
  cbn zeta in H. cbn [hw] in H. revert H. generalize (init_io_apic (init_local_apic (MkApic
    (if negb (local_apic_phys info =? 0) then phys_to_virt (local_apic_phys info) else phys_to_virt 0xFEE00000)
    (if negb (io_apic_phys info =? 0) then phys_to_virt (io_apic_phys info) else phys_to_virt 0xFEC00000)
    (APIC_INITIALIZED a) (hw a)))). intros a' (Hw & _ & Hl & Hr).
  split; [exact (wired_flag _ true Hw)|]. split; [reflexivity|]. split; [exact Hl | exact Hr].
Qed.

(** The registers of the local APIC that the boot sequence writes, or that count
    on their own. *)
Definition lapic_written : list Z :=
  [LAPIC_TPR; LAPIC_SPURIOUS; LAPIC_LVT_TIMER; LAPIC_TIMER_DCR; LAPIC_TIMER_INITIAL_COUNT; LAPIC_TIMER_CURRENT_COUNT].

Lemma start_interrupts_ok (a : Apic) (info : ApicInfo) (h : HpetInfo) (time : nat → Z) (n : nat) (count : Z) :
  devices_at (hw a) info → 2 ≤ entries_of (io (hw a)) < 256 →
  0 < period_fs h ≤ 100000000 → first_after time (10000000000000 / period_fs h) n → 0 ≤ count ≤ 0xFFFFFFFF →
  ∃ a', start_interrupts n a info h (counter 64 time) count = Done a' ∧ APIC_INITIALIZED a' = true ∧
    reg (lapic (hw a')) LAPIC_TPR = 0 ∧ reg (lapic (hw a')) LAPIC_SPURIOUS = 0x100 + VECTOR_SPURIOUS ∧
    reg (lapic (hw a')) LAPIC_LVT_TIMER = LVT_TIMER_PERIODIC + VECTOR_TIMER ∧
    reg (lapic (hw a')) LAPIC_TIMER_DCR = TIMER_DIVIDE_BY_16 ∧
    reg (lapic (hw a')) LAPIC_TIMER_INITIAL_COUNT = (0xFFFFFFFF - count) / 10 ∧
    (reg (io (hw a')) (redir 1) = VECTOR_KEYBOARD ∧ reg (io (hw a')) (redir 1 + 1) = 0) ∧
    (∀ irq, 0 ≤ irq < entries_of (io (hw a)) → irq ≠ 1 → Z.testbit (reg (io (hw a')) (redir irq)) 16 = true) ∧
    ∀ off, off ∉ lapic_written → reg (lapic (hw a')) off = reg (lapic (hw a)) off.
Proof.
  intros Hdev Hent Hp Hf Hc. destruct (init_apic_ok a info Hdev) as (Hw1 & Hini1 & Hl1 & Hio1).
  unfold start_interrupts. set (a1 := init_apic _ _ _) in *. clearbody a1.
  destruct (calibrate_timer_ok a1 h time n count Hw1 Hp Hf Hc) as (a2 & -> & Hw2 & _ & _ & Hini2 & Hio2 & _ & _ & Hl2).
  rewrite bind_Done. cbn iota. pose proof (configure_timer_ok a2 ((0xFFFFFFFF - count) / 10) Hw2) as (Hw3 & _ & _ & Hini3 & Hio3 & _ & _ & Hl3).
  set (a3 := configure_timer _ _) in *. clearbody a3. eexists. split; [done|].
  unfold ioapic_unmask_irq. cbn zeta. rewrite redir_u32 by lia.
  destruct (io_modify a3 (redir 1) (λ lo, Z.land lo (not32 IOAPIC_MASKED)) Hw3) as (Hw4 & _ & _ & Hini4 & Hl4 & _ & _ & Hio4).
  set (a4 := let '(_, _) := _ in _) in *. clearbody a4. split; [congruence|].
  unfold io_initialized in Hio1. rewrite Hl4, Hl3, Hl2, Hl1. do 5 (split; [unfold reg; by simplify_map_eq|]). split; [split|split].
  - rewrite Hio4, decide_True, Hio3, Hio2, Hio1, decide_True by done. reflexivity.
  - rewrite Hio4, decide_False, Hio3, Hio2, Hio1, decide_False, decide_True by (done || lia). done.
  - intros irq Hirq Hne. assert (redir irq ≠ redir 1 ∧ redir irq ≠ redir 1 + 1) as [Hn1 Hn2] by (unfold redir; lia).
    rewrite Hio4, decide_False, Hio3, Hio2, Hio1, !decide_False by done.
    assert (u8 (entries_of (io (hw a))) = entries_of (io (hw a))) as -> by (apply Z.mod_small; lia).
    assert (low_word 0 (entries_of (io (hw a))) (redir irq) = true) as ->.
    { unfold low_word, redir, IOAPIC_REG_REDIRECT_TABLE in *. rewrite (proj2 (Z.leb_le _ _)), (proj2 (Z.ltb_lt _ _)) by lia.
      replace (16 + 2 * irq) with (2 * (8 + irq)) by lia. by rewrite Z.even_mul. }
    rewrite Z.lor_spec. apply orb_true_r.
  - intros off Hoff. unfold reg. unfold lapic_written in Hoff. rewrite !not_elem_of_cons in Hoff.
    destruct Hoff as (? & ? & ? & ? & ? & ? & _). by rewrite !lookup_insert_ne by congruence.
Qed.

(** The interrupt hardware after boot: with the devices where the ACPI tables
    say (or at their default addresses), an HPET that [parse_hpet] accepts and a
    64-bit counter, the boot sequence completes and leaves the local APIC enabled
    for every priority with spurious vector 0xFF, its timer periodic and unmasked
    on vector 0x20 with a tenth of the counts that passed in the calibration
    window (at least 10 ms) as its period, and of all I/O APIC pins exactly pin 1 unmasked,
    edge-triggered, sent as vector 0x21 to processor 0.  It holds for an I/O APIC
    that reports at most 255 entries. *)
Theorem start_interrupts_spec (a : Apic) (info : ApicInfo) (h : HpetInfo) (time : nat → Z) (n : nat) (count : Z) :
  devices_at (hw a) info → 2 ≤ entries_of (io (hw a)) < 256 →
  0 < period_fs h ≤ 100000000 → first_after time (10000000000000 / period_fs h) n → 0 ≤ count ≤ 0xFFFFFFFF →
  ∃ a', start_interrupts n a info h (counter 64 time) count = Done a' ∧ APIC_INITIALIZED a' = true ∧
    reg (lapic (hw a')) LAPIC_TPR = 0 ∧ reg (lapic (hw a')) LAPIC_SPURIOUS = 0x100 + VECTOR_SPURIOUS ∧
    reg (lapic (hw a')) LAPIC_LVT_TIMER = LVT_TIMER_PERIODIC + VECTOR_TIMER ∧
    reg (lapic (hw a')) LAPIC_TIMER_DCR = TIMER_DIVIDE_BY_16 ∧
    reg (lapic (hw a')) LAPIC_TIMER_INITIAL_COUNT = (0xFFFFFFFF - count) / 10 ∧
    (reg (io (hw a')) (redir 1) = VECTOR_KEYBOARD ∧ reg (io (hw a')) (redir 1 + 1) = 0) ∧
    ∀ irq, 0 ≤ irq < entries_of (io (hw a)) → irq ≠ 1 → Z.testbit (reg (io (hw a')) (redir irq)) 16 = true.
Proof.
  intros Hdev Hent Hp Hf Hc.
  destruct (start_interrupts_ok a info h time n count Hdev Hent Hp Hf Hc) as (a' & ? & ? & ? & ? & ? & ? & ? & ? & ? & _).
  exists a'. repeat (split; [assumption|]). assumption.
Qed.

(** A machine with 24 pins, all of them left unmasked by the firmware. *)
Definition demo_machine (entries : Z) : machine :=
  MkMachine 0xFEE00000 ∅ 0xFEC00000 0 {[ IOAPIC_REG_VER := (entries - 1) * 2 ^ 16 + 0x20 ]}.

Definition demo_hpet : HpetInfo := MkHpet (phys_to_virt 0xFED00000) 10000000 3 true 0.

Lemma start_interrupts_spec_witness :
  ∃ a', start_interrupts 1 (Apic_static (demo_machine 24)) (MkApicInfo 0xFEE00000 0xFEC00000 0) demo_hpet
      (counter 64 (λ i, 1000005 * Z.of_nat i)) (0xFFFFFFFF - 630000) = Done a' ∧
    reg (lapic (hw a')) LAPIC_TIMER_INITIAL_COUNT = 63000.
Proof.
  destruct (start_interrupts_spec (Apic_static (demo_machine 24)) (MkApicInfo 0xFEE00000 0xFEC00000 0) demo_hpet
    (λ i, 1000005 * Z.of_nat i) 1 (0xFFFFFFFF - 630000)) as (a' & H & _ & _ & _ & _ & _ & Hc & _).
  - split_and!; try (vm_compute; congruence). right. vm_compute. congruence.
  - vm_compute. split; congruence.
  - cbn. lia.
  - change (10000000000000 / period_fs demo_hpet) with 1000000. split; [lia|]. split; [intros; lia|]. unfold W64. lia.
  - lia.
  - exists a'. split; [exact H|]. exact Hc.
Defined.

(** On an I/O APIC that reports 256 entries the loop bound, cast to a byte, is 0:
    no entry but the keyboard's is touched, and the pins the firmware left
    unmasked stay unmasked. *)
Theorem init_apic_masks_none_of_256 (a : Apic) (info : ApicInfo) (irq : Z) :
  devices_at (hw a) info → entries_of (io (hw a)) = 256 → 0 ≤ irq < 256 → irq ≠ 1 →
  reg (io (hw (init_apic a (local_apic_phys info) (io_apic_phys info)))) (redir irq) = reg (io (hw a)) (redir irq).
Proof.
  intros Hdev He Hirq Hne. destruct (init_apic_ok a info Hdev) as (_ & _ & _ & Hio). rewrite Hio. unfold io_initialized. rewrite He.
  rewrite decide_False by (unfold redir; lia). rewrite decide_False by (unfold redir; lia).
  change (u8 256) with 0. unfold low_word. rewrite Z.add_0_r.
  destruct (Z.leb_spec (redir 0) (redir irq)), (Z.ltb_spec (redir irq) (redir 0)); try done. lia.
Qed.

Lemma init_apic_masks_none_of_256_witness :
  reg (io (hw (init_apic (Apic_static (demo_machine 256)) 0xFEE00000 0xFEC00000))) (redir 4) = 0.
Proof.
  refine (init_apic_masks_none_of_256 (Apic_static (demo_machine 256)) (MkApicInfo 0xFEE00000 0xFEC00000 0) 4 _ _ _ _).
  - split_and!; try (vm_compute; congruence). right. vm_compute. congruence.
  - vm_compute. reflexivity.
  - lia.
  - lia.
Defined.

(** ** Finding the HPET *)

(** An HPET table: comparator byte, address space, base address, minimum tick;
    the remaining fields are arbitrary. *)
Definition hpet_at (m : mem) (a comparators space base tick : Z) : Prop :=
  0 ≤ comparators < 256 ∧ 0 ≤ base ∧ base + 0x400 < PHYS_LIMIT ∧ 0 ≤ tick < 2 ^ 16 ∧
  ∃ rev vendor gas more, length vendor = 2%nat ∧ length gas = 3%nat ∧
    sdt_at m a HPET ([rev; comparators] ++ vendor ++ [space] ++ gas ++ le_bytes 8 base ++ [more] ++ le_bytes 2 tick ++ [0]).

Lemma hpet_fields m a comparators space base tick :
  hpet_at m a comparators space base tick →
  let body := phys_to_virt a ⊞ SDT_HEADER_SIZE in
  read8 m (body ⊞ 1) = comparators ∧ read8 m (body ⊞ 4) = space ∧
  read_unaligned 8 m (body ⊞ 8) = base ∧ read_unaligned 2 m (body ⊞ 17) = tick.
Proof.
  intros (Hc & Hb & Hbl & Ht & rev & vendor & gas & more & Hv & Hg & Hs) body.
  pose proof Hs as (_ & Ha & Hend & _). rewrite !length_app, Hv, Hg, !length_le_bytes in Hend. cbn [length] in Hend.
  apply sdt_fields in Hs as [_ Hs].
  unfold body, SDT_HEADER_SIZE in *. rewrite !(virt_add a 36), !read8_at, !read_unaligned_at by lia.
  destruct vendor as [|v1 [|v2 [|]]]; try done. destruct gas as [|g1 [|g2 [|g3 [|]]]]; try done. cbn [app] in Hs.
  split; [by apply (holds_field8 [_] _ _ m _ 1 Hs)|]. split; [by apply (holds_field8 [_; _; _; _] _ _ m _ 4 Hs)|].
  split.
  - rewrite (holds_field [_; _; _; _; _; _; _; _] 8 base _ m _ 8 Hs), Z.mod_small by (unfold PHYS_LIMIT in *; done || lia). done.
  - change (rev :: comparators :: v1 :: v2 :: space :: g1 :: g2 :: g3 :: le_bytes 8 base ++ more :: le_bytes 2 tick ++ [0])
      with ([rev; comparators; v1; v2; space; g1; g2; g3] ++ le_bytes 8 base ++ [more] ++ le_bytes 2 tick ++ [0]) in Hs.
    rewrite !app_assoc, <- app_assoc in Hs.
    rewrite (holds_field (_ ++ _) 2 tick _ m _ 17 Hs), Z.mod_small by (done || lia). done.
Qed.

(** [parse_hpet] on a machine whose root table names an HPET table returns
    its registers' virtual base, the period of the capabilities register, the
    number of comparators, the counter width and the minimum tick, and returns
    [None] exactly when the block is not in memory space, has no address or
    reports a period of zero or more than 100 ns.  On success the counter is
    enabled, and nothing but the enable bit of the configuration register has
    changed. *)
Theorem parse_hpet_spec (m : mem) (a rev rsdt xsdt p comparators space base tick : Z) (rsig ptrs : list Z) :
  rsdp_at m a rev rsdt xsdt →
  root_at m (root_of rev rsdt xsdt).1 (root_of rev rsdt xsdt).2 rsig ptrs →
  first_with m HPET ptrs = Some p → hpet_at m p comparators space base tick →
  let period := load64 m base / 2 ^ 32 in
  if decide (space ≠ 0 ∨ base = 0 ∨ period = 0 ∨ 100000000 < period)
  then parse_hpet m (phys_to_virt a) = Done (None, m)
  else ∃ m', parse_hpet m (phys_to_virt a) =
      Done (Some (MkHpet (phys_to_virt base) period (comparators mod 32 + 1) (Z.testbit comparators 5) tick), m') ∧
    load64 m' (base + HPET_REG_CONFIG) = Z.lor (load64 m (base + HPET_REG_CONFIG)) 1 ∧
    agree_off (span (base + HPET_REG_CONFIG) 8) m m'.
Proof.
  intros Hr Hroot Hp Hh period. unfold parse_hpet.
  rewrite (find_acpi_table_ok m a rev rsdt xsdt rsig HPET ptrs Hr Hroot), Hp, bind_Done. cbn [fmap option_fmap option_map].
  destruct (hpet_fields m p _ _ _ _ Hh) as (-> & -> & -> & ->). destruct Hh as (Hc & Hb & Hbl & Ht & _).
  unfold PHYS_LIMIT in *.
  assert (pload m (phys_to_virt base ⊞ HPET_REG_CAPABILITIES) = load64 m base) as ->.
  { unfold pload, HPET_REG_CAPABILITIES. rewrite virt_add, direct_virt by (unfold PHYS_LIMIT; lia). by rewrite Z.add_0_r. }
  assert (u32 (Z.shiftr (load64 m base) 32) = period) as ->.
  { pose proof (load64_range m base). unfold period, u32. rewrite Z.shiftr_div_pow2 by lia. apply Z.mod_small.
    split; [apply Z.div_pos; lia|]. apply Z.div_lt_upper_bound; [lia|]. unfold W64 in *. lia. }
  assert (0 ≤ period) by (unfold period; pose proof (load64_range m base); apply Z.div_pos; lia).
  destruct (Z.eqb_spec space 0) as [->|Hsp]; cbn [negb]; [|by rewrite decide_True by auto].
  destruct (Z.eqb_spec base 0) as [->|Hb0]; [by rewrite decide_True by auto|].
  destruct (Z.eqb_spec period 0) as [Hp0|Hp0]; cbn [orb]; [by rewrite decide_True by auto|].
  destruct (Z.ltb_spec 100000000 period); [by rewrite decide_True by auto|]. rewrite decide_False by lia.
  unfold pload, pstore, HPET_REG_CONFIG. rewrite virt_add, direct_virt by (unfold PHYS_LIMIT; lia).
  assert (u8 (Z.land comparators 31 + 1) = comparators mod 32 + 1) as ->.
  { change 31 with (Z.ones 5). rewrite Z.land_ones by lia. unfold u8. apply Z.mod_small.
    pose proof (Z.mod_pos_bound comparators (2 ^ 5)). change (2 ^ 5) with 32 in *. lia. }
  rewrite (testbit_land comparators 5 ltac:(lia) : negb (Z.land comparators (Z.shiftl 1 5) =? 0) = _).
  eexists. split; [reflexivity|]. pose proof (load64_range m (base + 16)) as Hlr.
  assert (in_u64 (Z.lor (load64 m (base + 16)) 1)) as Hin by (apply (lor_range _ _ 64); unfold W64 in *; lia).
  pose proof (testbit_land (load64 m (base + 16)) 0 ltac:(lia)) as Hbit. change (2 ^ 0) with 1 in Hbit.
  change HPET_CONFIG_ENABLE with 1. destruct (Z.eqb_spec (Z.land (load64 m (base + 16)) 1) 0) as [Hz|Hz].
  - rewrite load64_store64_same by done. split; [done|]. apply agree_off_store64. unfold span. lia.
  - split; [|apply agree_off_refl]. cbn [negb] in Hbit. apply Z.bits_inj'. intros i Hi. rewrite Z.lor_spec.
    destruct (Z.eqb_spec i 0) as [->|]; [by rewrite <- Hbit|]. change 1 with (2 ^ 0). rewrite Z.pow2_bits_false by lia.
    by rewrite orb_false_r.
Qed.

Definition demo_hpet_tables : mem :=
  write_bytes (write_bytes (write_bytes (write_bytes ∅
    0x1000 (RSD_PTR ++ replicate 7 0 ++ [0] ++ le_bytes 4 0x2000 ++ le_bytes 4 20 ++ le_bytes 8 0))
    0x2000 (demo_sdt [82; 83; 68; 84] (([0x3000] ≫= le_bytes 4) ++ [])))
    0x3000 (demo_sdt HPET ([1; 0xA2] ++ [134; 128] ++ [0] ++ [64; 0; 0] ++ le_bytes 8 0xFED00000 ++ [0] ++ le_bytes 2 128 ++ [0])))
    0xFED00000 (le_bytes 8 (10000000 * 2 ^ 32)).

Lemma parse_hpet_spec_witness :
  ∃ m', parse_hpet demo_hpet_tables (phys_to_virt 0x1000) = Done (Some (MkHpet (phys_to_virt 0xFED00000) 10000000 3 true 128), m') ∧
    load64 m' (0xFED00000 + HPET_REG_CONFIG) = 1.
Proof.
  assert (load64 demo_hpet_tables 0xFED00000 = 10000000 * 2 ^ 32) as Hcaps by (vm_compute; reflexivity).
  assert (load64 demo_hpet_tables (0xFED00000 + HPET_REG_CONFIG) = 0) as Hconf by (vm_compute; reflexivity).
  assert (rsdp_at demo_hpet_tables 0x1000 0 0x2000 0) as Hr.
  { split; [lia|]. split; [unfold PHYS_LIMIT; lia|]. split; [lia|]. split; [unfold W64; lia|].
    exists (replicate 7 0), 20. split; [reflexivity|]. unfold holds. concrete. }
  assert (root_at demo_hpet_tables 4 0x2000 [82; 83; 68; 84] [0x3000]) as Hroot.
  { split; [repeat constructor; vm_compute; congruence|]. exists []. split; [vm_compute; lia|].
    split; [reflexivity|]. split; [vm_compute; congruence|]. split; [vm_compute; reflexivity|].
    split; [vm_compute; reflexivity|]. exists (replicate 28 0). split; [reflexivity|]. unfold holds. concrete. }
  assert (first_with demo_hpet_tables HPET [0x3000] = Some 0x3000) as Hp by (vm_compute; reflexivity).
  assert (hpet_at demo_hpet_tables 0x3000 0xA2 0 0xFED00000 128) as Hh.
  { split; [lia|]. split; [lia|]. split; [unfold PHYS_LIMIT; lia|]. split; [lia|].
    exists 1, [134; 128], [64; 0; 0], 0. split; [reflexivity|]. split; [reflexivity|].
    split; [reflexivity|]. split; [vm_compute; congruence|]. split; [vm_compute; reflexivity|].
    split; [vm_compute; reflexivity|]. exists (replicate 28 0). split; [reflexivity|]. unfold holds. concrete. }
  pose proof (parse_hpet_spec demo_hpet_tables 0x1000 0 0x2000 0 0x3000 0xA2 0 0xFED00000 128 [82; 83; 68; 84] [0x3000] Hr Hroot Hp Hh) as H.
  generalize dependent demo_hpet_tables. intros m Hcaps Hconf _ _ _ _. cbn zeta. rewrite Hcaps, Hconf.
  rewrite decide_False by (vm_compute; intuition congruence). intros (m' & H & Hc & _). exists m'. split; [exact H|exact Hc].
Defined.
