(* ===== verification/Framebuffer.v ===== *)
(** * Framebuffer.v: text on the framebuffer

    [hardware_manager/framebuffer.rs]: the font, the cursor and the pixels a
    [FramebufferWriter] draws, with [u32] coordinates that wrap around and pixel
    offsets that the code does not check.  The theorems: no write leaves the
    framebuffer, and what is printed is what the screen shows. *)

From S2P Require Import Prelude Bytes.

Local Open Scope Z_scope.

(** ** Framebuffer *)

Definition FONT : list (list Z) :=
  [[0x00; 0x00; 0x00; 0x00; 0x00; 0x00; 0x00; 0x00; 0x00; 0x00; 0x00; 0x00];
   [0x18; 0x18; 0x3C; 0x3C; 0x3C; 0x18; 0x18; 0x18; 0x00; 0x18; 0x18; 0x00];
   [0x66; 0x66; 0x66; 0x00; 0x00; 0x00; 0x00; 0x00; 0x00; 0x00; 0x00; 0x00];
   [0x36; 0x36; 0x36; 0x7F; 0x36; 0x36; 0x7F; 0x36; 0x36; 0x36; 0x00; 0x00];
   [0x0C; 0x0C; 0x3E; 0x07; 0x07; 0x1E; 0x38; 0x38; 0x1F; 0x0C; 0x0C; 0x00];
   [0x00; 0x63; 0x33; 0x33; 0x18; 0x0C; 0x06; 0x33; 0x33; 0x63; 0x00; 0x00];
   [0x1C; 0x36; 0x36; 0x1C; 0x6E; 0x3B; 0x33; 0x33; 0x33; 0x6E; 0x00; 0x00];
   [0x0C; 0x0C; 0x06; 0x00; 0x00; 0x00; 0x00; 0x00; 0x00; 0x00; 0x00; 0x00];
   [0x18; 0x0C; 0x06; 0x06; 0x06; 0x06; 0x06; 0x06; 0x06; 0x0C; 0x18; 0x00];
   [0x06; 0x0C; 0x18; 0x18; 0x18; 0x18; 0x18; 0x18; 0x18; 0x0C; 0x06; 0x00];
   [0x00; 0x00; 0x66; 0x3C; 0xFF; 0x3C; 0x66; 0x00; 0x00; 0x00; 0x00; 0x00];
   [0x00; 0x00; 0x0C; 0x0C; 0x0C; 0x7F; 0x0C; 0x0C; 0x0C; 0x00; 0x00; 0x00];
   [0x00; 0x00; 0x00; 0x00; 0x00; 0x00; 0x00; 0x00; 0x0C; 0x0C; 0x06; 0x00];
   [0x00; 0x00; 0x00; 0x00; 0x00; 0x7E; 0x00; 0x00; 0x00; 0x00; 0x00; 0x00];
   [0x00; 0x00; 0x00; 0x00; 0x00; 0x00; 0x00; 0x00; 0x0C; 0x0C; 0x00; 0x00];
   [0x60; 0x30; 0x30; 0x18; 0x18; 0x0C; 0x06; 0x06; 0x03; 0x01; 0x00; 0x00];
   [0x1E; 0x33; 0x63; 0x63; 0x73; 0x6B; 0x6F; 0x67; 0x63; 0x3E; 0x00; 0x00];
   [0x0C; 0x0E; 0x0C; 0x0C; 0x0C; 0x0C; 0x0C; 0x0C; 0x0C; 0x3F; 0x00; 0x00];
   [0x1E; 0x33; 0x33; 0x30; 0x18; 0x0C; 0x06; 0x03; 0x33; 0x3F; 0x00; 0x00];
   [0x1E; 0x33; 0x30; 0x30; 0x1C; 0x30; 0x30; 0x30; 0x33; 0x1E; 0x00; 0x00];
   [0x30; 0x38; 0x3C; 0x36; 0x33; 0x33; 0x7F; 0x30; 0x30; 0x78; 0x00; 0x00];
   [0x3F; 0x03; 0x03; 0x1F; 0x33; 0x30; 0x30; 0x30; 0x33; 0x1E; 0x00; 0x00];
   [0x1C; 0x06; 0x03; 0x03; 0x1F; 0x33; 0x33; 0x33; 0x33; 0x1E; 0x00; 0x00];
   [0x7F; 0x63; 0x63; 0x30; 0x18; 0x18; 0x0C; 0x0C; 0x0C; 0x0C; 0x00; 0x00];
   [0x1E; 0x33; 0x33; 0x33; 0x1E; 0x33; 0x33; 0x33; 0x33; 0x1E; 0x00; 0x00];
   [0x1E; 0x33; 0x33; 0x33; 0x3E; 0x30; 0x30; 0x18; 0x0C; 0x07; 0x00; 0x00];
   [0x00; 0x00; 0x0C; 0x0C; 0x00; 0x00; 0x00; 0x0C; 0x0C; 0x00; 0x00; 0x00];
   [0x00; 0x00; 0x0C; 0x0C; 0x00; 0x00; 0x00; 0x0C; 0x0C; 0x06; 0x00; 0x00];
   [0x30; 0x18; 0x0C; 0x06; 0x03; 0x06; 0x0C; 0x18; 0x30; 0x00; 0x00; 0x00];
   [0x00; 0x00; 0x00; 0x7E; 0x00; 0x00; 0x7E; 0x00; 0x00; 0x00; 0x00; 0x00];
   [0x06; 0x0C; 0x18; 0x30; 0x60; 0x30; 0x18; 0x0C; 0x06; 0x00; 0x00; 0x00];
   [0x1E; 0x33; 0x33; 0x30; 0x18; 0x0C; 0x0C; 0x00; 0x0C; 0x0C; 0x00; 0x00];
   [0x3E; 0x63; 0x7B; 0x7B; 0x7B; 0x7B; 0x03; 0x03; 0x63; 0x3E; 0x00; 0x00];
   [0x0C; 0x1E; 0x33; 0x33; 0x33; 0x3F; 0x33; 0x33; 0x33; 0x33; 0x00; 0x00];
   [0x1F; 0x33; 0x33; 0x33; 0x1F; 0x33; 0x33; 0x33; 0x33; 0x1F; 0x00; 0x00];
   [0x3C; 0x66; 0x63; 0x03; 0x03; 0x03; 0x03; 0x63; 0x66; 0x3C; 0x00; 0x00];
   [0x1F; 0x33; 0x63; 0x63; 0x63; 0x63; 0x63; 0x63; 0x33; 0x1F; 0x00; 0x00];
   [0x7F; 0x43; 0x13; 0x0B; 0x1F; 0x0B; 0x03; 0x43; 0x47; 0x7F; 0x00; 0x00];
   [0x7F; 0x43; 0x13; 0x0B; 0x1F; 0x0B; 0x03; 0x03; 0x03; 0x07; 0x00; 0x00];
   [0x3C; 0x66; 0x63; 0x03; 0x03; 0x73; 0x63; 0x63; 0x66; 0x7C; 0x00; 0x00];
   [0x33; 0x33; 0x33; 0x33; 0x3F; 0x33; 0x33; 0x33; 0x33; 0x33; 0x00; 0x00];
   [0x1E; 0x0C; 0x0C; 0x0C; 0x0C; 0x0C; 0x0C; 0x0C; 0x0C; 0x1E; 0x00; 0x00];
   [0x7C; 0x30; 0x30; 0x30; 0x30; 0x30; 0x30; 0x33; 0x33; 0x1E; 0x00; 0x00];
   [0x67; 0x66; 0x36; 0x36; 0x1E; 0x1E; 0x36; 0x36; 0x66; 0x67; 0x00; 0x00];
   [0x07; 0x06; 0x06; 0x06; 0x06; 0x06; 0x06; 0x66; 0x66; 0x7F; 0x00; 0x00];
   [0x63; 0x77; 0x7F; 0x7F; 0x6B; 0x63; 0x63; 0x63; 0x63; 0x63; 0x00; 0x00];
   [0x63; 0x63; 0x67; 0x6F; 0x7B; 0x73; 0x63; 0x63; 0x63; 0x63; 0x00; 0x00];
   [0x1C; 0x36; 0x63; 0x63; 0x63; 0x63; 0x63; 0x63; 0x36; 0x1C; 0x00; 0x00];
   [0x1F; 0x33; 0x33; 0x33; 0x1F; 0x03; 0x03; 0x03; 0x03; 0x07; 0x00; 0x00];
   [0x1E; 0x33; 0x33; 0x33; 0x33; 0x33; 0x3B; 0x33; 0x3E; 0x30; 0x70; 0x00];
   [0x1F; 0x33; 0x33; 0x33; 0x1F; 0x1B; 0x33; 0x33; 0x33; 0x37; 0x00; 0x00];
   [0x1E; 0x33; 0x33; 0x03; 0x0E; 0x18; 0x30; 0x33; 0x33; 0x1E; 0x00; 0x00];
   [0x3F; 0x2D; 0x0C; 0x0C; 0x0C; 0x0C; 0x0C; 0x0C; 0x0C; 0x1E; 0x00; 0x00];
   [0x33; 0x33; 0x33; 0x33; 0x33; 0x33; 0x33; 0x33; 0x33; 0x1E; 0x00; 0x00];
   [0x33; 0x33; 0x33; 0x33; 0x33; 0x33; 0x33; 0x33; 0x1E; 0x0C; 0x00; 0x00];
   [0x63; 0x63; 0x63; 0x63; 0x6B; 0x6B; 0x7F; 0x77; 0x63; 0x63; 0x00; 0x00];
   [0x63; 0x63; 0x36; 0x36; 0x1C; 0x1C; 0x36; 0x36; 0x63; 0x63; 0x00; 0x00];
   [0x33; 0x33; 0x33; 0x33; 0x1E; 0x0C; 0x0C; 0x0C; 0x0C; 0x1E; 0x00; 0x00];
   [0x7F; 0x63; 0x61; 0x30; 0x18; 0x0C; 0x06; 0x43; 0x63; 0x7F; 0x00; 0x00];
   [0x1E; 0x06; 0x06; 0x06; 0x06; 0x06; 0x06; 0x06; 0x06; 0x1E; 0x00; 0x00];
   [0x03; 0x03; 0x06; 0x06; 0x0C; 0x0C; 0x18; 0x18; 0x30; 0x60; 0x00; 0x00];
   [0x1E; 0x18; 0x18; 0x18; 0x18; 0x18; 0x18; 0x18; 0x18; 0x1E; 0x00; 0x00];
   [0x08; 0x1C; 0x36; 0x63; 0x00; 0x00; 0x00; 0x00; 0x00; 0x00; 0x00; 0x00];
   [0x00; 0x00; 0x00; 0x00; 0x00; 0x00; 0x00; 0x00; 0x00; 0x00; 0xFF; 0x00];
   [0x0C; 0x0C; 0x18; 0x00; 0x00; 0x00; 0x00; 0x00; 0x00; 0x00; 0x00; 0x00];
   [0x00; 0x00; 0x00; 0x1E; 0x30; 0x3E; 0x33; 0x33; 0x33; 0x6E; 0x00; 0x00];
   [0x03; 0x03; 0x03; 0x1B; 0x37; 0x63; 0x63; 0x63; 0x37; 0x1B; 0x00; 0x00];
   [0x00; 0x00; 0x00; 0x1E; 0x33; 0x03; 0x03; 0x03; 0x33; 0x1E; 0x00; 0x00];
   [0x30; 0x30; 0x30; 0x3E; 0x33; 0x33; 0x33; 0x33; 0x33; 0x6E; 0x00; 0x00];
   [0x00; 0x00; 0x00; 0x1E; 0x33; 0x33; 0x3F; 0x03; 0x33; 0x1E; 0x00; 0x00];
   [0x1C; 0x36; 0x06; 0x06; 0x1F; 0x06; 0x06; 0x06; 0x06; 0x0F; 0x00; 0x00];
   [0x00; 0x00; 0x00; 0x6E; 0x33; 0x33; 0x33; 0x3E; 0x30; 0x33; 0x33; 0x1E];
   [0x03; 0x03; 0x03; 0x1B; 0x37; 0x63; 0x63; 0x63; 0x63; 0x63; 0x00; 0x00];
   [0x0C; 0x00; 0x0C; 0x0E; 0x0C; 0x0C; 0x0C; 0x0C; 0x0C; 0x1E; 0x00; 0x00];
   [0x18; 0x00; 0x18; 0x1C; 0x18; 0x18; 0x18; 0x18; 0x18; 0x1B; 0x1B; 0x0E];
   [0x03; 0x03; 0x03; 0x63; 0x33; 0x1B; 0x0F; 0x1B; 0x33; 0x63; 0x00; 0x00];
   [0x0E; 0x0C; 0x0C; 0x0C; 0x0C; 0x0C; 0x0C; 0x0C; 0x0C; 0x1E; 0x00; 0x00];
   [0x00; 0x00; 0x00; 0x33; 0x7F; 0x7F; 0x6B; 0x63; 0x63; 0x63; 0x00; 0x00];
   [0x00; 0x00; 0x00; 0x1F; 0x33; 0x33; 0x33; 0x33; 0x33; 0x33; 0x00; 0x00];
   [0x00; 0x00; 0x00; 0x1E; 0x33; 0x33; 0x33; 0x33; 0x33; 0x1E; 0x00; 0x00];
   [0x00; 0x00; 0x00; 0x1B; 0x37; 0x63; 0x63; 0x63; 0x37; 0x1B; 0x03; 0x07];
   [0x00; 0x00; 0x00; 0x6E; 0x33; 0x33; 0x33; 0x33; 0x3E; 0x30; 0x30; 0x78];
   [0x00; 0x00; 0x00; 0x3B; 0x6E; 0x66; 0x06; 0x06; 0x06; 0x0F; 0x00; 0x00];
   [0x00; 0x00; 0x00; 0x3E; 0x03; 0x03; 0x1E; 0x30; 0x30; 0x1F; 0x00; 0x00];
   [0x08; 0x0C; 0x0C; 0x3E; 0x0C; 0x0C; 0x0C; 0x0C; 0x2C; 0x18; 0x00; 0x00];
   [0x00; 0x00; 0x00; 0x33; 0x33; 0x33; 0x33; 0x33; 0x33; 0x6E; 0x00; 0x00];
   [0x00; 0x00; 0x00; 0x33; 0x33; 0x33; 0x33; 0x33; 0x1E; 0x0C; 0x00; 0x00];
   [0x00; 0x00; 0x00; 0x63; 0x63; 0x6B; 0x6B; 0x7F; 0x77; 0x36; 0x00; 0x00];
   [0x00; 0x00; 0x00; 0x63; 0x63; 0x36; 0x1C; 0x36; 0x63; 0x63; 0x00; 0x00];
   [0x00; 0x00; 0x00; 0x33; 0x33; 0x33; 0x33; 0x3E; 0x30; 0x18; 0x0C; 0x07];
   [0x00; 0x00; 0x00; 0x3F; 0x31; 0x18; 0x0C; 0x06; 0x23; 0x3F; 0x00; 0x00];
   [0x38; 0x0C; 0x0C; 0x0C; 0x07; 0x07; 0x0C; 0x0C; 0x0C; 0x38; 0x00; 0x00];
   [0x18; 0x18; 0x18; 0x18; 0x00; 0x18; 0x18; 0x18; 0x18; 0x18; 0x00; 0x00];
   [0x07; 0x0C; 0x0C; 0x0C; 0x38; 0x38; 0x0C; 0x0C; 0x0C; 0x07; 0x00; 0x00];
   [0x6E; 0x3B; 0x00; 0x00; 0x00; 0x00; 0x00; 0x00; 0x00; 0x00; 0x00; 0x00]].

Definition BACKGROUND_COLOR : Z := 0x00000000.
Definition FONT_COLOR : Z := 0x004AF262.
Definition BOUNDARY_COLOR : Z := 0x00000080.
Definition FONT_WIDTH : Z := 8.
Definition FONT_HEIGHT : Z := 12.
Definition PAD_LEFT : Z := FONT_WIDTH.
Definition PAD_RIGHT : Z := FONT_WIDTH.
Definition PAD_TOP : Z := FONT_HEIGHT.
Definition PAD_BOTTOM : Z := FONT_HEIGHT.

(** The memory behind the pointer: the last value written at each offset. *)
Abbreviation pixels := (gmap Z Z).

Record FramebufferWriter := mk_FramebufferWriter {
  framebuffer : pixels; fb_width : Z; fb_height : Z; current_x_pos : Z; current_y_pos : Z; vertical_cutoff : Z
}.

Definition FramebufferWriter_new (fb : pixels) (w h : Z) : FramebufferWriter :=
  mk_FramebufferWriter fb w h PAD_LEFT PAD_TOP (u32 (h - PAD_BOTTOM)).

Definition set_fb (fb : pixels) (s : FramebufferWriter) : FramebufferWriter :=
  mk_FramebufferWriter fb (fb_width s) (fb_height s) (current_x_pos s) (current_y_pos s) (vertical_cutoff s).
Definition set_pos (x y : Z) (s : FramebufferWriter) : FramebufferWriter :=
  mk_FramebufferWriter (framebuffer s) (fb_width s) (fb_height s) x y (vertical_cutoff s).

(** [for i in start..end { framebuffer.offset(i).write_volatile(color) }] *)
Fixpoint fill (n : nat) (i color : Z) (fb : pixels) : pixels :=
  match n with O => fb | S n => fill n (i + 1) color (<[i := color]> fb) end.

Definition clear_screen (s : FramebufferWriter) : FramebufferWriter :=
  let total_pixels := u32 (fb_width s * fb_height s) in
  set_pos PAD_LEFT PAD_TOP (set_fb (fill (Z.to_nat total_pixels) 0 BACKGROUND_COLOR (framebuffer s)) s).

(** The free function [draw_char]: 12 rows of 8 pixels. *)
Definition draw_pixel (w pos_x pos_y byte row col : Z) (fb : pixels) : pixels :=
  let color := if negb (Z.land byte (Z.shiftl 1 col) =? 0) then FONT_COLOR else BACKGROUND_COLOR in
  <[u32 (u32 (u32 (pos_y + row) * w) + u32 (pos_x + col)) := color]> fb.

Definition draw_glyph (fb : pixels) (w pos_x pos_y char : Z) : outcome pixels :=
  if (char <? 32) || (126 <? char) then Done fb else
  glyph ← slot_get FONT (char - 32);
  for_range (Z.to_nat FONT_HEIGHT) 0 (λ row fb,
    byte ← slot_get glyph row;
    for_range (Z.to_nat FONT_WIDTH) 0 (λ col fb, Done (draw_pixel w pos_x pos_y byte row col fb)) fb) fb.

(** [self.fill_line]; [fill_start..fill_end] is empty when the end wrapped below
    the start. *)
Definition fill_line (fill_start color : Z) (s : FramebufferWriter) : FramebufferWriter :=
  let fill_end := u32 (u32 (fb_width s * FONT_HEIGHT) + fill_start) in
  set_fb (fill (Z.to_nat (fill_end - fill_start)) fill_start color (framebuffer s)) s.

(** The boundary lines below a new line at [y], and the line itself. *)
Definition wrap_lines (y cutoff : Z) : Z * Z * Z :=
  let boundary_line_1 := u32 (y + FONT_HEIGHT * 1) in
  let boundary_line_2 := u32 (y + FONT_HEIGHT * 2) in
  if cutoff <=? y then (PAD_TOP, u32 (PAD_TOP + FONT_HEIGHT * 1), u32 (PAD_TOP + FONT_HEIGHT * 2))
  else if cutoff <=? boundary_line_1 then (y, PAD_TOP, u32 (PAD_TOP + FONT_HEIGHT))
  else if cutoff <=? boundary_line_2 then (y, boundary_line_1, PAD_TOP)
  else (y, boundary_line_1, boundary_line_2).

Definition new_line (s : FramebufferWriter) : outcome FramebufferWriter :=
  let old_line := current_y_pos s in
  let '(y, boundary_line_1, boundary_line_2) := wrap_lines (u32 (old_line + FONT_HEIGHT)) (vertical_cutoff s) in
  let s := set_pos PAD_LEFT y s in
  fb ← draw_glyph (framebuffer s) (fb_width s) 0 old_line 32;
  let s := fill_line (u32 (current_y_pos s * fb_width s)) BACKGROUND_COLOR (set_fb fb s) in
  fb ← draw_glyph (framebuffer s) (fb_width s) 0 (current_y_pos s) 62;
  let s := fill_line (u32 (boundary_line_1 * fb_width s)) BOUNDARY_COLOR (set_fb fb s) in
  Done (fill_line (u32 (boundary_line_2 * fb_width s)) BOUNDARY_COLOR s).

Definition draw_char (char : Z) (s : FramebufferWriter) : outcome FramebufferWriter :=
  if char =? 10 then new_line s else
  if (char <? 32) || (126 <? char) then Done s else
  s ← (if u32 (fb_width s - PAD_LEFT - PAD_RIGHT) <=? current_x_pos s then new_line s else Done s);
  fb ← draw_glyph (framebuffer s) (fb_width s) (current_x_pos s) (current_y_pos s) char;
  Done (set_pos (u32 (current_x_pos s + FONT_WIDTH)) (current_y_pos s) (set_fb fb s)).

Definition draw_string (str : list Z) (s : FramebufferWriter) : outcome FramebufferWriter :=
  for_each str (λ char s, draw_char (if ((32 <=? char) && (char <=? 126)) || (char =? 10) then char else 63) s) s.

(** [core::fmt::Write] *)
Definition write_str (str : list Z) (s : FramebufferWriter) : outcome FramebufferWriter := draw_string str s.

Definition print (str : list Z) (s : FramebufferWriter) : outcome FramebufferWriter := draw_string str s.
Definition println (str : list Z) (s : FramebufferWriter) : outcome FramebufferWriter := s ← print str s; new_line s.
Definition print_bytes (bytes : list Z) (s : FramebufferWriter) : outcome FramebufferWriter := draw_string bytes s.

Definition banner : list string :=
  ["+------------------------------------------------+"; "|                                                |";
   "|   #####                       #######  #####   |"; "|  #     # #####    ##   #####  #     # #     #  |";
   "|  #       #    #  #  #  #    # #     # #        |"; "|  #       #    # #    # #    # #     #  #####   |";
   "|  #       #####  ###### #####  #     #       #  |"; "|  #     # #   #  #    # #      #     # #     #  |";
   "|   #####  #    # #    # #      #######  #####   |"; "|                                                |";
   "+------------------------------------------------+"; ""]%string.

Definition draw_banner (s : FramebufferWriter) : outcome FramebufferWriter := for_each banner (λ l s, println (bytes_of l) s) s.

(** ** What the screen shows *)

(** The offset of a pixel, and the colour the font gives it. *)
Definition offset (w x y : Z) : Z := y * w + x.
Definition lit (char row col : Z) : bool :=
  Z.testbit (nth (Z.to_nat row) (nth (Z.to_nat (char - 32)) FONT []) 0) col.
Definition glyph_color (char row col : Z) : Z := if lit char row col then FONT_COLOR else BACKGROUND_COLOR.

(** The cell with top left corner [(x, y)] shows [char]. *)
Definition shows (fb : pixels) (w x y char : Z) : Prop :=
  ∀ row col, 0 ≤ row < FONT_HEIGHT → 0 ≤ col < FONT_WIDTH →
    fb !! offset w (x + col) (y + row) = Some (glyph_color char row col).

(** Pixels outside the rectangle are the same in both. *)
Definition same_outside (w x y width height : Z) (fb fb' : pixels) : Prop :=
  ∀ i, (∀ col row, 0 ≤ col < width → 0 ≤ row < height → i ≠ offset w (x + col) (y + row)) → fb' !! i = fb !! i.

(** A screen the code can drive: the boundary lines need four text lines. *)
Definition screen (w h : Z) : Prop := 16 ≤ w ∧ 48 ≤ h ∧ w * h < 2 ^ 32.

(** The cursor is on a text line above the bottom padding, and every offset written so
    far is inside the framebuffer. *)
Record writer_ok (s : FramebufferWriter) : Prop := {
  writer_screen : screen (fb_width s) (fb_height s);
  writer_cutoff : vertical_cutoff s = fb_height s - PAD_BOTTOM;
  writer_y : PAD_TOP ≤ current_y_pos s < vertical_cutoff s;
  writer_x : PAD_LEFT ≤ current_x_pos s ≤ fb_width s;
  writer_inside : ∀ i v, framebuffer s !! i = Some v → 0 ≤ i < fb_width s * fb_height s
}.

(** What a caller can do with the writer. *)
Inductive fb_call :=
| Clear | WriteStr (str : list Z) | Print (str : list Z) | Println (str : list Z) | PrintBytes (bytes : list Z) | Banner.
Definition fb_run (c : fb_call) (s : FramebufferWriter) : outcome FramebufferWriter :=
  match c with
  | Clear => Done (clear_screen s)
  | WriteStr str => write_str str s
  | Print str => print str s
  | Println str => println str s
  | PrintBytes bytes => print_bytes bytes s
  | Banner => draw_banner s
  end.

(** ** Facts *)

Lemma u32_small z : 0 ≤ z < 2 ^ 32 → u32 z = z.
Proof. apply Z.mod_small. Qed.

Lemma fill_lookup n i color fb j :
  fill n i color fb !! j = if decide (i ≤ j < i + Z.of_nat n) then Some color else fb !! j.
Proof.
  revert i fb. induction n as [|n IH]; intros i fb; cbn [fill]; [by rewrite decide_False by lia|].
  rewrite IH. destruct (decide (i = j)) as [->|].
  - rewrite lookup_insert_eq, (decide_True (P := j ≤ j < _)) by lia. by case_decide.
  - rewrite lookup_insert_ne by done. repeat case_decide; lia || done.
Qed.

(** Two pixels of one column range with the same offset are the same pixel. *)
Lemma offset_inj w x y x' y' : 0 ≤ x < w → 0 ≤ x' < w → offset w x y = offset w x' y' → x = x' ∧ y = y'.
Proof.
  unfold offset. intros Hx Hx' H. assert (y = y') as -> by nia. lia.
Qed.

Section glyph.
Context (w x y char : Z).
Hypothesis Hx : 0 ≤ x ∧ x + FONT_WIDTH ≤ w.
Hypothesis Hy : 0 ≤ y ∧ (y + FONT_HEIGHT) * w < 2 ^ 32.
Hypothesis Hchar : 32 ≤ char ≤ 126.

Lemma FONT_glyph : ∃ glyph, slot_get FONT (char - 32) = Done glyph ∧ nth (Z.to_nat (char - 32)) FONT [] = glyph ∧
  length glyph = 12%nat.
Proof.
  assert (Z.to_nat (char - 32) < length FONT)%nat as Hl by (cbn; lia).
  destruct (lookup_lt_is_Some_2 _ _ Hl) as [g Hg]. exists g. split; [by apply slot_get_ok|].
  split; [by apply nth_lookup_Some|].
  assert (Forall (λ g, length g = 12%nat) FONT) as Hall by (apply (bool_decide_unpack _); by vm_compute).
  by apply (Forall_lookup_1 _ _ _ _ Hall Hg).
Qed.

(** The rows above [j], and the first [k] columns of row [j], are drawn. *)
Definition drawn (fb : pixels) (j k : Z) (fb' : pixels) : Prop :=
  (∀ row col, 0 ≤ row → 0 ≤ col < FONT_WIDTH → row < j ∨ row = j ∧ col < k →
     fb' !! offset w (x + col) (y + row) = Some (glyph_color char row col)) ∧
  (∀ i, (∀ col row, 0 ≤ row → 0 ≤ col < FONT_WIDTH → row < j ∨ row = j ∧ col < k →
     i ≠ offset w (x + col) (y + row)) → fb' !! i = fb !! i).

Lemma draw_pixel_drawn fb j k fb' :
  0 ≤ j < FONT_HEIGHT → 0 ≤ k < FONT_WIDTH → drawn fb j k fb' →
  drawn fb j (k + 1) (draw_pixel w x y (nth (Z.to_nat j) (nth (Z.to_nat (char - 32)) FONT []) 0) j k fb').
Proof.
  unfold FONT_WIDTH, FONT_HEIGHT in *. intros Hj Hk [Hin Hout].
  unfold draw_pixel. rewrite land_bit by lia.
  assert (u32 (u32 (u32 (y + j) * w) + u32 (x + k)) = offset w (x + k) (y + j)) as ->.
  { unfold offset. assert (0 ≤ (y + j) * w ∧ (y + j) * w + w ≤ (y + 12) * w) by nia.
    assert (y + j ≤ (y + j) * w) by nia. rewrite (u32_small (y + j)), (u32_small (x + k)) by lia.
    rewrite (u32_small ((y + j) * w)) by lia. apply u32_small. lia. }
  split.
  - intros row col Hrow Hcol Hc. unfold FONT_WIDTH in Hcol. destruct (decide (row = j ∧ col = k)) as [[-> ->]|Hne].
    + apply lookup_insert_eq.
    + rewrite lookup_insert_ne; [apply Hin; unfold FONT_WIDTH in *; lia|].
      intros Heq. apply offset_inj in Heq; lia.
  - intros i Hi. rewrite lookup_insert_ne; [|intros <-; by apply (Hi k j); unfold FONT_WIDTH; lia].
    apply Hout. intros col row Hrow Hcol Hc. apply Hi; lia.
Qed.

Lemma drawn_row fb j fb' : drawn fb j FONT_WIDTH fb' ↔ drawn fb (j + 1) 0 fb'.
Proof.
  unfold drawn, FONT_WIDTH. split; intros [Hin Hout]; (split; [intros; apply Hin; lia|]);
    intros i Hi; apply Hout; intros; apply Hi; lia.
Qed.

(** A printable character is drawn in its cell and nowhere else. *)
Lemma draw_glyph_spec fb : ∃ fb', draw_glyph fb w x y char = Done fb' ∧ shows fb' w x y char ∧
  same_outside w x y FONT_WIDTH FONT_HEIGHT fb fb'.
Proof.
  unfold draw_glyph. rewrite (proj2 (Z.ltb_ge char 32)), (proj2 (Z.ltb_ge 126 char)) by lia. cbn [orb].
  destruct FONT_glyph as (g & -> & Hg & Hlen). rewrite bind_Done.
  edestruct (for_range_done (λ j fb', drawn fb j 0 fb')) as (fb' & -> & Hdrawn).
  - intros j fb1 Hj H1. cbn beta. rewrite (slot_get_nth0 g j) by (unfold FONT_HEIGHT in Hj; lia). rewrite bind_Done.
    edestruct (for_range_done (λ k fb', drawn fb j k fb')) as (fb2 & -> & H2).
    + intros k fb2 Hk H2. eexists. split; [reflexivity|]. rewrite <- Hg.
      apply draw_pixel_drawn; [unfold FONT_HEIGHT in *; lia|unfold FONT_WIDTH in *; lia|done].
    + exact H1.
    + exists fb2. split; [done|]. by apply drawn_row.
  - unfold drawn, FONT_WIDTH. split; [intros; lia|]. done.
  - exists fb'. split; [done|]. destruct Hdrawn as [Hin Hout]. unfold FONT_HEIGHT in *. split.
    + intros row col Hr Hc. apply Hin; unfold FONT_HEIGHT in *; lia.
    + intros i Hi. apply Hout. intros col row ???. apply Hi; lia.
Qed.

End glyph.

(** *** Lines *)

Definition apart (a b : Z) : Prop := a + FONT_HEIGHT ≤ b ∨ b + FONT_HEIGHT ≤ a.

(** Opens the constants of a goal for [lia]. *)
Ltac metrics := unfold apart, screen, PAD_LEFT, PAD_RIGHT, PAD_TOP, PAD_BOTTOM, FONT_WIDTH, FONT_HEIGHT in *.

Lemma screen_small w h : screen w h → w < 2 ^ 27 ∧ h < 2 ^ 28.
Proof. metrics. nia. Qed.

Lemma line_in_range w l c r : 0 ≤ c < w → l * w ≤ offset w c r < (l + FONT_HEIGHT) * w ↔ l ≤ r < l + FONT_HEIGHT.
Proof. intros Hc. unfold offset. metrics. nia. Qed.

(** The text line at [l] has one colour; the rest is as before. *)
Definition filled (w l color : Z) (fb fb' : pixels) : Prop :=
  ∀ i, fb' !! i = if decide (l * w ≤ i < (l + FONT_HEIGHT) * w) then Some color else fb !! i.

Lemma fill_line_spec l color s :
  screen (fb_width s) (fb_height s) → 0 ≤ l → l + FONT_HEIGHT ≤ fb_height s →
  ∃ fb, fill_line (u32 (l * fb_width s)) color s = set_fb fb s ∧ filled (fb_width s) l color (framebuffer s) fb.
Proof.
  intros Hs Hl Hlh. unfold fill_line. destruct (screen_small _ _ Hs) as [Hw Hh]. destruct Hs as (Hw0 & Hh0 & Hwh).
  unfold filled. metrics. assert (0 ≤ l * fb_width s ∧ (l + 12) * fb_width s ≤ fb_width s * fb_height s) as Hr by nia.
  rewrite (u32_small (l * fb_width s)), (u32_small (fb_width s * 12)) by lia.
  rewrite u32_small by lia. eexists. split; [reflexivity|]. intros i. rewrite fill_lookup.
  replace (l * fb_width s + Z.of_nat _) with ((l + 12) * fb_width s); [done|]. nia.
Qed.

Lemma wrap_lines_spec y h :
  48 ≤ h < 2 ^ 28 → PAD_TOP ≤ y < h - PAD_BOTTOM →
  ∃ y' b1 b2, wrap_lines (u32 (y + FONT_HEIGHT)) (h - PAD_BOTTOM) = (y', b1, b2) ∧
    PAD_TOP ≤ y' < h - PAD_BOTTOM ∧ 0 ≤ b1 ≤ h - FONT_HEIGHT ∧ 0 ≤ b2 ≤ h - FONT_HEIGHT ∧
    (72 ≤ h → apart y y' ∧ apart y b1 ∧ apart y b2 ∧ apart y' b1 ∧ apart y' b2).
Proof.
  metrics. intros Hh Hy. rewrite (u32_small (y + 12)) by lia. unfold wrap_lines. metrics.
  change (12 * 1) with 12. change (12 * 2) with 24. rewrite !u32_small by lia.
  destruct (Z.leb_spec (h - 12) (y + 12)); [eexists _, _, _; split; [reflexivity|]; lia|].
  destruct (Z.leb_spec (h - 12) (y + 12 + 12)); [eexists _, _, _; split; [reflexivity|]; lia|].
  destruct (Z.leb_spec (h - 12) (y + 12 + 24)); eexists _, _, _; (split; [reflexivity|]; lia).
Qed.

Definition inside (w h : Z) (fb : pixels) : Prop := ∀ i v, fb !! i = Some v → 0 ≤ i < w * h.

Lemma glyph_inside w h x y fb fb' :
  0 ≤ x → x + FONT_WIDTH ≤ w → 0 ≤ y → y + FONT_HEIGHT ≤ h → inside w h fb →
  same_outside w x y FONT_WIDTH FONT_HEIGHT fb fb' → inside w h fb'.
Proof.
  metrics. intros Hx Hxw Hy Hyh Hin Hout i v Hi. destruct (decide (0 ≤ i < w * h)) as [|Hn]; [done|].
  apply (Hin i v). rewrite <- Hi. symmetry. apply Hout. intros col row Hc Hr ->. apply Hn. unfold offset. nia.
Qed.

Lemma fill_inside w h l color fb fb' :
  0 ≤ w → 0 ≤ l → l + FONT_HEIGHT ≤ h → inside w h fb → filled w l color fb fb' → inside w h fb'.
Proof.
  intros Hw Hl Hlh Hin Hfb i v Hi. rewrite Hfb in Hi. case_decide; [metrics; nia|by apply (Hin i v)].
Qed.

(** A pixel of another text line is not touched by a line fill, nor by a glyph. *)
Lemma fill_other_line w l color fb fb' c r :
  filled w l color fb fb' → 0 ≤ c < w → ¬ (l ≤ r < l + FONT_HEIGHT) → fb' !! offset w c r = fb !! offset w c r.
Proof. intros Hfb Hc Hr. rewrite Hfb. apply decide_False. by rewrite line_in_range. Qed.

Lemma glyph_other w x y fb fb' c r :
  same_outside w x y FONT_WIDTH FONT_HEIGHT fb fb' → 0 ≤ c < w → 0 ≤ x → x + FONT_WIDTH ≤ w →
  ¬ (x ≤ c < x + FONT_WIDTH ∧ y ≤ r < y + FONT_HEIGHT) → fb' !! offset w c r = fb !! offset w c r.
Proof.
  intros Hout Hc Hx Hxw Hr. apply Hout. intros col row Hcol Hrow Heq.
  apply offset_inj in Heq; metrics; lia.
Qed.

Lemma filled_line w l color fb fb' c r :
  filled w l color fb fb' → 0 ≤ c < w → l ≤ r < l + FONT_HEIGHT → fb' !! offset w c r = Some color.
Proof. intros Hfb Hc Hr. rewrite Hfb. apply decide_True. by rewrite line_in_range. Qed.

(** A cell that is left alone still shows its character. *)
Lemma shows_agree w x y char (fb fb' : pixels) :
  (∀ c r, x ≤ c < x + FONT_WIDTH → y ≤ r < y + FONT_HEIGHT → fb' !! offset w c r = fb !! offset w c r) →
  shows fb w x y char → shows fb' w x y char.
Proof. intros Hag Hs row col Hr Hc. rewrite Hag by lia. by apply Hs. Qed.

(** *** A new line *)

(** What [new_line] leaves on the screen: the cursor at the start of another line,
    marked with '>' and blank otherwise; the mark of the old line is gone and its text
    stays. *)
Record new_line_shown (s s' : FramebufferWriter) : Prop := {
  nl_prompt : shows (framebuffer s') (fb_width s) 0 (current_y_pos s') 62;
  nl_blank : ∀ c r, FONT_WIDTH ≤ c < fb_width s → current_y_pos s' ≤ r < current_y_pos s' + FONT_HEIGHT →
    framebuffer s' !! offset (fb_width s) c r = Some BACKGROUND_COLOR;
  nl_unmark : shows (framebuffer s') (fb_width s) 0 (current_y_pos s) 32;
  nl_keeps : ∀ c r, FONT_WIDTH ≤ c < fb_width s → current_y_pos s ≤ r < current_y_pos s + FONT_HEIGHT →
    framebuffer s' !! offset (fb_width s) c r = framebuffer s !! offset (fb_width s) c r
}.

Definition same_screen (s s' : FramebufferWriter) : Prop :=
  fb_width s' = fb_width s ∧ fb_height s' = fb_height s.

(** The five drawing steps of [new_line], and the lines they touch. *)
Record new_line_steps (w h y y' b1 b2 : Z) (fb g1 f1 g2 f2 f3 : pixels) : Prop := {
  step_y : PAD_TOP ≤ y' < h - PAD_BOTTOM;
  step_b1 : 0 ≤ b1 ≤ h - FONT_HEIGHT;
  step_b2 : 0 ≤ b2 ≤ h - FONT_HEIGHT;
  step_apart : 72 ≤ h → apart y y' ∧ apart y b1 ∧ apart y b2 ∧ apart y' b1 ∧ apart y' b2;
  step_unmark : shows g1 w 0 y 32;
  step_unmark_only : same_outside w 0 y FONT_WIDTH FONT_HEIGHT fb g1;
  step_clear : filled w y' BACKGROUND_COLOR g1 f1;
  step_mark : shows g2 w 0 y' 62;
  step_mark_only : same_outside w 0 y' FONT_WIDTH FONT_HEIGHT f1 g2;
  step_fill1 : filled w b1 BOUNDARY_COLOR g2 f2;
  step_fill2 : filled w b2 BOUNDARY_COLOR f2 f3
}.

Ltac fields := cbn [fb_width fb_height current_x_pos current_y_pos vertical_cutoff framebuffer] in *.

Lemma new_line_run fb w h x y :
  let s := mk_FramebufferWriter fb w h x y (h - PAD_BOTTOM) in
  writer_ok s → ∃ y' b1 b2 g1 f1 g2 f2 f3,
    new_line s = Done (mk_FramebufferWriter f3 w h PAD_LEFT y' (h - PAD_BOTTOM)) ∧
    new_line_steps w h y y' b1 b2 fb g1 f1 g2 f2 f3.
Proof.
  intros s [Hscr _ Hy Hx Hin]. subst s. fields. pose proof (screen_small _ _ Hscr) as [_ Hh].
  destruct (wrap_lines_spec y h) as (y' & b1 & b2 & Hwrap & Hy' & Hb1 & Hb2 & Hapart); [destruct Hscr; lia|done|].
  assert (∀ l, 0 ≤ l → l + FONT_HEIGHT ≤ h → 0 ≤ l ∧ (l + FONT_HEIGHT) * w < 2 ^ 32) as Hwr by (metrics; nia).
  assert (0 ≤ 0 ∧ 0 + FONT_WIDTH ≤ w) as H0 by (metrics; lia).
  destruct (draw_glyph_spec w 0 y 32 H0) with (fb := fb) as (g1 & Hg1 & Hs1 & Ho1); [apply Hwr; metrics; lia|lia|].
  set (at_line fb := mk_FramebufferWriter fb w h PAD_LEFT y' (h - PAD_BOTTOM)).
  destruct (fill_line_spec y' BACKGROUND_COLOR (at_line g1)) as (f1 & Hf1 & Hl1); [done|metrics; cbn; lia..|].
  destruct (draw_glyph_spec w 0 y' 62 H0) with (fb := f1) as (g2 & Hg2 & Hs2 & Ho2); [apply Hwr; metrics; lia|lia|].
  destruct (fill_line_spec b1 BOUNDARY_COLOR (at_line g2)) as (f2 & Hf2 & Hl2); [done|metrics; cbn; lia..|].
  destruct (fill_line_spec b2 BOUNDARY_COLOR (at_line f2)) as (f3 & Hf3 & Hl3); [done|metrics; cbn; lia..|].
  exists y', b1, b2, g1, f1, g2, f2, f3. split; [|by split].
  unfold new_line, at_line, set_pos, set_fb in *. fields. rewrite Hwrap. fields.
  rewrite Hg1, bind_Done, Hf1. fields. rewrite Hg2, bind_Done, Hf2. fields. by rewrite Hf3.
Qed.

Lemma steps_inside w h y y' b1 b2 fb g1 f1 g2 f2 f3 :
  16 ≤ w → PAD_TOP ≤ y < h - PAD_BOTTOM → new_line_steps w h y y' b1 b2 fb g1 f1 g2 f2 f3 →
  inside w h fb → inside w h f3.
Proof.
  intros Hw Hy [] Hin. eapply (fill_inside w h b2); [metrics; lia..| |done].
  eapply (fill_inside w h b1); [metrics; lia..| |done].
  eapply (glyph_inside w h 0 y'); [metrics; lia..| |done].
  eapply (fill_inside w h y'); [metrics; lia..| |done].
  by eapply (glyph_inside w h 0 y); [metrics; lia..| |].
Qed.

Lemma steps_shown w h x x' y y' b1 b2 fb g1 f1 g2 f2 f3 cut :
  16 ≤ w → 72 ≤ h → new_line_steps w h y y' b1 b2 fb g1 f1 g2 f2 f3 →
  new_line_shown (mk_FramebufferWriter fb w h x y cut) (mk_FramebufferWriter f3 w h x' y' cut).
Proof.
  intros Hw Hh []. destruct step_apart0 as (Hyy & Hyb1 & Hyb2 & Hb1 & Hb2); [done|].
  assert (∀ c r, 0 ≤ c < w → y' ≤ r < y' + FONT_HEIGHT → f3 !! offset w c r = g2 !! offset w c r) as Hnew.
  { intros c r Hc Hr. rewrite (fill_other_line w b2 _ f2 f3), (fill_other_line w b1 _ g2 f2) by (done || metrics; lia).
    done. }
  assert (∀ c r, 0 ≤ c < w → y ≤ r < y + FONT_HEIGHT → f3 !! offset w c r = g1 !! offset w c r) as Hold.
  { intros c r Hc Hr. rewrite (fill_other_line w b2 _ f2 f3), (fill_other_line w b1 _ g2 f2) by (done || metrics; lia).
    rewrite (glyph_other w 0 y' f1 g2) by (done || metrics; lia).
    by rewrite (fill_other_line w y' _ g1 f1) by (done || metrics; lia). }
  split; fields.
  - apply (shows_agree _ _ _ _ g2); [|done]. intros. apply Hnew; metrics; lia.
  - intros c r Hc Hr. rewrite Hnew, (glyph_other w 0 y' f1 g2) by (done || metrics; lia).
    by apply (filled_line w y' _ g1 f1); [|metrics; lia|].
  - apply (shows_agree _ _ _ _ g1); [|done]. intros. apply Hold; metrics; lia.
  - intros c r Hc Hr. rewrite Hold by (done || metrics; lia). apply (glyph_other w 0 y fb g1); done || metrics; lia.
Qed.

Lemma new_line_spec s : writer_ok s → ∃ s', new_line s = Done s' ∧ writer_ok s' ∧ same_screen s s' ∧
  current_x_pos s' = PAD_LEFT ∧ (72 ≤ fb_height s → new_line_shown s s').
Proof.
  destruct s as [fb w h x y cut]. intros Hok. assert (cut = h - PAD_BOTTOM) as -> by apply Hok.
  destruct (new_line_run fb w h x y Hok) as (y' & b1 & b2 & g1 & f1 & g2 & f2 & f3 & Hrun & Hsteps).
  destruct Hok as [Hscr Hcut Hy Hx Hin]. fields. eexists. split; [exact Hrun|].
  assert (16 ≤ w) as Hw by apply Hscr. split; [|split; [done|split; [done|]]].
  - split; fields; [done|done|by destruct Hsteps|metrics; lia|]. by eapply steps_inside.
  - intros Hh. by eapply steps_shown.
Qed.

(** *** Characters and strings *)

(** Drawing a printable character at the cursor and moving on. *)
Lemma put_char_spec s char : writer_ok s → current_x_pos s + FONT_WIDTH ≤ fb_width s → 32 ≤ char ≤ 126 →
  ∃ fb, draw_glyph (framebuffer s) (fb_width s) (current_x_pos s) (current_y_pos s) char = Done fb ∧
    shows fb (fb_width s) (current_x_pos s) (current_y_pos s) char ∧
    same_outside (fb_width s) (current_x_pos s) (current_y_pos s) FONT_WIDTH FONT_HEIGHT (framebuffer s) fb ∧
    u32 (current_x_pos s + FONT_WIDTH) = current_x_pos s + FONT_WIDTH ∧
    writer_ok (set_pos (u32 (current_x_pos s + FONT_WIDTH)) (current_y_pos s) (set_fb fb s)).
Proof.
  destruct s as [fb w h x y cut]. intros [Hscr Hcut Hy Hx Hin] Hxw Hc. fields. pose proof (screen_small _ _ Hscr) as [Hw Hh].
  destruct (draw_glyph_spec w x y char) with (fb := fb) as (fb' & Hd & Hs & Ho); [metrics; lia|metrics; nia|done|].
  assert (u32 (x + FONT_WIDTH) = x + FONT_WIDTH) as Hu by (apply u32_small; metrics; lia).
  exists fb'. split; [done|]. split; [done|]. split; [done|]. split; [done|]. rewrite Hu.
  unfold set_pos, set_fb. fields. split; fields; [done|done|done|metrics; lia|].
  by eapply (glyph_inside w h x y fb); [metrics; lia..| |].
Qed.

Lemma draw_char_ok char s : writer_ok s → ∃ s', draw_char char s = Done s' ∧ writer_ok s' ∧ same_screen s s'.
Proof.
  intros Hok. unfold draw_char. destruct (Z.eqb_spec char 10).
  { destruct (new_line_spec s Hok) as (s' & -> & ? & ? & _). eauto. }
  destruct (Z.ltb_spec char 32); [by exists s|]. destruct (Z.ltb_spec 126 char); [by exists s|]. cbn [orb].
  assert (∃ s', (if u32 (fb_width s - PAD_LEFT - PAD_RIGHT) <=? current_x_pos s then new_line s else Done s) = Done s' ∧
    writer_ok s' ∧ same_screen s s' ∧ current_x_pos s' + FONT_WIDTH ≤ fb_width s') as (s1 & -> & Hok1 & Hsame & Hfit).
  { destruct (Z.leb_spec (u32 (fb_width s - PAD_LEFT - PAD_RIGHT)) (current_x_pos s)) as [|Hlt].
    - destruct (new_line_spec s Hok) as (s' & -> & Hok' & [Hw Hh] & Hx & _). exists s'. do 3 (split; [done|]).
      rewrite Hx. destruct (writer_screen _ Hok'). metrics. lia.
    - exists s. do 3 (split; [done|]). pose proof (writer_screen _ Hok) as Hscr. pose proof (screen_small _ _ Hscr).
      destruct Hscr. metrics. rewrite u32_small in Hlt by lia. lia. }
  rewrite bind_Done. destruct (put_char_spec s1 char Hok1 Hfit) as (fb & -> & _ & _ & _ & Hput); [lia|].
  eexists. split; [reflexivity|]. split; [exact Hput|]. done.
Qed.

Lemma for_each_ok {A} (body : A → FramebufferWriter → outcome FramebufferWriter) xs s :
  (∀ x s, writer_ok s → ∃ s', body x s = Done s' ∧ writer_ok s' ∧ same_screen s s') →
  writer_ok s → ∃ s', for_each xs body s = Done s' ∧ writer_ok s' ∧ same_screen s s'.
Proof.
  intros Hb. revert s. induction xs as [|x xs IH]; intros s Hok; cbn [for_each]; [by exists s|].
  destruct (Hb x s Hok) as (s1 & -> & Hok1 & [Hw1 Hh1]). rewrite bind_Done.
  destruct (IH s1 Hok1) as (s2 & -> & Hok2 & [Hw2 Hh2]). exists s2. do 2 (split; [done|]). split; congruence.
Qed.

Lemma draw_string_ok str s : writer_ok s → ∃ s', draw_string str s = Done s' ∧ writer_ok s' ∧ same_screen s s'.
Proof. apply for_each_ok. intros c t. apply draw_char_ok. Qed.

Lemma println_ok str s : writer_ok s → ∃ s', println str s = Done s' ∧ writer_ok s' ∧ same_screen s s'.
Proof.
  intros Hok. unfold println, print. destruct (draw_string_ok str s Hok) as (s1 & -> & Hok1 & [Hw1 Hh1]).
  rewrite bind_Done. destruct (new_line_spec s1 Hok1) as (s2 & -> & Hok2 & [Hw2 Hh2] & _). exists s2. split; [done|].
  split; [done|]. split; congruence.
Qed.

Lemma clear_screen_ok s : writer_ok s → writer_ok (clear_screen s) ∧ same_screen s (clear_screen s).
Proof.
  destruct s as [fb w h x y cut]. intros [Hscr Hcut Hy Hx Hin]. unfold clear_screen, set_pos, set_fb. fields.
  split; [|done]. split; fields; [done|done|metrics; lia|metrics; lia|].
  intros i v. rewrite fill_lookup. rewrite u32_small by (metrics; nia). case_decide; [intros _; metrics; nia|apply Hin].
Qed.

Lemma fb_run_ok c s : writer_ok s → ∃ s', fb_run c s = Done s' ∧ writer_ok s' ∧ same_screen s s'.
Proof.
  intros Hok. destruct c as [|str|str|str|bytes|]; cbn [fb_run].
  - eexists. split; [done|]. by apply clear_screen_ok.
  - by apply draw_string_ok.
  - by apply draw_string_ok.
  - by apply println_ok.
  - by apply draw_string_ok.
  - apply for_each_ok; [|done]. intros l t. apply println_ok.
Qed.

Lemma writer_new_ok w h : screen w h → writer_ok (FramebufferWriter_new ∅ w h).
Proof.
  intros Hscr. pose proof (screen_small _ _ Hscr) as [Hw Hh]. unfold FramebufferWriter_new.
  split; fields; [done|apply u32_small; metrics; lia| |metrics; lia|by intros ??].
  rewrite u32_small by (metrics; lia). metrics. lia.
Qed.

(** C36. A framebuffer writer created for any screen of at least 16 by 48 pixels
    whose pixel count fits in 32 bits runs every sequence of clears, prints and
    banners to completion, the text arbitrary: no index panics, every pixel it ever
    wrote lies inside the framebuffer, and the cursor stays on a text line above the
    bottom padding. *)
Theorem framebuffer_writes_inside w h calls :
  screen w h → ∃ s, for_each calls fb_run (FramebufferWriter_new ∅ w h) = Done s ∧
    fb_width s = w ∧ fb_height s = h ∧
    (∀ i, i ∈ dom (framebuffer s) → 0 ≤ i < w * h) ∧
    PAD_TOP ≤ current_y_pos s ∧ current_y_pos s + FONT_HEIGHT < h ∧ PAD_LEFT ≤ current_x_pos s ≤ w.
Proof.
  intros Hscr. destruct (for_each_ok fb_run calls (FramebufferWriter_new ∅ w h) fb_run_ok)
    as (s & Hrun & [] & [Hsw Hsh]); [by apply writer_new_ok|].
  cbn in Hsw, Hsh. rewrite Hsw, Hsh in *. exists s. do 3 (split; [done|]). split.
  - intros i [v Hi]%elem_of_dom. by apply (writer_inside0 i v).
  - metrics. lia.
Qed.

Lemma framebuffer_writes_inside_witness :
  screen 640 480 ∧ ∃ s, for_each [Clear; Banner; Println [72; 105; 200; 10]] fb_run (FramebufferWriter_new ∅ 640 480) = Done s ∧
    fb_width s = 640 ∧ fb_height s = 480 ∧ (∀ i, i ∈ dom (framebuffer s) → 0 ≤ i < 640 * 480) ∧
    PAD_TOP ≤ current_y_pos s ∧ current_y_pos s + FONT_HEIGHT < 480 ∧ PAD_LEFT ≤ current_x_pos s ≤ 640.
Proof.
  assert (screen 640 480) as Hs by (unfold screen; lia). split; [done|].
  exact (framebuffer_writes_inside 640 480 [Clear; Banner; Println [72; 105; 200; 10]] Hs).
Defined.

(** *** Text on a line *)

(** The character drawn for a byte, and whether it is drawn at all. *)
Definition drawn_as (byte : Z) : Z := if (32 <=? byte) && (byte <=? 126) then byte else 63.

Lemma drawn_as_printable byte : 32 ≤ drawn_as byte ≤ 126.
Proof. unfold drawn_as. destruct (Z.leb_spec 32 byte), (Z.leb_spec byte 126); cbn [andb]; lia. Qed.

(** One character with room on its line. *)
Lemma draw_char_room s byte :
  writer_ok s → byte ≠ 10 → current_x_pos s < fb_width s - 2 * FONT_WIDTH →
  ∃ fb, draw_char (if ((32 <=? byte) && (byte <=? 126)) || (byte =? 10) then byte else 63) s =
      Done (set_pos (current_x_pos s + FONT_WIDTH) (current_y_pos s) (set_fb fb s)) ∧
    writer_ok (set_pos (current_x_pos s + FONT_WIDTH) (current_y_pos s) (set_fb fb s)) ∧
    shows fb (fb_width s) (current_x_pos s) (current_y_pos s) (drawn_as byte) ∧
    same_outside (fb_width s) (current_x_pos s) (current_y_pos s) FONT_WIDTH FONT_HEIGHT (framebuffer s) fb.
Proof.
  intros Hok Hb Hroom. rewrite (proj2 (Z.eqb_neq byte 10)), orb_false_r by done. fold (drawn_as byte).
  pose proof (drawn_as_printable byte) as Hp. generalize dependent (drawn_as byte). intros c Hp.
  unfold draw_char. rewrite (proj2 (Z.eqb_neq c 10)), (proj2 (Z.ltb_ge c 32)), (proj2 (Z.ltb_ge 126 c)) by lia. cbn [orb].
  pose proof (writer_screen s Hok) as Hscr. pose proof (screen_small _ _ Hscr) as [Hw _]. destruct Hscr as [Hw0 _].
  rewrite (proj2 (Z.leb_gt _ _)) by (rewrite u32_small; metrics; lia). rewrite bind_Done.
  destruct (put_char_spec s c Hok) as (fb & -> & Hs & Ho & Hu & Hput); [metrics; lia|lia|].
  rewrite Hu in *. exists fb. by rewrite bind_Done.
Qed.

(** A string with room on its line is shown cell by cell; the line left of it and the
    other lines are untouched. *)
Lemma draw_string_room str s :
  writer_ok s → Forall (λ b, b ≠ 10) str →
  current_x_pos s + FONT_WIDTH * Z.of_nat (length str) < fb_width s - FONT_WIDTH →
  ∃ s', draw_string str s = Done s' ∧ writer_ok s' ∧ same_screen s s' ∧ current_y_pos s' = current_y_pos s ∧
    (∀ i b, str !! i = Some b →
       shows (framebuffer s') (fb_width s) (current_x_pos s + FONT_WIDTH * Z.of_nat i) (current_y_pos s) (drawn_as b)) ∧
    (∀ c r, 0 ≤ c < fb_width s → c < current_x_pos s ∨ ¬ (current_y_pos s ≤ r < current_y_pos s + FONT_HEIGHT) →
       framebuffer s' !! offset (fb_width s) c r = framebuffer s !! offset (fb_width s) c r).
Proof.
  unfold draw_string. revert s. induction str as [|b str IH]; intros s Hok Hstr Hroom; cbn [for_each].
  { exists s. by do 4 (split; [done|]). }
  apply Forall_cons in Hstr as [Hb Hstr]. cbn [length] in Hroom.
  destruct (draw_char_room s b Hok Hb) as (fb & -> & Hok1 & Hs1 & Ho1); [metrics; lia|]. rewrite bind_Done.
  pose proof (writer_x s Hok) as Hx. destruct s as [fb0 w h x y cut]. unfold set_pos, set_fb in *. fields.
  destruct (IH _ Hok1 Hstr) as (s2 & -> & Hok2 & [Hw2 Hh2] & Hy2 & Hs2 & Hk2); fields; [lia|].
  exists s2. do 2 (split; [done|]). split; [by split|]. split; [done|]. split.
  - intros [|i] c Hi; cbn in Hi.
    + injection Hi as <-. rewrite Z.mul_0_r, Z.add_0_r. apply (shows_agree _ _ _ _ fb); [|done].
      intros. apply Hk2; metrics; lia.
    + replace (x + _) with (x + FONT_WIDTH + FONT_WIDTH * Z.of_nat i) by (metrics; lia). by apply Hs2.
  - intros c r Hc Hr. rewrite Hk2 by (metrics; lia). apply (glyph_other w x y); [done|metrics; lia..].
Qed.

(** A line printed from the start of a line of a screen at least six text lines
    high, short enough for the line and without newline bytes, is on the screen
    afterwards: its [i]-th cell shows the font's glyph of the [i]-th byte, or of '?'
    when the byte is not printable ASCII; the '>' marker has moved from that line to
    the new current line, which is otherwise blank. *)
Theorem println_shows str s :
  writer_ok s → 72 ≤ fb_height s → current_x_pos s = PAD_LEFT → Forall (λ b, b ≠ 10) str →
  FONT_WIDTH * Z.of_nat (length str) < fb_width s - 2 * FONT_WIDTH →
  ∃ s', println str s = Done s' ∧ writer_ok s' ∧ current_x_pos s' = PAD_LEFT ∧
    (∀ i b, str !! i = Some b →
       shows (framebuffer s') (fb_width s) (PAD_LEFT + FONT_WIDTH * Z.of_nat i) (current_y_pos s) (drawn_as b)) ∧
    shows (framebuffer s') (fb_width s) 0 (current_y_pos s) 32 ∧
    shows (framebuffer s') (fb_width s) 0 (current_y_pos s') 62 ∧
    (∀ c r, FONT_WIDTH ≤ c < fb_width s → current_y_pos s' ≤ r < current_y_pos s' + FONT_HEIGHT →
       framebuffer s' !! offset (fb_width s) c r = Some BACKGROUND_COLOR).
Proof.
  intros Hok Hh Hx Hstr Hlen. unfold println, print.
  destruct (draw_string_room str s Hok Hstr) as (s1 & -> & Hok1 & [Hw1 Hh1] & Hy1 & Hs1 & _); [rewrite Hx; metrics; lia|].
  rewrite bind_Done. destruct (new_line_spec s1 Hok1) as (s2 & -> & Hok2 & [Hw2 Hh2] & Hx2 & Hnl).
  destruct Hnl as [Hp Hbl Hun Hkeep]; [lia|]. rewrite Hw1, Hy1 in *. exists s2. do 3 (split; [done|]). split; [|done].
  intros i b Hi. apply (shows_agree _ _ _ _ (framebuffer s1)); [|rewrite <- Hx; by apply Hs1].
  apply lookup_lt_Some in Hi. intros c r Hc Hr. apply Hkeep; metrics; lia.
Qed.

Lemma println_shows_witness :
  let s := FramebufferWriter_new ∅ 160 96 in
  writer_ok s ∧ 72 ≤ fb_height s ∧ current_x_pos s = PAD_LEFT ∧
  ∃ s', println [79; 75; 200] s = Done s' ∧ writer_ok s' ∧ current_x_pos s' = PAD_LEFT ∧
    (∀ i b, [79; 75; 200] !! i = Some b →
       shows (framebuffer s') (fb_width s) (PAD_LEFT + FONT_WIDTH * Z.of_nat i) (current_y_pos s) (drawn_as b)) ∧
    shows (framebuffer s') (fb_width s) 0 (current_y_pos s) 32 ∧
    shows (framebuffer s') (fb_width s) 0 (current_y_pos s') 62 ∧
    (∀ c r, FONT_WIDTH ≤ c < fb_width s → current_y_pos s' ≤ r < current_y_pos s' + FONT_HEIGHT →
       framebuffer s' !! offset (fb_width s) c r = Some BACKGROUND_COLOR).
Proof.
  assert (writer_ok (FramebufferWriter_new ∅ 160 96)) as Hok by (apply writer_new_ok; unfold screen; lia).
  split; [exact Hok|]. split; [done|]. split; [done|].
  apply (println_shows [79; 75; 200] (FramebufferWriter_new ∅ 160 96) Hok); [done|done| |done].
  apply (bool_decide_unpack _). by vm_compute.
Defined.

(** The text mode the boot loader falls back to, 80 by 25, is not such a screen: the
    first new line fills a boundary line that starts below the last row. *)
Lemma text_mode_writes_outside :
  ¬ screen 80 25 ∧
  (new_line (FramebufferWriter_new ∅ 80 25) ≫= λ s, Done (framebuffer s !! offset 80 0 47)) =
    Done (Some BOUNDARY_COLOR).
Proof. split; [unfold screen; lia|]. by vm_compute. Qed.
