(* ===== verification/Serial.v ===== *)
(** * Serial.v: the serial port

    [hardware_manager/serial.rs]: the register writes that set up the port, the
    polling loop behind every byte, and the level filter of debug messages.  What a
    port read returns is a function of the port and of the number of reads so far;
    the run keeps every access in order. *)

From S2P Require Import Prelude Bytes.

Local Open Scope Z_scope.

(** ** Port accesses *)

Inductive access := In (port value : Z) | Out (port value : Z).

(** The accesses so far, the latest first, and the number of reads among them. *)
Record io := mk_io { accesses : list access; reads : nat }.

Definition u16 (z : Z) : Z := z mod 2 ^ 16.

Definition COM1_PORT : Z := 0x3F8.

Inductive DebugLevel := DEBUG | INFO | WARNING | ERROR | CRITICAL.

(** The discriminants, which the derived order compares. *)
Definition level_value (l : DebugLevel) : Z :=
  match l with DEBUG => 1 | INFO => 2 | WARNING => 3 | ERROR => 4 | CRITICAL => 5 end.

Definition DEBUG_LEVEL : DebugLevel := INFO.

Record SerialWriter := mk_SerialWriter { port : Z }.
Definition SerialWriter_new (port : Z) : SerialWriter := mk_SerialWriter port.

Section port_io.
(** What the [n]-th read of a port returns. *)
Context (device : Z → nat → Z).

Definition inb (port : Z) (s : io) : Z * io :=
  let value := device port (reads s) in (value, mk_io (In port value :: accesses s) (S (reads s))).

Definition outb (port value : Z) (s : io) : io := mk_io (Out port value :: accesses s) (reads s).

Definition init (port : Z) (s : io) : io :=
  let s := outb (u16 (port + 1)) 0x00 s in
  let s := outb (u16 (port + 3)) 0x80 s in
  let s := outb (u16 (port + 0)) 0x03 s in
  let s := outb (u16 (port + 1)) 0x00 s in
  let s := outb (u16 (port + 3)) 0x03 s in
  let s := outb (u16 (port + 2)) 0xC7 s in
  outb (u16 (port + 4)) 0x0B s.

(** [while (inb(port + 5) & 0x20) == 0 {}] *)
Fixpoint wait_transmit (fuel : nat) (port : Z) (s : io) : outcome io :=
  match fuel with
  | O => OutOfFuel
  | S fuel =>
      let '(status, s) := inb (u16 (port + 5)) s in
      if Z.land status 0x20 =? 0 then wait_transmit fuel port s else Done s
  end.

Definition send_bytes (fuel : nat) (port : Z) (str : list Z) (s : io) : outcome io :=
  for_each str (λ char s, s ← wait_transmit fuel port s; Done (outb port char s)) s.

Definition serial_write (fuel : nat) (w : SerialWriter) (str : list Z) (s : io) : outcome io :=
  send_bytes fuel (port w) str s.

Definition write_str (fuel : nat) (w : SerialWriter) (str : list Z) (s : io) : outcome io := serial_write fuel w str s.

Definition print_debug (fuel : nat) (w : SerialWriter) (debug_level : DebugLevel) (msg : list Z) (s : io) : outcome io :=
  if level_value debug_level <? level_value DEBUG_LEVEL then Done s else
  s ← serial_write fuel w msg s;
  serial_write fuel w [10] s.

(** The free function, on the fixed port. *)
Definition print (fuel : nat) (msg : list Z) (s : io) : outcome io := send_bytes fuel COM1_PORT msg s.

(** What the kernel does with the port once the writer exists. *)
Inductive serial_call := Print (msg : list Z) | WriteStr (str : list Z) | Debug (level : DebugLevel) (msg : list Z).

Definition serial_run (fuel : nat) (c : serial_call) (s : io) : outcome io :=
  let w := SerialWriter_new COM1_PORT in
  match c with
  | Print msg => print fuel msg s
  | WriteStr str => write_str fuel w str s
  | Debug level msg => print_debug fuel w level msg s
  end.

(** ** The port as its data sheet describes it *)

(** A 16550 port at [COM1_PORT]: bit 7 of the line control register switches the first two
    registers between the data registers and the baud rate divisor. *)
Record uart := mk_uart {
  divisor : Z; line_control : Z; interrupt_enable : Z; fifo_control : Z; modem_control : Z; transmitted : list Z
}.

Definition uart_write (u : uart) (port value : Z) : uart :=
  let dlab := Z.testbit (line_control u) 7 in
  match port - COM1_PORT with
  | 0 => if dlab then mk_uart (divisor u - divisor u mod 256 + value) (line_control u) (interrupt_enable u)
           (fifo_control u) (modem_control u) (transmitted u)
         else mk_uart (divisor u) (line_control u) (interrupt_enable u) (fifo_control u) (modem_control u)
           (transmitted u ++ [value])
  | 1 => if dlab then mk_uart (value * 256 + divisor u mod 256) (line_control u) (interrupt_enable u)
           (fifo_control u) (modem_control u) (transmitted u)
         else mk_uart (divisor u) (line_control u) value (fifo_control u) (modem_control u) (transmitted u)
  | 2 => mk_uart (divisor u) (line_control u) (interrupt_enable u) value (modem_control u) (transmitted u)
  | 3 => mk_uart (divisor u) value (interrupt_enable u) (fifo_control u) (modem_control u) (transmitted u)
  | 4 => mk_uart (divisor u) (line_control u) (interrupt_enable u) (fifo_control u) value (transmitted u)
  | _ => u
  end.

(** The port after a list of accesses, the latest first. *)
Fixpoint uart_after (u : uart) (l : list access) : uart :=
  match l with
  | [] => u
  | Out port value :: l => uart_write (uart_after u l) port value
  | In _ _ :: l => uart_after u l
  end.

(** Every write to the data register follows a read that saw the transmit buffer empty. *)
Fixpoint handshake (l : list access) : Prop :=
  match l with
  | Out p _ :: (In q v :: l) as l' => (p = COM1_PORT → q = COM1_PORT + 5 ∧ Z.testbit v 5 = true) ∧ handshake l'
  | Out p _ :: l => p ≠ COM1_PORT ∧ handshake l
  | In _ _ :: l => handshake l
  | [] => True
  end.

(** The text a call puts on the wire. *)
Definition sent (c : serial_call) : list Z :=
  match c with
  | Print msg => msg
  | WriteStr str => str
  | Debug DEBUG _ => []
  | Debug _ msg => msg ++ [10]
  end.

(** ** Facts *)

Lemma uart_after_app u a b : uart_after u (a ++ b) = uart_after (uart_after u b) a.
Proof. induction a as [|[] a IH]; cbn; [done|apply IH|by rewrite IH]. Qed.

Lemma handshake_app a b : handshake a → handshake b → handshake (a ++ b).
Proof.
  intros Ha Hb. induction a as [|[q v|p v] a IH]; [done|by apply IH|].
  destruct a as [|[q st|q st] a]; cbn in *; [|destruct Ha; split; [done|by apply IH]..].
  destruct b as [|[]]; cbn in *; [done|split; [tauto|done]|tauto].
Qed.

(** [s'] continues [s], and a port in data mode has received [text]. *)
Definition continues (s s' : io) (text : list Z) : Prop :=
  ∃ new, accesses s' = new ++ accesses s ∧ handshake new ∧
    ∀ u, Z.testbit (line_control u) 7 = false → uart_after u new =
      mk_uart (divisor u) (line_control u) (interrupt_enable u) (fifo_control u) (modem_control u) (transmitted u ++ text).

Lemma continues_refl s : continues s s [].
Proof. exists []. split; [done|]. split; [done|]. intros [] _. cbn. by rewrite app_nil_r. Qed.

Lemma continues_trans s1 s2 s3 t1 t2 : continues s1 s2 t1 → continues s2 s3 t2 → continues s1 s3 (t1 ++ t2).
Proof.
  intros (n1 & H1 & Hh1 & Hu1) (n2 & H2 & Hh2 & Hu2). exists (n2 ++ n1). split; [by rewrite H2, H1, app_assoc|].
  split; [by apply handshake_app|]. intros u Hu. rewrite uart_after_app, Hu1 by done. rewrite Hu2 by done. cbn.
  by rewrite app_assoc.
Qed.

(** With enough fuel, [run] sends [text]: more fuel changes nothing. *)
Definition sends (run : nat → outcome io) (s : io) (text : list Z) : Prop :=
  ∃ s' fuel0, (∀ fuel, (fuel0 ≤ fuel)%nat → run fuel = Done s') ∧ continues s s' text.

Lemma sends_nothing s : sends (λ _, Done s) s [].
Proof. exists s, O. split; [done|apply continues_refl]. Qed.

Lemma sends_bind run1 run2 s t1 t2 :
  sends run1 s t1 → (∀ s', sends (λ fuel, run2 fuel s') s' t2) → sends (λ fuel, run1 fuel ≫= run2 fuel) s (t1 ++ t2).
Proof.
  intros (s1 & f1 & Hr1 & Hc1) H2. destruct (H2 s1) as (s2 & f2 & Hr2 & Hc2). exists s2, (Nat.max f1 f2). split.
  - intros fuel Hf. rewrite Hr1 by lia. apply Hr2. lia.
  - by apply (continues_trans _ s1).
Qed.

(** The transmit buffer becomes empty again and again. *)
Definition drains : Prop := ∀ n, ∃ m, (n ≤ m)%nat ∧ Z.testbit (device (COM1_PORT + 5) m) 5 = true.

Lemma wait_transmit_S fuel s :
  wait_transmit (S fuel) COM1_PORT s =
    let s' := (inb (COM1_PORT + 5) s).2 in
    if Z.testbit (device (COM1_PORT + 5) (reads s)) 5 then Done s' else wait_transmit fuel COM1_PORT s'.
Proof.
  cbn [wait_transmit]. change (u16 (COM1_PORT + 5)) with (COM1_PORT + 5). unfold inb. cbn [snd].
  rewrite <- (land_bit _ 5) by lia. change (Z.shiftl 1 5) with 0x20. by destruct (_ =? 0).
Qed.

(** The wait ends at the first read that sees the bit. *)
Lemma wait_transmit_ready k s :
  Z.testbit (device (COM1_PORT + 5) (reads s + k)) 5 = true →
  ∃ s' polled v, (∀ fuel, (S k ≤ fuel)%nat → wait_transmit fuel COM1_PORT s = Done s') ∧
    accesses s' = In (COM1_PORT + 5) v :: polled ++ accesses s ∧ Z.testbit v 5 = true ∧
    (∀ u, uart_after u polled = u) ∧ handshake polled.
Proof.
  revert s. induction k as [|k IH]; intros s Hk;
    (destruct (Z.testbit (device (COM1_PORT + 5) (reads s)) 5) eqn:Hv;
       [eexists (inb (COM1_PORT + 5) s).2, [], _; split; [|by split; [reflexivity|]];
        intros [|fuel] Hf; [lia|]; rewrite wait_transmit_S, Hv; reflexivity|]).
  { by rewrite Nat.add_0_r, Hv in Hk. }
  destruct (IH (inb (COM1_PORT + 5) s).2) as (s' & polled & v & Hrun & Hacc & Hok & Hu & Hh).
  { rewrite <- Hk. cbn [reads inb snd]. do 2 f_equal. lia. }
  exists s', (polled ++ [In (COM1_PORT + 5) (device (COM1_PORT + 5) (reads s))]), v. split; [|split; [|split; [done|split]]].
  - intros [|fuel] Hf; [lia|]. rewrite wait_transmit_S, Hv. apply Hrun. lia.
  - rewrite Hacc. cbn. by rewrite <- app_assoc.
  - intros u. rewrite uart_after_app. apply Hu.
  - by apply handshake_app.
Qed.

Context (Hdrains : drains).

Lemma send_byte_sends char s :
  sends (λ fuel, s ← wait_transmit fuel COM1_PORT s; Done (outb COM1_PORT char s)) s [char].
Proof.
  destruct (Hdrains (reads s)) as (m & Hm & Hready).
  destruct (wait_transmit_ready (m - reads s) s) as (s' & polled & v & Hrun & Hacc & Hv & Hu & Hh).
  { rewrite <- Hready. do 2 f_equal. lia. }
  exists (outb COM1_PORT char s'), (S (m - reads s)). split; [intros fuel Hf; by rewrite Hrun|].
  exists (Out COM1_PORT char :: In (COM1_PORT + 5) v :: polled). split; [cbn; by rewrite Hacc|].
  split; [done|]. intros u Hdata. cbn [uart_after]. rewrite Hu. unfold uart_write. by rewrite Hdata, Z.sub_diag.
Qed.

Lemma send_bytes_sends str s : sends (λ fuel, send_bytes fuel COM1_PORT str s) s str.
Proof.
  unfold send_bytes. revert s. induction str as [|char str IH]; intros s; cbn [for_each]; [apply sends_nothing|].
  apply (sends_bind _ _ s [char] str); [apply send_byte_sends|exact IH].
Qed.

Lemma serial_run_sends c s : sends (λ fuel, serial_run fuel c s) s (sent c).
Proof.
  destruct c as [msg|str|level msg]; cbn [serial_run sent]; [apply send_bytes_sends..|].
  destruct level; [apply sends_nothing|..];
    (apply (sends_bind (λ fuel, send_bytes fuel COM1_PORT msg s)); [apply send_bytes_sends|];
     intros s'; exact (send_bytes_sends [10] s')).
Qed.

Lemma serial_calls_sends calls s : sends (λ fuel, for_each calls (serial_run fuel) s) s (calls ≫= sent).
Proof.
  revert s. induction calls as [|c calls IH]; intros s; cbn [for_each mbind list_bind]; [apply sends_nothing|].
  apply (sends_bind (λ fuel, serial_run fuel c s)); [apply serial_run_sends|exact IH].
Qed.
End port_io.

(** The port as [init] leaves it, whatever it was before. *)
Lemma init_accesses l : accesses (init COM1_PORT (mk_io l 0)) =
  [Out 0x3FC 0x0B; Out 0x3FA 0xC7; Out 0x3FB 0x03; Out 0x3F9 0x00; Out 0x3F8 0x03; Out 0x3FB 0x80; Out 0x3F9 0x00] ++ l.
Proof. reflexivity. Qed.

(** One write to a register of a port in a known state. *)
Section registers.
Context (d lc ie fc mc : Z) (tx : list Z) (v : Z).
Let u := mk_uart d lc ie fc mc tx.

Lemma write_data : uart_write u 0x3F8 v =
  if Z.testbit lc 7 then mk_uart (d - d mod 256 + v) lc ie fc mc tx else mk_uart d lc ie fc mc (tx ++ [v]).
Proof. done. Qed.
Lemma write_ier : uart_write u 0x3F9 v =
  if Z.testbit lc 7 then mk_uart (v * 256 + d mod 256) lc ie fc mc tx else mk_uart d lc v fc mc tx.
Proof. done. Qed.
Lemma write_fcr : uart_write u 0x3FA v = mk_uart d lc ie v mc tx.
Proof. done. Qed.
Lemma write_lcr : uart_write u 0x3FB v = mk_uart d v ie fc mc tx.
Proof. done. Qed.
Lemma write_mcr : uart_write u 0x3FC v = mk_uart d lc ie fc v tx.
Proof. done. Qed.
End registers.

Lemma init_configures u l :
  let u0 := uart_after u l in
  uart_after u (accesses (init COM1_PORT (mk_io l 0))) =
    mk_uart 3 0x03 (if Z.testbit (line_control u0) 7 then interrupt_enable u0 else 0) 0xC7 0x0B (transmitted u0).
Proof.
  rewrite init_accesses. cbn [uart_after app]. destruct (uart_after u l) as [d lc ie fc mc tx].
  cbn [line_control interrupt_enable transmitted].
  assert (∀ d, (d - d mod 256 + 3) mod 256 = 3) as Hd.
  { intros x. pose proof (Z.div_mod x 256). replace (x - x mod 256 + 3) with (3 + x / 256 * 256) by lia.
    by rewrite Z.mod_add. }
  rewrite write_ier. destruct (Z.testbit lc 7);
    rewrite write_lcr, write_data; change (Z.testbit 0x80 7) with true; cbn iota;
    rewrite write_ier; change (Z.testbit 0x80 7) with true; cbn iota; by rewrite write_lcr, write_fcr, write_mcr, Hd.
Qed.

(** C37. Serial output: after [init], and if the transmit buffer becomes empty again and
    again, every sequence of raw prints, formatted writes and debug messages ends, and
    enough polling fuel makes the run independent of it.  The port, whatever it was
    set to before, is then at divisor 3 with 8 data bits, no parity and one stop bit,
    and has sent exactly the texts in order, debug messages below the global level left
    out; no byte was written to the data register except right after a status read that
    saw the buffer empty. *)
Theorem serial_output_delivered (device : Z → nat → Z) (u : uart) calls :
  drains device → ∃ s fuel0, let s0 := init COM1_PORT (mk_io [] 0) in
    (∀ fuel, (fuel0 ≤ fuel)%nat → for_each calls (serial_run device fuel) s0 = Done s) ∧
    (let u' := uart_after u (accesses s) in
     divisor u' = 3 ∧ line_control u' = 0x03 ∧ transmitted u' = transmitted u ++ (calls ≫= sent) ∧
     (Z.testbit (line_control u) 7 = false → interrupt_enable u' = 0)) ∧
    ∃ new, accesses s = new ++ accesses s0 ∧ handshake new.
Proof.
  intros Hdrains. destruct (serial_calls_sends device Hdrains calls (init COM1_PORT (mk_io [] 0)))
    as (s & fuel0 & Hrun & new & Hacc & Hh & Hu).
  exists s, fuel0. cbn zeta. split; [exact Hrun|]. split; [|by exists new].
  rewrite Hacc, uart_after_app, (init_configures u []). rewrite Hu by done.
  do 3 (split; [done|]). cbn. by intros ->.
Qed.

(** A port whose buffer is empty on every third read. *)
Lemma serial_output_delivered_witness :
  let device := λ (_ : Z) n, if (n mod 3 =? 2)%nat then 0x60 else 0 in
  let calls := [Print [72; 105]; Debug DEBUG [33]; Debug WARNING [63]] in
  let u := mk_uart 1 0x80 0 0 0 [] in
  drains device ∧ (calls ≫= sent) = [72; 105; 63; 10] ∧
  ∃ s fuel0, let s0 := init COM1_PORT (mk_io [] 0) in
    (∀ fuel, (fuel0 ≤ fuel)%nat → for_each calls (serial_run device fuel) s0 = Done s) ∧
    (let u' := uart_after u (accesses s) in
     divisor u' = 3 ∧ line_control u' = 0x03 ∧ transmitted u' = transmitted u ++ (calls ≫= sent) ∧
     (Z.testbit (line_control u) 7 = false → interrupt_enable u' = 0)) ∧
    ∃ new, accesses s = new ++ accesses s0 ∧ handshake new.
Proof.
  intros device calls u. assert (drains device) as Hd.
  { intros n. exists (3 * n + 2)%nat. split; [lia|]. unfold device. rewrite Nat.add_comm, Nat.mul_comm, Nat.Div0.mod_add.
    done. }
  split; [exact Hd|]. split; [done|]. exact (serial_output_delivered device u calls Hd).
Defined.
