(* ===== verification/Boot.v ===== *)
(** * Boot.v: from the boot loader to the higher half

    The first part of [_start] in [main.rs], up to the first pages of the heap;
    the messages it prints on the way are in [Console.v].  First the checks on what the boot loader passed, ACPI, the page
    allocator, the boot page tables, the switch of CR3 and the move to the higher
    half; then the processor topology and the heap.  The theorem composes the
    lemmas of [Pmm.v], [HigherHalf.v], [MemoryManager.v] and [KernelHeap.v]: the
    page budget of the first suffices for both mapping phases. *)

From S2P Require Import Prelude Machine Bytes Pmm Vmm HigherHalf MemoryManager KernelHeap Acpi Apic Serial.

Local Open Scope Z_scope.

(** ** Data and operations *)

(** The structures are passed by pointer and copied; [None] is the null pointer. *)
Record BootInfo := mk_BootInfo {
  magic : Z; framebuffer_info : FramebufferInfo; memory_map_info : MemoryMapInfo
}.

Definition BOOT_MAGIC : Z := 0xDEADBEEFB007CAFE.

(** Where the kernel is when the memory manager becomes global. *)
Record Booted := mk_Booted {
  b_apic : ApicInfo; b_topology : CpuTopology; b_hpet : HpetInfo; b_cr3 : Z; b_efer : Z;
  b_manager : MemoryManager; b_mem : mem; b_regs : DescriptorRegs
}.

Inductive start_result :=
| Halted                       (** [loop { hlt }] *)
| Started (b : Booted).

(** The memory manager: allocator, page tables, [mov cr3], higher half. *)
Definition start_memory (kstart kend efer : Z) (r : DescriptorRegs) (fb : FramebufferInfo) (mm : MemoryMapInfo) (m : mem)
    : outcome (Z * Z * MemoryManager * mem * DescriptorRegs) :=
  '(pmm, m) ← Pmm.init kstart kend fb mm m;
  '(pml4, pmm, m) ← init_page_tables pmm m fb mm;
  let cr3 := pml4 in
  let '(efer, memory_manager) := MemoryManager_init efer pmm pml4 in
  '(memory_manager, m, r) ← init_higher_half memory_manager m r fb mm;
  Done (cr3, efer, memory_manager, m, r).

(** [_start], from [cli] to the global memory manager; [ports] are the port accesses. *)
Definition start (kstart kend efer : Z) (r : DescriptorRegs) (boot_info : option BootInfo) (m : mem) (ports : Serial.io)
    : outcome (start_result * Serial.io) :=
  let ports := Serial.init COM1_PORT ports in
  match boot_info with
  | None => Done (Halted, ports)
  | Some info =>
      if negb (magic info =? BOOT_MAGIC) then Done (Halted, ports) else
      let framebuffer := framebuffer_info info in
      if framebuffer_addr framebuffer =? 0 then Done (Halted, ports) else
      let memory_map := memory_map_info info in
      let rsdp_virt := rsdp_addr memory_map ⊞ KERNEL_PHYSICAL_MAP_BASE in
      acpi ← parse_acpi m rsdp_virt (Pmm.bsp_apic_id memory_map);
      '(apic_info, cpu_topology) ← expect "ACPI/MADT not found" acpi;
      '(hpet, m) ← parse_hpet m rsdp_virt;
      hpet_info ← expect "HPET not found or invalid. Cannot calibrate APIC timer..." hpet;
      '(cr3, efer, memory_manager, m, r) ← start_memory kstart kend efer r framebuffer memory_map m;
      Done (Started (mk_Booted apic_info cpu_topology hpet_info cr3 efer memory_manager m r), ports)
  end.

(** The size and the first pages of the kernel heap. *)
Definition HEAP_MAX : Z := 64 * 1024 * 1024.
Definition HEAP_FIRST_PAGES : Z := 16.

(** Processors and heap: the boot processor must be in the MADT, the topology becomes global
    and the heap gets its first pages; [hm] is the memory of the heap's window. *)
Definition start_heap (b : Booted) (hm : mem) : outcome (option CpuTopology * KernelHeap * mem * MemoryManager * mem) :=
  boot_cpu ← bsp (b_topology b);
  _ ← expect "BSP APIC ID not found in MADT" boot_cpu;
  topology ← init_cpu_topology None (b_topology b);
  '(heap, hm, manager, m) ← KernelHeap_init (LockedHeap_new KERNEL_HEAP_BASE HEAP_MAX) hm (b_manager b) (b_mem b) HEAP_FIRST_PAGES;
  Done (topology, heap, hm, manager, m).

(** ** What the boot loader must provide *)

(** The pages [init] puts on the free list, the last one on top. *)
Definition boot_pages (kstart kend : Z) (fb : FramebufferInfo) (mm : MemoryMapInfo) (m : mem) : list Z :=
  rev (kept (init_page_skipped (init_state kstart kend fb mm)) (conventional_pages m mm)).

(** Every mapping of the boot: the boot page tables, then the higher half. *)
Definition all_requests (kstart kend : Z) (fb : FramebufferInfo) (mm : MemoryMapInfo) (m : mem) : list request :=
  boot_requests (init_state kstart kend fb mm) m fb mm ++ direct_requests m mm ++ fb_requests fb.

Record loader_ok (kstart kend : Z) (fb : FramebufferInfo) (mm : MemoryMapInfo) (m : mem) : Prop := {
  lo_map : boot_map_ok direct_types mm m;
  lo_ranges : boot_ranges_ok (init_state kstart kend fb mm) fb mm;
  lo_fb : fb_ok fb;
  lo_regions : Forall region_ok (reserved_regions kstart kend fb mm);
  (** the free pages pay for the PML4 and every page table of both phases *)
  lo_budget : (length (request_tables (all_requests kstart kend fb mm m)) < length (boot_pages kstart kend fb mm m))%nat
}.

(** The memory the kernel runs in: memory map, image and stack, as start and length. *)
Definition kernel_regions (kstart kend : Z) (mm : MemoryMapInfo) : list (Z * Z) :=
  [(memory_map_addr mm, memory_map_size mm); (kstart, kend - kstart); (stack_base_addr mm, stack_size mm)].

(** ** Facts *)

Lemma identity_direct : identity_types ⊆ direct_types.
Proof. unfold identity_types, direct_types. intros t. rewrite !elem_of_cons. tauto. Qed.

Lemma conventional_direct : [EfiConventionalMemory] ⊆ direct_types.
Proof. unfold direct_types. intros t. rewrite !elem_of_cons. tauto. Qed.

(** Conventional memory is not reclaimable memory. *)
Lemma conventional_not_reclaimable d : region_is d [EfiConventionalMemory] → region_is d reclaimable_types → False.
Proof.
  unfold region_is, reclaimable_types. cbn [existsb].
  rewrite orb_false_r, !Is_true_true, !orb_true_iff, !Z.eqb_eq. intros ->. cbn. intuition discriminate.
Qed.

Lemma pages_of_types_split ts1 ts2 ts ds a :
  ts1 ⊆ ts → ts2 ⊆ ts → (∀ d, region_is d ts1 → region_is d ts2 → False) → NoDup (pages_of_types ts ds) →
  a ∈ pages_of_types ts1 ds → a ∈ pages_of_types ts2 ds → False.
Proof.
  intros H1 H2 Hd. unfold pages_of_types. induction ds as [|d ds IH]; [by intros _ ?%not_elem_of_nil|].
  rewrite !bind_cons, NoDup_app, !elem_of_app. intros (_ & Hdis & Hnd).
  assert (∀ ts', ts' ⊆ ts → ∀ d, a ∈ (if region_is d ts' then descriptor_pages d else []) →
    a ∈ (if region_is d ts then descriptor_pages d else [])) as Hup.
  { intros ts' Hsub d'. destruct (region_is d' ts') eqn:E; [|by intros ?%not_elem_of_nil].
    assert (region_is d' ts) as E' by (apply (region_is_incl _ ts'); [done|by rewrite E]). by rewrite (Is_true_eq_true _ E'). }
  assert (∀ ts', ts' ⊆ ts → a ∈ (ds ≫= λ d, if region_is d ts' then descriptor_pages d else []) →
    a ∈ (ds ≫= λ d, if region_is d ts then descriptor_pages d else [])) as Hups.
  { intros ts' Hsub (d' & Ha & Hd')%list_elem_of_bind. apply list_elem_of_bind. exists d'. split; [by apply (Hup ts')|done]. }
  intros [Ha|Ha] [Hb|Hb].
  - specialize (Hd d). destruct (region_is d ts1); [|by apply not_elem_of_nil in Ha].
    destruct (region_is d ts2); [by apply Hd|by apply not_elem_of_nil in Hb].
  - by apply (Hdis a); [apply (Hup ts1)|apply (Hups ts2)].
  - by apply (Hdis a); [apply (Hup ts2)|apply (Hups ts1)].
  - by apply IH.
Qed.

Lemma request_tables_sub r1 r2 : r1 ⊆ r2 → request_tables r1 ⊆ request_tables r2.
Proof.
  intros Hsub p. unfold request_tables. rewrite !elem_of_remove_dups, !list_elem_of_bind.
  intros (r & Hp & Hr). exists r. split; [done|by apply Hsub].
Qed.

(** *** The kernel's own window *)

(** Physical memory as the windows of the address space assume it: image and stack in the
    first 2 GB, memory below the window of the kernel, the framebuffer below 64 TB. *)
Record windows_ok (kstart kend : Z) (fb : FramebufferInfo) (mm : MemoryMapInfo) (m : mem) : Prop := {
  wi_image : 0 ≤ kstart ∧ kend ≤ 2 ^ 31;
  wi_stack : 0 ≤ stack_base_addr mm ∧ stack_base_addr mm + stack_size mm ≤ 2 ^ 31;
  wi_memory : ∀ d a, d ∈ descriptors m mm → region_is d direct_types → a ∈ descriptor_pages d → 0 ≤ a < 2 ^ 47 - 2 ^ 31;
  wi_fb : 0 ≤ framebuffer_addr fb ∧ framebuffer_addr fb + fb_size fb ≤ 2 ^ 46
}.

Definition kernel_flags (flags : Z) : Prop :=
  flags = Z.lor PRESENT WRITABLE ∨ flags = Z.lor (Z.lor PRESENT WRITABLE) NX.

(** The image and the stack, page by page. *)
Definition kernel_pages (kstart kend : Z) (mm : MemoryMapInfo) : list Z :=
  pages_between kstart kend ++ pages_between (pte_addr (stack_base_addr mm)) (stack_base_addr mm + stack_size mm).

Lemma vpn_eq va : 0 ≤ va → vpn va = va / 2 ^ 12 mod 2 ^ 36.
Proof. intros H. unfold vpn. by rewrite Z.shiftr_div_pow2. Qed.

Lemma vpn_window a : 0 ≤ a < 2 ^ 31 → vpn (a ⊞ KERNEL_VIRTUAL_BASE) = 2 ^ 36 - 2 ^ 19 + a / 2 ^ 12.
Proof.
  intros Ha. unfold KERNEL_VIRTUAL_BASE. rewrite u64_small by (unfold W64; lia). rewrite vpn_eq by lia.
  replace (a + 0xFFFFFFFF80000000) with (a + (2 ^ 52 - 2 ^ 19) * 2 ^ 12) by lia.
  rewrite Z.div_add by lia. replace (a / 2 ^ 12 + (2 ^ 52 - 2 ^ 19)) with (2 ^ 36 - 2 ^ 19 + a / 2 ^ 12 + (2 ^ 16 - 1) * 2 ^ 36) by lia.
  rewrite Z.mod_add by lia. apply Z.mod_small. split; [pose proof (Z.div_pos a (2 ^ 12)); lia|].
  assert (a / 2 ^ 12 < 2 ^ 19) by (apply Z.div_lt_upper_bound; lia). lia.
Qed.

(** An address below the window, in either half. *)
Lemma vpn_below va : 0 ≤ va < 2 ^ 47 ∨ 2 ^ 64 - 2 ^ 47 ≤ va < 2 ^ 64 - 2 ^ 31 → vpn va < 2 ^ 36 - 2 ^ 19.
Proof.
  intros Hva. rewrite vpn_eq by lia. destruct Hva as [Hva|Hva].
  - rewrite Z.mod_small; [|split; [apply Z.div_pos; lia|apply Z.div_lt_upper_bound; lia]].
    apply Z.div_lt_upper_bound; lia.
  - set (x := va - (2 ^ 64 - 2 ^ 47)). replace va with (x + (2 ^ 52 - 2 ^ 35) * 2 ^ 12) by lia. rewrite Z.div_add by lia.
    replace (x / 2 ^ 12 + (2 ^ 52 - 2 ^ 35)) with (2 ^ 35 + x / 2 ^ 12 + (2 ^ 16 - 1) * 2 ^ 36) by lia.
    assert (0 ≤ x / 2 ^ 12 < 2 ^ 35 - 2 ^ 19) by (split; [apply Z.div_pos|apply Z.div_lt_upper_bound]; lia).
    rewrite Z.mod_add, Z.mod_small by lia. lia.
Qed.

(** Nothing but the kernel's own mappings is in its window. *)
Definition kernel_request (r : request) : Prop :=
  ∃ a, 0 ≤ a < 2 ^ 31 ∧ r.1 = (a ⊞ KERNEL_VIRTUAL_BASE, a) ∧ kernel_flags r.2.

Definition outside_or_kernel (r : request) : Prop := vpn r.1.1 < 2 ^ 36 - 2 ^ 19 ∨ kernel_request r.

Lemma pte_addr_down a : in_u64 a → pte_addr a = a - a mod 2 ^ 12.
Proof. intros Ha. unfold pte_addr. change 0xFFF with (2 ^ 12 - 1). by rewrite land_not64_mask. Qed.

Lemma pte_addr_bounds a : in_u64 a → 0 ≤ pte_addr a ≤ a.
Proof.
  intros Ha. rewrite pte_addr_down by done. unfold in_u64 in Ha. pose proof (Z.mod_pos_bound a (2 ^ 12)).
  pose proof (Z.mod_le a (2 ^ 12)). lia.
Qed.

Lemma kernel_requests_window flags start end_ :
  kernel_flags flags → 0 ≤ start → end_ ≤ 2 ^ 31 →
  Forall outside_or_kernel (kernel_requests flags (pages_between start end_)).
Proof.
  intros Hf Hs He. apply Forall_forall. intros r (a & Hr & Ha)%list_elem_of_bind. apply elem_of_pages_between in Ha.
  apply elem_of_cons in Hr as [->|[->|[]%not_elem_of_nil]%elem_of_cons].
  - left. apply vpn_below. cbn. lia.
  - right. exists a. split; [lia|done].
Qed.

Lemma identity_requests_window start end_ :
  0 ≤ start → end_ ≤ 2 ^ 47 → Forall outside_or_kernel (identity_requests (pages_between start end_)).
Proof.
  intros Hs He. apply Forall_fmap, Forall_forall. intros a Ha%elem_of_pages_between.
  left. apply vpn_below. cbn. lia.
Qed.

Lemma direct_window p : 0 ≤ p < 2 ^ 47 - 2 ^ 31 → vpn (KERNEL_PHYSICAL_MAP_BASE ⊞ p) < 2 ^ 36 - 2 ^ 19.
Proof.
  intros Hp. unfold KERNEL_PHYSICAL_MAP_BASE. rewrite u64_small by (unfold W64; lia). apply vpn_below. lia.
Qed.

Lemma all_requests_window kstart kend fb mm m :
  loader_ok kstart kend fb mm m → windows_ok kstart kend fb mm m →
  Forall outside_or_kernel (all_requests kstart kend fb mm m).
Proof.
  intros Hlo [Hi Hs Hm Hf]. pose proof (fb_size_range fb) as Hfs.
  assert (∀ a, 0 ≤ a < 2 ^ 47 → 0 ≤ pte_addr a ≤ a) as Hdown by (intros; apply pte_addr_bounds; unfold in_u64, W64; lia).
  assert (0 ≤ memory_map_addr mm ∧ 0 ≤ memory_map_size mm ∧ memory_map_addr mm + memory_map_size mm < 2 ^ 47) as Hmap
    by (destruct (lo_map _ _ _ _ _ Hlo); split_and!; assumption).
  assert (0 ≤ stack_size mm) as Hss.
  { pose proof (lo_regions _ _ _ _ _ Hlo) as Hr. unfold reserved_regions in Hr. rewrite !Forall_cons in Hr. apply Hr. }
  unfold all_requests, boot_requests. rewrite !Forall_app. split_and!.
  - apply Forall_forall. intros r (d & Hr & Hd)%list_elem_of_bind. unfold descriptor_requests in Hr.
    destruct (region_is d identity_types) eqn:E; [|by apply not_elem_of_nil in Hr].
    apply list_elem_of_fmap in Hr as (a & -> & Ha). left. apply vpn_below. cbn [fst].
    enough (0 ≤ a < 2 ^ 47 - 2 ^ 31) by lia. apply (Hm d); [done| |done].
    apply (region_is_incl _ identity_types); [apply identity_direct|by rewrite E].
  - apply kernel_requests_window; [by left|apply Hi..].
  - apply kernel_requests_window; [by right|apply Hdown; lia|lia].
  - apply identity_requests_window; [apply Hdown; lia|lia].
  - apply identity_requests_window; [apply Hdown; lia|lia].
  - unfold direct_requests. apply Forall_app. split.
    + apply Forall_forall. intros r (d & Hr & Hd)%list_elem_of_bind. unfold descriptor_requests in Hr.
      destruct (region_is d direct_types) eqn:E; [|by apply not_elem_of_nil in Hr].
      apply list_elem_of_fmap in Hr as (a & -> & Ha). left. apply direct_window. apply (Hm d); [done|by rewrite E|done].
    + apply Forall_fmap. repeat (apply Forall_cons; split); [..|constructor]; left; apply direct_window; lia.
  - apply Forall_fmap, Forall_forall. intros a Ha%elem_of_pages_between. left. cbn [fst compose].
    unfold fb_start, fb_end in *. assert (0 ≤ a - pte_addr (framebuffer_addr fb) < 2 ^ 46 + 2 ^ 12) as Hoff.
    { pose proof (Hdown (framebuffer_addr fb) ltac:(lia)).
      pose proof (Hdown (framebuffer_addr fb + fb_size fb + 0xFFF) ltac:(lia)). lia. }
    unfold KERNEL_FRAMEBUFFER_VIRTUAL_BASE. rewrite u64_small by (unfold W64; lia). apply vpn_below. lia.
Qed.

Lemma kernel_page_range kstart kend fb mm m a :
  loader_ok kstart kend fb mm m → windows_ok kstart kend fb mm m → a ∈ kernel_pages kstart kend mm → 0 ≤ a < 2 ^ 31.
Proof.
  intros Hlo [] Ha. unfold kernel_pages in Ha. apply elem_of_app in Ha as [Ha|Ha]; apply elem_of_pages_between in Ha; [lia|].
  pose proof (br_stack _ _ _ (lo_ranges _ _ _ _ _ Hlo)) as [Hr _]. pose proof (pte_addr_bounds _ Hr). lia.
Qed.

(** The last request for a page of the kernel maps it to itself. *)
Lemma kernel_page_requested kstart kend fb mm m a :
  loader_ok kstart kend fb mm m → windows_ok kstart kend fb mm m → a ∈ kernel_pages kstart kend mm →
  ∃ flags, kernel_flags flags ∧
    requested (all_requests kstart kend fb mm m) (a ⊞ KERNEL_VIRTUAL_BASE) None = Some (leaf_entry_of a flags).
Proof.
  intros Hlo Hwi Ha. pose proof (all_requests_window _ _ _ _ _ Hlo Hwi) as Hall. rewrite Forall_forall in Hall.
  pose proof (kernel_page_range _ _ _ _ _ a Hlo Hwi Ha) as Ha31.
  assert (∃ fl, (a ⊞ KERNEL_VIRTUAL_BASE, a, fl) ∈ all_requests kstart kend fb mm m) as [fl Hin].
  { unfold all_requests, boot_requests, kernel_requests, kernel_pages in *. apply elem_of_app in Ha as [Ha|Ha];
      [exists (Z.lor PRESENT WRITABLE)|exists (Z.lor (Z.lor PRESENT WRITABLE) NX)];
      rewrite !elem_of_app; left; right; [left|right; left]; apply list_elem_of_bind; exists a;
      (split; [right; left|exact Ha]). }
  destruct (requested_hit _ (a ⊞ KERNEL_VIRTUAL_BASE) _ None Hin eq_refl) as (r & Hr & Hv & ->).
  destruct (Hall r Hr) as [Hlow|(a' & Ha' & Hr' & Hfl)].
  { rewrite vpn_window in Hv by done. pose proof (Z.div_pos a (2 ^ 12)). lia. }
  exists r.2. split; [done|]. rewrite Hr' in *. cbn [fst snd] in *. rewrite !vpn_window in Hv by done.
  unfold leaf_entry_of. do 3 f_equal. rewrite !pte_addr_down by (unfold in_u64, W64; lia).
  pose proof (Z.div_mod a (2 ^ 12)). pose proof (Z.div_mod a' (2 ^ 12)). lia.
Qed.

Section boot.
Context (kstart kend efer : Z) (regs : DescriptorRegs) (fb : FramebufferInfo) (mm : MemoryMapInfo) (m : mem).
Hypothesis Hok : loader_ok kstart kend fb mm m.

Let pages := boot_pages kstart kend fb mm m.
Let config := init_state kstart kend fb mm.

(** The free list at the end: the reclaimed boot pages on top of what the page tables left. *)
Definition reclaimed_pages : list Z :=
  rev (kept (reclaim_page_skipped mm config) (pages_of_types reclaimable_types (descriptors m mm))).

Lemma boot_page_conventional a : a ∈ pages → a ∈ conventional_pages m mm ∧ init_page_skipped config a = false.
Proof.
  intros Ha. apply list_elem_of_In, in_rev, list_elem_of_In, list_elem_of_filter in Ha as [? ?]. done.
Qed.

Lemma boot_page_apart a : is_frame a → a ∈ pages → apart a PAGE_SIZE (memory_map_addr mm) (memory_map_size mm).
Proof.
  intros Hf Ha. destruct (lo_map _ _ _ _ _ Hok). apply init_spares_map with kstart kend fb; [done..|].
  by apply boot_page_conventional.
Qed.

(** The allocator: the page budget is on the free list, the memory map intact. *)
Lemma boot_allocator : ∃ pmm1 m1, Pmm.init kstart kend fb mm m = Done (pmm1, m1) ∧ same_config config pmm1 ∧
  pmm_repr pmm1 m1 pages ∧ descriptors m1 mm = descriptors m mm ∧ boot_map_ok direct_types mm m1.
Proof.
  destruct Hok as [Hmap Hr Hfb _ Hb]. destruct (init_ok kstart kend fb mm m) as (p1 & m1 & Hrun & Hc & Hrep & Hag).
  { apply (boot_map_mono _ direct_types); [|done]. intros d. apply region_is_incl, conventional_direct. }
  exists p1, m1. do 3 (split; [done|]). eapply descriptors_agree; [done| |exact Hag].
  intros x Hx (a & _ & Hf & Hs & Hx'). destruct Hmap.
  pose proof (init_spares_map kstart kend fb mm ltac:(done) ltac:(done) ltac:(done) a Hf Hs) as Hap.
  unfold apart, span in *. lia.
Qed.

(** The boot page tables, with enough pages left for the second phase. *)
Lemma boot_tables root l pmm1 m1 :
  pages = root :: l → same_config config pmm1 → pmm_repr pmm1 m1 pages →
  descriptors m1 mm = descriptors m mm → boot_map_ok direct_types mm m1 →
  ∃ pmm2 m2 l2, init_page_tables pmm1 m1 fb mm = Done (root, pmm2, m2) ∧ same_config config pmm2 ∧
    higher_half_ready (MemoryManager_init efer pmm2 root).2 m2 root l2 fb mm ∧ descriptors m2 mm = descriptors m mm ∧
    (∀ f, owned m2 root l2 f ↔ f ∈ pages) ∧
    ∀ va, pte_of m2 root va = requested (boot_requests config m fb mm) va None.
Proof.
  intros Hp Hc Hr Hd Hmap. rewrite Hp in Hr. destruct Hok as [Hmap0 Hrg Hfb _ Hb].
  pose proof (repr_frames _ _ _ Hr) as Hfr. rewrite Forall_forall in Hfr.
  assert (∀ a, a ∈ root :: l → apart a PAGE_SIZE (memory_map_addr mm) (memory_map_size mm)) as Hap.
  { intros a Ha. apply boot_page_apart; [by apply Hfr|by rewrite Hp]. }
  assert (boot_requests pmm1 m1 fb mm = boot_requests config m fb mm) as Hreq.
  { unfold boot_requests. rewrite Hd. by rewrite Hc. }
  assert (direct_requests m1 mm = direct_requests m mm) as Hdir by (unfold direct_requests; by rewrite Hd).
  destruct (request_tables_ok (all_requests kstart kend fb mm m)) as [Hnd Htp].
  destruct (init_page_tables_ok pmm1 m1 root l fb mm (request_tables (all_requests kstart kend fb mm m)))
    as (pmm2 & m2 & l2 & Hrun & Hinv & Hc2 & Hfund & Hown & Hag & Hpte).
  - done.
  - apply (boot_map_mono _ direct_types); [|done]. intros d. apply region_is_incl, identity_direct.
  - destruct Hrg. split; [|done..]. by rewrite Hc.
  - done.
  - rewrite Hreq. apply request_tables_sub. intros r Hin. unfold all_requests. apply elem_of_app. by left.
  - done.
  - done.
  - fold pages in Hb. rewrite Hp in Hb. cbn in Hb. lia.
  - destruct (descriptors_agree (λ x, ∃ f, f ∈ root :: l ∧ span f PAGE_SIZE x) direct_types mm m1 m2 Hmap) as [Hd2 Hmap2].
    { intros x Hx (f & Hf & Hx'). specialize (Hap f Hf). unfold apart, span in *. lia. }
    { done. }
    exists pmm2, m2, l2. split; [done|]. split; [by eapply same_config_trans|].
    split; [|split; [by rewrite Hd2|split; [by rewrite Hp|by rewrite <- Hreq]]].
    split; [done|done|done|done| | |].
    + intros f Hf%Hown. by apply Hap.
    + eapply funded_sub; [apply request_tables_ok| |exact Hfund]. apply request_tables_sub.
      unfold all_requests, direct_requests. rewrite Hd2, Hd. intros r Hin. apply elem_of_app. by right.
    + rewrite Hd2, Hd. intros a Ha Hf%Hown. rewrite <- Hp in Hf. apply boot_page_conventional in Hf as [Hf _].
      exact (pages_of_types_split _ _ direct_types _ a conventional_direct reclaimable_direct
        conventional_not_reclaimable (bm_nodup _ _ _ Hmap0) Hf Ha).
Qed.

(** Neither pass frees a page of the running kernel. *)
Lemma boot_page_safe a : is_frame a → a ∈ reclaimed_pages ∨ a ∈ pages →
  Forall (λ r, apart a PAGE_SIZE r.1 r.2) (kernel_regions kstart kend mm).
Proof.
  intros Hf [Ha|Ha].
  - apply list_elem_of_In, in_rev, list_elem_of_In, list_elem_of_filter in Ha as [Ha _].
    pose proof (lo_regions _ _ _ _ _ Hok) as Hreg. unfold reserved_regions in Hreg.
    rewrite !Forall_cons in Hreg. destruct Hreg as ((?&?&?) & (?&?&?) & (?&?&?) & _). cbn [fst snd] in *.
    unfold reclaim_page_skipped in Ha. rewrite !orb_false_iff in Ha. destruct Ha as (((_ & E1) & E2) & E3).
    unfold kernel_regions. rewrite !Forall_cons. cbn [fst snd]. split_and!; [..|constructor]; apply page_overlaps_false; try done.
    replace (kstart + (kend - kstart)) with kend in * by lia. by rewrite (u64_small kend) by lia.
  - apply boot_page_conventional in Ha as [_ Ha].
    pose proof (init_kept_spec kstart kend fb mm a (lo_regions _ _ _ _ _ Hok) Hf Ha) as H.
    unfold reserved_regions, kernel_regions in *. rewrite !Forall_cons in *. tauto.
Qed.

(** What the kernel can rely on once the memory manager is global. *)
Record memory_started (root : Z) (manager : MemoryManager) (m' : mem) (free : list Z) : Prop := {
  ms_inv : vm_inv (mm_pmm manager) m' root free;
  ms_root : root ∈ pages ∧ mm_pml4_phys manager = root ∧ mm_pml4 manager = phys_to_virt root;
  ms_higher : is_higher_half (mm_pmm manager) = true;
  ms_free : ∃ left, free = reclaimed_pages ++ left ∧ left ⊆ pages;
  ms_apart : ∀ a, a ∈ free → Forall (λ r, apart a PAGE_SIZE r.1 r.2) (kernel_regions kstart kend mm);
  ms_low : ∀ j, 0 ≤ j < 256 → Vmm.walk m' root [j] = None;
  ms_pte : ∀ va, pte_of m' root va =
    if decide (pml4_index va < 256) then None else requested (all_requests kstart kend fb mm m) va None
}.

Lemma start_memory_ok : ∃ root manager m' free,
  start_memory kstart kend efer regs fb mm m = Done (root, enable_nx efer, manager, m', reload_gdt_and_idt regs) ∧
  memory_started root manager m' free.
Proof.
  destruct boot_allocator as (pmm1 & m1 & Hinit & Hc1 & Hr1 & Hd1 & Hmap1).
  assert (∃ root l, pages = root :: l) as (root & l & Hp).
  { pose proof (lo_budget _ _ _ _ _ Hok) as Hb. fold pages in Hb. destruct pages as [|root l]; [cbn in Hb; lia|eauto]. }
  destruct (boot_tables root l pmm1 m1 Hp Hc1 Hr1 Hd1 Hmap1) as (pmm2 & m2 & l2 & Htab & Hc2 & Hready & Hd2 & Hown & Hpte).
  destruct (init_higher_half_ok _ m2 regs root l2 fb mm Hready) as (pmm3 & m3 & l3 & Hrun & Hinv & Hhh & Hl3 & Hlow3 & Hpte3).
  unfold start_memory. rewrite Hinit. cbn [mbind outcome_bind]. rewrite Htab. cbn [mbind outcome_bind].
  unfold MemoryManager_init in *. cbn [snd] in Hrun. rewrite Hrun. cbn [mbind outcome_bind].
  assert (reclaimed_pages = rev (kept (reclaim_page_skipped mm pmm2) (pages_of_types reclaimable_types (descriptors m2 mm))))
    as Hrec.
  { unfold reclaimed_pages. rewrite Hd2. f_equal. apply kept_ext. intros a. by rewrite Hc2. }
  cbn [snd mm_pmm] in Hinv. rewrite <- Hrec in Hinv.
  assert (l3 ⊆ pages) as Hl by (intros f Hf; by apply Hown, Hl3).
  eexists root, _, m3, (reclaimed_pages ++ l3). split; [reflexivity|]. split; cbn [mm_pmm mm_pml4 mm_pml4_phys].
  - exact Hinv.
  - split; [rewrite Hp; left|done].
  - done.
  - by exists l3.
  - intros a Ha. apply boot_page_safe.
    + pose proof (repr_frames _ _ _ (vi_pmm _ _ _ _ Hinv)) as Hfr. rewrite Forall_forall in Hfr. by apply Hfr.
    + apply elem_of_app in Ha as [Ha|Ha]; [by left|right; by apply Hl].
  - exact Hlow3.
  - intros va. rewrite Hpte3. case_decide; [done|]. unfold all_requests, direct_requests.
    by rewrite Hd2, Hpte, <- requested_app.
Qed.
End boot.

Lemma window_upper a : 0 ≤ a < 2 ^ 31 → ¬ pml4_index (a ⊞ KERNEL_VIRTUAL_BASE) < 256.
Proof.
  intros Ha. rewrite pml4_index_low. unfold KERNEL_VIRTUAL_BASE. rewrite u64_small by (unfold W64; lia).
  replace (a + 0xFFFFFFFF80000000) with (a + (2 ^ 48 - 2 ^ 31) + (2 ^ 16 - 1) * 2 ^ 48) by lia.
  rewrite Z.mod_add, Z.mod_small by lia. lia.
Qed.

(** *** The heap *)

Definition heap_at_boot : KernelHeap := LockedHeap_new KERNEL_HEAP_BASE HEAP_MAX.

Lemma heap_tables_at_boot : length (heap_tables heap_at_boot HEAP_FIRST_PAGES) = 3%nat.
Proof. by vm_compute. Qed.

(** With the reclaimed pages on the free list the heap can take its first pages. *)
Lemma boot_heap_grows kstart kend fb mm m root manager m' free :
  memory_started kstart kend fb mm m root manager m' free →
  (Z.to_nat HEAP_FIRST_PAGES + 3 ≤ length (reclaimed_pages kstart kend fb mm m))%nat →
  can_grow heap_at_boot manager m' root free HEAP_FIRST_PAGES.
Proof.
  intros [Hinv (_ & _ & Hpml4) _ (left & -> & _) _ _ _] Hlen. split; [done|done|done| |].
  - rewrite Hpml4. unfold phys_to_virt. apply (ptr_to_phys true).
    apply (pw_frame _ _ (vi_wf _ _ _ _ Hinv) []); [split; [simpl; lia|constructor]|done].
  - rewrite length_app. pose proof (need_le m' root (heap_tables heap_at_boot HEAP_FIRST_PAGES)) as Hn.
    rewrite heap_tables_at_boot in Hn. lia.
Qed.

Lemma start_heap_ok kstart kend fb mm m root manager m' free b hm c :
  memory_started kstart kend fb mm m root manager m' free →
  b_manager b = manager → b_mem b = m' → bsp (b_topology b) = Done (Some c) →
  (Z.to_nat HEAP_FIRST_PAGES + 3 ≤ length (reclaimed_pages kstart kend fb mm m))%nat →
  ∃ heap hm' manager' pm', start_heap b hm = Done (Some (b_topology b), heap, hm', manager', pm') ∧
    heap_inv heap hm' [(KERNEL_HEAP_BASE, 0x10000)] [] ∧ same_range (set_committed heap_at_boot 0x10000) heap ∧
    grown heap_at_boot manager m' root free HEAP_FIRST_PAGES HEAP_FIRST_PAGES (manager', pm').
Proof.
  intros Hst Hm Hpm Hbsp Hlen. pose proof (boot_heap_grows _ _ _ _ _ _ _ _ _ Hst Hlen) as Hcg.
  destruct (grow_ok heap_at_boot hm [] manager m' root free HEAP_FIRST_PAGES)
    as (h' & hm' & mm' & pm' & Hrun & Hsr & Hr & _ & _ & Hg); [by split; [split| |]|done|].
  unfold start_heap. rewrite Hbsp, Hm, Hpm. cbn [mbind outcome_bind expect init_cpu_topology].
  unfold KernelHeap_init. fold heap_at_boot. rewrite Hrun. cbn [mbind outcome_bind].
  exists h', hm', mm', pm'. split; [done|]. split; [|split; [|done]].
  - split; [exact Hr|by intros b' ?%not_elem_of_nil|by intros b' ?%not_elem_of_nil|by intros b' x ?%not_elem_of_nil|].
    intros i j b1 b2 x H. by rewrite lookup_nil in H.
  - exact Hsr.
Qed.

Lemma start_ok (kstart kend efer : Z) (regs : DescriptorRegs) (info : BootInfo) (m m1 : mem)
    (ports : Serial.io) (apic : ApicInfo) (topology : CpuTopology) (hpet : HpetInfo) :
  let fb := framebuffer_info info in
  let mm := memory_map_info info in
  let rsdp_virt := rsdp_addr mm ⊞ KERNEL_PHYSICAL_MAP_BASE in
  magic info = BOOT_MAGIC → framebuffer_addr fb ≠ 0 →
  parse_acpi m rsdp_virt (Pmm.bsp_apic_id mm) = Done (Some (apic, topology)) →
  parse_hpet m rsdp_virt = Done (Some hpet, m1) →
  loader_ok kstart kend fb mm m1 → windows_ok kstart kend fb mm m1 →
  ∃ root manager m' free,
    start kstart kend efer regs (Some info) m ports =
      Done (Started (mk_Booted apic topology hpet root (enable_nx efer) manager m' (reload_gdt_and_idt regs)),
            Serial.init COM1_PORT ports) ∧
    memory_started kstart kend fb mm m1 root manager m' free ∧
    (∀ a, a ∈ kernel_pages kstart kend mm → ∃ flags, kernel_flags flags ∧
      pte_of m' root (a ⊞ KERNEL_VIRTUAL_BASE) = Some (leaf_entry_of a flags)) ∧
    ∀ hm c, bsp topology = Done (Some c) → (19 ≤ length (reclaimed_pages kstart kend fb mm m1))%nat →
      ∃ heap hm' manager' pm',
        start_heap (mk_Booted apic topology hpet root (enable_nx efer) manager m' (reload_gdt_and_idt regs)) hm =
          Done (Some topology, heap, hm', manager', pm') ∧
        heap_inv heap hm' [(KERNEL_HEAP_BASE, 0x10000)] [] ∧ same_range (set_committed heap_at_boot 0x10000) heap ∧
        grown heap_at_boot manager m' root free HEAP_FIRST_PAGES HEAP_FIRST_PAGES (manager', pm').
Proof.
  intros fb mm rsdp_virt Hmagic Hfb Hacpi Hhpet Hlo Hwi.
  destruct (start_memory_ok kstart kend efer regs fb mm m1 Hlo) as (root & manager & m' & free & Hrun & Hst).
  exists root, manager, m', free. split; [|split; [done|split]].
  - unfold start. rewrite Hmagic, Z.eqb_refl. cbn [negb]. fold fb mm rsdp_virt. rewrite (proj2 (Z.eqb_neq _ _) Hfb).
    rewrite Hacpi. cbn [mbind outcome_bind expect]. rewrite Hhpet. cbn [mbind outcome_bind expect]. by rewrite Hrun.
  - intros a Ha. destruct Hst as [_ _ _ _ _ _ Hpte]. rewrite Hpte, decide_False; [by apply (kernel_page_requested kstart kend fb mm m1)|].
    apply window_upper. by apply (kernel_page_range kstart kend fb mm m1).
  - intros hm c Hbsp Hlen. destruct (start_heap_ok _ _ _ _ _ _ _ _ _
      (mk_Booted apic topology hpet root (enable_nx efer) manager m' (reload_gdt_and_idt regs)) hm c Hst)
      as (heap & hm' & manager' & pm' & ? & ? & ? & ?); [done..|]. by exists heap, hm', manager', pm'.
Qed.

(** The boot path: given the loader's magic, a framebuffer, usable ACPI and HPET tables, a
    sane memory map and enough conventional pages for every page table, [_start]
    neither halts nor panics before the memory manager is global.  Then the page
    table and free list invariant holds, the PML4 in CR3 is a conventional page and
    is reached through the direct map, NX is enabled, the lower half is unmapped and
    the upper half is exactly what the two mapping phases requested; the free list
    is the reclaimed boot pages on top of the unused conventional ones, none of
    which touches the memory map, the kernel image or its stack; and every page of
    image and stack, on which the kernel is running, is mapped at its higher-half
    address.  From there, if the boot processor is in the MADT and at least 19 boot
    pages were reclaimed, the heap starts: one free block of 64 KB, each of its pages
    backed by a frame of its own. *)
Theorem start_reaches_higher_half (kstart kend efer : Z) (regs : DescriptorRegs) (info : BootInfo) (m m1 : mem)
    (ports : Serial.io) (apic : ApicInfo) (topology : CpuTopology) (hpet : HpetInfo) :
  let fb := framebuffer_info info in
  let mm := memory_map_info info in
  let rsdp_virt := rsdp_addr mm ⊞ KERNEL_PHYSICAL_MAP_BASE in
  magic info = BOOT_MAGIC → framebuffer_addr fb ≠ 0 →
  parse_acpi m rsdp_virt (Pmm.bsp_apic_id mm) = Done (Some (apic, topology)) →
  parse_hpet m rsdp_virt = Done (Some hpet, m1) →
  loader_ok kstart kend fb mm m1 → windows_ok kstart kend fb mm m1 →
  ∃ root manager m' free,
    start kstart kend efer regs (Some info) m ports =
      Done (Started (mk_Booted apic topology hpet root (enable_nx efer) manager m' (reload_gdt_and_idt regs)),
            Serial.init COM1_PORT ports) ∧
    memory_started kstart kend fb mm m1 root manager m' free ∧
    (∀ a, a ∈ kernel_pages kstart kend mm → ∃ flags, kernel_flags flags ∧
      pte_of m' root (a ⊞ KERNEL_VIRTUAL_BASE) = Some (leaf_entry_of a flags)) ∧
    ∀ hm c, bsp topology = Done (Some c) → (19 ≤ length (reclaimed_pages kstart kend fb mm m1))%nat →
      ∃ heap hm' manager' pm',
        start_heap (mk_Booted apic topology hpet root (enable_nx efer) manager m' (reload_gdt_and_idt regs)) hm =
          Done (Some topology, heap, hm', manager', pm') ∧
        heap_inv heap hm' [(KERNEL_HEAP_BASE, 0x10000)] [] ∧ same_range (set_committed heap_at_boot 0x10000) heap ∧
        grown heap_at_boot manager m' root free HEAP_FIRST_PAGES HEAP_FIRST_PAGES (manager', pm').
Proof. exact (start_ok kstart kend efer regs info m m1 ports apic topology hpet). Qed.

(** *** A small machine *)

Definition boot_map : MemoryMapInfo :=
  {| memory_map_addr := 0x9000; memory_map_size := 120; descriptor_size := 40;
     descriptor_ver := 1; Pmm.bsp_apic_id := 0; kernel_load_addr := 0x2000;
     kernel_image_size := 0x1000; stack_base_addr := 0x50000; stack_size := 0x1000;
     rsdp_addr := 0xA000 |}.

Definition boot_fb : FramebufferInfo :=
  {| framebuffer_addr := 0x80000000; framebuffer_width := 64; framebuffer_height := 64;
     framebuffer_pitch := 256; framebuffer_bpp := 32 |}.

(** Sixty conventional pages at 1 MB, the firmware's tables in ACPI memory from 0xA000 on, 600
    loader pages; a MADT with one processor and an HPET. *)
Definition boot_mem : mem :=
  write_bytes (write_bytes (write_bytes (write_bytes (write_bytes
    (demo_desc (demo_desc (demo_desc ∅ 0x9000 0x7 0x100000 60) 0x9028 0x9 0xA000 4) 0x9050 0x2 0x200000 600)
    0xA000 (RSD_PTR ++ replicate 7 0 ++ [0] ++ le_bytes 4 0xB000 ++ le_bytes 4 20 ++ le_bytes 8 0))
    0xB000 (demo_sdt [82; 83; 68; 84] ([0xC000; 0xD000] ≫= le_bytes 4)))
    0xC000 (demo_sdt APIC (le_bytes 4 0xFEE00000 ++ le_bytes 4 1 ++
       ([ELocalApic 0 0 1 []; EIoApic 1 0 0xFEC00000 0 []] ≫= encode_entry))))
    0xD000 (demo_sdt HPET ([1; 0xA2] ++ [134; 128] ++ [0] ++ [64; 0; 0] ++ le_bytes 8 0xFED00000 ++ [0] ++ le_bytes 2 128 ++ [0])))
    0xFED00000 (le_bytes 8 (10000000 * 2 ^ 32)).

Definition boot_info : BootInfo := mk_BootInfo BOOT_MAGIC boot_fb boot_map.

Definition boot_mem1 : mem :=
  match parse_hpet boot_mem (0xA000 ⊞ KERNEL_PHYSICAL_MAP_BASE) with Done (_, m1) => m1 | _ => ∅ end.

Lemma boot_hpet : parse_hpet boot_mem (0xA000 ⊞ KERNEL_PHYSICAL_MAP_BASE) =
  Done (Some (MkHpet (phys_to_virt 0xFED00000) 10000000 3 true 128), boot_mem1).
Proof. vm_compute. reflexivity. Qed.

Lemma boot_loader_ok : loader_ok 0x2000 0x3000 boot_fb boot_map boot_mem1.
Proof.
  split.
  - split; [concrete..| |concrete].
    + intros d Hd Hr.
      assert (Forall (λ d, region_is d direct_types → descriptor_ok d) (descriptors boot_mem1 boot_map)) as Hall.
      { unfold descriptor_ok, page_aligned. concrete. }
      rewrite Forall_forall in Hall. by apply Hall.
  - split; unfold range_ok, in_u64; concrete.
  - unfold fb_ok. concrete.
  - unfold region_ok. concrete.
  - concrete.
Qed.

Lemma boot_windows_ok : windows_ok 0x2000 0x3000 boot_fb boot_map boot_mem1.
Proof.
  split; try (concrete). intros d a Hd Hr Ha.
  assert (Forall (λ d, Forall (λ a, 0 ≤ a < 2 ^ 47 - 2 ^ 31) (descriptor_pages d)) (descriptors boot_mem1 boot_map)) as Hall.
  { concrete. }
  rewrite Forall_forall in Hall. specialize (Hall d Hd). rewrite Forall_forall in Hall. by apply Hall.
Qed.

Lemma boot_reclaims : (560 ≤ length (reclaimed_pages 0x2000 0x3000 boot_fb boot_map boot_mem1))%nat.
Proof. concrete. Qed.

Lemma start_reaches_higher_half_witness :
  ∃ root manager m' free m1,
    start 0x2000 0x3000 0x500 demo_regs (Some boot_info) boot_mem (mk_io [] 0) =
      Done (Started (mk_Booted (MkApicInfo 0xFEE00000 0xFEC00000 0) (topology_of 0 [MkCpuInfo 0 0 true false])
        (MkHpet (phys_to_virt 0xFED00000) 10000000 3 true 128) root (enable_nx 0x500) manager m' (reload_gdt_and_idt demo_regs)),
        Serial.init COM1_PORT (mk_io [] 0)) ∧
    memory_started 0x2000 0x3000 boot_fb boot_map m1 root manager m' free ∧
    (∃ flags, kernel_flags flags ∧ pte_of m' root (0x2000 ⊞ KERNEL_VIRTUAL_BASE) = Some (leaf_entry_of 0x2000 flags)) ∧
    ∃ heap hm' manager' pm',
      start_heap (mk_Booted (MkApicInfo 0xFEE00000 0xFEC00000 0) (topology_of 0 [MkCpuInfo 0 0 true false])
        (MkHpet (phys_to_virt 0xFED00000) 10000000 3 true 128) root (enable_nx 0x500) manager m' (reload_gdt_and_idt demo_regs)) ∅ =
        Done (Some (topology_of 0 [MkCpuInfo 0 0 true false]), heap, hm', manager', pm') ∧
      heap_inv heap hm' [(KERNEL_HEAP_BASE, 0x10000)] [].
Proof.
  destruct (start_reaches_higher_half 0x2000 0x3000 0x500 demo_regs boot_info boot_mem boot_mem1 (mk_io [] 0)
    (MkApicInfo 0xFEE00000 0xFEC00000 0) (topology_of 0 [MkCpuInfo 0 0 true false])
    (MkHpet (phys_to_virt 0xFED00000) 10000000 3 true 128)) as (root & manager & m' & free & H1 & H2 & H3 & H4).
  - reflexivity.
  - discriminate.
  - vm_compute. reflexivity.
  - exact boot_hpet.
  - exact boot_loader_ok.
  - exact boot_windows_ok.
  - exists root, manager, m', free, boot_mem1. split; [exact H1|]. split; [exact H2|]. split; [apply H3; concrete|].
    destruct (H4 ∅ (MkCpuInfo 0 0 true false)) as (heap & hm' & manager' & pm' & E & Hi & _); [by vm_compute|etransitivity; [|exact boot_reclaims]; lia|].
    exists heap, hm', manager', pm'. split; [exact E|exact Hi].
Defined.
