(* ===== verification/Startup.v ===== *)
(** * Startup.v: the processes [_start] creates

    The last part of [_start] in [main.rs], from [init_idle_process] to [sti]:
    the idle process, the System process with the keyboard reader, the test
    process with its threads, and the user process with its page of code.  The
    banner and the messages on the way are in [Console.v].

    The operations of [Process.v] take the addresses of the objects they create
    as arguments; here each address comes from the kernel heap, in the order in
    which the code allocates, and the heap grows on the way.  The contents of
    [Arc]s and [Vec]s are the maps and lists of [Process.v]; of their memory
    only the blocks are modelled.  The addresses of functions are an [Image],
    the layouts the compiler chose for the two [Arc]s are [Layouts].  [layout]
    is the abstract specification of the process manager during start-up:
    processes and threads are two lists, and creating or spawning appends to
    them. *)

From S2P Require Import Prelude Machine Pmm Vmm HigherHalf MemoryManager KernelHeap SharedSpace Task Queues SleepQueue Scheduler SchedulerInv Bytes Process.

Local Open Scope Z_scope.

(** ** Data and operations *)

(** [Arc<Process>] and [Arc<IrqSpinLock<Thread>>], with their counters. *)
Record Layouts := mk_Layouts { arc_process : Layout; arc_thread : Layout }.

(** [Vec::<u8>::with_capacity], for a task's stack and for the idle task's. *)
Definition stack_layout : Layout := {| layout_size := TASK_STACK_SIZE; layout_align := 1 |}.
Definition idle_stack_layout : Layout := {| layout_size := 16; layout_align := 1 |}.

(** The first buffer of a [Vec] of pointers has room for four of them. *)
Definition pointers_layout : Layout := {| layout_size := 32; layout_align := 8 |}.

(** Where the linker put the functions. *)
Record Image := mk_Image {
  at_task_entry_stub : Z; at_user_task_entry_stub : Z; at_nop_thread_stub : Z; at_task_keyboard : Z;
  at_task_a : Z; at_task_b : Z; at_task_fault : Z; at_task_c : Z
}.

(** [Result::expect] *)
Definition expect_ok {A E} (msg : string) (r : result A E) : outcome A :=
  match r with Ok a => Done a | Err _ => Panic msg end.

(** [push rax; pop rax; jmp -4] *)
Definition USER_PAYLOAD : list Z := [0x50; 0x58; 0xEB; 0xFC].
Definition USER_CODE_VIRT : Z := 0x400000.

(** [ptr::copy_nonoverlapping] to a pointer of the direct map. *)
Fixpoint copy_bytes (bs : list Z) (m : mem) (ptr : Z) : mem :=
  match bs with
  | [] => m
  | b :: bs => copy_bytes bs (store8 m (direct ptr) b) (ptr ⊞ 1)
  end.

Definition load_user_code (s : System) : outcome (Z * System) :=
  let '(r, mm) := mm_alloc_page (s_mm s) (k_mem (s_kernel s)) in
  phys ← expect "[FATAL] OOM allocating user code page" r;
  let virt := phys ⊞ KERNEL_PHYSICAL_MAP_BASE in
  let m := copy_bytes USER_PAYLOAD (k_mem (s_kernel s)) virt in
  Done (phys, set_s_mm mm (set_s_kernel (set_k_mem m (s_kernel s)) s)).

Definition map_user_code (user_process code_phys : Z) (s : System) : outcome System :=
  P ← expect "dangling process reference" (s_processes s !! user_process);
  '(mm, m) ← mm_map_page (s_mm s) (k_mem (s_kernel s)) (pml4_phys P) USER_CODE_VIRT code_phys (Z.lor PRESENT USER);
  Done (set_s_mm mm (set_s_kernel (set_k_mem m (s_kernel s)) s)).

(** ** Allocations *)

Definition with_memory (mm : MemoryManager) (m : mem) (s : System) : System :=
  set_s_mm mm (set_s_kernel (set_k_mem m (s_kernel s)) s).

(** The global allocator: the one heap, in the memory of the kernel. *)
Definition heap_alloc (lay : Layout) (x : System * KernelHeap) : outcome (Z * (System * KernelHeap)) :=
  let '(s, h) := x in
  '(p, h, mm, m) ← alloc_in lay h (s_mm s) (k_mem (s_kernel s));
  Done (p, (with_memory mm m s, h)).

(** What [Vec::push] allocates when the list of pointers has become [len] long: the
    first buffer with the first element.  A fifth element would move the buffer,
    which is not modelled; start-up pushes at most four to a list. *)
Definition vec_pushed (len : nat) (x : System * KernelHeap) : outcome (System * KernelHeap) :=
  match len with
  | 1%nat => '(_, x) ← heap_alloc pointers_layout x; Done x
  | 2%nat | 3%nat | 4%nat => Done x
  | _ => OutOfFuel
  end.

(** The thread list of a process, and the manager's list of processes. *)
Definition thread_pushed (p : Z) (x : System * KernelHeap) : outcome (System * KernelHeap) :=
  P ← expect "dangling process reference" (s_processes x.1 !! p);
  vec_pushed (length (p_threads P)) x.

Definition process_pushed (x : System * KernelHeap) : outcome (System * KernelHeap) :=
  vec_pushed (length (s_manager x.1)) x.

Section start.
Context (lays : Layouts) (img : Image) (cr3 : Z).

(** [init_idle_process], with its allocations; both lists get their first element. *)
Definition start_idle_process (x : System * KernelHeap) : outcome (System * KernelHeap) :=
  '(p, x) ← heap_alloc (arc_process lays) x;
  '(w, x) ← heap_alloc (arc_thread lays) x;
  x ← vec_pushed 1 x;
  x ← vec_pushed 1 x;
  '(stack, (s, h)) ← heap_alloc idle_stack_layout x;
  '(_, s) ← init_idle_process p w stack cr3 s;
  Done (s, h).

(** [create_kernel_process] and [expect], with their allocations. *)
Definition new_kernel_process (msg name : string) (main_entry : Z) (x : System * KernelHeap)
    : outcome (Z * (System * KernelHeap)) :=
  '(p, x) ← heap_alloc (arc_process lays) x;
  '(w, x) ← heap_alloc (arc_thread lays) x;
  '(stack, (s, h)) ← heap_alloc stack_layout x;
  '(r, s) ← create_kernel_process p w stack (at_task_entry_stub img) name cr3 main_entry 0 s;
  process ← expect_ok msg r;
  x ← thread_pushed process (s, h);
  x ← process_pushed x;
  Done (process, x).

(** [spawn_kernel_thread] and [expect], with their allocations. *)
Definition new_kernel_thread (msg : string) (p : Z) (name : string) (entry : Z) (x : System * KernelHeap)
    : outcome (Z * (System * KernelHeap)) :=
  '(w, x) ← heap_alloc (arc_thread lays) x;
  '(stack, (s, h)) ← heap_alloc stack_layout x;
  '(r, s) ← spawn_kernel_thread p w stack (at_task_entry_stub img) name entry 0 s;
  thread ← expect_ok msg r;
  x ← thread_pushed p (s, h);
  Done (thread, x).

(** [create_user_process] and [expect]: [AddressSpace::init] is an argument of
    [Arc::new], so it comes before the allocations. *)
Definition new_user_process (msg name : string) (user_entry : Z) (x : System * KernelHeap)
    : outcome (Z * (System * KernelHeap)) :=
  let '(s, h) := x in
  let '(id, s) := ProcessId_next s in
  '(space, mm, m) ← AddressSpace_init (s_mm s) (k_mem (s_kernel s)) cr3;
  '(p, (s, h)) ← heap_alloc (arc_process lays) (with_memory mm m s, h);
  let s := put_process p (mk_Process id name space []) s in
  '(w, x) ← heap_alloc (arc_thread lays) (s, h);
  '(stack, (s, h)) ← heap_alloc stack_layout x;
  '(r, s) ← spawn_user_thread p w stack (at_user_task_entry_stub img) "main" user_entry s;
  _ ← expect_ok msg r;
  '(s, h) ← thread_pushed p (s, h);
  x ← process_pushed (register p s, h);
  Done (p, x).

(** The System process and the keyboard reader. *)
Definition start_system_process (x : System * KernelHeap) : outcome (System * KernelHeap) :=
  '(system_process, x) ← new_kernel_process "[FATAL ERROR] Failed to create System process" "System" (at_nop_thread_stub img) x;
  '(_, x) ← new_kernel_thread "Failed to spawn keyboard thread" system_process "Keyboard reader" (at_task_keyboard img) x;
  Done x.

(** The test process, whose last thread is told to exit at once. *)
Definition start_test_process (x : System * KernelHeap) : outcome (System * KernelHeap) :=
  '(test_process_1, x) ← new_kernel_process "Failed to create test process" "Test Proc 1" (at_task_a img) x;
  '(_, x) ← new_kernel_thread "failed to spawn task B" test_process_1 "P1 T2" (at_task_b img) x;
  '(_, x) ← new_kernel_thread "failed to spawn Fault Task" test_process_1 "Fault task" (at_task_fault img) x;
  '(thread_c, (s, h)) ← new_kernel_thread "failed to spawn task C" test_process_1 "Task C" (at_task_c img) x;
  k ← exit_thread thread_c (s_kernel s);
  Done (set_s_kernel k s, h).

(** The user process and its page of code. *)
Definition start_user_process (x : System * KernelHeap) : outcome (System * KernelHeap) :=
  let '(s, h) := x in
  '(code_phys, s) ← load_user_code s;
  '(user_process, (s, h)) ← new_user_process "Could not create user process" "User Test" USER_CODE_VIRT (s, h);
  s ← map_user_code user_process code_phys s;
  Done (s, h).

(** [SYS_FLAG_KERNEL_INIT_COMPLETE] and [sti] *)
Definition enable_scheduling (s : System) : System :=
  let k := set_k_init_complete true (s_kernel s) in
  set_s_kernel (set_k_cpu (set_IF true (k_cpu k)) k) s.

Definition start_processes (x : System * KernelHeap) : outcome (System * KernelHeap) :=
  x ← start_idle_process x;
  x ← start_system_process x;
  x ← start_test_process x;
  '(s, h) ← start_user_process x;
  Done (enable_scheduling s, h).
End start.

(** ** The specification: two lists *)

(** A thread as it is spawned; [e_cr3] is the PML4 of a user thread and 0
    otherwise. *)
Record entry := mk_entry { e_thread : Z; e_name : string; e_process : Z; e_cr3 : Z }.

Definition threads_of (p : Z) (ros : list entry) : list Z :=
  e_thread <$> base.filter (λ e, e_process e = p) ros.

(** A task table filled from its first slot. *)
Definition table (ts : list Task) : list TaskSlot :=
  ((λ t, mk_TaskSlot (Some t) 0) <$> ts) ++ replicate (MAX_TASKS - length ts) TaskSlot_new.

Definition task_id (i : nat) : TaskId := mk_TaskId (Z.of_nat i) 0.

(** The i-th process of [procs] has identifier [i]; the i-th thread of [ros]
    has identifier [i], the task in slot [i] and the place [i] of the ready
    queue, from which only the idle task, the first, is absent. *)
Record layout (s : System) (procs : list (Z * string)) (ros : list entry) (ls : list SystemTask) : Prop := {
  la_pid : s_next_pid s = Z.of_nat (length procs);
  la_tid : s_next_tid s = Z.of_nat (length ros);
  la_procs i p n : procs !! i = Some (p, n) → ∃ P, s_processes s !! p = Some P ∧
    p_id P = Z.of_nat i ∧ p_name P = n ∧ p_threads P = threads_of p ros;
  la_owner e : e ∈ ros → e_process e ∈ procs.*1;
  la_threads i e : ros !! i = Some e → k_threads (s_kernel s) !! e_thread e =
    Some (mk_Thread (Z.of_nat i) (Some (task_id i)) (e_name e) Active (e_process e));
  la_dom w : is_Some (k_threads (s_kernel s) !! w) → w ∈ e_thread <$> ros;
  la_tasks : ∃ ts, k_tasks (s_kernel s) = table ts ∧
    ((λ t, (t_thread t, t_cr3 t)) <$> ts) = ((λ e, (e_thread e, e_cr3 e)) <$> ros) ∧
    ∀ i t, ts !! S i = Some t → t_state t = Ready;
  la_queue : ∃ c, k_cpu0 (s_kernel s) = Some c ∧ c_current c = TaskId_IDLE ∧
    fifo_repr (c_queue c) (task_id <$> seq 1 (length ros - 1));
  la_system : fifo_repr (k_system (s_kernel s)) ls;
  la_reaper : q_len (k_reaper (s_kernel s)) = 0
}.

(** ** The table *)

Lemma first_free_table ts i : (length ts < MAX_TASKS)%nat → first_free i (table ts) = Some (i + Z.of_nat (length ts), 0).
Proof.
  unfold table. generalize MAX_TASKS. intros n. revert i n. induction ts as [|t ts IH]; intros i n Hn.
  - destruct n as [|n]; [cbn in Hn; lia|]. cbn. by rewrite Z.add_0_r.
  - cbn [fmap list_fmap app first_free slot_task length]. destruct n as [|n]; [cbn in Hn; lia|].
    rewrite Nat.sub_succ, (IH (i + 1) n) by (cbn in Hn; lia). f_equal. f_equal. lia.
Qed.

Lemma table_snoc ts t : (length ts < MAX_TASKS)%nat →
  <[length ts := mk_TaskSlot (Some t) 0]> (table ts) = table (ts ++ [t]).
Proof.
  intros Hn. unfold table. rewrite insert_app_r_alt by (by rewrite length_fmap). rewrite length_fmap, Nat.sub_diag.
  rewrite fmap_app, length_app, <- app_assoc. f_equal. cbn [fmap list_fmap app length].
  replace (MAX_TASKS - length ts)%nat with (S (MAX_TASKS - (length ts + 1))) by lia. done.
Qed.

Lemma insert_table task ts : (length ts < MAX_TASKS)%nat →
  insert_task task (table ts) =
    (Ok (task_id (length ts)), table (ts ++ [set_state Ready (set_id (task_id (length ts)) task)])).
Proof.
  intros Hn. unfold insert_task. rewrite first_free_table, Z.add_0_l, Nat2Z.id, table_snoc by done. done.
Qed.

Lemma get_task_table ts i t : (length ts ≤ MAX_TASKS)%nat → ts !! i = Some t → get_task (table ts) (task_id i) = Some t.
Proof.
  intros Hn Hi. pose proof (lookup_lt_Some _ _ _ Hi) as Hl. unfold get_task. cbn [task_id slot_index slot_generation].
  assert (Hlen : length (table ts) = MAX_TASKS).
  { unfold table. rewrite length_app, length_fmap, length_replicate. lia. }
  rewrite (proj2 (get_slot_some (table ts) (Z.of_nat i) (mk_TaskSlot (Some t) 0))); [done|].
  split; [rewrite Hlen; lia|]. rewrite Nat2Z.id. unfold table.
  rewrite lookup_app_l by (by rewrite length_fmap). by rewrite list_lookup_fmap, Hi.
Qed.

(** ** Memory *)

Lemma zero_bytes_off (P : Z → Prop) n m b :
  (∀ i, 0 ≤ i < Z.of_nat n → P (b + i)) → agree_off P m (zero_bytes n m b).
Proof.
  revert m b. induction n as [|n IH]; intros m b Hb; [apply agree_off_refl|]. cbn [zero_bytes].
  assert (P b) as Hb0 by (rewrite <- (Z.add_0_r b); apply Hb; lia).
  eapply agree_off_trans; [by apply agree_off_store8|].
  apply IH. intros i Hi. replace (b + 1 + i) with (b + (1 + i)) by lia. apply Hb. lia.
Qed.

Lemma write_words_off (P : Z → Prop) ws m b :
  (∀ i, 0 ≤ i < 8 * Z.of_nat (length ws) → P (b + i)) → agree_off P m (write_words m b ws).
Proof.
  revert m b. induction ws as [|w ws IH]; intros m b Hb; [apply agree_off_refl|]. cbn [write_words length] in *.
  eapply agree_off_trans; [apply agree_off_store64; intros i Hi; apply Hb; lia|].
  apply IH. intros i Hi. replace (b + 8 + i) with (b + (8 + i)) by lia. apply Hb. lia.
Qed.

(** The first frame of a task lies on its stack. *)
Lemma frame_inside stack n i : stack_ok stack → 0 ≤ n ≤ 128 → 0 ≤ i < n →
  span stack TASK_STACK_SIZE (align16 (align16 (stack ⊞ TASK_STACK_SIZE) ⊟ n) + i).
Proof.
  unfold stack_ok, span, TASK_STACK_SIZE. intros [H1 H2] Hn Hi.
  rewrite (u64_small (stack + _)) by lia. rewrite (align16_down (stack + 16 * 1024)) by (unfold in_u64; lia).
  pose proof (Z.mod_pos_bound (stack + 16 * 1024) 16 ltac:(lia)).
  rewrite (u64_small (_ - n)) by lia. rewrite align16_down by (unfold in_u64; lia).
  pose proof (Z.mod_pos_bound (stack + 16 * 1024 - (stack + 16 * 1024) mod 16 - n) 16 ltac:(lia)). lia.
Qed.

(** A new task writes its stack only. *)
Lemma new_stack_off m stack n ws : stack_ok stack → 0 ≤ n ≤ 128 → 8 * Z.of_nat (length ws) = n →
  agree_off (span stack TASK_STACK_SIZE) m
    (write_words (zero_bytes (Z.to_nat TASK_STACK_SIZE) m stack) (align16 (align16 (stack ⊞ TASK_STACK_SIZE) ⊟ n)) ws).
Proof.
  intros Hs Hn Hl. apply (agree_off_trans _ _ (zero_bytes (Z.to_nat TASK_STACK_SIZE) m stack)).
  - apply zero_bytes_off. intros i Hi. rewrite Z2Nat.id in Hi by done. unfold span. lia.
  - apply write_words_off. intros i Hi. apply frame_inside; [done|done|lia].
Qed.

Lemma new_kernel_stack m stack stub entry arg w : stack_ok stack →
  agree_off (span stack TASK_STACK_SIZE) m (Task_new_kernel m stack stub entry arg w).2.
Proof. intros Hs. apply new_stack_off; [done|lia|reflexivity]. Qed.

Lemma new_user_stack m stack stub entry space pml4 w : stack_ok stack →
  agree_off (span stack TASK_STACK_SIZE) m (Task_new_user m stack stub entry space pml4 w).2.
Proof. intros Hs. apply new_stack_off; [done|lia|reflexivity]. Qed.

(** The copy to a frame, through the direct map. *)
Lemma copy_bytes_ok bs m b :
  0 ≤ b → b + Z.of_nat (length bs) < PHYS_LIMIT → Forall (λ x, 0 ≤ x < 256) bs →
  let m' := copy_bytes bs m (phys_ptr true b) in
  agree_off (span b (Z.of_nat (length bs))) m m' ∧
  (∀ x, x < b → load8 m' x = load8 m x) ∧
  ∀ i v, bs !! i = Some v → load8 m' (b + Z.of_nat i) = v.
Proof.
  revert m b. induction bs as [|v bs IH]; intros m b Hb Hl Hf; cbn [copy_bytes length] in *.
  { split; [apply agree_off_refl|]. split; [done|]. intros i v Hi. by rewrite lookup_nil in Hi. }
  apply Forall_cons in Hf as [Hv Hf]. rewrite direct_phys_ptr by lia. rewrite (phys_ptr_step true b 1) by lia.
  destruct (IH (store8 m b v) (b + 1)) as (A1 & K1 & V1); [lia|lia|done|]. split; [|split].
  - eapply agree_off_trans; [apply agree_off_store8|eapply agree_off_mono, A1]; unfold span; lia.
  - intros x Hx. rewrite K1 by lia. apply load8_store8_ne. lia.
  - intros [|i] w Hi; cbn in Hi.
    + injection Hi as <-. rewrite Z.add_0_r, K1 by lia. rewrite load8_store8_eq. by apply Z.mod_small.
    + rewrite <- (V1 i w Hi). f_equal. lia.
Qed.

(** ** Spawning appends *)

(** The end of a spawn, exactly. *)
Lemma finish_spawn_at p w task s ts c lq th P :
  k_tasks (s_kernel s) = table ts → (length ts < MAX_TASKS)%nat →
  k_cpu0 (s_kernel s) = Some c → fifo_repr (c_queue c) lq → (length lq < MAX_TASKS)%nat →
  k_threads (s_kernel s) !! w = Some th → s_processes s !! p = Some P →
  let id := task_id (length ts) in
  ∃ q, fifo_repr q (lq ++ [id]) ∧
    finish_spawn p w task s = Done (Ok w,
      put_process p (mk_Process (p_id P) (p_name P) (p_address_space P) (p_threads P ++ [w]))
        (set_s_kernel (set_k_threads (<[w := set_th_task_id (Some id) th]> (k_threads (s_kernel s)))
          (put_slot (set_c_queue q c) (set_k_tasks (table (ts ++ [set_state Ready (set_id id task)])) (s_kernel s)))) s)).
Proof.
  intros Hts Hn Hc Hq Hlq Hw HP id.
  destruct (fifo_push_ok (c_queue c) lq id Hq) as (q & Hpush & Hq'); [exact Hlq|].
  exists q. split; [done|]. unfold finish_spawn, insert_and_queue_task.
  rewrite Hts, insert_table by done. fold id. cbv zeta.
  rewrite (cpu_slot_some _ c) by done. rewrite bind_Done.
  change (PerCpuQueue_push (c_queue c) id) with (fifo_push (c_queue c) id). rewrite Hpush, !bind_Done.
  unfold with_thread, push_thread. cbn [s_kernel set_s_kernel k_threads put_slot set_k_cpu0 set_k_tasks s_processes].
  rewrite Hw. cbn [expect]. rewrite !bind_Done. cbn [s_processes set_s_kernel]. rewrite HP. cbn [expect]. rewrite !bind_Done. done.
Qed.

(** Spawning does not look at the memory. *)
Lemma insert_memory task m k r k' :
  insert_and_queue_task task k = Done (r, k') → insert_and_queue_task task (set_k_mem m k) = Done (r, set_k_mem m k').
Proof.
  unfold insert_and_queue_task. cbn [k_tasks set_k_mem]. destruct (insert_task task (k_tasks k)) as [[id|e] ts]; [|by intros [= <- <-]].
  unfold cpu_slot. cbn [k_cpu0 set_k_mem set_k_tasks]. destruct (k_cpu0 k) as [c|]; [|discriminate].
  cbn [expect]. rewrite !bind_Done. destruct (PerCpuQueue_push (c_queue c) id) as [[[u|e] q]|?|]; try discriminate.
  rewrite !bind_Done. by intros [= <- <-].
Qed.

Lemma finish_spawn_memory p w task mm m s r s' :
  finish_spawn p w task s = Done (r, s') → finish_spawn p w task (with_memory mm m s) = Done (r, with_memory mm m s').
Proof.
  unfold finish_spawn. intros H. apply bind_done in H as ([r1 k] & Hi & H).
  change (s_kernel (with_memory mm m s)) with (set_k_mem m (s_kernel s)). rewrite (insert_memory _ m _ _ _ Hi), bind_Done.
  cbv zeta in H |- *. destruct r1 as [id|e]; [|by injection H as <- <-].
  apply bind_done in H as (k1 & Hk & H). apply bind_done in H as (s1 & Hp & H). injection H as <- <-.
  unfold with_thread in Hk |- *. cbn [s_kernel set_s_kernel k_threads set_k_mem] in Hk |- *.
  destruct (k_threads k !! w) as [th|]; [|discriminate Hk]. cbn [expect] in Hk |- *. rewrite bind_Done in Hk |- *.
  injection Hk as <-. rewrite bind_Done. unfold push_thread in Hp |- *. cbn [s_processes set_s_kernel with_memory set_s_mm] in Hp |- *.
  destruct (s_processes s !! p) as [P|]; [|discriminate Hp]. cbn [expect] in Hp |- *. rewrite bind_Done in Hp |- *.
  injection Hp as <-. rewrite bind_Done. reflexivity.
Qed.

Lemma spawn_user_memory p w stack stub name entry mm m s r s' :
  spawn_user_thread p w stack stub name entry s = Done (r, s') → stack_ok stack →
  ∃ m', spawn_user_thread p w stack stub name entry (with_memory mm m s) = Done (r, with_memory mm m' s') ∧
    agree_off (span stack TASK_STACK_SIZE) m m'.
Proof.
  unfold spawn_user_thread. intros H Hs. change (s_processes (with_memory mm m s)) with (s_processes s).
  destruct (s_processes s !! p) as [P|]; [|discriminate H]. cbn [expect] in H |- *. rewrite bind_Done in H |- *. cbv zeta in H |- *.
  exists (Task_new_user m stack stub entry (p_address_space P) (pml4_phys P) w).2. split; [|by apply new_user_stack].
  apply (finish_spawn_memory _ _ _ mm (Task_new_user m stack stub entry (p_address_space P) (pml4_phys P) w).2) in H. exact H.
Qed.

Section append.
Context (s : System) (procs : list (Z * string)) (ros : list entry) (ls : list SystemTask).

Lemma threads_of_app p r1 r2 : threads_of p (r1 ++ r2) = threads_of p r1 ++ threads_of p r2.
Proof. unfold threads_of. by rewrite filter_app, fmap_app. Qed.

Lemma threads_of_one p e : threads_of p [e] = if decide (e_process e = p) then [e_thread e] else [].
Proof. unfold threads_of. rewrite filter_cons. by case_decide. Qed.

Lemma layout_thread w th : layout s procs ros ls → k_threads (s_kernel s) !! w = Some th → w ∈ e_thread <$> ros.
Proof. intros L Hw. apply (la_dom _ _ _ _ L). by eexists. Qed.

(** A new thread of the process [p], with its task. *)
Lemma layout_spawn p w name task m P :
  layout s procs ros ls → (0 < length ros < MAX_TASKS)%nat → w ∉ e_thread <$> ros → p ∈ procs.*1 → NoDup procs.*1 →
  s_processes s !! p = Some P → t_thread task = w →
  ∃ s', finish_spawn p w task (set_s_kernel (set_k_mem m (s_kernel (Thread_new w name p s))) (Thread_new w name p s)) =
      Done (Ok w, s') ∧
    layout s' procs (ros ++ [mk_entry w name p (t_cr3 task)]) ls ∧
    s_mm s' = s_mm s ∧ k_mem (s_kernel s') = m ∧ s_manager s' = s_manager s ∧ k_cpu (s_kernel s') = k_cpu (s_kernel s) ∧
    p_address_space <$> s_processes s' !! p = Some (p_address_space P).
Proof.
  intros L Hn Hw Hp Hnd HP Htw. pose proof L as [].
  destruct la_tasks0 as (ts & Hts & Hros & Hready). destruct la_queue0 as (c & Hc & Hcur & Hq).
  assert (Hlen : length ts = length ros).
  { rewrite <- (length_fmap (λ t, (t_thread t, t_cr3 t)) ts), Hros. apply length_fmap. }
  set (th := mk_Thread (s_next_tid s) None name Active p).
  set (s1 := set_s_kernel _ _).
  destruct (finish_spawn_at p w task s1 ts c (task_id <$> seq 1 (length ros - 1)) th P) as (q & Hq' & ->); try done.
  { lia. }
  { rewrite length_fmap, length_seq. lia. }
  { apply lookup_insert_eq. }
  eexists. split; [done|]. split; [|subst s1; cbn; by rewrite lookup_insert_eq].
  subst s1. split; cbn [s_kernel set_s_kernel put_process set_s_processes s_next_pid s_next_tid s_processes k_threads k_tasks
    k_cpu0 k_system set_k_threads put_slot set_k_cpu0 set_k_tasks set_k_mem Thread_new ThreadId_next put_thread].
  - done.
  - rewrite la_tid0, length_app, u64_small; cbn [length]; unfold MAX_TASKS in Hn; unfold W64; lia.
  - intros i p' n Hi. destruct (la_procs0 i p' n Hi) as (P' & HP' & Hid & Hname & Hth).
    rewrite threads_of_app, threads_of_one. cbn [e_process e_thread]. case_decide as Hd.
    + subst p'. rewrite lookup_insert_eq. eexists. split; [done|]. cbn [p_id p_name p_threads].
      assert (P' = P) as -> by congruence. by rewrite Hth.
    + exists P'. rewrite lookup_insert_ne, app_nil_r by done. done.
  - intros e [He|He%list_elem_of_singleton]%elem_of_app; [by apply la_owner0|by subst e].
  - intros i e [He|[Hl He]]%lookup_app_Some.
    + rewrite !lookup_insert_ne; [by apply la_threads0|..]; intros ->; apply Hw, list_elem_of_fmap; exists e;
        (split; [done|by eapply list_elem_of_lookup_2]).
    + apply list_lookup_singleton_Some in He as [Hi <-]. cbn [e_thread e_name e_process]. rewrite lookup_insert_eq.
      subst th. unfold set_th_task_id. cbn [th_id th_name th_state th_process]. rewrite Hlen, la_tid0.
      by replace i with (length ros) by lia.
  - intros w' Hs. rewrite fmap_app, elem_of_app. destruct (decide (w' = w)) as [->|Hne]; [right; by left|left].
    rewrite !lookup_insert_ne in Hs by done. by apply la_dom0.
  - exists (ts ++ [set_state Ready (set_id (task_id (length ts)) task)]). split; [done|]. rewrite !fmap_app, Hros. cbn.
    rewrite Htw. split; [done|]. intros i t [Ht|[_ Ht]]%lookup_app_Some; [by eapply Hready|].
    by apply list_lookup_singleton_Some in Ht as [_ <-].
  - eexists. split; [done|]. cbn [c_current c_queue set_c_queue]. split; [done|]. rewrite length_app, Hlen in *. cbn [length].
    replace (length ros + 1 - 1)%nat with (length ros - 1 + 1)%nat by lia. rewrite seq_app, fmap_app. cbn [seq fmap list_fmap].
    by replace (1 + (length ros - 1))%nat with (length ros) by lia.
  - done.
  - done.
Qed.
End append.

(** ** The operations during start-up *)

Section booting.
Context (u : Cpu).
Hypothesis Hu : stack_pointer_ok u.

(** A system the kernel can be in, laid out as the two lists say. *)
Record booting (s : System) (procs : list (Z * string)) (ros : list entry) (ls : list SystemTask) : Prop := {
  bt_system : system s;
  bt_manager : s_manager s = procs.*1;
  bt_layout : layout s procs ros ls;
  bt_cpu : k_cpu (s_kernel s) = u
}.

Lemma booting_nodup s procs ros ls : booting s procs ros ls → NoDup procs.*1.
Proof. intros B. rewrite <- (bt_manager _ _ _ _ B). by apply i_manager, system_inv, B. Qed.

Lemma booting_process s procs ros ls p : booting s procs ros ls → p ∈ procs.*1 ↔ is_Some (s_processes s !! p).
Proof. intros B. rewrite <- (bt_manager _ _ _ _ B). apply i_registered, system_inv, B. Qed.

Lemma booting_fresh s procs ros ls p : booting s procs ros ls → p ∉ procs.*1 → s_processes s !! p = None.
Proof. intros B Hp. apply eq_None_not_Some. by rewrite <- (booting_process _ _ _ _ p B). Qed.

Lemma booting_may_spawn s procs ros ls w stack :
  booting s procs ros ls → w ∉ e_thread <$> ros → stack_ok stack →
  (length procs < MAX_TASKS)%nat → (0 < length ros < MAX_TASKS)%nat → may_spawn w stack s.
Proof.
  intros [_ _ L Hc] Hw Hs Hp Hr. unfold MAX_TASKS in *. split.
  - apply eq_None_not_Some. intros Hx. by apply Hw, (la_dom _ _ _ _ L).
  - done.
  - unfold counters_ok, W64. rewrite (la_pid _ _ _ _ L), (la_tid _ _ _ _ L). lia.
  - by rewrite Hc.
  - destruct (la_queue _ _ _ _ L) as (c & Hcs & _ & Hq). exists c. split; [done|].
    rewrite (rr_len _ _ _ _ _ Hq), length_fmap, length_seq. unfold QUEUE_SIZE. lia.
Qed.

Lemma booting_spawn s procs ros ls p w stack stub name entry arg :
  booting s procs ros ls → p ∈ procs.*1 → w ∉ e_thread <$> ros → stack_ok stack →
  (length procs < MAX_TASKS)%nat → (0 < length ros < MAX_TASKS)%nat →
  ∃ s', spawn_kernel_thread p w stack stub name entry arg s = Done (Ok w, s') ∧
    booting s' procs (ros ++ [mk_entry w name p 0]) ls ∧
    s_mm s' = s_mm s ∧ agree_off (span stack TASK_STACK_SIZE) (k_mem (s_kernel s)) (k_mem (s_kernel s')).
Proof.
  intros B Hp Hw Hs Hnp Hnr. pose proof (booting_may_spawn _ _ _ _ _ _ B Hw Hs Hnp Hnr) as Hms.
  pose proof (proj1 (booting_process _ _ _ _ p B) Hp) as [P HP].
  assert (∃ task m, Task_new_kernel (k_mem (s_kernel s)) stack stub entry arg w = (task, m) ∧ t_thread task = w ∧ t_cr3 task = 0 ∧
    agree_off (span stack TASK_STACK_SIZE) (k_mem (s_kernel s)) m) as (task & m & Ht & Htw & Hcr & Hag).
  { eexists _, _. split; [apply surjective_pairing|]. split; [done|]. split; [done|]. by apply new_kernel_stack. }
  destruct (layout_spawn s procs ros ls p w name task m P (bt_layout _ _ _ _ B) Hnr Hw Hp (booting_nodup _ _ _ _ B) HP Htw)
    as (s' & Hrun & L' & Hmm & Hm & Hmg & Hc & _).
  assert (Hsp : spawn_kernel_thread p w stack stub name entry arg s = Done (Ok w, s')).
  { unfold spawn_kernel_thread. cbv zeta. change (k_mem (s_kernel (Thread_new w name p s))) with (k_mem (s_kernel s)).
    rewrite Ht. exact Hrun. }
  clear Ht. exists s'. split; [exact Hsp|]. rewrite Hcr in L'. split; [|split; [exact Hmm|rewrite Hm; exact Hag]]. split.
  - eapply sys_spawn_kernel; [apply B|exact Hms|by exists P|exact Hsp].
  - rewrite Hmg. apply B.
  - exact L'.
  - rewrite Hc. apply B.
Qed.

(** A process that has just been constructed, not yet registered. *)
Lemma layout_construct s procs ros ls p name P s1 :
  layout s procs ros ls → (length procs < MAX_TASKS)%nat → p ∉ procs.*1 → constructed p P s s1 → p_name P = name →
  k_tasks (s_kernel s1) = k_tasks (s_kernel s) → k_cpu0 (s_kernel s1) = k_cpu0 (s_kernel s) →
  k_system (s_kernel s1) = k_system (s_kernel s) → k_reaper (s_kernel s1) = k_reaper (s_kernel s) →
  layout s1 (procs ++ [(p, name)]) ros ls.
Proof.
  intros [] Hn Hp (Hps & Hnil & Hid & Hpid & Htid & _ & Hth) Hname Htk Hc Hsy Hre.
  split; rewrite ?Hth, ?Htk, ?Hc, ?Hsy, ?Hre, ?Hps, ?Htid; try done.
  - rewrite Hpid, la_pid0, length_app, u64_small; cbn [length]; unfold MAX_TASKS in Hn; unfold W64; lia.
  - intros i p' n [Hi|[Hl Hi]]%lookup_app_Some.
    + rewrite lookup_insert_ne; [by apply la_procs0|]. intros ->. apply Hp, list_elem_of_fmap.
      exists (p', n). split; [done|by eapply list_elem_of_lookup_2].
    + apply list_lookup_singleton_Some in Hi as [Hi [= <- <-]]. exists P. rewrite lookup_insert_eq. split; [done|].
      split; [rewrite Hid, la_pid0; f_equal; lia|]. split; [done|]. rewrite Hnil. unfold threads_of.
      rewrite (filter_none _ ros); [done|]. apply Forall_forall. intros e He Hep. apply Hp. rewrite <- Hep. by apply la_owner0.
  - intros e He. rewrite fmap_app, elem_of_app. left. by apply la_owner0.
Qed.

Lemma layout_register s procs ros ls p : layout s procs ros ls → layout (register p s) procs ros ls.
Proof. by intros []. Qed.

Lemma fresh_nodup (procs : list (Z * string)) p name : NoDup procs.*1 → p ∉ procs.*1 → NoDup (procs ++ [(p, name)]).*1.
Proof.
  intros Hn Hp. rewrite fmap_app. apply NoDup_app. split; [done|]. split; [|apply NoDup_singleton].
  by intros x Hx ->%list_elem_of_singleton.
Qed.

Lemma last_process (procs : list (Z * string)) p name : p ∈ (procs ++ [(p, name)]).*1.
Proof. rewrite fmap_app. apply elem_of_app. right. by left. Qed.

Lemma booting_create_kernel s procs ros ls p w stack stub name cr3 entry arg :
  booting s procs ros ls → p ∉ procs.*1 → w ∉ e_thread <$> ros → stack_ok stack →
  (length procs < MAX_TASKS)%nat → (0 < length ros < MAX_TASKS)%nat →
  ∃ s', create_kernel_process p w stack stub name cr3 entry arg s = Done (Ok p, s') ∧
    booting s' (procs ++ [(p, name)]) (ros ++ [mk_entry w "main" p 0]) ls ∧
    s_mm s' = s_mm s ∧ agree_off (span stack TASK_STACK_SIZE) (k_mem (s_kernel s)) (k_mem (s_kernel s')).
Proof.
  intros B Hp Hw Hs Hnp Hnr. pose proof (booting_may_spawn _ _ _ _ _ _ B Hw Hs Hnp Hnr) as Hms.
  pose proof (booting_fresh _ _ _ _ p B Hp) as Hfresh.
  set (P := mk_Process (s_next_pid s) name (AddressSpace_from_existing cr3) []).
  set (s1 := Process_new_kernel p name cr3 s).
  assert (L1 : layout s1 (procs ++ [(p, name)]) ros ls).
  { apply (layout_construct s procs ros ls p name P); [apply B|exact Hnp|exact Hp|by split_and!|reflexivity..]. }
  assert (∃ task m, Task_new_kernel (k_mem (s_kernel s)) stack stub entry arg w = (task, m) ∧ t_thread task = w ∧ t_cr3 task = 0 ∧
    agree_off (span stack TASK_STACK_SIZE) (k_mem (s_kernel s)) m) as (task & m & Ht & Htw & Hcr & Hag).
  { eexists _, _. split; [apply surjective_pairing|]. split; [done|]. split; [done|]. by apply new_kernel_stack. }
  destruct (layout_spawn s1 _ ros ls p w "main" task m P L1 Hnr Hw (last_process procs p name)
    (fresh_nodup _ _ _ (booting_nodup _ _ _ _ B) Hp) (lookup_insert_eq _ _ _) Htw) as (s' & Hrun & L' & Hmm & Hm & Hmg & Hc & _).
  assert (Hcr1 : create_kernel_process p w stack stub name cr3 entry arg s = Done (Ok p, register p s')).
  { unfold create_kernel_process, spawn_kernel_thread. fold s1. cbv zeta.
    change (k_mem (s_kernel (Thread_new w "main" p s1))) with (k_mem (s_kernel s)). rewrite Ht, Hrun, bind_Done. reflexivity. }
  clear Ht. exists (register p s'). split; [exact Hcr1|]. rewrite Hcr in L'. split; [|split; [exact Hmm|cbn [s_kernel register]; rewrite Hm; exact Hag]].
  split.
  - eapply sys_create_kernel; [apply B|exact Hms|exact Hfresh|exact Hcr1].
  - cbn [s_manager register]. rewrite Hmg, fmap_app. f_equal. apply B.
  - by apply layout_register.
  - cbn [s_kernel register]. rewrite Hc. apply B.
Qed.

Lemma booting_create_user s procs ros ls p w stack stub name kernel_pml4 entry space mm m1 :
  booting s procs ros ls → p ∉ procs.*1 → w ∉ e_thread <$> ros → stack_ok stack →
  (length procs < MAX_TASKS)%nat → (0 < length ros < MAX_TASKS)%nat →
  AddressSpace_init (s_mm s) (k_mem (s_kernel s)) kernel_pml4 = Done (space, mm, m1) →
  ∃ s', spawn_user_thread p w stack stub "main" entry
      (put_process p (mk_Process (s_next_pid s) name space []) (with_memory mm m1 (ProcessId_next s).2)) = Done (Ok w, s') ∧
    booting (register p s') (procs ++ [(p, name)]) (ros ++ [mk_entry w "main" p (as_pml4_phys space)]) ls ∧
    p_address_space <$> s_processes s' !! p = Some space.
Proof.
  intros B Hp Hw Hs Hnp Hnr Has. pose proof (booting_may_spawn _ _ _ _ _ _ B Hw Hs Hnp Hnr) as Hms.
  pose proof (booting_fresh _ _ _ _ p B Hp) as Hfresh.
  set (P := mk_Process (s_next_pid s) name space []).
  set (s1 := put_process p P (with_memory mm m1 (ProcessId_next s).2)).
  assert (L1 : layout s1 (procs ++ [(p, name)]) ros ls).
  { apply (layout_construct s procs ros ls p name P); [apply B|exact Hnp|exact Hp|by split_and!|reflexivity..]. }
  assert (∃ task m, Task_new_user m1 stack stub entry space (as_pml4_phys space) w = (task, m) ∧ t_thread task = w ∧
    t_cr3 task = as_pml4_phys space) as (task & m & Ht & Htw & Hcr).
  { eexists _, _. split; [apply surjective_pairing|]. by split. }
  destruct (layout_spawn s1 _ ros ls p w "main" task m P L1 Hnr Hw (last_process procs p name)
    (fresh_nodup _ _ _ (booting_nodup _ _ _ _ B) Hp) (lookup_insert_eq _ _ _) Htw) as (s' & Hrun & L' & Hmm & Hm & Hmg & Hc & Hsp).
  assert (Hsp1 : spawn_user_thread p w stack stub "main" entry s1 = Done (Ok w, s')).
  { unfold spawn_user_thread. rewrite (lookup_insert_eq _ p P : s_processes s1 !! p = Some P). cbn [expect]. rewrite bind_Done. cbv zeta.
    change (k_mem (s_kernel (Thread_new w "main" p _))) with m1.
    change (p_address_space P) with space. change (pml4_phys P) with (as_pml4_phys space). rewrite Ht. exact Hrun. }
  assert (Hcr1 : create_user_process p w stack stub name kernel_pml4 entry s = Done (Ok p, register p s')).
  { unfold create_user_process, Process_new_user. cbn [ProcessId_next s_mm s_kernel]. rewrite Has, bind_Done. cbv zeta. rewrite bind_Done.
    change (put_process p _ _) with s1. rewrite Hsp1, bind_Done. reflexivity. }
  clear Ht. exists s'. split; [exact Hsp1|]. rewrite Hcr in L'. split; [|exact Hsp]. split.
  - eapply sys_create_user; [apply B|exact Hms|exact Hfresh|exact Has|exact Hcr1].
  - cbn [s_manager register]. rewrite Hmg, fmap_app. f_equal. apply B.
  - by apply layout_register.
  - cbn [s_kernel register]. rewrite Hc. apply B.
Qed.

(** The running code writes memory. *)
Lemma booting_memory s procs ros ls mm m :
  booting s procs ros ls → booting (with_memory mm m s) procs ros ls.
Proof.
  intros [Hs Hm L Hc]. split; [|exact Hm|by destruct L|exact Hc].
  pose proof (sys_machine s (k_cpu (s_kernel s)) mm m Hs) as H. rewrite Hc in H. specialize (H Hu). rewrite <- Hc in H.
  by destruct s as [[] ? ? ? ? ?].
Qed.

(** Telling a thread to exit queues the kill of its task. *)
Lemma booting_exit s procs ros ls i e :
  booting s procs ros ls → ros !! i = Some e → (0 < i < MAX_TASKS)%nat → (length ls < 32)%nat →
  ∃ k, exit_thread (e_thread e) (s_kernel s) = Done k ∧
    booting (set_s_kernel k s) procs ros (ls ++ [mk_SystemTask task_killer (compress_task_id (task_id i))]) ∧
    k_mem k = k_mem (s_kernel s).
Proof.
  intros [Hs Hm L Hc] Hi Hn Hls. pose proof (la_threads _ _ _ _ L i e Hi) as Hth.
  destruct (fifo_push_ok (k_system (s_kernel s)) ls (mk_SystemTask task_killer (compress_task_id (task_id i)))
    (la_system _ _ _ _ L) Hls) as (q & Hpush & Hq).
  assert (Hrun : exit_thread (e_thread e) (s_kernel s) = Done (set_k_system q (s_kernel s))).
  { unfold exit_thread. rewrite Hth. cbn [expect]. rewrite bind_Done. unfold Thread_exit. cbn [th_state th_task_id].
    unfold queue_system_task. change SystemTaskQueue_push with (@fifo_push _ _ _ SystemTaskQueue_fifo).
    rewrite Hpush, bind_Done. reflexivity. }
  exists (set_k_system q (s_kernel s)). split; [exact Hrun|]. split; [|done]. split; [|exact Hm| |exact Hc].
  - apply (sys_event s (EvExitThread (e_thread e)) (k_cpu (s_kernel s)) (k_mem (s_kernel s))); [done|done| |by rewrite Hc|].
    + eexists. split; [exact Hth|]. intros id [= <-]. unfold killable, task_id, TaskId_IDLE, MAX_TASKS in *. cbn.
      split; [lia|]. split; [lia|]. intros [= ?]. lia.
    + unfold step. rewrite kernel_eta. exact Hrun.
  - by destruct L.
Qed.

Lemma booting_idle p w stack cr3 m mm :
  ∃ s, init_idle_process p w stack cr3 (boot_system u m mm) = Done (p, s) ∧
    booting s [(p, "Idle"%string)] [mk_entry w "Idle" p 0] [] ∧ s_mm s = mm ∧ k_mem (s_kernel s) = m.
Proof.
  set (th := mk_Thread ThreadId_IDLE (Some TaskId_IDLE) "Idle" Active p).
  set (ths := <[w := th]> (<[w := mk_Thread ThreadId_IDLE None "Idle" Active p]> (∅ : gmap Z Thread))).
  set (k := put_slot (set_c_current TaskId_IDLE PerCpuScheduler_new)
    (set_k_tasks (table [Task_new_idle stack w]) (fresh_kernel ths u m))).
  set (P := mk_Process ProcessId_IDLE "Idle" (AddressSpace_from_existing cr3) [w]).
  set (P0 := mk_Process ProcessId_IDLE "Idle" (AddressSpace_from_existing cr3) []).
  set (s := mk_System k mm (<[p := P]> (<[p := P0]> ∅)) [p] 1 1).
  assert (Hk : init_idle stack w (fresh_kernel ths u m) = Done k).
  { unfold init_idle, insert_idle_task. cbn [fresh_kernel k_cpu0 k_tasks]. rewrite slot_set_ok by (cbn; lia). rewrite bind_Done.
    unfold k. rewrite <- (table_snoc [] (Task_new_idle stack w) : _ → _ = table [Task_new_idle stack w]) by (cbn; unfold MAX_TASKS; lia).
    reflexivity. }
  assert (Hrun : init_idle_process p w stack cr3 (boot_system u m mm) = Done (p, s)).
  { unfold init_idle_process, Process_new_idle, Thread_new_idle, put_thread, with_thread, push_thread, boot_system.
    cbn [set_s_kernel s_kernel put_process set_s_processes k_threads set_k_threads ProcessManager_new fresh_kernel s_processes].
    rewrite !lookup_insert_eq. cbn [expect]. rewrite !bind_Done.
    change (s_kernel (register p _)) with (fresh_kernel ths u m). rewrite Hk, bind_Done. reflexivity. }
  exists s. split; [exact Hrun|]. split; [|done]. split; [by eapply sys_boot|done| |done].
  assert (Hone : ∀ A (x y : A) i, [x] !! i = Some y → i = O ∧ y = x) by (by intros A x y [|i] [=]).
  split; try done.
  - intros i p' n [-> [= -> ->]]%Hone. exists P. unfold s. cbn [s_processes]. rewrite lookup_insert_eq. unfold threads_of.
    by rewrite filter_cons_True.
  - intros e ->%list_elem_of_singleton. by left.
  - intros i e [-> ->]%Hone. unfold s, k. cbn. apply lookup_insert_eq.
  - intros w' Hw'. unfold s, k, ths in Hw'. cbn in Hw'. rewrite insert_insert_eq in Hw'. destruct Hw' as [x Hx].
    apply lookup_insert_Some in Hx as [[<- _]|[_ Hx]]; [by left|]. by rewrite lookup_empty in Hx.
  - by exists [Task_new_idle stack w].
  - eexists. split; [done|]. split; [done|]. apply PerCpuQueue_new_repr.
  - apply SystemTaskQueue_new_repr.
Qed.
End booting.

(** ** Operations with their allocations *)

Section heap.
Context (u : Cpu) (lays : Layouts) (img : Image) (root : Z) (live : list alloc_block).
Hypothesis Hu : stack_pointer_ok u.
Hypothesis Hprocess : small_layout (arc_process lays).
Hypothesis Hthread : small_layout (arc_thread lays).

Lemma stack_layout_small : small_layout stack_layout.
Proof. split; [|unfold stack_layout, TASK_STACK_SIZE, PAGE_SIZE; cbn; lia]. split; [done|]. split; [done|]. by exists 0. Qed.

Lemma idle_stack_layout_small : small_layout idle_stack_layout.
Proof. split; [|done]. split; [done|]. split; [done|]. by exists 0. Qed.

Lemma pointers_layout_small : small_layout pointers_layout.
Proof. split; [|done]. split; [done|]. split; [done|]. by exists 3. Qed.

(** A state of start-up: the processes of the lists, their objects among the
    blocks [new] of the heap, and means for [n] more allocations. *)
Record managed (x : System * KernelHeap) (procs : list (Z * string)) (ros : list entry) (ls : list SystemTask)
    (l : list Z) (new : list alloc_block) (n : nat) : Prop := {
  mg_boot : booting u x.1 procs ros ls;
  mg_heap : ∃ bs, heaped x.2 (s_mm x.1) (k_mem (s_kernel x.1)) root l bs (new ++ live) n;
  mg_procs : procs.*1 ⊆ data <$> new;
  mg_threads : e_thread <$> ros ⊆ data <$> new
}.

Definition moved (x : System * KernelHeap) (l : list Z) (x' : System * KernelHeap) (l' : list Z) : Prop :=
  ∃ fs, stepped root x.2 (k_mem (s_kernel x.1)) l x'.2 (k_mem (s_kernel x'.1)) l' fs.

Lemma moved_trans x1 l1 x2 l2 x3 l3 : moved x1 l1 x2 l2 → moved x2 l2 x3 l3 → moved x1 l1 x3 l3.
Proof. intros [fs1 H1] [fs2 H2]. exists (fs1 ++ fs2). by eapply stepped_trans. Qed.

Lemma moved_refl x l : moved x l x l.
Proof. exists []. apply stepped_refl. Qed.

Lemma heap_alloc_ok lay s h l bs lv n :
  small_layout lay → heaped h (s_mm s) (k_mem (s_kernel s)) root l bs lv (S n) →
  ∃ b h' mm' m' l' bs' fs, heap_alloc lay (s, h) = Done (data b, (with_memory mm' m' s, h')) ∧ block_for lay b ∧
    heaped h' mm' m' root l' bs' (b :: lv) n ∧ stepped root h (k_mem (s_kernel s)) l h' m' l' fs.
Proof.
  intros Hlay He. destruct (alloc_in_ok _ _ _ _ _ _ _ _ lay He Hlay) as (b & h' & mm' & m' & l' & bs' & fs & E & Hb & He' & Hst).
  exists b, h', mm', m', l', bs', fs. split; [|done]. unfold heap_alloc. rewrite E, bind_Done. done.
Qed.

Lemma managed_alloc lay x procs ros ls l new n :
  small_layout lay → managed x procs ros ls l new (S n) →
  ∃ b x' l', heap_alloc lay x = Done (data b, x') ∧ block_for lay b ∧ (data b ∉ data <$> new) ∧
    managed x' procs ros ls l' (b :: new) n ∧ moved x l x' l'.
Proof.
  intros Hlay [B [bs He] Hp Ht]. destruct x as [s h]. cbn [fst snd] in *.
  destruct (heap_alloc_ok lay s h l bs _ n Hlay He) as (b & h' & mm' & m' & l' & bs' & fs & E & Hb & He' & Hst).
  exists b, (with_memory mm' m' s, h'), l'. split; [done|]. split; [done|]. split; [|split].
  - pose proof (data_fresh _ _ _ _ _ (he_heap _ _ _ _ _ _ _ _ He')) as Hf. rewrite fmap_app in Hf. intros Hin. apply Hf, elem_of_app. by left.
  - split; cbn [fst snd]; [by apply booting_memory|by exists bs'|..].
    + intros y Hy. right. by apply Hp.
    + intros y Hy. right. by apply Ht.
  - by exists fs.
Qed.

(** An operation that writes the stack it was given. *)
Lemma managed_stack s h s' procs ros ls procs' ros' l new n b :
  managed (s, h) procs ros ls l new n → b ∈ new → block_for stack_layout b →
  booting u s' procs' ros' ls → s_mm s' = s_mm s →
  agree_off (span (data b) TASK_STACK_SIZE) (k_mem (s_kernel s)) (k_mem (s_kernel s')) →
  procs'.*1 ⊆ data <$> new → e_thread <$> ros' ⊆ data <$> new →
  managed (s', h) procs' ros' ls l new n ∧ moved (s, h) l (s', h) l.
Proof.
  intros [_ [bs He] _ _] Hb [Ho Ht] B Hmm Hag Hp Hth. cbn [fst snd] in *.
  destruct (heaped_write _ _ _ _ _ _ _ _ b TASK_STACK_SIZE (k_mem (s_kernel s')) He) as [He' Hst]; [|change (layout_size stack_layout) with TASK_STACK_SIZE in Ht; lia|done|].
  { apply elem_of_app. by left. }
  split; [|by exists []]. split; cbn [fst snd]; [done|rewrite Hmm; by exists bs|done|done].
Qed.

Lemma stack_range h mm m l bs lv n b :
  heaped h mm m root l bs lv n → b ∈ lv → block_for stack_layout b → stack_ok (data b).
Proof.
  intros He Hb [Ho Ht]. pose proof (he_heap _ _ _ _ _ _ _ _ He) as Hi. pose proof (live_range _ _ _ _ Hi b Hb).
  destruct (hp_bounds _ _ _ (hi_repr _ _ _ _ Hi)) as [? ? ?].
  rewrite (he_base _ _ _ _ _ _ _ _ He) in *. pose proof (he_max _ _ _ _ _ _ _ _ He).
  change (layout_size stack_layout) with TASK_STACK_SIZE in Ht. unfold stack_ok, KERNEL_HEAP_BASE, W64 in *. unfold data in *. lia.
Qed.

Lemma stack_block x procs ros ls l new n b :
  managed x procs ros ls l new n → b ∈ new → block_for stack_layout b → stack_ok (data b).
Proof. intros [_ [bs He] _ _] Hb. apply (stack_range _ _ _ _ _ _ _ _ He), elem_of_app. by left. Qed.

(** The thread list of a process. *)
Lemma booting_threads s procs ros ls p :
  booting u s procs ros ls → p ∈ procs.*1 → ∃ P, s_processes s !! p = Some P ∧ p_threads P = threads_of p ros.
Proof.
  intros B ([p' name] & -> & [i Hi]%list_elem_of_lookup)%list_elem_of_fmap.
  destruct (la_procs _ _ _ _ (bt_layout _ _ _ _ _ B) i p' name Hi) as (P & HP & _ & _ & Ht). by exists P.
Qed.

(** A process nobody has created has no threads. *)
Lemma threads_of_fresh s procs ros ls p : layout s procs ros ls → p ∉ procs.*1 → threads_of p ros = [].
Proof.
  intros L Hp. unfold threads_of. rewrite (filter_none _ ros); [done|].
  apply Forall_forall. intros e He Hep. apply Hp. rewrite <- Hep. by apply (la_owner _ _ _ _ L).
Qed.

Lemma threads_of_snoc p ros e : e_process e = p → length (threads_of p (ros ++ [e])) = S (length (threads_of p ros)).
Proof. intros He. rewrite threads_of_app, threads_of_one, decide_True, length_app by done. cbn. lia. Qed.

Lemma thread_first p x procs ros ls l new n :
  managed x procs ros ls l new (S n) → p ∈ procs.*1 → length (threads_of p ros) = 1%nat →
  ∃ b x' l', thread_pushed p x = Done x' ∧ block_for pointers_layout b ∧ managed x' procs ros ls l' (b :: new) n ∧ moved x l x' l'.
Proof.
  intros M Hp Hlen. destruct (booting_threads _ _ _ _ p (mg_boot _ _ _ _ _ _ _ M) Hp) as (P & HP & Ht).
  destruct (managed_alloc pointers_layout x procs ros ls l new n pointers_layout_small M) as (b & x' & l' & E & Hb & _ & M' & Hmv).
  exists b, x', l'. split; [|done]. unfold thread_pushed. rewrite HP. cbn [expect]. rewrite bind_Done, Ht, Hlen.
  cbn [vec_pushed]. by rewrite E, bind_Done.
Qed.

Lemma thread_more p x procs ros ls l new n :
  managed x procs ros ls l new n → p ∈ procs.*1 → (2 ≤ length (threads_of p ros) ≤ 4)%nat → thread_pushed p x = Done x.
Proof.
  intros M Hp Hlen. destruct (booting_threads _ _ _ _ p (mg_boot _ _ _ _ _ _ _ M) Hp) as (P & HP & Ht).
  unfold thread_pushed. rewrite HP. cbn [expect]. rewrite bind_Done, Ht.
  revert Hlen. generalize (length (threads_of p ros)). intros k Hk. do 5 (destruct k as [|k]; [lia || done|]). lia.
Qed.

Lemma process_more x procs ros ls l new n :
  managed x procs ros ls l new n → (2 ≤ length procs ≤ 4)%nat → process_pushed x = Done x.
Proof.
  intros M Hlen. unfold process_pushed. rewrite (bt_manager _ _ _ _ _ (mg_boot _ _ _ _ _ _ _ M)), length_fmap.
  do 5 (destruct procs as [|? procs]; [cbn in *; lia || done|]). cbn in Hlen. lia.
Qed.

Lemma subset_snoc {A} (xs ys : list A) x : xs ⊆ ys → x ∈ ys → xs ++ [x] ⊆ ys.
Proof. intros Hxs Hx y [Hy| ->%list_elem_of_singleton]%elem_of_app; [by apply Hxs|done]. Qed.

Lemma new_kernel_thread_ok msg p name entry x procs ros ls l new n :
  managed x procs ros ls l new (2 + n) → p ∈ procs.*1 → (1 ≤ length (threads_of p ros) ≤ 3)%nat →
  (length procs ≤ 4)%nat → (0 < length ros < 8)%nat →
  let e w := mk_entry w name p 0 in
  ∃ b1 b2 x' l', new_kernel_thread lays img msg p name entry x = Done (data b1, x') ∧
    Forall2 block_for [stack_layout; arc_thread lays] [b2; b1] ∧
    managed x' procs (ros ++ [e (data b1)]) ls l' (b2 :: b1 :: new) n ∧ moved x l x' l' ∧
    length (threads_of p (ros ++ [e (data b1)])) = S (length (threads_of p ros)).
Proof.
  intros M0 Hp Hk Hnp Hnr e.
  destruct (managed_alloc _ _ _ _ _ _ _ _ Hthread M0) as (b1 & x1 & l1 & E1 & F1 & N1 & M1 & V1).
  destruct (managed_alloc _ _ _ _ _ _ _ _ stack_layout_small M1) as (b2 & [s h] & l2 & E2 & F2 & _ & M2 & V2).
  assert (Hs : stack_ok (data b2)) by (apply (stack_block _ _ _ _ _ _ _ _ M2); [left|done]).
  destruct (booting_spawn u Hu s procs ros ls p (data b1) (data b2) (at_task_entry_stub img) name entry 0 (mg_boot _ _ _ _ _ _ _ M2) Hp)
    as (s' & Hrun & B & Hmm & Hag); [|done|unfold MAX_TASKS; lia..|].
  { intros Hw. by apply N1, (mg_threads _ _ _ _ _ _ _ M0). }
  destruct (managed_stack s h s' procs ros ls procs (ros ++ [e (data b1)]) l2 (b2 :: b1 :: new) n b2 M2) as [M3 V3]; try done.
  { left. }
  { apply M2. }
  { rewrite fmap_app. apply subset_snoc; [apply M2|]. right. left. }
  exists b1, b2, (s', h), l2. split; [|split; [by repeat apply Forall2_cons_2|split; [done|split; [by eauto using moved_trans|by apply threads_of_snoc]]]].
  unfold new_kernel_thread. rewrite E1, bind_Done, E2, bind_Done, Hrun, bind_Done. cbn [expect_ok]. rewrite bind_Done.
  rewrite (thread_more p _ _ _ _ _ _ _ M3 Hp); [by rewrite bind_Done|]. rewrite (threads_of_snoc p ros (e (data b1))) by done. lia.
Qed.

Lemma new_kernel_process_ok msg name entry x procs ros ls l new n :
  managed x procs ros ls l new (4 + n) → (1 ≤ length procs < 4)%nat → (0 < length ros < 8)%nat →
  let e w p := mk_entry w "main" p 0 in
  ∃ b1 b2 b3 b4 x' l', new_kernel_process lays img root msg name entry x = Done (data b1, x') ∧
    Forall2 block_for [pointers_layout; stack_layout; arc_thread lays; arc_process lays] [b4; b3; b2; b1] ∧
    managed x' (procs ++ [(data b1, name)]) (ros ++ [e (data b2) (data b1)]) ls l' (b4 :: b3 :: b2 :: b1 :: new) n ∧ moved x l x' l' ∧
    length (threads_of (data b1) (ros ++ [e (data b2) (data b1)])) = 1%nat.
Proof.
  intros M0 Hnp Hnr e.
  destruct (managed_alloc _ _ _ _ _ _ _ _ Hprocess M0) as (b1 & x1 & l1 & E1 & F1 & N1 & M1 & V1).
  destruct (managed_alloc _ _ _ _ _ _ _ _ Hthread M1) as (b2 & x2 & l2 & E2 & F2 & N2 & M2 & V2).
  destruct (managed_alloc _ _ _ _ _ _ _ _ stack_layout_small M2) as (b3 & [s h] & l3 & E3 & F3 & _ & M3 & V3).
  assert (Hs : stack_ok (data b3)) by (apply (stack_block _ _ _ _ _ _ _ _ M3); [left|done]).
  assert (Hp : data b1 ∉ procs.*1) by (intros Hp; by apply N1, (mg_procs _ _ _ _ _ _ _ M0)).
  destruct (booting_create_kernel u Hu s procs ros ls (data b1) (data b2) (data b3) (at_task_entry_stub img) name root entry 0
    (mg_boot _ _ _ _ _ _ _ M3) Hp) as (s' & Hrun & B & Hmm & Hag); [|done|unfold MAX_TASKS; lia..|].
  { intros Hw. by apply N2, (mg_threads _ _ _ _ _ _ _ M1). }
  destruct (managed_stack s h s' procs ros ls (procs ++ [(data b1, name)]) (ros ++ [e (data b2) (data b1)]) l3 (b3 :: b2 :: b1 :: new) (S n) b3 M3)
    as [M4 V4]; try done.
  { left. }
  { rewrite fmap_app. apply subset_snoc; [apply M3|]. do 2 right. left. }
  { rewrite fmap_app. apply subset_snoc; [apply M3|]. right. left. }
  assert (Hone : length (threads_of (data b1) (ros ++ [e (data b2) (data b1)])) = 1%nat).
  { rewrite threads_of_snoc by done. by rewrite (threads_of_fresh s procs ros ls) by (done || apply (mg_boot _ _ _ _ _ _ _ M3)). }
  destruct (thread_first (data b1) _ _ _ _ _ _ _ M4 (last_process _ _ _) Hone) as (b4 & x5 & l5 & E5 & F5 & M5 & V5).
  exists b1, b2, b3, b4, x5, l5. split; [|split; [by repeat apply Forall2_cons_2|split; [done|split; [by eauto using moved_trans|done]]]].
  unfold new_kernel_process. rewrite E1, bind_Done, E2, bind_Done, E3, bind_Done, Hrun, bind_Done. cbn [expect_ok]. rewrite bind_Done, E5, bind_Done.
  rewrite (process_more _ _ _ _ _ _ _ M5); [by rewrite bind_Done|]. rewrite length_app. cbn. lia.
Qed.

Lemma start_idle_ok m mm h l bs n :
  heaped h mm m root l bs live (5 + n) →
  ∃ b1 b2 b3 b4 b5 x' l', start_idle_process lays root (boot_system u m mm, h) = Done x' ∧
    Forall2 block_for [idle_stack_layout; pointers_layout; pointers_layout; arc_thread lays; arc_process lays] [b5; b4; b3; b2; b1] ∧
    managed x' [(data b1, "Idle"%string)] [mk_entry (data b2) "Idle" (data b1) 0] [] l' [b5; b4; b3; b2; b1] n ∧
    moved (boot_system u m mm, h) l x' l'.
Proof.
  intros H0.
  destruct (heap_alloc_ok (arc_process lays) (boot_system u m mm) h l bs _ _ Hprocess H0) as (b1 & h1 & mm1 & m1 & l1 & bs1 & fs1 & E1 & F1 & H1 & V1).
  destruct (heap_alloc_ok (arc_thread lays) (boot_system u m1 mm1) h1 l1 bs1 _ _ Hthread H1) as (b2 & h2 & mm2 & m2 & l2 & bs2 & fs2 & E2 & F2 & H2 & V2).
  destruct (heap_alloc_ok pointers_layout (boot_system u m2 mm2) h2 l2 bs2 _ _ pointers_layout_small H2) as (b3 & h3 & mm3 & m3 & l3 & bs3 & fs3 & E3 & F3 & H3 & V3).
  destruct (heap_alloc_ok pointers_layout (boot_system u m3 mm3) h3 l3 bs3 _ _ pointers_layout_small H3) as (b4 & h4 & mm4 & m4 & l4 & bs4 & fs4 & E4 & F4 & H4 & V4).
  destruct (heap_alloc_ok idle_stack_layout (boot_system u m4 mm4) h4 l4 bs4 _ _ idle_stack_layout_small H4) as (b5 & h5 & mm5 & m5 & l5 & bs5 & fs5 & E5 & F5 & H5 & V5).
  destruct (booting_idle u (data b1) (data b2) (data b5) root m5 mm5) as (s & Hrun & B & Hmm & Hm).
  exists b1, b2, b3, b4, b5, (s, h5), l5. split; [|split; [by repeat apply Forall2_cons_2|split]].
  - unfold start_idle_process. rewrite E1, bind_Done. change (with_memory mm1 m1 _) with (boot_system u m1 mm1). rewrite E2, bind_Done.
    change (with_memory mm2 m2 _) with (boot_system u m2 mm2). cbn [vec_pushed]. rewrite E3, bind_Done, bind_Done.
    change (with_memory mm3 m3 _) with (boot_system u m3 mm3). cbn [vec_pushed]. rewrite E4, bind_Done, bind_Done.
    change (with_memory mm4 m4 _) with (boot_system u m4 mm4). rewrite E5, bind_Done.
    change (with_memory mm5 m5 _) with (boot_system u m5 mm5). by rewrite Hrun, bind_Done.
  - split; cbn [fst snd]; [done|rewrite Hmm, Hm; by exists bs5|..]; intros y ->%list_elem_of_singleton; [do 4 right; left|do 3 right; left].
  - eexists. cbn [fst snd]. rewrite Hm. do 4 (eapply stepped_trans; [eassumption|]). exact V5.
Qed.
End heap.

(** ** The user process *)

(** What the user process finds in the end: [code] at [USER_CODE_VIRT], readable
    for user code and not writable, its stack, and the kernel's upper half. *)
Record user_started (kroot uroot code : Z) (l : list Z) (mm' : MemoryManager) (m' : mem) (l' fs : list Z) : Prop := {
  us_inv : vm_inv (mm_pmm mm') m' uroot l';
  us_frames : length fs = 4%nat ∧ NoDup (code :: fs) ∧
    ∀ f, f ∈ code :: fs → f ∈ l ∧ ¬ owned m' uroot l' f;
  us_user : ∀ va, pml4_index va < 256 → pte_of m' uroot va =
    if decide (vpn va = vpn USER_CODE_VIRT) then Some (leaf_entry_of code (Z.lor PRESENT USER))
    else requested (stack_requests fs) va None;
  us_kernel : ∀ va, 256 ≤ pml4_index va → pte_of m' uroot va = pte_of m' kroot va;
  us_payload : ∀ i v, USER_PAYLOAD !! i = Some v → load8 m' (code + Z.of_nat i) = v
}.

Lemma load_user_code_ok s code pmm1 :
  alloc_page (mm_pmm (s_mm s)) (k_mem (s_kernel s)) = (Some code, pmm1) → is_frame code →
  ∃ m1, load_user_code s = Done (code, with_memory (with_pmm (s_mm s) pmm1) m1 s) ∧
    agree_off (span code PAGE_SIZE) (k_mem (s_kernel s)) m1 ∧
    ∀ i v, USER_PAYLOAD !! i = Some v → load8 m1 (code + Z.of_nat i) = v.
Proof.
  intros E Hf. pose proof (frame_range code Hf) as Hr. unfold PAGE_SIZE in Hr.
  destruct (copy_bytes_ok USER_PAYLOAD (k_mem (s_kernel s)) code) as (A1 & _ & V1); [lia|cbn; lia|by repeat constructor|].
  unfold load_user_code, mm_alloc_page. rewrite E. cbn [expect]. rewrite bind_Done. cbv zeta.
  eexists. split; [reflexivity|]. split; [|exact V1]. eapply agree_off_mono; [|exact A1].
  unfold span, PAGE_SIZE. cbn. lia.
Qed.

(** Memory between the copy of the code and the first allocation of the process. *)
Record space_ready (h : KernelHeap) (mm : MemoryManager) (m m1 : mem) (root uroot code : Z) (l : list Z)
    (bs : list block) (lv : list alloc_block) (n : nat) (pmm1 pmm2 : PhysicalMemoryManager) (m2 : mem) (l2 ufs : list Z) : Prop := {
  sr_code : is_frame code ∧ ¬ owned m1 root (uroot :: l) code;
  sr_inv : vm_inv pmm1 m1 root (uroot :: l);
  sr_made : space_made (with_pmm mm pmm1) m1 root uroot l pmm2 m2 l2 ufs;
  sr_twin : twin pmm2 m2 root uroot l2;
  sr_heap : heaped h (with_pmm (with_pmm mm pmm1) pmm2) m2 root l2 bs lv n;
  sr_advance : advance root h m (code :: uroot :: l) h m2 l2 []
}.

Lemma space_ready_ok h mm m m1 root uroot code l bs lv n :
  heaped h mm m root (code :: uroot :: l) bs lv (S n) → (∀ j, 0 ≤ j < 256 → pt_entry m root [] j = None) →
  agree_off (span code PAGE_SIZE) m m1 →
  ∃ pmm1 pmm2 m2 l2 ufs, alloc_page (mm_pmm mm) m = (Some code, pmm1) ∧
    space_ready h mm m m1 root uroot code l bs lv n pmm1 pmm2 m2 l2 ufs.
Proof.
  intros He Hlow Hag. pose proof He as [Hh Hb Hm Hr Hi Hp Hf Hs]. unfold ALLOC_FRAMES in Hf. cbn [length] in Hf.
  destruct (page_taken _ m root code (uroot :: l) m1 h Hi Hag) as (pmm1 & E1 & Hcf & I1 & Hno & A1).
  pose proof (owned_frame _ _ _ _ _ I1 (root_owned m1 root _)) as Hk.
  assert (Hlow1 : ∀ j, 0 ≤ j < 256 → pt_entry m1 root [] j = None).
  { intros j Hj. rewrite (ad_top _ _ _ _ _ _ _ _ A1) by (unfold is_index; lia). by apply Hlow. }
  destruct (address_space_init_ok (with_pmm mm pmm1) m1 root uroot l I1 ltac:(lia)) as (pmm2 & m2 & l2 & ufs & Hmade).
  { intros j Hj. specialize (Hlow1 j Hj). unfold pt_entry in Hlow1. cbn in Hlow1. by destruct (absent (entry_at m1 root j)). }
  destruct (space_twin _ _ _ _ _ _ _ _ _ h Hk Hlow1 Hmade) as [Htw A2].
  pose proof (advance_trans _ _ _ _ _ _ _ _ _ _ _ _ A1 A2) as A.
  exists pmm1, pmm2, m2, l2, ufs. split; [done|]. split; try done. split; try done.
  - eapply (heap_inv_below h m); [exact Hh| |by eapply heaped_high]. eapply agree_off_trans.
    + eapply agree_off_mono; [|exact Hag]. intros x Hx Hx'. pose proof (frame_range code Hcf). unfold high, span in *. lia.
    + eapply agree_off_mono; [|exact (sm_off _ _ _ _ _ _ _ _ _ Hmade)]. intros x (f & Hf' & Hx). by apply (owned_low _ _ _ _ f x I1).
  - unfold PAGE_SIZE in *. lia.
  - by apply (twin_kernel _ _ _ uroot).
  - pose proof (sm_left _ _ _ _ _ _ _ _ _ Hmade). unfold ALLOC_FRAMES. lia.
  - by rewrite (ad_top _ _ _ _ _ _ _ _ A); [|apply pml4_index_ok].
Qed.

(** Mapping the code page, after the allocations of the process. *)
Lemma code_mapped h mm m m1 root uroot code l bs lv n pmm1 pmm2 m2 l2 ufs h3 mm3 m3 l3 hfs bs3 lv3 k :
  space_ready h mm m m1 root uroot code l bs lv n pmm1 pmm2 m2 l2 ufs →
  (∀ i v, USER_PAYLOAD !! i = Some v → load8 m1 (code + Z.of_nat i) = v) →
  stepped root h m2 l2 h3 m3 l3 hfs → heaped h3 mm3 m3 root l3 bs3 lv3 (S k) →
  ∃ mm' m' l', mm_map_page mm3 m3 uroot USER_CODE_VIRT code (Z.lor PRESENT USER) = Done (mm', m') ∧
    user_started root uroot code (code :: uroot :: l) mm' m' l' ufs ∧ NoDup (code :: ufs ++ hfs) ∧
    advance root h m (code :: uroot :: l) h3 m' l' hfs ∧ heap_inv h3 m' bs3 lv3.
Proof.
  intros [[Hcf Hno] I1 Hmade Htw _ A] Hpay [A3 Hoff3] He3. pose proof He3 as [Hh3 _ _ _ I3 _ Hf3 _]. unfold ALLOC_FRAMES in Hf3.
  pose proof (step_twin _ _ _ _ _ _ _ _ _ _ _ Htw I3 A3 Hoff3) as Htw3.
  pose proof (step_owned _ _ _ _ _ _ _ _ _ _ _ Htw I3 A3 Hoff3) as Hown.
  pose proof (owned_frame _ _ _ _ _ (tw_inv _ _ _ _ _ Htw) (root_owned m2 uroot l2)) as Huf.
  destruct (user_map (mm_pmm mm3) m3 root uroot l3 (select_pml4 mm3 uroot) USER_CODE_VIRT code (Z.lor PRESENT USER) h3 Htw3)
    as (pmm4 & m4 & l4 & E4 & Htw4 & A4 & Hag4 & Ho4 & T4); [lia|by apply select_pml4_ok|by apply frame_in_u64|by split|done|].
  assert (Hcode : ¬ owned m2 uroot l2 code) by (by intros Hf%(sm_owned _ _ _ _ _ _ _ _ _ Hmade)).
  destruct (sm_frames _ _ _ _ _ _ _ _ _ Hmade) as (Hl4 & Hnd & Hfr). destruct (ad_frames _ _ _ _ _ _ _ _ A3) as [Hnd3 Hfr3].
  assert (Hndc : NoDup (code :: ufs)).
  { apply NoDup_cons. split; [|done]. intros Hc. apply Hno. left. right. by apply Hfr. }
  exists (with_pmm mm3 pmm4), m4, l4. split; [unfold mm_map_page; by rewrite E4, bind_Done|]. split; [|split; [|split]].
  - split; cbn [mm_pmm with_pmm].
    + apply Htw4.
    + split; [done|]. split; [done|]. intros f [->|Hf]%elem_of_cons; rewrite Ho4.
      * split; [left|]. by intros Hx%Hown.
      * destruct (Hfr f Hf) as [Hin Hn]. split; [by do 2 right|]. by intros Hx%Hown.
    + intros va Hva. rewrite T4. case_decide; [done|].
      rewrite (step_user _ _ _ _ _ _ Htw Hoff3 va Hva), (sm_user _ _ _ _ _ _ _ _ _ Hmade). by rewrite decide_True.
    + intros va Hva. rewrite (twin_pte _ _ _ _ _ Htw4). by rewrite decide_False by lia.
    + intros i v Hi. assert (0 ≤ Z.of_nat i < 8) by (apply lookup_lt_Some in Hi; cbn in Hi; lia).
      rewrite (unowned_bytes (mm_pmm mm3) m3 uroot l3 m4) by (done || apply Htw3 || by intros Hx%Hown).
      rewrite (proj2 (unowned_off pmm2 m2 root l2 m3 code (twin_kernel _ _ _ _ _ Htw) Hoff3 Hcf ltac:(by intros [-> |]%(twin_owned _ _ _ _ _ Htw); [apply Hno, root_owned|]))) by done.
      rewrite (unowned_bytes pmm1 m1 root (uroot :: l) m2) by (done || apply Hmade). by apply Hpay.
  - rewrite app_comm_cons. apply NoDup_app. split; [done|]. split; [|done]. intros f Hf Hh. apply Hfr3 in Hh as [Hl2 _].
    apply elem_of_cons in Hf as [->|Hf]; [apply Hcode; by left|]. apply (Hfr f Hf). by left.
  - pose proof (advance_trans _ _ _ _ _ _ _ _ _ _ _ _ (advance_trans _ _ _ _ _ _ _ _ _ _ _ _ A A3) A4) as R.
    by rewrite app_nil_r in R.
  - eapply (heap_inv_below h3 m3); [exact Hh3| |by eapply heaped_high].
    eapply agree_off_mono; [|exact Hag4]. intros x (f & Hf & Hx). by apply (owned_low _ _ _ _ f x (tw_inv _ _ _ _ _ Htw3)).
Qed.

Section user.
Context (u : Cpu) (lays : Layouts) (img : Image) (root : Z) (live : list alloc_block).
Hypothesis Hu : stack_pointer_ok u.
Hypothesis Hprocess : small_layout (arc_process lays).
Hypothesis Hthread : small_layout (arc_thread lays).

(** [create_user_process], from the end of [AddressSpace::init]. *)
Lemma new_user_process_ok msg name entry s h space mm2 m2 l2 bs2 procs ros ls new n :
  booting u s procs ros ls → procs.*1 ⊆ data <$> new → e_thread <$> ros ⊆ data <$> new →
  (1 ≤ length procs < 4)%nat → (0 < length ros < 8)%nat →
  AddressSpace_init (s_mm s) (k_mem (s_kernel s)) root = Done (space, mm2, m2) →
  heaped h mm2 m2 root l2 bs2 (new ++ live) (4 + n) →
  ∃ b1 b2 b3 b4 s' h' l' bs' hfs, new_user_process lays img root msg name entry (s, h) = Done (data b1, (s', h')) ∧
    Forall2 block_for [pointers_layout; stack_layout; arc_thread lays; arc_process lays] [b4; b3; b2; b1] ∧
    booting u s' (procs ++ [(data b1, name)]) (ros ++ [mk_entry (data b2) "main" (data b1) (as_pml4_phys space)]) ls ∧
    p_address_space <$> s_processes s' !! data b1 = Some space ∧
    stepped root h m2 l2 h' (k_mem (s_kernel s')) l' hfs ∧
    heaped h' (s_mm s') (k_mem (s_kernel s')) root l' bs' (b4 :: b3 :: b2 :: b1 :: new ++ live) n.
Proof.
  intros B Hprocs Hths Hnp Hnr Has H2. set (s0 := with_memory mm2 m2 (ProcessId_next s).2).
  destruct (heap_alloc_ok root (arc_process lays) s0 h l2 bs2 _ _ Hprocess H2) as (b1 & h3 & mm3 & m3 & l3 & bs3 & fs3 & E3 & F3 & H3 & V3).
  set (P := mk_Process (s_next_pid s) name space []).
  destruct (heap_alloc_ok root (arc_thread lays) (put_process (data b1) P (with_memory mm3 m3 s0)) h3 l3 bs3 _ _ Hthread H3)
    as (b2 & h4 & mm4 & m4 & l4 & bs4 & fs4 & E4 & F4 & H4 & V4).
  destruct (heap_alloc_ok root stack_layout (with_memory mm4 m4 (put_process (data b1) P (with_memory mm3 m3 s0))) h4 l4 bs4 _ _ stack_layout_small H4)
    as (b3 & h5 & mm5 & m5 & l5 & bs5 & fs5 & E5 & F5 & H5 & V5).
  assert (Hs : stack_ok (data b3)).
  { apply (stack_range root h5 mm5 m5 l5 bs5 (b3 :: b2 :: b1 :: new ++ live) (S n)); [done|left|done]. }
  assert (Hp : data b1 ∉ procs.*1).
  { intros Hx%Hprocs. apply (data_fresh _ _ _ _ _ (he_heap _ _ _ _ _ _ _ _ H3)). rewrite fmap_app. apply elem_of_app. by left. }
  assert (Hw : data b2 ∉ e_thread <$> ros).
  { intros Hx%Hths. apply (data_fresh _ _ _ _ _ (he_heap _ _ _ _ _ _ _ _ H4)). cbn. right. rewrite fmap_app. apply elem_of_app. by left. }
  destruct (booting_create_user u Hu s procs ros ls (data b1) (data b2) (data b3) (at_user_task_entry_stub img) name root entry space mm2 m2 B Hp Hw Hs)
    as (s1 & Hsp & B1 & Hspace); [unfold MAX_TASKS; lia..|exact Has|].
  destruct (spawn_user_memory _ _ _ _ _ _ mm5 m5 _ _ _ Hsp Hs) as (m6 & Hsp' & A6).
  destruct (heaped_write h5 mm5 m5 root l5 bs5 _ (S n) b3 TASK_STACK_SIZE m6 H5) as [H6 V6]; [left| |done|].
  { destruct F5 as [Ho Ht]. change (layout_size stack_layout) with TASK_STACK_SIZE in Ht. lia. }
  destruct (heap_alloc_ok root pointers_layout (with_memory mm5 m6 s1) h5 l5 bs5 _ n pointers_layout_small H6)
    as (b4 & h7 & mm7 & m7 & l7 & bs7 & fs7 & E7 & F7 & H7 & V7).
  assert (Hth : thread_pushed (data b1) (with_memory mm5 m6 s1, h5) = Done (with_memory mm7 m7 (with_memory mm5 m6 s1), h7)).
  { destruct (booting_threads u _ _ _ _ (data b1) B1 (last_process _ _ _)) as (P1 & HP1 & Ht1). unfold thread_pushed.
    change (s_processes (with_memory mm5 m6 s1, h5).1) with (s_processes (register (data b1) s1)). rewrite HP1. cbn [expect].
    rewrite bind_Done, Ht1, threads_of_snoc, (threads_of_fresh s procs ros ls) by (done || apply B). cbn [length vec_pushed].
    by rewrite E7, bind_Done. }
  assert (Hpp : process_pushed (with_memory mm7 m7 (register (data b1) s1), h7) = Done (with_memory mm7 m7 (register (data b1) s1), h7)).
  { unfold process_pushed. change (s_manager (with_memory mm7 m7 (register (data b1) s1), h7).1) with (s_manager (register (data b1) s1)).
    rewrite (bt_manager _ _ _ _ _ B1), length_fmap, length_app. cbn [length].
    revert Hnp. generalize (length procs). intros k Hk. do 4 (destruct k as [|k]; [lia || done|]). lia. }
  exists b1, b2, b3, b4, (with_memory mm7 m7 (register (data b1) s1)), h7, l7, bs7, (fs3 ++ fs4 ++ fs5 ++ [] ++ fs7).
  split; [|split; [by repeat apply Forall2_cons_2|split; [by apply booting_memory|split; [exact Hspace|split; [|exact H7]]]]].
  - unfold new_user_process. cbn [ProcessId_next]. change (s_mm (mk_System _ (s_mm s) _ _ _ _)) with (s_mm s).
    change (k_mem (s_kernel (mk_System (s_kernel s) _ _ _ _ _))) with (k_mem (s_kernel s)). rewrite Has, bind_Done.
    change (with_memory mm2 m2 _) with s0. rewrite E3, bind_Done. cbv zeta. change (mk_Process _ name space []) with P.
    rewrite E4, bind_Done, E5, bind_Done.
    change (with_memory mm5 m5 _) with (with_memory mm5 m5 (put_process (data b1) P s0)). fold P s0 in Hsp'. rewrite Hsp', bind_Done.
    cbn [expect_ok]. rewrite bind_Done, Hth, bind_Done.
    change (register (data b1) (with_memory mm7 m7 (with_memory mm5 m6 s1))) with (with_memory mm7 m7 (register (data b1) s1)).
    by rewrite Hpp, bind_Done.
  - do 4 (eapply stepped_trans; [eassumption|]). exact V7.
Qed.

Lemma start_user_ok x procs ros ls l new n :
  managed u root live x procs ros ls l new (6 + n) → (∀ j, 0 ≤ j < 256 → pt_entry (k_mem (s_kernel x.1)) root [] j = None) →
  (1 ≤ length procs < 4)%nat → (0 < length ros < 8)%nat →
  ∃ b1 b2 b3 b4 s' h' l' bs' uroot code ufs hfs, start_user_process lays img root x = Done (s', h') ∧
    Forall2 block_for [pointers_layout; stack_layout; arc_thread lays; arc_process lays] [b4; b3; b2; b1] ∧
    booting u s' (procs ++ [(data b1, "User Test"%string)]) (ros ++ [mk_entry (data b2) "main" (data b1) uroot]) ls ∧
    heap_inv h' (k_mem (s_kernel s')) bs' (b4 :: b3 :: b2 :: b1 :: new ++ live) ∧
    advance root x.2 (k_mem (s_kernel x.1)) l h' (k_mem (s_kernel s')) l' hfs ∧
    user_started root uroot code l (s_mm s') (k_mem (s_kernel s')) l' ufs ∧ NoDup (code :: ufs ++ hfs).
Proof.
  intros [B [bs He] Hprocs Hths] Hlow Hnp Hnr. destruct x as [s h]. cbn [fst snd] in *.
  pose proof (he_frames _ _ _ _ _ _ _ _ He) as Hlen. unfold ALLOC_FRAMES in Hlen.
  destruct l as [|code [|uroot l]]; [cbn in Hlen; lia..|]. clear Hlen.
  destruct (alloc_inv _ _ _ _ _ (he_inv _ _ _ _ _ _ _ _ He)) as (pmm1 & E1 & _ & Hcf & _).
  destruct (load_user_code_ok s code pmm1 E1 Hcf) as (m1 & Hload & A1 & Hpay).
  destruct (space_ready_ok _ _ _ m1 _ _ _ _ _ _ (5 + n) He Hlow A1) as (pmm1' & pmm2 & m2 & l2 & ufs & E1' & R).
  rewrite E1 in E1'. injection E1' as <-. set (s1 := with_memory (with_pmm (s_mm s) pmm1) m1 s) in *.
  destruct (new_user_process_ok "Could not create user process" "User Test" USER_CODE_VIRT s1 h
    {| as_pml4_phys := uroot; user_stack_top := USER_STACK_TOP; user_stack_pages := USER_STACK_PAGES |}
    (with_pmm (with_pmm (s_mm s) pmm1) pmm2) m2 l2 bs procs ros ls new (S n))
    as (b1 & b2 & b3 & b4 & s3 & h3 & l3 & bs3 & hfs & E3 & F3 & B3 & Hsp & V3 & H3); [by apply booting_memory|done..| |exact (sr_heap _ _ _ _ _ _ _ _ _ _ _ _ _ _ _ _ R)|].
  { exact (sm_run _ _ _ _ _ _ _ _ _ (sr_made _ _ _ _ _ _ _ _ _ _ _ _ _ _ _ _ R)). }
  destruct (code_mapped _ _ _ _ _ _ _ _ _ _ _ _ _ _ _ _ _ _ _ _ _ _ _ _ R Hpay V3 H3) as (mm' & m' & l' & E4 & Hus & Hnd & A & Hh).
  exists b1, b2, b3, b4, (with_memory mm' m' s3), h3, l', bs3, uroot, code, ufs, hfs.
  split; [|split; [done|split; [by apply booting_memory|done]]].
  unfold start_user_process. rewrite Hload, bind_Done. rewrite E3, bind_Done. unfold map_user_code.
  destruct (s_processes s3 !! data b1) as [P|] eqn:HP; [|discriminate Hsp]. injection Hsp as Hsp.
  cbn [expect]. rewrite bind_Done. unfold pml4_phys. rewrite Hsp. cbn [as_pml4_phys]. rewrite E4, !bind_Done. reflexivity.
Qed.
End user.

(** ** The whole sequence *)

(** The allocations of start-up, in their order. *)
Definition start_layouts (lays : Layouts) : list Layout :=
  let '(process, thread, stack, list) := (arc_process lays, arc_thread lays, stack_layout, pointers_layout) in
  [process; thread; list; list; idle_stack_layout;
   process; thread; stack; list; thread; stack;
   process; thread; stack; list; thread; stack; thread; stack; thread; stack;
   process; thread; stack; list].

(** The address of the i-th of these allocations. *)
Definition address (bks : list alloc_block) (i : nat) : Z := from_option data 0 (bks !! i).

(** The processes and threads of the started system; [uroot] is the PML4 of the
    user process. *)
Definition start_procs (bks : list alloc_block) : list (Z * string) :=
  [(address bks 0, "Idle"%string); (address bks 5, "System"%string); (address bks 11, "Test Proc 1"%string);
   (address bks 21, "User Test"%string)].

Definition start_roster (bks : list alloc_block) (uroot : Z) : list entry :=
  [mk_entry (address bks 1) "Idle" (address bks 0) 0;
   mk_entry (address bks 6) "main" (address bks 5) 0;
   mk_entry (address bks 9) "Keyboard reader" (address bks 5) 0;
   mk_entry (address bks 12) "main" (address bks 11) 0;
   mk_entry (address bks 15) "P1 T2" (address bks 11) 0;
   mk_entry (address bks 17) "Fault task" (address bks 11) 0;
   mk_entry (address bks 19) "Task C" (address bks 11) 0;
   mk_entry (address bks 22) "main" (address bks 21) uroot].

(** The kill of "Task C". *)
Definition start_kills : list SystemTask := [mk_SystemTask task_killer (compress_task_id (task_id 6))].

(** Means for 25 allocations, with two allocations' worth of pages for the page of
    code, the user address space and its tables. *)
Definition START_ALLOCATIONS : nat := 27.

(** The end of start-up. *)
Lemma booting_enabled u s procs ros ls : stack_pointer_ok u →
  booting u s procs ros ls → booting (set_IF true u) (enable_scheduling s) procs ros ls.
Proof.
  intros Hu [Hs Hm L Hc]. split; [|exact Hm|by destruct L|by cbn; rewrite Hc].
  apply sys_init_complete, (sys_machine _ (set_IF true u) (s_mm s) (k_mem (s_kernel s))) in Hs; [|done].
  unfold enable_scheduling. cbn [k_cpu set_k_init_complete]. rewrite Hc. by destruct s as [[] ? ? ? ? ?].
Qed.

Lemma user_started_sub root uroot code l l0 mm m l' fs :
  l ⊆ l0 → user_started root uroot code l mm m l' fs → user_started root uroot code l0 mm m l' fs.
Proof.
  intros Hsub [H1 (H2 & H3 & H4) H5 H6 H7]. split; try done. split; [done|]. split; [done|].
  intros f Hf. destruct (H4 f Hf). by auto.
Qed.

Section sequence.
Context (lays : Layouts) (img : Image) (root : Z) (u : Cpu) (live : list alloc_block).
Hypothesis Hprocess : small_layout (arc_process lays).
Hypothesis Hthread : small_layout (arc_thread lays).
Hypothesis Hu : stack_pointer_ok u.

Abbreviation state := (managed u root live).
Abbreviation steps := (moved root).

Lemma start_system_ok x p0 w0 l new n :
  state x [p0] [w0] [] l new (6 + n) →
  ∃ p x' l' more, start_system_process lays img root x = Done x' ∧
    state x' ([p0] ++ [(p, "System"%string)]) ([w0] ++ [mk_entry (address (reverse more) 1) "main" p 0] ++ [mk_entry (address (reverse more) 4) "Keyboard reader" p 0]) []
      l' (more ++ new) n ∧
    p = address (reverse more) 0 ∧ Forall2 block_for (reverse (take 6 (drop 5 (start_layouts lays)))) more ∧ steps x l x' l'.
Proof.
  intros M0. unfold start_system_process.
  destruct (new_kernel_process_ok u lays img root live Hu Hprocess Hthread "[FATAL ERROR] Failed to create System process" "System"
    (at_nop_thread_stub img) x _ _ _ _ _ (2 + n) M0) as (b1 & b2 & b3 & b4 & x1 & l1 & -> & F1 & M1 & V1 & K1); [cbn; lia..|].
  rewrite bind_Done.
  destruct (new_kernel_thread_ok u lays img root live Hu Hthread "Failed to spawn keyboard thread" (data b1) "Keyboard reader"
    (at_task_keyboard img) x1 _ _ _ _ _ n M1 (last_process _ _ _)) as (b5 & b6 & x2 & l2 & -> & F2 & M2 & V2 & K2); [lia|cbn; lia..|].
  rewrite bind_Done. exists (data b1), x2, l2, [b6; b5; b4; b3; b2; b1].
  split; [done|]. split; [exact M2|]. split; [done|]. split; [exact (Forall2_app F2 F1)|by eapply moved_trans].
Qed.

Lemma start_test_ok x procs ros l new n :
  state x procs ros [] l new (10 + n) → length procs = 2%nat → length ros = 3%nat →
  ∃ p x' l' more, start_test_process lays img root x = Done x' ∧
    state x' (procs ++ [(p, "Test Proc 1"%string)])
      (ros ++ [mk_entry (address (reverse more) 1) "main" p 0; mk_entry (address (reverse more) 4) "P1 T2" p 0;
        mk_entry (address (reverse more) 6) "Fault task" p 0; mk_entry (address (reverse more) 8) "Task C" p 0]) start_kills
      l' (more ++ new) n ∧
    p = address (reverse more) 0 ∧ Forall2 block_for (reverse (take 10 (drop 11 (start_layouts lays)))) more ∧ steps x l x' l'.
Proof.
  intros M0 Hlp Hlr. unfold start_test_process.
  destruct (new_kernel_process_ok u lays img root live Hu Hprocess Hthread "Failed to create test process" "Test Proc 1"
    (at_task_a img) x _ _ _ _ _ (6 + n) M0) as (b1 & b2 & b3 & b4 & x1 & l1 & -> & F1 & M1 & V1 & K1); [lia..|].
  rewrite bind_Done. pose proof (last_process procs (data b1) "Test Proc 1") as Hp.
  assert (Hl : length (procs ++ [(data b1, "Test Proc 1"%string)]) = 3%nat) by (rewrite length_app; cbn; lia).
  destruct (new_kernel_thread_ok u lays img root live Hu Hthread "failed to spawn task B" (data b1) "P1 T2" (at_task_b img) x1 _ _ _ _ _ (4 + n) M1 Hp)
    as (b5 & b6 & x2 & l2 & -> & F2 & M2 & V2 & K2); [lia|lia|rewrite length_app; cbn; lia|]. rewrite bind_Done.
  destruct (new_kernel_thread_ok u lays img root live Hu Hthread "failed to spawn Fault Task" (data b1) "Fault task" (at_task_fault img) x2 _ _ _ _ _ (2 + n) M2 Hp)
    as (b7 & b8 & x3 & l3 & -> & F3 & M3 & V3 & K3); [lia|lia|rewrite !length_app; cbn; lia|]. rewrite bind_Done.
  destruct (new_kernel_thread_ok u lays img root live Hu Hthread "failed to spawn task C" (data b1) "Task C" (at_task_c img) x3 _ _ _ _ _ n M3 Hp)
    as (b9 & b10 & [s h] & l4 & -> & F4 & M4 & V4 & K4); [lia|lia|rewrite !length_app; cbn; lia|]. rewrite bind_Done.
  rewrite <- !app_assoc in M4. cbn [app] in M4. destruct M4 as [B4 Hh Hps Hts]. cbn [fst snd] in *.
  destruct (booting_exit u Hu s _ _ _ 6 (mk_entry (data b9) "Task C" (data b1) 0) B4) as (k & Hk & B5 & Hm);
    [by rewrite lookup_app_r, Hlr by lia|unfold MAX_TASKS; lia|cbn; lia|]. cbn [e_thread] in Hk. rewrite Hk, bind_Done.
  exists (data b1), (set_s_kernel k s, h), l4, [b10; b9; b8; b7; b6; b5; b4; b3; b2; b1].
  split; [done|]. split; [|split; [done|split]].
  - split; cbn [fst snd s_kernel set_s_kernel s_mm]; [exact B5|rewrite Hm; exact Hh|exact Hps|exact Hts].
  - exact (Forall2_app F4 (Forall2_app F3 (Forall2_app F2 F1))).
  - assert (steps x l (s, h) l4) as [fs Hst] by eauto using moved_trans. exists fs. cbn [fst snd s_kernel set_s_kernel] in *. by rewrite Hm.
Qed.

(** [_start] from the idle process to [sti]. *)
Lemma start_processes_ok mm m h l bs :
  heaped h mm m root l bs live START_ALLOCATIONS → (∀ j, 0 ≤ j < 256 → pt_entry m root [] j = None) →
  ∃ s h' l' bs' new uroot code ufs hfs, start_processes lays img root (boot_system u m mm, h) = Done (s, h') ∧
    Forall2 block_for (reverse (start_layouts lays)) new ∧
    heap_inv h' (k_mem (s_kernel s)) bs' (new ++ live) ∧
    booting (set_IF true u) s (start_procs (reverse new)) (start_roster (reverse new) uroot) start_kills ∧
    k_init_complete (s_kernel s) = true ∧
    advance root h m l h' (k_mem (s_kernel s)) l' hfs ∧
    user_started root uroot code l (s_mm s) (k_mem (s_kernel s)) l' ufs ∧ NoDup (code :: ufs ++ hfs).
Proof.
  intros H0 Hlow. unfold start_processes.
  destruct (start_idle_ok u lays root live Hprocess Hthread m mm h l bs 22 H0) as (b0 & b1 & b2 & b3 & b4 & x1 & l1 & -> & F1 & M1 & V1). rewrite bind_Done.
  destruct (start_system_ok x1 _ _ l1 _ 16 M1) as (p1 & x2 & l2 & n2 & -> & M2 & Hp1 & F2 & V2). rewrite bind_Done.
  destruct (start_test_ok x2 _ _ l2 _ 6 M2 eq_refl eq_refl) as (p2 & x3 & l3 & n3 & -> & M3 & Hp2 & F3 & V3). rewrite bind_Done.
  destruct (moved_trans _ _ _ _ _ _ _ (moved_trans _ _ _ _ _ _ _ V1 V2) V3) as [fs [A3 _]]. cbn [fst snd] in A3.
  destruct (start_user_ok u lays img root live Hu Hprocess Hthread x3 _ _ _ l3 _ 0 M3) as
    (c1 & c2 & c3 & c4 & s & h' & l' & bs' & uroot & code & ufs & hfs & -> & F4 & B & Hh & A & Hus & Hnd).
  { intros j Hj. rewrite (ad_top _ _ _ _ _ _ _ _ A3) by (unfold is_index; lia). by apply Hlow. }
  { cbn. lia. }
  { cbn. lia. }
  rewrite bind_Done. exists (enable_scheduling s), h', l', bs', ([c4; c3; c2; c1] ++ n3 ++ n2 ++ [b4; b3; b2; b1; b0]), uroot, code, ufs, (fs ++ hfs).
  split; [done|]. split; [exact (Forall2_app F4 (Forall2_app F3 (Forall2_app F2 F1)))|].
  split; [|split; [|split; [done|split; [|split]]]].
  - cbn [s_kernel enable_scheduling set_s_kernel k_mem set_k_cpu set_k_init_complete]. rewrite <- !app_assoc in Hh. rewrite <- !app_assoc. exact Hh.
  - apply (booting_enabled u s) in B; [|done].
    apply Forall2_length in F2 as L2, F3 as L3. cbn in L2, L3.
    do 7 (destruct n2 as [|? n2]; [try discriminate L2|]); try discriminate L2.
    do 11 (destruct n3 as [|? n3]; [try discriminate L3|]); try discriminate L3.
    subst p1 p2. exact B.
  - by eapply advance_trans.
  - apply (user_started_sub _ _ _ l3); [exact (ad_sub _ _ _ _ _ _ _ _ A3)|]. by destruct Hus.
  - destruct (ad_frames _ _ _ _ _ _ _ _ A3) as [Hfs Hno]. destruct (us_frames _ _ _ _ _ _ _ _ Hus) as (_ & _ & Huf).
    rewrite app_comm_cons in Hnd |- *. apply NoDup_app in Hnd as (H1 & H2 & H3). apply NoDup_app. split; [done|]. split.
    + intros f Hf [Hin|Hin]%elem_of_app; [|by apply (H2 f)]. apply (Hno f Hin). left. by apply Huf.
    + apply NoDup_app. split; [done|]. split; [|done]. intros f Hin Hin'. apply (Hno f Hin). left.
      by apply (ad_frames _ _ _ _ _ _ _ _ A).
Qed.
End sequence.

(** A kill that is queued when start-up ends is carried out in two ticks. *)
Lemma booting_condemned u s procs ros i cpu1 cpu2 m1 m2 :
  booting u s procs ros [mk_SystemTask task_killer (compress_task_id (task_id i))] → (0 < i < MAX_TASKS)%nat →
  stack_pointer_ok cpu1 → stack_pointer_ok cpu2 →
  ∃ k1 k2, step EvTimer cpu1 m1 (s_kernel s) = Done k1 ∧ step EvTimer cpu2 m2 k1 = Done k2 ∧
    get_task (k_tasks k2) (task_id i) = None.
Proof.
  intros [Hs _ L _] Hi H1 H2.
  destruct (reachable_inv _ (i_kernel _ (system_inv _ Hs))) as (c & lq & lr & lt & ls & q & v & B).
  assert (Hk : killable (task_id i)).
  { unfold killable, task_id, TaskId_IDLE, MAX_TASKS in *. cbn. split; [lia|]. split; [lia|]. intros [= ?]. lia. }
  assert (B' : binv (s_kernel s) c lq lr lt [mk_SystemTask task_killer (compress_task_id (task_id i))] q v).
  { destruct B as [[] ? ? ?]. split; [split; try done; [apply L|]|done..]. apply Forall_singleton. by exists (task_id i). }
  pose proof (rr_len _ _ _ _ _ (w_reaper _ _ _ _ _ _ _ _ (b_winv _ _ _ _ _ _ _ _ B))) as Hl. rewrite (la_reaper _ _ _ _ L) in Hl.
  destruct (condemned_reaped _ _ _ _ _ _ _ _ (task_id i) cpu1 cpu2 m1 m2 B') as (k1 & k2 & ? & _ & ? & ?); [|cbn; lia|done|done|eauto].
  eexists. split; [by apply list_elem_of_singleton|done].
Qed.

(** ** The property *)

(** C11. The end of [_start] implements its specification.  Given a page table
    whose lower half is empty, a heap that is well formed, and free pages and
    heap room for 27 allocations of at most five pages (540 free pages), the
    sequence from the idle process to [sti] completes, with no allocation and none
    of its [expect]s failing, in a system the kernel can be in, so that every later
    event is safe.  The heap has handed out 25 blocks, of the layouts and in the
    order of [start_layouts], beside those that were live.  The manager lists
    Idle, System, Test Proc 1 and User Test in this order; the eight threads belong
    to them as the roster says, at the addresses of their blocks, each with the
    task of its number, and the seven new tasks are ready in the order of their
    creation.  The kernel's translation has changed by the heap's new pages only,
    each on a frame of its own from the free list.  The user process has
    [USER_PAYLOAD] mapped at [USER_CODE_VIRT], readable and not writable, its
    stack, on frames that are neither the heap's nor free, and the kernel's upper
    half as it is in the end, on page tables of its own.  The thread that was told
    to exit is gone after two timer interrupts. *)
Theorem start_processes_refines (lays : Layouts) (img : Image) (cr3 : Z) (u : Cpu) (mm : MemoryManager) (m : mem)
    (h : KernelHeap) (l : list Z) (bs : list block) (live : list alloc_block) :
  small_layout (arc_process lays) → small_layout (arc_thread lays) → stack_pointer_ok u →
  heaped h mm m cr3 l bs live START_ALLOCATIONS → (∀ j, 0 ≤ j < 256 → pt_entry m cr3 [] j = None) →
  ∃ s h' l' bs' new uroot code ufs hfs, start_processes lays img cr3 (boot_system u m mm, h) = Done (s, h') ∧
    Forall2 block_for (reverse (start_layouts lays)) new ∧
    heap_inv h' (k_mem (s_kernel s)) bs' (new ++ live) ∧
    booting (set_IF true u) s (start_procs (reverse new)) (start_roster (reverse new) uroot) start_kills ∧
    k_init_complete (s_kernel s) = true ∧
    advance cr3 h m l h' (k_mem (s_kernel s)) l' hfs ∧
    user_started cr3 uroot code l (s_mm s) (k_mem (s_kernel s)) l' ufs ∧ NoDup (code :: ufs ++ hfs) ∧
    ∀ cpu1 cpu2 m1 m2, stack_pointer_ok cpu1 → stack_pointer_ok cpu2 →
      ∃ k1 k2, step EvTimer cpu1 m1 (s_kernel s) = Done k1 ∧ step EvTimer cpu2 m2 k1 = Done k2 ∧
        get_task (k_tasks k2) (task_id 6) = None.
Proof.
  intros Hp Ht Hu He Hlow.
  destruct (start_processes_ok lays img cr3 u live Hp Ht Hu mm m h l bs He Hlow)
    as (s & h' & l' & bs' & new & uroot & code & ufs & hfs & Hrun & HF & Hh & B & Hc & HA & Hus & Hnd).
  exists s, h', l', bs', new, uroot, code, ufs, hfs. repeat (split; [assumption|]). intros cpu1 cpu2 m1 m2 H1 H2.
  apply (booting_condemned (set_IF true u) s (start_procs (reverse new)) (start_roster (reverse new) uroot) 6);
    [exact B|unfold MAX_TASKS; lia|done|done].
Qed.

(** A machine with 600 free frames and an empty PML4, and the heap's first pages. *)
Definition start_frames : list Z := (λ k, (0x100 + k) * PAGE_SIZE) <$> seqZ 0 600.
Definition start_pool : PhysicalMemoryManager * mem :=
  foldr (λ a s, free_page s.1 s.2 a) (init_state 0x2000 0x3000 demo_fb demo_map, demo_mem) start_frames.
Definition start_manager : MemoryManager := (MemoryManager_init 0x500 start_pool.1 0x10000).2.
Definition start_range : KernelHeap := KernelHeap_new KERNEL_HEAP_BASE 0x4000000.
Definition demo_start : KernelHeap * mem * MemoryManager * mem :=
  done_or (start_range, ∅, start_manager, start_pool.2) (KernelHeap_init start_range ∅ start_manager start_pool.2 16).
Definition demo_image : Image := mk_Image 0x9000 0x9100 0x9200 0x9300 0x9400 0x9500 0x9600 0x9700.
Definition demo_layouts : Layouts :=
  mk_Layouts {| layout_size := 120; layout_align := 8 |} {| layout_size := 96; layout_align := 8 |}.

Lemma demo_layouts_small : small_layout (arc_process demo_layouts) ∧ small_layout (arc_thread demo_layouts).
Proof. split; (split; [|done]; split; [done|]; split; [done|]; by exists 3). Qed.

Lemma start_pool_root j : is_index j → absent (entry_at start_pool.2 0x10000 j) = true.
Proof.
  intros Hj.
  assert (Forall (λ j, absent (entry_at start_pool.2 0x10000 j) = true) (seqZ 0 512)) as H.
  { apply (bool_decide_unpack _). vm_compute. exact I. }
  rewrite Forall_forall in H. apply H, elem_of_seqZ. unfold is_index in Hj. lia.
Qed.

Lemma start_pool_inv : vm_inv start_pool.1 start_pool.2 0x10000 start_frames.
Proof.
  apply empty_root_inv.
  - apply free_all_repr; [by split; [|constructor|constructor|]| |];
      unfold is_frame, page_aligned; apply (bool_decide_unpack _); vm_compute; exact I.
  - by split.
  - apply (bool_decide_unpack _). vm_compute. exact I.
  - exact start_pool_root.
Qed.

Lemma demo_start_ready :
  let '(h, hm, mm, pm) := demo_start in
  ∃ l, heaped h mm (joined pm hm) 0x10000 l [(KERNEL_HEAP_BASE, 0x10000)] [] START_ALLOCATIONS ∧
    ∀ j, 0 ≤ j < 256 → pt_entry (joined pm hm) 0x10000 [] j = None.
Proof.
  assert (Hp : ptr_to (mm_pml4 start_manager) 0x10000) by (apply (ptr_to_phys false); by split).
  assert (Hcg : can_grow start_range start_manager start_pool.2 0x10000 start_frames 16).
  { split; [done|done|exact start_pool_inv|exact Hp|]. apply (bool_decide_unpack _). vm_compute. exact I. }
  destruct (grow_ok start_range ∅ [] start_manager start_pool.2 0x10000 start_frames 16)
    as (h' & hm' & mm' & pm' & E & Hs & Hr & _ & _ & Hg); [split; [by split|done|done]|exact Hcg|].
  unfold demo_start, KernelHeap_init. rewrite E. cbn [done_or]. clear E Hcg.
  apply (heap_started start_range start_manager start_pool.2 0x10000 start_frames 16 h' hm' mm' pm').
  - reflexivity.
  - reflexivity.
  - discriminate.
  - reflexivity.
  - discriminate.
  - exact Hg.
  - exact Hs.
  - exact (heap_inv_empty _ _ _ Hr).
  - exact Hp.
  - apply (bool_decide_unpack _). vm_compute. exact I.
  - intros j Hj. unfold pt_entry. cbn [walk mbind option_bind]. by rewrite start_pool_root by (unfold is_index; lia).
Qed.

Lemma start_processes_refines_witness :
  let '(h, hm, mm, pm) := demo_start in
  ∃ s h', start_processes demo_layouts demo_image 0x10000 (boot_system demo_regs (joined pm hm) mm, h) = Done (s, h') ∧
    k_init_complete (s_kernel s) = true ∧ length (s_manager s) = 4%nat.
Proof.
  pose proof demo_start_ready as H. destruct demo_start as [[[h hm] mm] pm]. destruct H as (l & He & Hlow).
  destruct (start_processes_refines demo_layouts demo_image 0x10000 demo_regs mm (joined pm hm) h l [(KERNEL_HEAP_BASE, 0x10000)] [])
    as (s & h' & l' & bs' & new & uroot & code & ufs & hfs & Hrun & _ & _ & B & Hc & _).
  - exact (proj1 demo_layouts_small).
  - exact (proj2 demo_layouts_small).
  - exact demo_regs_ok.
  - exact He.
  - exact Hlow.
  - exists s, h'. split; [exact Hrun|]. split; [exact Hc|]. rewrite (bt_manager _ _ _ _ _ B). reflexivity.
Defined.
