(* ===== verification/Helpers.v ===== *)
(** * Helpers.v: number formatting, hexadecimal and Base64

    The conversion routines of [src/crap_os/src/helper_functions.rs].  A
    string is its list of bytes.  Loops that consume a slice in groups recurse
    on the rest of the slice.  The module [Rfc4648] states Base16 and Base64 on
    the bits of the input, and the encoders and decoders are proved exact against
    it. *)

From S2P Require Import Prelude Bytes Text.

Local Open Scope Z_scope.

(** [b"0123456789ABCDEF"] *)
Definition HEX_CHARS_UPPER : list Z :=
  [48; 49; 50; 51; 52; 53; 54; 55; 56; 57; 65; 66; 67; 68; 69; 70].

(** [b"ABCDEFGHIJKLMNOPQRSTUVWXYZabcdefghijklmnopqrstuvwxyz0123456789+/"] *)
Definition BASE64_CHARS : list Z :=
  ((λ i, 65 + Z.of_nat i) <$> seq 0 26) ++ ((λ i, 97 + Z.of_nat i) <$> seq 0 26) ++
  ((λ i, 48 + Z.of_nat i) <$> seq 0 10) ++ [43; 47].

(** [HEX_CHARS_UPPER[i]] and [BASE64_CHARS[i]]; the masks keep the indices in
    range. *)
Definition hex_char (i : Z) : Z := nth (Z.to_nat i) HEX_CHARS_UPPER 0.
Definition base64_char (i : Z) : Z := nth (Z.to_nat (Z.land i 0x3F)) BASE64_CHARS 0.

(** ** Numbers *)

(** The digit loop of [u64_to_hex_bytes] and [u32_to_hex_bytes]: [n] digits
    are left, the next goes to index [i]. *)
Fixpoint hex_digits (n : nat) (buffer : list Z) (i temp_value : Z) : outcome (list Z) :=
  match n with
  | O => Done buffer
  | S n =>
      buffer ← slot_set buffer i (hex_char (Z.land temp_value 0xF));
      hex_digits n buffer (i ⊟ 1) (Z.shiftr temp_value 4)
  end.

Definition hex_bytes (digits : nat) (value : Z) : outcome (list Z) :=
  buffer ← hex_digits digits (replicate (digits + 2) 48) (Z.of_nat (digits + 2) - 1) value;
  buffer ← slot_set buffer 0 48;
  slot_set buffer 1 120.

Definition u64_to_hex_bytes (value : Z) : outcome (list Z) := hex_bytes 16 value.
Definition u32_to_hex_bytes (value : Z) : outcome (list Z) := hex_bytes 8 value.

(** [while value > 0 { i -= 1; buffer[i] = b'0' + value % 10; value /= 10 }];
    one round per digit of a [u64]. *)
Fixpoint dec_digits (fuel : nat) (buffer : list Z) (i value : Z) : outcome (list Z * Z) :=
  match fuel with
  | O => OutOfFuel
  | S fuel =>
      if 0 <? value then
        let i := i ⊟ 1 in
        buffer ← slot_set buffer i (u8 (48 + value mod 10));
        dec_digits fuel buffer i (value / 10)
      else Done (buffer, i)
  end.

(** [from_utf8(&buffer[i..]).unwrap()] *)
Definition str_from (buffer : list Z) (i : nat) : outcome (list Z) :=
  expect "called `Result::unwrap()` on an `Err` value" (from_utf8 (drop i buffer)).

Definition dec_str (size : nat) (value : Z) (buffer : list Z) : outcome (list Z) :=
  if value =? 0 then
    buffer ← slot_set buffer (Z.of_nat size - 1) 48;
    str_from buffer (size - 1)
  else
    '(buffer, i) ← dec_digits 21 buffer (Z.of_nat size) value;
    str_from buffer (Z.to_nat i).

Definition u32_to_dec_str (value : Z) (buffer : list Z) : outcome (list Z) := dec_str 10 value buffer.
Definition u64_to_dec_str (value : Z) (buffer : list Z) : outcome (list Z) := dec_str 20 value buffer.

(** ** Hexadecimal *)

Definition hex_pair (byte : Z) : list Z :=
  [hex_char (Z.shiftr byte 4); hex_char (Z.land byte 0xF)].

Definition bytes_to_hex (bytes : list Z) : list Z := [48; 120] ++ (bytes ≫= hex_pair).

Definition hex_nibble (byte : Z) : option Z :=
  if (48 <=? byte) && (byte <=? 57) then Some (byte - 48)
  else if (97 <=? byte) && (byte <=? 102) then Some (byte - 97 + 10)
  else if (65 <=? byte) && (byte <=? 70) then Some (byte - 65 + 10)
  else None.

(** The two-character loop. *)
Fixpoint hex_pairs (cs : list Z) : option (list Z) :=
  match cs with
  | h :: l :: cs =>
      high ← hex_nibble h;
      low ← hex_nibble l;
      rest ← hex_pairs cs;
      Some (Z.lor (u8 (Z.shiftl high 4)) low :: rest)
  | [_] => None
  | [] => Some []
  end.

Definition strip_prefix (hex : list Z) : list Z :=
  match hex with
  | 48 :: x :: rest => if (x =? 120) || (x =? 88) then rest else hex
  | _ => hex
  end.

Definition hex_to_bytes (hex : list Z) : option (list Z) :=
  let hex := strip_prefix hex in
  match hex with
  | [] => None
  | c :: cs =>
      if Z.of_nat (length hex) mod 2 =? 0 then hex_pairs hex
      else
        first ← hex_nibble c;
        rest ← hex_pairs cs;
        Some (first :: rest)
  end.

(** ** Base64 *)

Fixpoint base64_encode_unpadded (input : list Z) : list Z :=
  match input with
  | x :: y :: z :: rest =>
      let n := Z.lor (Z.lor (Z.shiftl x 16) (Z.shiftl y 8)) z in
      base64_char (Z.shiftr n 18) :: base64_char (Z.shiftr n 12) ::
      base64_char (Z.shiftr n 6) :: base64_char n :: base64_encode_unpadded rest
  | [x; y] =>
      let n := Z.lor (Z.shiftl x 16) (Z.shiftl y 8) in
      [base64_char (Z.shiftr n 18); base64_char (Z.shiftr n 12); base64_char (Z.shiftr n 6)]
  | [x] =>
      let n := Z.shiftl x 16 in
      [base64_char (Z.shiftr n 18); base64_char (Z.shiftr n 12)]
  | [] => []
  end.

Definition base64_encode (input : list Z) : list Z :=
  let result := base64_encode_unpadded input in
  let remainder := (length result mod 4)%nat in
  if (remainder =? 0)%nat then result else result ++ replicate (4 - remainder) 61.

Definition base64_val (byte : Z) : option Z :=
  if (65 <=? byte) && (byte <=? 90) then Some (byte - 65)
  else if (97 <=? byte) && (byte <=? 122) then Some (byte - 97 + 26)
  else if (48 <=? byte) && (byte <=? 57) then Some (byte - 48 + 52)
  else if byte =? 43 then Some 62
  else if byte =? 47 then Some 63
  else None.

(** [input.trim_end_matches('=')] *)
Fixpoint trim_end_matches (c : Z) (l : list Z) : list Z :=
  match l with
  | [] => []
  | x :: l' =>
      match trim_end_matches c l' with
      | [] => if x =? c then [] else [x]
      | r => x :: r
      end
  end.

Fixpoint base64_groups (bytes : list Z) : option (list Z) :=
  match bytes with
  | p :: q :: r :: s :: rest =>
      a ← base64_val p;
      b ← base64_val q;
      c ← base64_val r;
      d ← base64_val s;
      let n := Z.lor (Z.lor (Z.lor (Z.shiftl a 18) (Z.shiftl b 12)) (Z.shiftl c 6)) d in
      more ← base64_groups rest;
      Some (u8 (Z.shiftr n 16) :: u8 (Z.shiftr n 8) :: u8 n :: more)
  | [p; q; r] =>
      a ← base64_val p;
      b ← base64_val q;
      c ← base64_val r;
      let n := Z.lor (Z.lor (Z.shiftl a 18) (Z.shiftl b 12)) (Z.shiftl c 6) in
      Some [u8 (Z.shiftr n 16); u8 (Z.shiftr n 8)]
  | [p; q] =>
      a ← base64_val p;
      b ← base64_val q;
      let n := Z.lor (Z.shiftl a 18) (Z.shiftl b 12) in
      Some [u8 (Z.shiftr n 16)]
  | [_] => None
  | [] => Some []
  end.

Definition base64_decode (input : list Z) : option (list Z) :=
  base64_groups (trim_end_matches 61 input).

Example base64_examples :
  base64_encode (bytes_of "foob") = bytes_of "Zm9vYg==" ∧
  base64_encode_unpadded (bytes_of "foobar") = bytes_of "Zm9vYmFy" ∧
  base64_decode (bytes_of "Zm9vYmE=") = Some (bytes_of "fooba") ∧
  base64_decode (bytes_of "Zm9vYmE========") = Some (bytes_of "fooba") ∧
  base64_decode (bytes_of "Zm9v YmE") = None ∧
  hex_to_bytes (bytes_of "0xabc") = Some [0x0A; 0xBC] ∧
  bytes_to_hex [0xDE; 0xAD] = bytes_of "0xDEAD" ∧
  u64_to_dec_str 18446744073709551615 (replicate 20 0) = Done (bytes_of "18446744073709551615") ∧
  u64_to_hex_bytes 0xBEEF = Done (bytes_of "0x000000000000BEEF").
Proof. vm_compute. repeat split; reflexivity. Qed.

(** ** Nibbles and sextets *)

Lemma hex_nibble_char v : 0 ≤ v < 16 → hex_nibble (hex_char v) = Some v.
Proof.
  intros Hv. refine (bool_decide_eq_true_1 _ _).
  exact (forall_below 16 (λ v, bool_decide (hex_nibble (hex_char v) = Some v)) eq_refl v Hv).
Qed.

Definition is_sextet_char (v c : Z) : Prop := base64_val c = Some v ∧ c ≠ 61.

Lemma base64_val_char v : 0 ≤ v < 64 → is_sextet_char v (nth (Z.to_nat v) BASE64_CHARS 0).
Proof.
  intros Hv. refine (bool_decide_eq_true_1 (_ ∧ _) _).
  exact (forall_below 64 (λ v, bool_decide (base64_val (nth (Z.to_nat v) BASE64_CHARS 0) = Some v ∧
    nth (Z.to_nat v) BASE64_CHARS 0 ≠ 61)) eq_refl v Hv).
Qed.

Lemma base64_char_ok n : 0 ≤ n → is_sextet_char (n mod 64) (base64_char n).
Proof.
  intros Hn. unfold base64_char. change 0x3F with (Z.ones 6). rewrite Z.land_ones by lia.
  apply base64_val_char. pose proof (Z.mod_pos_bound n 64). change (2 ^ 6) with 64. lia.
Qed.

Lemma pack3 x y z :
  byte_ok x → byte_ok y → byte_ok z →
  Z.lor (Z.lor (Z.shiftl x 16) (Z.shiftl y 8)) z = x * 65536 + y * 256 + z.
Proof.
  unfold byte_ok. intros. rewrite (Z.shiftl_mul_pow2 y) by lia.
  rewrite lor_shiftl by lia.
  replace (x * 2 ^ 16 + y * 2 ^ 8) with ((x * 256 + y) * 2 ^ 8) by lia.
  rewrite (lor_aligned _ z 8) by (lia || apply Z.mod_mul; lia). lia.
Qed.

Lemma pack4 a b c d :
  0 ≤ a < 64 → 0 ≤ b < 64 → 0 ≤ c < 64 → 0 ≤ d < 64 →
  Z.lor (Z.lor (Z.lor (Z.shiftl a 18) (Z.shiftl b 12)) (Z.shiftl c 6)) d =
    a * 262144 + b * 4096 + c * 64 + d.
Proof.
  intros. rewrite (Z.shiftl_mul_pow2 b), (Z.shiftl_mul_pow2 c) by lia. rewrite lor_shiftl by lia.
  replace (a * 2 ^ 18 + b * 2 ^ 12) with ((a * 64 + b) * 2 ^ 12) by lia.
  rewrite (lor_aligned _ (c * 2 ^ 6) 12) by (lia || apply Z.mod_mul; lia).
  replace ((a * 64 + b) * 2 ^ 12 + c * 2 ^ 6) with ((a * 4096 + b * 64 + c) * 2 ^ 6) by lia.
  rewrite (lor_aligned _ d 6) by (lia || apply Z.mod_mul; lia). lia.
Qed.

(** The four sextets of a 24-bit number give it back. *)
Lemma sextets n :
  0 ≤ n < 16777216 →
  Z.lor (Z.lor (Z.lor (Z.shiftl (Z.shiftr n 18 mod 64) 18) (Z.shiftl (Z.shiftr n 12 mod 64) 12))
    (Z.shiftl (Z.shiftr n 6 mod 64) 6)) (n mod 64) = n.
Proof.
  intros Hn. rewrite !Z.shiftr_div_pow2 by lia.
  change (2 ^ 18) with 262144. change (2 ^ 12) with 4096. change (2 ^ 6) with 64.
  rewrite pack4 by (apply Z.mod_pos_bound; lia). Z.to_euclidean_division_equations; lia.
Qed.

Lemma u8_shiftr n k : 0 ≤ k → u8 (Z.shiftr n k) = n / 2 ^ k mod 256.
Proof. intros. unfold u8. by rewrite Z.shiftr_div_pow2. Qed.

Lemma three_bytes x y z n :
  byte_ok x → byte_ok y → byte_ok z → n = x * 65536 + y * 256 + z →
  u8 (Z.shiftr n 16) = x ∧ u8 (Z.shiftr n 8) = y ∧ u8 n = z.
Proof.
  unfold byte_ok. intros Hx Hy Hz ->. rewrite !u8_shiftr by lia.
  change (2 ^ 16) with 65536. change (2 ^ 8) with 256. unfold u8.
  Z.to_euclidean_division_equations; lia.
Qed.

(** Induction in steps of three elements. *)
Lemma list_ind3 {A} (P : list A → Prop) :
  P [] → (∀ x, P [x]) → (∀ x y, P [x; y]) → (∀ x y z l, P l → P (x :: y :: z :: l)) → ∀ l, P l.
Proof.
  intros H0 H1 H2 H3. fix IH 1. intros [|x [|y [|z l]]]; [done|done|done|]. apply H3, IH.
Qed.

(** A character of the alphabet, which padding is not. *)
Definition plain_char (c : Z) : Prop := is_Some (base64_val c) ∧ c ≠ 61.

Lemma base64_plain l : Forall byte_ok l → Forall plain_char (base64_encode_unpadded l).
Proof.
  assert (Hc : ∀ n, 0 ≤ n → plain_char (base64_char n)).
  { intros n Hn. destruct (base64_char_ok n Hn). split; eauto. }
  assert (Hs : ∀ a k, 0 ≤ a → 0 ≤ Z.shiftr a k) by (intros; by apply Z.shiftr_nonneg).
  assert (Hl : ∀ a k, 0 ≤ a → 0 ≤ Z.shiftl a k) by (intros; by apply Z.shiftl_nonneg).
  assert (Ho : ∀ a b, 0 ≤ a → 0 ≤ b → 0 ≤ Z.lor a b) by (intros; by apply Z.lor_nonneg).
  induction l as [|x|x y|x y z l IH] using list_ind3; intros Hb; cbn [base64_encode_unpadded].
  - by apply Forall_nil.
  - apply Forall_cons in Hb as [[] _]. repeat (apply Forall_cons; split); auto 10 using Forall_nil_2.
  - apply Forall_cons in Hb as [[] Hb]. apply Forall_cons in Hb as [[] _].
    repeat (apply Forall_cons; split); auto 10 using Forall_nil_2.
  - apply Forall_cons in Hb as [[] Hb]. apply Forall_cons in Hb as [[] Hb]. apply Forall_cons in Hb as [[] Hb].
    repeat (apply Forall_cons; split); auto 10 using Forall_nil_2.
Qed.

Lemma trim_end_padding l k : Forall plain_char l → trim_end_matches 61 (l ++ replicate k 61) = l.
Proof.
  intros Hl. assert (Hk : trim_end_matches 61 (replicate k 61) = []).
  { induction k as [|k IH]; [done|]. cbn. by rewrite IH. }
  induction Hl as [|x l Hx Hl IH]; [done|]. cbn. rewrite IH. destruct l; [|done].
  by rewrite (proj2 (Z.eqb_neq x 61) (proj2 Hx)).
Qed.

Lemma base64_groups_ok l : Forall byte_ok l → base64_groups (base64_encode_unpadded l) = Some l.
Proof.
  induction l as [|x|x y|x y z l IH] using list_ind3; intros Hb; [done| | |].
  - apply Forall_cons in Hb as [Hx _]. cbn [base64_encode_unpadded base64_groups].
    rewrite Z.shiftl_mul_pow2 by lia. set (n := x * 2 ^ 16).
    assert (Hn : 0 ≤ n < 16777216) by (unfold byte_ok in Hx; unfold n; lia).
    destruct (base64_char_ok (Z.shiftr n 18)) as [-> _]; [apply Z.shiftr_nonneg; lia|].
    destruct (base64_char_ok (Z.shiftr n 12)) as [-> _]; [apply Z.shiftr_nonneg; lia|]. cbn [mbind option_bind].
    pose proof (sextets n Hn) as Hs.
    replace (Z.shiftr n 6 mod 64) with 0 in Hs
      by (rewrite Z.shiftr_div_pow2 by lia; unfold n; change (2 ^ 6) with 64; change (2 ^ 16) with 65536;
          Z.to_euclidean_division_equations; lia).
    replace (n mod 64) with 0 in Hs by (unfold n; change (2 ^ 16) with 65536; Z.to_euclidean_division_equations; lia).
    rewrite Z.shiftl_0_l, !Z.lor_0_r in Hs. rewrite Hs.
    destruct (three_bytes x 0 0 n) as [-> _]; try done; unfold n; lia.
  - apply Forall_cons in Hb as [Hx Hb]. apply Forall_cons in Hb as [Hy _]. cbn [base64_encode_unpadded base64_groups].
    pose proof (pack3 x y 0 Hx Hy ltac:(by unfold byte_ok)) as Hp. rewrite Z.lor_0_r in Hp. rewrite Hp.
    set (n := x * 65536 + y * 256 + 0).
    assert (Hn : 0 ≤ n < 16777216) by (unfold byte_ok in *; unfold n; lia).
    destruct (base64_char_ok (Z.shiftr n 18)) as [-> _]; [apply Z.shiftr_nonneg; lia|].
    destruct (base64_char_ok (Z.shiftr n 12)) as [-> _]; [apply Z.shiftr_nonneg; lia|].
    destruct (base64_char_ok (Z.shiftr n 6)) as [-> _]; [apply Z.shiftr_nonneg; lia|]. cbn [mbind option_bind].
    pose proof (sextets n Hn) as Hs.
    replace (n mod 64) with 0 in Hs by (unfold n; Z.to_euclidean_division_equations; lia).
    rewrite !Z.lor_0_r in Hs. rewrite Hs.
    destruct (three_bytes x y 0 n) as (-> & -> & _); try done.
  - apply Forall_cons in Hb as [Hx Hb]. apply Forall_cons in Hb as [Hy Hb]. apply Forall_cons in Hb as [Hz Hb].
    cbn [base64_encode_unpadded base64_groups]. rewrite pack3 by done.
    set (n := x * 65536 + y * 256 + z).
    assert (Hn : 0 ≤ n < 16777216) by (unfold byte_ok in *; unfold n; lia).
    destruct (base64_char_ok (Z.shiftr n 18)) as [-> _]; [apply Z.shiftr_nonneg; lia|].
    destruct (base64_char_ok (Z.shiftr n 12)) as [-> _]; [apply Z.shiftr_nonneg; lia|].
    destruct (base64_char_ok (Z.shiftr n 6)) as [-> _]; [apply Z.shiftr_nonneg; lia|].
    destruct (base64_char_ok n) as [-> _]; [lia|]. cbn [mbind option_bind].
    rewrite IH by done. rewrite sextets by done. cbn [mbind option_bind].
    by destruct (three_bytes x y z n) as (-> & -> & ->).
Qed.

Lemma base64_decode_padded l k : Forall byte_ok l → base64_decode (base64_encode_unpadded l ++ replicate k 61) = Some l.
Proof. intros Hb. unfold base64_decode. rewrite trim_end_padding by by apply base64_plain. by apply base64_groups_ok. Qed.

(** The encoder appends some number of padding characters. *)
Lemma base64_encode_padded l : ∃ k, base64_encode l = base64_encode_unpadded l ++ replicate k 61.
Proof. unfold base64_encode. destruct (_ =? 0)%nat; [exists 0%nat; by rewrite app_nil_r | by eexists]. Qed.

Lemma base64_decode_encode l : Forall byte_ok l → base64_decode (base64_encode l) = Some l.
Proof. intros Hb. destruct (base64_encode_padded l) as [k ->]. by apply base64_decode_padded. Qed.

(** Base64 round trip: for every byte string, decoding the padded or the
    unpadded encoding gives the string back, and so does decoding with any
    number of extra padding characters. *)
Theorem base64_roundtrip (l : list Z) :
  Forall byte_ok l →
  base64_decode (base64_encode l) = Some l ∧
  base64_decode (base64_encode_unpadded l) = Some l ∧
  ∀ k, base64_decode (base64_encode_unpadded l ++ replicate k 61) = Some l.
Proof.
  intros Hb. split; [by apply base64_decode_encode|]. split; [|by intros k; apply base64_decode_padded].
  rewrite <- (app_nil_r (base64_encode_unpadded l)). by apply (base64_decode_padded l 0).
Qed.

Lemma base64_roundtrip_witness :
  base64_decode (base64_encode [0; 255; 16; 131]) = Some [0; 255; 16; 131] ∧
  base64_decode (base64_encode_unpadded [0; 255; 16; 131]) = Some [0; 255; 16; 131] ∧
  ∀ k, base64_decode (base64_encode_unpadded [0; 255; 16; 131] ++ replicate k 61) = Some [0; 255; 16; 131].
Proof.
  apply (base64_roundtrip [0; 255; 16; 131]).
  repeat (apply Forall_cons; split; [unfold byte_ok; lia|]). apply Forall_nil. exact I.
Defined.

(** ** Hexadecimal strings *)

Lemma nibbles b : byte_ok b → 0 ≤ Z.shiftr b 4 < 16 ∧ 0 ≤ Z.land b 0xF < 16 ∧
  Z.lor (u8 (Z.shiftl (Z.shiftr b 4) 4)) (Z.land b 0xF) = b.
Proof.
  unfold byte_ok. intros Hb. change 0xF with (Z.ones 4). rewrite Z.land_ones, Z.shiftr_div_pow2 by lia.
  change (2 ^ 4) with 16. assert (Hq : 0 ≤ b / 16 < 16) by (Z.to_euclidean_division_equations; lia).
  assert (Hr : 0 ≤ b mod 16 < 16) by (apply Z.mod_pos_bound; lia). split_and!; try lia.
  unfold u8. rewrite Z.mod_small by (rewrite Z.shiftl_mul_pow2 by lia; lia).
  rewrite lor_shiftl by lia. Z.to_euclidean_division_equations; lia.
Qed.

Lemma hex_pairs_ok bs : Forall byte_ok bs → hex_pairs (bs ≫= hex_pair) = Some bs.
Proof.
  induction 1 as [|b bs Hb _ IH]; [done|]. rewrite bind_cons. unfold hex_pair at 1.
  destruct (nibbles b Hb) as (Hh & Hl & He). cbn [app hex_pairs].
  rewrite !hex_nibble_char by done. cbn [mbind option_bind]. rewrite IH. cbn [mbind option_bind].
  by rewrite He.
Qed.

Lemma hex_pairs_even bs : Z.of_nat (length (bs ≫= hex_pair)) mod 2 = 0.
Proof.
  replace (length (bs ≫= hex_pair)) with (2 * length bs)%nat.
  - rewrite Nat2Z.inj_mul, Z.mul_comm. apply Z.mod_mul. lia.
  - induction bs as [|b bs IH]; [done|]. rewrite bind_cons, length_app, <- IH. cbn. lia.
Qed.

(** Hexadecimal round trip: decoding the hexadecimal string of a byte
    string gives it back; the empty byte string, whose encoding is the bare
    prefix, is the one that the decoder refuses. *)
Theorem hex_roundtrip (bs : list Z) :
  Forall byte_ok bs →
  hex_to_bytes (bytes_to_hex bs) = (if decide (bs = []) then None else Some bs).
Proof.
  intros Hb. unfold bytes_to_hex, hex_to_bytes. cbn [app strip_prefix].
  change ((120 =? 120) || (120 =? 88)) with true. cbn match.
  pose proof (hex_pairs_ok bs Hb) as Hp. pose proof (hex_pairs_even bs) as He.
  destruct bs as [|b bs]; [done|]. rewrite decide_False by done.
  remember ((b :: bs) ≫= hex_pair) as cs eqn:Hcs. destruct cs as [|c cs]; [done|].
  by rewrite He.
Qed.

Lemma hex_roundtrip_witness :
  hex_to_bytes (bytes_to_hex [0xDE; 0xAD; 0]) =
    (if decide ([0xDE; 0xAD; 0] = []) then None else Some [0xDE; 0xAD; 0]).
Proof.
  apply (hex_roundtrip [0xDE; 0xAD; 0]).
  repeat (apply Forall_cons; split; [unfold byte_ok; lia|]). apply Forall_nil. exact I.
Defined.

(** ** Formatting of numbers *)

(** The number a string of decimal digits denotes. *)
Definition dec_value (cs : list Z) : Z := foldl (λ a c, a * 10 + (c - 48)) 0 cs.

Definition digit_char (c : Z) : Prop := 48 ≤ c ≤ 57.

(** A decimal numeral: digits only, no leading zero. *)
Definition numeral (cs : list Z) : Prop := Forall digit_char cs ∧ head cs ≠ Some 48.

Lemma dec_value_snoc cs c : dec_value (cs ++ [c]) = dec_value cs * 10 + (c - 48).
Proof. unfold dec_value. by rewrite foldl_app. Qed.

Lemma numeral_snoc ds v :
  numeral ds → dec_value ds = v / 10 → 0 < v → numeral (ds ++ [48 + v mod 10]).
Proof.
  intros [Hd Hh] Hv Hpos. pose proof (Z.mod_pos_bound v 10 ltac:(lia)). split.
  - apply Forall_app. split; [done|]. apply Forall_singleton. unfold digit_char. lia.
  - destruct ds as [|d ds]; [|done]. cbn in *. intros [= H0].
    assert (v = 10 * (v / 10) + v mod 10) by (apply Z.div_mod; lia). lia.
Qed.

Lemma dec_digits_ok (n : nat) fuel buf i v :
  0 ≤ v < 10 ^ Z.of_nat n → (n < fuel)%nat → Z.of_nat n ≤ i ≤ Z.of_nat (length buf) → i < W64 →
  ∃ buf' ds, dec_digits fuel buf i v = Done (buf', i - Z.of_nat (length ds)) ∧
    0 ≤ i - Z.of_nat (length ds) ∧ length buf' = length buf ∧ (length ds ≤ n)%nat ∧
    drop (Z.to_nat (i - Z.of_nat (length ds))) buf' = ds ++ drop (Z.to_nat i) buf ∧
    dec_value ds = v ∧ numeral ds.
Proof.
  revert n buf i v. induction fuel as [|fuel IH]; intros n buf i v Hv Hn Hi Hw; [lia|].
  cbn [dec_digits]. destruct (Z.ltb_spec 0 v) as [Hpos|Hz]; cycle 1.
  { exists buf, []. cbn [length]. rewrite Z.sub_0_r. replace v with 0 by lia.
    split_and!; done || lia. }
  destruct n as [|n]; [cbn in Hv; lia|]. rewrite u64_small by lia.
  pose proof (Z.mod_pos_bound v 10 ltac:(lia)).
  replace (u8 (48 + v mod 10)) with (48 + v mod 10) by (symmetry; apply Z.mod_small; lia).
  rewrite slot_set_ok by lia. cbn [mbind outcome_bind].
  set (buf1 := <[Z.to_nat (i - 1):=48 + v mod 10]> buf).
  destruct (IH n buf1 (i - 1) (v / 10)) as (buf' & ds & Hrun & Hpos' & Hlen & Hds & Hdrop & Hval & Hnum).
  { rewrite Nat2Z.inj_succ, Z.pow_succ_r in Hv by lia. split; [apply Z.div_pos; lia|].
    apply Z.div_lt_upper_bound; lia. }
  { lia. } { unfold buf1. rewrite length_insert. lia. } { lia. }
  exists buf', (ds ++ [48 + v mod 10]). rewrite length_app. cbn [length].
  replace (i - Z.of_nat (length ds + 1)) with (i - 1 - Z.of_nat (length ds)) by lia.
  split_and!; try done; try lia.
  - rewrite Hlen. apply length_insert.
  - rewrite Hdrop, <- app_assoc. f_equal. unfold buf1.
    rewrite (drop_S (<[Z.to_nat (i - 1):=48 + v mod 10]> buf) (48 + v mod 10)) by (apply list_lookup_insert_eq; lia).
    cbn [app]. f_equal. replace (S (Z.to_nat (i - 1))) with (Z.to_nat i) by lia.
    apply drop_insert_lt. lia.
  - rewrite dec_value_snoc, Hval. assert (v = 10 * (v / 10) + v mod 10) by (apply Z.div_mod; lia). lia.
  - by apply numeral_snoc.
Qed.

Lemma digits_ascii ds : Forall digit_char ds → Forall ascii ds.
Proof. intros H. eapply Forall_impl; [exact H|]. unfold digit_char, ascii. lia. Qed.

Lemma str_from_digits buf i ds : drop i buf = ds → Forall digit_char ds → str_from buf i = Done ds.
Proof. intros E H. unfold str_from. rewrite E, from_utf8_ascii; [done|by apply digits_ascii]. Qed.

Lemma dec_str_ok (size : nat) v buf :
  (0 < size ≤ 20)%nat → length buf = size → 0 ≤ v < 10 ^ Z.of_nat size →
  ∃ s, dec_str size v buf = Done s ∧ (0 < length s ≤ size)%nat ∧ dec_value s = v ∧
    Forall digit_char s ∧ (v ≠ 0 → head s ≠ Some 48).
Proof.
  intros Hs Hb Hv. unfold dec_str. destruct (Z.eqb_spec v 0) as [->|Hne].
  - rewrite slot_set_ok by lia. cbn [mbind outcome_bind].
    replace (Z.to_nat (Z.of_nat size - 1)) with (size - 1)%nat by lia.
    assert (Forall digit_char [48]) as Hd by (apply Forall_singleton; unfold digit_char; lia).
    exists [48]. split; [|split_and!; cbn; (done || lia)]. apply str_from_digits; [|done].
    rewrite (drop_S _ 48) by (apply list_lookup_insert_eq; lia).
    by rewrite drop_insert_lt, drop_ge by lia.
  - destruct (dec_digits_ok size 21 buf (Z.of_nat size) v) as
      (buf' & ds & -> & Hpos & Hlen & Hds & Hdrop & Hval & Hdig & Hh); [lia..|unfold W64; lia|].
    cbn [mbind outcome_bind]. exists ds. rewrite (drop_ge buf), app_nil_r in Hdrop by lia.
    rewrite (str_from_digits _ _ ds) by done. split_and!; try done. destruct ds; [cbn in Hval; lia|cbn; lia].
Qed.

Lemma byte_hex_pair v : 0 ≤ v →
  hex_pair (v mod 256) = [hex_char (Z.land (Z.shiftr v 4) 0xF); hex_char (Z.land v 0xF)].
Proof.
  intros Hv. unfold hex_pair. change 0xF with (Z.ones 4).
  rewrite !Z.land_ones, !Z.shiftr_div_pow2 by lia. change (2 ^ 4) with 16.
  replace (v mod 256 / 16) with (v / 16 mod 16) by (Z.to_euclidean_division_equations; lia).
  by replace (v mod 256 mod 16) with (v mod 16) by (Z.to_euclidean_division_equations; lia).
Qed.

(** Two rounds of the digit loop write one byte. *)
Lemma hex_digits_ok n buf i v :
  0 ≤ v → 2 * Z.of_nat n ≤ i + 1 → 0 ≤ i < Z.of_nat (length buf) → i < W64 →
  hex_digits (2 * n) buf i v =
    Done (take (Z.to_nat (i + 1 - 2 * Z.of_nat n)) buf ++ (be_bytes n v ≫= hex_pair) ++
          drop (Z.to_nat (i + 1)) buf).
Proof.
  revert buf i v. induction n as [|n IH]; intros buf i v Hv Hn Hi Hw.
  { cbn. rewrite Z.sub_0_r. by rewrite take_drop. }
  replace (2 * S n)%nat with (S (S (2 * n))) by lia. cbn [hex_digits].
  rewrite slot_set_ok by lia. cbn [mbind outcome_bind]. rewrite !(u64_small (i - 1)) by lia.
  rewrite slot_set_ok by (rewrite length_insert; lia). cbn [mbind outcome_bind be_bytes].
  rewrite bind_app, bind_cons. change ([] ≫= hex_pair) with (@nil Z). rewrite app_nil_r, byte_hex_pair by done.
  set (buf2 := <[_:=_]> (<[_:=_]> buf)).
  assert (Hlen : length buf2 = length buf) by (unfold buf2; by rewrite !length_insert).
  assert (Hd : drop (Z.to_nat (i - 1)) buf2 =
    [hex_char (Z.land (Z.shiftr v 4) 0xF); hex_char (Z.land v 0xF)] ++ drop (Z.to_nat (i + 1)) buf).
  { unfold buf2. rewrite (drop_S _ (hex_char (Z.land (Z.shiftr v 4) 0xF))) by (apply list_lookup_insert_eq; rewrite length_insert; lia).
    rewrite drop_insert_lt by lia. replace (S (Z.to_nat (i - 1))) with (Z.to_nat i) by lia.
    rewrite (drop_S _ (hex_char (Z.land v 0xF))) by (apply list_lookup_insert_eq; lia).
    rewrite drop_insert_lt by lia. by replace (S (Z.to_nat i)) with (Z.to_nat (i + 1)) by lia. }
  destruct (decide (n = 0%nat)) as [->|Hn0].
  { cbn [Nat.mul hex_digits be_bytes]. change ([] ≫= hex_pair) with (@nil Z). cbn [app].
    rewrite <- (take_drop (Z.to_nat (i - 1)) buf2) at 1. rewrite Hd. f_equal. f_equal.
    replace (Z.to_nat (i + 1 - 2 * Z.of_nat 1)) with (Z.to_nat (i - 1)) by lia.
    unfold buf2. by rewrite !take_insert_ge by lia. }
  replace (i - 1 ⊟ 1) with (i - 2) by (rewrite u64_small; lia).
  rewrite IH; [|apply Z.shiftr_nonneg, Z.shiftr_nonneg; lia|lia..].
  rewrite Z.shiftr_shiftr by lia. rewrite Z.shiftr_div_pow2 by lia. change (2 ^ (4 + 4)) with 256.
  replace (i - 2 + 1) with (i - 1) by lia. rewrite Hd. rewrite <- !app_assoc. f_equal. f_equal.
  replace (Z.to_nat (i - 1 - 2 * Z.of_nat n)) with (Z.to_nat (i + 1 - 2 * Z.of_nat (S n))) by lia.
  unfold buf2. by rewrite !take_insert_ge by lia.
Qed.

Lemma hex_bytes_ok n v : (0 < n ≤ 8)%nat → 0 ≤ v → hex_bytes (2 * n) v = Done (bytes_to_hex (be_bytes n v)).
Proof.
  intros Hn Hv. unfold hex_bytes. rewrite hex_digits_ok; rewrite ?length_replicate; try (unfold W64; lia).
  cbn [mbind outcome_bind]. replace (Z.to_nat _) with 2%nat by lia.
  rewrite drop_ge, app_nil_r by (rewrite length_replicate; lia).
  rewrite take_replicate, Nat.min_l by lia. done.
Qed.

(** What the decimal formatters return: a numeral of the value that fits the
    buffer. *)
Definition formats_dec (size : nat) (v : Z) (o : outcome (list Z)) : Prop :=
  ∃ s, o = Done s ∧ (0 < length s ≤ size)%nat ∧ dec_value s = v ∧
    Forall digit_char s ∧ (v ≠ 0 → head s ≠ Some 48).

(** Number formatting never indexes outside its buffer and is exact: the
    decimal string of every [u64] ([u32]) fits the 20-byte (10-byte) buffer,
    has only digits, no leading zero, and denotes the value, whatever the
    buffer held; the hexadecimal string is the encoding of the eight (four)
    big-endian bytes of the value. *)
Theorem number_formatting (v : Z) (buf : list Z) :
  (in_u64 v → length buf = 20%nat → formats_dec 20 v (u64_to_dec_str v buf)) ∧
  (0 ≤ v < 2 ^ 32 → length buf = 10%nat → formats_dec 10 v (u32_to_dec_str v buf)) ∧
  (in_u64 v → u64_to_hex_bytes v = Done (bytes_to_hex (be_bytes 8 v))) ∧
  (0 ≤ v < 2 ^ 32 → u32_to_hex_bytes v = Done (bytes_to_hex (be_bytes 4 v))).
Proof.
  unfold in_u64, W64. split_and!; intros Hv.
  - intros Hb. apply (dec_str_ok 20); [lia|done|]. change (10 ^ Z.of_nat 20) with 100000000000000000000. lia.
  - intros Hb. apply (dec_str_ok 10); [lia|done|]. change (10 ^ Z.of_nat 10) with 10000000000. lia.
  - apply (hex_bytes_ok 8); lia.
  - apply (hex_bytes_ok 4); lia.
Qed.

Lemma number_formatting_witness :
  formats_dec 20 40960 (u64_to_dec_str 40960 (replicate 20 7)) ∧
  formats_dec 10 40960 (u32_to_dec_str 40960 (replicate 10 7)).
Proof.
  split.
  - apply (proj1 (number_formatting 40960 (replicate 20 7))); [unfold in_u64, W64; lia|reflexivity].
  - apply (proj1 (proj2 (number_formatting 40960 (replicate 10 7)))); [lia|reflexivity].
Defined.

(** ** Typing *)

Lemma hex_char_ascii v : 0 ≤ v < 16 → ascii (hex_char v).
Proof.
  assert (∀ v, 0 ≤ v < 16 → bool_decide (0 ≤ hex_char v < 128) = true) as H by (apply (forall_below 16); vm_compute; reflexivity).
  intros Hv. exact (bool_decide_eq_true_1 _ (H v Hv)).
Qed.

Lemma bytes_to_hex_ascii bs : Forall byte_ok bs → Forall ascii (bytes_to_hex bs).
Proof.
  intros Hb. unfold bytes_to_hex. apply Forall_app. split; [repeat (apply Forall_cons; split; [by split|]); apply Forall_nil_2|].
  induction Hb as [|b bs Hb _ IH]; [constructor|]. rewrite bind_cons. apply Forall_app. split; [|done].
  destruct (nibbles b Hb) as (Hh & Hl & _). apply Forall_cons. split; [|apply Forall_singleton]; by apply hex_char_ascii.
Qed.

Lemma list_ind2 {A} (P : list A → Prop) :
  P [] → (∀ x, P [x]) → (∀ x y l, P l → P (x :: y :: l)) → ∀ l, P l.
Proof. intros H0 H1 H2. fix IH 1. intros [|x [|y l]]; [done|done|]. apply H2, IH. Qed.

Lemma list_ind4 {A} (P : list A → Prop) :
  P [] → (∀ x, P [x]) → (∀ x y, P [x; y]) → (∀ x y z, P [x; y; z]) →
  (∀ x y z w l, P l → P (x :: y :: z :: w :: l)) → ∀ l, P l.
Proof. intros H0 H1 H2 H3 H4. fix IH 1. intros [|x [|y [|z [|w l]]]]; [done|done|done|done|]. apply H4, IH. Qed.

(** ** The encodings as their standard has them *)

(** RFC 4648: text as groups of bits, most significant bit first. *)
Module Rfc4648.

Definition bits (w : nat) (n : Z) : list bool := (λ i, Z.testbit n (Z.of_nat i)) <$> rev (seq 0 w).
Definition value (bs : list bool) : Z := foldl (λ a b, 2 * a + Z.b2z b) 0 bs.

(** Six bits at a time, the last group filled up with zeros. *)
Fixpoint sextets (bs : list bool) : list Z :=
  match bs with
  | [] => []
  | b1 :: b2 :: b3 :: b4 :: b5 :: b6 :: bs => value [b1; b2; b3; b4; b5; b6] :: sextets bs
  | short => [value (take 6 (short ++ replicate 5 false))]
  end.

(** Eight bits at a time, an incomplete group dropped. *)
Fixpoint octets (bs : list bool) : list Z :=
  match bs with
  | b1 :: b2 :: b3 :: b4 :: b5 :: b6 :: b7 :: b8 :: bs => value [b1; b2; b3; b4; b5; b6; b7; b8] :: octets bs
  | _ => []
  end.

(** 4: the alphabet, and the padding to a multiple of four characters. *)
Definition alphabet : list Z := bytes_of "ABCDEFGHIJKLMNOPQRSTUVWXYZabcdefghijklmnopqrstuvwxyz0123456789+/".
Definition char (v : Z) : Z := nth (Z.to_nat v) alphabet 0.
Definition unpadded (bytes : list Z) : list Z := char <$> sextets (bytes ≫= bits 8).
Definition base64 (bytes : list Z) : list Z :=
  let text := unpadded bytes in text ++ replicate ((4 - length text mod 4) mod 4) 61.

(** 8: two digits for a byte. *)
Definition digit (v : Z) : Z := nth (Z.to_nat v) (bytes_of "0123456789ABCDEF") 0.
Definition base16 (bytes : list Z) : list Z := bytes ≫= λ b, [digit (b / 16); digit (b mod 16)].
Definition upper (c : Z) : Z := if (97 <=? c) && (c <=? 122) then c - 32 else c.

Example rfc4648_examples :
  base64 (bytes_of "foob") = bytes_of "Zm9vYg==" ∧ unpadded (bytes_of "fooba") = bytes_of "Zm9vYmE" ∧
  base16 (bytes_of "foobar") = bytes_of "666F6F626172" ∧ octets (bits 8 77 ++ bits 4 3) = [77].
Proof. vm_compute. repeat split; reflexivity. Qed.
End Rfc4648.

Section bits.
Import Rfc4648.

Lemma bits_S w n : bits (S w) n = Z.testbit n (Z.of_nat w) :: bits w n.
Proof. unfold bits. by rewrite seq_S, rev_app_distr. Qed.

Lemma bits_app w1 w2 n : bits (w1 + w2) n = bits w1 (Z.shiftr n (Z.of_nat w2)) ++ bits w2 n.
Proof.
  induction w1 as [|w1 IH]; [done|]. cbn [Nat.add]. rewrite !bits_S, IH. cbn [app]. f_equal.
  rewrite Z.shiftr_spec by lia. f_equal. lia.
Qed.

(** Only the low bits count. *)
Lemma bits_ext w n n' : n mod 2 ^ Z.of_nat w = n' mod 2 ^ Z.of_nat w → bits w n = bits w n'.
Proof.
  intros H. assert (∀ k, (k ≤ w)%nat → bits k n = bits k n') as Hk; [|by apply Hk].
  induction k as [|k IH]; intros Hk; [done|]. rewrite !bits_S, IH by lia. f_equal.
  rewrite <- (Z.mod_pow2_bits_low n (Z.of_nat w)), <- (Z.mod_pow2_bits_low n' (Z.of_nat w)) by lia. by rewrite H.
Qed.

Lemma value_snoc bs b : value (bs ++ [b]) = 2 * value bs + Z.b2z b.
Proof. unfold value. by rewrite foldl_app. Qed.

Lemma value_bits w n : value (bits w n) = n mod 2 ^ Z.of_nat w.
Proof.
  revert n. induction w as [|w IH]; intros n; [cbn; by rewrite Z.mod_1_r|].
  rewrite <- Nat.add_1_r, bits_app. rewrite bits_S. change (bits 0 n) with (@nil bool).
  rewrite value_snoc, IH, Z.shiftr_div_pow2 by lia. rewrite Z.testbit_spec' by lia.
  change (Z.of_nat 1) with 1. rewrite Z.pow_0_r, Z.div_1_r, Nat2Z.inj_add, Z.pow_add_r by lia.
  change (2 ^ Z.of_nat 1) with 2. change (2 ^ 1) with 2. rewrite (Z.mul_comm _ 2), Z.rem_mul_r by lia. lia.
Qed.

Lemma sextets_six n bs : sextets (bits 6 n ++ bs) = n mod 64 :: sextets bs.
Proof. change 64 with (2 ^ Z.of_nat 6). by rewrite <- value_bits. Qed.

Lemma octets_eight n bs : octets (bits 8 n ++ bs) = n mod 256 :: octets bs.
Proof. change 256 with (2 ^ Z.of_nat 8). by rewrite <- value_bits. Qed.
End bits.

(** ** The routines compute them *)

Section exact.
Import Rfc4648.

Lemma base64_char_spec n : 0 ≤ n → base64_char n = char (n mod 64).
Proof.
  intros Hn. unfold base64_char, char. change 0x3F with (Z.ones 6). by rewrite Z.land_ones by lia.
Qed.

Lemma bytes_bits2 x y : byte_ok x → byte_ok y → bits 8 x ++ bits 8 y = bits 16 (x * 256 + y).
Proof.
  intros Hx Hy. unfold byte_ok in *. rewrite (bits_app 8 8). rewrite Z.shiftr_div_pow2 by lia. change (2 ^ Z.of_nat 8) with 256.
  f_equal; apply bits_ext; change (2 ^ Z.of_nat 8) with 256; Z.to_euclidean_division_equations; lia.
Qed.

Lemma bytes_bits3 x y z : byte_ok x → byte_ok y → byte_ok z →
  bits 8 x ++ bits 8 y ++ bits 8 z = bits 24 (x * 65536 + y * 256 + z).
Proof.
  intros Hx Hy Hz. rewrite bytes_bits2 by done. unfold byte_ok in *. rewrite (bits_app 8 16).
  rewrite Z.shiftr_div_pow2 by lia. change (2 ^ Z.of_nat 16) with 65536.
  f_equal; apply bits_ext; [change (2 ^ Z.of_nat 8) with 256|change (2 ^ Z.of_nat 16) with 65536];
    Z.to_euclidean_division_equations; lia.
Qed.

(** Four sextets of three bytes. *)
Lemma bits_four n : bits 24 n = bits 6 (Z.shiftr n 18) ++ bits 6 (Z.shiftr n 12) ++ bits 6 (Z.shiftr n 6) ++ bits 6 n.
Proof. by rewrite (bits_app 6 18), (bits_app 6 12), (bits_app 6 6). Qed.

Lemma bits_three n : bits 24 n = bits 8 (Z.shiftr n 16) ++ bits 8 (Z.shiftr n 8) ++ bits 8 n.
Proof. by rewrite (bits_app 8 16), (bits_app 8 8). Qed.

Lemma base64_unpadded_spec bs : Forall byte_ok bs → base64_encode_unpadded bs = unpadded bs.
Proof.
  unfold unpadded. induction bs as [|x|x y|x y z bs IH] using list_ind3; intros Hb; [done|..].
  - apply Forall_cons in Hb as [Hb _]. cbn [base64_encode_unpadded]. rewrite Z.shiftl_mul_pow2 by lia. change (2 ^ 16) with 65536.
    set (n := x * 65536). assert (0 ≤ n) by (unfold byte_ok in *; subst n; lia).
    rewrite !base64_char_spec by (apply Z.shiftr_nonneg; lia).
    replace (sextets ([x] ≫= bits 8)) with (take 2 (sextets (bits 24 n ++ []))).
    { by rewrite bits_four, <- !app_assoc, !sextets_six. }
    rewrite app_nil_r. unfold n. replace (x * 65536) with (x * 65536 + 0 * 256 + 0) by lia.
    rewrite <- (bytes_bits3 x 0 0) by done. reflexivity.
  - apply Forall_cons in Hb as [Hx Hb]. apply Forall_cons in Hb as [Hy _]. cbn [base64_encode_unpadded].
    pose proof (pack3 x y 0 Hx Hy ltac:(done)) as Hp. rewrite Z.lor_0_r in Hp. rewrite Hp.
    set (n := x * 65536 + y * 256 + 0). assert (0 ≤ n) by (unfold byte_ok in *; subst n; lia).
    rewrite !base64_char_spec by (apply Z.shiftr_nonneg; lia).
    replace (sextets ([x; y] ≫= bits 8)) with (take 3 (sextets (bits 24 n ++ []))).
    { by rewrite bits_four, <- !app_assoc, !sextets_six. }
    rewrite app_nil_r. unfold n. rewrite <- (bytes_bits3 x y 0) by done. reflexivity.
  - apply Forall_cons in Hb as [Hx Hb]. apply Forall_cons in Hb as [Hy Hb]. apply Forall_cons in Hb as [Hz Hb].
    cbn [base64_encode_unpadded]. rewrite pack3 by done. set (n := x * 65536 + y * 256 + z).
    assert (0 ≤ n) by (unfold byte_ok in *; subst n; lia).
    rewrite !base64_char_spec by (lia || apply Z.shiftr_nonneg; lia).
    rewrite !bind_cons, (app_assoc (bits 8 x)), (app_assoc (bits 8 x ++ _)), <- (app_assoc (bits 8 x)), bytes_bits3 by done.
    fold n. rewrite bits_four, <- !app_assoc, !sextets_six. cbn [fmap list_fmap]. by rewrite IH.
Qed.

Lemma base64_encode_spec bs : Forall byte_ok bs → base64_encode bs = base64 bs.
Proof.
  intros Hb. unfold base64_encode, base64. rewrite base64_unpadded_spec by done. cbv zeta.
  pose proof (Nat.mod_upper_bound (length (unpadded bs)) 4 ltac:(lia)) as Hm.
  destruct (Nat.eqb_spec (length (unpadded bs) mod 4) 0) as [->|Hne]; [cbn; by rewrite app_nil_r|].
  by rewrite (Nat.mod_small (4 - _)) by lia.
Qed.

Lemma hex_pair_spec b : byte_ok b → hex_pair b = [digit (b / 16); digit (b mod 16)].
Proof.
  intros Hb. unfold hex_pair. change 0xF with (Z.ones 4). by rewrite Z.land_ones, Z.shiftr_div_pow2 by lia.
Qed.

Lemma hex_text_spec bs : Forall byte_ok bs → bs ≫= hex_pair = base16 bs.
Proof.
  unfold base16. induction 1 as [|b bs Hb _ IH]; [done|]. by rewrite !bind_cons, IH, hex_pair_spec.
Qed.

Lemma digit_spec v : 0 ≤ v < 16 → digit v = if v <? 10 then 48 + v else 55 + v.
Proof.
  intros Hv. apply Z.eqb_eq. revert v Hv. apply (forall_below 16 (λ v, digit v =? if v <? 10 then 48 + v else 55 + v)). vm_compute. reflexivity.
Qed.

Lemma hex_nibble_spec c v : hex_nibble c = Some v ↔ 0 ≤ v < 16 ∧ upper c = digit v.
Proof.
  unfold hex_nibble, upper. split.
  - repeat (case_match; [intros [= <-]; split; [lia|]; rewrite digit_spec by lia; repeat case_match; lia|]). done.
  - intros [Hv Hc]. rewrite digit_spec in Hc by done. repeat case_match; (f_equal; lia) || lia.
Qed.

Lemma nibble_join h l : 0 ≤ h < 16 → 0 ≤ l < 16 → Z.lor (u8 (Z.shiftl h 4)) l = 16 * h + l.
Proof.
  intros Hh Hl. unfold u8. rewrite Z.mod_small by (rewrite Z.shiftl_mul_pow2 by lia; lia).
  rewrite lor_shiftl by lia. lia.
Qed.

Lemma base16_cons b bs : base16 (b :: bs) = digit (b / 16) :: digit (b mod 16) :: base16 bs.
Proof. done. Qed.

Lemma byte_nibbles b : byte_ok b → 0 ≤ b / 16 < 16 ∧ 0 ≤ b mod 16 < 16.
Proof. unfold byte_ok. intros. Z.to_euclidean_division_equations; lia. Qed.

Lemma hex_pairs_spec cs out : hex_pairs cs = Some out ↔ Forall byte_ok out ∧ upper <$> cs = base16 out.
Proof.
  revert out. induction cs as [|c|h l cs IH] using list_ind2; intros out; cbn [hex_pairs].
  - split; [intros [= <-]; by split; [apply Forall_nil|]|]. intros [_ H]. by destruct out.
  - split; [done|]. intros [_ H]. by destruct out.
  - split.
    + intros (high & Hh%hex_nibble_spec & (low & Hl%hex_nibble_spec & (rest & [Hr Ht]%IH & [= <-])%bind_Some)%bind_Some)%bind_Some.
      destruct Hh as [Hh Eh], Hl as [Hl El]. rewrite nibble_join by done. split.
      { apply Forall_cons. split; [unfold byte_ok; lia|done]. }
      rewrite base16_cons. cbn [fmap list_fmap]. rewrite Eh, El, <- Ht.
      replace ((16 * high + low) / 16) with high by (Z.to_euclidean_division_equations; lia).
      by replace ((16 * high + low) mod 16) with low by (Z.to_euclidean_division_equations; lia).
    + intros [Hb H]. destruct out as [|b out]; [done|]. apply Forall_cons in Hb as [Hb Hout].
      rewrite base16_cons in H. injection H as Eh El Ht. destruct (byte_nibbles b Hb).
      rewrite (proj2 (hex_nibble_spec h (b / 16))) by done. rewrite (proj2 (hex_nibble_spec l (b mod 16))) by done.
      rewrite (proj2 (IH out)) by done. cbn [mbind option_bind]. rewrite nibble_join by done.
      f_equal. f_equal. symmetry. apply Z.div_mod. lia.
Qed.

Lemma base64_val_spec c v : base64_val c = Some v ↔ 0 ≤ v < 64 ∧ c = char v.
Proof.
  split.
  - intros H. assert (Hv : 0 ≤ v < 64) by (revert H; unfold base64_val; repeat (case_match; [intros [= <-]; lia|]); done).
    split; [done|]. destruct (base64_val_char v Hv) as [Hc _]. change (nth (Z.to_nat v) BASE64_CHARS 0) with (char v) in Hc.
    revert H Hc. generalize (char v). intros d. unfold base64_val.
    repeat case_match; intros Hcv Hdv; simplify_eq; lia.
  - intros [Hv ->]. apply (base64_val_char v Hv).
Qed.

Abbreviation sextet v := (0 ≤ v < 64).

Lemma base64_val_of v : sextet v → base64_val (char v) = Some v.
Proof. intros Hv. by apply base64_val_spec. Qed.

Lemma pack_bits2 a b : sextet a → sextet b →
  octets (bits 6 a ++ bits 6 b) = [u8 (Z.shiftr (Z.lor (Z.shiftl a 18) (Z.shiftl b 12)) 16)].
Proof.
  intros Ha Hb. pose proof (pack4 a b 0 0 Ha Hb ltac:(lia) ltac:(lia)) as Hp.
  rewrite Z.shiftl_0_l, !Z.lor_0_r in Hp. rewrite Hp. set (n := a * 262144 + b * 4096 + 0 * 64 + 0).
  replace (bits 6 a ++ bits 6 b) with (take 12 (bits 24 n)).
  { rewrite bits_three. exact (octets_eight (Z.shiftr n 16) (take 4 (bits 8 (Z.shiftr n 8)))). }
  rewrite bits_four. subst n. rewrite !Z.shiftr_div_pow2 by lia. rewrite (bits_ext 6 (_ / 2 ^ 18) a), (bits_ext 6 (_ / 2 ^ 12) b); [done|..];
    change (2 ^ Z.of_nat 6) with 64; Z.to_euclidean_division_equations; lia.
Qed.

Lemma pack_bits3 a b c : sextet a → sextet b → sextet c →
  let n := Z.lor (Z.lor (Z.shiftl a 18) (Z.shiftl b 12)) (Z.shiftl c 6) in
  octets (bits 6 a ++ bits 6 b ++ bits 6 c) = [u8 (Z.shiftr n 16); u8 (Z.shiftr n 8)].
Proof.
  intros Ha Hb Hc n. pose proof (pack4 a b c 0 Ha Hb Hc ltac:(lia)) as Hp. rewrite Z.lor_0_r in Hp. subst n.
  rewrite Hp. set (n := a * 262144 + b * 4096 + c * 64 + 0).
  replace (bits 6 a ++ bits 6 b ++ bits 6 c) with (take 18 (bits 24 n)).
  { rewrite bits_three. etransitivity; [exact (octets_eight (Z.shiftr n 16) (bits 8 (Z.shiftr n 8) ++ take 2 (bits 8 n)))|].
    by rewrite octets_eight. }
  rewrite bits_four. subst n. rewrite !Z.shiftr_div_pow2 by lia.
  rewrite (bits_ext 6 (_ / 2 ^ 18) a), (bits_ext 6 (_ / 2 ^ 12) b), (bits_ext 6 (_ / 2 ^ 6) c); [done|..];
    change (2 ^ Z.of_nat 6) with 64; Z.to_euclidean_division_equations; lia.
Qed.

Lemma pack_bits4 a b c d bs : sextet a → sextet b → sextet c → sextet d →
  let n := Z.lor (Z.lor (Z.lor (Z.shiftl a 18) (Z.shiftl b 12)) (Z.shiftl c 6)) d in
  octets (bits 6 a ++ bits 6 b ++ bits 6 c ++ bits 6 d ++ bs) =
    u8 (Z.shiftr n 16) :: u8 (Z.shiftr n 8) :: u8 n :: octets bs.
Proof.
  intros Ha Hb Hc Hd n. subst n. rewrite pack4 by done. set (n := a * 262144 + b * 4096 + c * 64 + d).
  unfold u8. rewrite <- !octets_eight, !app_assoc, <- (app_assoc (bits 8 _)), <- bits_three.
  f_equal. f_equal. rewrite <- !app_assoc, bits_four. subst n. rewrite !Z.shiftr_div_pow2 by lia.
  rewrite (bits_ext 6 (_ / 2 ^ 18) a), (bits_ext 6 (_ / 2 ^ 12) b), (bits_ext 6 (_ / 2 ^ 6) c), (bits_ext 6 (_ + d) d); [done|..];
    change (2 ^ Z.of_nat 6) with 64; Z.to_euclidean_division_equations; lia.
Qed.

(** What the decoder accepts: characters of the alphabet, not one more than a
    multiple of four. *)
Definition base64_denotes (sx out : list Z) : Prop :=
  Forall (λ v, sextet v) sx ∧ (length sx mod 4)%nat ≠ 1%nat ∧ out = octets (sx ≫= bits 6).

Lemma base64_denotes_four a b c d sx out : base64_denotes (a :: b :: c :: d :: sx) out ↔
  sextet a ∧ sextet b ∧ sextet c ∧ sextet d ∧ ∃ more, base64_denotes sx more ∧
    let n := Z.lor (Z.lor (Z.lor (Z.shiftl a 18) (Z.shiftl b 12)) (Z.shiftl c 6)) d in
    out = u8 (Z.shiftr n 16) :: u8 (Z.shiftr n 8) :: u8 n :: more.
Proof.
  unfold base64_denotes. rewrite !Forall_cons, !bind_cons. cbn [length].
  replace ((S (S (S (S (length sx))))) mod 4)%nat with (length sx mod 4)%nat
    by (replace (S (S (S (S (length sx))))) with (length sx + 1 * 4)%nat by lia; by rewrite Nat.Div0.mod_add).
  split.
  - intros ((Ha & Hb & Hc & Hd & Hs) & Hl & ->). rewrite pack_bits4 by done. split_and!; try lia. eauto 10.
  - intros (Ha & Hb & Hc & Hd & more & (Hs & Hl & ->) & ->). split_and!; try done || lia. by rewrite pack_bits4.
Qed.

Lemma base64_groups_spec cs out : base64_groups cs = Some out ↔ ∃ sx, cs = char <$> sx ∧ base64_denotes sx out.
Proof.
  revert out. induction cs as [|p|p q|p q r|p q r s cs IH] using list_ind4; intros out; cbn [base64_groups].
  - split; [intros [= <-]; exists []; by split; [|split; [apply Forall_nil|]]|]. intros ([|] & E & _ & _ & ->); done.
  - split; [done|]. intros ([|v [|]] & E & _ & Hl & _); done.
  - split.
    + intros (a & [Ha ->]%base64_val_spec & (b & [Hb ->]%base64_val_spec & [= <-])%bind_Some)%bind_Some.
      exists [a; b]. split; [done|]. split; [by rewrite !Forall_cons|]. split; [done|]. symmetry. by apply pack_bits2.
    + intros ([|a [|b [|]]] & E & Hs & _ & ->); try done. injection E as -> ->. rewrite !Forall_cons in Hs. destruct Hs as (Ha & Hb & _).
      rewrite !base64_val_of by done. cbn [mbind option_bind]. f_equal. symmetry. by apply pack_bits2.
  - split.
    + intros (a & [Ha ->]%base64_val_spec & (b & [Hb ->]%base64_val_spec & (c & [Hc ->]%base64_val_spec & [= <-])%bind_Some)%bind_Some)%bind_Some.
      exists [a; b; c]. split; [done|]. split; [by rewrite !Forall_cons|]. split; [done|]. symmetry. by apply pack_bits3.
    + intros ([|a [|b [|c [|]]]] & E & Hs & _ & ->); try done. injection E as -> -> ->.
      rewrite !Forall_cons in Hs. destruct Hs as (Ha & Hb & Hc & _).
      rewrite !base64_val_of by done. cbn [mbind option_bind]. f_equal. symmetry. by apply pack_bits3.
  - split.
    + intros (a & [Ha ->]%base64_val_spec & (b & [Hb ->]%base64_val_spec & (c & [Hc ->]%base64_val_spec &
        (d & [Hd ->]%base64_val_spec & (more & (sx & -> & D)%IH & [= <-])%bind_Some)%bind_Some)%bind_Some)%bind_Some)%bind_Some.
      exists (a :: b :: c :: d :: sx). split; [done|]. apply base64_denotes_four. eauto 10.
    + intros ([|a [|b [|c [|d sx]]]] & E & D); try done. injection E as -> -> -> -> ->.
      apply base64_denotes_four in D as (Ha & Hb & Hc & Hd & more & D & ->).
      rewrite !base64_val_of by done. cbn [mbind option_bind].
      by rewrite (proj2 (IH more)) by eauto.
Qed.

Lemma trim_end_split c l : ∃ k, l = trim_end_matches c l ++ replicate k c.
Proof.
  induction l as [|x l [k IH]]; [by exists 0%nat|]. cbn [trim_end_matches].
  destruct (trim_end_matches c l) as [|y r] eqn:E.
  - cbn [app] in IH. destruct (Z.eqb_spec x c) as [->|_]; [exists (S k); cbn; by rewrite IH|exists k; cbn; by rewrite IH].
  - exists k. cbn [app] in *. by rewrite <- IH.
Qed.

Lemma base64_decode_spec cs out :
  base64_decode cs = Some out ↔ ∃ sx k, cs = (char <$> sx) ++ replicate k 61 ∧ base64_denotes sx out.
Proof.
  unfold base64_decode. split.
  - intros (sx & E & D)%base64_groups_spec. destruct (trim_end_split 61 cs) as [k Hk]. rewrite E in Hk. eauto.
  - intros (sx & k & -> & D). rewrite trim_end_padding; [apply base64_groups_spec; eauto|].
    destruct D as [Hs _]. apply Forall_fmap. eapply Forall_impl; [exact Hs|]. intros v Hv.
    destruct (base64_val_char v Hv) as [Hc Hp]. split; [by eexists|done].
Qed.

(** What the decoder accepts after the prefix: the digits of at least one byte
    in either case, the first zero of which may be left out. *)
Definition hex_denotes (ds out : list Z) : Prop :=
  out ≠ [] ∧ Forall byte_ok out ∧ (upper <$> ds = base16 out ∨ 48 :: (upper <$> ds) = base16 out).

Lemma base16_length out : length (base16 out) = (2 * length out)%nat.
Proof. induction out as [|b out IH]; [done|]. rewrite base16_cons. cbn [length]. lia. Qed.

Lemma base16_digit out : Forall byte_ok out → Forall (λ c, c ≠ 88) (base16 out).
Proof.
  induction 1 as [|b out Hb _ IH]; [by apply Forall_nil|]. rewrite base16_cons, !Forall_cons. destruct (byte_nibbles b Hb).
  split_and!; [..|done]; rewrite digit_spec by done; case_match; lia.
Qed.

Lemma hex_digits_spec ds out :
  match ds with
  | [] => None
  | c :: cs => if Z.of_nat (length ds) mod 2 =? 0 then hex_pairs ds
               else first ← hex_nibble c; rest ← hex_pairs cs; Some (first :: rest)
  end = Some out ↔ hex_denotes ds out.
Proof.
  unfold hex_denotes. destruct ds as [|c cs].
  { split; [done|]. intros (Hne & _ & [E|E]); destruct out; done. }
  assert (Hlen : ∀ k, length (upper <$> c :: cs) = k → Z.of_nat (length (c :: cs)) = Z.of_nat k) by (intros k <-; by rewrite length_fmap).
  destruct (Z.eqb_spec (Z.of_nat (length (c :: cs)) mod 2) 0) as [He|Ho].
  - rewrite hex_pairs_spec. split.
    + intros [Hb E]. split; [|by split; [|left]]. intros ->. done.
    + intros (_ & Hb & [E|E]); [done|]. apply (f_equal length) in E. rewrite base16_length in E. cbn [length] in E.
      rewrite (Hlen _ eq_refl) in He. exfalso. revert He. Z.to_euclidean_division_equations. lia.
  - split.
    + intros (first & [Hf Ef]%hex_nibble_spec & (rest & [Hb Er]%hex_pairs_spec & [= <-])%bind_Some)%bind_Some.
      split; [done|]. split; [apply Forall_cons; split; [unfold byte_ok; lia|done]|]. right.
      rewrite base16_cons. cbn [fmap list_fmap]. rewrite Ef, <- Er.
      replace (first / 16) with 0 by (Z.to_euclidean_division_equations; lia).
      by rewrite (Z.mod_small first 16) by lia.
    + intros (_ & Hb & [E|E]).
      { apply (f_equal length) in E. rewrite base16_length in E. rewrite (Hlen _ E) in Ho. exfalso. revert Ho.
        Z.to_euclidean_division_equations. lia. }
      destruct out as [|b out]; [done|]. apply Forall_cons in Hb as [Hb Hout]. rewrite base16_cons in E.
      injection E as E0 Ef Er. destruct (byte_nibbles b Hb) as [Hh Hl]. rewrite digit_spec in E0 by done.
      assert (b / 16 = 0) as H0 by (revert E0; case_match; lia).
      assert (b mod 16 = b) as Hm by (Z.to_euclidean_division_equations; lia). rewrite Hm in *.
      rewrite (proj2 (hex_nibble_spec c b)) by done. rewrite (proj2 (hex_pairs_spec cs out)) by done. done.
Qed.

Lemma strip_prefix_plain ds out : hex_denotes ds out → strip_prefix ds = ds.
Proof.
  intros (_ & Hb%base16_digit & H).
  assert (Forall (λ c, c ≠ 88) (upper <$> ds)) as Hu.
  { destruct H as [->|H]; [done|]. rewrite <- H in Hb. by apply Forall_cons in Hb as [_ Hb]. }
  destruct ds as [|c [|x ds]]; [done|..]; unfold strip_prefix; repeat case_match; try done.
  exfalso. cbn [fmap list_fmap] in Hu. rewrite !Forall_cons in Hu. destruct Hu as (_ & Hx & _).
  match goal with E : (_ || _) = true |- _ => apply orb_true_iff in E as [E|E]; apply Z.eqb_eq in E; subst end; by apply Hx.
Qed.

Lemma hex_to_bytes_spec cs out :
  hex_to_bytes cs = Some out ↔
    ∃ pre ds, cs = pre ++ ds ∧ pre ∈ [[]; bytes_of "0x"; bytes_of "0X"] ∧ hex_denotes ds out.
Proof.
  unfold hex_to_bytes. cbv zeta. rewrite hex_digits_spec. change (bytes_of "0x") with [48; 120]. change (bytes_of "0X") with [48; 88].
  split.
  - intros H. assert (cs = strip_prefix cs ∨ cs = [48; 120] ++ strip_prefix cs ∨ cs = [48; 88] ++ strip_prefix cs) as Hs.
    { destruct cs as [|c [|x cs]]; [by left|..]; unfold strip_prefix; repeat case_match; eauto;
        match goal with E : (_ || _) = true |- _ => apply orb_true_iff in E as [E|E]; apply Z.eqb_eq in E; subst; auto end. }
    destruct Hs as [Hs|[Hs|Hs]];
      [exists [], (strip_prefix cs)|exists [48; 120], (strip_prefix cs)|exists [48; 88], (strip_prefix cs)];
      (split; [done|]; split; [set_solver|done]).
  - intros (pre & ds & -> & Hp & H). rewrite !elem_of_cons in Hp. destruct Hp as [->|[->|[->|Hp%elem_of_nil]]]; [|done|done|done].
    cbn [app]. rewrite (strip_prefix_plain ds out H). done.
Qed.
End exact.

(** C40. The text routines compute the encodings of the standards, and their
    decoders are exact.  For every [u64] the decimal text fits the buffer, has no
    leading zero and denotes the number, and the hexadecimal text is 0x followed by
    the sixteen digits of its eight bytes, which satisfies the UTF-8 requirement of
    the unchecked conversion.  [bytes_to_hex] writes the Base16 digits of any bytes
    after 0x; [hex_to_bytes] accepts exactly such digits, in either case, after 0x,
    0X or nothing, of at least one byte, the first zero of which may be missing,
    and returns these bytes.  [base64_encode] is Base64 of RFC 4648 with its padding;
    [base64_decode] accepts exactly the texts of the alphabet of a length that is not
    one more than a multiple of four, followed by any number of padding characters,
    and returns the bytes their bits make up, so that it inverts the encoder. *)
Theorem text_conversions_exact (v : Z) (buf bytes cs out : list Z) :
  in_u64 v → length buf = 20%nat → Forall byte_ok bytes →
  formats_dec 20 v (u64_to_dec_str v buf) ∧
  (let hex := bytes_of "0x" ++ Rfc4648.base16 (be_bytes 8 v) in
    u64_to_hex_bytes v = Done hex ∧ from_utf8_unchecked hex = Done hex) ∧
  bytes_to_hex bytes = bytes_of "0x" ++ Rfc4648.base16 bytes ∧
  (hex_to_bytes cs = Some out ↔
    ∃ pre ds, cs = pre ++ ds ∧ pre ∈ [[]; bytes_of "0x"; bytes_of "0X"] ∧ hex_denotes ds out) ∧
  base64_encode bytes = Rfc4648.base64 bytes ∧ base64_encode_unpadded bytes = Rfc4648.unpadded bytes ∧
  (base64_decode cs = Some out ↔ ∃ sx k, cs = (Rfc4648.char <$> sx) ++ replicate k 61 ∧ base64_denotes sx out) ∧
  base64_decode (base64_encode bytes) = Some bytes.
Proof.
  intros Hv Hbuf Hb. unfold in_u64, W64 in Hv.
  assert (Hhex : ∀ bs, Forall byte_ok bs → bytes_to_hex bs = bytes_of "0x" ++ Rfc4648.base16 bs)
    by (intros bs H; unfold bytes_to_hex; by rewrite hex_text_spec).
  split_and!.
  - apply (dec_str_ok 20); [lia|done|]. change (10 ^ Z.of_nat 20) with 100000000000000000000. lia.
  - cbv zeta. rewrite <- Hhex by apply be_bytes_ok. split; [apply (hex_bytes_ok 8); lia|]. apply from_utf8_unchecked_ascii, bytes_to_hex_ascii, be_bytes_ok.
  - by apply Hhex.
  - apply hex_to_bytes_spec.
  - by apply base64_encode_spec.
  - by apply base64_unpadded_spec.
  - apply base64_decode_spec.
  - by apply base64_decode_encode.
Qed.

Lemma text_conversions_exact_witness :
  u64_to_hex_bytes 0xBEEF = Done (bytes_of "0x000000000000BEEF") ∧
  base64_encode [255; 0; 128; 7] = bytes_of "/wCABw==" ∧ base64_decode (base64_encode [255; 0; 128; 7]) = Some [255; 0; 128; 7] ∧
  hex_to_bytes (bytes_of "0xabc") = Some [0x0A; 0xBC].
Proof.
  destruct (text_conversions_exact 0xBEEF (replicate 20 0) [255; 0; 128; 7] (bytes_of "0xabc") [0x0A; 0xBC])
    as (_ & (H1 & _) & _ & H2 & H3 & _ & _ & H4).
  - unfold in_u64, W64. lia.
  - reflexivity.
  - unfold byte_ok. repeat (apply Forall_cons; split; [lia|]). by apply Forall_nil.
  - split; [exact H1|]. split; [exact H3|]. split; [exact H4|]. apply H2.
    exists (bytes_of "0x"), (bytes_of "abc"). split; [reflexivity|]. split; [set_solver|].
    split; [discriminate|]. split; [|right; reflexivity].
    unfold byte_ok. repeat (apply Forall_cons; split; [lia|]). by apply Forall_nil.
Defined.
