(* ===== verification/Gdt.v ===== *)
(** * Gdt.v: descriptor table and task state segment of a processor

    [processor_control/gdt.rs]: the descriptor constants, the encoding of a TSS
    descriptor, the per-CPU tables and the sequence that loads them.  The
    processor's side (what a descriptor means, which loads fault) is a small
    model of the segment loads the sequence executes. *)

From S2P Require Import Prelude Bytes Acpi.

Local Open Scope Z_scope.
Local Open Scope u64_scope.

(** ** Descriptors as the processor reads them *)

Module Sdm.

(** Bits [lo .. lo + n - 1] of a word. *)
Definition bits (w lo n : Z) : Z := Z.land (Z.shiftr w lo) (Z.ones n).

Record segment := mk_segment {
  base : Z; limit : Z; type : Z; s : bool; dpl : Z; present : bool; long : bool; db : bool; granular : bool
}.

Definition decode (w : Z) : segment :=
  mk_segment (bits w 16 24 + 2 ^ 24 * bits w 56 8) (bits w 0 16 + 2 ^ 16 * bits w 48 4) (bits w 40 4) (Z.testbit w 44)
    (bits w 45 2) (Z.testbit w 47) (Z.testbit w 53) (Z.testbit w 54) (Z.testbit w 55).

(** A system descriptor spans two slots; the upper half of the second must be zero. *)
Definition decode_system (lo hi : Z) : option segment :=
  let d := decode lo in
  if bits hi 32 32 =? 0
  then Some (mk_segment (base d + 2 ^ 32 * bits hi 0 32) (limit d) (type d) (s d) (dpl d) (present d) (long d) (db d) (granular d))
  else None.

(** The slot a selector names, if its bytes lie within the table limit. *)
Definition slot (entries : list Z) (sel : Z) : option Z :=
  if Z.testbit sel 2 then None else entries !! Z.to_nat (Z.shiftr sel 3).

Definition rpl (sel : Z) : Z := bits sel 0 2.

(** What a far return to [sel] requires: a present 64-bit code segment of the
    requested privilege level. *)
Definition code64 (entries : list Z) (sel : Z) : bool :=
  match slot entries sel with
  | Some w => let d := decode w in
      s d && present d && Z.testbit (type d) 3 && long d && negb (db d) && (dpl d =? rpl sel)
  | None => false
  end.

(** What loading a stack segment requires: present writable data of that level. *)
Definition stack_segment (entries : list Z) (sel : Z) : bool :=
  match slot entries sel with
  | Some w => let d := decode w in
      s d && present d && negb (Z.testbit (type d) 3) && Z.testbit (type d) 1 && (dpl d =? rpl sel)
  | None => false
  end.

(** [ltr] requires an available 64-bit TSS and marks it busy. *)
Definition ltr (entries : list Z) (sel : Z) : outcome (list Z) :=
  match slot entries sel, slot entries (sel + 8) with
  | Some lo, Some hi =>
      match decode_system lo hi with
      | Some d => if present d && negb (s d) && (type d =? 9)
                  then Done (<[Z.to_nat (Z.shiftr sel 3) := Z.lor lo (Z.shiftl 1 41)]> entries)
                  else Panic "#GP"
      | None => Panic "#GP"
      end
  | _, _ => Panic "#GP"
  end.

End Sdm.

(** ** The task state segment *)

Definition DOUBLE_FAULT_IST_SIZE : Z := 4096 * 4.

Record Tss := mk_Tss {
  tss_reserved0 : Z; tss_rsp : list Z; tss_reserved1 : Z; tss_ist : list Z;
  tss_reserved2 : Z; tss_reserved3 : Z; iopb_offset : Z
}.

(** The packed layout, which fixes the size. *)
Definition tss_bytes (t : Tss) : list Z :=
  le_bytes 4 (tss_reserved0 t) ++ (tss_rsp t ≫= le_bytes 8) ++ le_bytes 8 (tss_reserved1 t) ++
  (tss_ist t ≫= le_bytes 8) ++ le_bytes 8 (tss_reserved2 t) ++ le_bytes 2 (tss_reserved3 t) ++ le_bytes 2 (iopb_offset t).

Definition TSS_SIZE : Z := 4 + 3 * 8 + 8 + 7 * 8 + 8 + 2 + 2.

Definition Tss_new : Tss := mk_Tss 0 (replicate 3 0) 0 (replicate 7 0) 0 0 TSS_SIZE.

(** ** Descriptors *)

Definition NULL : Z := 0.
Definition KERNEL_CODE64 : Z := 0x00AF9A000000FFFF.
Definition KERNEL_DATA64 : Z := 0x00CF92000000FFFF.
Definition USER_CODE64 : Z := 0x00AFFA000000FFFF.
Definition USER_DATA64 : Z := 0x00CFF2000000FFFF.

Definition tss_low (base limit : Z) : Z :=
  let limit_low := Z.land limit 0xFFFF in
  let limit_high := Z.land (Z.shiftr limit 16) 0xF in
  let base_low := Z.land base 0x00FFFFFF in
  let base_mid := Z.land (Z.shiftr base 24) 0xFF in
  Z.lor (Z.lor (Z.lor (Z.lor (Z.lor limit_low (u64 (Z.shiftl base_low 16))) (u64 (Z.shiftl 9 40))) (u64 (Z.shiftl 1 47)))
    (u64 (Z.shiftl limit_high 48))) (u64 (Z.shiftl base_mid 56)).

Definition tss_high (base : Z) : Z := Z.shiftr base 32.

Definition GDT_TEMPLATE : list Z := [NULL; KERNEL_CODE64; KERNEL_DATA64; NULL; NULL; USER_DATA64; USER_CODE64].

Definition KERNEL_CS : Z := 0x08.
Definition KERNEL_DS : Z := 0x10.
Definition TSS_SELECTOR : Z := 0x18.
Definition USER_DS : Z := 0x2B.
Definition USER_CS : Z := 0x33.

(** ** The per-CPU tables and the segment registers *)

Record Tables := mk_Tables {
  CPU_TSS : PerCpu Tss; CPU_GDT : PerCpu (list Z); CPU_DOUBLE_FAULT_STACK : PerCpu (list Z)
}.

Definition Tables_static : Tables := mk_Tables PerCpu_new PerCpu_new PerCpu_new.

(** [lgdt] takes a limit and a base. *)
Record SegRegs := mk_SegRegs {
  gdtr_limit : Z; gdtr_base : Z; cs : Z; ds : Z; es : Z; ss : Z; fs : Z; gs : Z; tr : Z
}.

Definition set_ist0 (v : Z) (t : Tss) : Tss :=
  mk_Tss (tss_reserved0 t) (tss_rsp t) (tss_reserved1 t) (<[0%nat := v]> (tss_ist t)) (tss_reserved2 t) (tss_reserved3 t) (iopb_offset t).
Definition set_rsp0 (v : Z) (t : Tss) : Tss :=
  mk_Tss (tss_reserved0 t) (<[0%nat := v]> (tss_rsp t)) (tss_reserved1 t) (tss_ist t) (tss_reserved2 t) (tss_reserved3 t) (iopb_offset t).

Section init.

(** Addresses of the cells of a processor, chosen by the linker. *)
Context (df_addr tss_addr gdt_addr : Z → Z).

(** The cells, then the table. *)
Definition fill_tables (cpu : Z) (t : Tables) : outcome Tables :=
  st ← PerCpu_init (CPU_DOUBLE_FAULT_STACK t) cpu (replicate (Z.to_nat DOUBLE_FAULT_IST_SIZE) 0);
  ts ← PerCpu_init (CPU_TSS t) cpu Tss_new;
  gd ← PerCpu_init (CPU_GDT t) cpu GDT_TEMPLATE;
  ts ← PerCpu_get_mut ts cpu (set_ist0 (df_addr cpu ⊞ DOUBLE_FAULT_IST_SIZE));
  let tss_base := tss_addr cpu in
  let tss_limit := u32 (TSS_SIZE - 1) in
  gd ← PerCpu_get_mut gd cpu (λ g, <[4%nat := tss_high tss_base]> (<[3%nat := tss_low tss_base tss_limit]> g));
  Done (mk_Tables ts gd st).

(** [lgdt], the far return, the data segment loads and [ltr]. *)
Definition load_tables (cpu : Z) (t : Tables) : outcome (Tables * SegRegs) :=
  entries ← PerCpu_get (CPU_GDT t) cpu;
  let limit := (8 * Z.of_nat (length entries) - 1) mod 2 ^ 16 in
  _ ← (if Sdm.code64 entries KERNEL_CS then Done tt else Panic "#GP");
  _ ← (if Sdm.stack_segment entries KERNEL_DS then Done tt else Panic "#GP");
  entries ← Sdm.ltr entries TSS_SELECTOR;
  gd ← PerCpu_get_mut (CPU_GDT t) cpu (λ _, entries);
  Done (mk_Tables (CPU_TSS t) gd (CPU_DOUBLE_FAULT_STACK t),
        mk_SegRegs limit (gdt_addr cpu) KERNEL_CS KERNEL_DS KERNEL_DS KERNEL_DS KERNEL_DS KERNEL_DS TSS_SELECTOR).

Definition init_gdt_for (cpu : Z) (t : Tables) : outcome (Tables * SegRegs) :=
  t ← fill_tables cpu t; load_tables cpu t.

(** [init_gdt] and [ap_init_gdt] run it on the executing processor [current]. *)
Definition init_gdt (current : Z) (t : Tables) : outcome (Tables * SegRegs) := init_gdt_for current t.
Definition ap_init_gdt (current : Z) (t : Tables) : outcome (Tables * SegRegs) := init_gdt_for current t.

End init.

(** [set_kernel_stack] on processor [cpu] *)
Definition set_kernel_stack (cpu stack_top : Z) (t : Tables) : outcome Tables :=
  ts ← PerCpu_get_mut (CPU_TSS t) cpu (set_rsp0 stack_top);
  Done (mk_Tables ts (CPU_GDT t) (CPU_DOUBLE_FAULT_STACK t)).

(** ** Fields of a word *)

Lemma bits_field w lo n r v q :
  0 ≤ lo → 0 ≤ n → w = r + v * 2 ^ lo + q * 2 ^ (lo + n) → 0 ≤ r < 2 ^ lo → 0 ≤ v < 2 ^ n → Sdm.bits w lo n = v.
Proof.
  intros Hlo Hn -> Hr Hv. unfold Sdm.bits. rewrite Z.land_ones, Z.shiftr_div_pow2 by lia.
  replace (r + v * 2 ^ lo + q * 2 ^ (lo + n)) with (r + (v + q * 2 ^ n) * 2 ^ lo) by (rewrite Z.pow_add_r by lia; ring).
  rewrite Z.div_add, Z.div_small, Z.add_0_l by lia. by rewrite Z.mod_add, Z.mod_small by lia.
Qed.

Lemma testbit_field w i r q (b : bool) :
  0 ≤ i → w = r + Z.b2z b * 2 ^ i + q * 2 ^ (i + 1) → 0 ≤ r < 2 ^ i → Z.testbit w i = b.
Proof.
  intros Hi Hw Hr. apply Z.b2z_inj. rewrite Z.testbit_spec' by done.
  rewrite <- (bits_field w i 1 r (Z.b2z b) q) by (done || lia || by destruct b). unfold Sdm.bits.
  by rewrite Z.land_ones, Z.shiftr_div_pow2 by lia.
Qed.

(** Appending a field above [k] bits. *)
Lemma lor_field x y k : 0 ≤ k → 0 ≤ x < 2 ^ k → 0 ≤ y → y * 2 ^ k < W64 → Z.lor x (u64 (Z.shiftl y k)) = x + y * 2 ^ k.
Proof.
  intros Hk Hx Hy Hw. rewrite u64_small by (rewrite Z.shiftl_mul_pow2 by lia; lia).
  rewrite Z.lor_comm, lor_shiftl by lia. lia.
Qed.

Lemma tss_low_sum b l : 0 ≤ b → 0 ≤ l →
  tss_low b l = l mod 2 ^ 16 + (b mod 2 ^ 24) * 2 ^ 16 + 9 * 2 ^ 40 + 1 * 2 ^ 47 + (l / 2 ^ 16 mod 2 ^ 4) * 2 ^ 48 +
                (b / 2 ^ 24 mod 2 ^ 8) * 2 ^ 56.
Proof.
  intros Hb Hl. unfold tss_low. cbv zeta. change 0xFFFF with (Z.ones 16). change 0xF with (Z.ones 4).
  change 0x00FFFFFF with (Z.ones 24). change 0xFF with (Z.ones 8).
  rewrite !Z.land_ones, !Z.shiftr_div_pow2 by lia.
  pose proof (Z.mod_pos_bound l (2 ^ 16) ltac:(lia)). pose proof (Z.mod_pos_bound b (2 ^ 24) ltac:(lia)).
  pose proof (Z.mod_pos_bound (l / 2 ^ 16) (2 ^ 4) ltac:(lia)). pose proof (Z.mod_pos_bound (b / 2 ^ 24) (2 ^ 8) ltac:(lia)).
  assert (W64 = 2 ^ 64) as HW by done. rewrite (lor_field (l mod 2 ^ 16)) by lia.
  rewrite (lor_field (_ + _) 9), (lor_field (_ + _) 1), (lor_field (_ + _) (l / 2 ^ 16 mod 2 ^ 4)), (lor_field (_ + _)) by lia.
  reflexivity.
Qed.

(** The fields of a word assembled like a TSS descriptor of type [ty]. *)
Lemma system_descriptor_ok w h b l ty : in_u64 b → 0 ≤ l < 2 ^ 20 → 0 ≤ ty < 2 ^ 4 → h = tss_high b →
  w = l mod 2 ^ 16 + (b mod 2 ^ 24) * 2 ^ 16 + ty * 2 ^ 40 + 1 * 2 ^ 47 + (l / 2 ^ 16 mod 2 ^ 4) * 2 ^ 48 +
      (b / 2 ^ 24 mod 2 ^ 8) * 2 ^ 56 →
  Sdm.decode_system w h = Some (Sdm.mk_segment b l ty false 0 true false false false).
Proof.
  intros Hb Hl Hty. assert (W64 = 2 ^ 64) as HW by done. unfold in_u64 in Hb.
  pose proof (Z.div_mod l (2 ^ 16) ltac:(lia)) as Dl. pose proof (Z.mod_pos_bound l (2 ^ 16) ltac:(lia)) as Ml.
  pose proof (Z.div_mod b (2 ^ 24) ltac:(lia)) as Db. pose proof (Z.mod_pos_bound b (2 ^ 24) ltac:(lia)) as Mb.
  pose proof (Z.div_mod (b / 2 ^ 24) (2 ^ 8) ltac:(lia)) as Db2. pose proof (Z.mod_pos_bound (b / 2 ^ 24) (2 ^ 8) ltac:(lia)) as Mb2.
  rewrite (Z.mod_small (l / 2 ^ 16)) by (split; [apply Z.div_pos | apply Z.div_lt_upper_bound]; lia).
  assert (0 ≤ l / 2 ^ 16 < 2 ^ 4) as Ll by (split; [apply Z.div_pos | apply Z.div_lt_upper_bound]; lia).
  replace (tss_high b) with (b / 2 ^ 24 / 2 ^ 8) by (unfold tss_high; rewrite Z.shiftr_div_pow2, Z.div_div by lia; done).
  assert (0 ≤ b / 2 ^ 24 / 2 ^ 8 < 2 ^ 32) as Lh
    by (rewrite Z.div_div by lia; split; [apply Z.div_pos | apply Z.div_lt_upper_bound]; lia).
  intros Hh. rewrite <- Hh in *. clear Hh.
  set (bl := b mod 2 ^ 24) in *. set (bm := b / 2 ^ 24 mod 2 ^ 8) in *. set (bq := b / 2 ^ 24) in *.
  set (ll := l mod 2 ^ 16) in *. set (lh := l / 2 ^ 16) in *. clearbody bl bm bq ll lh. intros Hw.
  unfold Sdm.decode_system, Sdm.decode. cbv zeta.
  rewrite (bits_field h 32 32 h 0 0) by lia. cbn [Z.eqb].
  rewrite (bits_field h 0 32 0 h 0) by lia.
  rewrite (bits_field w 16 24 ll bl (ty + 2 ^ 7 + lh * 2 ^ 8 + bm * 2 ^ 16)) by lia.
  rewrite (bits_field w 56 8 (ll + bl * 2 ^ 16 + ty * 2 ^ 40 + 2 ^ 47 + lh * 2 ^ 48) bm 0) by lia.
  rewrite (bits_field w 0 16 0 ll (bl + ty * 2 ^ 24 + 2 ^ 31 + lh * 2 ^ 32 + bm * 2 ^ 40)) by lia.
  rewrite (bits_field w 48 4 (ll + bl * 2 ^ 16 + ty * 2 ^ 40 + 2 ^ 47) lh (bm * 2 ^ 4)) by lia.
  rewrite (bits_field w 40 4 (ll + bl * 2 ^ 16) ty (2 ^ 3 + lh * 2 ^ 4 + bm * 2 ^ 12)) by lia.
  set (low := ll + bl * 2 ^ 16 + ty * 2 ^ 40).
  rewrite (testbit_field w 44 low (2 ^ 2 + lh * 2 ^ 3 + bm * 2 ^ 11) false) by (unfold low; cbn [Z.b2z]; lia).
  rewrite (bits_field w 45 2 low 0 (1 + lh * 2 + bm * 2 ^ 9)) by (unfold low; lia).
  rewrite (testbit_field w 47 low (lh + bm * 2 ^ 8) true) by (unfold low; cbn [Z.b2z]; lia).
  rewrite (testbit_field w 53 (low + 2 ^ 47 + lh * 2 ^ 48) (bm * 2 ^ 2) false) by (unfold low; cbn [Z.b2z]; lia).
  rewrite (testbit_field w 54 (low + 2 ^ 47 + lh * 2 ^ 48) (bm * 2) false) by (unfold low; cbn [Z.b2z]; lia).
  rewrite (testbit_field w 55 (low + 2 ^ 47 + lh * 2 ^ 48) bm false) by (unfold low; cbn [Z.b2z]; lia).
  cbn [Sdm.base Sdm.limit Sdm.type Sdm.s Sdm.dpl Sdm.present Sdm.long Sdm.db Sdm.granular]. do 2 f_equal; lia.
Qed.

(** A TSS descriptor decodes to the base and limit it was built from, as a
    present, available 64-bit TSS of privilege level 0. *)
Lemma tss_descriptor_ok b l : in_u64 b → 0 ≤ l < 2 ^ 20 →
  Sdm.decode_system (tss_low b l) (tss_high b) = Some (Sdm.mk_segment b l 9 false 0 true false false false).
Proof. intros Hb Hl. apply system_descriptor_ok; try done. apply tss_low_sum; [apply Hb | lia]. Qed.

(** Marking it busy changes the type only. *)
Lemma tss_busy_ok b l : in_u64 b → 0 ≤ l < 2 ^ 20 →
  Sdm.decode_system (Z.lor (tss_low b l) (Z.shiftl 1 41)) (tss_high b) = Some (Sdm.mk_segment b l 11 false 0 true false false false).
Proof.
  intros Hb Hl. apply system_descriptor_ok; try done. pose proof (tss_low_sum b l ltac:(apply Hb) ltac:(lia)) as Hw.
  assert (Z.land (tss_low b l) (Z.shiftl 1 41) = 0) as Hz.
  { change (Z.shiftl 1 41) with (2 ^ 41). apply Z.bits_inj'. intros i Hi. rewrite Z.land_spec, Z.bits_0, Z.pow2_bits_eqb by lia.
    destruct (Z.eqb_spec 41 i) as [<-|]; [|by rewrite andb_false_r]. rewrite andb_true_r.
    apply (testbit_field _ 41 (l mod 2 ^ 16 + (b mod 2 ^ 24) * 2 ^ 16 + 1 * 2 ^ 40)
      (2 + 2 ^ 5 + (l / 2 ^ 16 mod 2 ^ 4) * 2 ^ 6 + (b / 2 ^ 24 mod 2 ^ 8) * 2 ^ 14)); cbn [Z.b2z];
      pose proof (Z.mod_pos_bound l (2 ^ 16)); pose proof (Z.mod_pos_bound b (2 ^ 24)); lia. }
  pose proof (Z.add_lor_land (tss_low b l) (Z.shiftl 1 41)) as Ha. change (Z.shiftl 1 41) with (2 ^ 41) in *. lia.
Qed.

(** ** Loading the tables *)

(** The 64-bit word the processor reads at an offset of the TSS. *)
Definition tss_word (t : Tss) (off : Z) : outcome Z := ws ← slice (tss_bytes t) off (off + 8); Done (from_le ws).

Definition tss_ok (t : Tss) : Prop :=
  length (tss_rsp t) = 3%nat ∧ length (tss_ist t) = 7%nat ∧ Forall in_u64 (tss_rsp t) ∧ Forall in_u64 (tss_ist t).

(** The layout has 104 bytes, and the words the processor reads for RSP0 (offset
    4) and IST1 (offset 36) are the fields. *)
Lemma tss_layout t r0 i1 : tss_ok t → head (tss_rsp t) = Some r0 → head (tss_ist t) = Some i1 →
  Z.of_nat (length (tss_bytes t)) = TSS_SIZE ∧ tss_word t 4 = Done r0 ∧ tss_word t 36 = Done i1.
Proof.
  intros (Hr & Hi & Fr & Fi) Hr0 Hi1. destruct t as [z0 rsp z1 ist z2 z3 io]. cbn in *.
  destruct rsp as [|a [|b [|c [|]]]]; try done. destruct ist as [|a' [|b' [|c' [|d' [|e' [|f' [|g' [|]]]]]]]]; try done.
  injection Hr0 as ->. injection Hi1 as ->. apply Forall_cons in Fr as [Fr _]. apply Forall_cons in Fi as [Fi _].
  assert (∀ v, in_u64 v → from_le (le_bytes 8 v) = v) as Hfl.
  { intros v Hv. rewrite from_le_bytes. apply Z.mod_small. exact Hv. }
  split; [reflexivity|]. unfold tss_word. split; rewrite slice_ok by (cbn; lia); cbn [mbind outcome_bind];
    f_equal; [rewrite <- (Hfl r0 Fr) at 2|rewrite <- (Hfl i1 Fi) at 2]; reflexivity.
Qed.

Definition tables_ok (t : Tables) : Prop :=
  percpu_ok (CPU_TSS t) ∧ percpu_ok (CPU_GDT t) ∧ percpu_ok (CPU_DOUBLE_FAULT_STACK t).

(** The cells of the other processors are the same. *)
Definition others_kept (cpu : Z) (t t' : Tables) : Prop :=
  ∀ c, 0 ≤ c → c ≠ cpu → view (CPU_TSS t') c = view (CPU_TSS t) c ∧ view (CPU_GDT t') c = view (CPU_GDT t) c ∧
    view (CPU_DOUBLE_FAULT_STACK t') c = view (CPU_DOUBLE_FAULT_STACK t) c.

(** The entries with the TSS descriptor in place, before and after [ltr]. *)
Definition gdt_entries (tss_base : Z) : list Z :=
  [NULL; KERNEL_CODE64; KERNEL_DATA64; tss_low tss_base (TSS_SIZE - 1); tss_high tss_base; USER_DATA64; USER_CODE64].

Definition loaded_entries (tss_base : Z) : list Z :=
  [NULL; KERNEL_CODE64; KERNEL_DATA64; Z.lor (tss_low tss_base (TSS_SIZE - 1)) (Z.shiftl 1 41); tss_high tss_base; USER_DATA64; USER_CODE64].

Lemma gdt_entries_load b : in_u64 b →
  Sdm.code64 (gdt_entries b) KERNEL_CS = true ∧ Sdm.stack_segment (gdt_entries b) KERNEL_DS = true ∧
  Sdm.ltr (gdt_entries b) TSS_SELECTOR = Done (loaded_entries b).
Proof.
  intros Hb. split; [reflexivity|]. split; [reflexivity|]. unfold Sdm.ltr.
  change (Sdm.slot (gdt_entries b) TSS_SELECTOR) with (Some (tss_low b (TSS_SIZE - 1))).
  change (Sdm.slot (gdt_entries b) (TSS_SELECTOR + 8)) with (Some (tss_high b)). cbv beta iota.
  rewrite tss_descriptor_ok by (done || unfold TSS_SIZE; lia). reflexivity.
Qed.

Definition boot_tss (df_top : Z) : Tss := set_ist0 df_top Tss_new.

Section loading.
Context (df_addr tss_addr gdt_addr : Z → Z).

Lemma fill_tables_ok cpu t : tables_ok t → 0 ≤ cpu < MAX_CPUS →
  view (CPU_TSS t) cpu = None → view (CPU_GDT t) cpu = None → view (CPU_DOUBLE_FAULT_STACK t) cpu = None →
  ∃ t', fill_tables df_addr tss_addr cpu t = Done t' ∧ tables_ok t' ∧ others_kept cpu t t' ∧
    view (CPU_TSS t') cpu = Some (boot_tss (df_addr cpu ⊞ DOUBLE_FAULT_IST_SIZE)) ∧
    view (CPU_GDT t') cpu = Some (gdt_entries (tss_addr cpu)) ∧ is_Some (view (CPU_DOUBLE_FAULT_STACK t') cpu).
Proof.
  intros (Ht & Hg & Hd) Hc Vt Vg Vd. unfold fill_tables.
  destruct (cell_init _ cpu Hd Hc (replicate (Z.to_nat DOUBLE_FAULT_IST_SIZE) 0) Vd) as (st & -> & Hst & Wst). rewrite bind_Done.
  destruct (cell_init _ cpu Ht Hc Tss_new Vt) as (ts & -> & Hts & Wts). rewrite bind_Done.
  destruct (cell_init _ cpu Hg Hc GDT_TEMPLATE Vg) as (gd & -> & Hgd & Wgd). rewrite bind_Done.
  destruct (cell_update ts cpu Hts Hc Tss_new (set_ist0 (df_addr cpu ⊞ DOUBLE_FAULT_IST_SIZE))) as (_ & ts' & -> & Hts' & Wts');
    [rewrite Wts by lia; by rewrite decide_True|]. rewrite bind_Done. cbv zeta.
  destruct (cell_update gd cpu Hgd Hc GDT_TEMPLATE (λ g, <[4%nat:=tss_high (tss_addr cpu)]>
    (<[3%nat:=tss_low (tss_addr cpu) (u32 (TSS_SIZE - 1))]> g))) as (_ & gd' & -> & Hgd' & Wgd');
    [rewrite Wgd by lia; by rewrite decide_True|]. rewrite bind_Done.
  eexists. split; [done|]. split; [done|]. split; [|cbn [CPU_TSS CPU_GDT CPU_DOUBLE_FAULT_STACK]; split_and!].
  - intros c Hc0 Hne. cbn [CPU_TSS CPU_GDT CPU_DOUBLE_FAULT_STACK].
    rewrite Wts', Wgd', Wst, Wts, Wgd by done. by rewrite !decide_False.
  - rewrite Wts' by lia. by rewrite decide_True.
  - rewrite Wgd' by lia. by rewrite decide_True.
  - rewrite Wst by lia. rewrite decide_True by done. eauto.
Qed.

Lemma load_tables_ok cpu t : tables_ok t → 0 ≤ cpu < MAX_CPUS → in_u64 (tss_addr cpu) →
  view (CPU_GDT t) cpu = Some (gdt_entries (tss_addr cpu)) →
  ∃ t', load_tables gdt_addr cpu t = Done (t', mk_SegRegs 55 (gdt_addr cpu) KERNEL_CS KERNEL_DS KERNEL_DS KERNEL_DS KERNEL_DS KERNEL_DS TSS_SELECTOR) ∧
    tables_ok t' ∧ others_kept cpu t t' ∧ CPU_TSS t' = CPU_TSS t ∧ CPU_DOUBLE_FAULT_STACK t' = CPU_DOUBLE_FAULT_STACK t ∧
    view (CPU_GDT t') cpu = Some (loaded_entries (tss_addr cpu)).
Proof.
  intros (Ht & Hg & Hd) Hc Ha Vg. unfold load_tables.
  destruct (gdt_entries_load (tss_addr cpu) Ha) as (H1 & H2 & H3).
  destruct (cell_update _ cpu Hg Hc _ (λ _, loaded_entries (tss_addr cpu)) Vg) as (-> & gd' & Hgd' & Hok & Wgd'). rewrite bind_Done.
  rewrite H1, bind_Done, H2, bind_Done, H3, bind_Done, Hgd', bind_Done.
  eexists. split; [reflexivity|]. split; [done|]. split; [|cbn; split_and!; [done|done|]].
  - intros c Hc0 Hne. cbn. rewrite Wgd' by done. by rewrite decide_False.
  - rewrite Wgd' by lia. by rewrite decide_True.
Qed.

(** What the processor loads, for the other components. *)
Lemma init_gdt_ok cpu t : tables_ok t → 0 ≤ cpu < MAX_CPUS →
  view (CPU_TSS t) cpu = None → view (CPU_GDT t) cpu = None → view (CPU_DOUBLE_FAULT_STACK t) cpu = None →
  in_u64 (tss_addr cpu) → 0 ≤ df_addr cpu → df_addr cpu + DOUBLE_FAULT_IST_SIZE < W64 →
  ∃ t' tss, init_gdt df_addr tss_addr gdt_addr cpu t =
      Done (t', mk_SegRegs 55 (gdt_addr cpu) KERNEL_CS KERNEL_DS KERNEL_DS KERNEL_DS KERNEL_DS KERNEL_DS TSS_SELECTOR) ∧
    view (CPU_GDT t') cpu = Some (loaded_entries (tss_addr cpu)) ∧ view (CPU_TSS t') cpu = Some tss ∧
    tss_word tss 36 = Done (df_addr cpu + DOUBLE_FAULT_IST_SIZE).
Proof.
  intros Hok Hc Vt Vg Vd Ha Hd Hd2. destruct (fill_tables_ok cpu t Hok Hc Vt Vg Vd) as (t1 & Hf & Hok1 & _ & V1 & G1 & _).
  destruct (load_tables_ok cpu t1 Hok1 Hc Ha G1) as (t2 & Hl & _ & _ & ET & _ & G2).
  rewrite u64_small in V1 by (unfold DOUBLE_FAULT_IST_SIZE in *; lia). set (top := df_addr cpu + DOUBLE_FAULT_IST_SIZE) in *.
  assert (in_u64 top) as Htop by (unfold in_u64, top, DOUBLE_FAULT_IST_SIZE in *; lia).
  destruct (tss_layout (boot_tss top) 0 top) as (_ & _ & W36); [|done|done|].
  { split_and!; [done|done|..]; repeat (apply Forall_cons; split; [done|]); by apply Forall_nil. }
  exists t2, (boot_tss top). unfold init_gdt, init_gdt_for. rewrite Hf, bind_Done, ET. by split_and!.
Qed.

(** The descriptor tables of a processor.  With the cells of processor [cpu]
    still uninitialized, [init_gdt] completes without a fault: CS is the ring 0
    64-bit code segment and SS the ring 0 data segment of a seven-entry table; the
    task register holds a busy 64-bit TSS descriptor that decodes to the address
    of this processor's TSS with limit 103; in that TSS the processor finds the
    top of the double-fault stack as IST1 and zero as RSP0, and the I/O bitmap
    offset lies beyond the limit.  The user selectors name ring 3 code and data.
    The cells of other processors are untouched; running the sequence again on
    the same processor panics; and [set_kernel_stack] changes the RSP0 the
    processor reads and nothing else. *)
Theorem init_gdt_spec (cpu : Z) (t : Tables) (stack_top : Z) :
  tables_ok t → 0 ≤ cpu < MAX_CPUS →
  view (CPU_TSS t) cpu = None → view (CPU_GDT t) cpu = None → view (CPU_DOUBLE_FAULT_STACK t) cpu = None →
  in_u64 (tss_addr cpu) → 0 ≤ df_addr cpu → df_addr cpu + DOUBLE_FAULT_IST_SIZE < W64 → in_u64 stack_top →
  ∃ t' r entries tss lo hi,
    init_gdt df_addr tss_addr gdt_addr cpu t = Done (t', r) ∧ tables_ok t' ∧ others_kept cpu t t' ∧
    view (CPU_GDT t') cpu = Some entries ∧ view (CPU_TSS t') cpu = Some tss ∧
    gdtr_base r = gdt_addr cpu ∧ gdtr_limit r = 8 * 7 - 1 ∧ length entries = 7%nat ∧
    Sdm.code64 entries (cs r) = true ∧ Sdm.rpl (cs r) = 0 ∧ Sdm.stack_segment entries (ss r) = true ∧ Sdm.rpl (ss r) = 0 ∧
    Sdm.code64 entries USER_CS = true ∧ Sdm.rpl USER_CS = 3 ∧ Sdm.stack_segment entries USER_DS = true ∧ Sdm.rpl USER_DS = 3 ∧
    Sdm.slot entries (tr r) = Some lo ∧ Sdm.slot entries (tr r + 8) = Some hi ∧
    Sdm.decode_system lo hi = Some (Sdm.mk_segment (tss_addr cpu) 103 11 false 0 true false false false) ∧
    tss_word tss 36 = Done (df_addr cpu + DOUBLE_FAULT_IST_SIZE) ∧ tss_word tss 4 = Done 0 ∧ 103 < iopb_offset tss ∧
    (∃ msg, init_gdt df_addr tss_addr gdt_addr cpu t' = Panic msg) ∧
    ∃ t'' tss', set_kernel_stack cpu stack_top t' = Done t'' ∧ others_kept cpu t' t'' ∧ CPU_GDT t'' = CPU_GDT t' ∧
      view (CPU_TSS t'') cpu = Some tss' ∧ tss_word tss' 4 = Done stack_top ∧
      tss_word tss' 36 = Done (df_addr cpu + DOUBLE_FAULT_IST_SIZE).
Proof.
  intros Hok Hc Vt Vg Vd Ha Hd Hd2 Hs. destruct (fill_tables_ok cpu t Hok Hc Vt Vg Vd) as (t1 & Hf & Hok1 & Ho1 & V1 & G1 & D1).
  destruct (load_tables_ok cpu t1 Hok1 Hc Ha G1) as (t2 & Hl & Hok2 & Ho2 & ET & ED & G2).
  rewrite u64_small in V1 by (unfold DOUBLE_FAULT_IST_SIZE in *; lia). set (top := df_addr cpu + DOUBLE_FAULT_IST_SIZE) in *.
  assert (in_u64 top) as Htop by (unfold in_u64, top, DOUBLE_FAULT_IST_SIZE in *; lia).
  assert (∀ v, in_u64 v → tss_ok (set_rsp0 v (boot_tss top))) as Htss.
  { intros v Hv. split_and!; [done|done|..]; repeat (apply Forall_cons; split; [done|]); by apply Forall_nil. }
  destruct (tss_layout (boot_tss top) 0 top (Htss 0 ltac:(done)) eq_refl eq_refl) as (_ & W4 & W36).
  destruct (tss_layout (set_rsp0 stack_top (boot_tss top)) stack_top top (Htss _ Hs) eq_refl eq_refl) as (_ & S4 & S36).
  rewrite <- ET in V1. pose proof Hok2 as (Hok2t & _ & Hok2d).
  destruct (cell_update _ cpu Hok2t Hc _ (set_rsp0 stack_top) V1) as (_ & ts' & Hset & _ & Wset).
  exists t2. do 5 eexists. split; [unfold init_gdt, init_gdt_for; rewrite Hf, bind_Done; exact Hl|]. split; [done|].
  split; [intros c Hc0 Hne; destruct (Ho2 c Hc0 Hne) as (-> & -> & ->); by apply Ho1|].
  split; [exact G2|]. split; [exact V1|]. do 11 (split; [reflexivity|]).
  split; [reflexivity|]. split; [reflexivity|]. split; [by apply tss_busy_ok; [|unfold TSS_SIZE]|].
  split; [exact W36|]. split; [exact W4|]. split; [done|]. split.
  - unfold init_gdt, init_gdt_for, fill_tables. rewrite <- ED in D1. destruct D1 as [st D1].
    destruct (cell_init_twice _ cpu Hok2d Hc (replicate (Z.to_nat DOUBLE_FAULT_IST_SIZE) 0) st D1) as [msg ->]. by exists msg.
  - unfold set_kernel_stack. rewrite Hset, bind_Done. do 2 eexists. split; [done|]. split; [|split; [done|]].
    + intros c Hc0 Hne. cbn. rewrite Wset by done. by rewrite decide_False.
    + cbn. rewrite Wset by lia. rewrite decide_True by done. split; [done|]. split; [exact S4 | exact S36].
Qed.

End loading.

Lemma init_gdt_spec_witness :
  ∃ t' r, init_gdt (λ c, 0x100000 + 0x4000 * c) (λ c, 0x200000 + 104 * c) (λ c, 0x300000 + 56 * c) 0 Tables_static = Done (t', r) ∧
    gdtr_base r = 0x300000.
Proof.
  destruct (percpu_new_ok (T:=Tss)) as [H1 V1]. destruct (percpu_new_ok (T:=list Z)) as [H2 V2].
  destruct (init_gdt_spec (λ c, 0x100000 + 0x4000 * c) (λ c, 0x200000 + 104 * c) (λ c, 0x300000 + 56 * c) 0 Tables_static 0x500000)
    as (t' & r & entries & tss & lo & hi & Hrun & _ & _ & _ & _ & Hb & _);
    [split_and!; done|done|apply V1|apply V2|apply V2|done|done|done|done|].
  exists t', r. split; [exact Hrun|exact Hb].
Defined.
