(* ===== verification/Idt.v ===== *)
(** * Idt.v: the interrupt descriptor table and the trampolines

    [processor_control/idt.rs]: gate encoding, the 256 entries [init_idt]
    installs, the naked trampolines as instruction lists over a register file and
    byte memory, and what each handler reports and decides.  The processor's side
    of an interrupt (gate lookup, stack switch, the words it pushes, [iretq]) is
    modelled as the architecture defines it. *)

From S2P Require Import Prelude Machine Bytes Helpers Gdt.

Local Open Scope Z_scope.
Local Open Scope u64_scope.

(** ** Gates *)

Record IdtEntry := mk_IdtEntry {
  offset_low : Z; selector : Z; ist_and_rsv : Z; type_attr : Z; offset_mid : Z; offset_high : Z; idt_reserved : Z
}.

Definition INTERRUPT_GATE : Z := 0x8E.
Definition TRAP_GATE : Z := 0x8F.

Definition missing : IdtEntry := mk_IdtEntry 0 0 0 0 0 0 0.

Definition make_gate (kind handler ist : Z) : IdtEntry :=
  mk_IdtEntry (Z.land handler 0xFFFF) KERNEL_CS (Z.land ist 0x7) kind
    (Z.land (Z.shiftr handler 16) 0xFFFF) (u32 (Z.shiftr handler 32)) 0.

Definition interrupt_gate (handler ist : Z) : IdtEntry := make_gate INTERRUPT_GATE handler ist.
Definition trap_gate (handler ist : Z) : IdtEntry := make_gate TRAP_GATE handler ist.

(** ** Trampolines *)

Inductive stub :=
| stub_de | stub_db | stub_nmi | stub_bp | stub_of | stub_br | stub_ud | stub_nm | stub_df | stub_cso | stub_ts | stub_np
| stub_ss | stub_gp | stub_pf | stub_rsv15 | stub_mf | stub_ac | stub_mc | stub_xm | stub_ve | stub_cp | stub_rsv22
| stub_rsv23 | stub_rsv24 | stub_rsv25 | stub_rsv26 | stub_rsv27 | stub_hv | stub_vc | stub_sx | stub_rsv31
| stub_apic_timer | stub_apic_keyboard | stub_apic_spurious | stub_irq_generic.

Inductive handler :=
| handler_divide_error | handler_debug | handler_nmi | handler_breakpoint | handler_overflow | handler_bound_range
| handler_invalid_opcode | handler_device_not_available | handler_double_fault | handler_coproc_seg_overrun
| handler_invalid_tss | handler_segment_not_present | handler_stack_fault | handler_general_protection
| handler_page_fault | handler_reserved | handler_x87_fpu | handler_alignment_check | handler_machine_check
| handler_simd_exception | handler_virtualization | handler_control_protection | handler_hypervisor_injection
| handler_vmm_communication | handler_security_exception | handler_unhandled_irq | handler_apic_timer
| handler_apic_keyboard | handler_apic_spurious.

Inductive reg := RAX | RBX | RCX | RDX | RSI | RDI | RBP | R8 | R9 | R10 | R11 | R12 | R13 | R14 | R15 | RSP.

#[global] Instance reg_eq_dec : EqDecision reg.
Proof. solve_decision. Defined.
#[global] Instance stub_eq_dec : EqDecision stub.
Proof. solve_decision. Defined.
#[global] Instance IdtEntry_eq_dec : EqDecision IdtEntry.
Proof. solve_decision. Defined.

Inductive instr := PUSH_IMM (v : Z) | PUSH (r : reg) | POP (r : reg) | MOV (d s : reg) | AND_RSP_M16 | ADD_RSP (n : Z) | CALL | IRETQ.

(** The fifteen registers of the frame, lowest address first. *)
Definition frame_regs : list reg := [RAX; RBX; RCX; RDX; RSI; RDI; RBP; R8; R9; R10; R11; R12; R13; R14; R15].

Definition save_code : list instr :=
  [PUSH R15; PUSH R14; PUSH R13; PUSH R12; PUSH R11; PUSH R10; PUSH R9; PUSH R8; PUSH RBP; PUSH RDI; PUSH RSI; PUSH RDX;
   PUSH RCX; PUSH RBX; PUSH RAX; MOV RDI RSP; MOV RBX RSP; AND_RSP_M16].

Definition restore_code : list instr :=
  [MOV RSP RBX; POP RAX; POP RBX; POP RCX; POP RDX; POP RSI; POP RDI; POP RBP; POP R8; POP R9; POP R10; POP R11; POP R12;
   POP R13; POP R14; POP R15; ADD_RSP 8; IRETQ].

(** [make_exception_stub!] pushes a dummy error code,
    [make_exception_stub_error_code!] does not. *)
Definition make_exception_stub (h : handler) : list instr * handler := (PUSH_IMM 0 :: save_code ++ CALL :: restore_code, h).
Definition make_exception_stub_error_code (h : handler) : list instr * handler := (save_code ++ CALL :: restore_code, h).

Definition stub_code (s : stub) : list instr * handler :=
  match s with
  | stub_de => make_exception_stub handler_divide_error
  | stub_db => make_exception_stub handler_debug
  | stub_nmi => make_exception_stub handler_nmi
  | stub_bp => make_exception_stub handler_breakpoint
  | stub_of => make_exception_stub handler_overflow
  | stub_br => make_exception_stub handler_bound_range
  | stub_ud => make_exception_stub handler_invalid_opcode
  | stub_nm => make_exception_stub handler_device_not_available
  | stub_df => make_exception_stub_error_code handler_double_fault
  | stub_cso => make_exception_stub handler_coproc_seg_overrun
  | stub_ts => make_exception_stub_error_code handler_invalid_tss
  | stub_np => make_exception_stub_error_code handler_segment_not_present
  | stub_ss => make_exception_stub_error_code handler_stack_fault
  | stub_gp => make_exception_stub_error_code handler_general_protection
  | stub_pf => make_exception_stub_error_code handler_page_fault
  | stub_mf => make_exception_stub handler_x87_fpu
  | stub_ac => make_exception_stub_error_code handler_alignment_check
  | stub_mc => make_exception_stub handler_machine_check
  | stub_xm => make_exception_stub handler_simd_exception
  | stub_ve => make_exception_stub handler_virtualization
  | stub_cp => make_exception_stub handler_control_protection
  | stub_rsv15 | stub_rsv22 | stub_rsv23 | stub_rsv24 | stub_rsv25 | stub_rsv26 | stub_rsv27 | stub_rsv31 =>
      make_exception_stub handler_reserved
  | stub_hv => make_exception_stub handler_hypervisor_injection
  | stub_vc => make_exception_stub handler_vmm_communication
  | stub_sx => make_exception_stub_error_code handler_security_exception
  | stub_apic_timer => make_exception_stub handler_apic_timer
  | stub_apic_keyboard => make_exception_stub handler_apic_keyboard
  | stub_apic_spurious => make_exception_stub handler_apic_spurious
  | stub_irq_generic => make_exception_stub handler_unhandled_irq
  end.

(** ** The table *)

(** The assignments of [init_idt] before its loop, and after it. *)
Definition exception_gates : list (Z * (Z → Z → IdtEntry) * stub * Z) :=
  [(0, interrupt_gate, stub_de, 0); (1, trap_gate, stub_db, 0); (2, interrupt_gate, stub_nmi, 0); (3, trap_gate, stub_bp, 0);
   (4, interrupt_gate, stub_of, 0); (5, interrupt_gate, stub_br, 0); (6, interrupt_gate, stub_ud, 0); (7, interrupt_gate, stub_nm, 0);
   (8, interrupt_gate, stub_df, 1); (9, interrupt_gate, stub_cso, 0); (10, interrupt_gate, stub_ts, 0); (11, interrupt_gate, stub_np, 0);
   (12, interrupt_gate, stub_ss, 0); (13, interrupt_gate, stub_gp, 0); (14, interrupt_gate, stub_pf, 0); (15, interrupt_gate, stub_rsv15, 0);
   (16, interrupt_gate, stub_mf, 0); (17, interrupt_gate, stub_ac, 0); (18, interrupt_gate, stub_mc, 0); (19, interrupt_gate, stub_xm, 0);
   (20, interrupt_gate, stub_ve, 0); (21, interrupt_gate, stub_cp, 0); (22, interrupt_gate, stub_rsv22, 0);
   (23, interrupt_gate, stub_rsv23, 0); (24, interrupt_gate, stub_rsv24, 0); (25, interrupt_gate, stub_rsv25, 0);
   (26, interrupt_gate, stub_rsv26, 0); (27, interrupt_gate, stub_rsv27, 0); (28, interrupt_gate, stub_hv, 0);
   (29, interrupt_gate, stub_vc, 0); (30, interrupt_gate, stub_sx, 0); (31, interrupt_gate, stub_rsv31, 0)].

Definition apic_gates : list (Z * (Z → Z → IdtEntry) * stub * Z) :=
  [(0x20, interrupt_gate, stub_apic_timer, 0); (0x21, interrupt_gate, stub_apic_keyboard, 0); (0xFF, interrupt_gate, stub_apic_spurious, 0)].

Definition IDT_static : list IdtEntry := replicate 256 missing.

Section table.

(** The addresses of the trampolines. *)
Context (addr : stub → Z).

Definition install (gates : list (Z * (Z → Z → IdtEntry) * stub * Z)) (idt : list IdtEntry) : outcome (list IdtEntry) :=
  for_each gates (λ '(i, gate, s, ist), λ idt, slot_set idt i (gate (addr s) ist)) idt.

Definition init_idt (idt : list IdtEntry) : outcome (list IdtEntry) :=
  idt ← install exception_gates idt;
  idt ← for_range (256 - 32) 32 (λ i idt, slot_set idt i (interrupt_gate (addr stub_irq_generic) 0)) idt;
  install apic_gates idt.

End table.

(** [lidt]: limit and base *)
Definition load_idt (idt_addr : Z) (idt : list IdtEntry) : Z * Z := ((16 * Z.of_nat (length idt) - 1) mod 2 ^ 16, idt_addr).

(** ** The processor *)

Record Core := mk_Core { regs : reg → Z; c_rip : Z; c_cs : Z; c_rflags : Z; c_ss : Z; ram : mem }.

Definition upd (r : reg) (v : Z) (f : reg → Z) : reg → Z := λ x, if decide (x = r) then v else f x.

Definition set_reg (r : reg) (v : Z) (c : Core) : Core := mk_Core (upd r v (regs c)) (c_rip c) (c_cs c) (c_rflags c) (c_ss c) (ram c).

Definition push (v : Z) (c : Core) : Core :=
  let sp := regs c RSP ⊟ 8 in
  mk_Core (upd RSP sp (regs c)) (c_rip c) (c_cs c) (c_rflags c) (c_ss c) (store64 (ram c) sp v).

Definition pop (r : reg) (c : Core) : Core :=
  let v := load64 (ram c) (regs c RSP) in
  set_reg r v (set_reg RSP (regs c RSP ⊞ 8) c).

(** [iretq] pops RIP, CS, RFLAGS, RSP and SS. *)
Definition iretq (c : Core) : Core :=
  let w i := load64 (ram c) (regs c RSP ⊞ 8 * i) in
  mk_Core (upd RSP (w 3) (regs c)) (w 0) (w 1) (w 2) (w 4) (ram c).

(** [call] is the compiled handler with its [ret]; [ra] the return address. *)
Definition exec (call : Core → Core) (ra : Z) (i : instr) (c : Core) : Core :=
  match i with
  | PUSH_IMM v => push v c
  | PUSH r => push (regs c r) c
  | POP r => pop r c
  | MOV d s => set_reg d (regs c s) c
  | AND_RSP_M16 => set_reg RSP (Z.land (regs c RSP) (not64 15)) c
  | ADD_RSP n => set_reg RSP (regs c RSP ⊞ n) c
  | CALL => call (push ra c)
  | IRETQ => iretq c
  end.

Definition run (call : Core → Core) (ra : Z) (code : list instr) (c : Core) : Core :=
  foldl (λ c i, exec call ra i c) c code.

(** A gate as the processor decodes it. *)
Record gate := mk_gate { g_offset : Z; g_selector : Z; g_ist : Z; g_trap : bool; g_dpl : Z; g_present : bool }.

Definition decode_gate (e : IdtEntry) : gate :=
  mk_gate (offset_low e + 2 ^ 16 * offset_mid e + 2 ^ 32 * offset_high e) (selector e) (Sdm.bits (ist_and_rsv e) 0 3)
    (Z.testbit (type_attr e) 0) (Sdm.bits (type_attr e) 5 2) (Z.testbit (type_attr e) 7).

(** The stack an interrupt is taken on: the IST entry the gate names, the RSP0 of
    the TSS when the privilege level changes, or the interrupted stack; aligned to
    16 bytes. *)
Definition entry_stack (g : gate) (rsp0 : Z) (ist : Z → Z) (c : Core) : Z :=
  Z.land (if g_ist g =? 0 then if Z.land (c_cs c) 3 =? 0 then regs c RSP else rsp0 else ist (g_ist g)) (not64 15).

(** An interrupt gate clears IF; both kinds clear TF, NT and RF. *)
Definition entry_flags (g : gate) (flags : Z) : Z :=
  Z.ldiff flags (2 ^ 8 + 2 ^ 14 + 2 ^ 16 + if g_trap g then 0 else 2 ^ 9).

Definition push_all (ws : list Z) (c : Core) : Core := foldl (λ c w, push w c) c ws.

(** Delivery of an interrupt through [g], with the error code if it has one. *)
Definition deliver (g : gate) (rsp0 : Z) (ist : Z → Z) (err : option Z) (c : Core) : Core :=
  let c1 := push_all ([c_ss c; regs c RSP; c_rflags c; c_cs c; c_rip c] ++ option_list err)
              (set_reg RSP (entry_stack g rsp0 ist c) c) in
  mk_Core (regs c1) (g_offset g) (g_selector g) (entry_flags g (c_rflags c))
    (if Z.land (c_cs c) 3 =? 0 then c_ss c else 0) (ram c1).

(** Exceptions for which the processor pushes an error code. *)
Definition pushes_error_code (v : Z) : bool := bool_decide (v ∈ [8; 10; 11; 12; 13; 14; 17; 21; 29; 30]).

(** ** The frame a handler receives *)

Record InterruptFrame := mk_InterruptFrame {
  f_rax : Z; f_rbx : Z; f_rcx : Z; f_rdx : Z; f_rsi : Z; f_rdi : Z; f_rbp : Z; f_r8 : Z; f_r9 : Z; f_r10 : Z; f_r11 : Z;
  f_r12 : Z; f_r13 : Z; f_r14 : Z; f_r15 : Z; f_error_code : Z; f_rip : Z; f_cs : Z; f_rflags : Z; f_rsp : Z; f_ss : Z
}.

(** [&*(a as *const InterruptFrame)] *)
Definition frame_at (m : mem) (a : Z) : InterruptFrame :=
  let w i := load64 m (a + 8 * i) in
  mk_InterruptFrame (w 0) (w 1) (w 2) (w 3) (w 4) (w 5) (w 6) (w 7) (w 8) (w 9) (w 10) (w 11) (w 12) (w 13) (w 14) (w 15)
    (w 16) (w 17) (w 18) (w 19) (w 20).

(** The interrupted context, as a frame. *)
Definition context_frame (c : Core) (err : Z) : InterruptFrame :=
  mk_InterruptFrame (regs c RAX) (regs c RBX) (regs c RCX) (regs c RDX) (regs c RSI) (regs c RDI) (regs c RBP) (regs c R8)
    (regs c R9) (regs c R10) (regs c R11) (regs c R12) (regs c R13) (regs c R14) (regs c R15) err (c_rip c) (c_cs c)
    (c_rflags c) (regs c RSP) (c_ss c).

(** ** Pushing and popping lists *)

Definition same_control (c c' : Core) : Prop :=
  c_rip c' = c_rip c ∧ c_cs c' = c_cs c ∧ c_rflags c' = c_rflags c ∧ c_ss c' = c_ss c.

Lemma same_control_refl c : same_control c c.
Proof. done. Qed.
Lemma same_control_trans c1 c2 c3 : same_control c1 c2 → same_control c2 c3 → same_control c1 c3.
Proof. intros (? & ? & ? & ?) (? & ? & ? & ?). split_and!; congruence. Qed.

Lemma upd_same r v f : upd r v f r = v.
Proof. unfold upd. by rewrite decide_True. Qed.
Lemma upd_other r r' v f : r' ≠ r → upd r v f r' = f r'.
Proof. intros. unfold upd. by rewrite decide_False. Qed.

Lemma words_at_app m a l1 l2 :
  words_at m a (l1 ++ l2) ↔ words_at m a l1 ∧ words_at m (a + 8 * Z.of_nat (length l1)) l2.
Proof.
  revert a. induction l1 as [|w l1 IH]; intros a; cbn [app length].
  - rewrite Z.mul_0_r, Z.add_0_r. split; [split; [apply words_at_nil|done] | by intros []].
  - rewrite !words_at_cons, IH. replace (a + 8 + 8 * Z.of_nat (length l1)) with (a + 8 * Z.of_nat (S (length l1))) by lia. tauto.
Qed.

Lemma words_at_store m a ws b v : words_at m a ws → apart b 8 a (8 * Z.of_nat (length ws)) → words_at (store64 m b v) a ws.
Proof.
  intros Hw Hap. eapply words_at_agree; [|exact Hw]. intros i Hi. apply load64_store64_ne. unfold apart in *. lia.
Qed.

(** Pushing [ws] leaves them below the old stack pointer, the last lowest. *)
Lemma push_all_ok ws c : Forall in_u64 ws → 8 * Z.of_nat (length ws) ≤ regs c RSP < W64 →
  let c' := push_all ws c in
  (∀ r, regs c' r = upd RSP (regs c RSP - 8 * Z.of_nat (length ws)) (regs c) r) ∧ same_control c c' ∧
  words_at (ram c') (regs c RSP - 8 * Z.of_nat (length ws)) (reverse ws) ∧
  agree_off (span (regs c RSP - 8 * Z.of_nat (length ws)) (8 * Z.of_nat (length ws))) (ram c) (ram c').
Proof.
  revert c. induction ws as [|w ws IH]; intros c Hf Hsp.
  { cbn. rewrite Z.sub_0_r. split_and!; [intros r; unfold upd; by destruct (decide _) as [->|]|done|apply words_at_nil|apply agree_off_refl]. }
  apply Forall_cons in Hf as [Hw Hf]. cbn [push_all foldl length]. change (foldl _ ?c0 ws) with (push_all ws c0).
  cbn [length] in Hsp. assert (W64 = 2 ^ 64) as HW by done.
  assert (regs (push w c) RSP = regs c RSP - 8) as Hsp'.
  { unfold push. cbn [regs]. rewrite upd_same. apply u64_small. lia. }
  assert (ram (push w c) = store64 (ram c) (regs c RSP - 8) w) as Hram.
  { unfold push. cbn [ram]. by rewrite u64_small by lia. }
  destruct (IH (push w c) Hf ltac:(rewrite Hsp'; lia)) as (Hr & Hc & Hwd & Ha). rewrite Hsp' in *.
  replace (regs c RSP - 8 * Z.of_nat (S (length ws))) with (regs c RSP - 8 - 8 * Z.of_nat (length ws)) by lia.
  split_and!.
  - intros r. rewrite Hr. unfold upd, push. cbn [regs]. destruct (decide (r = RSP)) as [->|]; [done|]. by rewrite upd_other.
  - eapply same_control_trans; [|exact Hc]. done.
  - rewrite reverse_cons. apply words_at_app. split; [exact Hwd|]. rewrite length_reverse.
    replace (regs c RSP - 8 - 8 * Z.of_nat (length ws) + 8 * Z.of_nat (length ws)) with (regs c RSP - 8) by lia.
    apply words_at_cons. split; [|apply words_at_nil].
    rewrite (agree_off_span _ _ _ _ _ Ha) by (unfold apart; lia). rewrite Hram. by apply load64_store64_same.
  - eapply agree_off_trans; [apply (agree_off_store64 _ _ (regs c RSP - 8) w); unfold span; lia|].
    rewrite <- Hram. eapply agree_off_mono; [|exact Ha]. unfold span. lia.
Qed.

(** Saving registers is pushing their values. *)
Lemma run_pushes call ra rs c : RSP ∉ rs → run call ra (PUSH <$> rs) c = push_all (regs c <$> rs) c.
Proof.
  revert c. induction rs as [|r rs IH]; intros c Hn; [done|]. apply not_elem_of_cons in Hn as [Hr Hn].
  cbn [fmap list_fmap run foldl exec push_all]. change (foldl _ ?c0 (PUSH <$> rs)) with (run call ra (PUSH <$> rs) c0).
  change (foldl _ ?c0 (regs c <$> rs)) with (push_all (regs c <$> rs) c0). rewrite IH by done. f_equal.
  apply list_fmap_ext. intros i r' Hr'. unfold push. cbn [regs]. rewrite upd_other; [done|].
  intros ->. apply Hn. by eapply list_elem_of_lookup_2.
Qed.

(** Popping registers loads them from consecutive words. *)
Lemma run_pops call ra rs ws c : RSP ∉ rs → NoDup rs → length ws = length rs → words_at (ram c) (regs c RSP) ws →
  0 ≤ regs c RSP → regs c RSP + 8 * Z.of_nat (length rs) < W64 →
  let c' := run call ra (POP <$> rs) c in
  (∀ i r w, rs !! i = Some r → ws !! i = Some w → regs c' r = w) ∧ (∀ r, r ∉ rs → r ≠ RSP → regs c' r = regs c r) ∧
  regs c' RSP = regs c RSP + 8 * Z.of_nat (length rs) ∧ ram c' = ram c ∧ same_control c c'.
Proof.
  revert ws c. induction rs as [|r rs IH]; intros [|w ws] c Hn Hnd Hl Hw H0 Hsp; try done.
  { cbn. rewrite Z.add_0_r. split_and!; try done. }
  apply not_elem_of_cons in Hn as [Hr Hn]. apply NoDup_cons in Hnd as [Hr' Hnd]. apply words_at_cons in Hw as [Hw0 Hw].
  cbn [fmap list_fmap run foldl exec]. change (foldl _ ?c0 (POP <$> rs)) with (run call ra (POP <$> rs) c0).
  cbn [length] in *. assert (W64 = 2 ^ 64) as HW by done.
  assert (regs (pop r c) RSP = regs c RSP + 8) as Esp.
  { unfold pop, set_reg. cbn [regs]. rewrite upd_other, upd_same by done. apply u64_small. lia. }
  destruct (IH ws (pop r c) Hn Hnd ltac:(lia)) as (Hv & Hk & Hs & Hm & Hc); [rewrite Esp; exact Hw|lia|lia|].
  assert (∀ r', r' ≠ r → r' ≠ RSP → regs (pop r c) r' = regs c r') as Hkeep.
  { intros r' H1 H2. unfold pop, set_reg. cbn [regs]. by rewrite !upd_other. }
  split_and!.
  - intros [|i] r' w' Hr'' Hw'; cbn in Hr'', Hw'; [|by eapply Hv].
    injection Hr'' as <-. injection Hw' as <-. rewrite Hk by done. unfold pop, set_reg. cbn [regs]. by rewrite upd_same.
  - intros r' H1 H2. apply not_elem_of_cons in H1 as [H1 H1']. rewrite Hk by done. by apply Hkeep.
  - rewrite Hs, Esp. lia.
  - by rewrite Hm.
  - eapply same_control_trans; [|exact Hc]. done.
Qed.

(** ** What the table holds *)

Lemma make_gate_ok kind h ist : in_u64 h → 0 ≤ ist < 8 → kind = INTERRUPT_GATE ∨ kind = TRAP_GATE →
  decode_gate (make_gate kind h ist) = mk_gate h KERNEL_CS ist (bool_decide (kind = TRAP_GATE)) 0 true.
Proof.
  intros Hh Hi Hk. unfold decode_gate, make_gate. cbn [offset_low selector ist_and_rsv type_attr offset_mid offset_high].
  change 0xFFFF with (Z.ones 16). change 0x7 with (Z.ones 3). unfold u32, Sdm.bits.
  rewrite !Z.shiftr_0_r, !Z.land_ones, !Z.shiftr_div_pow2 by lia. rewrite !(Z.mod_small ist) by lia.
  unfold in_u64, W64 in Hh. rewrite (Z.mod_small (h / 2 ^ 32)) by (split; [apply Z.div_pos | apply Z.div_lt_upper_bound]; lia).
  replace (h mod 2 ^ 16 + 2 ^ 16 * (h / 2 ^ 16 mod 2 ^ 16) + 2 ^ 32 * (h / 2 ^ 32)) with h.
  - destruct Hk as [-> | ->]; reflexivity.
  - change (2 ^ 32) with (2 ^ 16 * 2 ^ 16). rewrite <- Z.div_div by lia.
    pose proof (Z.div_mod h (2 ^ 16) ltac:(lia)). pose proof (Z.div_mod (h / 2 ^ 16) (2 ^ 16) ltac:(lia)). lia.
Qed.

(** The architecture's assignment of exceptions to vectors, with the kernel's
    stub for each. *)
Definition exception_stubs : list stub :=
  [stub_de; stub_db; stub_nmi; stub_bp; stub_of; stub_br; stub_ud; stub_nm; stub_df; stub_cso; stub_ts; stub_np; stub_ss;
   stub_gp; stub_pf; stub_rsv15; stub_mf; stub_ac; stub_mc; stub_xm; stub_ve; stub_cp; stub_rsv22; stub_rsv23; stub_rsv24;
   stub_rsv25; stub_rsv26; stub_rsv27; stub_hv; stub_vc; stub_sx; stub_rsv31].

Definition vector_stub (v : Z) : stub :=
  if v =? 0x20 then stub_apic_timer else if v =? 0x21 then stub_apic_keyboard else if v =? 0xFF then stub_apic_spurious
  else default stub_irq_generic (exception_stubs !! Z.to_nat v).

Definition is_trap (v : Z) : bool := (v =? 1) || (v =? 3).
Definition vector_ist (v : Z) : Z := if v =? 8 then 1 else 0.

Definition vector_gate (addr : stub → Z) (v : Z) : IdtEntry :=
  (if is_trap v then trap_gate else interrupt_gate) (addr (vector_stub v)) (vector_ist v).

Lemma init_idt_ok addr : init_idt addr IDT_static = Done (vector_gate addr <$> seqZ 0 256).
Proof. lazy -[interrupt_gate trap_gate]. reflexivity. Qed.

Lemma init_idt_lookup addr v : 0 ≤ v < 256 → (vector_gate addr <$> seqZ 0 256) !! Z.to_nat v = Some (vector_gate addr v).
Proof.
  intros Hv. rewrite list_lookup_fmap, lookup_seqZ_lt by lia. cbn. f_equal. f_equal. lia.
Qed.

Lemma vector_gate_ok addr v : (∀ s, in_u64 (addr s)) →
  decode_gate (vector_gate addr v) = mk_gate (addr (vector_stub v)) KERNEL_CS (vector_ist v) (is_trap v) 0 true.
Proof.
  intros Ha. unfold vector_gate. assert (0 ≤ vector_ist v < 8) as Hi by (unfold vector_ist; by destruct (v =? 8)).
  destruct (is_trap v); [unfold trap_gate | unfold interrupt_gate]; rewrite make_gate_ok by (done || auto); done.
Qed.

(** Whether the stub of a vector supplies the error code word. *)
Definition stub_pushes_dummy (s : stub) : bool := match (stub_code s).1 with PUSH_IMM _ :: _ => true | _ => false end.

Lemma stub_code_cases s :
  (stub_code s).1 = (if stub_pushes_dummy s then [PUSH_IMM 0] else []) ++ save_code ++ CALL :: restore_code.
Proof. by destruct s. Qed.

(** The stub and the processor agree on who pushes the error code, on every
    vector but 21 and 29. *)
Lemma error_code_agrees v : 0 ≤ v < 256 → v ≠ 21 → v ≠ 29 → stub_pushes_dummy (vector_stub v) = negb (pushes_error_code v).
Proof.
  intros Hv H1 H2. apply (bool_decide_unpack _).
  assert (∀ v, 0 ≤ v < 256 → bool_decide (v = 21) || bool_decide (v = 29) ||
    bool_decide (stub_pushes_dummy (vector_stub v) = negb (pushes_error_code v)) = true) as H.
  { apply (forall_below 256). vm_compute. reflexivity. }
  specialize (H v Hv). rewrite !(bool_decide_eq_false_2 (v = _)) in H by done. by rewrite (H : bool_decide _ = true).
Qed.

(** ** From delivery to return *)

(** What the compiled handler promises its caller: it returns with the stack
    pointer popped, the callee-saved registers kept, and the frame, which it
    receives as a shared reference, not written. *)
Class SysVHandler (call : Core → Core) : Prop := {
  abi_rsp c : regs (call c) RSP = regs c RSP ⊞ 8;
  abi_saved c r : r ∈ [RBX; RBP; R12; R13; R14; R15] → regs (call c) r = regs c r;
  abi_frame c i : 0 ≤ i < 21 → load64 (ram (call c)) (regs c RDI + 8 * i) = load64 (ram c) (regs c RDI + 8 * i)
}.

Record core_ok (c : Core) : Prop := {
  core_regs r : in_u64 (regs c r);
  core_control : Forall in_u64 [c_ss c; c_rflags c; c_cs c; c_rip c]
}.

Lemma rsp_not_framed : RSP ∉ frame_regs.
Proof. by apply (bool_decide_unpack _). Qed.

Definition frame_words (c : Core) (e : Z) : list Z :=
  (regs c <$> frame_regs) ++ [e; c_rip c; c_cs c; c_rflags c; regs c RSP; c_ss c].

Lemma frame_at_words m a c e : words_at m a (frame_words c e) → frame_at m a = context_frame c e.
Proof.
  intros Hw. unfold frame_at, context_frame. cbv zeta.
  f_equal; match goal with |- load64 _ (_ + 8 * ?k) = _ => exact (Hw (Z.to_nat k) _ eq_refl) end.
Qed.

Section trampoline.
Context (call : Core → Core) (ra : Z) (g : gate) (rsp0 : Z) (ist : Z → Z) (c : Core).
Context (Hc : core_ok c).
Let entry := entry_stack g rsp0 ist c.
Context (Hentry : 200 ≤ entry < W64).

Lemma deliver_ok err : Forall in_u64 (option_list err) →
  let d := deliver g rsp0 ist err c in let n := 5 + Z.of_nat (length (option_list err)) in
  (∀ r, regs d r = upd RSP (entry - 8 * n) (regs c) r) ∧
  words_at (ram d) (entry - 8 * n) (option_list err ++ [c_rip c; c_cs c; c_rflags c; regs c RSP; c_ss c]) ∧
  agree_off (span (entry - 8 * n) (8 * n)) (ram c) (ram d).
Proof.
  intros He d n. pose proof (core_control _ Hc) as Hctl. repeat apply Forall_cons in Hctl as [? Hctl].
  pose proof (core_regs _ Hc RSP) as Hrsp. assert (length (option_list err) ≤ 1)%nat as Hle by (destruct err; cbn; lia).
  set (ws := [c_ss c; regs c RSP; c_rflags c; c_cs c; c_rip c] ++ option_list err).
  assert (Forall in_u64 ws) as Hws by (unfold ws; repeat (apply Forall_cons; split; [done|]); done).
  assert (Z.of_nat (length ws) = n) as Hn by (unfold ws, n; rewrite length_app; cbn [length]; lia).
  destruct (push_all_ok ws (set_reg RSP entry c) Hws) as (Hr & _ & Hw & Ha).
  { cbn [set_reg regs]. rewrite upd_same. lia. }
  cbn [set_reg regs ram] in *. rewrite upd_same, Hn in *. split_and!.
  - intros r. unfold d, deliver. cbn [regs]. fold entry. fold ws. rewrite Hr. unfold upd. by destruct (decide (r = RSP)).
  - unfold d, deliver. cbn [ram]. fold entry. fold ws. unfold ws in Hw at 2. rewrite reverse_app in Hw.
    replace (reverse (option_list err)) with (option_list err) in Hw by (by destruct err). exact Hw.
  - exact Ha.
Qed.

(** The pushes of a stub push the dummy code and the registers it is entered with. *)
Lemma run_save (dummy : bool) d :
  run call ra ((if dummy then [PUSH_IMM 0] else []) ++ (PUSH <$> reverse frame_regs)) d =
  push_all ((if dummy then [0] else []) ++ (regs d <$> reverse frame_regs)) d.
Proof.
  unfold push_all, run. rewrite !foldl_app.
  change (foldl (λ c0 i, exec call ra i c0) ?x (PUSH <$> reverse frame_regs)) with (run call ra (PUSH <$> reverse frame_regs) x).
  assert (RSP ∉ reverse frame_regs) as Hn by (by apply (bool_decide_unpack _)).
  rewrite run_pushes by done. unfold push_all. destruct dummy; [|done]. by cbn [foldl exec].
Qed.

(** After the pushes of the stub the frame is complete. *)
Lemma entry_frame_ok (dummy : bool) e :
  in_u64 e → (dummy = true → e = 0) →
  let d := deliver g rsp0 ist (if dummy then None else Some e) c in
  let p := run call ra ((if dummy then [PUSH_IMM 0] else []) ++ (PUSH <$> reverse frame_regs)) d in
  regs p RSP = entry - 168 ∧ words_at (ram p) (entry - 168) (frame_words c e) ∧ same_control d p ∧
  agree_off (span (entry - 168) 168) (ram c) (ram p).
Proof.
  intros He Hd d p. set (err := if dummy then None else Some e) in d. set (dl := if dummy then [0] else []).
  assert (Z.of_nat (length (option_list err)) + Z.of_nat (length dl) = 1) as Hlen by (unfold err, dl; by destruct dummy).
  destruct (deliver_ok err) as (Hr & Hw & Ha); [unfold err; destruct dummy; repeat constructor; apply He|]. fold d in Hr, Hw, Ha.
  set (n := 5 + Z.of_nat (length (option_list err))) in *.
  set (ws := dl ++ (regs d <$> reverse frame_regs)).
  assert (Forall in_u64 ws) as Hws.
  { apply Forall_app. split; [unfold dl; destruct dummy; repeat constructor; done|]. apply Forall_fmap, Forall_true. intros r.
    change (in_u64 (regs d r)). rewrite Hr. unfold upd. destruct (decide _); [unfold in_u64; lia | apply (core_regs _ Hc)]. }
  assert (Z.of_nat (length ws) = 15 + Z.of_nat (length dl)) as Hlw
    by (unfold ws; rewrite length_app, length_fmap; change (length (reverse frame_regs)) with 15%nat; lia).
  assert (p = push_all ws d) as -> by apply run_save.
  destruct (push_all_ok ws d Hws) as (Hpr & Hpc & Hpw & Hpa); [rewrite (Hr RSP), upd_same; lia|].
  rewrite (Hr RSP), upd_same, Hlw in Hpr, Hpw, Hpa.
  replace (entry - 8 * n - 8 * (15 + Z.of_nat (length dl))) with (entry - 168) in Hpr, Hpw, Hpa by (unfold n; lia).
  split_and!; [rewrite (Hpr RSP); apply upd_same| |done|].
  - assert (frame_words c e = reverse ws ++ option_list err ++ [c_rip c; c_cs c; c_rflags c; regs c RSP; c_ss c]) as ->.
    { unfold ws, frame_words. rewrite reverse_app, <- fmap_reverse, reverse_involutive.
      replace (regs d <$> frame_regs) with (regs c <$> frame_regs).
      - rewrite <- app_assoc. f_equal. unfold err, dl. destruct dummy; [rewrite Hd by done|]; reflexivity.
      - apply list_fmap_ext. intros i r Hi. rewrite Hr. symmetry. apply upd_other. intros ->.
        by apply (rsp_not_framed), (list_elem_of_lookup_2 _ i). }
    apply words_at_app. split; [exact Hpw|]. rewrite length_reverse, Hlw.
    replace (entry - 168 + 8 * (15 + Z.of_nat (length dl))) with (entry - 8 * n) by (unfold n; lia).
    eapply words_at_agree; [|exact Hw]. intros i Hi. apply (agree_off_span _ _ _ _ _ Hpa). unfold apart, n. lia.
  - eapply agree_off_trans; [eapply agree_off_mono; [|exact Ha] | eapply agree_off_mono; [|exact Hpa]]; unfold span, n; lia.
Qed.

(** The state at the call: RDI and RBX point at the frame. *)
Lemma save_ok (dummy : bool) e :
  in_u64 e → (dummy = true → e = 0) →
  let d := deliver g rsp0 ist (if dummy then None else Some e) c in
  let s := run call ra ((if dummy then [PUSH_IMM 0] else []) ++ save_code) d in
  regs s RDI = entry - 168 ∧ regs s RBX = entry - 168 ∧ regs s RSP = Z.land (entry - 168) (not64 15) ∧
  words_at (ram s) (entry - 168) (frame_words c e) ∧ same_control d s ∧ agree_off (span (entry - 168) 168) (ram c) (ram s).
Proof.
  intros He Hd d s. destruct (entry_frame_ok dummy e He Hd) as (Esp & Hw & Hctl & Ha). fold d in Esp, Hw, Hctl, Ha.
  assert (s = run call ra [MOV RDI RSP; MOV RBX RSP; AND_RSP_M16]
    (run call ra ((if dummy then [PUSH_IMM 0] else []) ++ (PUSH <$> reverse frame_regs)) d)) as ->.
  { unfold s, run. change save_code with ((PUSH <$> reverse frame_regs) ++ [MOV RDI RSP; MOV RBX RSP; AND_RSP_M16]).
    by rewrite app_assoc, foldl_app. }
  generalize dependent (run call ra ((if dummy then [PUSH_IMM 0] else []) ++ (PUSH <$> reverse frame_regs)) d).
  intros p Esp Hw Hctl Ha. cbn [run foldl exec]. unfold set_reg. cbn [regs ram].
  split_and!; [| | |exact Hw|exact Hctl|exact Ha]; repeat (rewrite upd_same || rewrite upd_other by done); by rewrite ?Esp.
Qed.

(** Popping the frame and returning through it restores the context. *)
Lemma restore_ok e s : words_at (ram s) (entry - 168) (frame_words c e) → regs s RBX = entry - 168 →
  let c' := run call ra restore_code s in (∀ r, regs c' r = regs c r) ∧ same_control c c'.
Proof.
  intros Hw Hbx c'. unfold frame_words in Hw. apply words_at_app in Hw as [Hw1 Hw2].
  set (s1 := set_reg RSP (regs s RBX) s).
  assert (regs s1 RSP = entry - 168) as Es1 by (unfold s1, set_reg; cbn [regs]; by rewrite upd_same).
  destruct (run_pops call ra frame_regs (regs c <$> frame_regs) s1) as (Hv & Hk & Hs & Hm & _);
    [by apply (bool_decide_unpack _)|by apply (bool_decide_unpack _)|by rewrite length_fmap|by rewrite Es1|rewrite Es1; lia|
     rewrite Es1; change (Z.of_nat (length frame_regs)) with 15; lia|].
  assert (c' = iretq (set_reg RSP (regs (run call ra (POP <$> frame_regs) s1) RSP ⊞ 8) (run call ra (POP <$> frame_regs) s1))) as ->
    by reflexivity.
  generalize dependent (run call ra (POP <$> frame_regs) s1). intros q Hv _ Hs Hm. rewrite Es1 in Hs.
  change (Z.of_nat (length frame_regs)) with 15 in Hs. change (Z.of_nat (length (regs c <$> frame_regs))) with 15 in Hw2.
  assert (W64 = 2 ^ 64) as HW by done. unfold iretq, set_reg. cbn [regs ram]. rewrite upd_same, Hs, Hm.
  replace (entry - 168 + 8 * 15 ⊞ 8) with (entry - 40) by (rewrite u64_small; lia).
  rewrite !words_at_cons in Hw2. destruct Hw2 as (_ & Hip & Hcs & Hfl & Hsp & Hss & _).
  rewrite !u64_small by lia. change (ram s1) with (ram s).
  replace (entry - 168 + 8 * 15 + 8) with (entry - 40 + 8 * 0) in Hip by lia.
  replace (entry - 168 + 8 * 15 + 8 + 8) with (entry - 40 + 8 * 1) in Hcs by lia.
  replace (entry - 168 + 8 * 15 + 8 + 8 + 8) with (entry - 40 + 8 * 2) in Hfl by lia.
  replace (entry - 168 + 8 * 15 + 8 + 8 + 8 + 8) with (entry - 40 + 8 * 3) in Hsp by lia.
  replace (entry - 168 + 8 * 15 + 8 + 8 + 8 + 8 + 8) with (entry - 40 + 8 * 4) in Hss by lia.
  rewrite Hip, Hcs, Hfl, Hsp, Hss. split; [|done]. intros r. unfold upd. cbn [regs].
  destruct (decide (r = RSP)) as [->|Hne]; [done|].
  assert (∃ i, frame_regs !! i = Some r) as [i Hi] by (apply list_elem_of_lookup; destruct r; done || by apply (bool_decide_unpack _)).
  apply (Hv i); [done|]. by rewrite list_lookup_fmap, Hi.
Qed.

End trampoline.

Lemma run_app call ra code1 code2 c : run call ra (code1 ++ code2) c = run call ra code2 (run call ra code1 c).
Proof. apply foldl_app. Qed.

Lemma land_not15_mod a : 0 ≤ a < W64 → Z.land a (not64 15) mod 16 = 0 ∧ 0 ≤ Z.land a (not64 15) ≤ a ∧ a - Z.land a (not64 15) < 16.
Proof.
  intros Ha. change 15 with (2 ^ 4 - 1). rewrite land_not64_mask by (done || lia). change (2 ^ 4) with 16.
  pose proof (Z.div_mod a 16 ltac:(lia)). pose proof (Z.mod_pos_bound a 16 ltac:(lia)).
  split; [|lia]. replace (a - a mod 16) with (a / 16 * 16) by lia. by rewrite Z.mod_mul.
Qed.

Lemma entry_flags_IF g flags : Z.testbit (entry_flags g flags) 9 = g_trap g && Z.testbit flags 9.
Proof. unfold entry_flags. rewrite Z.ldiff_spec, andb_comm. by destruct (g_trap g). Qed.

(** C8. Interrupts are transparent.  Take any vector but 21 and 29 and any
    interrupted context.  [init_idt] has installed a present gate that leads to the
    vector's stub, on IST1 for the double fault; the stub reaches its handler with
    RDI pointing at an [InterruptFrame] that holds exactly the interrupted
    registers, flags, selectors and the error code (zero if the vector has none),
    the stack 16-byte aligned, interrupts off unless the vector is #DB or #BP, and
    no memory changed outside the frame; and when the handler honours the calling
    convention, the code after it restores every register, the flags, the
    selectors, the stack and the instruction pointer of the interrupted context. *)
Theorem interrupt_transparent (addr : stub → Z) (call : Core → Core) (ra v rsp0 e : Z) (ist : Z → Z) (c : Core)
    `{!SysVHandler call} :
  (∀ s, in_u64 (addr s)) → 0 ≤ v < 256 → v ≠ 21 → v ≠ 29 → core_ok c → in_u64 e →
  ∃ idt entry, init_idt addr IDT_static = Done idt ∧ idt !! Z.to_nat v = Some entry ∧
    let g := decode_gate entry in
    g_present g = true ∧ g_offset g = addr (vector_stub v) ∧ g_selector g = KERNEL_CS ∧ g_ist g = (if v =? 8 then 1 else 0) ∧
    (200 ≤ entry_stack g rsp0 ist c < W64 →
     let d := deliver g rsp0 ist (if pushes_error_code v then Some e else None) c in
     ∃ pre post, (stub_code (vector_stub v)).1 = pre ++ CALL :: post ∧
       let at_call := run call ra pre d in
       frame_at (ram at_call) (regs at_call RDI) = context_frame c (if pushes_error_code v then e else 0) ∧
       regs at_call RSP mod 16 = 0 ∧ Z.testbit (c_rflags at_call) 9 = is_trap v && Z.testbit (c_rflags c) 9 ∧
       agree_off (span (regs at_call RDI) 168) (ram c) (ram at_call) ∧
       let c' := run call ra (pre ++ CALL :: post) d in (∀ r, regs c' r = regs c r) ∧ same_control c c').
Proof.
  intros Ha Hv H21 H29 Hc He. exists (vector_gate addr <$> seqZ 0 256), (vector_gate addr v).
  split; [apply init_idt_ok|]. split; [by apply init_idt_lookup|]. rewrite vector_gate_ok by done.
  set (g := mk_gate _ _ _ _ _ _). cbv zeta. do 4 (split; [done|]). intros Hentry.
  pose proof (stub_code_cases (vector_stub v)) as Hcode. rewrite (error_code_agrees v Hv H21 H29) in Hcode.
  set (dummy := negb (pushes_error_code v)) in Hcode. set (e' := if pushes_error_code v then e else 0).
  assert ((if pushes_error_code v then Some e else None) = if dummy then None else Some e') as ->
    by (unfold dummy, e'; by destruct (pushes_error_code v)).
  assert (in_u64 e') as He' by (unfold e'; by destruct (pushes_error_code v)).
  assert (dummy = true → e' = 0) as Hd by (unfold dummy, e'; by destruct (pushes_error_code v)).
  exists ((if dummy then [PUSH_IMM 0] else []) ++ save_code), restore_code. split; [by rewrite <- app_assoc|].
  destruct (save_ok call ra g rsp0 ist c Hc Hentry dummy e' He' Hd) as (Hdi & Hbx & Hsp & Hw & Hctl & Hag).
  set (d := deliver g rsp0 ist _ c) in *. rewrite (run_app call ra _ (CALL :: restore_code)).
  set (s := run call ra _ d) in *. set (entry := entry_stack g rsp0 ist c) in *. clearbody s.
  change (run call ra (CALL :: restore_code) s) with (run call ra restore_code (call (push ra s))).
  destruct (land_not15_mod (entry - 168) ltac:(lia)) as (Hmod & Hle & Hlt). rewrite Hdi, Hsp.
  split; [by apply frame_at_words|]. split; [done|]. split; [|split; [done|]].
  { destruct Hctl as (_ & _ & -> & _). unfold d, deliver. cbn [c_rflags]. apply entry_flags_IF. }
  apply (restore_ok call ra g rsp0 ist c Hentry e').
  - eapply words_at_agree; [|exact Hw]. intros i Hi. change (Z.of_nat (length (frame_words c e'))) with 21 in Hi.
    assert (regs (push ra s) RDI = entry - 168) as Hp by (unfold push; cbn [regs]; by rewrite upd_other).
    pose proof (abi_frame (push ra s) i Hi) as Hf. rewrite Hp in Hf. etransitivity; [exact Hf|]. unfold push. cbn [ram].
    rewrite Hsp. apply load64_store64_ne. unfold apart. rewrite u64_small by lia. lia.
  - rewrite abi_saved by (by apply (bool_decide_unpack _)). unfold push. cbn [regs]. by rewrite upd_other.
Qed.


(** A handler that clobbers RAX and returns. *)
Definition sample_handler (c : Core) : Core := set_reg RAX 7 (set_reg RSP (regs c RSP ⊞ 8) c).

#[global] Instance sample_handler_abi : SysVHandler sample_handler.
Proof.
  split; [done| |done]. intros c r Hr. unfold sample_handler, set_reg. cbn [regs].
  rewrite !upd_other; [done|..]; intros ->; revert Hr; by apply (bool_decide_unpack _).
Qed.

(** A ring 3 context with a different number in every register. *)
Definition sample_reg (r : reg) : Z :=
  match r with
  | RAX => 1 | RBX => 2 | RCX => 3 | RDX => 4 | RSI => 5 | RDI => 6 | RBP => 7 | R8 => 8 | R9 => 9 | R10 => 10 | R11 => 11
  | R12 => 12 | R13 => 13 | R14 => 14 | R15 => 15 | RSP => 0x7FFF0000
  end.
Definition sample_core : Core := mk_Core sample_reg 0x400000 0x33 0x202 0x2B ∅.

Lemma sample_core_ok : core_ok sample_core.
Proof. split; [by intros []|]. repeat constructor; done. Qed.

Lemma interrupt_transparent_witness :
  ∃ idt entry, init_idt (λ _, 0x1000) IDT_static = Done idt ∧ idt !! 14%nat = Some entry ∧
    let d := deliver (decode_gate entry) 0x9000 (λ _, 0) (Some 4) sample_core in
    ∃ pre post, (stub_code stub_pf).1 = pre ++ CALL :: post ∧
      frame_at (ram (run sample_handler 0x2000 pre d)) (regs (run sample_handler 0x2000 pre d) RDI) = context_frame sample_core 4 ∧
      ∀ r, regs (run sample_handler 0x2000 (pre ++ CALL :: post) d) r = sample_reg r.
Proof.
  destruct (interrupt_transparent (λ _, 0x1000) sample_handler 0x2000 14 0x9000 4 (λ _, 0) sample_core) as
    (idt & entry & Hi & He & Hp & Ho & Hs & Hist & Hrun); [done|lia|lia|lia|exact sample_core_ok|done|].
  exists idt, entry. split; [exact Hi|]. split; [exact He|].
  destruct Hrun as (pre & post & Hcode & Hf & _ & _ & _ & Hr & _).
  { unfold entry_stack. rewrite Hist. vm_compute. split; congruence. }
  exists pre, post. split; [exact Hcode|]. split; [exact Hf|exact Hr].
Defined.

(** Vectors 21 and 29: the processor pushes an error code and the stub pushes a
    dummy one below it, so every later field of the frame is one word off: the
    dump shows the error code as RIP, RIP as CS and so on. *)
Theorem error_code_frame_shifted :
  (∀ v, v = 21 ∨ v = 29 → pushes_error_code v = true ∧ stub_pushes_dummy (vector_stub v) = true) ∧
  let d := deliver (mk_gate 0x1000 KERNEL_CS 0 false 0 true) 0x9000 (λ _, 0) (Some 3) sample_core in
  let s := run sample_handler 0x2000 (PUSH_IMM 0 :: save_code) d in
  let f := frame_at (ram s) (regs s RDI) in
  f_error_code f = 0 ∧ f_rip f = 3 ∧ f_cs f = c_rip sample_core ∧ f_rflags f = c_cs sample_core ∧
  f_rsp f = c_rflags sample_core ∧ f_ss f = regs sample_core RSP.
Proof. split; [intros v [-> | ->]; done|]. vm_compute. split_and!; reflexivity. Qed.
