(* ===== verification/Keyboard.v ===== *)
(** * Keyboard.v: the PS/2 keyboard driver

    [src/crap_os/src/hardware_manager/keyboard.rs], the keyboard interrupt
    handler of [src/crap_os/src/processor_control/idt.rs] and the reader task
    of [src/crap_os/src/main.rs].  The handler pushes raw scancodes into a ring
    buffer and wakes the reader; the reader drains the buffer, decodes and
    prints, and blocks.  The byte the handler reads from port 0x60 is an
    argument; what the reader prints is returned as a list. *)

From S2P Require Import Prelude Machine Task Queues SleepQueue Scheduler SchedulerInv Bytes Text.

Local Open Scope Z_scope.

(** ** The decoder *)

(** The atomic flags. *)
Record Modifiers := mk_Modifiers {
  LSHIFT_HELD : bool; RSHIFT_HELD : bool; CAPS_ACTIVE : bool;
  EXTENDED : bool; CTRL_HELD : bool; ALT_HELD : bool
}.

Definition no_modifiers : Modifiers := mk_Modifiers false false false false false false.

Definition set_lshift (b : bool) (s : Modifiers) : Modifiers :=
  mk_Modifiers b (RSHIFT_HELD s) (CAPS_ACTIVE s) (EXTENDED s) (CTRL_HELD s) (ALT_HELD s).
Definition set_rshift (b : bool) (s : Modifiers) : Modifiers :=
  mk_Modifiers (LSHIFT_HELD s) b (CAPS_ACTIVE s) (EXTENDED s) (CTRL_HELD s) (ALT_HELD s).
Definition set_caps (b : bool) (s : Modifiers) : Modifiers :=
  mk_Modifiers (LSHIFT_HELD s) (RSHIFT_HELD s) b (EXTENDED s) (CTRL_HELD s) (ALT_HELD s).
Definition set_extended (b : bool) (s : Modifiers) : Modifiers :=
  mk_Modifiers (LSHIFT_HELD s) (RSHIFT_HELD s) (CAPS_ACTIVE s) b (CTRL_HELD s) (ALT_HELD s).
Definition set_ctrl (b : bool) (s : Modifiers) : Modifiers :=
  mk_Modifiers (LSHIFT_HELD s) (RSHIFT_HELD s) (CAPS_ACTIVE s) (EXTENDED s) b (ALT_HELD s).
Definition set_alt (b : bool) (s : Modifiers) : Modifiers :=
  mk_Modifiers (LSHIFT_HELD s) (RSHIFT_HELD s) (CAPS_ACTIVE s) (EXTENDED s) (CTRL_HELD s) b.

Definition SC_LSHIFT_MAKE : Z := 0x2A.
Definition SC_RSHIFT_MAKE : Z := 0x36.
Definition SC_LSHIFT_BREAK : Z := 0xAA.
Definition SC_RSHIFT_BREAK : Z := 0xB6.
Definition SC_CAPS_MAKE : Z := 0x3A.
Definition SC_EXTENDED : Z := 0xE0.
Definition SC_CTRL_MAKE : Z := 0x1D.
Definition SC_CTRL_BREAK : Z := 0x9D.
Definition SC_ALT_MAKE : Z := 0x38.
Definition SC_ALT_BREAK : Z := 0xB8.
Definition SC_ESC_MAKE : Z := 0x01.

Definition UNSHIFTED : list Z :=
  [0; 0] ++ bytes_of "123456" ++
  bytes_of "7890-=" ++ [0x08; 9] ++
  bytes_of "qwertyui" ++
  bytes_of "op[]" ++ [10; 0] ++ bytes_of "as" ++
  bytes_of "dfghjkl;" ++
  bytes_of "'`" ++ [0] ++ bytes_of "\zxcv" ++
  bytes_of "bnm,./" ++ [0] ++ bytes_of "*" ++
  [0] ++ bytes_of " " ++ [0; 0; 0; 0; 0; 0] ++
  [0; 0; 0; 0; 0; 0; 0] ++ bytes_of "7" ++
  bytes_of "89-456+1" ++
  bytes_of "230.".

(** 34 is the double quote. *)
Definition SHIFTED : list Z :=
  [0; 0] ++ bytes_of "!@#$%^" ++
  bytes_of "&*()_+" ++ [0x08; 9] ++
  bytes_of "QWERTYUI" ++
  bytes_of "OP{}" ++ [10; 0] ++ bytes_of "AS" ++
  bytes_of "DFGHJKL:" ++
  [34] ++ bytes_of "~" ++ [0] ++ bytes_of "|ZXCV" ++
  bytes_of "BNM<>?" ++ [0] ++ bytes_of "*" ++
  [0] ++ bytes_of " " ++ [0; 0; 0; 0; 0; 0] ++
  [0; 0; 0; 0; 0; 0; 0] ++ bytes_of "7" ++
  bytes_of "89-456+1" ++
  bytes_of "230.".

(** [u8::is_ascii_alphabetic] *)
Definition is_ascii_alphabetic (b : Z) : bool := (65 <=? b) && (b <=? 90) || (97 <=? b) && (b <=? 122).

(** The table lookups at the end of [process_scancode]. *)
Definition translate (scancode : Z) (shift caps_lock : bool) : outcome (option Z) :=
  base_char ← slot_get (if shift then SHIFTED else UNSHIFTED) scancode;
  if base_char =? 0 then Done None
  else if is_ascii_alphabetic base_char && caps_lock then
    c ← slot_get (if shift then UNSHIFTED else SHIFTED) scancode;
    Done (Some c)
  else Done (Some base_char).

Definition process_scancode (scancode : Z) (s : Modifiers) : outcome (option Z * Modifiers) :=
  if scancode =? SC_EXTENDED then Done (None, set_extended true s)
  else if EXTENDED s then Done (None, set_extended false s)
  else if scancode =? SC_LSHIFT_MAKE then Done (None, set_lshift true s)
  else if scancode =? SC_RSHIFT_MAKE then Done (None, set_rshift true s)
  else if scancode =? SC_LSHIFT_BREAK then Done (None, set_lshift false s)
  else if scancode =? SC_RSHIFT_BREAK then Done (None, set_rshift false s)
  else if scancode =? SC_CTRL_MAKE then Done (None, set_ctrl true s)
  else if scancode =? SC_CTRL_BREAK then Done (None, set_ctrl false s)
  else if scancode =? SC_ALT_MAKE then Done (None, set_alt true s)
  else if scancode =? SC_ALT_BREAK then Done (None, set_alt false s)
  else if scancode =? SC_CAPS_MAKE then Done (None, set_caps (negb (CAPS_ACTIVE s)) s)
  else if negb (Z.land scancode 0x80 =? 0) then Done (None, s)
  else if scancode =? SC_ESC_MAKE then
    if CTRL_HELD s && ALT_HELD s then Done (Some 0xFF, s) else Done (Some 0x1B, s)
  else if Z.of_nat (length UNSHIFTED) <=? scancode then Done (None, s)
  else
    c ← translate scancode (LSHIFT_HELD s || RSHIFT_HELD s) (CAPS_ACTIVE s);
    Done (c, s).

(** ** The scancode ring and the driver *)

Definition RING_SIZE : Z := 256.
Definition ScancodeBuffer := Ring Z.
Definition ScancodeBuffer_new : ScancodeBuffer := ring_new 256 0.

(** A push into a full buffer is dropped. *)
Definition ScancodeBuffer_push (q : ScancodeBuffer) (scancode : Z) : outcome ScancodeBuffer :=
  '(_, q) ← ring_push id RING_SIZE tt q scancode; Done q.
Definition ScancodeBuffer_pop : ScancodeBuffer → outcome (option Z * ScancodeBuffer) :=
  ring_pop Some id RING_SIZE.

(** The statics of the driver and the kernel they live in. *)
Record Driver := mk_Driver {
  SCANCODE_BUFFER : ScancodeBuffer;
  KEYBOARD_TASK_ID : option TaskId;
  modifiers : Modifiers;
  kernel : Kernel
}.

Definition set_buffer (q : ScancodeBuffer) (d : Driver) : Driver :=
  mk_Driver q (KEYBOARD_TASK_ID d) (modifiers d) (kernel d).
Definition set_modifiers (s : Modifiers) (d : Driver) : Driver :=
  mk_Driver (SCANCODE_BUFFER d) (KEYBOARD_TASK_ID d) s (kernel d).
Definition set_kernel (k : Kernel) (d : Driver) : Driver :=
  mk_Driver (SCANCODE_BUFFER d) (KEYBOARD_TASK_ID d) (modifiers d) k.

Definition keyboard_set_task_id (task_id : TaskId) (d : Driver) : Driver :=
  mk_Driver (SCANCODE_BUFFER d) (Some task_id) (modifiers d) (kernel d).

Definition keyboard_push_scancode (scancode : Z) (d : Driver) : outcome Driver :=
  q ← ScancodeBuffer_push (SCANCODE_BUFFER d) scancode;
  let d := set_buffer q d in
  match KEYBOARD_TASK_ID d with
  | Some task_id => k ← wake_discard task_id (kernel d); Done (set_kernel k d)
  | None => Done d
  end.

Definition keyboard_pop_scancode (d : Driver) : outcome (option Z * Driver) :=
  '(r, q) ← ScancodeBuffer_pop (SCANCODE_BUFFER d); Done (r, set_buffer q d).

(** [handler_apic_keyboard]: the scancode is what port 0x60 delivered. *)
Definition handler_apic_keyboard (port : Z) (d : Driver) : outcome Driver := keyboard_push_scancode port d.

(** ** The reader task *)

(** What the reader puts on the screen. *)
Inductive printed := Shutdown | Char (c : Z).

(** The byte is printed as a string of its own. *)
Definition print_char (ascii : Z) : list printed :=
  if ascii =? 0xFF then [Shutdown] else match from_utf8 [ascii] with Some s => Char <$> s | None => [] end.

(** [while let Some(scancode) = keyboard_pop_scancode()] *)
Fixpoint drain_keyboard (fuel : nat) (d : Driver) : outcome (list printed * Driver) :=
  match fuel with
  | O => OutOfFuel
  | S fuel =>
      '(sc, d) ← keyboard_pop_scancode d;
      match sc with
      | None => Done ([], d)
      | Some scancode =>
          '(c, s) ← process_scancode scancode (modifiers d);
          let out := match c with Some ascii => print_char ascii | None => [] end in
          '(rest, d) ← drain_keyboard fuel (set_modifiers s d);
          Done (out ++ rest, d)
      end
  end.

(** One round of the reader's [loop]: drain, then block. *)
Definition keyboard_round (d : Driver) : outcome (list printed * Driver) :=
  '(out, d) ← drain_keyboard 257 d;
  '(_, k) ← yield_blocked (kernel d);
  Done (out, set_kernel k d).

Example decoder_runs :
  process_scancode 0x1E no_modifiers = Done (Some 97, no_modifiers) ∧
  process_scancode 0x1E (mk_Modifiers true false true false false false) =
    Done (Some 97, mk_Modifiers true false true false false false) ∧
  process_scancode 0x28 (mk_Modifiers false true true false false false) =
    Done (Some 34, mk_Modifiers false true true false false false).
Proof. vm_compute. split_and!; reflexivity. Qed.

(** ** The decoder's contract *)

Module Layout.

(** What the keyboard reports: a key going down or up.  An E0 prefix and the
    byte after it report nothing. *)
Inductive key_event := Press (key : Z) | Release (key : Z).

Definition report (prefixed : bool) (byte : Z) : option key_event * bool :=
  if byte =? 0xE0 then (None, true)
  else if prefixed then (None, false)
  else (Some (if byte <? 128 then Press byte else Release (byte - 128)), false).

(** Histories are latest first.  A key is held when it was last seen going
    down; caps lock is on after an odd number of presses. *)
Fixpoint held (key : Z) (h : list key_event) : bool :=
  match h with
  | [] => false
  | Press k :: h => if k =? key then true else held key h
  | Release k :: h => if k =? key then false else held key h
  end.

Fixpoint caps (h : list key_event) : bool :=
  match h with
  | [] => false
  | Press k :: h => if k =? 0x3A then negb (caps h) else caps h
  | Release _ :: h => caps h
  end.

(** The rows of the US layout: the first key code, the plain characters and
    the shifted ones. *)
Definition rows : list (Z * list Z * list Z) :=
  [ (0x02, bytes_of "1234567890-=", bytes_of "!@#$%^&*()_+");
    (0x0E, [8; 9], [8; 9]);
    (0x10, bytes_of "qwertyuiop[]", bytes_of "QWERTYUIOP{}");
    (0x1C, [10], [10]);
    (0x1E, bytes_of "asdfghjkl;'`", bytes_of "ASDFGHJKL:" ++ [34] ++ bytes_of "~");
    (0x2B, bytes_of "\zxcvbnm,./", bytes_of "|ZXCVBNM<>?");
    (0x37, bytes_of "*", bytes_of "*");
    (0x39, bytes_of " ", bytes_of " ");
    (0x47, bytes_of "789-456+1230.", bytes_of "789-456+1230.") ].

Definition is_letter (c : Z) : bool := (97 <=? c) && (c <=? 122).

(** Caps lock inverts shift on the letters and does nothing elsewhere. *)
Fixpoint key_char (rs : list (Z * list Z * list Z)) (key : Z) (shift caps : bool) : option Z :=
  match rs with
  | [] => None
  | (first, plain, shifted) :: rs =>
      if (first <=? key) && (key <? first + Z.of_nat (length plain)) then
        let c := nth (Z.to_nat (key - first)) plain 0 in
        let up := nth (Z.to_nat (key - first)) shifted 0 in
        Some (if is_letter c then (if xorb shift caps then up else c) else (if shift then up else c))
      else key_char rs key shift caps
  end.

Definition is_modifier (key : Z) : bool :=
  (key =? 0x2A) || (key =? 0x36) || (key =? 0x1D) || (key =? 0x38) || (key =? 0x3A).

(** What a report types, given the history before it. *)
Definition typed (h : list key_event) (e : key_event) : option Z :=
  match e with
  | Release _ => None
  | Press key =>
      if is_modifier key then None
      else if key =? 0x01 then Some (if held 0x1D h && held 0x38 h then 0xFF else 0x1B)
      else key_char rows key (held 0x2A h || held 0x36 h) (caps h)
  end.

Fixpoint types (h : list key_event) (prefixed : bool) (bytes : list Z) : list (option Z) :=
  match bytes with
  | [] => []
  | b :: bytes =>
      match report prefixed b with
      | (None, p) => None :: types h p bytes
      | (Some e, p) => typed h e :: types (e :: h) p bytes
      end
  end.

End Layout.
Import Layout.

(** The decoder on a stream of bytes. *)
Fixpoint decode (bytes : list Z) (s : Modifiers) : outcome (list (option Z) * Modifiers) :=
  match bytes with
  | [] => Done ([], s)
  | b :: bytes =>
      '(c, s) ← process_scancode b s;
      '(cs, s) ← decode bytes s;
      Done (c :: cs, s)
  end.

Record decodes (s : Modifiers) (h : list key_event) (prefixed : bool) : Prop := {
  d_lshift : LSHIFT_HELD s = held 0x2A h;
  d_rshift : RSHIFT_HELD s = held 0x36 h;
  d_ctrl : CTRL_HELD s = held 0x1D h;
  d_alt : ALT_HELD s = held 0x38 h;
  d_caps : CAPS_ACTIVE s = caps h;
  d_extended : EXTENDED s = prefixed
}.

(** The tables hold the layout. *)
Lemma translate_layout key shift cap :
  0 ≤ key < 84 → is_modifier key = false → key ≠ 1 → translate key shift cap = Done (key_char rows key shift cap).
Proof.
  intros Hk Hm H1.
  assert (Ht : forallb (λ i, let key := Z.of_nat i in forallb (λ shift, forallb (λ cap,
    is_modifier key || (key =? 1) || bool_decide (match translate key shift cap with Done o => Some o | _ => None end =
      Some (key_char rows key shift cap))) [true; false]) [true; false]) (seq 0 84) = true) by (vm_compute; reflexivity).
  pose proof (forall_below 84 (λ key, forallb (λ shift, forallb (λ cap,
    is_modifier key || (key =? 1) || bool_decide (match translate key shift cap with Done o => Some o | _ => None end =
      Some (key_char rows key shift cap))) [true; false]) [true; false]) Ht key ltac:(lia)) as Hc. cbv beta in Hc.
  assert (Hb : ∀ b, In b [true; false]) by (intros []; cbn; tauto).
  pose proof (proj1 (forallb_forall _ _) Hc shift (Hb shift)) as Hs.
  pose proof (proj1 (forallb_forall _ _) Hs cap (Hb cap)) as He. cbv beta in He.
  rewrite Hm, (proj2 (Z.eqb_neq _ _) H1) in He. cbn [orb] in He. apply bool_decide_eq_true in He.
  destruct (translate key shift cap); simplify_eq. done.
Qed.

Lemma no_key_beyond key shift cap : 84 ≤ key → key_char rows key shift cap = None.
Proof.
  intros Hk. unfold rows. cbn [key_char]. rewrite !(proj2 (Z.ltb_ge key _)) by (cbn; lia). by rewrite !andb_false_r.
Qed.

Lemma high_bit b : 0 ≤ b < 256 → (Z.land b 0x80 =? 0) = (b <? 128).
Proof.
  intros Hb. apply Bool.eqb_prop.
  exact (forall_below 256 (λ b, Bool.eqb (Z.land b 0x80 =? 0) (b <? 128)) ltac:(vm_compute; reflexivity) b Hb).
Qed.

(** The modifier keys are told apart by their codes. *)
Ltac codes :=
  repeat match goal with
  | |- context [Z.eqb ?a ?b] => destruct (Z.eqb_spec a b); try lia
  | |- context [Z.ltb ?a ?b] => destruct (Z.ltb_spec a b); try lia
  end.

Lemma process_scancode_ok b s h p :
  0 ≤ b < 256 → decodes s h p →
  ∃ s', process_scancode b s =
      Done (match (report p b).1 with Some e => typed h e | None => None end, s') ∧
    decodes s' (match (report p b).1 with Some e => e :: h | None => h end) (report p b).2.
Proof.
  intros Hb Hs. pose proof Hs as [H1 H2 H3 H4 H5 H6]. unfold process_scancode, report, SC_EXTENDED.
  destruct (Z.eqb_spec b 0xE0) as [->|He]; [eexists; split; [done|]; by split|].
  rewrite H6. destruct p; cbn [fst snd]; [eexists; split; [done|]; by split|].
  rewrite high_bit by done.
  unfold SC_LSHIFT_MAKE, SC_RSHIFT_MAKE, SC_LSHIFT_BREAK, SC_RSHIFT_BREAK, SC_CTRL_MAKE, SC_CTRL_BREAK,
    SC_ALT_MAKE, SC_ALT_BREAK, SC_CAPS_MAKE, SC_ESC_MAKE.
  change (Z.of_nat (length UNSHIFTED)) with 84.
  destruct (Z.eqb_spec b 0x2A) as [->|?]; [eexists; split; [done|]; by split|].
  destruct (Z.eqb_spec b 0x36) as [->|?]; [eexists; split; [done|]; by split|].
  destruct (Z.eqb_spec b 0xAA) as [->|?]; [eexists; split; [done|]; by split|].
  destruct (Z.eqb_spec b 0xB6) as [->|?]; [eexists; split; [done|]; by split|].
  destruct (Z.eqb_spec b 0x1D) as [->|?]; [eexists; split; [done|]; by split|].
  destruct (Z.eqb_spec b 0x9D) as [->|?]; [eexists; split; [done|]; by split|].
  destruct (Z.eqb_spec b 0x38) as [->|?]; [eexists; split; [done|]; by split|].
  destruct (Z.eqb_spec b 0xB8) as [->|?]; [eexists; split; [done|]; by split|].
  destruct (Z.eqb_spec b 0x3A) as [->|?]; [eexists; split; [done|]; split; cbn; by rewrite ?H5|].
  destruct (Z.ltb_spec b 128) as [Hlo|Hhi]; cbn [negb].
  2: { exists s. split; [done|]. split; cbn [held caps]; codes; done. }
  assert (Hnext : decodes s (Press b :: h) false) by (split; cbn [held caps]; codes; done).
  assert (Hm : is_modifier b = false) by (unfold is_modifier; codes; done).
  unfold typed. rewrite Hm, H1, H2, H3, H4, H5.
  destruct (Z.eqb_spec b 1) as [->|Hne]; [exists s; split; [by destruct (held 0x1D h), (held 0x38 h)|done]|].
  destruct (Z.leb_spec 84 b) as [Hout|Hin].
  - exists s. rewrite no_key_beyond by lia. done.
  - exists s. rewrite translate_layout by (done || lia). by rewrite bind_Done.
Qed.

Lemma decode_ok bytes s h p :
  Forall byte_ok bytes → decodes s h p → ∃ s', decode bytes s = Done (types h p bytes, s').
Proof.
  intros Hb. revert s h p. induction Hb as [|b bytes Hb _ IH]; intros s h p Hs; [by exists s|].
  destruct (process_scancode_ok b s h p Hb Hs) as (s1 & H1 & Hs1). cbn [decode types]. rewrite H1, bind_Done.
  destruct (report p b) as [[e|] p'] eqn:Hr; cbn [fst snd] in *;
    destruct (IH _ _ _ Hs1) as (s2 & H2); rewrite H2, bind_Done; by exists s2.
Qed.

Lemma no_modifiers_ok : decodes no_modifiers [] false.
Proof. by split. Qed.

(** C28. The decoder types what a US keyboard types: on any stream of scancode
    bytes, each byte produces what the layout gives for the key it reports in
    the light of the whole history, where a shift, control or alt key is held
    when it was last seen going down, caps lock is on after an odd number of
    presses and inverts shift on the letters only, releases and two-byte
    extended codes type nothing, and control, alt and escape together give the
    shutdown code; no byte makes a table index panic. *)
Theorem keyboard_decodes_layout (bytes : list Z) :
  Forall byte_ok bytes → ∃ s, decode bytes no_modifiers = Done (types [] false bytes, s).
Proof. intros Hb. apply decode_ok; [done|apply no_modifiers_ok]. Qed.

Lemma keyboard_decodes_layout_witness :
  ∃ s, decode [0x2A; 0x23; 0xA3; 0xAA; 0x17; 0xE0; 0x48; 0x3A; 0x1E] no_modifiers =
    Done ([None; Some 72; None; None; Some 105; None; None; None; Some 65], s).
Proof.
  apply (keyboard_decodes_layout [0x2A; 0x23; 0xA3; 0xAA; 0x17; 0xE0; 0x48; 0x3A; 0x1E]).
  apply (bool_decide_unpack _). vm_compute. exact I.
Defined.

(** ** The driver and its reader *)

#[global] Instance ScancodeBuffer_fifo : BoundedFifo ScancodeBuffer Z unit :=
  ring_fifo id Some id tt 8 ltac:(lia) any_slot (λ _, eq_refl) (λ _, I)
    256 (ring_push id RING_SIZE tt) ScancodeBuffer_pop eq_refl eq_refl eq_refl.

Definition pending (d : Driver) (l : list Z) : Prop := fifo_repr (SCANCODE_BUFFER d) l.

Lemma new_buffer_ok : fifo_repr ScancodeBuffer_new [].
Proof. by apply (ring_new_repr id 8). Qed.

Lemma buffer_push_ok q l sc :
  fifo_repr q l →
  ∃ q', ScancodeBuffer_push q sc = Done q' ∧ fifo_repr q' (if bool_decide (length l < 256)%nat then l ++ [sc] else l).
Proof.
  intros Hq. unfold ScancodeBuffer_push. change (ring_push id RING_SIZE tt) with (@fifo_push _ _ _ ScancodeBuffer_fifo).
  pose proof (fifo_repr_cap q l Hq) as Hcap. change fifo_cap with 256%nat in Hcap. case_bool_decide as Hl.
  - destruct (fifo_push_ok q l sc Hq Hl) as (q' & -> & Hq'). by exists q'.
  - rewrite (fifo_push_full q l sc Hq) by (change fifo_cap with 256%nat; lia). by exists q.
Qed.

(** A wake-up, on the states of the tasks: the registered reader becomes ready
    when it was blocked. *)
Definition woken (reader : option TaskId) (k k' : Kernel) : Prop :=
  ∀ id, state_of k' id =
    if decide (reader = Some id ∧ state_of k id = Some Blocked) then Some Ready else state_of k id.

Lemma handler_ok d l sc :
  has_inv (kernel d) → pending d l →
  ∃ d', handler_apic_keyboard sc d = Done d' ∧ has_inv (kernel d') ∧
    pending d' (if bool_decide (length l < 256)%nat then l ++ [sc] else l) ∧
    modifiers d' = modifiers d ∧ KEYBOARD_TASK_ID d' = KEYBOARD_TASK_ID d ∧
    woken (KEYBOARD_TASK_ID d) (kernel d) (kernel d').
Proof.
  intros (c & lq & lr & lt & ls & s & u & B) Hl. unfold handler_apic_keyboard, keyboard_push_scancode.
  destruct (buffer_push_ok _ _ sc Hl) as (q & -> & Hq). rewrite bind_Done. cbn [set_buffer KEYBOARD_TASK_ID kernel].
  destruct (KEYBOARD_TASK_ID d) as [id|] eqn:Hid.
  - destruct (wake_inv _ _ _ _ _ _ _ _ id B) as (r & k' & c' & lq' & Hw & B' & _ & _ & _ & _ & Hst).
    rewrite (wake_discard_done _ _ _ _ Hw), bind_Done. eexists. split; [done|]. cbn. rewrite Hid. split_and!; eauto.
    intros id'. rewrite Hst. repeat case_decide; naive_solver.
  - eexists. split; [done|]. cbn. rewrite Hid. split_and!; eauto.
    intros id'. rewrite decide_False; naive_solver.
Qed.

(** A burst of keyboard interrupts. *)
Fixpoint keyboard_interrupts (bytes : list Z) (d : Driver) : outcome Driver :=
  match bytes with
  | [] => Done d
  | b :: bytes => d ← handler_apic_keyboard b d; keyboard_interrupts bytes d
  end.

Lemma interrupts_ok bytes d l :
  has_inv (kernel d) → pending d l → (length l + length bytes ≤ 256)%nat →
  ∃ d', keyboard_interrupts bytes d = Done d' ∧ pending d' (l ++ bytes) ∧ modifiers d' = modifiers d ∧
    KEYBOARD_TASK_ID d' = KEYBOARD_TASK_ID d ∧ has_inv (kernel d') ∧
    (∀ id, KEYBOARD_TASK_ID d = Some id → state_of (kernel d) id = Some Ready → state_of (kernel d') id = Some Ready) ∧
    (∀ id, KEYBOARD_TASK_ID d = Some id → state_of (kernel d) id = Some Blocked → bytes ≠ [] →
      state_of (kernel d') id = Some Ready).
Proof.
  revert d l. induction bytes as [|b bytes IH]; intros d l Hi Hp Hl.
  { exists d. rewrite app_nil_r. by split_and!. }
  cbn [length] in Hl. destruct (handler_ok d l b Hi Hp) as (d1 & H1 & Hi1 & Hp1 & Hm1 & Ht1 & Hw1).
  rewrite bool_decide_true in Hp1 by lia.
  destruct (IH d1 (l ++ [b]) Hi1 Hp1) as (d2 & H2 & Hp2 & Hm2 & Ht2 & Hi2 & Hr2 & _); [rewrite length_app; cbn; lia|].
  exists d2. cbn [keyboard_interrupts]. rewrite H1, bind_Done. rewrite <- app_assoc in Hp2.
  split_and!; try done; [congruence|congruence|..].
  - intros id Hid Hst. apply Hr2; [congruence|]. rewrite Hw1. by case_decide.
  - intros id Hid Hst _. apply Hr2; [congruence|]. rewrite Hw1. by rewrite decide_True.
Qed.

Definition prints (cs : list (option Z)) : list printed :=
  cs ≫= λ c, match c with Some ascii => print_char ascii | None => [] end.

Lemma drain_ok fuel d l h p :
  pending d l → (length l < fuel)%nat → Forall byte_ok l → decodes (modifiers d) h p →
  ∃ d', drain_keyboard fuel d = Done (prints (types h p l), d') ∧ pending d' [] ∧
    KEYBOARD_TASK_ID d' = KEYBOARD_TASK_ID d ∧ kernel d' = kernel d.
Proof.
  intros Hp Hf Hb. revert fuel d h p Hp Hf. induction Hb as [|b l Hb _ IH]; intros fuel d h p Hp Hf Hs;
    (destruct fuel as [|fuel]; [cbn in Hf; lia|]); cbn [drain_keyboard]; unfold keyboard_pop_scancode;
    change ScancodeBuffer_pop with (@fifo_pop _ _ _ ScancodeBuffer_fifo).
  - rewrite (fifo_pop_empty _ Hp), bind_Done. rewrite bind_Done. eexists. split; [done|]. by split_and!.
  - destruct (fifo_pop_ok _ _ _ Hp) as (q & -> & Hq). rewrite !bind_Done. cbn [set_buffer modifiers].
    destruct (process_scancode_ok b _ _ _ Hb Hs) as (s1 & H1 & Hs1). rewrite H1, bind_Done. cbv zeta.
    cbn [types]. destruct (report p b) as [[e|] p'] eqn:Hr; cbn [fst snd] in *.
    + destruct (IH fuel (set_modifiers s1 (set_buffer q d)) (e :: h) p' Hq ltac:(cbn in Hf; lia) Hs1)
        as (d' & H2 & Hp' & Ht' & Hk'). cbn in H2 |- *. rewrite H2, bind_Done. exists d'. by split_and!.
    + destruct (IH fuel (set_modifiers s1 (set_buffer q d)) h p' Hq ltac:(cbn in Hf; lia) Hs1)
        as (d' & H2 & Hp' & Ht' & Hk'). cbn in H2 |- *. rewrite H2, bind_Done. exists d'. by split_and!.
Qed.

(** C29. Keystrokes reach the screen: a burst of up to 256 keyboard interrupts
    completes, readies a reader that was blocked, and is then drained in order,
    the reader printing exactly what the layout types for the burst and leaving
    the buffer empty. *)
Theorem keyboard_pipeline (d : Driver) (h : list key_event) (p : bool) (bytes : list Z) (reader : TaskId) :
  reachable (kernel d) → pending d [] → decodes (modifiers d) h p → Forall byte_ok bytes → (length bytes ≤ 256)%nat →
  KEYBOARD_TASK_ID d = Some reader →
  ∃ d1 d2, keyboard_interrupts bytes d = Done d1 ∧
    (state_of (kernel d) reader = Some Blocked → bytes ≠ [] → state_of (kernel d1) reader = Some Ready) ∧
    drain_keyboard 257 d1 = Done (prints (types h p bytes), d2) ∧ pending d2 [].
Proof.
  intros Hr%reachable_inv Hp Hs Hb Hl Hid.
  destruct (interrupts_ok bytes d [] Hr Hp Hl) as (d1 & H1 & Hp1 & Hm1 & Ht1 & Hi1 & _ & Hw). cbn [app] in Hp1.
  rewrite <- Hm1 in Hs. destruct (drain_ok 257 d1 bytes h p Hp1 ltac:(lia) Hb Hs) as (d2 & H2 & Hp2 & _).
  exists d1, d2. split_and!; try done. by apply Hw.
Qed.

Lemma yield_blocks k c lq lr lt ls s u :
  binv k c lq lr lt ls s u → stack_pointer_ok u → c_current c ≠ TaskId_IDLE →
  ∃ k', yield_blocked k = Done (true, k') ∧ state_of k' (c_current c) = Some Blocked.
Proof.
  intros B Hsp Hni. pose proof (b_winv _ _ _ _ _ _ _ _ B) as W. unfold yield_blocked, get_current_task_id.
  rewrite (cpu_slot_some k c (w_cpu0 _ _ _ _ _ _ _ _ W)), !bind_Done.
  destruct (w_current _ _ _ _ _ _ _ _ W) as [t Ht].
  destruct (block_current_ok _ _ _ _ _ _ _ _ t W Ht Hni) as (k1 & -> & W1 & Hd1 & Hs1). rewrite bind_Done.
  destruct (give_up_inv _ _ _ _ _ _ _ _ lr k1 B Hsp W1 Hd1) as (k2 & c2 & lq2 & u2 & -> & _ & _ & Hst); try done.
  - intros id Hne. rewrite Hs1. by rewrite decide_False.
  - by left.
  - exists k2. split; [done|]. apply Hst; [by left|]. rewrite Hs1. by rewrite decide_True.
Qed.

(** A keystroke can be left unread: when the keyboard interrupt arrives
    after the reader has found the buffer empty and before it blocks, the
    wake-up finds the reader running and does nothing, so the reader blocks
    with the scancode still in the buffer. *)
Theorem keyboard_lost_wakeup (d : Driver) (c : CpuSlot) (scancode : Z) :
  reachable (kernel d) → k_cpu0 (kernel d) = Some c → c_current c ≠ TaskId_IDLE →
  stack_pointer_ok (k_cpu (kernel d)) → KEYBOARD_TASK_ID d = Some (c_current c) → pending d [] →
  ∃ d1 k2, handler_apic_keyboard scancode d = Done d1 ∧ yield_blocked (kernel d1) = Done (true, k2) ∧
    state_of k2 (c_current c) = Some Blocked ∧ pending d1 [scancode].
Proof.
  intros Hr%reachable_inv Hc Hni Hsp Hid Hp. destruct Hr as (c' & lq & lr & lt & ls & s & u & B).
  pose proof (b_winv _ _ _ _ _ _ _ _ B) as W. pose proof (w_cpu0 _ _ _ _ _ _ _ _ W) as Hc'.
  assert (c' = c) as -> by congruence. rewrite (w_machine _ _ _ _ _ _ _ _ W) in Hsp.
  unfold handler_apic_keyboard, keyboard_push_scancode.
  destruct (buffer_push_ok _ _ scancode Hp) as (q & -> & Hq). rewrite bind_Done. cbn [set_buffer KEYBOARD_TASK_ID kernel].
  rewrite Hid. destruct (wake_inv _ _ _ _ _ _ _ _ (c_current c) B) as (r & k' & c2 & lq' & Hw & B' & Hcur & _).
  rewrite (wake_discard_done _ _ _ _ Hw), bind_Done.
  destruct (yield_blocks _ _ _ _ _ _ _ _ B' Hsp) as (k2 & Hk2 & Hst); [by rewrite Hcur|].
  eexists _, k2. split; [done|]. cbn. rewrite <- Hcur. by split_and!.
Qed.

(** ** Runs on the small kernel of the scheduler's examples *)

(** The kernel's first task is the reader; once blocked, once running. *)
Definition demo_reader : TaskId := mk_TaskId 1 0.
Definition demo_driver (k : Kernel) : Driver := mk_Driver ScancodeBuffer_new (Some demo_reader) no_modifiers k.
Definition demo_blocked : Kernel := demo_next EvYieldBlocked demo_running.

Lemma demo_blocked_reachable : reachable demo_blocked.
Proof.
  apply demo_next_reachable; [exact demo_running_reachable| |vm_compute; reflexivity].
  exists (demo_slot demo_running). split; [exact demo_running_slot|exact demo_running_not_idle].
Qed.

Example demo_typed :
  state_of demo_blocked demo_reader = Some Blocked ∧
  prints (types [] false [0x23; 0xA3; 0x17]) = [Char 104; Char 105].
Proof. vm_compute. split; reflexivity. Qed.

Lemma keyboard_pipeline_witness :
  ∃ d1 d2, keyboard_interrupts [0x23; 0xA3; 0x17] (demo_driver demo_blocked) = Done d1 ∧
    (state_of (kernel (demo_driver demo_blocked)) demo_reader = Some Blocked → [0x23; 0xA3; 0x17] ≠ [] →
      state_of (kernel d1) demo_reader = Some Ready) ∧
    drain_keyboard 257 d1 = Done (prints (types [] false [0x23; 0xA3; 0x17]), d2) ∧ pending d2 [].
Proof.
  apply (keyboard_pipeline (demo_driver demo_blocked) [] false [0x23; 0xA3; 0x17] demo_reader).
  - exact demo_blocked_reachable.
  - exact new_buffer_ok.
  - exact no_modifiers_ok.
  - apply (bool_decide_unpack _). vm_compute. exact I.
  - cbn. lia.
  - reflexivity.
Defined.

Lemma keyboard_lost_wakeup_witness :
  ∃ d1 k2, handler_apic_keyboard 0x1E (demo_driver demo_running) = Done d1 ∧
    yield_blocked (kernel d1) = Done (true, k2) ∧
    state_of k2 (c_current (demo_slot demo_running)) = Some Blocked ∧ pending d1 [0x1E].
Proof.
  apply (keyboard_lost_wakeup (demo_driver demo_running) (demo_slot demo_running) 0x1E).
  - exact demo_running_reachable.
  - exact demo_running_slot.
  - exact demo_running_not_idle.
  - unfold stack_pointer_ok, W64. vm_compute. split; reflexivity.
  - vm_compute. reflexivity.
  - exact new_buffer_ok.
Defined.
