(* ===== verification/Digests.v ===== *)
(** * Digests.v: SHA-256, SHA-1, MD5 and HMAC-SHA-256

    [src/crap_os/src/crypto/hash/sha2.rs], [sha1.rs], [md5.rs] and
    [crypto/hmac/sha256.rs].  The three digests share the padding loop and the
    processing of 64-byte blocks.  Every array access goes through the bounds
    checked [slot_get], [slot_set], [slice] and [copy_at], so the theorems
    also show that no access panics.

    The module [Standard] states the algorithms as FIPS 180-4, RFC 1321 and
    FIPS 198-1 do, deriving the constants from their mathematical definition;
    each routine is proved equal to its standard on every input. *)

From S2P Require Import Prelude Bytes.

Local Open Scope Z_scope.

(** ** Padding *)

(** [while msg.len() % 64 != 56 { msg.push(0x00) }]; 64 rounds are enough. *)
Fixpoint pad_loop (fuel : nat) (msg : list Z) : outcome (list Z) :=
  match fuel with
  | O => OutOfFuel
  | S fuel =>
      if Z.of_nat (length msg) mod 64 =? 56 then Done msg else pad_loop fuel (msg ++ [0x00])
  end.

Definition bit_len (input : list Z) : Z := u64 (Z.of_nat (length input) * 8).

Definition pad_message (length_field : Z → list Z) (input : list Z) : outcome (list Z) :=
  msg ← pad_loop 64 (input ++ [0x80]);
  Done (msg ++ length_field (bit_len input)).

(** [h[i] = h[i].wrapping_add(x)] *)
Definition add_at (h : list Z) (i x : Z) : outcome (list Z) :=
  v ← slot_get h i;
  slot_set h i (add32 v x).

(** [for (i, word) in h.iter().enumerate()] with
    [digest[i*4..i*4+4].copy_from_slice(..)]. *)
Definition write_words (word_bytes : Z → list Z) (n : nat) (h : list Z) : outcome (list Z) :=
  for_range n 0 (λ i digest,
    word ← slot_get h i;
    copy_at digest (i * 4) (word_bytes word)) (replicate (4 * n) 0).

(** ** SHA-256 *)

Definition SHA256_K : list Z := concat
  [ [ 0x428a2f98; 0x71374491; 0xb5c0fbcf; 0xe9b5dba5 ];
    [ 0x3956c25b; 0x59f111f1; 0x923f82a4; 0xab1c5ed5 ];
    [ 0xd807aa98; 0x12835b01; 0x243185be; 0x550c7dc3 ];
    [ 0x72be5d74; 0x80deb1fe; 0x9bdc06a7; 0xc19bf174 ];
    [ 0xe49b69c1; 0xefbe4786; 0x0fc19dc6; 0x240ca1cc ];
    [ 0x2de92c6f; 0x4a7484aa; 0x5cb0a9dc; 0x76f988da ];
    [ 0x983e5152; 0xa831c66d; 0xb00327c8; 0xbf597fc7 ];
    [ 0xc6e00bf3; 0xd5a79147; 0x06ca6351; 0x14292967 ];
    [ 0x27b70a85; 0x2e1b2138; 0x4d2c6dfc; 0x53380d13 ];
    [ 0x650a7354; 0x766a0abb; 0x81c2c92e; 0x92722c85 ];
    [ 0xa2bfe8a1; 0xa81a664b; 0xc24b8b70; 0xc76c51a3 ];
    [ 0xd192e819; 0xd6990624; 0xf40e3585; 0x106aa070 ];
    [ 0x19a4c116; 0x1e376c08; 0x2748774c; 0x34b0bcb5 ];
    [ 0x391c0cb3; 0x4ed8aa4a; 0x5b9cca4f; 0x682e6ff3 ];
    [ 0x748f82ee; 0x78a5636f; 0x84c87814; 0x8cc70208 ];
    [ 0x90befffa; 0xa4506ceb; 0xbef9a3f7; 0xc67178f2 ] ].

Definition SHA256_H : list Z :=
  [ 0x6a09e667; 0xbb67ae85; 0x3c6ef372; 0xa54ff53a;
    0x510e527f; 0x9b05688c; 0x1f83d9ab; 0x5be0cd19 ].

Definition sha256_schedule (block : list Z) : outcome (list Z) :=
  w ← for_range 16 0 (λ i w,
    bs ← slice block (i * 4) (i * 4 + 4);
    slot_set w i (from_be bs)) (replicate 64 0);
  for_range 48 16 (λ i w,
    w15 ← slot_get w (i - 15);
    w2 ← slot_get w (i - 2);
    w16 ← slot_get w (i - 16);
    w7 ← slot_get w (i - 7);
    let s0 := Z.lxor (Z.lxor (rotr 32 7 w15) (rotr 32 18 w15)) (Z.shiftr w15 3) in
    let s1 := Z.lxor (Z.lxor (rotr 32 17 w2) (rotr 32 19 w2)) (Z.shiftr w2 10) in
    slot_set w i (add32 (add32 (add32 w16 s0) w7) s1)) w.

(** The working variables [a] .. [hh]. *)
Record Vars8 := mk_Vars8 { va : Z; vb : Z; vc : Z; vd : Z; ve : Z; vf : Z; vg : Z; vh : Z }.

Definition sha256_round (w : list Z) (i : Z) (s : Vars8) : outcome Vars8 :=
  let '(mk_Vars8 a b c d e f g hh) := s in
  k ← slot_get SHA256_K i;
  wi ← slot_get w i;
  let s1 := Z.lxor (Z.lxor (rotr 32 6 e) (rotr 32 11 e)) (rotr 32 25 e) in
  let ch := Z.lxor (Z.land e f) (Z.land (not32 e) g) in
  let temp1 := add32 (add32 (add32 (add32 hh s1) ch) k) wi in
  let s0 := Z.lxor (Z.lxor (rotr 32 2 a) (rotr 32 13 a)) (rotr 32 22 a) in
  let maj := Z.lxor (Z.lxor (Z.land a b) (Z.land a c)) (Z.land b c) in
  let temp2 := add32 s0 maj in
  Done (mk_Vars8 (add32 temp1 temp2) a b c (add32 d temp1) e f g).

(** [let (mut a, .., mut hh) = (h[0], .., h[7])] and the additions after the
    rounds. *)
Definition load8 (h : list Z) : outcome Vars8 :=
  h0 ← slot_get h 0; h1 ← slot_get h 1; h2 ← slot_get h 2; h3 ← slot_get h 3;
  h4 ← slot_get h 4; h5 ← slot_get h 5; h6 ← slot_get h 6; h7 ← slot_get h 7;
  Done (mk_Vars8 h0 h1 h2 h3 h4 h5 h6 h7).
Definition fold8 (h : list Z) (s : Vars8) : outcome (list Z) :=
  h ← add_at h 0 (va s); h ← add_at h 1 (vb s); h ← add_at h 2 (vc s); h ← add_at h 3 (vd s);
  h ← add_at h 4 (ve s); h ← add_at h 5 (vf s); h ← add_at h 6 (vg s); add_at h 7 (vh s).

Definition sha256_block (block h : list Z) : outcome (list Z) :=
  w ← sha256_schedule block;
  s0 ← load8 h;
  s ← for_range 64 0 (sha256_round w) s0;
  fold8 h s.

Definition sha256 (input : list Z) : outcome (list Z) :=
  msg ← pad_message (be_bytes 8) input;
  h ← for_each (chunks_exact 64 msg) sha256_block SHA256_H;
  write_words (be_bytes 4) 8 h.

(** ** SHA-1 *)

Definition SHA1_H : list Z := [ 0x67452301; 0xefcdab89; 0x98badcfe; 0x10325476; 0xc3d2e1f0 ].

Definition sha1_schedule (block : list Z) : outcome (list Z) :=
  w ← for_range 16 0 (λ i w,
    bs ← slice block (i * 4) (i * 4 + 4);
    slot_set w i (from_be bs)) (replicate 80 0);
  for_range 64 16 (λ i w,
    w3 ← slot_get w (i - 3);
    w8 ← slot_get w (i - 8);
    w14 ← slot_get w (i - 14);
    w16 ← slot_get w (i - 16);
    slot_set w i (rotl 32 1 (Z.lxor (Z.lxor (Z.lxor w3 w8) w14) w16))) w.

Record Vars5 := mk_Vars5 { xa : Z; xb : Z; xc : Z; xd : Z; xe : Z }.

Definition sha1_round (w : list Z) (i : Z) (s : Vars5) : outcome Vars5 :=
  let '(mk_Vars5 a b c d e) := s in
  let '(f, k) :=
    if i <=? 19 then (Z.lor (Z.land b c) (Z.land (not32 b) d), 0x5a827999)
    else if i <=? 39 then (Z.lxor (Z.lxor b c) d, 0x6ed9eba1)
    else if i <=? 59 then (Z.lor (Z.lor (Z.land b c) (Z.land b d)) (Z.land c d), 0x8f1bbcdc)
    else (Z.lxor (Z.lxor b c) d, 0xca62c1d6) in
  wi ← slot_get w i;
  let temp := add32 (add32 (add32 (add32 (rotl 32 5 a) f) e) k) wi in
  Done (mk_Vars5 temp a (rotl 32 30 b) c d).

Definition load5 (h : list Z) : outcome Vars5 :=
  h0 ← slot_get h 0; h1 ← slot_get h 1; h2 ← slot_get h 2; h3 ← slot_get h 3; h4 ← slot_get h 4;
  Done (mk_Vars5 h0 h1 h2 h3 h4).
Definition fold5 (h : list Z) (s : Vars5) : outcome (list Z) :=
  h ← add_at h 0 (xa s); h ← add_at h 1 (xb s); h ← add_at h 2 (xc s); h ← add_at h 3 (xd s);
  add_at h 4 (xe s).

Definition sha1_block (block h : list Z) : outcome (list Z) :=
  w ← sha1_schedule block;
  s0 ← load5 h;
  s ← for_range 80 0 (sha1_round w) s0;
  fold5 h s.

Definition sha1 (input : list Z) : outcome (list Z) :=
  msg ← pad_message (be_bytes 8) input;
  h ← for_each (chunks_exact 64 msg) sha1_block SHA1_H;
  write_words (be_bytes 4) 5 h.

(** ** MD5 *)

Definition MD5_SHIFTS : list Z :=
  [ 7; 12; 17; 22;  7; 12; 17; 22;  7; 12; 17; 22;  7; 12; 17; 22;
    5;  9; 14; 20;  5;  9; 14; 20;  5;  9; 14; 20;  5;  9; 14; 20;
    4; 11; 16; 23;  4; 11; 16; 23;  4; 11; 16; 23;  4; 11; 16; 23;
    6; 10; 15; 21;  6; 10; 15; 21;  6; 10; 15; 21;  6; 10; 15; 21 ].

Definition MD5_K : list Z :=
  [ 0xd76aa478; 0xe8c7b756; 0x242070db; 0xc1bdceee;
    0xf57c0faf; 0x4787c62a; 0xa8304613; 0xfd469501;
    0x698098d8; 0x8b44f7af; 0xffff5bb1; 0x895cd7be;
    0x6b901122; 0xfd987193; 0xa679438e; 0x49b40821;
    0xf61e2562; 0xc040b340; 0x265e5a51; 0xe9b6c7aa;
    0xd62f105d; 0x02441453; 0xd8a1e681; 0xe7d3fbc8;
    0x21e1cde6; 0xc33707d6; 0xf4d50d87; 0x455a14ed;
    0xa9e3e905; 0xfcefa3f8; 0x676f02d9; 0x8d2a4c8a;
    0xfffa3942; 0x8771f681; 0x6d9d6122; 0xfde5380c;
    0xa4beea44; 0x4bdecfa9; 0xf6bb4b60; 0xbebfbc70;
    0x289b7ec6; 0xeaa127fa; 0xd4ef3085; 0x04881d05;
    0xd9d4d039; 0xe6db99e5; 0x1fa27cf8; 0xc4ac5665;
    0xf4292244; 0x432aff97; 0xab9423a7; 0xfc93a039;
    0x655b59c3; 0x8f0ccc92; 0xffeff47d; 0x85845dd1;
    0x6fa87e4f; 0xfe2ce6e0; 0xa3014314; 0x4e0811a1;
    0xf7537e82; 0xbd3af235; 0x2ad7d2bb; 0xeb86d391 ].

Record Vars4 := mk_Vars4 { ya : Z; yb : Z; yc : Z; yd : Z }.

Definition md5_init : Vars4 := mk_Vars4 0x67452301 0xefcdab89 0x98badcfe 0x10325476.

Definition md5_words (block : list Z) : outcome (list Z) :=
  for_range 16 0 (λ i m,
    bs ← slice block (i * 4) (i * 4 + 4);
    slot_set m i (from_le bs)) (replicate 16 0).

Definition md5_round (m : list Z) (i : Z) (s : Vars4) : outcome Vars4 :=
  let '(mk_Vars4 a b c d) := s in
  let '(f, g) :=
    if i <=? 15 then (Z.lor (Z.land b c) (Z.land (not32 b) d), i)
    else if i <=? 31 then (Z.lor (Z.land d b) (Z.land (not32 d) c), (5 * i + 1) mod 16)
    else if i <=? 47 then (Z.lxor (Z.lxor b c) d, (3 * i + 5) mod 16)
    else (Z.lxor c (Z.lor b (not32 d)), (7 * i) mod 16) in
  k ← slot_get MD5_K i;
  mg ← slot_get m g;
  sh ← slot_get MD5_SHIFTS i;
  Done (mk_Vars4 d (add32 b (rotl 32 sh (add32 (add32 (add32 a f) k) mg))) b c).

Definition md5_block (block : list Z) (s0 : Vars4) : outcome Vars4 :=
  m ← md5_words block;
  s ← for_range 64 0 (md5_round m) s0;
  Done (mk_Vars4 (add32 (ya s0) (ya s)) (add32 (yb s0) (yb s)) (add32 (yc s0) (yc s)) (add32 (yd s0) (yd s))).

Definition md5 (input : list Z) : outcome (list Z) :=
  msg ← pad_message (le_bytes 8) input;
  s ← for_each (chunks_exact 64 msg) md5_block md5_init;
  let digest := replicate 16 0 in
  digest ← copy_at digest 0 (le_bytes 4 (ya s));
  digest ← copy_at digest 4 (le_bytes 4 (yb s));
  digest ← copy_at digest 8 (le_bytes 4 (yc s));
  copy_at digest 12 (le_bytes 4 (yd s)).

(** ** HMAC-SHA-256 *)

Definition BLOCK_LEN : Z := 64.

(** [k_prime]: the key hashed when it is longer than a block, then padded
    with zeros. *)
Definition normalise_key (key : list Z) : outcome (list Z) :=
  let k_prime := replicate 64 0 in
  if BLOCK_LEN <? Z.of_nat (length key) then
    hashed ← sha256 key;
    copy_at k_prime 0 hashed
  else copy_at k_prime 0 key.

(** The loop that fills [k_ipad] and [k_opad]. *)
Definition derive_pads (k_prime : list Z) : outcome (list Z * list Z) :=
  for_range 64 0 (λ i '(k_ipad, k_opad),
    k ← slot_get k_prime i;
    k_ipad ← slot_set k_ipad i (Z.lxor k 0x36);
    k_opad ← slot_set k_opad i (Z.lxor k 0x5C);
    Done (k_ipad, k_opad)) (replicate 64 0, replicate 64 0).

Definition hmac_sha256 (key message : list Z) : outcome (list Z) :=
  k_prime ← normalise_key key;
  '(k_ipad, k_opad) ← derive_pads k_prime;
  inner_hash ← sha256 (k_ipad ++ message);
  sha256 (k_opad ++ inner_hash).

(** Published test vectors: FIPS 180-4 and RFC 1321 for the digests, RFC 4231
    test case 2 for HMAC. *)
Definition hex_of (o : outcome (list Z)) : option Z :=
  match o with Done bs => Some (from_be bs) | _ => None end.

Example digest_vectors :
  hex_of (sha256 (bytes_of "abc")) = Some 0xba7816bf8f01cfea414140de5dae2223b00361a396177a9cb410ff61f20015ad ∧
  hex_of (sha256 []) = Some 0xe3b0c44298fc1c149afbf4c8996fb92427ae41e4649b934ca495991b7852b855 ∧
  hex_of (sha256 (bytes_of "abcdbcdecdefdefgefghfghighijhijkijkljklmklmnlmnomnopnopq")) =
    Some 0x248d6a61d20638b8e5c026930c3e6039a33ce45964ff2167f6ecedd419db06c1 ∧
  hex_of (sha1 (bytes_of "abc")) = Some 0xa9993e364706816aba3e25717850c26c9cd0d89d ∧
  hex_of (md5 (bytes_of "message digest")) = Some 0xf96b697d7cb7938d525a2f31aaf161d0 ∧
  hex_of (hmac_sha256 (bytes_of "Jefe") (bytes_of "what do ya want for nothing?")) =
    Some 0x5bdcc146bf60754e6a042426089575c75a003f089d2739839dec58b964ec3843.
Proof. vm_compute. repeat split; reflexivity. Qed.

(** ** The standards *)

Module Standard.

(** The first primes, by trial division. *)
Definition is_prime (n : nat) : bool :=
  forallb (λ d, negb (n mod d =? 0)%nat) (seq 2 (n - 2)).
Definition primes (k : nat) : list Z :=
  take k (Z.of_nat <$> base.filter (λ n, is_prime n = true) (seq 2 310)).

(** The integer [k]-th root, bit by bit. *)
Fixpoint root (bits : nat) (k n r : Z) : Z :=
  match bits with
  | O => r
  | S bits =>
      let r' := r + 2 ^ Z.of_nat bits in
      root bits k n (if r' ^ k <=? n then r' else r)
  end.

(** The first [bits] bits of the fractional part of the [k]-th root of [p]. *)
Definition frac_root (k bits p : Z) : Z := root 80 k (p * 2 ^ (k * bits)) 0 mod 2 ^ bits.

(** FIPS 180-4, 4.1: the logical functions on 32-bit words. *)
Definition ROTR (n x : Z) : Z := rotr 32 n x.
Definition ROTL (n x : Z) : Z := rotl 32 n x.
Definition SHR (n x : Z) : Z := Z.shiftr x n.
Definition Ch (x y z : Z) : Z := Z.lxor (Z.land x y) (Z.land (not32 x) z).
Definition Parity (x y z : Z) : Z := Z.lxor (Z.lxor x y) z.
Definition Maj (x y z : Z) : Z := Z.lxor (Z.lxor (Z.land x y) (Z.land x z)) (Z.land y z).
Definition Sigma0 (x : Z) : Z := Z.lxor (Z.lxor (ROTR 2 x) (ROTR 13 x)) (ROTR 22 x).
Definition Sigma1 (x : Z) : Z := Z.lxor (Z.lxor (ROTR 6 x) (ROTR 11 x)) (ROTR 25 x).
Definition sigma0 (x : Z) : Z := Z.lxor (Z.lxor (ROTR 7 x) (ROTR 18 x)) (SHR 3 x).
Definition sigma1 (x : Z) : Z := Z.lxor (Z.lxor (ROTR 17 x) (ROTR 19 x)) (SHR 10 x).

(** 5.1.1: the message, the bit 1, zeros up to 448 modulo 512 bits, the
    length. *)
Definition padded (length_field : Z → list Z) (m : list Z) : list Z :=
  m ++ [0x80] ++ replicate (Z.to_nat ((55 - Z.of_nat (length m)) mod 64)) 0 ++
  length_field (8 * Z.of_nat (length m)).

(** 5.2.1: blocks of sixteen words. *)
Definition blocks (m : list Z) : list (list Z) :=
  (λ i, take 64 (drop (64 * i) m)) <$> seq 0 (length m / 64).
Definition words (word : list Z → Z) (block : list Z) : list Z :=
  (λ t, word (take 4 (drop (4 * t) block))) <$> seq 0 16.

(** 6.2.2: SHA-256. *)
Definition K256 (t : nat) : Z := nth t (frac_root 3 32 <$> primes 64) 0.
Definition H256 : list Z := frac_root 2 32 <$> primes 8.

Definition W256 (M : list Z) : list Z :=
  extend 48 (λ W, let t := length W in
    [add32 (add32 (add32 (sigma1 (nth (t - 2) W 0)) (nth (t - 7) W 0))
       (sigma0 (nth (t - 15) W 0))) (nth (t - 16) W 0)]) M.

Definition round256 (W : list Z) (s : Vars8) (t : nat) : Vars8 :=
  let '(mk_Vars8 a b c d e f g h) := s in
  let T1 := add32 (add32 (add32 (add32 h (Sigma1 e)) (Ch e f g)) (K256 t)) (nth t W 0) in
  let T2 := add32 (Sigma0 a) (Maj a b c) in
  mk_Vars8 (add32 T1 T2) a b c (add32 d T1) e f g.

Definition vars8 (H : list Z) : Vars8 :=
  mk_Vars8 (nth 0 H 0) (nth 1 H 0) (nth 2 H 0) (nth 3 H 0)
    (nth 4 H 0) (nth 5 H 0) (nth 6 H 0) (nth 7 H 0).
Definition list8 (s : Vars8) : list Z := [va s; vb s; vc s; vd s; ve s; vf s; vg s; vh s].

Definition step256 (H block : list Z) : list Z :=
  let W := W256 (words from_be block) in
  zip_with add32 H (list8 (foldl (round256 W) (vars8 H) (seq 0 64))).

Definition SHA256 (m : list Z) : list Z :=
  foldl step256 H256 (blocks (padded (be_bytes 8) m)) ≫= be_bytes 4.

(** 6.1.2: SHA-1. *)
Definition f1 (t : nat) (x y z : Z) : Z :=
  if (t <? 20)%nat then Ch x y z else if (t <? 40)%nat then Parity x y z
  else if (t <? 60)%nat then Maj x y z else Parity x y z.

(** 4.2.1: the square roots of 2, 3, 5 and 10, scaled by 2^30. *)
Definition K1 (t : nat) : Z :=
  let p := if (t <? 20)%nat then 2 else if (t <? 40)%nat then 3 else if (t <? 60)%nat then 5 else 10 in
  Z.sqrt (p * 2 ^ 60).

Definition W1 (M : list Z) : list Z :=
  extend 64 (λ W, let t := length W in
    [ROTL 1 (Z.lxor (Z.lxor (Z.lxor (nth (t - 3) W 0) (nth (t - 8) W 0))
       (nth (t - 14) W 0)) (nth (t - 16) W 0))]) M.

Definition round1 (W : list Z) (s : Vars5) (t : nat) : Vars5 :=
  let '(mk_Vars5 a b c d e) := s in
  let T := add32 (add32 (add32 (add32 (ROTL 5 a) (f1 t b c d)) e) (K1 t)) (nth t W 0) in
  mk_Vars5 T a (ROTL 30 b) c d.

Definition vars5 (H : list Z) : Vars5 :=
  mk_Vars5 (nth 0 H 0) (nth 1 H 0) (nth 2 H 0) (nth 3 H 0) (nth 4 H 0).
Definition list5 (s : Vars5) : list Z := [xa s; xb s; xc s; xd s; xe s].

Definition step1 (H block : list Z) : list Z :=
  let W := W1 (words from_be block) in
  zip_with add32 H (list5 (foldl (round1 W) (vars5 H) (seq 0 80))).

Definition H1 : list Z := [0x67452301; 0xefcdab89; 0x98badcfe; 0x10325476; 0xc3d2e1f0].

Definition SHA1 (m : list Z) : list Z :=
  foldl step1 H1 (blocks (padded (be_bytes 8) m)) ≫= be_bytes 4.

(** RFC 1321: MD5.  The sine, by Horner's rule on its series: with a hundred
    terms the error at arguments up to 64 is below 2^(-100). *)
Definition sine (x : Z) : Z * Z :=
  let '(n, d) := foldr (λ i '(n, d),
      let m := 2 * Z.of_nat i in (m * (m + 1) * d - x * x * n, m * (m + 1) * d)) (1, 1) (seq 1 100) in
  (x * n, d).
Definition T5 (i : Z) : Z := let '(n, d) := sine i in Z.abs n * 2 ^ 32 / d.

Definition F5 (x y z : Z) : Z := Z.lor (Z.land x y) (Z.land (not32 x) z).
Definition G5 (x y z : Z) : Z := Z.lor (Z.land x z) (Z.land y (not32 z)).
Definition H5 (x y z : Z) : Z := Z.lxor (Z.lxor x y) z.
Definition I5 (x y z : Z) : Z := Z.lxor y (Z.lor x (not32 z)).

Definition aux5 (t : nat) : Z → Z → Z → Z :=
  if (t <? 16)%nat then F5 else if (t <? 32)%nat then G5 else if (t <? 48)%nat then H5 else I5.

(** The word each operation adds and its shift, as the RFC lists them. *)
Definition word5 (t : nat) : nat :=
  nth t [ 0; 1; 2; 3; 4; 5; 6; 7; 8; 9; 10; 11; 12; 13; 14; 15;
          1; 6; 11; 0; 5; 10; 15; 4; 9; 14; 3; 8; 13; 2; 7; 12;
          5; 8; 11; 14; 1; 4; 7; 10; 13; 0; 3; 6; 9; 12; 15; 2;
          0; 7; 14; 5; 12; 3; 10; 1; 8; 15; 6; 13; 4; 11; 2; 9 ]%nat 0%nat.
Definition shift5 (t : nat) : Z :=
  nth (t mod 4) (nth (t / 16) [[7; 12; 17; 22]; [5; 9; 14; 20]; [4; 11; 16; 23]; [6; 10; 15; 21]] []) 0.

(** The operation [[abcd k s i]] and the order in which the RFC applies it to
    the registers. *)
Definition op5 (X : list Z) (t : nat) (a b c d : Z) : Z :=
  add32 b (rotl 32 (shift5 t)
    (add32 (add32 (add32 a (aux5 t b c d)) (nth (word5 t) X 0)) (T5 (Z.of_nat t + 1)))).
Definition round5 (X : list Z) (s : Vars4) (t : nat) : Vars4 :=
  let '(mk_Vars4 A B C D) := s in
  match (t mod 4)%nat with
  | 0%nat => mk_Vars4 (op5 X t A B C D) B C D
  | 1%nat => mk_Vars4 A B C (op5 X t D A B C)
  | 2%nat => mk_Vars4 A B (op5 X t C D A B) D
  | _ => mk_Vars4 A (op5 X t B C D A) C D
  end.

Definition step5 (s : Vars4) (block : list Z) : Vars4 :=
  let '(mk_Vars4 A B C D) := foldl (round5 (words from_le block)) s (seq 0 64) in
  mk_Vars4 (add32 (ya s) A) (add32 (yb s) B) (add32 (yc s) C) (add32 (yd s) D).

Definition MD5 (m : list Z) : list Z :=
  let '(mk_Vars4 A B C D) :=
    foldl step5 (mk_Vars4 0x67452301 0xefcdab89 0x98badcfe 0x10325476) (blocks (padded (le_bytes 8) m)) in
  le_bytes 4 A ++ le_bytes 4 B ++ le_bytes 4 C ++ le_bytes 4 D.

(** FIPS 198-1: HMAC, with the key brought to one block first. *)
Definition K0 (key : list Z) : list Z :=
  let k := if (64 <? length key)%nat then SHA256 key else key in
  k ++ replicate (64 - length k) 0.
Definition HMAC_SHA256 (key text : list Z) : list Z :=
  SHA256 ((Z.lxor 0x5C <$> K0 key) ++ SHA256 ((Z.lxor 0x36 <$> K0 key) ++ text)).

End Standard.

(** *** The constants *)

Lemma K256_table : Standard.frac_root 3 32 <$> Standard.primes 64 = SHA256_K.
Proof. vm_compute. reflexivity. Qed.
Lemma H256_table : Standard.H256 = SHA256_H.
Proof. vm_compute. reflexivity. Qed.

Lemma T5_table : (λ t, Standard.T5 (Z.of_nat t + 1)) <$> seq 0 64 = MD5_K.
Proof. vm_compute. reflexivity. Qed.
Lemma shift5_table : Standard.shift5 <$> seq 0 64 = MD5_SHIFTS.
Proof. vm_compute. reflexivity. Qed.

(** *** Shared steps *)

Lemma add32_assoc a b c : add32 (add32 a b) c = add32 a (add32 b c).
Proof. unfold add32, u32. rewrite Zplus_mod_idemp_l, Zplus_mod_idemp_r. f_equal. lia. Qed.
Lemma add32_comm a b : add32 a b = add32 b a.
Proof. unfold add32. f_equal. lia. Qed.
Lemma add32_perm4 a b c d : add32 (add32 (add32 a b) c) d = add32 (add32 (add32 d c) b) a.
Proof.
  rewrite !add32_assoc, (add32_comm a (add32 b _)), (add32_comm b (add32 c d)), (add32_comm c d).
  by rewrite !add32_assoc.
Qed.

Lemma pad_loop_ok fuel msg (z : nat) :
  Z.of_nat z = (56 - Z.of_nat (length msg)) mod 64 → (z < fuel)%nat →
  pad_loop fuel msg = Done (msg ++ replicate z 0).
Proof.
  revert msg z. induction fuel as [|fuel IH]; intros msg z Hz Hf; [lia|]. cbn [pad_loop].
  destruct (Z.eqb_spec (Z.of_nat (length msg) mod 64) 56) as [He|Hne].
  - replace z with 0%nat by (Z.to_euclidean_division_equations; lia). cbn. by rewrite app_nil_r.
  - destruct z as [|z]; [exfalso; Z.to_euclidean_division_equations; lia|].
    rewrite (IH _ z); [|rewrite length_app; cbn; Z.to_euclidean_division_equations; lia|lia].
    by rewrite <- app_assoc.
Qed.

(** A length field of eight bytes forgets the wrap-around of the bit length. *)
Lemma pad_message_ok lf m :
  (∀ v, lf (u64 v) = lf v) → pad_message lf m = Done (Standard.padded lf m).
Proof.
  intros Hlf. unfold pad_message. pose proof (Z.mod_pos_bound (55 - Z.of_nat (length m)) 64 ltac:(lia)).
  rewrite (pad_loop_ok _ _ (Z.to_nat ((55 - Z.of_nat (length m)) mod 64))); [|rewrite length_app; cbn|].
  - cbn [mbind outcome_bind]. unfold Standard.padded, bit_len. rewrite Hlf, Z.mul_comm.
    by rewrite <- !app_assoc.
  - rewrite Z2Nat.id by lia. f_equal. lia.
  - lia.
Qed.

Lemma be_bytes_u64 v : be_bytes 8 (u64 v) = be_bytes 8 v.
Proof.
  apply from_be_inj; rewrite ?length_be_bytes; auto using be_bytes_ok.
  rewrite !from_be_bytes. apply Z.mod_mod. done.
Qed.

Lemma le_bytes_u64 v : le_bytes 8 (u64 v) = le_bytes 8 v.
Proof.
  rewrite <- (le_bytes_from (le_bytes 8 (u64 v))), <- (le_bytes_from (le_bytes 8 v)) by apply le_bytes_ok.
  rewrite !length_le_bytes, !from_le_bytes. f_equal. apply Z.mod_mod. done.
Qed.

Lemma length_padded lf m : (∀ v, length (lf v) = 8%nat) → (length (Standard.padded lf m) mod 64 = 0)%nat.
Proof.
  intros Hlf. unfold Standard.padded. rewrite !length_app, length_replicate, Hlf. cbn [length].
  apply Nat2Z.inj. rewrite Nat2Z.inj_mod, !Nat2Z.inj_add, Z2Nat.id by (apply Z.mod_pos_bound; lia).
  generalize (Z.of_nat (length m)). intros n. Z.to_euclidean_division_equations; lia.
Qed.

Lemma blocks_chunks m : chunks_exact 64 m = Standard.blocks m.
Proof. apply chunks_exact_seq. lia. Qed.

Lemma blocks_length m : Forall (λ b, length b = 64%nat) (Standard.blocks m).
Proof.
  rewrite <- blocks_chunks. unfold chunks_exact.
  destruct (chunks_loop (length m) 64 m) as [cs r] eqn:Hc.
  by destruct (chunks_loop_ok (length m) 64 m cs r ltac:(lia) (le_n _) Hc) as (_ & ? & _).
Qed.

(** The loop that reads the sixteen words of a block. *)
Lemma read_words_ok word block n :
  length block = 64%nat → (16 ≤ n)%nat →
  for_range 16 0 (λ i w, bs ← slice block (i * 4) (i * 4 + 4); slot_set w i (word bs)) (replicate n 0) =
    Done (Standard.words word block ++ replicate (n - 16) 0).
Proof.
  intros Hb Hn. change (replicate n 0) with ([] ++ replicate n 0).
  rewrite (fill_loop 1 (λ ws, (λ t, [word (take 4 (drop (4 * t) block))]) (length ws / 1)%nat)).
  - rewrite (extend_map 1 (λ t, [word (take 4 (drop (4 * t) block))]) 16 0) by (done || lia).
    rewrite drop_replicate, bind_singletons. done.
  - lia.
  - intros j ws rest Hj Hw Hr. split; [|done]. rewrite slice_ok by lia. cbn [mbind outcome_bind].
    destruct rest as [|r rest]; [cbn in Hr; lia|]. rewrite slot_set_mid by lia.
    rewrite Nat.div_1_r. cbn [app drop]. rewrite drop_0. do 4 f_equal.
    replace (Z.to_nat (j * 4 + 4 - j * 4)) with 4%nat by lia. do 2 f_equal. lia.
  - done.
  - rewrite length_replicate. lia.
Qed.

Lemma write_words_ok wb n h :
  (∀ v, length (wb v) = 4%nat) → length h = n → write_words wb n h = Done (h ≫= wb).
Proof.
  intros Hwb Hh. unfold write_words. rewrite (write_loop_ok wb 4) by (done || lia).
  subst n. by rewrite seq_bind_nth.
Qed.

(** *** SHA-256 meets the standard *)

Lemma length_words word block : length (Standard.words word block) = 16%nat.
Proof. done. Qed.

Lemma sha256_schedule_ok block :
  length block = 64%nat → sha256_schedule block = Done (Standard.W256 (Standard.words from_be block)).
Proof.
  intros Hb. unfold sha256_schedule. rewrite read_words_ok by (done || lia). cbn [mbind outcome_bind].
  unfold Standard.W256. apply fill_cells; [lia|done|done|].
  intros j ws r rest Hj Hw. rewrite !slot_get_nth by lia. cbn [mbind outcome_bind].
  f_equal. cbv zeta. rewrite <- Hw.
  replace (Z.to_nat (Z.of_nat (length ws) - 15)) with (length ws - 15)%nat by lia.
  replace (Z.to_nat (Z.of_nat (length ws) - 2)) with (length ws - 2)%nat by lia.
  replace (Z.to_nat (Z.of_nat (length ws) - 16)) with (length ws - 16)%nat by lia.
  replace (Z.to_nat (Z.of_nat (length ws) - 7)) with (length ws - 7)%nat by lia.
  unfold Standard.sigma0, Standard.sigma1, Standard.ROTR, Standard.SHR.
  generalize (nth (length ws - 15) ws 0), (nth (length ws - 2) ws 0). intros x15 x2.
  generalize (Z.lxor (Z.lxor (rotr 32 7 x15) (rotr 32 18 x15)) (Z.shiftr x15 3)).
  generalize (Z.lxor (Z.lxor (rotr 32 17 x2) (rotr 32 19 x2)) (Z.shiftr x2 10)).
  intros s0 s1. apply add32_perm4.
Qed.

Lemma length_W256 M : length M = 16%nat → length (Standard.W256 M) = 64%nat.
Proof. intros HM. unfold Standard.W256. rewrite (length_extend 1) by done. lia. Qed.

Lemma sha256_round_ok W j s :
  length W = 64%nat → 0 ≤ j < 64 → sha256_round W j s = Done (Standard.round256 W s (Z.to_nat j)).
Proof.
  intros HW Hj. destruct s as [a b c d e f g h]. unfold sha256_round, Standard.round256, Standard.K256.
  rewrite K256_table. rewrite !slot_get_nth0 by (rewrite ?HW; change (length SHA256_K) with 64%nat; lia). done.
Qed.

Lemma load8_ok h : length h = 8%nat → load8 h = Done (Standard.vars8 h).
Proof. intros Hh. destruct h as [|? [|? [|? [|? [|? [|? [|? [|? []]]]]]]]]; done. Qed.

Lemma fold8_ok h s : length h = 8%nat → fold8 h s = Done (zip_with add32 h (Standard.list8 s)).
Proof. intros Hh. destruct h as [|? [|? [|? [|? [|? [|? [|? [|? []]]]]]]]]; done. Qed.

Lemma sha256_block_ok block h :
  length block = 64%nat → length h = 8%nat →
  sha256_block block h = Done (Standard.step256 h block) ∧ length (Standard.step256 h block) = 8%nat.
Proof.
  intros Hb Hh. unfold sha256_block, Standard.step256. rewrite sha256_schedule_ok, bind_Done, load8_ok, bind_Done by done.
  pose proof (length_W256 (Standard.words from_be block) eq_refl) as HW.
  generalize dependent (Standard.W256 (Standard.words from_be block)). intros W HW.
  rewrite (for_range_fold0 (Standard.round256 W)) by (intros; by apply sha256_round_ok).
  generalize (foldl (Standard.round256 W) (Standard.vars8 h) (seq 0 64)). intros s.
  rewrite bind_Done, fold8_ok by done. split; [done|]. by rewrite length_zip_with, Hh.
Qed.

Lemma sha256_total m : sha256 m = Done (Standard.SHA256 m) ∧ length (Standard.SHA256 m) = 32%nat.
Proof.
  unfold sha256. rewrite pad_message_ok by apply be_bytes_u64. rewrite bind_Done, blocks_chunks.
  destruct (for_each_fold (λ h, length h = 8%nat) (λ b, length b = 64%nat) Standard.step256 sha256_block
    (Standard.blocks (Standard.padded (be_bytes 8) m)) SHA256_H) as [-> Hl]; [|apply blocks_length|done|].
  { intros b h Hb Hh. by apply sha256_block_ok. }
  rewrite bind_Done, write_words_ok by (done || apply length_be_bytes).
  unfold Standard.SHA256. rewrite H256_table. split; [done|].
  generalize dependent (foldl Standard.step256 SHA256_H (Standard.blocks (Standard.padded (be_bytes 8) m))).
  intros h Hh. destruct h as [|? [|? [|? [|? [|? [|? [|? [|? []]]]]]]]]; done.
Qed.

(** C23. SHA-256 is the SHA-256 of FIPS 180-4: on every input, the padding
    loop, the message schedule array, the sixty-four rounds and the output
    loop complete without a panic and compute the standard's digest, whose
    constants are the fractional parts of the square and cube roots of the
    first primes. *)
Theorem sha256_correct (m : list Z) : sha256 m = Done (Standard.SHA256 m).
Proof. apply sha256_total. Qed.

(** *** SHA-1 meets the standard *)

Definition word32 (x : Z) : Prop := 0 ≤ x < 2 ^ 32.

Lemma add32_word a b : word32 (add32 a b).
Proof. apply Z.mod_pos_bound. lia. Qed.

Lemma testbit_word x i : word32 x → 32 ≤ i → Z.testbit x i = false.
Proof. intros Hx Hi. rewrite <- (Z.mod_small x (2 ^ 32)) by done. apply Z.mod_pow2_bits_high. lia. Qed.

Lemma not32_bits x i : word32 x → 0 ≤ i → Z.testbit (not32 x) i = (i <? 32) && negb (Z.testbit x i).
Proof.
  intros Hx Hi. unfold not32. replace (2 ^ 32 - 1 - x) with (Z.lnot x mod 2 ^ 32).
  - destruct (Z.ltb_spec i 32).
    + by rewrite Z.mod_pow2_bits_low, Z.lnot_spec by lia.
    + by rewrite Z.mod_pow2_bits_high by lia.
  - unfold word32 in Hx. rewrite <- (Z_mod_plus_full (Z.lnot x) 1), Z.mod_small by (unfold Z.lnot; lia).
    unfold Z.lnot. lia.
Qed.

(** The choice function with an or: the two terms share no bit. *)
Lemma Ch_lor x y z : word32 x → Z.lor (Z.land x y) (Z.land (not32 x) z) = Standard.Ch x y z.
Proof.
  intros Hx. unfold Standard.Ch. symmetry. apply Z.lxor_lor, Z.bits_inj'. intros i Hi.
  rewrite !Z.land_spec, not32_bits, Z.bits_0 by done. destruct (i <? 32), (Z.testbit x i), (Z.testbit y i); done.
Qed.

Lemma Maj_lor x y z : Z.lor (Z.lor (Z.land x y) (Z.land x z)) (Z.land y z) = Standard.Maj x y z.
Proof.
  apply Z.bits_inj'. intros i Hi. unfold Standard.Maj. rewrite !Z.lxor_spec, !Z.lor_spec, !Z.land_spec.
  by destruct (Z.testbit x i), (Z.testbit y i), (Z.testbit z i).
Qed.

Lemma sha1_schedule_ok block :
  length block = 64%nat → sha1_schedule block = Done (Standard.W1 (Standard.words from_be block)).
Proof.
  intros Hb. unfold sha1_schedule. rewrite read_words_ok, bind_Done by (done || lia).
  unfold Standard.W1. apply fill_cells; [lia|done|done|].
  intros j ws r rest Hj Hw. rewrite !slot_get_nth by lia. cbn [mbind outcome_bind].
  f_equal. cbv zeta. rewrite <- Hw.
  replace (Z.to_nat (Z.of_nat (length ws) - 3)) with (length ws - 3)%nat by lia.
  replace (Z.to_nat (Z.of_nat (length ws) - 8)) with (length ws - 8)%nat by lia.
  replace (Z.to_nat (Z.of_nat (length ws) - 14)) with (length ws - 14)%nat by lia.
  by replace (Z.to_nat (Z.of_nat (length ws) - 16)) with (length ws - 16)%nat by lia.
Qed.

Lemma length_W1 M : length M = 16%nat → length (Standard.W1 M) = 80%nat.
Proof. intros HM. unfold Standard.W1. rewrite (length_extend 1) by done. lia. Qed.

Definition words5 (s : Vars5) : Prop := word32 (xa s) ∧ word32 (xb s).

Lemma sha1_round_ok W j s :
  length W = 80%nat → 0 ≤ j < 80 → words5 s →
  sha1_round W j s = Done (Standard.round1 W s (Z.to_nat j)) ∧ words5 (Standard.round1 W s (Z.to_nat j)).
Proof.
  intros HW Hj [Ha Hb]. destruct s as [a b c d e]. cbn in Ha, Hb. split; [|by split; [apply add32_word|]].
  unfold sha1_round, Standard.round1, Standard.f1, Standard.K1. rewrite slot_get_nth0 by lia.
  rewrite Ch_lor, Maj_lor by done.
  destruct (Z.leb_spec j 19); [rewrite (proj2 (Nat.ltb_lt _ 20)) by lia; done|].
  rewrite (proj2 (Nat.ltb_ge _ 20)) by lia.
  destruct (Z.leb_spec j 39); [rewrite (proj2 (Nat.ltb_lt _ 40)) by lia; done|].
  rewrite (proj2 (Nat.ltb_ge _ 40)) by lia.
  destruct (Z.leb_spec j 59); [rewrite (proj2 (Nat.ltb_lt _ 60)) by lia; done|].
  by rewrite (proj2 (Nat.ltb_ge _ 60)) by lia.
Qed.

Lemma load5_ok h : length h = 5%nat → load5 h = Done (Standard.vars5 h).
Proof. intros Hh. destruct h as [|? [|? [|? [|? [|? []]]]]]; done. Qed.

Lemma fold5_ok h s : length h = 5%nat → fold5 h s = Done (zip_with add32 h (Standard.list5 s)).
Proof. intros Hh. destruct h as [|? [|? [|? [|? [|? []]]]]]; done. Qed.

Definition state5 (h : list Z) : Prop := length h = 5%nat ∧ Forall word32 h.

Lemma state5_add h l : length h = 5%nat → length l = 5%nat → state5 (zip_with add32 h l).
Proof.
  intros Hh Hl. split; [rewrite length_zip_with; lia|].
  apply Forall_lookup. intros i x Hx. apply lookup_zip_with_Some in Hx as (a & b & -> & _). apply add32_word.
Qed.

Lemma sha1_block_ok block h :
  length block = 64%nat → state5 h →
  sha1_block block h = Done (Standard.step1 h block) ∧ state5 (Standard.step1 h block).
Proof.
  intros Hb [Hh Hw]. unfold sha1_block, Standard.step1.
  rewrite sha1_schedule_ok, bind_Done, load5_ok, bind_Done by done.
  pose proof (length_W1 (Standard.words from_be block) eq_refl) as HW.
  generalize dependent (Standard.W1 (Standard.words from_be block)). intros W HW.
  destruct (for_range_fold_inv0 words5 (Standard.round1 W) (sha1_round W) 80 (Standard.vars5 h)) as [-> _].
  { destruct h as [|? [|? ?]]; try done. apply Forall_cons in Hw as [? Hw]. by apply Forall_cons in Hw as [? _]. }
  { intros j s Hj. by apply sha1_round_ok. }
  generalize (foldl (Standard.round1 W) (Standard.vars5 h) (seq 0 80)). intros s.
  rewrite bind_Done, fold5_ok by done. split; [done|]. by apply state5_add.
Qed.

(** SHA-1 is the SHA-1 of FIPS 180-4 on every input, without a panic: the
    code's or-forms of the choice and majority functions agree with the
    standard's exclusive-or forms on the 32-bit values that occur, and the
    round constants are the scaled square roots of 2, 3, 5 and 10. *)
Theorem sha1_correct (m : list Z) : sha1 m = Done (Standard.SHA1 m).
Proof.
  unfold sha1. rewrite pad_message_ok by apply be_bytes_u64. rewrite bind_Done, blocks_chunks.
  destruct (for_each_fold state5 (λ b, length b = 64%nat) Standard.step1 sha1_block
    (Standard.blocks (Standard.padded (be_bytes 8) m)) SHA1_H) as [-> [Hl _]]; [|apply blocks_length| |].
  { intros b h Hb Hh. by apply sha1_block_ok. }
  { split; [done|]. repeat (apply Forall_cons; split; [done|]). by apply Forall_nil. }
  rewrite bind_Done, write_words_ok by (done || apply length_be_bytes). done.
Qed.

(** *** MD5 meets the standard *)

(** The code renames its variables after each step where the RFC rotates the
    registers: after [t] steps they are related by a rotation. *)
Definition renamed (t : nat) (regs : Vars4) : Vars4 :=
  let '(mk_Vars4 A B C D) := regs in
  match (t mod 4)%nat with
  | 0%nat => mk_Vars4 A B C D
  | 1%nat => mk_Vars4 D A B C
  | 2%nat => mk_Vars4 C D A B
  | _ => mk_Vars4 B C D A
  end.

Lemma mod4_succ t : (S t mod 4 = match t mod 4 with 0 => 1 | 1 => 2 | 2 => 3 | _ => 0 end)%nat.
Proof.
  pose proof (Nat.mod_upper_bound t 4 ltac:(lia)). rewrite <- Nat.add_1_r, <- Nat.Div0.add_mod_idemp_l.
  destruct (t mod 4)%nat as [|[|[|[|]]]]; cbn; lia || done.
Qed.

Lemma round5_renamed X t regs :
  renamed (S t) (Standard.round5 X regs t) =
    let '(mk_Vars4 a b c d) := renamed t regs in mk_Vars4 d (Standard.op5 X t a b c d) b c.
Proof.
  destruct regs as [A B C D]. unfold renamed, Standard.round5. rewrite mod4_succ.
  pose proof (Nat.mod_upper_bound t 4 ltac:(lia)).
  by destruct (t mod 4)%nat as [|[|[|[|]]]].
Qed.

Lemma md5_select j b c d :
  0 ≤ j < 64 →
  (if j <=? 15 then (Z.lor (Z.land b c) (Z.land (not32 b) d), j)
   else if j <=? 31 then (Z.lor (Z.land d b) (Z.land (not32 d) c), (5 * j + 1) mod 16)
   else if j <=? 47 then (Z.lxor (Z.lxor b c) d, (3 * j + 5) mod 16)
   else (Z.lxor c (Z.lor b (not32 d)), (7 * j) mod 16)) =
  (Standard.aux5 (Z.to_nat j) b c d, Z.of_nat (Standard.word5 (Z.to_nat j))).
Proof.
  intros Hj.
  assert (Hw : (if j <=? 15 then j else if j <=? 31 then (5 * j + 1) mod 16
    else if j <=? 47 then (3 * j + 5) mod 16 else (7 * j) mod 16) = Z.of_nat (Standard.word5 (Z.to_nat j))).
  { apply Z.eqb_eq. exact (forall_below 64 (λ j, (if j <=? 15 then j else if j <=? 31 then (5 * j + 1) mod 16
      else if j <=? 47 then (3 * j + 5) mod 16 else (7 * j) mod 16) =? Z.of_nat (Standard.word5 (Z.to_nat j)))
      eq_refl j Hj). }
  rewrite <- Hw. unfold Standard.aux5.
  destruct (Z.leb_spec j 15); [rewrite (proj2 (Nat.ltb_lt _ 16)) by lia; done|].
  rewrite (proj2 (Nat.ltb_ge _ 16)) by lia.
  destruct (Z.leb_spec j 31).
  { rewrite (proj2 (Nat.ltb_lt _ 32)) by lia. unfold Standard.G5.
    by rewrite (Z.land_comm d b), (Z.land_comm (not32 d) c). }
  rewrite (proj2 (Nat.ltb_ge _ 32)) by lia.
  destruct (Z.leb_spec j 47); [rewrite (proj2 (Nat.ltb_lt _ 48)) by lia; done|].
  by rewrite (proj2 (Nat.ltb_ge _ 48)) by lia.
Qed.

Lemma word5_range t : (Standard.word5 t < 16)%nat.
Proof.
  unfold Standard.word5. do 64 (destruct t as [|t]; [cbn; lia|]). cbn. destruct t; lia.
Qed.

Lemma md5_round_ok X j regs :
  length X = 16%nat → 0 ≤ j < 64 →
  md5_round X j (renamed (Z.to_nat j) regs) = Done (renamed (S (Z.to_nat j)) (Standard.round5 X regs (Z.to_nat j))).
Proof.
  intros HX Hj. rewrite round5_renamed. destruct (renamed (Z.to_nat j) regs) as [a b c d].
  unfold md5_round, Standard.op5. rewrite md5_select by done.
  rewrite (table_get _ _ _ j T5_table), (table_get _ _ _ j shift5_table) by lia.
  pose proof (word5_range (Z.to_nat j)). rewrite slot_get_nth0 by lia. rewrite !bind_Done, Nat2Z.id.
  do 4 f_equal. by rewrite !(add32_assoc (add32 a _)), (add32_comm (nth _ X 0)).
Qed.

Lemma md5_rounds_ok X s :
  length X = 16%nat → for_range 64 0 (md5_round X) s = Done (foldl (Standard.round5 X) s (seq 0 64)).
Proof.
  intros HX.
  assert (Hrun : ∀ n i regs, 0 ≤ i → i + Z.of_nat n ≤ 64 →
    for_range n i (md5_round X) (renamed (Z.to_nat i) regs) =
      Done (renamed (Z.to_nat i + n) (foldl (Standard.round5 X) regs (seq (Z.to_nat i) n)))).
  { induction n as [|n IH]; intros i regs Hi Hn; cbn [for_range seq foldl]; [by rewrite Nat.add_0_r|].
    rewrite md5_round_ok, bind_Done by (done || lia).
    replace (S (Z.to_nat i)) with (Z.to_nat (i + 1)) by lia. rewrite IH by lia. do 2 f_equal. lia. }
  specialize (Hrun 64%nat 0 s ltac:(lia) ltac:(lia)). change (Z.to_nat 0) with 0%nat in Hrun.
  replace (renamed 0 s) with s in Hrun by (by destruct s). rewrite Hrun.
  generalize (foldl (Standard.round5 X) s (seq 0 64)). by intros [].
Qed.

Lemma md5_block_ok block s :
  length block = 64%nat → md5_block block s = Done (Standard.step5 s block).
Proof.
  intros Hb. unfold md5_block, Standard.step5, md5_words. rewrite read_words_ok, app_nil_r, bind_Done by (done || lia).
  rewrite md5_rounds_ok by done.
  generalize (foldl (Standard.round5 (Standard.words from_le block)) s (seq 0 64)). intros [A B C D].
  by rewrite bind_Done.
Qed.

(** MD5 is the MD5 of RFC 1321 on every input, without a panic: the
    closed formulas for the message words, the renaming of the four variables
    and the tables agree with the RFC's list of operations on the registers,
    and the additive constants are the scaled sines of 1 to 64. *)
Theorem md5_correct (m : list Z) : md5 m = Done (Standard.MD5 m).
Proof.
  unfold md5, Standard.MD5. rewrite pad_message_ok by apply le_bytes_u64. rewrite bind_Done, blocks_chunks.
  destruct (for_each_fold (λ _, True) (λ b, length b = 64%nat) Standard.step5 md5_block
    (Standard.blocks (Standard.padded (le_bytes 8) m)) md5_init) as [-> _]; [|apply blocks_length|done|].
  { intros b s Hb _. split; [|done]. by apply md5_block_ok. }
  change md5_init with (mk_Vars4 0x67452301 0xefcdab89 0x98badcfe 0x10325476).
  generalize (foldl Standard.step5 (mk_Vars4 0x67452301 0xefcdab89 0x98badcfe 0x10325476)
    (Standard.blocks (Standard.padded (le_bytes 8) m))). intros [A B C D]. reflexivity.
Qed.

(** *** HMAC meets the standard *)

Lemma copy_front (l src : list Z) : (length src ≤ length l)%nat → copy_at l 0 src = Done (src ++ drop (length src) l).
Proof. intros H. apply (copy_at_app [] l src 0); [done|done]. Qed.

Lemma normalise_key_ok key : normalise_key key = Done (Standard.K0 key) ∧ length (Standard.K0 key) = 64%nat.
Proof.
  unfold normalise_key, Standard.K0, BLOCK_LEN. destruct (sha256_total key) as [-> Hl]. rewrite bind_Done.
  destruct (Z.ltb_spec 64 (Z.of_nat (length key))).
  - rewrite (proj2 (Nat.ltb_lt _ _)) by lia. rewrite copy_front, Hl, drop_replicate by (rewrite Hl; cbn; lia).
    split; [done|]. rewrite length_app, length_replicate, Hl. done.
  - rewrite (proj2 (Nat.ltb_ge _ _)) by lia. rewrite copy_front, drop_replicate by (rewrite length_replicate; lia).
    split; [done|]. rewrite length_app, length_replicate. lia.
Qed.

(** The two pads are filled side by side. *)
Lemma derive_pads_ok k :
  length k = 64%nat → derive_pads k = Done (Z.lxor 0x36 <$> k, Z.lxor 0x5C <$> k).
Proof.
  intros Hk. unfold derive_pads.
  assert (Hrun : ∀ n i k1 k2, 0 ≤ i → k = k1 ++ k2 → length k1 = Z.to_nat i → length k2 = n →
    for_range n i (λ i '(k_ipad, k_opad),
      v ← slot_get k i; k_ipad ← slot_set k_ipad i (Z.lxor v 0x36);
      k_opad ← slot_set k_opad i (Z.lxor v 0x5C); Done (k_ipad, k_opad))
      ((Z.lxor 0x36 <$> k1) ++ replicate n 0, (Z.lxor 0x5C <$> k1) ++ replicate n 0) =
    Done (Z.lxor 0x36 <$> k, Z.lxor 0x5C <$> k)).
  { induction n as [|n IH]; intros i k1 k2 Hi He H1 H2.
    { destruct k2; [|done]. rewrite app_nil_r in He. subst k1. cbn. by rewrite !app_nil_r. }
    destruct k2 as [|x k2]; [done|]. cbn [for_range replicate]. rewrite He at 1. rewrite slot_get_mid by lia. cbn [mbind outcome_bind].
    rewrite slot_set_mid by (rewrite length_fmap; lia). cbn [mbind outcome_bind].
    rewrite slot_set_mid by (rewrite length_fmap; lia). cbn [mbind outcome_bind].
    rewrite <- (IH (i + 1) (k1 ++ [x]) k2); [|lia|by rewrite <- app_assoc|rewrite length_app; cbn; lia|by injection H2].
    rewrite !fmap_app, <- !app_assoc. cbn [fmap list_fmap app].
    by rewrite (Z.lxor_comm x 0x36), (Z.lxor_comm x 0x5C). }
  by apply (Hrun 64%nat 0 [] k).
Qed.

(** [hmac_sha256] is the HMAC of FIPS 198-1 over SHA-256, for keys of any
    length (longer than a block: hashed first) and messages of any length. *)
Theorem hmac_sha256_correct (key message : list Z) :
  hmac_sha256 key message = Done (Standard.HMAC_SHA256 key message).
Proof.
  unfold hmac_sha256, Standard.HMAC_SHA256. destruct (normalise_key_ok key) as [-> Hk].
  rewrite bind_Done, derive_pads_ok, bind_Done by done.
  destruct (sha256_total ((Z.lxor 0x36 <$> Standard.K0 key) ++ message)) as [-> _]. rewrite bind_Done.
  apply sha256_total.
Qed.
