(* ===== verification/Sha3.v ===== *)
(** * Sha3.v: SHA3-512

    [src/crap_os/src/crypto/hash/sha3.rs]: the Keccak-f[1600] permutation on
    an array of 25 lanes and the sponge around it.  The module [Fips202]
    states the standard on lanes addressed by their coordinates, with the
    rotation offsets and round constants computed by the standard's
    algorithms instead of tables. *)

From S2P Require Import Prelude Bytes.

Local Open Scope Z_scope.

Definition KECCAK_RC : list Z :=
  [ 0x0000000000000001; 0x0000000000008082; 0x800000000000808a;
    0x8000000080008000; 0x000000000000808b; 0x0000000080000001;
    0x8000000080008081; 0x8000000000008009; 0x000000000000008a;
    0x0000000000000088; 0x0000000080008009; 0x000000008000000a;
    0x000000008000808b; 0x800000000000008b; 0x8000000000008089;
    0x8000000000008003; 0x8000000000008002; 0x8000000000000080;
    0x000000000000800a; 0x800000008000000a; 0x8000000080008081;
    0x8000000000008080; 0x0000000080000001; 0x8000000080008008 ].

Definition KECCAK_RHO : list Z :=
  [  0;  1; 62; 28; 27;
    36; 44;  6; 55; 20;
     3; 10; 43; 25; 39;
    41; 45; 15; 21;  8;
    18;  2; 61; 56; 14 ].

Definition KECCAK_PI : list Z :=
  [  0; 10; 20;  5; 15;
    16;  1; 11; 21;  6;
     7; 17;  2; 12; 22;
    23;  8; 18;  3; 13;
    14; 24;  9; 19;  4 ].

(** ** The permutation *)

Definition theta (state : list Z) : outcome (list Z) :=
  c ← for_range 5 0 (λ x c,
    s0 ← slot_get state x; s5 ← slot_get state (x + 5); s10 ← slot_get state (x + 10);
    s15 ← slot_get state (x + 15); s20 ← slot_get state (x + 20);
    slot_set c x (Z.lxor (Z.lxor (Z.lxor (Z.lxor s0 s5) s10) s15) s20)) (replicate 5 0);
  d ← for_range 5 0 (λ x d,
    c4 ← slot_get c ((x + 4) mod 5);
    c1 ← slot_get c ((x + 1) mod 5);
    slot_set d x (Z.lxor c4 (rotl 64 1 c1))) (replicate 5 0);
  for_range 5 0 (λ x,
    for_range 5 0 (λ y state,
      s ← slot_get state (x + 5 * y);
      dx ← slot_get d x;
      slot_set state (x + 5 * y) (Z.lxor s dx))) state.

Definition rho_pi (state : list Z) : outcome (list Z) :=
  for_range 25 0 (λ i temp,
    p ← slot_get KECCAK_PI i;
    s ← slot_get state i;
    r ← slot_get KECCAK_RHO i;
    slot_set temp p (rotl 64 r s)) (replicate 25 0).

Definition chi (temp state : list Z) : outcome (list Z) :=
  for_range 5 0 (λ y,
    for_range 5 0 (λ x state,
      t0 ← slot_get temp (x + 5 * y);
      t1 ← slot_get temp ((x + 1) mod 5 + 5 * y);
      t2 ← slot_get temp ((x + 2) mod 5 + 5 * y);
      slot_set state (x + 5 * y) (Z.lxor t0 (Z.land (not64 t1) t2)))) state.

Definition iota (rc : Z) (state : list Z) : outcome (list Z) :=
  s ← slot_get state 0;
  slot_set state 0 (Z.lxor s rc).

Definition keccak_round (rc : Z) (state : list Z) : outcome (list Z) :=
  state ← theta state;
  temp ← rho_pi state;
  state ← chi temp state;
  iota rc state.

Definition keccak_f1600 (state : list Z) : outcome (list Z) := for_each KECCAK_RC keccak_round state.

(** ** The sponge *)

Definition RATE : Z := 72.

(** [for i in 0..RATE / 8 { state[i] ^= u64::from_le_bytes(block[..]) }] *)
Definition xor_block (block : list Z) (offset : Z) (state : list Z) : outcome (list Z) :=
  for_range 9 0 (λ i state,
    s ← slot_get state i;
    bs ← slice block (offset + i * 8) (offset + i * 8 + 8);
    slot_set state i (Z.lxor s (from_le bs))) state.

(** [while offset + RATE <= input.len()] *)
Fixpoint absorb (fuel : nat) (input : list Z) (offset : Z) (state : list Z) : outcome (list Z * Z) :=
  match fuel with
  | O => OutOfFuel
  | S fuel =>
      if offset + RATE <=? Z.of_nat (length input) then
        state ← xor_block input offset state;
        state ← keccak_f1600 state;
        absorb fuel input (offset + RATE) state
      else Done (state, offset)
  end.

(** [last_block] *)
Definition last_block (remaining : list Z) : outcome (list Z) :=
  b ← copy_at (replicate 72 0) 0 remaining;
  b ← slot_set b (Z.of_nat (length remaining)) 0x06;
  v ← slot_get b (RATE - 1);
  slot_set b (RATE - 1) (Z.lor v 0x80).

Definition sha3_512 (input : list Z) : outcome (list Z) :=
  '(state, offset) ← absorb (S (length input)) input 0 (replicate 25 0);
  remaining ← slice input offset (Z.of_nat (length input));
  last ← last_block remaining;
  state ← xor_block last 0 state;
  state ← keccak_f1600 state;
  for_range 8 0 (λ i digest,
    s ← slot_get state i;
    copy_at digest (i * 8) (le_bytes 8 s)) (replicate 64 0).

Example sha3_vectors :
  sha3_512 (bytes_of "abc") = Done (be_bytes 64
    0xb751850b1a57168a5693cd924b6b096e08f621827444f70d884f5d0240d2712e10e116e9192af3c91a7ec57647e3934057340b4cf408d5a56592f8274eec53f0) ∧
  sha3_512 [] = Done (be_bytes 64
    0xa69f73cca23a9ac5c8b567dc185a756e97c982164fe25859e0d1dcc1475c80a615b2123af1f5f94c11e3e9402c3ac558f500199d95b6d3e301758586281dcd26).
Proof. vm_compute. split; reflexivity. Qed.

(** ** The standard *)

Module Fips202.

(** Lane [(x, y)] of a state, and a state from its lanes. *)
Definition lane (A : list Z) (x y : nat) : Z := nth (5 * y + x) A 0.
Definition build (f : nat → nat → Z) : list Z := (λ i, f (i mod 5) (i / 5))%nat <$> seq 0 25.

(** 3.2.1 *)
Definition Theta (A : list Z) : list Z :=
  let C x := foldl (λ a y, Z.lxor a (lane A x y)) (lane A x 0) [1; 2; 3; 4]%nat in
  let D x := Z.lxor (C ((x + 4) mod 5)%nat) (rotl 64 1 (C ((x + 1) mod 5)%nat)) in
  build (λ x y, Z.lxor (lane A x y) (D x)).

(** 3.2.2: the walk from (1, 0) that gives each lane its offset. *)
Fixpoint offsets (n t x y : nat) : list (nat * nat * Z) :=
  match n with
  | O => []
  | S n => (x, y, (Z.of_nat t + 1) * (Z.of_nat t + 2) / 2 mod 64) :: offsets n (S t) y ((2 * x + 3 * y) mod 5)
  end.
Definition offset (x y : nat) : Z :=
  foldl (λ r '(a, b, o), if (a =? x)%nat && (b =? y)%nat then o else r) 0 (offsets 24 0 1 0).
Definition Rho (A : list Z) : list Z := build (λ x y, rotl 64 (offset x y) (lane A x y)).

(** 3.2.3 *)
Definition Pi (A : list Z) : list Z := build (λ x y, lane A ((x + 3 * y) mod 5) x).

(** 3.2.4; the bitwise complement of a lane is [not64]. *)
Definition Chi (A : list Z) : list Z :=
  build (λ x y, Z.lxor (lane A x y) (Z.land (not64 (lane A ((x + 1) mod 5) y)) (lane A ((x + 2) mod 5) y))).

(** 3.2.5: the linear feedback shift register and the round constant. *)
Fixpoint lfsr (t : nat) (R : Z) : Z :=
  match t with
  | O => R mod 2
  | S t => let R := 2 * R in lfsr t (if Z.testbit R 8 then Z.lxor R 0x171 else R)
  end.
Definition rc (t : nat) : Z := lfsr (t mod 255) 1.
Definition RC (ir : nat) : Z :=
  foldl (λ r j, r + rc (j + 7 * ir) * 2 ^ (2 ^ Z.of_nat j - 1)) 0 (seq 0 7).
Definition Iota (ir : nat) (A : list Z) : list Z :=
  build (λ x y, if (x =? 0)%nat && (y =? 0)%nat then Z.lxor (lane A x y) (RC ir) else lane A x y).

Definition Rnd (A : list Z) (ir : nat) : list Z := Iota ir (Chi (Pi (Rho (Theta A)))).
Definition Keccak_f (A : list Z) : list Z := foldl Rnd A (seq 0 24).

(** 4, 5.1 and 6.1: the sponge with the rate of 72 bytes, the suffix 01 and
    multi-rate padding. *)
Definition pad (len : nat) : list Z :=
  let q := (72 - len mod 72)%nat in
  if (q =? 1)%nat then [0x86] else [0x06] ++ replicate (q - 2) 0 ++ [0x80].
Definition xor_rate (S P : list Z) : list Z :=
  zip_with Z.lxor S (((λ i, from_le (take 8 (drop (8 * i) P))) <$> seq 0 9) ++ replicate 16 0).
Definition absorb_block (S P : list Z) : list Z := Keccak_f (xor_rate S P).
Definition rate_blocks (start n : nat) (P : list Z) : list (list Z) :=
  (λ i, take 72 (drop (start + 72 * i) P)) <$> seq 0 n.
Definition SHA3_512 (m : list Z) : list Z :=
  let P := m ++ pad (length m) in
  take 64 (foldl absorb_block (replicate 25 0) (rate_blocks 0 (length P / 72) P) ≫= le_bytes 8).

End Fips202.

Lemma RC_table : Fips202.RC <$> seq 0 24 = KECCAK_RC.
Proof. vm_compute. reflexivity. Qed.
Lemma rho_table : Fips202.build Fips202.offset = KECCAK_RHO.
Proof. vm_compute. reflexivity. Qed.

(** *** The rounds agree *)

(** Both sides computed on 25 symbolic lanes. *)
Ltac lanes A := do 25 (destruct A as [|? A]; [done|]); destruct A; [|done].
Ltac lanes_eq := cbv -[Z.lxor Z.land rotl not64]; reflexivity.

Lemma theta_ok A : length A = 25%nat → theta A = Done (Fips202.Theta A).
Proof. intros HA. lanes A. lanes_eq. Qed.

Lemma rho_pi_ok A : length A = 25%nat → rho_pi A = Done (Fips202.Pi (Fips202.Rho A)).
Proof. intros HA. lanes A. lanes_eq. Qed.

Lemma chi_ok T A : length T = 25%nat → length A = 25%nat → chi T A = Done (Fips202.Chi T).
Proof. intros HT HA. lanes T. lanes A. lanes_eq. Qed.

Lemma iota_ok ir A : length A = 25%nat → iota (Fips202.RC ir) A = Done (Fips202.Iota ir A).
Proof. intros HA. unfold Fips202.Iota. generalize (Fips202.RC ir). intros rc. lanes A. lanes_eq. Qed.

Lemma length_build f : length (Fips202.build f) = 25%nat.
Proof. done. Qed.

Lemma keccak_round_ok ir A :
  length A = 25%nat → keccak_round (Fips202.RC ir) A = Done (Fips202.Rnd A ir).
Proof.
  intros HA. unfold keccak_round, Fips202.Rnd. rewrite theta_ok, bind_Done by done.
  rewrite rho_pi_ok, bind_Done by apply length_build.
  rewrite chi_ok, bind_Done by apply length_build. by rewrite iota_ok by apply length_build.
Qed.

Lemma keccak_f1600_ok A :
  length A = 25%nat → keccak_f1600 A = Done (Fips202.Keccak_f A) ∧ length (Fips202.Keccak_f A) = 25%nat.
Proof.
  intros HA. unfold keccak_f1600, Fips202.Keccak_f. rewrite <- RC_table. generalize (seq 0 24). intros irs.
  revert A HA. induction irs as [|ir irs IH]; intros A HA; [done|]. cbn [fmap list_fmap for_each foldl].
  rewrite keccak_round_ok, bind_Done by done. apply IH. apply length_build.
Qed.

(** *** The sponge agrees *)

Lemma xor_words_ok (w : nat → Z) A :
  length A = 25%nat →
  for_range 9 0 (λ i A, s ← slot_get A i; slot_set A i (Z.lxor s (w (Z.to_nat i)))) A =
    Done (zip_with Z.lxor A ((w <$> seq 0 9) ++ replicate 16 0)).
Proof. intros HA. lanes A. cbv -[Z.lxor]. rewrite !Z.lxor_0_r. reflexivity. Qed.

Lemma xor_block_ok block offset A :
  length A = 25%nat → 0 ≤ offset → offset + 72 ≤ Z.of_nat (length block) →
  xor_block block offset A = Done (Fips202.xor_rate A (take 72 (drop (Z.to_nat offset) block))).
Proof.
  intros HA Ho Hb. unfold xor_block, Fips202.xor_rate. rewrite <- xor_words_ok by done.
  apply for_range_ext. intros i B Hi.
  rewrite slice_ok by lia. destruct (slot_get B i) as [s| |]; cbn [mbind outcome_bind]; [|done..].
  do 2 f_equal. rewrite skipn_firstn_comm, take_take, drop_drop.
  replace (Z.to_nat (offset + i * 8 + 8 - (offset + i * 8))) with 8%nat by lia.
  rewrite Nat.min_l by lia. do 3 f_equal. lia.
Qed.

Lemma length_xor_rate A P : length A = 25%nat → length (Fips202.xor_rate A P) = 25%nat.
Proof. intros HA. unfold Fips202.xor_rate. by rewrite length_zip_with, HA. Qed.

Lemma rate_blocks_cons start n P :
  Fips202.rate_blocks start (S n) P = take 72 (drop start P) :: Fips202.rate_blocks (start + 72) n P.
Proof.
  unfold Fips202.rate_blocks. cbn [seq fmap list_fmap]. rewrite Nat.mul_0_r, Nat.add_0_r. f_equal.
  rewrite <- (seq_shift n 0). rewrite <- (list_fmap_compose S). apply list_fmap_ext. intros _ i _. cbn.
  do 2 f_equal. lia.
Qed.

Lemma rate_blocks_snoc start n P :
  Fips202.rate_blocks start (n + 1) P = Fips202.rate_blocks start n P ++ [take 72 (drop (start + 72 * n) P)].
Proof. unfold Fips202.rate_blocks. rewrite seq_app, fmap_app. done. Qed.

Lemma absorb_ok fuel n input offset A :
  length A = 25%nat → 0 ≤ offset → (n < fuel)%nat →
  Z.of_nat (length input) - 72 < offset + 72 * Z.of_nat n ≤ Z.of_nat (length input) →
  let S := foldl Fips202.absorb_block A (Fips202.rate_blocks (Z.to_nat offset) n input) in
  absorb fuel input offset A = Done (S, offset + 72 * Z.of_nat n) ∧ length S = 25%nat.
Proof.
  cbv zeta. revert n offset A. induction fuel as [|fuel IH]; intros n offset A HA Ho Hf Hn; [lia|].
  cbn [absorb]. unfold RATE. destruct (Z.leb_spec (offset + 72) (Z.of_nat (length input))); cycle 1.
  { replace n with 0%nat by lia. cbn. by rewrite Z.add_0_r. }
  destruct n as [|n]; [lia|]. rewrite xor_block_ok, bind_Done, rate_blocks_cons by lia.
  destruct (keccak_f1600_ok (Fips202.xor_rate A (take 72 (drop (Z.to_nat offset) input)))) as [-> Hl];
    [by apply length_xor_rate|].
  rewrite bind_Done. cbn [foldl]. unfold Fips202.absorb_block at 2 4.
  destruct (IH n (offset + 72) _ Hl) as [-> Hlen]; [lia..|].
  replace (Z.to_nat (offset + 72)) with (Z.to_nat offset + 72)%nat in * by lia.
  split; [|done]. do 2 f_equal. lia.
Qed.

(** The last block: what is left of the message, then the padding. *)
Lemma last_block_ok r : (length r < 72)%nat → last_block r = Done (r ++ Fips202.pad (length r)).
Proof.
  intros Hr. unfold last_block, Fips202.pad, RATE. rewrite Nat.mod_small by done.
  change (replicate 72 0) with ([] ++ replicate 72 0).
  rewrite (copy_at_app [] _ r) by (done || rewrite length_replicate; lia). rewrite bind_Done, drop_replicate.
  cbn [app]. destruct (72 - length r)%nat as [|q] eqn:Hq; [lia|]. cbn [replicate].
  rewrite slot_set_mid, bind_Done by done. destruct (Nat.eqb_spec (S q) 1) as [Hq1|Hq1].
  - replace q with 0%nat by lia. cbn [replicate]. rewrite slot_get_mid, bind_Done by lia.
    by rewrite slot_set_mid by lia.
  - destruct q as [|q]; [lia|]. replace (S (S q) - 2)%nat with q by lia.
    replace (r ++ 6 :: replicate (S q) 0) with ((r ++ 6 :: replicate q 0) ++ [0])
      by (rewrite replicate_S_end, <- app_assoc; done).
    assert (Z.of_nat (length (r ++ 6 :: replicate q 0)) = 71) by (rewrite length_app; cbn; rewrite length_replicate; lia).
    rewrite slot_get_mid, bind_Done by lia. rewrite slot_set_mid by lia.
    rewrite <- app_assoc. done.
Qed.

Lemma pad_mod len : Fips202.pad (len mod 72) = Fips202.pad len.
Proof. unfold Fips202.pad. by rewrite Nat.Div0.mod_mod. Qed.

Lemma length_pad len : (len mod 72 + length (Fips202.pad len) = 72)%nat.
Proof.
  unfold Fips202.pad. pose proof (Nat.mod_upper_bound len 72 ltac:(lia)).
  destruct (Nat.eqb_spec (72 - len mod 72) 1); [cbn [length]; lia|]. rewrite !length_app, length_replicate. cbn [length]. lia.
Qed.

Lemma padded_blocks m :
  let n := (length m / 72)%nat in
  Fips202.rate_blocks 0 (length (m ++ Fips202.pad (length m)) / 72) (m ++ Fips202.pad (length m)) =
    Fips202.rate_blocks 0 n m ++ [drop (72 * n) m ++ Fips202.pad (length m)].
Proof.
  cbv zeta. pose proof (length_pad (length m)) as Hp. pose proof (Nat.div_mod_eq (length m) 72) as Hd.
  set (n := (length m / 72)%nat) in *. set (p := Fips202.pad (length m)) in *.
  replace (length (m ++ p) / 72)%nat with (n + 1)%nat.
  2: { replace (length (m ++ p)) with ((n + 1) * 72)%nat by (rewrite length_app; lia). by rewrite Nat.div_mul. }
  rewrite rate_blocks_snoc. f_equal.
  - apply list_fmap_ext. intros k i Hi. apply lookup_seq in Hi as [-> Hi].
    rewrite drop_app_le, take_app_le by (rewrite ?length_drop; lia). done.
  - rewrite drop_app_le by lia. rewrite take_ge; [done|]. rewrite length_app, length_drop. lia.
Qed.

(** C24. SHA3-512 is the SHA3-512 of FIPS 202 on every input, without a panic:
    the table-driven permutation on a flat array is the composition of the
    step mappings on lane coordinates, with offsets from the standard's walk
    and round constants from its shift register, and the block loop with its
    separate last block is the sponge over the padded message. *)
Theorem sha3_512_correct (m : list Z) : sha3_512 m = Done (Fips202.SHA3_512 m).
Proof.
  pose proof (Nat.div_mod_eq (length m) 72) as Hd.
  pose proof (Nat.mod_upper_bound (length m) 72 ltac:(lia)) as Hm.
  unfold sha3_512, Fips202.SHA3_512. rewrite padded_blocks, foldl_app. cbn [foldl].
  set (n := (length m / 72)%nat) in *.
  destruct (absorb_ok (S (length m)) n m 0 (replicate 25 0)) as [-> Hl]; [done|lia..|].
  rewrite bind_Done, slice_ok by lia. rewrite bind_Done.
  set (S0 := foldl Fips202.absorb_block _ _) in *. change (Z.to_nat 0) with 0%nat in S0. clearbody S0.
  replace (Z.to_nat (0 + 72 * Z.of_nat n)) with (72 * n)%nat by lia.
  rewrite (take_ge (drop (72 * n) m)) by (rewrite length_drop; lia).
  assert (Hr : length (drop (72 * n) m) = (length m mod 72)%nat) by (rewrite length_drop; lia).
  rewrite last_block_ok, bind_Done, Hr, pad_mod by lia. pose proof (length_pad (length m)) as Hp.
  rewrite xor_block_ok, bind_Done by (rewrite ?length_app; lia || done).
  rewrite drop_0, take_ge by (rewrite length_app; lia).
  destruct (keccak_f1600_ok (Fips202.xor_rate S0 (drop (72 * n) m ++ Fips202.pad (length m)))) as [-> Hk];
    [by apply length_xor_rate|]. rewrite bind_Done.
  fold (Fips202.absorb_block S0 (drop (72 * n) m ++ Fips202.pad (length m))) in *.
  generalize dependent (Fips202.absorb_block S0 (drop (72 * n) m ++ Fips202.pad (length m))). intros A HA.
  rewrite (write_loop_ok (le_bytes 8) 8 8) by (apply length_le_bytes || lia). f_equal.
  lanes A. reflexivity.
Qed.
