(* ===== verification/Blake2b.v ===== *)
(** * Blake2b.v: BLAKE2b and the variable-length hash of Argon2

    [src/crap_os/src/crypto/hash/blake2b.rs]: the incremental state with its
    128-byte buffer, the compression function, the digest and MAC entry points
    and [h_prime].  The module [Rfc7693] states BLAKE2b on a whole message;
    the incremental state is proved to compute it however the message is cut
    into pieces. *)

From S2P Require Import Prelude Bytes Digests.

Local Open Scope Z_scope.

Definition IV : list Z :=
  [ 0x6a09e667f3bcc908; 0xbb67ae8584caa73b; 0x3c6ef372fe94f82b;
    0xa54ff53a5f1d36f1; 0x510e527fade682d1; 0x9b05688c2b3e6c1f;
    0x1f83d9abfb41bd6b; 0x5be0cd19137e2179 ].

Definition SIGMA : list (list Z) :=
  [ [ 0;  1;  2;  3;  4;  5;  6;  7;  8;  9; 10; 11; 12; 13; 14; 15];
    [14; 10;  4;  8;  9; 15; 13;  6;  1; 12;  0;  2; 11;  7;  5;  3];
    [11;  8; 12;  0;  5;  2; 15; 13; 10; 14;  3;  6;  7;  1;  9;  4];
    [ 7;  9;  3;  1; 13; 12; 11; 14;  2;  6;  5; 10;  4;  0; 15;  8];
    [ 9;  0;  5;  7;  2;  4; 10; 15; 14;  1; 11; 12;  6;  8;  3; 13];
    [ 2; 12;  6; 10;  0; 11;  8;  3;  4; 13;  7;  5; 15; 14;  1;  9];
    [12;  5;  1; 15; 14; 13;  4; 10;  0;  7;  6;  3;  9;  2;  8; 11];
    [13; 11;  7; 14; 12;  1;  3;  9;  5;  0; 15;  4;  8;  6;  2; 10];
    [ 6; 15; 14;  9; 11;  3;  0;  8; 12;  2; 13;  7;  1;  4; 10;  5];
    [10;  2;  8;  4;  7;  6;  1;  5; 15; 11;  9; 14;  3; 12; 13;  0];
    [ 0;  1;  2;  3;  4;  5;  6;  7;  8;  9; 10; 11; 12; 13; 14; 15];
    [14; 10;  4;  8;  9; 15; 13;  6;  1; 12;  0;  2; 11;  7;  5;  3] ].

Definition MAX_KEY_LEN : Z := 64.
Definition MAX_OUT_LEN : Z := 64.
Definition BLOCK_SIZE : Z := 128.

(** [t: [u64; 2]] and [f: [u64; 2]] are given as their two words. *)
Record Blake2bState := mk_Blake2bState {
  b_h : list Z;
  b_t0 : Z; b_t1 : Z;
  b_f0 : Z; b_f1 : Z;
  b_buf : list Z;
  b_buf_len : Z;
  b_out_len : Z
}.

Definition set_h (h : list Z) (s : Blake2bState) : Blake2bState :=
  mk_Blake2bState h (b_t0 s) (b_t1 s) (b_f0 s) (b_f1 s) (b_buf s) (b_buf_len s) (b_out_len s).
Definition set_t (t0 t1 : Z) (s : Blake2bState) : Blake2bState :=
  mk_Blake2bState (b_h s) t0 t1 (b_f0 s) (b_f1 s) (b_buf s) (b_buf_len s) (b_out_len s).
Definition set_f0 (f0 : Z) (s : Blake2bState) : Blake2bState :=
  mk_Blake2bState (b_h s) (b_t0 s) (b_t1 s) f0 (b_f1 s) (b_buf s) (b_buf_len s) (b_out_len s).
Definition set_buf (buf : list Z) (n : Z) (s : Blake2bState) : Blake2bState :=
  mk_Blake2bState (b_h s) (b_t0 s) (b_t1 s) (b_f0 s) (b_f1 s) buf n (b_out_len s).

(** ** Compression *)

Definition increment_counter (s : Blake2bState) (n : Z) : Blake2bState :=
  let t0 := b_t0 s ⊞ n in
  set_t t0 (if t0 <? n then b_t1 s ⊞ 1 else b_t1 s) s.

(** The mixing function, on the working vector. *)
Definition g (v : list Z) (a b c d x y : Z) : outcome (list Z) :=
  va ← slot_get v a; vb ← slot_get v b; v ← slot_set v a ((va ⊞ vb) ⊞ x);
  vd ← slot_get v d; va ← slot_get v a; v ← slot_set v d (rotr 64 32 (Z.lxor vd va));
  vc ← slot_get v c; vd ← slot_get v d; v ← slot_set v c (vc ⊞ vd);
  vb ← slot_get v b; vc ← slot_get v c; v ← slot_set v b (rotr 64 24 (Z.lxor vb vc));
  va ← slot_get v a; vb ← slot_get v b; v ← slot_set v a ((va ⊞ vb) ⊞ y);
  vd ← slot_get v d; va ← slot_get v a; v ← slot_set v d (rotr 64 16 (Z.lxor vd va));
  vc ← slot_get v c; vd ← slot_get v d; v ← slot_set v c (vc ⊞ vd);
  vb ← slot_get v b; vc ← slot_get v c; slot_set v b (rotr 64 63 (Z.lxor vb vc)).

(** [m[s[i]]] *)
Definition pick (m s : list Z) (i : Z) : outcome Z := j ← slot_get s i; slot_get m j.

Definition mix_round (m : list Z) (round : Z) (v : list Z) : outcome (list Z) :=
  s ← slot_get SIGMA round;
  x ← pick m s 0;  y ← pick m s 1;  v ← g v 0 4 8 12 x y;
  x ← pick m s 2;  y ← pick m s 3;  v ← g v 1 5 9 13 x y;
  x ← pick m s 4;  y ← pick m s 5;  v ← g v 2 6 10 14 x y;
  x ← pick m s 6;  y ← pick m s 7;  v ← g v 3 7 11 15 x y;
  x ← pick m s 8;  y ← pick m s 9;  v ← g v 0 5 10 15 x y;
  x ← pick m s 10; y ← pick m s 11; v ← g v 1 6 11 12 x y;
  x ← pick m s 12; y ← pick m s 13; v ← g v 2 7 8 13 x y;
  x ← pick m s 14; y ← pick m s 15; g v 3 4 9 14 x y.

(** [v[i] ^= x] *)
Definition xor_at (v : list Z) (i x : Z) : outcome (list Z) :=
  w ← slot_get v i; slot_set v i (Z.lxor w x).

(** [v[..8] = h; v[8..16] = IV] and the four exclusive ors. *)
Definition init_vector (h : list Z) (t0 t1 f0 f1 : Z) : outcome (list Z) :=
  v ← copy_at (replicate 16 0) 0 h;
  v ← copy_at v 8 IV;
  v ← xor_at v 12 t0; v ← xor_at v 13 t1; v ← xor_at v 14 f0; xor_at v 15 f1.

Definition compress (s : Blake2bState) : outcome Blake2bState :=
  m ← for_range 16 0 (λ i m,
    bs ← slice (b_buf s) (i * 8) (i * 8 + 8);
    slot_set m i (from_le bs)) (replicate 16 0);
  v ← init_vector (b_h s) (b_t0 s) (b_t1 s) (b_f0 s) (b_f1 s);
  v ← for_range 12 0 (mix_round m) v;
  h ← for_range 8 0 (λ i h,
    vi ← slot_get v i; vi8 ← slot_get v (i + 8);
    xor_at h i (Z.lxor vi vi8)) (b_h s);
  Done (set_h h s).

(** ** The incremental interface *)

(** [while offset < input.len()]; every round copies at least one byte. *)
Fixpoint update_loop (fuel : nat) (input : list Z) (offset : Z) (s : Blake2bState) : outcome Blake2bState :=
  match fuel with
  | O => OutOfFuel
  | S fuel =>
      if offset <? Z.of_nat (length input) then
        s ← (if b_buf_len s =? BLOCK_SIZE then
               s ← compress (increment_counter s BLOCK_SIZE);
               Done (set_buf (b_buf s) 0 s)
             else Done s);
        let space := BLOCK_SIZE ⊟ b_buf_len s in
        let to_copy := Z.min (Z.of_nat (length input) - offset) space in
        bs ← slice input offset (offset + to_copy);
        buf ← copy_at (b_buf s) (b_buf_len s) bs;
        update_loop fuel input (offset + to_copy) (set_buf buf (b_buf_len s ⊞ to_copy) s)
      else Done s
  end.

Definition update (s : Blake2bState) (input : list Z) : outcome Blake2bState :=
  update_loop (S (length input)) input 0 s.

Definition new (out_len : Z) (key : option (list Z)) : outcome Blake2bState :=
  let key_len := match key with Some k => Z.of_nat (length k) | None => 0 end in
  let p0 := Z.lor (Z.lor (Z.lor out_len (Z.shiftl key_len 8)) (Z.shiftl 1 16)) (Z.shiftl 1 24) in
  h ← xor_at IV 0 p0;
  let state := mk_Blake2bState h 0 0 0 0 (replicate 128 0) 0 out_len in
  match key with
  | Some k =>
      key_block ← copy_at (replicate 128 0) 0 k;
      update state key_block
  | None => Done state
  end.

Definition finalize (s : Blake2bState) : outcome (list Z) :=
  let s := increment_counter s (b_buf_len s) in
  buf ← for_range (Z.to_nat (BLOCK_SIZE - b_buf_len s)) (b_buf_len s) (λ i buf, slot_set buf i 0) (b_buf s);
  s ← compress (set_f0 (W64 - 1) (set_buf buf (b_buf_len s) s));
  all_bytes ← for_range 8 0 (λ i all_bytes,
    word ← slot_get (b_h s) i;
    copy_at all_bytes (i * 8) (le_bytes 8 word)) (replicate 64 0);
  slice all_bytes 0 (b_out_len s).

(** ** Entry points *)

Definition blake2b (input : list Z) (out_len : Z) (key : option (list Z)) : outcome (option (list Z)) :=
  if (out_len =? 0) || (MAX_OUT_LEN <? out_len) then Done None
  else if match key with
          | Some k => (Z.of_nat (length k) =? 0) || (MAX_KEY_LEN <? Z.of_nat (length k))
          | None => false
          end then Done None
  else
    state ← new out_len key;
    state ← update state input;
    out ← finalize state;
    Done (Some out).

Definition blake2b_512 (input : list Z) : outcome (list Z) :=
  state ← new 64 None;
  state ← update state input;
  out ← finalize state;
  copy_at (replicate 64 0) 0 out.

Definition blake2b_512_slice (input : list Z) : outcome (list Z) := blake2b_512 input.

Definition blake2b_256 (input : list Z) : outcome (list Z) :=
  state ← new 32 None;
  state ← update state input;
  out ← finalize state;
  copy_at (replicate 32 0) 0 out.

Definition blake2b_mac_512 (input key : list Z) : outcome (option (list Z)) :=
  if (Z.of_nat (length key) =? 0) || (MAX_KEY_LEN <? Z.of_nat (length key)) then Done None
  else
    state ← new 64 (Some key);
    state ← update state input;
    out ← finalize state;
    result ← copy_at (replicate 64 0) 0 out;
    Done (Some result).

Definition blake2b_mac_256 (input key : list Z) : outcome (option (list Z)) :=
  if (Z.of_nat (length key) =? 0) || (MAX_KEY_LEN <? Z.of_nat (length key)) then Done None
  else
    state ← new 32 (Some key);
    state ← update state input;
    out ← finalize state;
    result ← copy_at (replicate 32 0) 0 out;
    Done (Some result).

(** [for _ in 1..r]: hash the previous block and keep its first half. *)
Fixpoint h_prime_loop (n : nat) (a out : list Z) : outcome (list Z * list Z) :=
  match n with
  | O => Done (a, out)
  | S n =>
      state ← new 64 None;
      state ← update state a;
      a ← finalize state;
      a32 ← slice a 0 32;
      h_prime_loop n a (out ++ a32)
  end.

Definition h_prime (input : list Z) (tau : Z) : outcome (list Z) :=
  let tau_bytes := le_bytes 4 (u32 tau) in
  if tau <=? 64 then
    let clamped := Z.max tau 1 in
    state ← new clamped None;
    state ← update state tau_bytes;
    state ← update state input;
    finalize state
  else
    let r := (tau + 31) / 32 ⊟ 2 in
    state ← new 64 None;
    state ← update state tau_bytes;
    state ← update state input;
    a ← finalize state;
    a32 ← slice a 0 32;
    '(a, out) ← h_prime_loop (Z.to_nat (r - 1)) a a32;
    let last_len := tau ⊟ (32 * r) in
    state ← new last_len None;
    state ← update state a;
    last ← finalize state;
    Done (out ++ last).

(** RFC 7693, appendix A; the empty digest and a keyed one of the reference
    test vectors. *)
Example blake2b_vectors :
  blake2b_512 (bytes_of "abc") = Done (be_bytes 64
    0xba80a53f981c4d0d6a2797b69f12f6e94c212f14685ac4b74b12bb6fdbffa2d17d87c5392aab792dc252d5de4533cc9518d38aa8dbf1925ab92386edd4009923) ∧
  blake2b [] 64 (Some (Z.of_nat <$> seq 0 64)) = Done (Some (be_bytes 64
    0x10ebb67700b1868efb4417987acf4690ae9d972fb7a590c2f02871799aaa4786b5e996e8f0f4eb981fc214b005f42d2ff4233499391653df7aefcbc13fc51568)).
Proof. vm_compute. split; reflexivity. Qed.

(** ** The standard *)

Module Rfc7693.

(** 2.6: the square roots of the first primes. *)
Definition IV64 : list Z := Standard.frac_root 2 64 <$> Standard.primes 8.

(** 2.7: the table of the ten permutations, reused from the eleventh round on. *)
Definition SIGMA10 : list (list Z) :=
  [ [0; 1; 2; 3; 4; 5; 6; 7; 8; 9; 10; 11; 12; 13; 14; 15];
    [14; 10; 4; 8; 9; 15; 13; 6; 1; 12; 0; 2; 11; 7; 5; 3];
    [11; 8; 12; 0; 5; 2; 15; 13; 10; 14; 3; 6; 7; 1; 9; 4];
    [7; 9; 3; 1; 13; 12; 11; 14; 2; 6; 5; 10; 4; 0; 15; 8];
    [9; 0; 5; 7; 2; 4; 10; 15; 14; 1; 11; 12; 6; 8; 3; 13];
    [2; 12; 6; 10; 0; 11; 8; 3; 4; 13; 7; 5; 15; 14; 1; 9];
    [12; 5; 1; 15; 14; 13; 4; 10; 0; 7; 6; 3; 9; 2; 8; 11];
    [13; 11; 7; 14; 12; 1; 3; 9; 5; 0; 15; 4; 8; 6; 2; 10];
    [6; 15; 14; 9; 11; 3; 0; 8; 12; 2; 13; 7; 1; 4; 10; 5];
    [10; 2; 8; 4; 7; 6; 1; 5; 15; 11; 9; 14; 3; 12; 13; 0] ].
Definition sigma (round i : nat) : nat := Z.to_nat (nth i (nth (round mod 10) SIGMA10 []) 0).

Definition get (v : list Z) (i : nat) : Z := nth i v 0.

(** 3.1: the mixing function. *)
Definition G (v : list Z) (a b c d : nat) (x y : Z) : list Z :=
  let v := <[a := (get v a ⊞ get v b) ⊞ x]> v in
  let v := <[d := rotr 64 32 (Z.lxor (get v d) (get v a))]> v in
  let v := <[c := get v c ⊞ get v d]> v in
  let v := <[b := rotr 64 24 (Z.lxor (get v b) (get v c))]> v in
  let v := <[a := (get v a ⊞ get v b) ⊞ y]> v in
  let v := <[d := rotr 64 16 (Z.lxor (get v d) (get v a))]> v in
  let v := <[c := get v c ⊞ get v d]> v in
  <[b := rotr 64 63 (Z.lxor (get v b) (get v c))]> v.

Definition round (m v : list Z) (i : nat) : list Z :=
  let m i' := get m (sigma i i') in
  let v := G v 0 4 8 12 (m 0%nat) (m 1%nat) in
  let v := G v 1 5 9 13 (m 2%nat) (m 3%nat) in
  let v := G v 2 6 10 14 (m 4%nat) (m 5%nat) in
  let v := G v 3 7 11 15 (m 6%nat) (m 7%nat) in
  let v := G v 0 5 10 15 (m 8%nat) (m 9%nat) in
  let v := G v 1 6 11 12 (m 10%nat) (m 11%nat) in
  let v := G v 2 7 8 13 (m 12%nat) (m 13%nat) in
  G v 3 4 9 14 (m 14%nat) (m 15%nat).

(** 3.2: the compression function; [t] is the offset counter, [f] the flag of
    the last block. *)
Definition init_v (h : list Z) (t : Z) (f : bool) : list Z :=
  let v := h ++ IV64 in
  let v := <[12%nat := Z.lxor (get v 12) (t mod 2 ^ 64)]> v in
  let v := <[13%nat := Z.lxor (get v 13) (t / 2 ^ 64 mod 2 ^ 64)]> v in
  if f then <[14%nat := Z.lxor (get v 14) (2 ^ 64 - 1)]> v else v.

Definition words (block : list Z) : list Z :=
  (λ i, from_le (take 8 (drop (8 * i) block))) <$> seq 0 16.

Definition F (h block : list Z) (t : Z) (f : bool) : list Z :=
  let v := foldl (round (words block)) (init_v h t f) (seq 0 12) in
  (λ i, Z.lxor (get h i) (Z.lxor (get v i) (get v (i + 8)))) <$> seq 0 8.

(** 3.3: the data is the padded key, when there is one, and the message; all
    blocks but the last are compressed in order, the last, padded with zeros,
    with the total length and the flag. *)
Definition data (key msg : list Z) : list Z :=
  if (length key =? 0)%nat then msg else key ++ replicate (128 - length key) 0 ++ msg.
Definition h_init (kk nn : Z) : list Z :=
  <[0%nat := Z.lxor (get IV64 0) (Z.lxor (Z.lxor 0x01010000 (Z.shiftl kk 8)) nn)]> IV64.
Definition chain (h d : list Z) (n : nat) : list Z :=
  foldl (λ h i, F h (take 128 (drop (128 * i) d)) (128 * (Z.of_nat i + 1)) false) h (seq 0 n).
Definition last_index (d : list Z) : nat := ((length d - 1) / 128)%nat.
Definition hash_data (h d : list Z) : list Z :=
  let n := last_index d in
  let rest := drop (128 * n) d in
  F (chain h d n) (rest ++ replicate (128 - length rest) 0) (Z.of_nat (length d)) true.

Definition BLAKE2b (nn : Z) (key msg : list Z) : list Z :=
  take (Z.to_nat nn) (hash_data (h_init (Z.of_nat (length key)) nn) (data key msg) ≫= le_bytes 8).

End Rfc7693.

Lemma IV_table : Rfc7693.IV64 = IV.
Proof. vm_compute. reflexivity. Qed.

(** *** The compression function agrees *)

Lemma get_ok v i : 0 ≤ i < Z.of_nat (length v) → slot_get v i = Done (Rfc7693.get v (Z.to_nat i)).
Proof. apply slot_get_nth0. Qed.

Lemma G_length v a b c d x y : length (Rfc7693.G v a b c d x y) = length v.
Proof. unfold Rfc7693.G. by rewrite !length_insert. Qed.

Lemma g_ok v a b c d x y :
  length v = 16%nat → 0 ≤ a < 16 → 0 ≤ b < 16 → 0 ≤ c < 16 → 0 ≤ d < 16 →
  g v a b c d x y = Done (Rfc7693.G v (Z.to_nat a) (Z.to_nat b) (Z.to_nat c) (Z.to_nat d) x y).
Proof.
  intros Hv Ha Hb Hc Hd. unfold g, Rfc7693.G. cbv zeta.
  do 8 (rewrite !get_ok by lia; rewrite !bind_Done, slot_set_ok, ?bind_Done by lia;
    try match goal with |- context [slot_get ?w] =>
      lazymatch w with v => fail | _ => assert (length w = 16%nat) by (by rewrite length_insert);
        generalize dependent w; clear v Hv; intros v Hv end end).
  done.
Qed.

(** Every entry of the table is an index, and rows ten and eleven repeat. *)
Lemma sigma_table :
  forallb (λ r, forallb (λ i, let j := nth i (nth r SIGMA []) 0 in
    (0 <=? j) && (j <? 16) && (j =? Z.of_nat (Rfc7693.sigma r i)) && (length (nth r SIGMA []) =? 16)%nat) (seq 0 16)) (seq 0 12) = true.
Proof. vm_compute. reflexivity. Qed.

Lemma sigma_entry (r i : nat) :
  (r < 12)%nat → (i < 16)%nat →
  0 ≤ nth i (nth r SIGMA []) 0 < 16 ∧ Z.to_nat (nth i (nth r SIGMA []) 0) = Rfc7693.sigma r i ∧
  length (nth r SIGMA []) = 16%nat.
Proof.
  intros Hr Hi. pose proof (proj1 (forallb_forall _ _) sigma_table r (proj2 (in_seq 12 0 r) ltac:(lia))) as H.
  pose proof (proj1 (forallb_forall _ _) H i (proj2 (in_seq 16 0 i) ltac:(lia))) as H2. cbv beta zeta in H2.
  rewrite !andb_true_iff, Z.leb_le, Z.ltb_lt, Z.eqb_eq, Nat.eqb_eq in H2. split_and!; lia.
Qed.

Lemma pick_ok m r i :
  length m = 16%nat → (r < 12)%nat → 0 ≤ i < 16 →
  pick m (nth r SIGMA []) i = Done (Rfc7693.get m (Rfc7693.sigma r (Z.to_nat i))).
Proof.
  intros Hm Hr Hi. destruct (sigma_entry r (Z.to_nat i)) as (Hj & He & Hl); [lia..|].
  unfold pick. rewrite slot_get_nth0, bind_Done by lia. rewrite get_ok by lia. by rewrite He.
Qed.

Lemma mix_round_ok m j v :
  length m = 16%nat → 0 ≤ j < 12 → length v = 16%nat →
  mix_round m j v = Done (Rfc7693.round m v (Z.to_nat j)) ∧ length (Rfc7693.round m v (Z.to_nat j)) = 16%nat.
Proof.
  intros Hm Hj Hv. split; [|unfold Rfc7693.round; by rewrite !G_length].
  unfold mix_round. rewrite (slot_get_default [] SIGMA j), bind_Done by (change (length SIGMA) with 12%nat; lia).
  rewrite !pick_ok by (done || lia). rewrite !bind_Done.
  do 8 (rewrite g_ok by (rewrite ?G_length; done || lia); rewrite ?bind_Done).
  unfold Rfc7693.round. cbv zeta. norm_index. reflexivity.
Qed.

(** The two counter words hold the counter. *)
Definition counts (T : Z) (s : Blake2bState) : Prop :=
  b_t0 s = T mod 2 ^ 64 ∧ b_t1 s = T / 2 ^ 64 mod 2 ^ 64.

Lemma increment_counter_ok T s n :
  counts T s → 0 ≤ T → 0 ≤ n < W64 → counts (T + n) (increment_counter s n).
Proof.
  unfold counts, increment_counter, W64. intros [H0 H1] HT Hn. cbn [b_t0 b_t1 set_t]. rewrite H0, H1.
  unfold u64, W64. rewrite Zplus_mod_idemp_l. split; [done|].
  pose proof (Z.div_mod T (2 ^ 64) ltac:(lia)). pose proof (Z.mod_pos_bound T (2 ^ 64) ltac:(lia)).
  pose proof (Z.div_mod (T + n) (2 ^ 64) ltac:(lia)). pose proof (Z.mod_pos_bound (T + n) (2 ^ 64) ltac:(lia)).
  destruct (Z.ltb_spec ((T + n) mod 2 ^ 64) n).
  - rewrite Zplus_mod_idemp_l. f_equal. lia.
  - f_equal. lia.
Qed.

Record wf_state (f : bool) (T : Z) (s : Blake2bState) : Prop := {
  wf_h : length (b_h s) = 8%nat;
  wf_buf : length (b_buf s) = 128%nat;
  wf_f0 : b_f0 s = if f then W64 - 1 else 0;
  wf_f1 : b_f1 s = 0;
  wf_t : counts T s
}.

Lemma message_words_ok buf :
  length buf = 128%nat →
  for_range 16 0 (λ i m, bs ← slice buf (i * 8) (i * 8 + 8); slot_set m i (from_le bs)) (replicate 16 0) =
    Done (Rfc7693.words buf).
Proof.
  intros Hb. change (replicate 16 0) with ([] ++ replicate 16 0).
  rewrite (fill_loop 1 (λ ws, (λ t, [from_le (take 8 (drop (8 * t) buf))]) (length ws / 1)%nat)).
  - rewrite (extend_map 1 (λ t, [from_le (take 8 (drop (8 * t) buf))]) 16 0) by (done || lia).
    rewrite drop_ge, app_nil_r, bind_singletons by (cbn; lia). done.
  - lia.
  - intros j ws rest Hj Hw Hr. split; [|done]. rewrite slice_ok, bind_Done by lia.
    destruct rest as [|r rest]; [cbn in Hr; lia|]. rewrite slot_set_mid by lia.
    rewrite Nat.div_1_r. cbn [app drop]. rewrite drop_0. do 4 f_equal.
    replace (Z.to_nat (j * 8 + 8 - j * 8)) with 8%nat by lia. do 2 f_equal. lia.
  - done.
  - rewrite length_replicate. lia.
Qed.

Lemma init_vector_ok h T (f : bool) :
  length h = 8%nat →
  init_vector h (T mod 2 ^ 64) (T / 2 ^ 64 mod 2 ^ 64) (if f then W64 - 1 else 0) 0 = Done (Rfc7693.init_v h T f) ∧
  length (Rfc7693.init_v h T f) = 16%nat.
Proof.
  intros Hh. unfold init_vector, Rfc7693.init_v. rewrite IV_table.
  generalize (T mod 2 ^ 64), (T / 2 ^ 64 mod 2 ^ 64). intros t0 t1.
  do 8 (destruct h as [|? h]; [done|]). destruct h; [|done]. unfold IV. clear Hh.
  destruct f; cbv -[Z.lxor]; rewrite ?Z.lxor_0_r; done.
Qed.

Lemma fold_back_ok h v :
  length h = 8%nat → length v = 16%nat →
  for_range 8 0 (λ i h, vi ← slot_get v i; vi8 ← slot_get v (i + 8); xor_at h i (Z.lxor vi vi8)) h =
    Done ((λ i, Z.lxor (Rfc7693.get h i) (Z.lxor (Rfc7693.get v i) (Rfc7693.get v (i + 8)))) <$> seq 0 8).
Proof.
  intros Hh Hv. do 8 (destruct h as [|? h]; [done|]). destruct h; [|done].
  do 16 (destruct v as [|? v]; [done|]). destruct v; [|done]. cbv -[Z.lxor]. reflexivity.
Qed.

Lemma compress_ok f T s :
  wf_state f T s → compress s = Done (set_h (Rfc7693.F (b_h s) (b_buf s) T f) s).
Proof.
  intros [Hh Hb H0 H1 [Ht0 Ht1]]. unfold compress. rewrite message_words_ok, bind_Done by done.
  rewrite H0, H1, Ht0, Ht1. destruct (init_vector_ok (b_h s) T f Hh) as [-> Hl]. rewrite bind_Done.
  unfold Rfc7693.F.
  destruct (for_range_fold_inv0 (λ v, length v = 16%nat) (Rfc7693.round (Rfc7693.words (b_buf s)))
    (mix_round (Rfc7693.words (b_buf s))) 12 (Rfc7693.init_v (b_h s) T f)) as [-> Hv]; [done| |].
  { intros j v Hj Hv. by apply mix_round_ok. }
  generalize dependent (foldl (Rfc7693.round (Rfc7693.words (b_buf s))) (Rfc7693.init_v (b_h s) T f) (seq 0 12)).
  intros v Hv. rewrite bind_Done, fold_back_ok, bind_Done by done. done.
Qed.

Lemma length_F h block T f : length (Rfc7693.F h block T f) = 8%nat.
Proof. done. Qed.

(** *** The incremental state *)

(** [n] blocks of the data [D] have been compressed, the rest of [D] is in the
    buffer. *)
Record holds (h0 : list Z) (out : Z) (n : nat) (D : list Z) (s : Blake2bState) : Prop := {
  holds_len : (128 * n ≤ length D ≤ 128 * n + 128)%nat;
  holds_wf : wf_state false (128 * Z.of_nat n) s;
  holds_h : b_h s = Rfc7693.chain h0 D n;
  holds_buf_len : b_buf_len s = Z.of_nat (length D) - 128 * Z.of_nat n;
  holds_buf : take (Z.to_nat (b_buf_len s)) (b_buf s) = drop (128 * n) D;
  holds_out : b_out_len s = out
}.

(** At least one byte stays back for [finalize]. *)
Definition pending (n : nat) (D : list Z) : Prop := n = 0%nat ∨ (128 * n < length D)%nat.

Lemma chain_app h0 D X n : (128 * n ≤ length D)%nat → Rfc7693.chain h0 (D ++ X) n = Rfc7693.chain h0 D n.
Proof.
  intros Hn. unfold Rfc7693.chain. assert (Hall : Forall (λ i, (i < n)%nat) (seq 0 n)).
  { apply Forall_seq. lia. }
  revert h0. induction Hall as [|i l Hi _ IH]; intros h0; cbn [foldl]; [done|].
  rewrite drop_app_le, take_app_le by (rewrite ?length_drop; lia). apply IH.
Qed.

Lemma chain_succ h0 D n :
  Rfc7693.chain h0 D (S n) =
    Rfc7693.F (Rfc7693.chain h0 D n) (take 128 (drop (128 * n) D)) (128 * (Z.of_nat n + 1)) false.
Proof. unfold Rfc7693.chain. by rewrite seq_S, foldl_snoc. Qed.

(** A full buffer is compressed. *)
Lemma flush_ok h0 out n D s :
  holds h0 out n D s → length D = (128 * n + 128)%nat →
  ∃ s', (s' ← compress (increment_counter s BLOCK_SIZE); Done (set_buf (b_buf s') 0 s')) = Done s' ∧
    holds h0 out (S n) D s'.
Proof.
  intros [Hlen Hwf Hh Hbl Hbuf Hout] HD. pose proof Hwf as [Hh8 Hb128 Hf0 Hf1 Ht].
  pose proof (increment_counter_ok _ s BLOCK_SIZE Ht ltac:(lia) ltac:(unfold BLOCK_SIZE, W64; lia)) as Ht'.
  rewrite (compress_ok false (128 * Z.of_nat n + BLOCK_SIZE)) by (by split). rewrite bind_Done.
  eexists. split; [done|]. rewrite Hbl, take_ge in Hbuf by lia.
  split; cbn [set_buf set_h b_h b_buf b_buf_len b_out_len increment_counter set_t].
  - lia.
  - apply Build_wf_state; cbn [set_buf set_h b_h b_buf b_f0 b_f1]; [apply length_F|done|done|done|].
    replace (128 * Z.of_nat (S n)) with (128 * Z.of_nat n + BLOCK_SIZE) by (unfold BLOCK_SIZE; lia). exact Ht'.
  - rewrite chain_succ, Hh, Hbuf, take_ge by (rewrite length_drop; lia).
    replace (128 * (Z.of_nat n + 1)) with (128 * Z.of_nat n + BLOCK_SIZE) by (unfold BLOCK_SIZE; lia). reflexivity.
  - lia.
  - by rewrite drop_ge by lia.
  - done.
Qed.

(** Bytes that fit are appended to the buffer. *)
Lemma fill_ok h0 out n D s x :
  holds h0 out n D s → (length D + length x ≤ 128 * n + 128)%nat →
  ∃ buf, copy_at (b_buf s) (b_buf_len s) x = Done buf ∧
    holds h0 out n (D ++ x) (set_buf buf (b_buf_len s ⊞ Z.of_nat (length x)) s).
Proof.
  intros [Hlen Hwf Hh Hbl Hbuf Hout] Hx. pose proof Hwf as [Hh8 Hb128 Hf0 Hf1 Ht].
  assert (Hc : copy_at (b_buf s) (b_buf_len s) x =
    Done (drop (128 * n) D ++ x ++ drop (length x) (drop (Z.to_nat (b_buf_len s)) (b_buf s)))).
  { rewrite <- (take_drop (Z.to_nat (b_buf_len s)) (b_buf s)) at 1. rewrite Hbuf.
    apply copy_at_app; rewrite ?length_drop; lia. }
  rewrite Hc. eexists. split; [done|]. rewrite u64_small by (unfold W64; lia).
  assert (Hr : length (drop (128 * n) D) = Z.to_nat (b_buf_len s)) by (rewrite length_drop; lia).
  split; cbn [set_buf b_h b_buf b_buf_len b_out_len].
  - rewrite length_app. lia.
  - apply Build_wf_state; cbn [set_buf b_h b_buf b_f0 b_f1]; [done| |done|done|exact Ht].
    rewrite !length_app, !length_drop. lia.
  - by rewrite chain_app by lia.
  - rewrite length_app. lia.
  - rewrite drop_app_le by lia. rewrite app_assoc. rewrite take_app_length'; [done|]. rewrite length_app. lia.
  - done.
Qed.

Lemma update_loop_ok h0 out fuel input n D offset s :
  holds h0 out n D s → pending n D → 0 ≤ offset ≤ Z.of_nat (length input) →
  (Z.to_nat (Z.of_nat (length input) - offset) < fuel)%nat →
  ∃ s' n', update_loop fuel input offset s = Done s' ∧
    holds h0 out n' (D ++ drop (Z.to_nat offset) input) s' ∧ pending n' (D ++ drop (Z.to_nat offset) input).
Proof.
  revert n D offset s. induction fuel as [|fuel IH]; intros n D offset s Hs Hp Ho Hf; [lia|].
  cbn [update_loop]. destruct (Z.ltb_spec offset (Z.of_nat (length input))) as [Hlt|Hge]; cycle 1.
  { exists s, n. rewrite drop_ge, app_nil_r by lia. done. }
  assert (∃ s1 n1, (if b_buf_len s =? BLOCK_SIZE then
      s ← compress (increment_counter s BLOCK_SIZE); Done (set_buf (b_buf s) 0 s) else Done s) = Done s1 ∧
    holds h0 out n1 D s1 ∧ (length D < 128 * n1 + 128)%nat) as (s1 & n1 & -> & Hs1 & Hn1).
  { pose proof (holds_buf_len _ _ _ _ _ Hs). pose proof (holds_len _ _ _ _ _ Hs). unfold BLOCK_SIZE at 1.
    destruct (Z.eqb_spec (b_buf_len s) 128).
    - destruct (flush_ok h0 out n D s) as (s' & -> & Hs'); [done|lia|]. exists s', (S n). split_and!; [done|done|lia].
    - exists s, n. split_and!; [done|done|lia]. }
  rewrite bind_Done. clear s Hs n Hp. pose proof (holds_buf_len _ _ _ _ _ Hs1) as Hbl.
  pose proof (holds_len _ _ _ _ _ Hs1) as Hlen. unfold BLOCK_SIZE.
  rewrite (u64_small (128 - b_buf_len s1)) by (unfold W64; lia).
  set (k := Z.min (Z.of_nat (length input) - offset) (128 - b_buf_len s1)).
  rewrite slice_ok, bind_Done by lia. replace (Z.to_nat (offset + k - offset)) with (Z.to_nat k) by lia.
  set (x := take (Z.to_nat k) (drop (Z.to_nat offset) input)).
  assert (Hx : Z.of_nat (length x) = k) by (unfold x; rewrite length_take, length_drop; lia).
  destruct (fill_ok h0 out n1 D s1 x Hs1) as (buf & -> & Hs2); [lia|]. rewrite bind_Done, Hx in *.
  destruct (IH n1 (D ++ x) (offset + k) _ Hs2) as (s' & n' & -> & Hs' & Hp'); [| lia..|].
  { right. rewrite length_app. lia. }
  assert (Hd : (D ++ x) ++ drop (Z.to_nat (offset + k)) input = D ++ drop (Z.to_nat offset) input).
  { rewrite <- app_assoc. f_equal. unfold x.
    replace (Z.to_nat (offset + k)) with (Z.to_nat offset + Z.to_nat k)%nat by lia.
    rewrite <- drop_drop. apply take_drop. }
  rewrite Hd in *. by exists s', n'.
Qed.

Lemma update_ok h0 out n D s input :
  holds h0 out n D s → pending n D →
  ∃ s' n', update s input = Done s' ∧ holds h0 out n' (D ++ input) s' ∧ pending n' (D ++ input).
Proof.
  intros Hs Hp. destruct (update_loop_ok h0 out (S (length input)) input n D 0 s Hs Hp) as (s' & n' & H1 & H2);
    [lia..|]. by exists s', n'.
Qed.

Lemma last_index_ok n D : (128 * n ≤ length D ≤ 128 * n + 128)%nat → pending n D → Rfc7693.last_index D = n.
Proof.
  intros Hlen Hp. unfold Rfc7693.last_index. destruct Hp as [->|Hp].
  - apply Nat.div_small. lia.
  - symmetry. apply (Nat.div_unique _ _ _ (length D - 1 - 128 * n)); lia.
Qed.

Lemma extend_const n (ws : list Z) : extend n (λ _, [0]) ws = ws ++ replicate n 0.
Proof.
  revert ws. induction n as [|n IH]; intros ws; cbn [extend]; [by rewrite app_nil_r|].
  rewrite IH, <- app_assoc. done.
Qed.

(** The digest bytes of a chaining value. *)
Lemma output_ok h out :
  length h = 8%nat → 0 ≤ out ≤ 64 →
  (all_bytes ← for_range 8 0 (λ i all_bytes,
     word ← slot_get h i; copy_at all_bytes (i * 8) (le_bytes 8 word)) (replicate 64 0);
   slice all_bytes 0 out) = Done (take (Z.to_nat out) (h ≫= le_bytes 8)).
Proof.
  intros Hh Ho. rewrite (write_loop_ok (le_bytes 8) 8 8) by (apply length_le_bytes || lia). rewrite bind_Done.
  replace (seq 0 8) with (seq 0 (length h)) by (by rewrite Hh). rewrite seq_bind_nth.
  assert (length (h ≫= le_bytes 8) = 64%nat) by (do 8 (destruct h as [|? h]; [done|]); destruct h; done).
  rewrite slice_ok by lia. rewrite Z.sub_0_r. done.
Qed.

Lemma finalize_ok h0 out n D s :
  holds h0 out n D s → pending n D → 0 ≤ out ≤ 64 →
  finalize s = Done (take (Z.to_nat out) (Rfc7693.hash_data h0 D ≫= le_bytes 8)).
Proof.
  intros [Hlen Hwf Hh Hbl Hbuf Hout] Hp Ho. pose proof Hwf as [Hh8 Hb128 Hf0 Hf1 Ht].
  unfold finalize, Rfc7693.hash_data. rewrite (last_index_ok n D Hlen Hp).
  cbn [increment_counter set_t b_buf_len b_buf b_out_len].
  assert (Hr : length (drop (128 * n) D) = Z.to_nat (b_buf_len s)) by (rewrite length_drop; lia).
  rewrite <- (take_drop (Z.to_nat (b_buf_len s)) (b_buf s)) at 1. rewrite Hbuf. unfold BLOCK_SIZE.
  rewrite (fill_cells (λ _, 0)); [|lia|lia|rewrite length_drop; lia|done].
  rewrite extend_const, bind_Done. replace (Z.to_nat (128 - b_buf_len s)) with (128 - length (drop (128 * n) D))%nat by lia.
  pose proof (increment_counter_ok _ s (b_buf_len s) Ht ltac:(lia) ltac:(unfold W64; lia)) as Ht'.
  replace (128 * Z.of_nat n + b_buf_len s) with (Z.of_nat (length D)) in Ht' by lia.
  rewrite (compress_ok true (Z.of_nat (length D))).
  - rewrite bind_Done, <- Hh, <- Hout.
    cbn [set_h set_f0 set_buf increment_counter set_t b_h b_buf b_out_len].
    generalize (Rfc7693.F (b_h s) (drop (128 * n) D ++ replicate (128 - length (drop (128 * n) D)) 0)
      (Z.of_nat (length D)) true) (length_F (b_h s) (drop (128 * n) D ++ replicate (128 - length (drop (128 * n) D)) 0)
      (Z.of_nat (length D)) true).
    intros h Hh'. apply output_ok; [done|]. by rewrite Hout.
  - apply Build_wf_state; cbn [set_f0 set_buf b_h b_buf b_f0 b_f1]; [done| |done|done|exact Ht'].
    rewrite length_app, length_replicate. lia.
Qed.

(** The parameter word: disjoint ors are exclusive ors. *)
Lemma param_word kk nn :
  0 ≤ kk ≤ 64 → 0 ≤ nn ≤ 64 →
  Z.lor (Z.lor (Z.lor nn (Z.shiftl kk 8)) (Z.shiftl 1 16)) (Z.shiftl 1 24) =
    Z.lxor (Z.lxor 0x01010000 (Z.shiftl kk 8)) nn.
Proof.
  intros Hk Hn.
  pose (f kk nn := Z.lor (Z.lor (Z.lor nn (Z.shiftl kk 8)) (Z.shiftl 1 16)) (Z.shiftl 1 24) =?
    Z.lxor (Z.lxor 0x01010000 (Z.shiftl kk 8)) nn).
  assert (Hall : forallb (λ i, forallb (λ j, f (Z.of_nat i) (Z.of_nat j)) (seq 0 65)) (seq 0 65) = true)
    by (vm_compute; reflexivity).
  apply Z.eqb_eq. apply (forall_below 65 (f kk)); [|lia].
  by apply (forall_below 65 (λ kk, forallb (λ j, f kk (Z.of_nat j)) (seq 0 65))); [|lia].
Qed.

Definition key_len (key : option (list Z)) : nat := match key with Some k => length k | None => 0%nat end.
Definition key_bytes (key : option (list Z)) : list Z := match key with Some k => k | None => [] end.
Definition key_ok (key : option (list Z)) : Prop := match key with Some k => (0 < length k ≤ 64)%nat | None => True end.

Lemma new_ok out key :
  0 ≤ out ≤ 64 → key_ok key →
  ∃ s n, new out key = Done s ∧
    holds (Rfc7693.h_init (Z.of_nat (length (key_bytes key))) out) out n (Rfc7693.data (key_bytes key) []) s ∧
    pending n (Rfc7693.data (key_bytes key) []).
Proof.
  intros Ho Hk. unfold new.
  set (kk := match key with Some k => Z.of_nat (length k) | None => 0 end).
  assert (Hkk : kk = Z.of_nat (length (key_bytes key))) by (by destruct key).
  assert (Hkr : 0 ≤ kk ≤ 64) by (destruct key; cbn in *; lia).
  rewrite param_word by lia. unfold xor_at. change (slot_get IV 0) with (Done (Rfc7693.get IV 0)).
  rewrite bind_Done, slot_set_ok, bind_Done by (cbn; lia). rewrite <- Hkk.
  assert (H0 : holds (Rfc7693.h_init kk out) out 0 []
    (mk_Blake2bState (<[Z.to_nat 0:=Z.lxor (Rfc7693.get IV 0) (Z.lxor (Z.lxor 0x01010000 (Z.shiftl kk 8)) out)]> IV)
       0 0 0 0 (replicate 128 0) 0 out)).
  { split; cbn [b_h b_buf b_buf_len b_out_len]; [cbn; lia|by split| |done..].
    unfold Rfc7693.h_init. by rewrite IV_table. }
  destruct key as [k|]; cycle 1.
  { eexists _, 0%nat. split_and!; [done|done|by left]. }
  cbn in Hk. rewrite copy_front by (rewrite length_replicate; lia). rewrite bind_Done, drop_replicate.
  destruct (update_ok _ _ _ _ _ (k ++ replicate (128 - length k) 0) H0) as (s & n & Hu & Hs & Hp); [by left|].
  exists s, n. cbn [app] in *. split; [exact Hu|]. unfold Rfc7693.data, key_bytes.
  rewrite (proj2 (Nat.eqb_neq (length k) 0)), app_nil_r by lia. done.
Qed.

Lemma data_app key x : Rfc7693.data (key_bytes key) [] ++ x = Rfc7693.data (key_bytes key) x.
Proof.
  unfold Rfc7693.data. destruct (_ =? 0)%nat; [done|]. by rewrite <- !app_assoc.
Qed.

(** Absorbing a message in pieces. *)
Definition updates (s : Blake2bState) (pieces : list (list Z)) : outcome Blake2bState :=
  for_each pieces (λ x s, update s x) s.

Lemma updates_ok h0 out pieces n D s :
  holds h0 out n D s → pending n D →
  ∃ s' n', updates s pieces = Done s' ∧ holds h0 out n' (D ++ concat pieces) s' ∧ pending n' (D ++ concat pieces).
Proof.
  revert n D s. induction pieces as [|x pieces IH]; intros n D s Hs Hp.
  { exists s, n. cbn. by rewrite app_nil_r. }
  destruct (update_ok _ _ _ _ _ x Hs Hp) as (s1 & n1 & Hu & Hs1 & Hp1).
  destruct (IH _ _ _ Hs1 Hp1) as (s2 & n2 & H2 & Hs2 & Hp2).
  exists s2, n2. unfold updates. cbn [for_each]. rewrite Hu, bind_Done. cbn [concat]. by rewrite app_assoc.
Qed.

Lemma digest_ok out key pieces :
  0 ≤ out ≤ 64 → key_ok key →
  (s ← new out key; s ← updates s pieces; finalize s) =
    Done (Rfc7693.BLAKE2b out (key_bytes key) (concat pieces)).
Proof.
  intros Ho Hk. destruct (new_ok out key Ho Hk) as (s & n & -> & Hs & Hp). rewrite bind_Done.
  destruct (updates_ok _ _ pieces _ _ _ Hs Hp) as (s' & n' & -> & Hs' & Hp'). rewrite bind_Done.
  rewrite data_app in *. by rewrite (finalize_ok _ _ _ _ _ Hs' Hp').
Qed.

(** C25. Incremental BLAKE2b is RFC 7693 BLAKE2b: for every digest length, with
    or without a key, and for every way of cutting a message into pieces (empty
    ones included), the state that absorbs the pieces one by one finalizes to
    the digest that the RFC defines on the whole message. *)
Theorem blake2b_streaming (out : Z) (key : option (list Z)) (pieces : list (list Z)) :
  1 ≤ out ≤ 64 → key_ok key →
  (s ← new out key; s ← updates s pieces; finalize s) =
    Done (Rfc7693.BLAKE2b out (key_bytes key) (concat pieces)).
Proof. intros Ho Hk. apply digest_ok; [lia|done]. Qed.

Lemma blake2b_streaming_witness :
  (s ← new 32 (Some [1; 2; 3]); s ← updates s [[4; 5]; []; replicate 200 6]; finalize s) =
    Done (Rfc7693.BLAKE2b 32 [1; 2; 3] (concat [[4; 5]; []; replicate 200 6])).
Proof. apply (blake2b_streaming 32 (Some [1; 2; 3])); [lia|cbn; lia]. Defined.

Lemma digest1_ok out key x :
  0 ≤ out ≤ 64 → key_ok key →
  (s ← new out key; s ← update s x; finalize s) = Done (Rfc7693.BLAKE2b out (key_bytes key) x).
Proof.
  intros Ho Hk. pose proof (digest_ok out key [x] Ho Hk) as H. cbn [concat] in H. rewrite app_nil_r in H.
  rewrite <- H. destruct (new out key) as [s| |]; cbn [mbind outcome_bind]; [|done..].
  unfold updates. cbn [for_each]. by destruct (update s x).
Qed.

Lemma digest2_ok out x y :
  0 ≤ out ≤ 64 →
  (s ← new out None; s ← update s x; s ← update s y; finalize s) = Done (Rfc7693.BLAKE2b out [] (x ++ y)).
Proof.
  intros Ho. pose proof (digest_ok out None [x; y] Ho I) as H. cbn [concat key_bytes] in H. rewrite app_nil_r in H.
  rewrite <- H. destruct (new out None) as [s| |]; cbn [mbind outcome_bind]; [|done..].
  unfold updates. cbn [for_each]. destruct (update s x) as [s'| |]; cbn [mbind outcome_bind]; [|done..].
  by destruct (update s' y).
Qed.

Lemma length_BLAKE2b nn key msg : 0 ≤ nn ≤ 64 → length (Rfc7693.BLAKE2b nn key msg) = Z.to_nat nn.
Proof.
  intros Hn. unfold Rfc7693.BLAKE2b. rewrite length_take, Nat.min_l; [done|].
  assert (Hl : length (Rfc7693.hash_data (Rfc7693.h_init (Z.of_nat (length key)) nn) (Rfc7693.data key msg)) = 8%nat)
    by apply length_F.
  generalize dependent (Rfc7693.hash_data (Rfc7693.h_init (Z.of_nat (length key)) nn) (Rfc7693.data key msg)).
  intros h Hh. do 8 (destruct h as [|? h]; [done|]). destruct h; [|done]. cbn [length mbind list_bind].
  rewrite !length_app, !length_le_bytes. cbn. lia.
Qed.

(** Binding a result inside a larger computation. *)
Lemma bind_assoc {A B C} (o : outcome A) (f : A → outcome B) (k : B → outcome C) :
  (x ← o; y ← f x; k y) = (y ← (x ← o; f x); k y).
Proof. by destruct o. Qed.

Lemma digest1_bind {C} out key x (k : list Z → outcome C) :
  0 ≤ out ≤ 64 → key_ok key →
  (s ← new out key; s ← update s x; a ← finalize s; k a) = k (Rfc7693.BLAKE2b out (key_bytes key) x).
Proof.
  intros Ho Hk. pose proof (digest1_ok out key x Ho Hk) as H.
  destruct (new out key) as [s| |]; cbn [mbind outcome_bind] in *; [|done..].
  destruct (update s x) as [s'| |]; cbn [mbind outcome_bind] in *; [|done..].
  rewrite H. done.
Qed.

Lemma digest2_bind {C} out x y (k : list Z → outcome C) :
  0 ≤ out ≤ 64 →
  (s ← new out None; s ← update s x; s ← update s y; a ← finalize s; k a) = k (Rfc7693.BLAKE2b out [] (x ++ y)).
Proof.
  intros Ho. pose proof (digest2_ok out x y Ho) as H.
  destruct (new out None) as [s| |]; cbn [mbind outcome_bind] in *; [|done..].
  destruct (update s x) as [s'| |]; cbn [mbind outcome_bind] in *; [|done..].
  destruct (update s' y) as [s''| |]; cbn [mbind outcome_bind] in *; [|done..].
  rewrite H. done.
Qed.

Lemma copy_whole n (l : list Z) : length l = n → copy_at (replicate n 0) 0 l = Done l.
Proof.
  intros Hl. rewrite copy_front by (rewrite length_replicate; lia).
  by rewrite drop_ge, app_nil_r by (rewrite length_replicate; lia).
Qed.

(** The entry points return the RFC's digest of the input, and refuse
    exactly the digest lengths and key lengths outside 1 to 64. *)
Theorem blake2b_entry_points (input key : list Z) (out : Z) (okey : option (list Z)) :
  0 ≤ out →
  blake2b input out okey =
    (if decide (1 ≤ out ≤ 64 ∧ (okey = None ∨ (1 ≤ length (key_bytes okey) ≤ 64)%nat))
     then Done (Some (Rfc7693.BLAKE2b out (key_bytes okey) input)) else Done None) ∧
  blake2b_512 input = Done (Rfc7693.BLAKE2b 64 [] input) ∧
  blake2b_256 input = Done (Rfc7693.BLAKE2b 32 [] input) ∧
  blake2b_mac_512 input key =
    (if decide (1 ≤ length key ≤ 64)%nat then Done (Some (Rfc7693.BLAKE2b 64 key input)) else Done None) ∧
  blake2b_mac_256 input key =
    (if decide (1 ≤ length key ≤ 64)%nat then Done (Some (Rfc7693.BLAKE2b 32 key input)) else Done None).
Proof.
  intros Hout. split_and!.
  - unfold blake2b, MAX_OUT_LEN, MAX_KEY_LEN.
    destruct (Z.eqb_spec out 0); [rewrite decide_False by lia; done|].
    destruct (Z.ltb_spec 64 out); [rewrite decide_False by lia; done|]. cbn [orb].
    destruct okey as [k|].
    + cbn [key_bytes].
      destruct (Z.eqb_spec (Z.of_nat (length k)) 0); [rewrite decide_False by (intros [_ [?|?]]; done || lia); done|].
      destruct (Z.ltb_spec 64 (Z.of_nat (length k))); [rewrite decide_False by (intros [_ [?|?]]; done || lia); done|].
      cbn [orb]. rewrite decide_True by (split; [|right]; lia). rewrite (digest1_bind out (Some k)); [done|lia|cbn; lia].
    + rewrite decide_True by (split; [lia|by left]). rewrite (digest1_bind out None); [done|lia|done].
  - unfold blake2b_512. rewrite (digest1_bind 64 None) by (done || lia). by rewrite copy_whole by (by rewrite length_BLAKE2b).
  - unfold blake2b_256. rewrite (digest1_bind 32 None) by (done || lia). by rewrite copy_whole by (by rewrite length_BLAKE2b).
  - unfold blake2b_mac_512, MAX_KEY_LEN.
    destruct (Z.eqb_spec (Z.of_nat (length key)) 0); [rewrite decide_False by lia; done|].
    destruct (Z.ltb_spec 64 (Z.of_nat (length key))); [rewrite decide_False by lia; done|]. cbn [orb].
    rewrite decide_True by lia. rewrite (digest1_bind 64 (Some key)); [|lia|cbn; lia].
    by rewrite copy_whole by (by rewrite length_BLAKE2b).
  - unfold blake2b_mac_256, MAX_KEY_LEN.
    destruct (Z.eqb_spec (Z.of_nat (length key)) 0); [rewrite decide_False by lia; done|].
    destruct (Z.ltb_spec 64 (Z.of_nat (length key))); [rewrite decide_False by lia; done|]. cbn [orb].
    rewrite decide_True by lia. rewrite (digest1_bind 32 (Some key)); [|lia|cbn; lia].
    by rewrite copy_whole by (by rewrite length_BLAKE2b).
Qed.

Lemma blake2b_entry_points_witness :
  blake2b [1; 2] 65 None = Done None ∧
  blake2b_mac_256 [1; 2] [3] = Done (Some (Rfc7693.BLAKE2b 32 [3] [1; 2])).
Proof.
  destruct (blake2b_entry_points [1; 2] [3] 65 None ltac:(lia)) as (H1 & _ & _ & _ & H5).
  split; [rewrite H1; reflexivity|rewrite H5; reflexivity].
Defined.

(** ** The variable-length hash *)

Module Rfc9106.

Definition H64 (x : list Z) : list Z := Rfc7693.BLAKE2b 64 [] x.

(** 3.3: V_1, V_2, .. and their first halves. *)
Definition V (tau : Z) (A : list Z) (i : nat) : list Z := Nat.iter i H64 (H64 (le_bytes 4 tau ++ A)).
Definition Hprime (A : list Z) (tau : Z) : list Z :=
  if tau <=? 64 then Rfc7693.BLAKE2b tau [] (le_bytes 4 tau ++ A)
  else
    let r := Z.to_nat ((tau + 31) / 32 - 2) in
    concat ((λ i, take 32 (V tau A i)) <$> seq 0 r) ++
    Rfc7693.BLAKE2b (tau - 32 * Z.of_nat r) [] (V tau A (r - 1)).

End Rfc9106.

Lemma le_bytes_u32 v : le_bytes 4 (u32 v) = le_bytes 4 v.
Proof.
  rewrite <- (le_bytes_from (le_bytes 4 (u32 v))), <- (le_bytes_from (le_bytes 4 v)) by apply le_bytes_ok.
  rewrite !length_le_bytes, !from_le_bytes. f_equal. apply Z.mod_mod. done.
Qed.

Lemma length_H64 x : length (Rfc9106.H64 x) = 64%nat.
Proof. unfold Rfc9106.H64. rewrite length_BLAKE2b by lia. done. Qed.

Lemma length_V tau A i : length (Rfc9106.V tau A i) = 64%nat.
Proof. destruct i; cbn [Rfc9106.V Nat.iter]; apply length_H64. Qed.

Lemma h_prime_loop_ok n i tau A out :
  h_prime_loop n (Rfc9106.V tau A i) out =
    Done (Rfc9106.V tau A (i + n), out ++ concat ((λ j, take 32 (Rfc9106.V tau A j)) <$> seq (S i) n)).
Proof.
  revert i out. induction n as [|n IH]; intros i out; cbn [h_prime_loop].
  { rewrite Nat.add_0_r. cbn. by rewrite app_nil_r. }
  rewrite (digest1_bind 64 None) by (done || lia). cbn [key_bytes].
  change (Rfc7693.BLAKE2b 64 [] (Rfc9106.V tau A i)) with (Rfc9106.V tau A (S i)).
  rewrite slice_ok, bind_Done by (rewrite ?length_V; lia). rewrite IH. cbn [seq fmap list_fmap concat].
  rewrite Z.sub_0_r, drop_0, <- app_assoc, Nat.add_succ_comm. done.
Qed.

Lemma length_halves tau A l : length (concat ((λ i, take 32 (Rfc9106.V tau A i)) <$> l)) = (32 * length l)%nat.
Proof.
  induction l as [|i l IH]; [done|]. cbn [fmap list_fmap concat length].
  rewrite length_app, IH, length_take, length_V. lia.
Qed.

Lemma h_prime_ok (A : list Z) (tau : Z) :
  1 ≤ tau < W64 - 32 →
  h_prime A tau = Done (Rfc9106.Hprime A tau) ∧ length (Rfc9106.Hprime A tau) = Z.to_nat tau.
Proof.
  intros Ht. unfold h_prime, Rfc9106.Hprime. rewrite le_bytes_u32.
  destruct (Z.leb_spec tau 64) as [Hs|Hs].
  { rewrite Z.max_l by lia. rewrite digest2_ok by lia. split; [done|]. apply length_BLAKE2b. lia. }
  set (q := (tau + 31) / 32). assert (Hq : 32 * q ≤ tau + 31 < 32 * q + 32) by (unfold q; Z.to_euclidean_division_equations; lia).
  unfold W64 in Ht. rewrite (u64_small (q - 2)) by (unfold W64; lia). rewrite digest2_bind by lia.
  change (Rfc7693.BLAKE2b 64 [] (le_bytes 4 tau ++ A)) with (Rfc9106.V tau A 0).
  rewrite slice_ok, bind_Done by (rewrite ?length_V; lia). rewrite h_prime_loop_ok, bind_Done.
  rewrite Z.sub_0_r, drop_0. rewrite u64_small by (unfold W64; lia).
  rewrite (digest1_bind _ None) by (done || lia). cbn [key_bytes Nat.add].
  assert (He : take (Z.to_nat 32) (Rfc9106.V tau A 0) ++
    concat ((λ j, take 32 (Rfc9106.V tau A j)) <$> seq 1 (Z.to_nat (q - 2 - 1))) =
    concat ((λ j, take 32 (Rfc9106.V tau A j)) <$> seq 0 (Z.to_nat (q - 2)))).
  { replace (Z.to_nat (q - 2)) with (S (Z.to_nat (q - 2 - 1))) by lia. done. }
  rewrite He. replace (Z.to_nat (q - 2) - 1)%nat with (Z.to_nat (q - 2 - 1)) by lia.
  rewrite Z2Nat.id by lia. split; [done|].
  rewrite length_app, length_halves, length_seq, length_BLAKE2b by lia. lia.
Qed.

(** [h_prime] is the variable-length hash H' of RFC 9106 and returns
    exactly [tau] bytes, for every [tau] from 1 on. *)
Theorem h_prime_correct (A : list Z) (tau : Z) :
  1 ≤ tau < W64 - 32 →
  h_prime A tau = Done (Rfc9106.Hprime A tau) ∧ length (Rfc9106.Hprime A tau) = Z.to_nat tau.
Proof. apply h_prime_ok. Qed.

Lemma h_prime_correct_witness :
  h_prime [1; 2; 3] 100 = Done (Rfc9106.Hprime [1; 2; 3] 100) ∧
  length (Rfc9106.Hprime [1; 2; 3] 100) = Z.to_nat 100.
Proof. apply (h_prime_correct [1; 2; 3] 100). unfold W64. lia. Defined.
