(* ===== verification/Argon2.v ===== *)
(** * Argon2.v: password hashing

    [crypto/hash/argon2.rs]: the memory-hard function, its PHC text format and
    the entry points that hash and verify a password.  A block is a list of 128
    words, the memory a list of blocks with checked indices; sizes and indices are
    [usize] values with their wrap-around written out. *)

From S2P Require Import Prelude Bytes Helpers Blake2b.

Local Open Scope Z_scope.
Local Open Scope u64_scope.

Definition ARGON2_VERSION : Z := 19.
Definition ARGON2_TYPE_ID : Z := 2.
Definition BLOCK_SIZE : Z := 1024.
Definition BLOCK_WORDS : Z := BLOCK_SIZE / 8.
Definition DEFAULT_M_COST : Z := 19456.
Definition DEFAULT_T_COST : Z := 2.
Definition DEFAULT_P_COST : Z := 1.
Definition HASH_LEN : Z := 32.

Inductive Argon2Error :=
| MemoryCostTooLow | TimeCostZero | ParallelismZero | SaltTooShort | PasswordEmpty | InvalidPhcString | PasswordMismatch.

(** ** The compression function *)

Definition trunc32 (x : Z) : Z := Z.land x 0xFFFFFFFF.

(** [x + y + 2 * trunc32(x) * trunc32(y)], wrapping *)
Definition mul_add (x y : Z) : Z := x ⊞ y ⊞ (2 ⊠ (trunc32 x ⊠ trunc32 y)).

Definition g_mix (v : list Z) (a b c d : Z) : outcome (list Z) :=
  va ← slot_get v a; vb ← slot_get v b; v ← slot_set v a (mul_add va vb);
  vd ← slot_get v d; va ← slot_get v a; v ← slot_set v d (rotr 64 32 (Z.lxor vd va));
  vc ← slot_get v c; vd ← slot_get v d; v ← slot_set v c (mul_add vc vd);
  vb ← slot_get v b; vc ← slot_get v c; v ← slot_set v b (rotr 64 24 (Z.lxor vb vc));
  va ← slot_get v a; vb ← slot_get v b; v ← slot_set v a (mul_add va vb);
  vd ← slot_get v d; va ← slot_get v a; v ← slot_set v d (rotr 64 16 (Z.lxor vd va));
  vc ← slot_get v c; vd ← slot_get v d; v ← slot_set v c (mul_add vc vd);
  vb ← slot_get v b; vc ← slot_get v c; slot_set v b (rotr 64 63 (Z.lxor vb vc)).

(** The sixteen word indices are given as a function of their number. *)
Definition p_col (v : list Z) (ix : Z → Z) : outcome (list Z) :=
  v ← g_mix v (ix 0) (ix 4) (ix 8) (ix 12);
  v ← g_mix v (ix 1) (ix 5) (ix 9) (ix 13);
  v ← g_mix v (ix 2) (ix 6) (ix 10) (ix 14);
  v ← g_mix v (ix 3) (ix 7) (ix 11) (ix 15);
  v ← g_mix v (ix 0) (ix 5) (ix 10) (ix 15);
  v ← g_mix v (ix 1) (ix 6) (ix 11) (ix 12);
  v ← g_mix v (ix 2) (ix 7) (ix 8) (ix 13);
  g_mix v (ix 3) (ix 4) (ix 9) (ix 14).

Definition row_index (row i : Z) : Z := row * 16 + i.
Definition col_index (col i : Z) : Z := col + 8 * i.

Definition zero_block : list Z := replicate (Z.to_nat BLOCK_WORDS) 0.

(** [for i in 0..BLOCK_WORDS { d[i] ^= s[i] }] *)
Definition xor_into (d s : list Z) : outcome (list Z) :=
  for_range (Z.to_nat BLOCK_WORDS) 0 (λ i d, a ← slot_get d i; b ← slot_get s i; slot_set d i (Z.lxor a b)) d.

Definition compress (x y : list Z) : outcome (list Z) :=
  r ← for_range (Z.to_nat BLOCK_WORDS) 0
        (λ i r, a ← slot_get x i; b ← slot_get y i; slot_set r i (Z.lxor a b)) zero_block;
  let z := r in
  z ← for_range 8 0 (λ row z, p_col z (row_index row)) z;
  z ← for_range 8 0 (λ col z, p_col z (col_index col)) z;
  xor_into z r.

(** ** Blocks and bytes *)

Definition bytes_to_block (bytes : list Z) : outcome (list Z) :=
  for_range (Z.to_nat BLOCK_WORDS) 0
    (λ i block, w ← slice bytes (i * 8) (i * 8 + 8); slot_set block i (from_le w)) zero_block.

Definition block_to_bytes (block : list Z) : outcome (list Z) :=
  for_range (length block) 0
    (λ i bytes, word ← slot_get block i; copy_at bytes (i * 8) (le_bytes 8 word)) (replicate (Z.to_nat BLOCK_SIZE) 0).

Definition compute_h0 (password salt : list Z) (m_cost t_cost p_cost : Z) : outcome (list Z) :=
  let input :=
    le_bytes 4 p_cost ++ le_bytes 4 (u32 HASH_LEN) ++ le_bytes 4 m_cost ++ le_bytes 4 t_cost ++
    le_bytes 4 ARGON2_VERSION ++ le_bytes 4 ARGON2_TYPE_ID ++
    le_bytes 4 (u32 (Z.of_nat (length password))) ++ password ++
    le_bytes 4 (u32 (Z.of_nat (length salt))) ++ salt ++ le_bytes 4 0 ++ le_bytes 4 0 in
  blake2b_512 input.

Definition h_prime_1024 (h0 : list Z) (block_idx lane : Z) : outcome (list Z) :=
  let input := replicate 72 0 in
  input ← copy_at input 0 h0;
  input ← copy_at input 64 (le_bytes 4 block_idx);
  input ← copy_at input 68 (le_bytes 4 lane);
  bytes ← h_prime input BLOCK_SIZE;
  bytes_to_block bytes.

(** ** Addressing *)

Definition compute_pseudo_rands (pass lane slice lane_len segment_len p t_cost : Z) : outcome (list Z) :=
  for_range (Z.to_nat segment_len) 0 (λ s result,
    input_block ← slot_set zero_block 0 pass;
    input_block ← slot_set input_block 1 lane;
    input_block ← slot_set input_block 2 slice;
    input_block ← slot_set input_block 3 (s ⊞ 1);
    input_block ← slot_set input_block 4 t_cost;
    input_block ← slot_set input_block 5 p;
    input_block ← slot_set input_block 6 ARGON2_TYPE_ID;
    pr_block ← compress zero_block input_block;
    w ← slot_get pr_block 0;
    Done (result ++ [w])) [].

(** [%] on [usize], which panics on zero *)
Definition rem64 (a b : Z) : outcome Z :=
  if b =? 0 then Panic "attempt to calculate the remainder with a divisor of zero" else Done (a mod b).

Definition reference_area (pass lane slice lane_len segment_len p abs_idx : Z) : Z :=
  if pass =? 0 then
    if slice =? 0 then abs_idx ⊟ lane ⊠ lane_len ⊟ 1
    else slice ⊠ segment_len ⊞ (abs_idx ⊟ lane ⊠ lane_len ⊟ slice ⊠ segment_len) ⊟ 1
  else
    lane_len ⊟ segment_len ⊞ (abs_idx ⊟ lane ⊠ lane_len ⊟ slice ⊠ segment_len) ⊟ 1 ⊞ ((p ⊟ 1) ⊠ lane_len).

Definition index_alpha (pseudo_rand pass lane slice lane_len segment_len p abs_idx : Z) : outcome Z :=
  let area := reference_area pass lane slice lane_len segment_len p abs_idx in
  if area =? 0 then Done (lane ⊠ lane_len) else
  let x := Z.land pseudo_rand 0xFFFFFFFF in
  let y := Z.shiftr (x ⊠ x) 32 in
  let z := Z.shiftr (x ⊞ y) 1 in
  r ← rem64 z area;
  let phi := area ⊟ 1 ⊟ r in
  let start := if pass =? 0 then lane ⊠ lane_len
               else lane ⊠ lane_len ⊞ ((slice + 1) mod 4) ⊠ segment_len in
  rem64 (start ⊞ phi) (p ⊠ lane_len).

(** One round of the loop of [fill_segment]. *)
Definition fill_block (pass lane slice lane_len segment_len p : Z) (data_independent : bool)
    (pseudo_rands : list Z) (s : Z) (memory : list (list Z)) : outcome (list (list Z)) :=
  let seg_start := lane ⊠ lane_len ⊞ slice ⊠ segment_len in
  let abs_idx := seg_start ⊞ s in
  if (pass =? 0) && (abs_idx <? lane ⊠ lane_len ⊞ 2) then Done memory else
  let prev_idx := if abs_idx =? lane ⊠ lane_len then lane ⊠ lane_len ⊞ lane_len ⊟ 1 else abs_idx ⊟ 1 in
  pseudo_rand ← (if data_independent then slot_get pseudo_rands s
                 else b ← slot_get memory prev_idx; slot_get b 0);
  ref_idx ← index_alpha pseudo_rand pass lane slice lane_len segment_len p abs_idx;
  prev ← slot_get memory prev_idx;
  refb ← slot_get memory ref_idx;
  new_block ← compress prev refb;
  slot_set memory abs_idx new_block.

Definition fill_segment (memory : list (list Z)) (pass lane slice lane_len segment_len p t_cost : Z) : outcome (list (list Z)) :=
  let data_independent := (pass =? 0) && (slice <? 2) in
  pseudo_rands ← (if data_independent
                  then compute_pseudo_rands pass lane slice lane_len segment_len p t_cost else Done []);
  for_range (Z.to_nat segment_len) 0
    (fill_block pass lane slice lane_len segment_len p data_independent pseudo_rands) memory.

(** ** The whole function *)

Definition argon2id_raw (password salt : list Z) (m_cost t_cost p_cost : Z) : outcome (list Z) :=
  h0 ← compute_h0 password salt m_cost t_cost p_cost;
  let p := p_cost in
  q ← (if 4 ⊠ p =? 0 then Panic "attempt to divide by zero" else Done (m_cost / (4 ⊠ p)));
  let total_blocks := q ⊠ (4 ⊠ p) in
  let lane_len := total_blocks / p in
  let segment_len := lane_len / 4 in
  let memory := replicate (Z.to_nat total_blocks) zero_block in
  memory ← for_range (Z.to_nat p) 0 (λ l memory,
    block0 ← h_prime_1024 h0 0 (u32 l);
    block1 ← h_prime_1024 h0 1 (u32 l);
    memory ← slot_set memory (l ⊠ lane_len) block0;
    slot_set memory (l ⊠ lane_len ⊞ 1) block1) memory;
  memory ← for_range (Z.to_nat t_cost) 0 (λ pass memory,
    for_range 4 0 (λ slice memory,
      for_range (Z.to_nat p) 0 (λ lane memory,
        fill_segment memory pass lane slice lane_len segment_len p t_cost) memory) memory) memory;
  final_block ← for_range (Z.to_nat p) 0 (λ l final_block,
    last ← slot_get memory (l ⊠ lane_len ⊞ (lane_len ⊟ 1));
    xor_into final_block last) zero_block;
  final_bytes ← block_to_bytes final_block;
  digest ← h_prime final_bytes HASH_LEN;
  d ← slice digest 0 HASH_LEN;
  copy_at (replicate (Z.to_nat HASH_LEN) 0) 0 d.

(** ** The PHC string *)

(** [$], [,] and the literal pieces, as bytes *)
Definition dollar : Z := 36.
Definition comma : Z := 44.

(** The scratch buffer has ten bytes, enough for a [u32]. *)
Definition u32_to_alloc_string (v : Z) : outcome (list Z) :=
  if v =? 0 then Done [48] else
  '(buf, i) ← dec_digits 21 (replicate 10 0) 10 v;
  str_from buf (Z.to_nat i).

Definition encode_phc (salt hash : list Z) (m_cost t_cost p_cost : Z) : outcome (list Z) :=
  m ← u32_to_alloc_string m_cost;
  t ← u32_to_alloc_string t_cost;
  p ← u32_to_alloc_string p_cost;
  Done (bytes_of "$argon2id$v=19$m=" ++ m ++ bytes_of ",t=" ++ t ++ bytes_of ",p=" ++ p ++
        [dollar] ++ base64_encode salt ++ [dollar] ++ base64_encode hash).

(** [s.split(c).collect()] *)
Fixpoint split_on (c : Z) (s : list Z) : list (list Z) :=
  match s with
  | [] => [[]]
  | b :: s => if b =? c then [] :: split_on c s
              else match split_on c s with part :: parts => (b :: part) :: parts | [] => [[b]] end
  end.

(** [str::strip_prefix] *)
Fixpoint str_strip_prefix (s prefix : list Z) : option (list Z) :=
  match prefix, s with
  | [], _ => Some s
  | c :: prefix, b :: s => if b =? c then str_strip_prefix s prefix else None
  | _ :: _, [] => None
  end.

(** [checked_mul(10)] and [checked_add] of a [u32] *)
Definition checked32 (v : Z) : option Z := if v <? 2 ^ 32 then Some v else None.

Fixpoint parse_digits (s : list Z) (result : Z) : option Z :=
  match s with
  | [] => Some result
  | b :: s =>
    if (b <? 48) || (57 <? b) then None else
    r ← checked32 (result * 10); r ← checked32 (r + (b - 48)); parse_digits s r
  end.

Definition parse_u32 (s : list Z) : option Z := match s with [] => None | _ => parse_digits s 0 end.

Definition parse_param (s prefix : list Z) : option Z := val ← str_strip_prefix s prefix; parse_u32 val.

Definition ok_or {A E} (o : option A) (e : E) : result A E := match o with Some a => Ok a | None => Err e end.

(** [decode_phc]: the first failing check decides. *)
Definition decode_phc (phc : list Z) : result (list Z * list Z * Z * Z * Z) Argon2Error :=
  match split_on dollar phc with
  | [p0; p1; p2; p3; p4; p5] =>
    if negb (bool_decide (p0 = [])) || negb (bool_decide (p1 = bytes_of "argon2id")) then Err InvalidPhcString else
    if negb (bool_decide (p2 = bytes_of "v=19")) then Err InvalidPhcString else
    match split_on comma p3 with
    | [q0; q1; q2] =>
      ok_or (m_cost ← parse_param q0 (bytes_of "m="); t_cost ← parse_param q1 (bytes_of "t=");
             p_cost ← parse_param q2 (bytes_of "p=");
             salt ← base64_decode p4; hash ← base64_decode p5;
             Some (salt, hash, m_cost, t_cost, p_cost)) InvalidPhcString
    | _ => Err InvalidPhcString
    end
  | _ => Err InvalidPhcString
  end.

(** ** Entry points *)

Definition validate_params (password salt : list Z) (m_cost t_cost p_cost : Z) : result () Argon2Error :=
  if (length password =? 0)%nat then Err PasswordEmpty else
  if Z.of_nat (length salt) <? 8 then Err SaltTooShort else
  if t_cost =? 0 then Err TimeCostZero else
  if p_cost =? 0 then Err ParallelismZero else
  if m_cost <? u32 (8 * p_cost) then Err MemoryCostTooLow else Ok ().

Definition constant_time_eq (a b : list Z) : bool :=
  if negb (length a =? length b)%nat then false
  else foldl (λ diff xy, Z.lor diff (Z.lxor xy.1 xy.2)) 0 (zip a b) =? 0.

Definition hash_password_with_params (password salt : list Z) (m_cost t_cost p_cost : Z)
    : outcome (result (list Z) Argon2Error) :=
  match validate_params password salt m_cost t_cost p_cost with
  | Err e => Done (Err e)
  | Ok _ =>
    hash ← argon2id_raw password salt m_cost t_cost p_cost;
    s ← encode_phc salt hash m_cost t_cost p_cost;
    Done (Ok s)
  end.

Definition hash_password (password salt : list Z) : outcome (result (list Z) Argon2Error) :=
  hash_password_with_params password salt DEFAULT_M_COST DEFAULT_T_COST DEFAULT_P_COST.

Definition verify_password (password phc : list Z) : outcome (result () Argon2Error) :=
  match decode_phc phc with
  | Err e => Done (Err e)
  | Ok (salt, stored_hash, m_cost, t_cost, p_cost) =>
    computed ← argon2id_raw password salt m_cost t_cost p_cost;
    if negb (constant_time_eq computed stored_hash) then Done (Err PasswordMismatch) else Done (Ok ())
  end.

(** ** The permutation and the compression function as functions *)

Module Rfc9106G.

Definition get (v : list Z) (i : nat) : Z := nth i v 0.

(** RFC 9106, 3.6: the mixing function GB. *)
Definition GB (v : list Z) (a b c d : nat) : list Z :=
  let v := <[a := mul_add (get v a) (get v b)]> v in
  let v := <[d := rotr 64 32 (Z.lxor (get v d) (get v a))]> v in
  let v := <[c := mul_add (get v c) (get v d)]> v in
  let v := <[b := rotr 64 24 (Z.lxor (get v b) (get v c))]> v in
  let v := <[a := mul_add (get v a) (get v b)]> v in
  let v := <[d := rotr 64 16 (Z.lxor (get v d) (get v a))]> v in
  let v := <[c := mul_add (get v c) (get v d)]> v in
  <[b := rotr 64 63 (Z.lxor (get v b) (get v c))]> v.

(** The permutation P on the sixteen words at the given places. *)
Definition P (ix : nat → nat) (v : list Z) : list Z := (
  let v := GB v (ix 0) (ix 4) (ix 8) (ix 12) in
  let v := GB v (ix 1) (ix 5) (ix 9) (ix 13) in
  let v := GB v (ix 2) (ix 6) (ix 10) (ix 14) in
  let v := GB v (ix 3) (ix 7) (ix 11) (ix 15) in
  let v := GB v (ix 0) (ix 5) (ix 10) (ix 15) in
  let v := GB v (ix 1) (ix 6) (ix 11) (ix 12) in
  let v := GB v (ix 2) (ix 7) (ix 8) (ix 13) in
  GB v (ix 3) (ix 4) (ix 9) (ix 14))%nat.

(** 3.5: P on the eight rows, then on the eight columns of the 8 x 8 matrix of
    16-byte registers; [col c i] is the place of word [i] of column [c]. *)
Definition G_with (col : nat → nat → nat) (x y : list Z) : list Z :=
  let r := xor_bytes x y in
  let q := foldl (λ v row, P (λ i, 16 * row + i)%nat v) r (seq 0 8) in
  let z := foldl (λ v c, P (col c) v) q (seq 0 8) in
  xor_bytes z r.

(** Column [c] consists of the registers [c], [c + 8], .., [c + 56]: word [i] is
    half [i mod 2] of register [c + 8 (i / 2)]. *)
Definition rfc_column (c i : nat) : nat := (16 * (i / 2) + 2 * c + i mod 2)%nat.

Definition G (x y : list Z) : list Z := G_with rfc_column x y.

End Rfc9106G.

(** The column of the code: the single words [c], [c + 8], .., [c + 120]. *)
Definition code_column (c i : nat) : nat := (c + 8 * i)%nat.

Lemma GB_length v a b c d : length (Rfc9106G.GB v a b c d) = length v.
Proof. unfold Rfc9106G.GB. by rewrite !length_insert. Qed.

Lemma P_length ix v : length (Rfc9106G.P ix v) = length v.
Proof. unfold Rfc9106G.P. by rewrite !GB_length. Qed.

Lemma get_word_ok v i : 0 ≤ i < Z.of_nat (length v) → slot_get v i = Done (Rfc9106G.get v (Z.to_nat i)).
Proof. apply slot_get_nth0. Qed.

Lemma g_mix_ok v a b c d :
  length v = 128%nat → 0 ≤ a < 128 → 0 ≤ b < 128 → 0 ≤ c < 128 → 0 ≤ d < 128 →
  g_mix v a b c d = Done (Rfc9106G.GB v (Z.to_nat a) (Z.to_nat b) (Z.to_nat c) (Z.to_nat d)).
Proof.
  intros Hv Ha Hb Hc Hd. unfold g_mix, Rfc9106G.GB. cbv zeta.
  do 8 (rewrite !get_word_ok by lia; rewrite !bind_Done, slot_set_ok, ?bind_Done by lia;
    try match goal with |- context [slot_get ?w] =>
      lazymatch w with v => fail | _ => assert (length w = 128%nat) by (by rewrite length_insert);
        generalize dependent w; clear v Hv; intros v Hv end end).
  done.
Qed.

Lemma p_col_ok v ix (jx : nat → nat) :
  length v = 128%nat → (∀ i : nat, (i < 16)%nat → ix (Z.of_nat i) = Z.of_nat (jx i) ∧ (jx i < 128)%nat) →
  p_col v ix = Done (Rfc9106G.P jx v).
Proof.
  intros Hv Hix. assert (∀ w (a b c d : nat), length w = 128%nat → (a < 16)%nat → (b < 16)%nat → (c < 16)%nat → (d < 16)%nat →
    g_mix w (ix (Z.of_nat a)) (ix (Z.of_nat b)) (ix (Z.of_nat c)) (ix (Z.of_nat d)) =
    Done (Rfc9106G.GB w (jx a) (jx b) (jx c) (jx d))) as Hg.
  { intros w a b c d Hw Ha Hb Hc Hd. destruct (Hix a Ha) as [-> ?], (Hix b Hb) as [-> ?], (Hix c Hc) as [-> ?], (Hix d Hd) as [-> ?].
    rewrite g_mix_ok by lia. by rewrite !Nat2Z.id. }
  unfold p_col, Rfc9106G.P. cbv zeta.
  change (ix 0) with (ix (Z.of_nat 0)). change (ix 1) with (ix (Z.of_nat 1)). change (ix 2) with (ix (Z.of_nat 2)).
  change (ix 3) with (ix (Z.of_nat 3)). change (ix 4) with (ix (Z.of_nat 4)). change (ix 5) with (ix (Z.of_nat 5)).
  change (ix 6) with (ix (Z.of_nat 6)). change (ix 7) with (ix (Z.of_nat 7)). change (ix 8) with (ix (Z.of_nat 8)).
  change (ix 9) with (ix (Z.of_nat 9)). change (ix 10) with (ix (Z.of_nat 10)). change (ix 11) with (ix (Z.of_nat 11)).
  change (ix 12) with (ix (Z.of_nat 12)). change (ix 13) with (ix (Z.of_nat 13)). change (ix 14) with (ix (Z.of_nat 14)).
  change (ix 15) with (ix (Z.of_nat 15)).
  rewrite (Hg _ 0 4 8 12)%nat, ?bind_Done by (rewrite ?GB_length; lia).
  rewrite (Hg _ 1 5 9 13)%nat, ?bind_Done by (rewrite ?GB_length; lia).
  rewrite (Hg _ 2 6 10 14)%nat, ?bind_Done by (rewrite ?GB_length; lia).
  rewrite (Hg _ 3 7 11 15)%nat, ?bind_Done by (rewrite ?GB_length; lia).
  rewrite (Hg _ 0 5 10 15)%nat, ?bind_Done by (rewrite ?GB_length; lia).
  rewrite (Hg _ 1 6 11 12)%nat, ?bind_Done by (rewrite ?GB_length; lia).
  rewrite (Hg _ 2 7 8 13)%nat, ?bind_Done by (rewrite ?GB_length; lia).
  rewrite (Hg _ 3 4 9 14)%nat, ?bind_Done by (rewrite ?GB_length; lia). done.
Qed.

(** [for i in 0..n { r[i] = x[i] ^ y[i] }] *)
Lemma xor_fill_ok n : ∀ (i : nat) d1 d2 x1 x2 y1 y2,
  length d1 = i → length d2 = n → length x1 = i → length x2 = n → length y1 = i → length y2 = n →
  for_range n (Z.of_nat i) (λ i r, a ← slot_get (x1 ++ x2) i; b ← slot_get (y1 ++ y2) i; slot_set r i (Z.lxor a b)) (d1 ++ d2) =
  Done (d1 ++ xor_bytes x2 y2).
Proof.
  induction n as [|n IH]; intros i d1 d2 x1 x2 y1 y2 Hd1 Hd2 Hx1 Hx2 Hy1 Hy2.
  { destruct x2, d2; done. }
  destruct d2 as [|d d2], x2 as [|x x2], y2 as [|y y2]; try done. cbn [for_range].
  rewrite (slot_get_mid x1), bind_Done, (slot_get_mid y1), bind_Done, (slot_set_mid d1), bind_Done by lia.
  change (d :: d2) with ([d] ++ d2). replace (Z.of_nat i + 1) with (Z.of_nat (S i)) by lia.
  rewrite (cons_middle x x1 x2), (cons_middle y y1 y2), (cons_middle (Z.lxor x y) d1 d2), !app_assoc.
  rewrite (IH (S i)) by (rewrite ?length_app; cbn in *; lia). by rewrite <- app_assoc.
Qed.

Lemma length_xor128 x y : length x = 128%nat → length y = 128%nat → length (xor_bytes x y) = 128%nat.
Proof. intros Hx Hy. by rewrite length_xor_bytes, Hx, Hy. Qed.

Lemma compress_columns_ok x y : length x = 128%nat → length y = 128%nat →
  compress x y = Done (Rfc9106G.G_with code_column x y) ∧ length (Rfc9106G.G_with code_column x y) = 128%nat.
Proof.
  intros Hx Hy. unfold compress, Rfc9106G.G_with, zero_block, BLOCK_WORDS, BLOCK_SIZE.
  change (Z.to_nat (1024 / 8)) with 128%nat.
  pose proof (xor_fill_ok 128 0 [] (replicate 128 0) [] x [] y) as Hxor. cbn [app length] in Hxor. change (Z.of_nat 0) with 0 in Hxor.
  rewrite Hxor, bind_Done by done. clear Hxor.
  pose proof (length_xor128 x y Hx Hy) as Hr. set (r := xor_bytes x y) in *. clearbody r. cbn zeta.
  destruct (for_range_fold_inv0 (λ v, length v = 128%nat) (λ v row, Rfc9106G.P (λ i, 16 * row + i)%nat v)
    (λ row z, p_col z (row_index row)) 8 r Hr) as [-> Hq].
  { intros j t Hj Ht. split; [|by rewrite P_length]. apply p_col_ok; [done|]. intros i Hi. unfold row_index. lia. }
  rewrite bind_Done. set (q := foldl _ r _) in *. clearbody q.
  destruct (for_range_fold_inv0 (λ v, length v = 128%nat) (λ v c, Rfc9106G.P (code_column c) v)
    (λ col z, p_col z (col_index col)) 8 q Hq) as [-> Hz].
  { intros j t Hj Ht. split; [|by rewrite P_length]. apply p_col_ok; [done|]. intros i Hi. unfold col_index, code_column. lia. }
  rewrite bind_Done. set (z := foldl _ q _) in *. clearbody z.
  unfold xor_into, BLOCK_WORDS, BLOCK_SIZE. change (Z.to_nat (1024 / 8)) with 128%nat.
  rewrite xor_loop_ok by lia. split; [done|]. by apply length_xor128.
Qed.

(** The first two words of the RFC's and of the code's block for a zero block and
    one with a single bit. *)
Definition one_bit : list Z := 1 :: replicate 127 0.

(** The compression function is that of RFC 9106 but for one thing: in the
    column step it permutes the single words [c], [c + 8], .., [c + 120], where
    the standard permutes the words of the 16-byte registers [c], [c + 8], ..,
    [c + 56] ([Rfc9106G.G] is [G_with] for those places).  On every pair of blocks
    [compress] returns [G_with] for the code's places, and the result is not that
    of the standard. *)
Theorem compress_wrong_columns (x y : list Z) :
  length x = 128%nat → length y = 128%nat →
  compress x y = Done (Rfc9106G.G_with code_column x y) ∧
  compress (replicate 128 0) one_bit ≠ Done (Rfc9106G.G (replicate 128 0) one_bit).
Proof.
  intros Hx Hy. split; [by apply compress_columns_ok|]. intros E.
  assert (bool_decide (done_or [] (compress (replicate 128 0) one_bit) = Rfc9106G.G (replicate 128 0) one_bit) = false) as H
    by (vm_compute; reflexivity).
  rewrite E in H. apply bool_decide_eq_false in H. by apply H.
Qed.

Lemma compress_wrong_columns_witness :
  compress (replicate 128 0) one_bit = Done (Rfc9106G.G_with code_column (replicate 128 0) one_bit).
Proof. apply (compress_wrong_columns (replicate 128 0) one_bit); reflexivity. Defined.

(** ** Addressing *)

(** A position of the fill: lane, slice and offset inside a memory of [p] lanes
    of four segments each, not one of the first two blocks of a lane on the first
    pass. *)
Record position (pass lane slice s p seg : Z) : Prop := {
  pos_lanes : 0 < p;
  pos_seg : 2 ≤ seg;
  pos_size : p * (4 * seg) < 2 ^ 32;
  pos_pass : 0 ≤ pass;
  pos_lane : 0 ≤ lane < p;
  pos_slice : 0 ≤ slice < 4;
  pos_s : 0 ≤ s < seg;
  pos_first : pass = 0 → 2 ≤ slice * seg + s;
}.

(** Products of lane numbers and lengths stay inside the memory. *)
Lemma lane_bound lane p len : 0 ≤ lane < p → 0 ≤ len → 0 ≤ lane * len ∧ lane * len + len ≤ p * len.
Proof. intros. nia. Qed.

Lemma area_ok pass lane slice s p seg : position pass lane slice s p seg →
  reference_area pass lane slice (4 * seg) seg p (lane * (4 * seg) + slice * seg + s) =
    if pass =? 0 then slice * seg + s - 1 else 3 * seg + s - 1 + (p - 1) * (4 * seg).
Proof.
  intros [Hp Hseg Hsz Hpass Hl Hsl Hs Hf]. unfold reference_area.
  destruct (lane_bound lane p (4 * seg) Hl ltac:(lia)) as [Hl0 Hl1].
  destruct (lane_bound slice 4 seg Hsl ltac:(lia)) as [Hs0 Hs1].
  destruct (lane_bound (p - 1) p (4 * seg)) as [Hp0 Hp1]; [lia|lia|].
  assert (W64 = 2 ^ 64) as HW by done.
  destruct (Z.eqb_spec pass 0) as [->|Hne].
  - specialize (Hf eq_refl). destruct (Z.eqb_spec slice 0) as [->|Hsl0]; u64_exact; lia.
  - u64_exact. lia.
Qed.

Lemma position_area pass lane slice s p seg : position pass lane slice s p seg →
  1 ≤ (if pass =? 0 then slice * seg + s - 1 else 3 * seg + s - 1 + (p - 1) * (4 * seg)) ≤ p * (4 * seg).
Proof.
  intros [Hp Hseg Hsz Hpass Hl Hsl Hs Hf]. destruct (lane_bound (p - 1) p (4 * seg)) as [Hp0 Hp1]; [lia|lia|].
  destruct (lane_bound slice 4 seg Hsl ltac:(lia)) as [Hs0 Hs1].
  destruct (Z.eqb_spec pass 0) as [->|Hne]; [specialize (Hf eq_refl)|]; nia.
Qed.

(** The reference block by its distance [k] from the end of the reference set. *)
Definition reference (pass lane slice s p seg k : Z) : Z :=
  if pass =? 0 then lane * (4 * seg) + (slice * seg + s - 2 - k)
  else (lane * (4 * seg) + ((slice + 1) mod 4) * seg + (3 * seg + s - 2 + (p - 1) * (4 * seg) - k)) mod (p * (4 * seg)).

Lemma index_alpha_ok r pass lane slice s p seg : position pass lane slice s p seg →
  ∃ k, 0 ≤ k < (if pass =? 0 then slice * seg + s - 1 else 3 * seg + s - 1 + (p - 1) * (4 * seg)) ∧
    index_alpha r pass lane slice (4 * seg) seg p (lane * (4 * seg) + slice * seg + s) =
      Done (reference pass lane slice s p seg k).
Proof.
  intros Hpos. unfold index_alpha. rewrite (area_ok _ _ _ _ _ _ Hpos). pose proof (position_area _ _ _ _ _ _ Hpos) as Harea.
  set (area := if pass =? 0 then _ else _) in *. destruct Hpos as [Hp Hseg Hsz Hpass Hl Hsl Hs Hf].
  destruct (lane_bound lane p (4 * seg) Hl ltac:(lia)) as [Hl0 Hl1].
  assert (0 ≤ (slice + 1) mod 4 < 4) as Hm by (apply Z.mod_pos_bound; lia).
  destruct (lane_bound ((slice + 1) mod 4) 4 seg Hm ltac:(lia)) as [Hm0 Hm1].
  destruct (lane_bound slice 4 seg Hsl ltac:(lia)) as [Hs0 Hs1].
  rewrite (proj2 (Z.eqb_neq area 0)) by lia.
  set (z := Z.shiftr (_ ⊞ _) 1). assert (0 ≤ z) as Hz.
  { unfold z. apply Z.shiftr_nonneg, u64_range. }
  clearbody z. unfold rem64. rewrite (proj2 (Z.eqb_neq area 0)), bind_Done by lia.
  exists (z mod area). pose proof (Z.mod_pos_bound z area ltac:(lia)) as Hk. split; [done|].
  set (k := z mod area) in *. clearbody k. unfold W64 in *. rewrite (u64_small (area - 1)), (u64_small (area - 1 - k)) by (unfold W64; lia).
  rewrite (u64_small (p * _)) by (unfold W64; lia). rewrite (proj2 (Z.eqb_neq (p * (4 * seg)) 0)) by nia.
  f_equal. unfold reference, area in *. clear area. destruct (Z.eqb_spec pass 0) as [->|Hne].
  - rewrite (u64_small (lane * _)) by (unfold W64; lia). rewrite u64_small by (unfold W64; lia).
    rewrite Z.mod_small by lia. lia.
  - assert (W64 = 2 ^ 64) as HW by done. destruct (lane_bound (p - 1) p (4 * seg)) as [Hp0 Hp1]; [lia|lia|].
    u64_exact. f_equal. lia.
Qed.

Lemma reference_range pass lane slice s p seg k : position pass lane slice s p seg →
  0 ≤ k < (if pass =? 0 then slice * seg + s - 1 else 3 * seg + s - 1 + (p - 1) * (4 * seg)) →
  0 ≤ reference pass lane slice s p seg k < p * (4 * seg).
Proof.
  intros [Hp Hseg Hsz Hpass Hl Hsl Hs Hf] Hk. unfold reference.
  destruct (lane_bound lane p (4 * seg) Hl ltac:(lia)) as [Hl0 Hl1].
  destruct (lane_bound slice 4 seg Hsl ltac:(lia)) as [Hs0 Hs1].
  destruct (pass =? 0); [lia|]. apply Z.mod_pos_bound. nia.
Qed.

(** The successor slice starts one segment further, modulo the lane. *)
Lemma slice_succ slice seg x : 0 ≤ slice < 4 → 0 < seg →
  ((slice + 1) mod 4 * seg + x) mod (4 * seg) = ((slice + 1) * seg + x) mod (4 * seg).
Proof.
  intros Hs Hseg. rewrite (Z.div_mod (slice + 1) 4) at 2 by lia.
  replace ((4 * ((slice + 1) / 4) + (slice + 1) mod 4) * seg + x) with ((slice + 1) mod 4 * seg + x + (slice + 1) / 4 * (4 * seg)) by lia.
  by rewrite Z.mod_add by lia.
Qed.

(** C34. Reference blocks: for every position of the fill and every
    pseudo-random value [index_alpha] returns the index of a block of the memory,
    without a division by zero.  On the first pass it lies in the same lane at
    least two blocks before the current one, so it is filled already; with a
    single lane it is on no pass the block being computed. *)
Theorem reference_block_spec (r pass lane slice s p seg : Z) :
  position pass lane slice s p seg →
  let abs_idx := lane * (4 * seg) + slice * seg + s in
  ∃ ref, index_alpha r pass lane slice (4 * seg) seg p abs_idx = Done ref ∧ 0 ≤ ref < p * (4 * seg) ∧
    (pass = 0 → lane * (4 * seg) ≤ ref ≤ abs_idx - 2) ∧ (p = 1 → ref ≠ abs_idx).
Proof.
  intros Hpos abs_idx. destruct (index_alpha_ok r _ _ _ _ _ _ Hpos) as (k & Hk & Hrun).
  exists (reference pass lane slice s p seg k). split; [done|]. split; [by apply reference_range|].
  destruct Hpos as [Hp Hseg Hsz Hpass Hl Hsl Hs Hf]. unfold abs_idx, reference in *. clear Hrun. split.
  - intros ->. cbn [Z.eqb] in *. lia.
  - intros ->. assert (lane = 0) as -> by lia. destruct (Z.eqb_spec pass 0) as [->|Hne]; [lia|]. intros E.
    replace (0 * (4 * seg) + (slice + 1) mod 4 * seg + (3 * seg + s - 2 + (1 - 1) * (4 * seg) - k))
      with ((slice + 1) mod 4 * seg + (3 * seg + s - 2 - k)) in E by lia.
    rewrite Z.mul_1_l, slice_succ in E by lia.
    replace ((slice + 1) * seg + (3 * seg + s - 2 - k)) with (slice * seg + s - 2 - k + 1 * (4 * seg)) in E by lia.
    rewrite Z.mod_add in E by lia. pose proof (Z.div_mod (slice * seg + s - 2 - k) (4 * seg) ltac:(lia)) as D.
    rewrite E in D. assert (4 * seg * ((slice * seg + s - 2 - k) / (4 * seg)) = -2 - k) as D' by lia.
    assert (-1 < (slice * seg + s - 2 - k) / (4 * seg) < 0 ∨ (slice * seg + s - 2 - k) / (4 * seg) ≤ -1 ∨ 0 ≤ (slice * seg + s - 2 - k) / (4 * seg)) as [?|[?|?]] by lia; nia.
Qed.

Lemma reference_block_spec_witness :
  ∃ ref, index_alpha 0x123456789 1 0 2 (4 * 2) 2 1 (0 * (4 * 2) + 2 * 2 + 1) = Done ref ∧ 0 ≤ ref < 1 * (4 * 2) ∧
    (1 = 0 → 0 * (4 * 2) ≤ ref ≤ 0 * (4 * 2) + 2 * 2 + 1 - 2) ∧ (1 = 1 → ref ≠ 0 * (4 * 2) + 2 * 2 + 1).
Proof. apply (reference_block_spec 0x123456789 1 0 2 1 1 2). constructor; lia. Defined.

(** With two lanes a block can be chosen as its own reference. *)
Theorem reference_is_own_block : position 1 0 3 0 2 2 ∧ index_alpha 12 1 0 3 8 2 2 6 = Done 6.
Proof. split; [constructor; lia|]. vm_compute. reflexivity. Qed.

(** ** The function always returns *)

(** A memory of [n] blocks of 128 words. *)
Definition memory_ok (n : Z) (memory : list (list Z)) : Prop :=
  Z.of_nat (length memory) = n ∧ Forall (λ b, length b = 128%nat) memory.

Lemma memory_get n memory i : memory_ok n memory → 0 ≤ i < n → ∃ b, slot_get memory i = Done b ∧ length b = 128%nat.
Proof.
  intros [Hl Hf] Hi. destruct (lookup_lt_is_Some_2 memory (Z.to_nat i)) as [b Hb]; [lia|].
  exists b. split; [by apply slot_get_ok|]. exact (Forall_lookup_1 _ _ _ _ Hf Hb).
Qed.

Lemma memory_set n memory i b : memory_ok n memory → 0 ≤ i < n → length b = 128%nat →
  ∃ memory', slot_set memory i b = Done memory' ∧ memory_ok n memory'.
Proof.
  intros [Hl Hf] Hi Hb. rewrite slot_set_ok by lia. eexists. split; [done|]. split; [by rewrite length_insert|].
  by apply Forall_insert.
Qed.

Lemma compress_done x y : length x = 128%nat → length y = 128%nat → ∃ z, compress x y = Done z ∧ length z = 128%nat.
Proof. intros Hx Hy. destruct (compress_columns_ok x y Hx Hy) as [-> Hz]. by eexists. Qed.

Lemma block_word (b : list Z) i : length b = 128%nat → 0 ≤ i < 128 → ∃ w, slot_get b i = Done w.
Proof. intros Hb Hi. rewrite slot_get_nth0 by lia. by eexists. Qed.

Lemma pseudo_rands_done pass lane slice len seg p t : 0 ≤ seg →
  ∃ rs, compute_pseudo_rands pass lane slice len seg p t = Done rs ∧ Z.of_nat (length rs) = seg.
Proof.
  intros Hseg. unfold compute_pseudo_rands.
  destruct (for_range_done (λ j (rs : list Z), Z.of_nat (length rs) = j) (λ s result,
    input_block ← slot_set zero_block 0 pass; input_block ← slot_set input_block 1 lane;
    input_block ← slot_set input_block 2 slice; input_block ← slot_set input_block 3 (s ⊞ 1);
    input_block ← slot_set input_block 4 t; input_block ← slot_set input_block 5 p;
    input_block ← slot_set input_block 6 ARGON2_TYPE_ID; pr_block ← compress zero_block input_block;
    w ← slot_get pr_block 0; Done (result ++ [w])) (Z.to_nat seg) 0 []) as (rs & Hrun & Hlen); [|done|exists rs; split; [done|lia]].
  intros j rs Hj Hrs.
  assert (length zero_block = 128%nat) as Hz by reflexivity. revert Hz. generalize zero_block at 1 2 3. intros zb Hz.
  do 7 (rewrite slot_set_ok, bind_Done by (rewrite ?length_insert; lia)).
  match goal with |- context [compress ?x ?y] => destruct (compress_done x y) as (pr & -> & Hpr) end; [done|by rewrite !length_insert|].
  rewrite bind_Done. destruct (block_word pr 0 Hpr) as [w ->]; [lia|]. rewrite bind_Done.
  eexists. split; [done|]. rewrite length_app. cbn [length]. lia.
Qed.

(** The layout: [p] lanes of four segments of [seg] blocks. *)
Definition layout (p seg : Z) : Prop := 0 < p ∧ 2 ≤ seg ∧ p * (4 * seg) < 2 ^ 32.

Lemma fill_block_done pass lane slice p seg di rs s memory :
  layout p seg → 0 ≤ pass → 0 ≤ lane < p → 0 ≤ slice < 4 → 0 ≤ s < seg →
  (di = true → Z.of_nat (length rs) = seg) → memory_ok (p * (4 * seg)) memory →
  ∃ memory', fill_block pass lane slice (4 * seg) seg p di rs s memory = Done memory' ∧ memory_ok (p * (4 * seg)) memory'.
Proof.
  intros (Hp & Hseg & Hsz) Hpass Hl Hsl Hs Hrs Hm. unfold fill_block.
  destruct (lane_bound lane p (4 * seg) Hl ltac:(lia)) as [Hl0 Hl1].
  destruct (lane_bound slice 4 seg Hsl ltac:(lia)) as [Hs0 Hs1].
  assert (W64 = 2 ^ 64) as HW by done. u64_exact. set (abs := lane * (4 * seg) + slice * seg + s).
  destruct ((pass =? 0) && (abs <? lane * (4 * seg) + 2)) eqn:Hskip; [by eexists|].
  assert (position pass lane slice s p seg) as Hpos.
  { constructor; try done. intros ->. cbn [Z.eqb andb] in Hskip. apply Z.ltb_ge in Hskip. lia. }
  set (prev := if abs =? lane * (4 * seg) then _ else _).
  assert (0 ≤ prev < p * (4 * seg)) as Hprev.
  { unfold prev. destruct (Z.eqb_spec abs (lane * (4 * seg))); u64_exact; lia. }
  clearbody prev. destruct (memory_get _ _ prev Hm Hprev) as (pb & Hpb & Hpbl).
  assert (∃ r, (if di then slot_get rs s else b ← slot_get memory prev; slot_get b 0) = Done r) as [r ->].
  { destruct di; [rewrite slot_get_nth0 by (specialize (Hrs eq_refl); lia); by eexists|].
    rewrite Hpb, bind_Done. destruct (block_word pb 0 Hpbl) as [w ->]; [lia|]. by eexists. }
  rewrite bind_Done. destruct (index_alpha_ok r _ _ _ _ _ _ Hpos) as (k & Hk & Hi). unfold abs. rewrite Hi, bind_Done.
  rewrite Hpb, bind_Done. destruct (memory_get _ _ _ Hm (reference_range _ _ _ _ _ _ _ Hpos Hk)) as (rb & -> & Hrbl).
  rewrite bind_Done. destruct (compress_done pb rb Hpbl Hrbl) as (nb & -> & Hnb). rewrite bind_Done.
  apply memory_set; [done|lia|done].
Qed.

Lemma fill_segment_done pass lane slice p seg t memory :
  layout p seg → 0 ≤ pass → 0 ≤ lane < p → 0 ≤ slice < 4 → memory_ok (p * (4 * seg)) memory →
  ∃ memory', fill_segment memory pass lane slice (4 * seg) seg p t = Done memory' ∧ memory_ok (p * (4 * seg)) memory'.
Proof.
  intros Hlay Hpass Hl Hsl Hm. unfold fill_segment. set (di := (pass =? 0) && (slice <? 2)).
  assert (∃ rs, (if di then compute_pseudo_rands pass lane slice (4 * seg) seg p t else Done []) = Done rs ∧
    (di = true → Z.of_nat (length rs) = seg)) as (rs & -> & Hrs).
  { destruct di; [|by eexists]. destruct (pseudo_rands_done pass lane slice (4 * seg) seg p t) as (rs & -> & Hrs); [destruct Hlay; lia|]. by eexists. }
  rewrite bind_Done. destruct Hlay as (Hp & Hseg & Hsz).
  destruct (for_range_done (λ _, memory_ok (p * (4 * seg))) (fill_block pass lane slice (4 * seg) seg p di rs)
    (Z.to_nat seg) 0 memory) as (m' & Hrun & Hm'); [|done|by exists m'].
  intros j mm Hj Hmm. apply fill_block_done; try done. lia.
Qed.

Lemma bytes_to_block_done bytes : length bytes = 1024%nat → ∃ b, bytes_to_block bytes = Done b ∧ length b = 128%nat.
Proof.
  intros Hb. unfold bytes_to_block. change (Z.to_nat BLOCK_WORDS) with 128%nat.
  destruct (for_range_done (λ _ (b : list Z), length b = 128%nat)
    (λ i block, w ← slice bytes (i * 8) (i * 8 + 8); slot_set block i (from_le w)) 128 0 zero_block) as (b & Hrun & Hl).
  - intros j b Hj Hl. rewrite slice_ok, bind_Done by lia. rewrite slot_set_ok by lia. eexists. split; [done|].
    by rewrite length_insert.
  - reflexivity.
  - by exists b.
Qed.

Lemma h_prime_1024_done h0 i l : length h0 = 64%nat → ∃ b, h_prime_1024 h0 i l = Done b ∧ length b = 128%nat.
Proof.
  intros Hh. unfold h_prime_1024. change (replicate 72 0) with ([] ++ replicate 72 0).
  rewrite (copy_at_app [] (replicate 72 0) h0 0) by (rewrite ?length_replicate, ?Hh; done || lia). rewrite bind_Done. cbn [app].
  rewrite (copy_at_app h0) by (rewrite ?length_drop, ?length_replicate, ?length_le_bytes, ?Hh; done || lia). rewrite bind_Done.
  rewrite app_assoc, (copy_at_app (h0 ++ _)) by (rewrite ?length_app, ?length_drop, ?length_replicate, ?length_le_bytes, ?Hh; done || lia).
  rewrite bind_Done. set (input := _ ++ _). destruct (h_prime_ok input BLOCK_SIZE) as [-> Hl]; [unfold BLOCK_SIZE, W64; lia|].
  rewrite bind_Done. apply bytes_to_block_done. rewrite Hl. done.
Qed.

Lemma block_to_bytes_done b : length b = 128%nat → block_to_bytes b = Done (b ≫= le_bytes 8).
Proof.
  intros Hb. unfold block_to_bytes. rewrite Hb. change (replicate (Z.to_nat BLOCK_SIZE) 0) with (replicate (8 * 128) 0).
  pose proof (write_loop_ok (le_bytes 8) 8 128 b ltac:(lia) (length_le_bytes 8) ltac:(lia)) as H.
  rewrite <- Hb in H at 3. rewrite seq_bind_nth in H. exact H.
Qed.

Lemma blake2b_512_ok input : blake2b_512 input = Done (Rfc7693.BLAKE2b 64 [] input).
Proof. unfold blake2b_512. rewrite (digest1_bind 64 None) by (done || lia). by rewrite copy_whole by (by rewrite length_BLAKE2b). Qed.

Lemma BLAKE2b_bytes n key x : Forall byte_ok (Rfc7693.BLAKE2b n key x).
Proof.
  unfold Rfc7693.BLAKE2b. apply Forall_take. generalize (Rfc7693.hash_data (Rfc7693.h_init (Z.of_nat (length key)) n) (Rfc7693.data key x)).
  intros l. induction l as [|w l IH]; [done|]. cbn [mbind list_bind]. apply Forall_app. split; [apply le_bytes_ok | exact IH].
Qed.

(** The parameters [argon2id_raw] is meant for. *)
Definition params_ok (m t p : Z) : Prop := 0 < p ∧ 8 * p ≤ m ∧ m < 2 ^ 32 ∧ 0 ≤ t < 2 ^ 32.

Lemma params_layout m t p : params_ok m t p →
  let seg := m / (4 * p) in layout p seg ∧ seg * (4 * p) = p * (4 * seg) ∧ p * (4 * seg) / p = 4 * seg ∧ 4 * seg / 4 = seg.
Proof.
  intros (Hp & Hm & Hm32 & Ht) seg. pose proof (Z.div_mod m (4 * p) ltac:(lia)) as D.
  pose proof (Z.mod_pos_bound m (4 * p) ltac:(lia)) as B. fold seg in D.
  assert (2 ≤ seg) by (unfold seg; apply Z.div_le_lower_bound; lia).
  split_and!; [split_and!; nia|lia|rewrite Z.mul_comm; apply Z.div_mul; lia|rewrite Z.mul_comm; apply Z.div_mul; lia].
Qed.

Section raw.
Context (p seg : Z) (Hlay : layout p seg).

Lemma first_blocks_done h0 memory : length h0 = 64%nat → memory_ok (p * (4 * seg)) memory →
  ∃ memory', for_range (Z.to_nat p) 0 (λ l memory,
      block0 ← h_prime_1024 h0 0 (u32 l); block1 ← h_prime_1024 h0 1 (u32 l);
      memory ← slot_set memory (l ⊠ (4 * seg)) block0; slot_set memory (l ⊠ (4 * seg) ⊞ 1) block1) memory = Done memory' ∧
    memory_ok (p * (4 * seg)) memory'.
Proof.
  intros Hh Hm. destruct Hlay as (Hp & Hseg & Hsz). assert (W64 = 2 ^ 64) as HW by done.
  apply (for_range_done (λ _, memory_ok (p * (4 * seg)))); [|done].
  intros l mm Hl Hmm. destruct (lane_bound l p (4 * seg)) as [Hl0 Hl1]; [lia|lia|]. u64_exact.
  destruct (h_prime_1024_done h0 0 (u32 l) Hh) as (b0 & -> & Hb0). rewrite bind_Done.
  destruct (h_prime_1024_done h0 1 (u32 l) Hh) as (b1 & -> & Hb1). rewrite bind_Done.
  destruct (memory_set _ mm (l * (4 * seg)) b0 Hmm) as (m1 & -> & Hm1); [lia|done|]. rewrite bind_Done.
  apply memory_set; [done|lia|done].
Qed.

Lemma passes_done t memory : 0 ≤ t → memory_ok (p * (4 * seg)) memory →
  ∃ memory', for_range (Z.to_nat t) 0 (λ pass memory,
      for_range 4 0 (λ slice memory, for_range (Z.to_nat p) 0 (λ lane memory,
        fill_segment memory pass lane slice (4 * seg) seg p t) memory) memory) memory = Done memory' ∧
    memory_ok (p * (4 * seg)) memory'.
Proof.
  intros Ht Hm. destruct Hlay as (Hp & _). apply (for_range_done (λ _, memory_ok (p * (4 * seg)))); [|done]. intros pass m1 Hpass Hm1.
  apply (for_range_done (λ _, memory_ok (p * (4 * seg)))); [|done]. intros slice m2 Hslice Hm2.
  apply (for_range_done (λ _, memory_ok (p * (4 * seg)))); [|done]. intros lane m3 Hlane Hm3.
  apply fill_segment_done; try done; lia.
Qed.

Lemma final_block_done memory : memory_ok (p * (4 * seg)) memory →
  ∃ b, for_range (Z.to_nat p) 0 (λ l final_block,
      last ← slot_get memory (l ⊠ (4 * seg) ⊞ (4 * seg ⊟ 1)); xor_into final_block last) zero_block = Done b ∧ length b = 128%nat.
Proof.
  intros Hm. destruct Hlay as (Hp & Hseg & Hsz). assert (W64 = 2 ^ 64) as HW by done.
  apply (for_range_done (λ _ (b : list Z), length b = 128%nat)); [|done].
  intros l b Hl Hb. destruct (lane_bound l p (4 * seg)) as [Hl0 Hl1]; [lia|lia|]. u64_exact.
  destruct (memory_get _ memory (l * (4 * seg) + (4 * seg - 1)) Hm) as (last & -> & Hlast); [lia|]. rewrite bind_Done.
  unfold xor_into. change (Z.to_nat BLOCK_WORDS) with 128%nat. rewrite xor_loop_ok by lia. eexists. split; [done|].
  by apply length_xor128.
Qed.

End raw.

Lemma argon2id_raw_done password salt m t p : params_ok m t p →
  ∃ d, argon2id_raw password salt m t p = Done d ∧ length d = 32%nat ∧ Forall byte_ok d.
Proof.
  intros Hpar. destruct (params_layout m t p Hpar) as (Hlay & Htot & Hlane & Hs).
  destruct Hpar as (Hp & Hm & Hm32 & Ht). set (seg := m / (4 * p)) in *.
  assert (memory_ok (p * (4 * seg)) (replicate (Z.to_nat (p * (4 * seg))) zero_block)) as Hm0.
  { split; [rewrite length_replicate; destruct Hlay; nia|]. by apply Forall_replicate. }
  unfold argon2id_raw, compute_h0. cbv zeta. rewrite blake2b_512_ok, bind_Done.
  match goal with |- context [Rfc7693.BLAKE2b 64 [] ?x] => pose proof (length_BLAKE2b 64 [] x ltac:(lia)) as Hh0;
    generalize dependent (Rfc7693.BLAKE2b 64 [] x) end. intros h0 Hh0.
  assert (W64 = 2 ^ 64) as HW by done. destruct Hlay as (Hl1 & Hl2 & Hl3) eqn:Elay. clear Elay.
  rewrite (u64_small (4 * p)) by lia. rewrite (proj2 (Z.eqb_neq (4 * p) 0)), bind_Done by lia. fold seg.
  rewrite Htot, (u64_small (p * (4 * seg))), Hlane, Hs by lia.
  destruct (first_blocks_done p seg Hlay h0 _ Hh0 Hm0) as (m1 & -> & Hm1). rewrite bind_Done.
  destruct (passes_done p seg Hlay t m1 ltac:(lia) Hm1) as (m2 & -> & Hm2). rewrite bind_Done.
  destruct (final_block_done p seg Hlay m2 Hm2) as (fb & -> & Hfb). rewrite bind_Done.
  rewrite (block_to_bytes_done fb Hfb), bind_Done.
  destruct (h_prime_ok (fb ≫= le_bytes 8) HASH_LEN) as [-> Hdl]; [unfold HASH_LEN, W64; lia|]. rewrite bind_Done.
  unfold Rfc9106.Hprime in *. change (HASH_LEN <=? 64) with true in *. cbn iota in *.
  set (d := Rfc7693.BLAKE2b _ _ _) in *. assert (Forall byte_ok d) as Hd by apply BLAKE2b_bytes. clearbody d.
  change (Z.to_nat HASH_LEN) with 32%nat in Hdl. unfold HASH_LEN.
  rewrite slice_ok, bind_Done by lia. change (Z.to_nat 0) with 0%nat. rewrite drop_0, take_ge by lia.
  rewrite copy_whole by done. by exists d.
Qed.
