(* ===== verification/Argon2Api.v ===== *)
(** * Argon2Api.v: the text format and the entry points of Argon2.v

    What [decode_phc] accepts and how it inverts [encode_phc]; which parameters
    [validate_params] lets through; that a password verifies against its own hash;
    and what [verify_password] does with a record nobody validated. *)

From S2P Require Import Prelude Bytes Helpers Blake2b Argon2.

Local Open Scope Z_scope.
Local Open Scope u64_scope.

(** ** Splitting and numerals *)

Definition without (c : Z) (l : list Z) : Prop := Forall (λ x, x ≠ c) l.

Lemma split_on_none c l : without c l → split_on c l = [l].
Proof. induction 1 as [|x l Hx Hl IH]; [done|]. cbn [split_on]. by rewrite (proj2 (Z.eqb_neq x c) Hx), IH. Qed.

Lemma split_on_app c l r : without c l → split_on c (l ++ c :: r) = l :: split_on c r.
Proof.
  induction 1 as [|x l Hx Hl IH]; cbn [split_on app]; [by rewrite Z.eqb_refl|].
  by rewrite (proj2 (Z.eqb_neq x c) Hx), IH.
Qed.

Lemma base64_encode_without_dollar l : Forall byte_ok l → without dollar (base64_encode l).
Proof.
  intros Hb. destruct (base64_encode_padded l) as [k ->]. apply Forall_app. split.
  - eapply Forall_impl; [by apply base64_plain|]. intros c [[v Hv] _] ->. done.
  - by apply Forall_replicate.
Qed.

(** The accumulator of a digit string only grows, so a value below [2^32] is
    reached without a checked operation failing. *)
Lemma dec_fold_ge ds acc : Forall digit_char ds → 0 ≤ acc → acc ≤ foldl (λ a c, a * 10 + (c - 48)) acc ds.
Proof.
  intros Hd. revert acc. induction Hd as [|d ds Hd Hds IH]; intros acc Ha; cbn [foldl]; [lia|].
  unfold digit_char in Hd. pose proof (IH (acc * 10 + (d - 48)) ltac:(lia)). lia.
Qed.

Lemma parse_digits_ok ds acc :
  Forall digit_char ds → 0 ≤ acc → foldl (λ a c, a * 10 + (c - 48)) acc ds < 2 ^ 32 →
  parse_digits ds acc = Some (foldl (λ a c, a * 10 + (c - 48)) acc ds).
Proof.
  intros Hd. revert acc. induction Hd as [|d ds Hd Hds IH]; intros acc Ha Hv; cbn [foldl parse_digits] in *; [done|].
  unfold digit_char in Hd. pose proof (dec_fold_ge ds (acc * 10 + (d - 48)) Hds ltac:(lia)) as Hg.
  rewrite (proj2 (Z.ltb_ge d 48)), (proj2 (Z.ltb_ge 57 d)) by lia. cbn [orb]. unfold checked32.
  rewrite (proj2 (Z.ltb_lt (acc * 10) _)) by lia. cbn [mbind option_bind].
  rewrite (proj2 (Z.ltb_lt (acc * 10 + _) _)) by lia. cbn [mbind option_bind]. apply IH; lia.
Qed.

Lemma u32_to_alloc_string_ok v : 0 ≤ v < 2 ^ 32 →
  ∃ ds, u32_to_alloc_string v = Done ds ∧ Forall digit_char ds ∧ parse_u32 ds = Some v.
Proof.
  intros Hv. unfold u32_to_alloc_string. destruct (Z.eqb_spec v 0) as [->|Hne].
  { exists [48]. split_and!; [done| |done]. apply Forall_singleton. unfold digit_char. lia. }
  destruct (dec_digits_ok 10 21 (replicate 10 0) 10 v) as
    (buf' & ds & -> & Hpos & Hlen & Hds & Hdrop & Hval & Hdig & _); [change (10 ^ Z.of_nat 10) with 10000000000; lia|lia|cbn; lia|unfold W64; lia|].
  rewrite bind_Done. cbn beta iota. exists ds. rewrite (drop_ge (replicate 10 0)), app_nil_r in Hdrop by done.
  rewrite (str_from_digits _ _ ds) by done. split_and!; [done|done|]. unfold parse_u32. destruct ds as [|d ds]; [cbn in Hval; lia|].
  rewrite parse_digits_ok; [f_equal; exact Hval|done|lia|]. unfold dec_value in Hval. lia.
Qed.

Lemma digits_without c ds : c < 48 → Forall digit_char ds → without c ds.
Proof. intros Hc Hd. eapply Forall_impl; [exact Hd|]. unfold digit_char. lia. Qed.

Lemma strip_prefix_app prefix s : str_strip_prefix (prefix ++ s) prefix = Some s.
Proof. induction prefix as [|c prefix IH]; [by destruct s|]. cbn. by rewrite Z.eqb_refl. Qed.

Lemma parse_param_ok prefix ds v : parse_u32 ds = Some v → parse_param (prefix ++ ds) prefix = Some v.
Proof. intros H. unfold parse_param. by rewrite strip_prefix_app. Qed.

(** The record splits into its fields. *)
Lemma encode_phc_ok salt hash m t p :
  Forall byte_ok salt → Forall byte_ok hash → 0 ≤ m < 2 ^ 32 → 0 ≤ t < 2 ^ 32 → 0 ≤ p < 2 ^ 32 →
  ∃ s, encode_phc salt hash m t p = Done s ∧ decode_phc s = Ok (salt, hash, m, t, p).
Proof.
  intros Hs Hh Hm Ht Hp. unfold encode_phc.
  destruct (u32_to_alloc_string_ok m Hm) as (dm & -> & Hdm & Hpm). rewrite bind_Done.
  destruct (u32_to_alloc_string_ok t Ht) as (dt & -> & Hdt & Hpt). rewrite bind_Done.
  destruct (u32_to_alloc_string_ok p Hp) as (dp & -> & Hdp & Hpp). rewrite bind_Done.
  eexists. split; [done|]. unfold decode_phc.
  set (params := bytes_of "m=" ++ dm ++ bytes_of ",t=" ++ dt ++ bytes_of ",p=" ++ dp).
  replace (bytes_of "$argon2id$v=19$m=" ++ _) with
    ([] ++ dollar :: bytes_of "argon2id" ++ dollar :: bytes_of "v=19" ++ dollar :: params ++ dollar :: base64_encode salt ++ dollar :: base64_encode hash)
    by (unfold params; rewrite <- !app_assoc; reflexivity).
  assert (without dollar params) as Hparams.
  { unfold params, without. repeat (apply Forall_app; split); try (by apply digits_without); by apply (bool_decide_unpack _). }
  pose proof (base64_encode_without_dollar salt Hs). pose proof (base64_encode_without_dollar hash Hh).
  rewrite !split_on_app by (done || by apply (bool_decide_unpack _)). rewrite split_on_none by done.
  rewrite !bool_decide_eq_true_2 by done. cbn [negb orb].
  replace params with ((bytes_of "m=" ++ dm) ++ comma :: (bytes_of "t=" ++ dt) ++ comma :: (bytes_of "p=" ++ dp)) by
    (unfold params; rewrite <- !app_assoc; reflexivity).
  assert (∀ k ds, without comma (bytes_of k) → Forall digit_char ds → without comma (bytes_of k ++ ds)) as Hc.
  { intros k ds Hk Hds. apply Forall_app. split; [done|]. by apply digits_without. }
  rewrite !split_on_app by (apply Hc; [by apply (bool_decide_unpack _)|done]).
  rewrite split_on_none by (apply Hc; [by apply (bool_decide_unpack _)|done]).
  rewrite !(parse_param_ok _ _ _ Hpm), !(parse_param_ok _ _ _ Hpt), !(parse_param_ok _ _ _ Hpp).
  cbn [mbind option_bind]. rewrite !base64_decode_encode by done. done.
Qed.

(** ** Comparison of digests *)

Lemma diff_fold_zero zs acc :
  foldl (λ (diff : Z) (xy : Z * Z), Z.lor diff (Z.lxor xy.1 xy.2)) acc zs = 0 ↔ acc = 0 ∧ Forall (λ xy, xy.1 = xy.2) zs.
Proof.
  revert acc. induction zs as [|[x y] zs IH]; intros acc; cbn [foldl]; [split; [by split | by intros []]|].
  rewrite IH, Z.lor_eq_0_iff, Z.lxor_eq_0_iff, Forall_cons. cbn. tauto.
Qed.

Lemma digests_eq_ok a b : constant_time_eq a b = bool_decide (a = b).
Proof.
  unfold constant_time_eq. destruct (Nat.eqb_spec (length a) (length b)) as [Hl|Hl]; cbn [negb]; cycle 1.
  { symmetry. apply bool_decide_eq_false. by intros ->. }
  apply eq_bool_prop_intro. rewrite Is_true_true, Z.eqb_eq, diff_fold_zero. rewrite bool_decide_spec.
  revert b Hl. induction a as [|x a IH]; intros [|y b] Hl; try done. cbn [zip zip_with]. rewrite Forall_cons.
  injection Hl as Hl. specialize (IH b Hl). split.
  - intros (_ & Hxy & Hr). cbn in Hxy. subst. f_equal. by apply IH.
  - intros [= -> ->]. split_and!; [done|done|]. by apply IH.
Qed.

(** ** Parameters the memory layout cannot hold *)

Lemma for_range_first_panics {T} (body : Z → T → outcome T) n s msg :
  (0 < n)%nat → body 0 s = Panic msg → for_range n 0 body s = Panic msg.
Proof. destruct n as [|n]; [lia|]. intros _ H. cbn [for_range]. by rewrite H. Qed.

(** With no lane there is a division by zero; with less than one block per
    segment the memory is empty and the first block cannot be stored. *)
Lemma argon2id_raw_no_lane password salt m t : argon2id_raw password salt m t 0 = Panic "attempt to divide by zero".
Proof. unfold argon2id_raw, compute_h0. cbv zeta. by rewrite blake2b_512_ok, bind_Done. Qed.

Lemma argon2id_raw_no_memory password salt m t p :
  0 ≤ m → 0 < p < 2 ^ 32 → m < 4 * p → argon2id_raw password salt m t p = Panic "index out of bounds".
Proof.
  intros Hm Hp Hmp. unfold argon2id_raw, compute_h0. cbv zeta. rewrite blake2b_512_ok, bind_Done.
  match goal with |- context [Rfc7693.BLAKE2b 64 [] ?x] => pose proof (length_BLAKE2b 64 [] x ltac:(lia)) as Hh0;
    generalize dependent (Rfc7693.BLAKE2b 64 [] x) end. intros h0 Hh0.
  assert (W64 = 2 ^ 64) as HW by done. rewrite (u64_small (4 * p)) by lia.
  rewrite (proj2 (Z.eqb_neq (4 * p) 0)), bind_Done by lia. rewrite (Z.div_small m) by lia.
  change (u64 (0 * (4 * p))) with 0. change (Z.to_nat 0) with 0%nat.
  rewrite (for_range_first_panics _ _ _ "index out of bounds"); [done|lia|].
  destruct (h_prime_1024_done h0 0 (u32 0) Hh0) as (b0 & -> & _). rewrite bind_Done.
  destruct (h_prime_1024_done h0 1 (u32 0) Hh0) as (b1 & -> & _). by rewrite bind_Done.
Qed.

Lemma parse_digits_range s acc v : 0 ≤ acc < 2 ^ 32 → parse_digits s acc = Some v → 0 ≤ v < 2 ^ 32.
Proof.
  revert acc. induction s as [|b s IH]; intros acc Ha; cbn [parse_digits]; [by intros [= ->]|].
  destruct (Z.ltb_spec b 48); [done|]. destruct (Z.ltb_spec 57 b); [done|]. cbn [orb]. unfold checked32.
  destruct (Z.ltb_spec (acc * 10) (2 ^ 32)); [|done]. cbn [mbind option_bind].
  destruct (Z.ltb_spec (acc * 10 + (b - 48)) (2 ^ 32)); [|done]. apply IH. lia.
Qed.

Lemma parse_param_range s prefix v : parse_param s prefix = Some v → 0 ≤ v < 2 ^ 32.
Proof.
  unfold parse_param. destruct (str_strip_prefix s prefix) as [[|b val]|]; [done| |done].
  apply (parse_digits_range (b :: val) 0). lia.
Qed.

Lemma decode_phc_range phc salt hash m t p :
  decode_phc phc = Ok (salt, hash, m, t, p) → 0 ≤ m < 2 ^ 32 ∧ 0 ≤ t < 2 ^ 32 ∧ 0 ≤ p < 2 ^ 32.
Proof.
  unfold decode_phc. destruct (split_on dollar phc) as [|p0 [|p1 [|p2 [|p3 [|p4 [|p5 [|]]]]]]]; try done.
  destruct (_ || _); [done|]. destruct (negb _); [done|].
  destruct (split_on comma p3) as [|q0 [|q1 [|q2 [|]]]]; try done.
  destruct (parse_param q0 _) as [m'|] eqn:Em; [cbn [mbind option_bind]|done].
  destruct (parse_param q1 _) as [t'|] eqn:Et; [cbn [mbind option_bind]|done].
  destruct (parse_param q2 _) as [p'|] eqn:Ep; [cbn [mbind option_bind]|done].
  destruct (base64_decode p4); [cbn [mbind option_bind]|done]. destruct (base64_decode p5); [|done].
  intros [= -> -> -> -> ->]. split_and!; by eapply parse_param_range.
Qed.

(** ** What the entry points promise *)

(** The documented checks, in the documented order. *)
Definition documented_errors (password salt : list Z) (m t p : Z) : list (bool * Argon2Error) :=
  [(bool_decide (password = []), PasswordEmpty); (bool_decide (length salt < 8)%nat, SaltTooShort);
   (t =? 0, TimeCostZero); (p =? 0, ParallelismZero); (m <? 8 * p, MemoryCostTooLow)].

Definition first_error (password salt : list Z) (m t p : Z) : option Argon2Error :=
  snd <$> head (filter (λ be : bool * Argon2Error, be.1) (documented_errors password salt m t p)).

Lemma validate_params_ok password salt m t p : 0 ≤ p < 2 ^ 29 →
  validate_params password salt m t p = match first_error password salt m t p with Some e => Err e | None => Ok () end.
Proof.
  intros Hp. unfold validate_params, first_error, documented_errors, u32. rewrite (Z.mod_small (8 * p)) by lia.
  replace (Z.of_nat (length salt) <? 8) with (bool_decide (length salt < 8)%nat)
    by (destruct (Z.ltb_spec (Z.of_nat (length salt)) 8); [apply bool_decide_eq_true | apply bool_decide_eq_false]; lia).
  destruct password; cbn [length Nat.eqb]; [by rewrite (bool_decide_eq_true_2 ([] = []))|]. rewrite (bool_decide_eq_false_2 (_ = [])) by done.
  destruct (bool_decide _); [done|]. destruct (t =? 0); [done|]. destruct (p =? 0); [done|]. by destruct (m <? 8 * p).
Qed.

Lemma no_error_params password salt m t p :
  first_error password salt m t p = None → 0 ≤ m < 2 ^ 32 → 0 ≤ t < 2 ^ 32 → 0 ≤ p → params_ok m t p.
Proof.
  unfold first_error, documented_errors. intros H Hm Ht Hp.
  destruct (bool_decide _); [done|]. destruct (bool_decide _); [done|].
  destruct (Z.eqb_spec t 0); [done|]. destruct (Z.eqb_spec p 0); [done|]. destruct (Z.ltb_spec m (8 * p)); [done|].
  split_and!; lia.
Qed.

(** C33. Hashing and verifying a password.  For a salt of bytes and [u32] costs with
    fewer than [2^29] lanes (from there on [8 * parallelism] overflows in the check
    and the computation panics, [unchecked_costs_panic]), [hash_password_with_params] always returns: the first documented error
    when a check fails, and otherwise a PHC record that decodes to the salt, the
    costs and a 32-byte digest.  [verify_password] accepts the record for the same
    password, and for any password [other] it returns: acceptance when the digest
    of [other] under that salt and those costs is the stored one, [PasswordMismatch]
    when it is not. *)
Theorem password_roundtrip (password salt : list Z) (m t p : Z) :
  Forall byte_ok salt → 0 ≤ m < 2 ^ 32 → 0 ≤ t < 2 ^ 32 → 0 ≤ p < 2 ^ 29 →
  match first_error password salt m t p with
  | Some e => hash_password_with_params password salt m t p = Done (Err e)
  | None => ∃ phc digest,
      hash_password_with_params password salt m t p = Done (Ok phc) ∧ length digest = 32%nat ∧
      decode_phc phc = Ok (salt, digest, m, t, p) ∧ argon2id_raw password salt m t p = Done digest ∧
      verify_password password phc = Done (Ok ()) ∧
      ∀ other, ∃ d, argon2id_raw other salt m t p = Done d ∧
        verify_password other phc = Done (if decide (d = digest) then Ok () else Err PasswordMismatch)
  end.
Proof.
  intros Hs Hm Ht Hp. unfold hash_password_with_params. rewrite validate_params_ok by done.
  destruct (first_error password salt m t p) as [e|] eqn:He; [done|].
  pose proof (no_error_params _ _ _ _ _ He Hm Ht ltac:(lia)) as Hpar.
  destruct (argon2id_raw_done password salt m t p Hpar) as (digest & Hd & Hl & Hb). rewrite Hd, bind_Done.
  destruct (encode_phc_ok salt digest m t p Hs Hb Hm Ht ltac:(lia)) as (phc & -> & Hdec). rewrite bind_Done.
  assert (∀ other, ∃ d, argon2id_raw other salt m t p = Done d ∧
    verify_password other phc = Done (if decide (d = digest) then Ok () else Err PasswordMismatch)) as Hv.
  { intros other. destruct (argon2id_raw_done other salt m t p Hpar) as (d & Hd' & _). exists d. split; [done|].
    unfold verify_password. rewrite Hdec, Hd', bind_Done, digests_eq_ok.
    destruct (decide (d = digest)) as [He'|He']; [by rewrite bool_decide_eq_true_2 | by rewrite bool_decide_eq_false_2]. }
  exists phc, digest. split_and!; try done. destruct (Hv password) as (d & Hd' & ->). rewrite Hd' in Hd. injection Hd as ->.
  by rewrite decide_True.
Qed.

Lemma password_roundtrip_witness :
  ∃ phc, hash_password_with_params [112; 119] [1; 2; 3; 4; 5; 6; 7; 8] 32 3 4 = Done (Ok phc) ∧
    verify_password [112; 119] phc = Done (Ok ()).
Proof.
  destruct (password_roundtrip [112; 119] [1; 2; 3; 4; 5; 6; 7; 8] 32 3 4) as (phc & _ & Hh & _ & _ & _ & Hv & _);
    [by apply (bool_decide_unpack _)|lia|lia|lia|].
  exists phc. by split.
Defined.

(** No lane, or less than four blocks for each. *)
Definition no_layout (m p : Z) : Prop := m < 4 * p ∨ p = 0.

(** Parameters that reach the memory layout unchecked.  [verify_password] does
    not validate the costs of the record: a record with no lanes makes the kernel
    divide by zero, one with less than four blocks per lane makes it index an
    empty memory, for every password.  And [8 * p_cost] in [validate_params] is
    computed in 32 bits: with [2^29] lanes it is zero, every memory cost passes the
    check, and [hash_password_with_params] panics instead of returning
    [MemoryCostTooLow]. *)
Theorem unchecked_costs_panic (password phc salt hash : list Z) (m t p : Z) :
  decode_phc phc = Ok (salt, hash, m, t, p) → no_layout m p →
  verify_password password phc = Panic (if p =? 0 then "attempt to divide by zero" else "index out of bounds") ∧
  (password ≠ [] → (8 ≤ length salt)%nat → 0 < t → m < 2 ^ 31 →
   hash_password_with_params password salt m t (2 ^ 29) = Panic "index out of bounds").
Proof.
  unfold no_layout. intros Hd Hp. destruct (decode_phc_range _ _ _ _ _ _ Hd) as (Hm & Ht & Hpr). split.
  - unfold verify_password. rewrite Hd. destruct (Z.eqb_spec p 0) as [->|Hne]; [by rewrite argon2id_raw_no_lane|].
    rewrite argon2id_raw_no_memory by lia. done.
  - intros Hpw Hs Ht0 Hm31. unfold hash_password_with_params, validate_params.
    rewrite (proj2 (Nat.eqb_neq _ _)) by (by destruct password). rewrite (proj2 (Z.ltb_ge _ 8)) by lia.
    rewrite (proj2 (Z.eqb_neq t 0)) by lia. change (2 ^ 29 =? 0) with false. change (u32 (8 * 2 ^ 29)) with 0.
    rewrite (proj2 (Z.ltb_ge m 0)) by lia. cbv iota. by rewrite argon2id_raw_no_memory by lia.
Qed.

Lemma unchecked_costs_panic_witness :
  verify_password [112] (bytes_of "$argon2id$v=19$m=3,t=1,p=1$AAAAAAAAAAA$AAAA") = Panic "index out of bounds" ∧
  verify_password [112] (bytes_of "$argon2id$v=19$m=8,t=1,p=0$AAAAAAAAAAA$AAAA") = Panic "attempt to divide by zero" ∧
  hash_password_with_params [112] (replicate 8 0) 3 1 (2 ^ 29) = Panic "index out of bounds".
Proof.
  pose proof (unchecked_costs_panic [112] (bytes_of "$argon2id$v=19$m=3,t=1,p=1$AAAAAAAAAAA$AAAA")
    (replicate 8 0) (replicate 3 0) 3 1 1 ltac:(vm_compute; reflexivity) ltac:(unfold no_layout; lia)) as [H1 H3].
  pose proof (unchecked_costs_panic [112] (bytes_of "$argon2id$v=19$m=8,t=1,p=0$AAAAAAAAAAA$AAAA")
    (replicate 8 0) (replicate 3 0) 8 1 0 ltac:(vm_compute; reflexivity) ltac:(unfold no_layout; lia)) as [H2 _].
  split; [exact H1|]. split; [exact H2|]. apply H3; [discriminate|rewrite length_replicate; lia|lia|lia].
Defined.
