(* ===== verification/Aes.v ===== *)
(** * Aes.v: the AES-256 block cipher

    [src/crap_os/src/crypto/cipher/aes/aes.rs]: the tables, the key schedule
    and the encryption of one block, in place, on arrays.  The module [Fips197]
    states the cipher over GF(2^8) on a four by four state, with the
    substitution computed from the field inverse, and the inverse cipher. *)

From S2P Require Import Prelude Bytes.

Local Open Scope Z_scope.

Definition AES256_ROUNDS : Z := 14.
Definition AES256_ROUND_KEYS : Z := AES256_ROUNDS + 1.
Definition BLOCK_SIZE : Z := 16.
Definition KEY256_SIZE : Z := 32.

Definition SBOX : list Z :=
  [ 0x63; 0x7c; 0x77; 0x7b; 0xf2; 0x6b; 0x6f; 0xc5;
    0x30; 0x01; 0x67; 0x2b; 0xfe; 0xd7; 0xab; 0x76;
    0xca; 0x82; 0xc9; 0x7d; 0xfa; 0x59; 0x47; 0xf0;
    0xad; 0xd4; 0xa2; 0xaf; 0x9c; 0xa4; 0x72; 0xc0;
    0xb7; 0xfd; 0x93; 0x26; 0x36; 0x3f; 0xf7; 0xcc;
    0x34; 0xa5; 0xe5; 0xf1; 0x71; 0xd8; 0x31; 0x15;
    0x04; 0xc7; 0x23; 0xc3; 0x18; 0x96; 0x05; 0x9a;
    0x07; 0x12; 0x80; 0xe2; 0xeb; 0x27; 0xb2; 0x75;
    0x09; 0x83; 0x2c; 0x1a; 0x1b; 0x6e; 0x5a; 0xa0;
    0x52; 0x3b; 0xd6; 0xb3; 0x29; 0xe3; 0x2f; 0x84;
    0x53; 0xd1; 0x00; 0xed; 0x20; 0xfc; 0xb1; 0x5b;
    0x6a; 0xcb; 0xbe; 0x39; 0x4a; 0x4c; 0x58; 0xcf;
    0xd0; 0xef; 0xaa; 0xfb; 0x43; 0x4d; 0x33; 0x85;
    0x45; 0xf9; 0x02; 0x7f; 0x50; 0x3c; 0x9f; 0xa8;
    0x51; 0xa3; 0x40; 0x8f; 0x92; 0x9d; 0x38; 0xf5;
    0xbc; 0xb6; 0xda; 0x21; 0x10; 0xff; 0xf3; 0xd2;
    0xcd; 0x0c; 0x13; 0xec; 0x5f; 0x97; 0x44; 0x17;
    0xc4; 0xa7; 0x7e; 0x3d; 0x64; 0x5d; 0x19; 0x73;
    0x60; 0x81; 0x4f; 0xdc; 0x22; 0x2a; 0x90; 0x88;
    0x46; 0xee; 0xb8; 0x14; 0xde; 0x5e; 0x0b; 0xdb;
    0xe0; 0x32; 0x3a; 0x0a; 0x49; 0x06; 0x24; 0x5c;
    0xc2; 0xd3; 0xac; 0x62; 0x91; 0x95; 0xe4; 0x79;
    0xe7; 0xc8; 0x37; 0x6d; 0x8d; 0xd5; 0x4e; 0xa9;
    0x6c; 0x56; 0xf4; 0xea; 0x65; 0x7a; 0xae; 0x08;
    0xba; 0x78; 0x25; 0x2e; 0x1c; 0xa6; 0xb4; 0xc6;
    0xe8; 0xdd; 0x74; 0x1f; 0x4b; 0xbd; 0x8b; 0x8a;
    0x70; 0x3e; 0xb5; 0x66; 0x48; 0x03; 0xf6; 0x0e;
    0x61; 0x35; 0x57; 0xb9; 0x86; 0xc1; 0x1d; 0x9e;
    0xe1; 0xf8; 0x98; 0x11; 0x69; 0xd9; 0x8e; 0x94;
    0x9b; 0x1e; 0x87; 0xe9; 0xce; 0x55; 0x28; 0xdf;
    0x8c; 0xa1; 0x89; 0x0d; 0xbf; 0xe6; 0x42; 0x68;
    0x41; 0x99; 0x2d; 0x0f; 0xb0; 0x54; 0xbb; 0x16 ].

Definition INV_SBOX : list Z :=
  [ 0x52; 0x09; 0x6a; 0xd5; 0x30; 0x36; 0xa5; 0x38;
    0xbf; 0x40; 0xa3; 0x9e; 0x81; 0xf3; 0xd7; 0xfb;
    0x7c; 0xe3; 0x39; 0x82; 0x9b; 0x2f; 0xff; 0x87;
    0x34; 0x8e; 0x43; 0x44; 0xc4; 0xde; 0xe9; 0xcb;
    0x54; 0x7b; 0x94; 0x32; 0xa6; 0xc2; 0x23; 0x3d;
    0xee; 0x4c; 0x95; 0x0b; 0x42; 0xfa; 0xc3; 0x4e;
    0x08; 0x2e; 0xa1; 0x66; 0x28; 0xd9; 0x24; 0xb2;
    0x76; 0x5b; 0xa2; 0x49; 0x6d; 0x8b; 0xd1; 0x25;
    0x72; 0xf8; 0xf6; 0x64; 0x86; 0x68; 0x98; 0x16;
    0xd4; 0xa4; 0x5c; 0xcc; 0x5d; 0x65; 0xb6; 0x92;
    0x6c; 0x70; 0x48; 0x50; 0xfd; 0xed; 0xb9; 0xda;
    0x5e; 0x15; 0x46; 0x57; 0xa7; 0x8d; 0x9d; 0x84;
    0x90; 0xd8; 0xab; 0x00; 0x8c; 0xbc; 0xd3; 0x0a;
    0xf7; 0xe4; 0x58; 0x05; 0xb8; 0xb3; 0x45; 0x06;
    0xd0; 0x2c; 0x1e; 0x8f; 0xca; 0x3f; 0x0f; 0x02;
    0xc1; 0xaf; 0xbd; 0x03; 0x01; 0x13; 0x8a; 0x6b;
    0x3a; 0x91; 0x11; 0x41; 0x4f; 0x67; 0xdc; 0xea;
    0x97; 0xf2; 0xcf; 0xce; 0xf0; 0xb4; 0xe6; 0x73;
    0x96; 0xac; 0x74; 0x22; 0xe7; 0xad; 0x35; 0x85;
    0xe2; 0xf9; 0x37; 0xe8; 0x1c; 0x75; 0xdf; 0x6e;
    0x47; 0xf1; 0x1a; 0x71; 0x1d; 0x29; 0xc5; 0x89;
    0x6f; 0xb7; 0x62; 0x0e; 0xaa; 0x18; 0xbe; 0x1b;
    0xfc; 0x56; 0x3e; 0x4b; 0xc6; 0xd2; 0x79; 0x20;
    0x9a; 0xdb; 0xc0; 0xfe; 0x78; 0xcd; 0x5a; 0xf4;
    0x1f; 0xdd; 0xa8; 0x33; 0x88; 0x07; 0xc7; 0x31;
    0xb1; 0x12; 0x10; 0x59; 0x27; 0x80; 0xec; 0x5f;
    0x60; 0x51; 0x7f; 0xa9; 0x19; 0xb5; 0x4a; 0x0d;
    0x2d; 0xe5; 0x7a; 0x9f; 0x93; 0xc9; 0x9c; 0xef;
    0xa0; 0xe0; 0x3b; 0x4d; 0xae; 0x2a; 0xf5; 0xb0;
    0xc8; 0xeb; 0xbb; 0x3c; 0x83; 0x53; 0x99; 0x61;
    0x17; 0x2b; 0x04; 0x7e; 0xba; 0x77; 0xd6; 0x26;
    0xe1; 0x69; 0x14; 0x63; 0x55; 0x21; 0x0c; 0x7d ].

Definition RCON : list Z :=
  [ 0x01; 0x02; 0x04; 0x08; 0x10;
    0x20; 0x40; 0x80; 0x1b; 0x36 ].

(** ** Operations *)

Definition gmul2 (x : Z) : Z :=
  let hi := Z.shiftr x 7 in
  Z.lxor (u8 (Z.shiftl x 1)) (u8 (hi * 0x1b)).

Definition gmul3 (x : Z) : Z := Z.lxor (gmul2 x) x.

Definition KeySchedule : Type := list Z.

(** [[SBOX[temp[0]], .., SBOX[temp[3]]]] *)
Definition sub_word (temp : list Z) : outcome (list Z) := mapM (slot_get SBOX) temp.

(** [temp] for word [i]: the previous word, rotated and substituted where the
    schedule says so. *)
Definition schedule_temp (i : Z) (prev_word : list Z) : outcome (list Z) :=
  if i mod 8 =? 0 then
    t0 ← slot_get prev_word 0; t1 ← slot_get prev_word 1;
    t2 ← slot_get prev_word 2; t3 ← slot_get prev_word 3;
    temp ← sub_word [t1; t2; t3; t0];
    rc ← slot_get RCON (i / 8 - 1);
    x ← slot_get temp 0;
    slot_set temp 0 (Z.lxor x rc)
  else if i mod 8 =? 4 then sub_word prev_word
  else Done prev_word.

(** [rk[base + k] = rk[prev_base + k] ^ temp[k]] *)
Definition schedule_byte (prev_base base : Z) (temp : list Z) (k : Z) (rk : list Z) : outcome (list Z) :=
  p ← slot_get rk (prev_base + k);
  t ← slot_get temp k;
  slot_set rk (base + k) (Z.lxor p t).

Definition KeySchedule_new (key : list Z) : outcome KeySchedule :=
  rk ← copy_at (replicate 240 0) 0 key;
  for_range 52 8 (λ i rk,
    prev_word ← slice rk ((i - 1) * 4) ((i - 1) * 4 + 4);
    temp ← schedule_temp i prev_word;
    let base := i * 4 in
    let prev_base := (i - 8) * 4 in
    rk ← schedule_byte prev_base base temp 0 rk;
    rk ← schedule_byte prev_base base temp 1 rk;
    rk ← schedule_byte prev_base base temp 2 rk;
    schedule_byte prev_base base temp 3 rk) rk.

Definition round_key (schedule : KeySchedule) (r : Z) : outcome (list Z) :=
  slice schedule (r * BLOCK_SIZE) ((r + 1) * BLOCK_SIZE).

Definition sub_bytes (state : list Z) : outcome (list Z) := mapM (slot_get SBOX) state.

(** [state[i] = state[j]] and [state.swap(i, j)] *)
Definition move_byte (state : list Z) (i j : Z) : outcome (list Z) :=
  x ← slot_get state j; slot_set state i x.
Definition swap (state : list Z) (i j : Z) : outcome (list Z) :=
  x ← slot_get state i; y ← slot_get state j;
  state ← slot_set state i y; slot_set state j x.

Definition shift_rows (state : list Z) : outcome (list Z) :=
  tmp ← slot_get state 1;
  state ← move_byte state 1 5;
  state ← move_byte state 5 9;
  state ← move_byte state 9 13;
  state ← slot_set state 13 tmp;
  state ← swap state 2 10;
  state ← swap state 6 14;
  tmp ← slot_get state 15;
  state ← move_byte state 15 11;
  state ← move_byte state 11 7;
  state ← move_byte state 7 3;
  slot_set state 3 tmp.

Definition mix_columns (state : list Z) : outcome (list Z) :=
  for_range 4 0 (λ col state,
    let base := col * 4 in
    s0 ← slot_get state base;
    s1 ← slot_get state (base + 1);
    s2 ← slot_get state (base + 2);
    s3 ← slot_get state (base + 3);
    state ← slot_set state base (u8 (Z.lxor (Z.lxor (Z.lxor (gmul2 s0) (gmul3 s1)) s2) s3));
    state ← slot_set state (base + 1) (u8 (Z.lxor (Z.lxor (Z.lxor s0 (gmul2 s1)) (gmul3 s2)) s3));
    state ← slot_set state (base + 2) (u8 (Z.lxor (Z.lxor (Z.lxor s0 s1) (gmul2 s2)) (gmul3 s3)));
    slot_set state (base + 3) (u8 (Z.lxor (Z.lxor (Z.lxor (gmul3 s0) s1) s2) (gmul2 s3)))) state.

Definition add_round_key (state round_key : list Z) : outcome (list Z) :=
  for_range 16 0 (λ i state,
    s ← slot_get state i;
    k ← slot_get round_key i;
    slot_set state i (Z.lxor s k)) state.

Definition aes256_encrypt_block (block : list Z) (schedule : KeySchedule) : outcome (list Z) :=
  k ← round_key schedule 0;
  block ← add_round_key block k;
  block ← for_range 13 1 (λ r block,
    block ← sub_bytes block;
    block ← shift_rows block;
    block ← mix_columns block;
    k ← round_key schedule r;
    add_round_key block k) block;
  block ← sub_bytes block;
  block ← shift_rows block;
  k ← round_key schedule AES256_ROUNDS;
  add_round_key block k.

(** FIPS 197, appendix C.3. *)
Example aes_vector :
  (ks ← KeySchedule_new (Z.of_nat <$> seq 0 32);
   aes256_encrypt_block (be_bytes 16 0x00112233445566778899aabbccddeeff) ks) =
  Done (be_bytes 16 0x8ea2b7ca516745bfeafc49904b496089).
Proof. vm_compute. reflexivity. Qed.

(** ** The standard *)

Module Fips197.

(** 4.2: multiplication in GF(2^8) modulo x^8 + x^4 + x^3 + x + 1. *)
Definition xtime (b : Z) : Z := let r := 2 * b in if Z.testbit r 8 then Z.lxor r 0x11b else r.
Definition mul (a b : Z) : Z :=
  foldr (λ i acc, Z.lxor (if Z.testbit a (Z.of_nat i) then Nat.iter i xtime b else 0) acc) 0 (seq 0 8).

(** 5.1.1: the multiplicative inverse (the power 254), then the affine map. *)
Definition inverse (b : Z) : Z := Nat.iter 253 (mul b) b.
Definition affine (b : Z) : Z :=
  foldr (λ i acc, acc +
    (if xorb (xorb (xorb (xorb (xorb (Z.testbit b i) (Z.testbit b ((i + 4) mod 8))) (Z.testbit b ((i + 5) mod 8)))
       (Z.testbit b ((i + 6) mod 8))) (Z.testbit b ((i + 7) mod 8))) (Z.testbit 0x63 i) then 2 ^ i else 0))
    0 (Z.of_nat <$> seq 0 8).
Definition SubByte (b : Z) : Z := affine (inverse b).

(** 3.4: the state, four rows and four columns, stored column by column. *)
Definition cell (s : list Z) (r c : nat) : Z := nth (4 * c + r) s 0.
Definition build (f : nat → nat → Z) : list Z := (λ i, f (i mod 4) (i / 4))%nat <$> seq 0 16.

Definition SubBytes (s : list Z) : list Z := SubByte <$> s.
Definition ShiftRows (s : list Z) : list Z := build (λ r c, cell s r ((c + r) mod 4)).
Definition matrix (row : list Z) (r k : nat) : Z := nth ((k + 4 - r) mod 4) row 0.
Definition MixWith (row s : list Z) : list Z :=
  build (λ r c, Z.lxor (Z.lxor (Z.lxor (mul (matrix row r 0) (cell s 0 c)) (mul (matrix row r 1) (cell s 1 c)))
    (mul (matrix row r 2) (cell s 2 c))) (mul (matrix row r 3) (cell s 3 c))).
Definition MixColumns (s : list Z) : list Z := MixWith [2; 3; 1; 1] s.
Definition AddRoundKey (s k : list Z) : list Z := xor_bytes s k.

(** 5.2: key expansion; [word l i] is the [i]-th word. *)
Definition word (l : list Z) (i : nat) : list Z := take 4 (drop (4 * i) l).
Definition RotWord (w : list Z) : list Z := drop 1 w ++ take 1 w.
Definition Rcon (i : nat) : list Z := [Nat.iter (i - 1) xtime 1; 0; 0; 0].
Definition transform (i : nat) (temp : list Z) : list Z :=
  if (i mod 8 =? 0)%nat then xor_bytes (SubByte <$> RotWord temp) (Rcon (i / 8))
  else if (i mod 8 =? 4)%nat then SubByte <$> temp else temp.
Definition KeyExpansion (key : list Z) : list Z :=
  extend 52 (λ l, let i := (length l / 4)%nat in
    xor_bytes (word l (i - 8)) (transform i (word l (i - 1)))) key.
Definition RoundKey (w : list Z) (r : nat) : list Z := take 16 (drop (16 * r) w).

(** 5.1: the cipher. *)
Definition Round (w s : list Z) (r : nat) : list Z :=
  AddRoundKey (MixColumns (ShiftRows (SubBytes s))) (RoundKey w r).
Definition Cipher (w s : list Z) : list Z :=
  let s := AddRoundKey s (RoundKey w 0) in
  let s := foldl (Round w) s (seq 1 13) in
  AddRoundKey (ShiftRows (SubBytes s)) (RoundKey w 14).

(** 5.3: the inverse cipher, with the code's inverse substitution table. *)
Definition InvSubBytes (s : list Z) : list Z := (λ b, nth (Z.to_nat b) INV_SBOX 0) <$> s.
Definition InvShiftRows (s : list Z) : list Z := build (λ r c, cell s r ((c + 4 - r) mod 4)).
Definition InvMixColumns (s : list Z) : list Z := MixWith [0x0e; 0x0b; 0x0d; 0x09] s.
Definition InvRound (w s : list Z) (r : nat) : list Z :=
  InvSubBytes (InvShiftRows (InvMixColumns (AddRoundKey s (RoundKey w r)))).
Definition InvCipher (w s : list Z) : list Z :=
  let s := InvSubBytes (InvShiftRows (AddRoundKey s (RoundKey w 14))) in
  let s := foldl (InvRound w) s (reverse (seq 1 13)) in
  AddRoundKey s (RoundKey w 0).

End Fips197.

Lemma sbox_table : (λ i, Fips197.SubByte (Z.of_nat i)) <$> seq 0 256 = SBOX.
Proof. vm_compute. reflexivity. Qed.

(** *** Bytes and the field *)

Lemma sub_byte_get b : byte_ok b → slot_get SBOX b = Done (Fips197.SubByte b).
Proof.
  intros Hb. rewrite (table_get _ 256 SBOX b sbox_table) by done. by rewrite Z2Nat.id by (unfold byte_ok in Hb; lia).
Qed.

(** The substitution is a permutation of the bytes, inverted by [INV_SBOX]. *)
Lemma sub_byte_inverse b :
  byte_ok b → byte_ok (Fips197.SubByte b) ∧ nth (Z.to_nat (Fips197.SubByte b)) INV_SBOX 0 = b.
Proof.
  intros Hb. pose proof (sub_byte_get b Hb) as Hs. unfold byte_ok in *. rewrite (slot_get_default 0) in Hs by done.
  injection Hs as <-.
  pose proof (forall_below 256 (λ b, let s := nth (Z.to_nat b) SBOX 0 in
    (0 <=? s) && (s <? 256) && (nth (Z.to_nat s) INV_SBOX 0 =? b)) ltac:(vm_compute; reflexivity) b Hb) as H.
  cbv beta zeta in H. rewrite !andb_true_iff, Z.leb_le, Z.ltb_lt, Z.eqb_eq in H. tauto.
Qed.

Lemma gmul_ok b :
  byte_ok b →
  Fips197.mul 1 b = b ∧ Fips197.mul 2 b = gmul2 b ∧ Fips197.mul 3 b = gmul3 b ∧ byte_ok (gmul2 b) ∧ byte_ok (gmul3 b).
Proof.
  intros Hb. unfold byte_ok in *.
  pose proof (forall_below 256 (λ b, (Fips197.mul 1 b =? b) && (Fips197.mul 2 b =? gmul2 b) && (Fips197.mul 3 b =? gmul3 b) &&
    (0 <=? gmul2 b) && (gmul2 b <? 256) && (0 <=? gmul3 b) && (gmul3 b <? 256)) ltac:(vm_compute; reflexivity) b Hb) as H.
  cbv beta in H. rewrite !andb_true_iff, !Z.leb_le, !Z.ltb_lt, !Z.eqb_eq in H. tauto.
Qed.

Lemma u8_byte b : byte_ok b → u8 b = b.
Proof. intros Hb. by apply Z.mod_small. Qed.

(** *** The steps agree *)

Lemma sub_bytes_ok s : Forall byte_ok s → sub_bytes s = Done (Fips197.SubBytes s) ∧ Forall byte_ok (Fips197.SubBytes s).
Proof.
  unfold sub_bytes, Fips197.SubBytes. induction 1 as [|b s Hb Hs [IH1 IH2]]; [by split; [|apply Forall_nil]|].
  cbn [mapM]. rewrite sub_byte_get, bind_Done, IH1 by done. split; [done|].
  apply Forall_cons. split; [by apply sub_byte_inverse|done].
Qed.

(** Takes a block apart into its sixteen bytes. *)
Ltac cells s := do 16 (destruct s as [|? s]; [done|]); destruct s; [|done].
Ltac split_forall :=
  repeat match goal with H : Forall _ (_ :: _) |- _ => apply Forall_cons in H as [? ?] end.

Lemma shift_rows_ok s : length s = 16%nat → shift_rows s = Done (Fips197.ShiftRows s).
Proof. intros Hs. cells s. reflexivity. Qed.

Lemma shift_rows_bytes s : length s = 16%nat → Forall byte_ok s → Forall byte_ok (Fips197.ShiftRows s).
Proof. intros Hs Hb. cells s. split_forall. repeat (apply Forall_cons; split; [done|]). by apply Forall_nil. Qed.

Lemma mix_byte a b c d (f g h k : Z → Z) :
  byte_ok (f a) → byte_ok (g b) → byte_ok (h c) → byte_ok (k d) →
  u8 (Z.lxor (Z.lxor (Z.lxor (f a) (g b)) (h c)) (k d)) = Z.lxor (Z.lxor (Z.lxor (f a) (g b)) (h c)) (k d) ∧
  byte_ok (Z.lxor (Z.lxor (Z.lxor (f a) (g b)) (h c)) (k d)).
Proof. intros. assert (byte_ok (Z.lxor (Z.lxor (Z.lxor (f a) (g b)) (h c)) (k d))) by auto using lxor_byte. auto using u8_byte. Qed.

(** One column of the product. *)
Definition mixed_column (a b c d : Z) : list Z :=
  [ Z.lxor (Z.lxor (Z.lxor (gmul2 a) (gmul3 b)) c) d;
    Z.lxor (Z.lxor (Z.lxor a (gmul2 b)) (gmul3 c)) d;
    Z.lxor (Z.lxor (Z.lxor a b) (gmul2 c)) (gmul3 d);
    Z.lxor (Z.lxor (Z.lxor (gmul3 a) b) c) (gmul2 d) ].

Lemma mixed_column_ok a b c d :
  byte_ok a → byte_ok b → byte_ok c → byte_ok d →
  Forall byte_ok (mixed_column a b c d) ∧ u8 <$> mixed_column a b c d = mixed_column a b c d.
Proof.
  intros Ha Hb Hc Hd. destruct (gmul_ok a Ha) as (_ & _ & _ & ? & ?), (gmul_ok b Hb) as (_ & _ & _ & ? & ?),
    (gmul_ok c Hc) as (_ & _ & _ & ? & ?), (gmul_ok d Hd) as (_ & _ & _ & ? & ?).
  assert (HF : Forall byte_ok (mixed_column a b c d)).
  { unfold mixed_column. repeat (apply Forall_cons; split; [auto 6 using lxor_byte|]). by apply Forall_nil. }
  split; [done|]. unfold mixed_column in *. split_forall. cbn [fmap list_fmap]. by rewrite !u8_byte.
Qed.

Lemma cell_byte s r c : length s = 16%nat → Forall byte_ok s → (r < 4)%nat → (c < 4)%nat → byte_ok (Fips197.cell s r c).
Proof.
  intros Hs Hb Hr Hc. unfold Fips197.cell. destruct (lookup_lt_is_Some_2 s (4 * c + r)) as [x Hx]; [lia|].
  rewrite (nth_lookup_Some _ _ _ _ Hx). by eapply Forall_lookup_1 in Hx.
Qed.

Definition column_of (s : list Z) (c : nat) : list Z :=
  mixed_column (Fips197.cell s 0 c) (Fips197.cell s 1 c) (Fips197.cell s 2 c) (Fips197.cell s 3 c).

Lemma column_of_ok s c :
  length s = 16%nat → Forall byte_ok s → (c < 4)%nat →
  Forall byte_ok (column_of s c) ∧ u8 <$> column_of s c = column_of s c.
Proof. intros Hs Hb Hc. apply mixed_column_ok; apply cell_byte; done || lia. Qed.

Lemma MixColumns_columns s :
  length s = 16%nat → Forall byte_ok s → Fips197.MixColumns s = seq 0 4 ≫= column_of s.
Proof.
  intros Hs Hb. cells s. split_forall. cbv -[Z.lxor Fips197.mul gmul2 gmul3].
  repeat match goal with H : byte_ok ?b |- _ =>
    let H1 := fresh in let H2 := fresh in let H3 := fresh in
    destruct (gmul_ok b H) as (H1 & H2 & H3 & _); rewrite ?H1, ?H2, ?H3; clear H H1 H2 H3 end.
  reflexivity.
Qed.

Lemma mix_columns_ok s :
  length s = 16%nat → Forall byte_ok s →
  mix_columns s = Done (Fips197.MixColumns s) ∧ Forall byte_ok (Fips197.MixColumns s).
Proof.
  intros Hs Hb. rewrite MixColumns_columns by done.
  assert (Hcode : mix_columns s = Done (seq 0 4 ≫= λ c, u8 <$> column_of s c)).
  { clear Hb. cells s. cbv -[Z.lxor gmul2 gmul3 u8]. reflexivity. }
  rewrite Hcode. cbn [seq mbind list_bind].
  destruct (column_of_ok s 0 Hs Hb) as [? ->]; [lia|]. destruct (column_of_ok s 1 Hs Hb) as [? ->]; [lia|].
  destruct (column_of_ok s 2 Hs Hb) as [? ->]; [lia|]. destruct (column_of_ok s 3 Hs Hb) as [? ->]; [lia|].
  split; [done|]. rewrite !Forall_app. by rewrite Forall_nil.
Qed.

Lemma add_round_key_ok s k :
  length s = 16%nat → length k = 16%nat → add_round_key s k = Done (Fips197.AddRoundKey s k).
Proof. intros Hs Hk. cells s. cells k. cbv -[Z.lxor]. reflexivity. Qed.

(** *** Key expansion *)

Lemma word_nth l i :
  (4 * i + 4 ≤ length l)%nat →
  Fips197.word l i = [nth (4 * i) l 0; nth (4 * i + 1) l 0; nth (4 * i + 2) l 0; nth (4 * i + 3) l 0].
Proof.
  intros Hl. unfold Fips197.word.
  assert (Hd : ∀ j, (j < 4)%nat → nth (4 * i + j) l 0 = nth j (drop (4 * i) l) 0).
  { intros j Hj. rewrite nth_skipn. done. }
  pose proof (Hd 0%nat ltac:(lia)) as H0. rewrite Nat.add_0_r in H0. rewrite H0, !Hd by lia.
  assert (Hlen : (4 ≤ length (drop (4 * i) l))%nat) by (rewrite length_drop; lia).
  destruct (drop (4 * i) l) as [|a [|b [|c [|d r]]]]; cbn in Hlen; done || lia.
Qed.

Lemma word_bytes l i : Forall byte_ok l → Forall byte_ok (Fips197.word l i).
Proof. intros Hl. by apply Forall_take, Forall_drop. Qed.

Lemma sub_word_ok l : Forall byte_ok l → sub_word l = Done (Fips197.SubByte <$> l) ∧ Forall byte_ok (Fips197.SubByte <$> l).
Proof. apply sub_bytes_ok. Qed.

Lemma rcon_get i : 0 ≤ i < 10 → slot_get RCON i = Done (Nat.iter (Z.to_nat i) Fips197.xtime 1) ∧
  byte_ok (Nat.iter (Z.to_nat i) Fips197.xtime 1).
Proof.
  intros Hi. split.
  - by apply (table_get (λ i, Nat.iter i Fips197.xtime 1) 10).
  - assert (Ht : forallb (λ i, bool_decide (byte_ok (Nat.iter (Z.to_nat (Z.of_nat i)) Fips197.xtime 1))) (seq 0 10) = true)
      by (vm_compute; reflexivity).
    apply (bool_decide_eq_true_1 _). exact (forall_below 10 (λ i, bool_decide (byte_ok (Nat.iter (Z.to_nat i) Fips197.xtime 1))) Ht i Hi).
Qed.

Lemma schedule_temp_ok i a b c d :
  8 ≤ i < 60 → Forall byte_ok [a; b; c; d] →
  schedule_temp i [a; b; c; d] = Done (Fips197.transform (Z.to_nat i) [a; b; c; d]) ∧
  length (Fips197.transform (Z.to_nat i) [a; b; c; d]) = 4%nat ∧
  Forall byte_ok (Fips197.transform (Z.to_nat i) [a; b; c; d]).
Proof.
  intros Hi Hb. unfold schedule_temp, Fips197.transform.
  assert (Hm : ∀ k, (Z.to_nat i mod 8 =? k)%nat = (i mod 8 =? Z.of_nat k)).
  { intros k. replace (i mod 8) with (Z.of_nat (Z.to_nat i mod 8)) by (rewrite Nat2Z.inj_mod, Z2Nat.id by lia; done).
    destruct (Nat.eqb_spec (Z.to_nat i mod 8) k), (Z.eqb_spec (Z.of_nat (Z.to_nat i mod 8)) (Z.of_nat k)); lia || done. }
  rewrite !Hm. change (Z.of_nat 0) with 0. change (Z.of_nat 4) with 4. destruct (Z.eqb_spec (i mod 8) 0) as [H0|H0].
  - assert (Hq : 1 ≤ i / 8 < 8) by (Z.to_euclidean_division_equations; lia).
    assert (Hrot : Forall byte_ok [b; c; d; a]) by (split_forall; auto).
    change (slot_get [a; b; c; d] 0) with (Done a). change (slot_get [a; b; c; d] 1) with (Done b).
    change (slot_get [a; b; c; d] 2) with (Done c). change (slot_get [a; b; c; d] 3) with (Done d). rewrite !bind_Done.
    destruct (sub_word_ok _ Hrot) as [-> Hsub]. rewrite bind_Done. cbn [fmap list_fmap] in *.
    destruct (rcon_get (i / 8 - 1)) as [-> Hrc]; [lia|]. rewrite bind_Done. rewrite slot_get_head, bind_Done, slot_set_head.
    unfold Fips197.Rcon. replace (Z.to_nat i / 8 - 1)%nat with (Z.to_nat (i / 8 - 1)).
    2: { rewrite Z2Nat.inj_sub, Z2Nat.inj_div by lia. done. }
    cbn [Fips197.RotWord drop take app fmap list_fmap xor_bytes zip_with]. rewrite !Z.lxor_0_r. split_and!; [done|done|].
    split_forall. repeat (apply Forall_cons; split; [auto using lxor_byte|]). by apply Forall_nil.
  - destruct (Z.eqb_spec (i mod 8) 4); [|by split_and!].
    destruct (sub_word_ok _ Hb) as [-> Hsub]. by split_and!.
Qed.

Lemma schedule_byte_ok ws acc rest r temp prev base k :
  0 ≤ prev → 0 ≤ k < Z.of_nat (length temp) → base + k = Z.of_nat (length ws + length acc) →
  prev + k < Z.of_nat (length ws) →
  schedule_byte prev base temp k (ws ++ acc ++ r :: rest) =
    Done (ws ++ (acc ++ [Z.lxor (nth (Z.to_nat (prev + k)) ws 0) (nth (Z.to_nat k) temp 0)]) ++ rest).
Proof.
  intros Hp Hk Hb Hlt. unfold schedule_byte. rewrite slot_get_nth, bind_Done by lia.
  rewrite slot_get_nth0, bind_Done by lia. rewrite app_assoc, slot_set_mid by (rewrite length_app; lia).
  by rewrite <- !app_assoc.
Qed.

(** One round of the schedule loop appends the next word. *)
Lemma schedule_word_ok j ws rest :
  8 ≤ j < 60 → Forall byte_ok ws → length ws = (4 * Z.to_nat j)%nat → (4 ≤ length rest)%nat →
  let new := xor_bytes (Fips197.word ws (Z.to_nat j - 8)) (Fips197.transform (Z.to_nat j) (Fips197.word ws (Z.to_nat j - 1))) in
  (prev_word ← slice (ws ++ rest) ((j - 1) * 4) ((j - 1) * 4 + 4);
   temp ← schedule_temp j prev_word;
   rk ← schedule_byte ((j - 8) * 4) (j * 4) temp 0 (ws ++ rest);
   rk ← schedule_byte ((j - 8) * 4) (j * 4) temp 1 rk;
   rk ← schedule_byte ((j - 8) * 4) (j * 4) temp 2 rk;
   schedule_byte ((j - 8) * 4) (j * 4) temp 3 rk) = Done (ws ++ new ++ drop 4 rest) ∧
  length new = 4%nat ∧ Forall byte_ok new.
Proof.
  intros Hj Hb Hw Hr new. rewrite slice_ok, bind_Done by (rewrite ?length_app; lia).
  replace (take (Z.to_nat ((j - 1) * 4 + 4 - (j - 1) * 4)) (drop (Z.to_nat ((j - 1) * 4)) (ws ++ rest)))
    with (Fips197.word ws (Z.to_nat j - 1)).
  2: { unfold Fips197.word. rewrite drop_app_le, take_app_le by (rewrite ?length_drop; lia).
       replace (Z.to_nat ((j - 1) * 4 + 4 - (j - 1) * 4)) with 4%nat by lia. do 2 f_equal. lia. }
  pose proof (word_bytes ws (Z.to_nat j - 1) Hb) as Hpb. pose proof (word_bytes ws (Z.to_nat j - 8) Hb) as Hob.
  unfold new in *. clear new. rewrite (word_nth ws (Z.to_nat j - 8)) in * by lia.
  rewrite (word_nth ws (Z.to_nat j - 1)) in * by lia.
  destruct (schedule_temp_ok j _ _ _ _ Hj Hpb) as (-> & Ht & Htb). rewrite bind_Done.
  generalize dependent (Fips197.transform (Z.to_nat j) [nth (4 * (Z.to_nat j - 1)) ws 0; nth (4 * (Z.to_nat j - 1) + 1) ws 0;
    nth (4 * (Z.to_nat j - 1) + 2) ws 0; nth (4 * (Z.to_nat j - 1) + 3) ws 0]).
  intros temp Ht Htb. destruct temp as [|t0 [|t1 [|t2 [|t3 []]]]]; try done.
  destruct rest as [|r0 [|r1 [|r2 [|r3 rest]]]]; cbn in Hr; try lia.
  split; [|split; [done|by apply xor_bytes_ok]].
  change (ws ++ r0 :: r1 :: r2 :: r3 :: rest) with (ws ++ [] ++ r0 :: r1 :: r2 :: r3 :: rest).
  do 4 (rewrite schedule_byte_ok by (cbn [length app]; lia); rewrite ?bind_Done). norm_index. cbn [app drop].
  cbn [xor_bytes zip_with app nth].
  replace (Z.to_nat ((j - 8) * 4 + 0)) with (4 * (Z.to_nat j - 8))%nat by lia.
  replace (Z.to_nat ((j - 8) * 4 + 1)) with (4 * (Z.to_nat j - 8) + 1)%nat by lia.
  replace (Z.to_nat ((j - 8) * 4 + 2)) with (4 * (Z.to_nat j - 8) + 2)%nat by lia.
  by replace (Z.to_nat ((j - 8) * 4 + 3)) with (4 * (Z.to_nat j - 8) + 3)%nat by lia.
Qed.

Lemma key_schedule_ok key :
  length key = 32%nat → Forall byte_ok key →
  KeySchedule_new key = Done (Fips197.KeyExpansion key) ∧
  length (Fips197.KeyExpansion key) = 240%nat ∧ Forall byte_ok (Fips197.KeyExpansion key).
Proof.
  intros Hk Hb. unfold KeySchedule_new. rewrite (copy_at_app [] (replicate 240 0) key) by (rewrite ?length_replicate; done || lia).
  rewrite bind_Done, Hk, drop_replicate. cbn [app].
  destruct (fill_loop_inv (Forall byte_ok) 4 (λ l, let i := (length l / 4)%nat in
    xor_bytes (Fips197.word l (i - 8)) (Fips197.transform i (Fips197.word l (i - 1))))
    (λ i rk,
      prev_word ← slice rk ((i - 1) * 4) ((i - 1) * 4 + 4);
      temp ← schedule_temp i prev_word;
      rk ← schedule_byte ((i - 8) * 4) (i * 4) temp 0 rk;
      rk ← schedule_byte ((i - 8) * 4) (i * 4) temp 1 rk;
      rk ← schedule_byte ((i - 8) * 4) (i * 4) temp 2 rk;
      schedule_byte ((i - 8) * 4) (i * 4) temp 3 rk) 52 8 key (replicate (240 - 32) 0)) as (He & HP & Hl).
  - lia.
  - done.
  - intros j ws rest Hj Hws Hw Hr. cbv zeta. rewrite Hw, Nat.mul_comm, Nat.div_mul by lia.
    destruct (schedule_word_ok j ws rest) as (H1 & H2 & H3); [lia|done..|].
    split_and!; [exact H1|exact H2|]. by apply Forall_app.
  - rewrite Hk. done.
  - cbn. lia.
  - split_and!; [|exact Hl|exact HP]. rewrite He, (drop_ge (replicate _ _)) by (rewrite length_replicate; lia).
    rewrite app_nil_r. unfold Fips197.KeyExpansion. reflexivity.
Qed.

(** *** The cipher agrees *)

Definition block_ok (s : list Z) : Prop := length s = 16%nat ∧ Forall byte_ok s.
Definition schedule_ok (w : list Z) : Prop := length w = 240%nat ∧ Forall byte_ok w.

Lemma round_key_ok w r :
  schedule_ok w → 0 ≤ r < 15 → round_key w r = Done (Fips197.RoundKey w (Z.to_nat r)) ∧
  block_ok (Fips197.RoundKey w (Z.to_nat r)).
Proof.
  intros [Hw Hb] Hr. unfold round_key, Fips197.RoundKey, BLOCK_SIZE. rewrite slice_ok by lia. split; [|split].
  - replace (Z.to_nat ((r + 1) * 16 - r * 16)) with 16%nat by lia. do 3 f_equal. lia.
  - rewrite length_take, length_drop. lia.
  - by apply Forall_take, Forall_drop.
Qed.

Lemma block_sub s : block_ok s → block_ok (Fips197.SubBytes s).
Proof. intros [Hs Hb]. split; [unfold Fips197.SubBytes; by rewrite length_fmap|]. by apply sub_bytes_ok. Qed.
Lemma block_shift s : block_ok s → block_ok (Fips197.ShiftRows s).
Proof. intros [Hs Hb]. split; [done|]. by apply shift_rows_bytes. Qed.
Lemma block_mix s : block_ok s → block_ok (Fips197.MixColumns s).
Proof. intros [Hs Hb]. split; [done|]. by apply mix_columns_ok. Qed.
Lemma block_add s k : block_ok s → block_ok k → block_ok (Fips197.AddRoundKey s k).
Proof.
  intros [Hs Hb] [Hk Hkb]. split; [unfold Fips197.AddRoundKey, xor_bytes; rewrite length_zip_with; lia|].
  by apply xor_bytes_ok.
Qed.

Create HintDb aes.
#[export] Hint Resolve block_sub block_shift block_mix block_add : aes.

Lemma round_ok w s r :
  schedule_ok w → block_ok s → 1 ≤ r < 14 →
  (block ← sub_bytes s; block ← shift_rows block; block ← mix_columns block; k ← round_key w r; add_round_key block k) =
    Done (Fips197.Round w s (Z.to_nat r)) ∧ block_ok (Fips197.Round w s (Z.to_nat r)).
Proof.
  intros Hw Hs Hr. destruct (round_key_ok w r Hw ltac:(lia)) as [Hk Hkb].
  split; [|unfold Fips197.Round; auto with aes]. unfold Fips197.Round.
  destruct (sub_bytes_ok s (proj2 Hs)) as [-> _]. rewrite bind_Done.
  pose proof (block_sub s Hs) as H1. rewrite shift_rows_ok, bind_Done by apply H1.
  pose proof (block_shift _ H1) as H2. destruct (mix_columns_ok _ (proj1 H2) (proj2 H2)) as [-> _]. rewrite bind_Done.
  rewrite Hk, bind_Done. apply add_round_key_ok; [apply block_mix; done|apply Hkb].
Qed.

Lemma encrypt_block_ok w s :
  schedule_ok w → block_ok s →
  aes256_encrypt_block s w = Done (Fips197.Cipher w s) ∧ block_ok (Fips197.Cipher w s).
Proof.
  intros Hw Hs. unfold aes256_encrypt_block, Fips197.Cipher.
  destruct (round_key_ok w 0 Hw ltac:(lia)) as [-> Hk0]. change (Z.to_nat 0) with 0%nat in *. rewrite bind_Done.
  rewrite add_round_key_ok, bind_Done by (apply Hs || apply Hk0). pose proof (block_add s _ Hs Hk0) as H1.
  destruct (for_range_fold_inv block_ok (Fips197.Round w) (λ r block,
    block ← sub_bytes block; block ← shift_rows block; block ← mix_columns block;
    k ← round_key w r; add_round_key block k) 13 1 (Fips197.AddRoundKey s (Fips197.RoundKey w 0))) as [-> H2];
    [lia|done|intros; apply round_ok; done || lia|].
  change (Z.to_nat 1) with 1%nat in *. rewrite bind_Done.
  generalize dependent (foldl (Fips197.Round w) (Fips197.AddRoundKey s (Fips197.RoundKey w 0)) (seq 1 13)).
  intros t Ht. destruct (sub_bytes_ok t (proj2 Ht)) as [-> _]. rewrite bind_Done.
  rewrite shift_rows_ok, bind_Done by (by apply block_sub).
  destruct (round_key_ok w AES256_ROUNDS Hw ltac:(unfold AES256_ROUNDS; lia)) as [-> Hk]. rewrite bind_Done.
  change (Z.to_nat AES256_ROUNDS) with 14%nat in *.
  rewrite add_round_key_ok; [split; [done|auto with aes]|by apply block_shift, block_sub|apply Hk].
Qed.

(** C22. AES-256 is the AES-256 of FIPS 197: for every key and block of bytes
    the table-driven, in-place code completes without a panic and computes the
    standard's cipher, whose substitution is the inverse in GF(2^8) followed by
    the affine map and whose column mixing is the matrix product over that
    field. *)
Theorem aes256_correct (key block : list Z) :
  length key = 32%nat → Forall byte_ok key → block_ok block →
  (schedule ← KeySchedule_new key; aes256_encrypt_block block schedule) =
    Done (Fips197.Cipher (Fips197.KeyExpansion key) block) ∧
  block_ok (Fips197.Cipher (Fips197.KeyExpansion key) block).
Proof.
  intros Hk Hb Hs. destruct (key_schedule_ok key Hk Hb) as (-> & Hl & Hw). rewrite bind_Done.
  apply encrypt_block_ok; [split; assumption|assumption].
Qed.

Lemma aes256_correct_witness :
  (schedule ← KeySchedule_new (Z.of_nat <$> seq 0 32); aes256_encrypt_block (Z.of_nat <$> seq 100 16) schedule) =
    Done (Fips197.Cipher (Fips197.KeyExpansion (Z.of_nat <$> seq 0 32)) (Z.of_nat <$> seq 100 16)) ∧
  block_ok (Fips197.Cipher (Fips197.KeyExpansion (Z.of_nat <$> seq 0 32)) (Z.of_nat <$> seq 100 16)).
Proof.
  apply (aes256_correct (Z.of_nat <$> seq 0 32) (Z.of_nat <$> seq 100 16)).
  - reflexivity.
  - apply (bool_decide_unpack _). vm_compute. exact I.
  - split; [reflexivity|]. apply (bool_decide_unpack _). vm_compute. exact I.
Defined.

(** ** The cipher is invertible *)

(** Exclusive or and conjunction form a ring. *)
Definition id_Z (x : Z) : Z := x.
Lemma xor_ring : ring_theory 0 (-1) Z.lxor Z.land Z.lxor id_Z eq.
Proof.
  split; intros.
  - apply Z.lxor_0_l.
  - apply Z.lxor_comm.
  - symmetry. apply Z.lxor_assoc.
  - apply Z.land_m1_l.
  - apply Z.land_comm.
  - apply Z.land_assoc.
  - apply Z.bits_inj'. intros n Hn. rewrite !Z.land_spec, !Z.lxor_spec, !Z.land_spec.
    by destruct (Z.testbit x n), (Z.testbit y n), (Z.testbit z n).
  - done.
  - apply Z.lxor_nilpotent.
Qed.
Add Ring xor_ring : xor_ring.

(** Multiplication by a constant is linear. *)
Lemma xtime_lxor x y : Fips197.xtime (Z.lxor x y) = Z.lxor (Fips197.xtime x) (Fips197.xtime y).
Proof.
  unfold Fips197.xtime. cbv zeta.
  assert (Hd : 2 * Z.lxor x y = Z.lxor (2 * x) (2 * y)).
  { rewrite !(Z.mul_comm 2). change 2 with (2 ^ 1). rewrite <- !Z.shiftl_mul_pow2 by lia. apply Z.shiftl_lxor. }
  rewrite Hd, Z.lxor_spec. destruct (Z.testbit (2 * x) 8), (Z.testbit (2 * y) 8); cbn [xorb]; try ring.
  transitivity (Z.lxor (Z.lxor (2 * x) (2 * y)) (Z.lxor 0x11b 0x11b)); [by rewrite Z.lxor_nilpotent, Z.lxor_0_r|].
  generalize 0x11b. intros. ring.
Qed.

Lemma mul_lxor c x y : Fips197.mul c (Z.lxor x y) = Z.lxor (Fips197.mul c x) (Fips197.mul c y).
Proof.
  unfold Fips197.mul. induction (seq 0 8) as [|i l IH]; [done|]. cbn [foldr]. rewrite IH.
  assert (Hi : Nat.iter i Fips197.xtime (Z.lxor x y) = Z.lxor (Nat.iter i Fips197.xtime x) (Nat.iter i Fips197.xtime y)).
  { induction i as [|i IHi]; [done|]. rewrite !Nat.iter_succ, IHi. apply xtime_lxor. }
  rewrite Hi. destruct (Z.testbit c (Z.of_nat i)).
  - generalize (Nat.iter i Fips197.xtime x), (Nat.iter i Fips197.xtime y). intros. ring.
  - rewrite !Z.lxor_0_l. done.
Qed.

(** A row of a column product. *)
Definition row_product (row : list Z) (r : nat) (a b c d : Z) : Z :=
  Z.lxor (Z.lxor (Z.lxor (Fips197.mul (Fips197.matrix row r 0) a) (Fips197.mul (Fips197.matrix row r 1) b))
    (Fips197.mul (Fips197.matrix row r 2) c)) (Fips197.mul (Fips197.matrix row r 3) d).

Definition MIX : list Z := [2; 3; 1; 1].
Definition INV_MIX : list Z := [0x0e; 0x0b; 0x0d; 0x09].

(** The two matrices are inverse to each other. *)
Lemma matrix_inverse (r j : nat) x :
  (r < 4)%nat → (j < 4)%nat → byte_ok x →
  row_product INV_MIX r (Fips197.mul (Fips197.matrix MIX 0 j) x) (Fips197.mul (Fips197.matrix MIX 1 j) x)
    (Fips197.mul (Fips197.matrix MIX 2 j) x) (Fips197.mul (Fips197.matrix MIX 3 j) x) = if (r =? j)%nat then x else 0.
Proof.
  intros Hr Hj Hx. apply Z.eqb_eq.
  assert (Ht : forallb (λ r, forallb (λ j, forallb (λ i, let x := Z.of_nat i in
    row_product INV_MIX r (Fips197.mul (Fips197.matrix MIX 0 j) x) (Fips197.mul (Fips197.matrix MIX 1 j) x)
    (Fips197.mul (Fips197.matrix MIX 2 j) x) (Fips197.mul (Fips197.matrix MIX 3 j) x) =? if (r =? j)%nat then x else 0)
    (seq 0 256)) (seq 0 4)) (seq 0 4) = true) by (vm_compute; reflexivity).
  pose proof (proj1 (forallb_forall _ _) Ht r (proj2 (in_seq 4 0 r) ltac:(lia))) as H1.
  pose proof (proj1 (forallb_forall _ _) H1 j (proj2 (in_seq 4 0 j) ltac:(lia))) as H2.
  exact (forall_below 256 (λ x, row_product INV_MIX r (Fips197.mul (Fips197.matrix MIX 0 j) x)
    (Fips197.mul (Fips197.matrix MIX 1 j) x) (Fips197.mul (Fips197.matrix MIX 2 j) x)
    (Fips197.mul (Fips197.matrix MIX 3 j) x) =? if (r =? j)%nat then x else 0) H2 x Hx).
Qed.

Lemma row_product_lxor row r a b c d a' b' c' d' :
  row_product row r (Z.lxor a a') (Z.lxor b b') (Z.lxor c c') (Z.lxor d d') =
    Z.lxor (row_product row r a b c d) (row_product row r a' b' c' d').
Proof.
  unfold row_product. rewrite !mul_lxor.
  generalize (Fips197.mul (Fips197.matrix row r 0) a), (Fips197.mul (Fips197.matrix row r 0) a'),
    (Fips197.mul (Fips197.matrix row r 1) b), (Fips197.mul (Fips197.matrix row r 1) b'),
    (Fips197.mul (Fips197.matrix row r 2) c), (Fips197.mul (Fips197.matrix row r 2) c'),
    (Fips197.mul (Fips197.matrix row r 3) d), (Fips197.mul (Fips197.matrix row r 3) d'). intros. ring.
Qed.

Lemma column_inverse r a b c d :
  (r < 4)%nat → byte_ok a → byte_ok b → byte_ok c → byte_ok d →
  row_product INV_MIX r (row_product MIX 0 a b c d) (row_product MIX 1 a b c d)
    (row_product MIX 2 a b c d) (row_product MIX 3 a b c d) = nth r [a; b; c; d] 0.
Proof.
  intros Hr Ha Hb Hc Hd. unfold row_product at 2 3 4 5. rewrite !row_product_lxor.
  rewrite !matrix_inverse by (done || lia).
  destruct r as [|[|[|[|]]]]; cbn [Nat.eqb nth]; rewrite ?Z.lxor_0_l, ?Z.lxor_0_r; done || lia.
Qed.

Lemma build_ext f g : (∀ r c, (r < 4)%nat → (c < 4)%nat → f r c = g r c) → Fips197.build f = Fips197.build g.
Proof. intros H. unfold Fips197.build. cbn. by rewrite !H by lia. Qed.

Lemma cell_build f r c : (r < 4)%nat → (c < 4)%nat → Fips197.cell (Fips197.build f) r c = f r c.
Proof.
  intros Hr Hc. destruct r as [|[|[|[|]]]], c as [|[|[|[|]]]]; done || lia.
Qed.

Lemma build_cell s : length s = 16%nat → Fips197.build (Fips197.cell s) = s.
Proof. intros Hs. cells s. reflexivity. Qed.

Lemma inv_mix_columns s : block_ok s → Fips197.InvMixColumns (Fips197.MixColumns s) = s.
Proof.
  intros [Hs Hb]. rewrite <- (build_cell s Hs) at 2. apply build_ext. intros r c Hr Hc.
  transitivity (row_product INV_MIX r (Fips197.cell (Fips197.MixColumns s) 0 c) (Fips197.cell (Fips197.MixColumns s) 1 c)
    (Fips197.cell (Fips197.MixColumns s) 2 c) (Fips197.cell (Fips197.MixColumns s) 3 c)); [reflexivity|].
  assert (Hcell : ∀ k, (k < 4)%nat → Fips197.cell (Fips197.MixColumns s) k c =
    row_product MIX k (Fips197.cell s 0 c) (Fips197.cell s 1 c) (Fips197.cell s 2 c) (Fips197.cell s 3 c)).
  { intros k Hk. by apply cell_build. }
  rewrite !Hcell by lia. rewrite column_inverse by (done || apply cell_byte; done || lia).
  by destruct r as [|[|[|[|]]]]; [..|lia].
Qed.

Lemma inv_shift_rows s : length s = 16%nat → Fips197.InvShiftRows (Fips197.ShiftRows s) = s.
Proof. intros Hs. cells s. reflexivity. Qed.

Lemma inv_sub_bytes s : Forall byte_ok s → Fips197.InvSubBytes (Fips197.SubBytes s) = s.
Proof.
  unfold Fips197.InvSubBytes, Fips197.SubBytes. induction 1 as [|b s Hb _ IH]; [done|].
  cbn [fmap list_fmap]. rewrite IH. f_equal. by apply sub_byte_inverse.
Qed.

Lemma inv_add_round_key s k : block_ok s → block_ok k → Fips197.AddRoundKey (Fips197.AddRoundKey s k) k = s.
Proof. intros [Hs _] [Hk _]. apply xor_bytes_involutive. rewrite Hs, Hk. done. Qed.

Lemma RoundKey_ok w (r : nat) : schedule_ok w → (r < 15)%nat → block_ok (Fips197.RoundKey w r).
Proof. intros Hw Hr. destruct (round_key_ok w (Z.of_nat r) Hw) as [_ H]; [lia|]. by rewrite Nat2Z.id in H. Qed.

Lemma inv_round w s r :
  schedule_ok w → block_ok s → (1 ≤ r < 14)%nat →
  Fips197.InvRound w (Fips197.Round w s r) r = s ∧ block_ok (Fips197.Round w s r).
Proof.
  intros Hw Hs Hr. pose proof (RoundKey_ok w r Hw ltac:(lia)) as Hk.
  split; [|unfold Fips197.Round; auto with aes]. unfold Fips197.InvRound, Fips197.Round.
  rewrite inv_add_round_key by auto with aes. rewrite inv_mix_columns by auto with aes.
  rewrite inv_shift_rows by (apply block_sub; done). apply inv_sub_bytes, Hs.
Qed.

Lemma inv_rounds w s l :
  schedule_ok w → block_ok s → Forall (λ r, (1 ≤ r < 14)%nat) l →
  foldl (Fips197.InvRound w) (foldl (Fips197.Round w) s l) (reverse l) = s ∧ block_ok (foldl (Fips197.Round w) s l).
Proof.
  intros Hw Hs Hl. revert s Hs. induction Hl as [|r l Hr _ IH]; intros s Hs; [done|].
  destruct (inv_round w s r Hw Hs Hr) as [Hi Hb]. destruct (IH _ Hb) as [IH1 IH2].
  cbn [foldl]. rewrite reverse_cons, foldl_app, IH1. done.
Qed.

Lemma inv_cipher_ok w s : schedule_ok w → block_ok s → Fips197.InvCipher w (Fips197.Cipher w s) = s.
Proof.
  intros Hw Hs. unfold Fips197.InvCipher, Fips197.Cipher.
  pose proof (RoundKey_ok w 0 Hw ltac:(lia)) as Hk0. pose proof (RoundKey_ok w 14 Hw ltac:(lia)) as Hk.
  destruct (inv_rounds w (Fips197.AddRoundKey s (Fips197.RoundKey w 0)) (seq 1 13)) as [Hi Hb];
    [done|auto with aes|apply Forall_seq; lia|].
  revert Hi Hb. generalize (foldl (Fips197.Round w) (Fips197.AddRoundKey s (Fips197.RoundKey w 0)) (seq 1 13)).
  intros t Hi Ht. rewrite inv_add_round_key by auto with aes.
  rewrite inv_shift_rows by (apply block_sub; done). rewrite inv_sub_bytes by apply Ht. rewrite Hi.
  by apply inv_add_round_key.
Qed.

(** Encryption under a fixed key can be undone: the inverse cipher of
    FIPS 197 with the code's [INV_SBOX] table recovers every block from the
    output of [aes256_encrypt_block], so two different blocks never encrypt to
    the same block. *)
Theorem aes256_invertible (key block : list Z) :
  length key = 32%nat → Forall byte_ok key → block_ok block →
  ∃ c, (schedule ← KeySchedule_new key; aes256_encrypt_block block schedule) = Done c ∧
    Fips197.InvCipher (Fips197.KeyExpansion key) c = block.
Proof.
  intros Hk Hb Hs. destruct (key_schedule_ok key Hk Hb) as (-> & Hl & Hw). rewrite bind_Done.
  assert (Hsch : schedule_ok (Fips197.KeyExpansion key)) by (split; assumption).
  destruct (encrypt_block_ok _ _ Hsch Hs) as [-> _]. eexists. split; [reflexivity|]. apply inv_cipher_ok; assumption.
Qed.

Lemma aes256_invertible_witness :
  ∃ c, (schedule ← KeySchedule_new (replicate 32 7); aes256_encrypt_block (replicate 16 200) schedule) = Done c ∧
    Fips197.InvCipher (Fips197.KeyExpansion (replicate 32 7)) c = replicate 16 200.
Proof.
  apply (aes256_invertible (replicate 32 7) (replicate 16 200)).
  - reflexivity.
  - apply (bool_decide_unpack _). vm_compute. exact I.
  - split; [reflexivity|]. apply (bool_decide_unpack _). vm_compute. exact I.
Defined.
