(* ===== verification/AesGcm.v ===== *)
(** * AesGcm.v: AES-256-GCM authenticated encryption

    [src/crap_os/src/crypto/cipher/aes/aes_gcm.rs].  [encrypt] draws its IV
    from the kernel's generator; here the twelve bytes it wrote are an
    argument.  The module [Sp800_38D] states the mode as NIST SP 800-38D does,
    over 128-bit blocks. *)

From S2P Require Import Prelude Bytes Aes.

Local Open Scope Z_scope.

Definition TAG_SIZE : Z := 16.
Definition IV_SIZE : Z := 12.
Definition GCM_OVERHEAD : Z := TAG_SIZE + IV_SIZE.

Inductive AesGcmError := AuthenticationFailure | CiphertextTooShort.

Record Ghash := mk_Ghash { gh_y : list Z; gh_h : list Z }.

(** ** Multiplication in GF(2^128) *)

(** [z_hi, z_lo, v_hi, v_lo] *)
Record Gf128 := mk_Gf128 { z_hi : Z; z_lo : Z; v_hi : Z; v_lo : Z }.

Definition R : Z := 0xe100000000000000.

Definition gf128_bit (y_hi y_lo i : Z) : Z :=
  if i <? 64 then Z.land (Z.shiftr y_hi (63 - i)) 1 else Z.land (Z.shiftr y_lo (127 - i)) 1.

(** The loop body for bit [i] of [y]. *)
Definition gf128_step (y_hi y_lo i : Z) (s : Gf128) : Gf128 :=
  let bit := gf128_bit y_hi y_lo i in
  let '(zh, zl) := if bit =? 1 then (Z.lxor (z_hi s) (v_hi s), Z.lxor (z_lo s) (v_lo s)) else (z_hi s, z_lo s) in
  let carry := Z.land (v_lo s) 1 in
  let vl := Z.lor (Z.shiftr (v_lo s) 1) (u64 (Z.shiftl (v_hi s) 63)) in
  let vh := Z.shiftr (v_hi s) 1 in
  mk_Gf128 zh zl (if carry =? 1 then Z.lxor vh R else vh) vl.

Definition gf128_mul (x y : list Z) : outcome (list Z) :=
  x0 ← slice x 0 8; x8 ← slice x 8 16;
  y0 ← slice y 0 8; y8 ← slice y 8 16;
  s ← for_range 128 0 (λ i s, Done (gf128_step (from_be y0) (from_be y8) i s))
        (mk_Gf128 0 0 (from_be x0) (from_be x8));
  result ← copy_at (replicate 16 0) 0 (be_bytes 8 (z_hi s));
  copy_at result 8 (be_bytes 8 (z_lo s)).

(** ** GHASH *)

Definition Ghash_new (h : list Z) : Ghash := mk_Ghash (replicate 16 0) h.

Definition Ghash_update (g : Ghash) (block : list Z) : outcome Ghash :=
  y ← for_range 16 0 (λ i y,
    a ← slot_get y i; b ← slot_get block i; slot_set y i (Z.lxor a b)) (gh_y g);
  y ← gf128_mul y (gh_h g);
  Done (mk_Ghash y (gh_h g)).

Definition Ghash_update_bytes (g : Ghash) (data : list Z) : outcome Ghash :=
  g ← for_each (chunks_exact 16 data) (λ chunk g, Ghash_update g chunk) g;
  let remainder := chunks_remainder 16 data in
  if (length remainder =? 0)%nat then Done g
  else
    padded ← copy_at (replicate 16 0) 0 remainder;
    Ghash_update g padded.

Definition Ghash_finalize (g : Ghash) : list Z := gh_y g.

(** ** Counter mode *)

Definition make_j0 (iv : list Z) : outcome (list Z) :=
  j0 ← copy_at (replicate 16 0) 0 iv;
  slot_set j0 15 0x01.

Definition inc32 (block : list Z) : outcome (list Z) :=
  bs ← slice block 12 16;
  copy_at block 12 (be_bytes 4 (u32 (from_be bs + 1))).

Definition ctr_keystream_block (counter : list Z) (schedule : KeySchedule) : outcome (list Z * list Z) :=
  block ← aes256_encrypt_block counter schedule;
  counter ← inc32 counter;
  Done (block, counter).

(** [for (i, b) in remaining.iter_mut().enumerate() { *b ^= ks[i] }]; the
    loop over a full block is the same on sixteen bytes. *)
Definition xor_keystream (data ks : list Z) : outcome (list Z) :=
  for_range (length data) 0 (λ i data,
    b ← slot_get data i; k ← slot_get ks i; slot_set data i (Z.lxor b k)) data.

(** [while remaining.len() >= BLOCK_SIZE] and the trailing partial block; the
    result is the data after the exclusive or and the final counter. *)
Fixpoint ctr_loop (fuel : nat) (remaining ctr_block : list Z) (schedule : KeySchedule) : outcome (list Z * list Z) :=
  match fuel with
  | O => OutOfFuel
  | S fuel =>
      if BLOCK_SIZE <=? Z.of_nat (length remaining) then
        '(ks, ctr_block) ← ctr_keystream_block ctr_block schedule;
        first ← xor_keystream (take 16 remaining) ks;
        '(rest, ctr_block) ← ctr_loop fuel (drop 16 remaining) ctr_block schedule;
        Done (first ++ rest, ctr_block)
      else if (length remaining =? 0)%nat then Done ([], ctr_block)
      else
        '(ks, ctr_block) ← ctr_keystream_block ctr_block schedule;
        last ← xor_keystream remaining ks;
        Done (last, ctr_block)
  end.

Definition ctr_apply_keystream (data ctr_block : list Z) (schedule : KeySchedule) : outcome (list Z * list Z) :=
  ctr_loop (S (length data)) data ctr_block schedule.

(** ** Tags *)

Definition compute_tag (ciphertext j0 : list Z) (schedule : KeySchedule) : outcome (list Z) :=
  h_block ← aes256_encrypt_block (replicate 16 0) schedule;
  let ghash := Ghash_new h_block in
  ghash ← Ghash_update_bytes ghash ciphertext;
  let c_bit_len := u64 (Z.of_nat (length ciphertext) * 8) in
  len_block ← copy_at (replicate 16 0) 8 (be_bytes 8 c_bit_len);
  ghash ← Ghash_update ghash len_block;
  let s := Ghash_finalize ghash in
  tag_mask ← aes256_encrypt_block j0 schedule;
  for_range 16 0 (λ i tag,
    a ← slot_get s i; b ← slot_get tag_mask i; slot_set tag i (Z.lxor a b)) (replicate 16 0).

Definition constant_time_eq_16 (a b : list Z) : outcome bool :=
  diff ← for_range 16 0 (λ i diff,
    x ← slot_get a i; y ← slot_get b i; Done (Z.lor diff (Z.lxor x y))) 0;
  Done (diff =? 0).

(** ** Entry points *)

Definition encrypt (iv key plaintext : list Z) : outcome (list Z) :=
  schedule ← KeySchedule_new key;
  j0 ← make_j0 iv;
  ctr_block ← inc32 j0;
  output ← copy_at (replicate (28 + length plaintext) 0) TAG_SIZE iv;
  output ← copy_at output (TAG_SIZE + IV_SIZE) plaintext;
  ct ← slice output (TAG_SIZE + IV_SIZE) (Z.of_nat (length output));
  '(ct, _) ← ctr_apply_keystream ct ctr_block schedule;
  output ← copy_at output (TAG_SIZE + IV_SIZE) ct;
  ct ← slice output (TAG_SIZE + IV_SIZE) (Z.of_nat (length output));
  tag ← compute_tag ct j0 schedule;
  copy_at output 0 tag.

Definition decrypt (key ciphertext : list Z) : outcome (result (list Z) AesGcmError) :=
  if Z.of_nat (length ciphertext) <? GCM_OVERHEAD then Done (Err CiphertextTooShort)
  else
    received_tag ← slice ciphertext 0 TAG_SIZE;
    iv ← slice ciphertext TAG_SIZE (TAG_SIZE + IV_SIZE);
    ct_bytes ← slice ciphertext GCM_OVERHEAD (Z.of_nat (length ciphertext));
    schedule ← KeySchedule_new key;
    j0 ← make_j0 iv;
    expected_tag ← compute_tag ct_bytes j0 schedule;
    same ← constant_time_eq_16 received_tag expected_tag;
    if negb (same : bool) then Done (Err AuthenticationFailure)
    else
      ctr_block ← inc32 j0;
      '(plaintext, _) ← ctr_apply_keystream ct_bytes ctr_block schedule;
      Done (Ok plaintext).

(** The GCM test cases 13 and 14 for AES-256: the empty and the all-zero
    plaintext under the all-zero key and IV. *)
Example gcm_vectors :
  encrypt (replicate 12 0) (replicate 32 0) [] =
    Done (be_bytes 16 0x530f8afbc74536b9a963b4f1c4cb738b ++ replicate 12 0) ∧
  encrypt (replicate 12 0) (replicate 32 0) (replicate 16 0) =
    Done (be_bytes 16 0xd0d1c8a799996bf0265b98b5d48ab919 ++ replicate 12 0 ++
          be_bytes 16 0xcea7403d4d606b6e074ec5d3baf39d18).
Proof. vm_compute. split; reflexivity. Qed.

(** ** The mode as SP 800-38D states it *)

Module Sp800_38D.

(** A block as a 128-bit string: bit 0 is the most significant one. *)
Definition bit (x : Z) (i : nat) : bool := Z.testbit x (127 - Z.of_nat i).

Definition xsum (f : nat → Z) (l : list nat) : Z := foldr (λ i a, Z.lxor (f i) a) 0 l.

(** [V_{i+1}]: the right shift, reduced by [R = 11100001 || 0^120]. *)
Definition mulx (v : Z) : Z := if Z.odd v then Z.lxor (v / 2) (0xe1 * 2 ^ 120) else v / 2.

(** [X • Y]: the exclusive or of the [V_i], starting from [V_0 = Y], for which
    bit [i] of [X] is set. *)
Definition dot (X Y : Z) : Z := xsum (λ i, if bit X i then Nat.iter i mulx Y else 0) (seq 0 128).

Definition mul_block (X Y : list Z) : list Z := be_bytes 16 (dot (from_be X) (from_be Y)).

(** [GHASH_H(X_1 || ... || X_m)] *)
Definition GHASH (H : list Z) (blocks : list (list Z)) : list Z :=
  foldl (λ Y X, mul_block (xor_bytes Y X) H) (replicate 16 0) blocks.

(** The 16-byte blocks of a string of whole blocks. *)
Definition blocks (X : list Z) : list (list Z) :=
  (λ i, take 16 (drop (16 * i) X)) <$> seq 0 (length X / 16).

Section Mode.
(** The block cipher under the key. *)
Context (CIPH : list Z → list Z).

(** [J_0] for a 96-bit IV, and its successors under [inc_32]. *)
Definition counter_block (iv : list Z) (c : Z) : list Z := iv ++ be_bytes 4 c.

(** [GCTR] from the counter value [c] on. *)
Definition key_stream (iv : list Z) (c : Z) (n : nat) : list Z :=
  seq 0 n ≫= λ i, CIPH (counter_block iv (c + Z.of_nat i)).
Definition GCTR (iv : list Z) (c : Z) (X : list Z) : list Z :=
  xor_bytes X (key_stream iv c ((length X + 15) / 16)).

(** The hashed string for an empty [A]: [C || 0^u || [0]_64 || [len(C)]_64]. *)
Definition hashed (C : list Z) : list Z :=
  C ++ replicate ((16 - length C mod 16) mod 16) 0 ++ be_bytes 8 0 ++ be_bytes 8 (8 * Z.of_nat (length C)).

Definition tag (iv C : list Z) : list Z :=
  xor_bytes (GHASH (CIPH (replicate 16 0)) (blocks (hashed C))) (CIPH (counter_block iv 1)).
End Mode.
End Sp800_38D.
Import Sp800_38D.

(** ** Multiplication agrees *)

Lemma xsum_cons f i l : xsum f (i :: l) = Z.lxor (f i) (xsum f l).
Proof. done. Qed.

Lemma xsum_ext f g l : (∀ i, i ∈ l → f i = g i) → xsum f l = xsum g l.
Proof.
  induction l as [|i l IH]; intros H; [done|]. rewrite !xsum_cons, H, IH; [done| |by constructor].
  intros j Hj. apply H. by constructor.
Qed.

Lemma xsum_app f l1 l2 : xsum f (l1 ++ l2) = Z.lxor (xsum f l1) (xsum f l2).
Proof.
  induction l1 as [|i l1 IH]; [cbn; by rewrite Z.lxor_0_l|]. cbn [app]. by rewrite !xsum_cons, IH, Z.lxor_assoc.
Qed.

Lemma xsum_lxor f g l : xsum (λ i, Z.lxor (f i) (g i)) l = Z.lxor (xsum f l) (xsum g l).
Proof.
  induction l as [|i l IH]; [done|]. rewrite !xsum_cons, IH.
  generalize (f i), (g i), (xsum f l), (xsum g l). intros. ring.
Qed.

Lemma xsum_zero l : xsum (λ _, 0) l = 0.
Proof. induction l as [|i l IH]; [done|]. by rewrite xsum_cons, IH. Qed.

Lemma xsum_swap (f : nat → nat → Z) l1 l2 : xsum (λ i, xsum (f i) l2) l1 = xsum (λ j, xsum (λ i, f i j) l1) l2.
Proof.
  induction l1 as [|i l1 IH].
  - cbn. by rewrite xsum_zero.
  - by rewrite xsum_cons, IH, <- xsum_lxor.
Qed.

Lemma mulx_lxor x y : mulx (Z.lxor x y) = Z.lxor (mulx x) (mulx y).
Proof.
  unfold mulx. rewrite <- !Z.bit0_odd, Z.lxor_spec. rewrite <- !Z.div2_div, !Z.div2_spec, Z.shiftr_lxor. generalize (Z.shiftr x 1), (Z.shiftr y 1).
  generalize (0xe1 * 2 ^ 120). intros r a b.
  destruct (Z.testbit x 0), (Z.testbit y 0); cbn [xorb]; try ring.
  transitivity (Z.lxor (Z.lxor a b) (Z.lxor r r)); [by rewrite Z.lxor_nilpotent, Z.lxor_0_r|ring].
Qed.

Lemma iter_mulx_lxor n x y : Nat.iter n mulx (Z.lxor x y) = Z.lxor (Nat.iter n mulx x) (Nat.iter n mulx y).
Proof. induction n as [|n IH]; [done|]. by rewrite !Nat.iter_succ, IH, mulx_lxor. Qed.

Lemma iter_mulx_0 n : Nat.iter n mulx 0 = 0.
Proof. induction n as [|n IH]; [done|]. by rewrite Nat.iter_succ, IH. Qed.

Lemma iter_mulx_xsum n f l : Nat.iter n mulx (xsum f l) = xsum (λ i, Nat.iter n mulx (f i)) l.
Proof.
  induction l as [|i l IH]; [apply iter_mulx_0|].
  by rewrite !xsum_cons, iter_mulx_lxor, IH.
Qed.

(** The powers of x from [1], which is the string [1 0^127]. *)
Lemma iter_mulx_power j : (j < 128)%nat → Nat.iter j mulx (2 ^ 127) = 2 ^ (127 - Z.of_nat j).
Proof.
  intros Hj. assert (Ht : forallb (λ j, Nat.iter j mulx (2 ^ 127) =? 2 ^ (127 - Z.of_nat j)) (seq 0 128) = true)
    by (vm_compute; reflexivity).
  apply Z.eqb_eq. exact (proj1 (forallb_forall _ _) Ht j (proj2 (in_seq 128 0 j) ltac:(lia))).
Qed.

Lemma bits_testbit x (k : nat) n :
  0 ≤ n → (k ≤ 128)%nat → Z.testbit (xsum (λ j, if bit x j then 2 ^ (127 - Z.of_nat j) else 0) (seq 0 k)) n =
    Z.testbit x n && bool_decide (127 - Z.of_nat k < n ≤ 127).
Proof.
  intros Hn. induction k as [|k IH]; intros Hk.
  { rewrite Z.testbit_0_l, bool_decide_false by lia. by rewrite andb_false_r. }
  rewrite seq_S, xsum_app, Z.lxor_spec, IH by lia. cbn [xsum foldr]. rewrite Z.lxor_0_r. cbn [Nat.add]. unfold bit.
  destruct (decide (n = 127 - Z.of_nat k)) as [->|Hne].
  - rewrite bool_decide_false, bool_decide_true by lia. rewrite andb_false_r, andb_true_r. cbn [xorb].
    destruct (Z.testbit x (127 - Z.of_nat k)); [|apply Z.testbit_0_l]. by rewrite Z.pow2_bits_true by lia.
  - assert (Hz : Z.testbit (if Z.testbit x (127 - Z.of_nat k) then 2 ^ (127 - Z.of_nat k) else 0) n = false).
    { destruct (Z.testbit x (127 - Z.of_nat k)); [|apply Z.testbit_0_l]. apply Z.pow2_bits_false. lia. }
    rewrite Hz, xorb_false_r. f_equal. apply bool_decide_ext. lia.
Qed.

Lemma bits_sum x : 0 ≤ x < 2 ^ 128 → x = xsum (λ j, if bit x j then 2 ^ (127 - Z.of_nat j) else 0) (seq 0 128).
Proof.
  intros Hx. apply Z.bits_inj'. intros n Hn. rewrite bits_testbit by lia.
  destruct (decide (n ≤ 127)); [rewrite bool_decide_true by lia; by rewrite andb_true_r|].
  rewrite bool_decide_false by lia. rewrite andb_false_r. destruct (decide (x = 0)) as [->|]; [apply Z.testbit_0_l|].
  apply Z.bits_above_log2; [lia|]. assert (Z.log2 x < 128) by (apply Z.log2_lt_pow2; lia). lia.
Qed.

(** The product as a sum over both operands' bits, hence commutative. *)
Lemma dot_sum x y :
  0 ≤ y < 2 ^ 128 →
  dot x y = xsum (λ i, xsum (λ j, if bit x i && bit y j then Nat.iter (i + j) mulx (2 ^ 127) else 0) (seq 0 128)) (seq 0 128).
Proof.
  intros Hy. unfold dot. apply xsum_ext. intros i _. destruct (bit x i); cbn [andb]; [|by rewrite xsum_zero].
  rewrite (bits_sum y Hy) at 1. rewrite iter_mulx_xsum. apply xsum_ext. intros j Hj. apply elem_of_seq in Hj.
  destruct (bit y j); [|apply iter_mulx_0]. rewrite Nat.iter_add, iter_mulx_power by lia. done.
Qed.

Lemma dot_comm x y : 0 ≤ x < 2 ^ 128 → 0 ≤ y < 2 ^ 128 → dot x y = dot y x.
Proof.
  intros Hx Hy. rewrite !dot_sum by done. rewrite xsum_swap. apply xsum_ext. intros i _.
  apply xsum_ext. intros j _. by rewrite andb_comm, Nat.add_comm.
Qed.

(** A block as its two words. *)
Definition join (hi lo : Z) : Z := hi * 2 ^ 64 + lo.
Definition word64 (v : Z) : Prop := 0 ≤ v < 2 ^ 64.

Lemma join_lxor_shift hi lo : word64 lo → join hi lo = Z.lxor (Z.shiftl hi 64) lo.
Proof.
  intros Hl. unfold join, word64 in *. rewrite <- Z.shiftl_mul_pow2 by lia. apply Z.add_nocarry_lxor.
  apply Z.bits_inj'. intros n Hn. rewrite Z.land_spec, Z.testbit_0_l, Z.shiftl_spec by lia.
  destruct (decide (n < 64)); [by rewrite (Z.testbit_neg_r hi) by lia|].
  replace (Z.testbit lo n) with false; [by rewrite andb_false_r|]. symmetry.
  destruct (decide (lo = 0)) as [->|]; [apply Z.testbit_0_l|]. apply Z.bits_above_log2; [lia|].
  assert (Z.log2 lo < 64) by (apply Z.log2_lt_pow2; lia). lia.
Qed.

Lemma lxor_word64 a b : word64 a → word64 b → word64 (Z.lxor a b).
Proof.
  unfold word64. intros Ha Hb. split; [apply Z.lxor_nonneg; lia|].
  destruct (decide (Z.lxor a b = 0)) as [->|]; [lia|]. apply (Z.log2_lt_cancel _ (2 ^ 64)).
  assert (Hl : ∀ x, 0 ≤ x < 2 ^ 64 → Z.log2 x < 64).
  { intros x Hx. destruct (decide (x = 0)) as [->|]; [done|]. apply Z.log2_lt_pow2; lia. }
  eapply Z.le_lt_trans; [apply Z.log2_lxor; lia|]. change (Z.log2 (2 ^ 64)) with 64.
  apply Z.max_lub_lt; by apply Hl.
Qed.

Lemma join_lxor a b c d :
  word64 b → word64 d → Z.lxor (join a b) (join c d) = join (Z.lxor a c) (Z.lxor b d).
Proof.
  intros Hb Hd. rewrite !join_lxor_shift by (done || by apply lxor_word64). rewrite Z.shiftl_lxor.
  generalize (Z.shiftl a 64), (Z.shiftl c 64). intros. ring.
Qed.

Lemma join_half hi lo :
  word64 hi → word64 lo →
  join hi lo / 2 = join (Z.shiftr hi 1) (Z.lor (Z.shiftr lo 1) (u64 (Z.shiftl hi 63))) ∧
  word64 (Z.lor (Z.shiftr lo 1) (u64 (Z.shiftl hi 63))) ∧ word64 (Z.shiftr hi 1).
Proof.
  unfold word64, join. intros Hh Hl. assert (Hc : u64 (Z.shiftl hi 63) = (hi mod 2) * 2 ^ 63).
  { rewrite Z.shiftl_mul_pow2 by lia. unfold u64. change W64 with (2 * 2 ^ 63). apply Z.mul_mod_distr_r; lia. }
  rewrite Hc, Z.lor_comm, !Z.shiftr_div_pow2 by lia. change (2 ^ 1) with 2.
  rewrite (lor_aligned _ _ 63); [|lia| |].
  - pose proof (Z.div_mod hi 2 ltac:(lia)). pose proof (Z.mod_pos_bound hi 2 ltac:(lia)).
    pose proof (Z.div_mod lo 2 ltac:(lia)). pose proof (Z.mod_pos_bound lo 2 ltac:(lia)).
    split_and!; try lia. symmetry. apply Z.div_unique with (lo mod 2); lia.
  - apply Z.mod_mul. lia.
  - split; [apply Z.div_pos; lia|apply Z.div_lt_upper_bound; lia].
Qed.

Lemma land_1_odd v : (Z.land v 1 =? 1) = Z.odd v.
Proof.
  change 1 with (Z.ones 1) at 1. rewrite Z.land_ones by lia. change (2 ^ 1) with 2. rewrite Zmod_odd. by destruct (Z.odd v).
Qed.

Lemma join_mulx hi lo :
  word64 hi → word64 lo →
  let lo' := Z.lor (Z.shiftr lo 1) (u64 (Z.shiftl hi 63)) in
  let hi' := if Z.land lo 1 =? 1 then Z.lxor (Z.shiftr hi 1) R else Z.shiftr hi 1 in
  mulx (join hi lo) = join hi' lo' ∧ word64 hi' ∧ word64 lo'.
Proof.
  intros Hh Hl. cbv zeta. destruct (join_half hi lo Hh Hl) as (Hd & Hlo & Hhi). unfold mulx.
  assert (Ho : Z.odd (join hi lo) = Z.odd lo).
  { unfold join. change (2 ^ 64) with (2 ^ 63 * 2). rewrite Z.odd_add, Z.mul_assoc, Z.odd_mul, andb_false_r. done. }
  rewrite Ho, land_1_odd, Hd. destruct (Z.odd lo).
  - split_and!; [|apply lxor_word64; [done|done]|done].
    change (0xe1 * 2 ^ 120) with (join R 0). rewrite join_lxor, Z.lxor_0_r by (done || by unfold word64). done.
  - done.
Qed.

Lemma gf128_bit_ok yh yl (i : nat) :
  word64 yl → (i < 128)%nat → (gf128_bit yh yl (Z.of_nat i) =? 1) = bit (join yh yl) i.
Proof.
  intros Hl Hi. unfold gf128_bit, bit. rewrite join_lxor_shift by done.
  rewrite Z.lxor_spec, Z.shiftl_spec by lia. destruct (Z.ltb_spec (Z.of_nat i) 64).
  - rewrite land_1_odd, <- Z.bit0_odd, Z.shiftr_spec by lia.
    replace (Z.testbit yl (127 - Z.of_nat i)) with false; [rewrite xorb_false_r; f_equal; lia|]. symmetry.
    unfold word64 in Hl. destruct (decide (yl = 0)) as [->|]; [apply Z.testbit_0_l|]. apply Z.bits_above_log2; [lia|].
    assert (Z.log2 yl < 64) by (apply Z.log2_lt_pow2; lia). lia.
  - rewrite land_1_odd, <- Z.bit0_odd, Z.shiftr_spec by lia. rewrite (Z.testbit_neg_r yh) by lia. cbn [xorb].
    by rewrite Z.add_0_l.
Qed.

(** After [k] rounds: the partial sum and the [k]-th multiple. *)
Definition gf128_inv (x y : Z) (k : nat) (s : Gf128) : Prop :=
  word64 (z_hi s) ∧ word64 (z_lo s) ∧ word64 (v_hi s) ∧ word64 (v_lo s) ∧
  join (z_hi s) (z_lo s) = xsum (λ i, if bit y i then Nat.iter i mulx x else 0) (seq 0 k) ∧
  join (v_hi s) (v_lo s) = Nat.iter k mulx x.

Lemma gf128_step_ok x yh yl (k : nat) s :
  word64 yl → (k < 128)%nat → gf128_inv x (join yh yl) k s →
  gf128_inv x (join yh yl) (S k) (gf128_step yh yl (Z.of_nat k) s).
Proof.
  intros Hy Hk (Hzh & Hzl & Hvh & Hvl & Hz & Hv). unfold gf128_step. rewrite gf128_bit_ok by done.
  destruct (join_mulx (v_hi s) (v_lo s) Hvh Hvl) as (Hm & Hh & Hl). cbv zeta in Hm.
  unfold gf128_inv. rewrite seq_S, xsum_app, <- Hz, Nat.iter_succ, <- Hv, Hm. cbn [Nat.add xsum foldr]. rewrite Z.lxor_0_r.
  destruct (bit (join yh yl) k); cbn [z_hi z_lo v_hi v_lo].
  - split_and!; try done; [by apply lxor_word64|by apply lxor_word64|]. by rewrite <- Hv, join_lxor.
  - split_and!; try done. by rewrite Z.lxor_0_r.
Qed.

Lemma block_join x : block_ok x → ∃ hi lo, slice x 0 8 = Done (take 8 x) ∧ slice x 8 16 = Done (drop 8 x) ∧
  from_be (take 8 x) = hi ∧ from_be (drop 8 x) = lo ∧ word64 hi ∧ word64 lo ∧ from_be x = join hi lo.
Proof.
  intros [Hx Hb]. exists (from_be (take 8 x)), (from_be (drop 8 x)).
  rewrite !slice_ok by lia. change (Z.to_nat (8 - 0)) with 8%nat. change (Z.to_nat (16 - 8)) with 8%nat. norm_index.
  rewrite drop_0, (take_ge (drop 8 x)) by (rewrite length_drop; lia).
  pose proof (from_be_range (take 8 x) (Forall_take _ _ _ Hb)) as H1.
  pose proof (from_be_range (drop 8 x) (Forall_drop _ _ _ Hb)) as H2.
  rewrite length_take in H1. rewrite length_drop in H2. rewrite Hx in H1, H2.
  split_and!; try done. rewrite <- (take_drop 8 x) at 1. rewrite from_be_app, length_drop, Hx. done.
Qed.

Lemma gf128_mul_ok x y : block_ok x → block_ok y → gf128_mul x y = Done (mul_block x y) ∧ block_ok (mul_block x y).
Proof.
  intros Hx Hy. split; [|split; [apply length_be_bytes|apply be_bytes_ok]].
  destruct (block_join x Hx) as (xh & xl & Hx1 & Hx2 & Hx3 & Hx4 & Hxh & Hxl & Hxj).
  destruct (block_join y Hy) as (yh & yl & Hy1 & Hy2 & Hy3 & Hy4 & Hyh & Hyl & Hyj).
  unfold gf128_mul. rewrite Hx1, Hx2, Hy1, Hy2, !bind_Done, Hx3, Hx4, Hy3, Hy4.
  rewrite (for_range_fold0 (λ s i, gf128_step yh yl (Z.of_nat i) s)) by (intros; by rewrite Z2Nat.id by lia).
  assert (Hinv : ∀ k, (k ≤ 128)%nat → gf128_inv (join xh xl) (join yh yl) k
    (foldl (λ s i, gf128_step yh yl (Z.of_nat i) s) (mk_Gf128 0 0 xh xl) (seq 0 k))).
  { induction k as [|k IH]; intros Hk; [by split_and!|]. rewrite seq_S, foldl_snoc.
    apply gf128_step_ok; [done|lia|apply IH; lia]. }
  specialize (Hinv 128%nat ltac:(lia)). rewrite bind_Done.
  revert Hinv. generalize (foldl (λ s i, gf128_step yh yl (Z.of_nat i) s) (mk_Gf128 0 0 xh xl) (seq 0 128)).
  intros s (Hzh & Hzl & _ & _ & Hz & _).
  rewrite (copy_at_app [] (replicate 16 0)), bind_Done by (rewrite ?length_be_bytes; cbn; lia).
  rewrite length_be_bytes. cbn [app].
  rewrite copy_at_app by (rewrite ?length_be_bytes; cbn; lia). rewrite length_be_bytes. f_equal.
  rewrite (drop_ge (drop 8 _)), app_nil_r by (cbn; lia).
  unfold mul_block. rewrite Hxj, Hyj. rewrite dot_comm by (unfold join, word64 in *; lia).
  unfold dot. rewrite <- Hz. symmetry. apply (be_bytes_app 8 8). exact Hzl.
Qed.

(** ** GHASH agrees *)

Lemma block_xor a b : block_ok a → block_ok b → block_ok (xor_bytes a b).
Proof. intros Ha Hb. exact (block_add a b Ha Hb). Qed.

Lemma block_zero : block_ok (replicate 16 0).
Proof. split; [done|]. apply Forall_replicate. unfold byte_ok. lia. Qed.
#[local] Hint Resolve block_xor block_zero : aes.

Lemma ghash_update_ok h y b :
  block_ok h → block_ok y → block_ok b →
  Ghash_update (mk_Ghash y h) b = Done (mk_Ghash (mul_block (xor_bytes y b) h) h) ∧
  block_ok (mul_block (xor_bytes y b) h).
Proof.
  intros Hh Hy Hb. unfold Ghash_update. cbn [gh_y gh_h].
  rewrite (xor_loop_ok 16), bind_Done by (rewrite ?(proj1 Hb); apply Hy || lia).
  destruct (gf128_mul_ok (xor_bytes y b) h) as [-> H]; [auto with aes..|]. by rewrite bind_Done.
Qed.

Definition ghash_step (h y b : list Z) : list Z := mul_block (xor_bytes y b) h.

Lemma ghash_blocks_ok h bs y :
  block_ok h → Forall block_ok bs → block_ok y →
  for_each bs (λ chunk g, Ghash_update g chunk) (mk_Ghash y h) = Done (mk_Ghash (foldl (ghash_step h) y bs) h) ∧
  block_ok (foldl (ghash_step h) y bs).
Proof.
  intros Hh Hbs. revert y. induction Hbs as [|b bs Hb _ IH]; intros y Hy; [done|].
  cbn [for_each foldl]. destruct (ghash_update_ok h y b Hh Hy Hb) as [-> H1]. rewrite bind_Done. by apply IH.
Qed.

(** The string cut into whole blocks and a zero-padded rest. *)
Lemma chunks_blocks (l : list Z) : blocks l = chunks_exact 16 l.
Proof. symmetry. apply chunks_exact_seq. lia. Qed.

Lemma chunks_split (l : list Z) :
  l = concat (chunks_exact 16 l) ++ chunks_remainder 16 l ∧
  Forall (λ c, length c = 16%nat) (chunks_exact 16 l) ∧ (length (chunks_remainder 16 l) < 16)%nat.
Proof.
  unfold chunks_exact, chunks_remainder. destruct (chunks_loop (length l) 16 l) as [cs r] eqn:He.
  apply (chunks_loop_ok (length l)); [lia|done|done].
Qed.

Lemma length_concat_blocks (cs : list (list Z)) :
  Forall (λ c, length c = 16%nat) cs → length (concat cs) = (16 * length cs)%nat.
Proof. induction 1 as [|c cs Hc _ IH]; [done|]. cbn. rewrite length_app, IH, Hc. lia. Qed.

Definition padded (r : list Z) : list (list Z) :=
  if (length r =? 0)%nat then [] else [r ++ replicate (16 - length r) 0].

Lemma hashed_blocks C :
  blocks (hashed C) = chunks_exact 16 C ++ padded (chunks_remainder 16 C) ++
    [replicate 8 0 ++ be_bytes 8 (8 * Z.of_nat (length C))].
Proof.
  destruct (chunks_split C) as (HC & Hcs & Hr). rewrite chunks_blocks. unfold hashed.
  change (be_bytes 8 0) with (replicate 8 0). set (lenb := replicate 8 0 ++ be_bytes 8 (8 * Z.of_nat (length C))).
  assert (Hlen : length lenb = 16%nat) by (unfold lenb; by rewrite length_app, length_be_bytes, length_replicate).
  assert (Hm : (length C mod 16 = length (chunks_remainder 16 C))%nat).
  { rewrite HC at 1. rewrite length_app, length_concat_blocks by done.
    rewrite Nat.add_comm, Nat.mul_comm, Nat.Div0.mod_add. by apply Nat.mod_small. }
  rewrite Hm. clearbody lenb. rewrite HC at 1. generalize dependent (chunks_remainder 16 C). intros r _ Hr _.
  generalize dependent (chunks_exact 16 C). intros cs Hcs.
  rewrite <- app_assoc. unfold padded. destruct (Nat.eqb_spec (length r) 0) as [H0|H0].
  - apply nil_length_inv in H0 as ->. cbn [length]. rewrite Nat.sub_0_r, Nat.Div0.mod_same. cbn [replicate app].
    replace (concat cs ++ lenb) with (concat (cs ++ [lenb]) ++ []) by (by rewrite concat_app; cbn; rewrite !app_nil_r).
    apply chunks_exact_concat; [lia| |cbn; lia]. apply Forall_app. split; [done|]. by apply Forall_singleton.
  - rewrite (Nat.mod_small (16 - length r)) by lia.
    transitivity (chunks_exact 16 (concat (cs ++ [r ++ replicate (16 - length r) 0] ++ [lenb]) ++ [])).
    { f_equal. rewrite app_nil_r, !concat_app. cbn. by rewrite !app_nil_r, <- !app_assoc. }
    apply chunks_exact_concat; [lia| |cbn; lia]. rewrite !Forall_app, !Forall_singleton.
    split_and!; [done| |done]. rewrite length_app, length_replicate. lia.
Qed.

Lemma chunks_bytes C : Forall byte_ok C → Forall block_ok (chunks_exact 16 C) ∧ Forall byte_ok (chunks_remainder 16 C).
Proof.
  destruct (chunks_split C) as (HC & Hcs & _). rewrite HC at 1. rewrite Forall_app. intros [H1 H2].
  split; [|done]. revert H1. clear -Hcs. generalize dependent (chunks_exact 16 C). intros cs Hcs.
  induction Hcs as [|c cs Hc _ IH]; [by constructor|]. cbn. rewrite Forall_app. intros [H1 H2].
  apply Forall_cons. split; [by split|by apply IH].
Qed.

Lemma ghash_bytes_ok h C :
  block_ok h → Forall byte_ok C →
  Ghash_update_bytes (Ghash_new h) C =
    Done (mk_Ghash (foldl (ghash_step h) (replicate 16 0) (chunks_exact 16 C ++ padded (chunks_remainder 16 C))) h) ∧
  block_ok (foldl (ghash_step h) (replicate 16 0) (chunks_exact 16 C ++ padded (chunks_remainder 16 C))).
Proof.
  intros Hh HC. destruct (chunks_bytes C HC) as [Hcs Hrb]. destruct (chunks_split C) as (_ & _ & Hr).
  unfold Ghash_update_bytes, Ghash_new. rewrite foldl_app.
  destruct (ghash_blocks_ok h (chunks_exact 16 C) (replicate 16 0) Hh Hcs block_zero) as [-> Hy]. rewrite bind_Done.
  revert Hy. generalize (foldl (ghash_step h) (replicate 16 0) (chunks_exact 16 C)). intros y Hy. cbv zeta.
  generalize dependent (chunks_remainder 16 C). intros r Hrb Hr. unfold padded.
  destruct (Nat.eqb_spec (length r) 0) as [_|H0]; [done|].
  rewrite (copy_at_app [] (replicate 16 0)), bind_Done by (rewrite ?length_replicate; done || lia).
  cbn [app foldl]. rewrite drop_replicate. apply ghash_update_ok; [done|done|]. split.
  - rewrite length_app, length_replicate. lia.
  - apply Forall_app. split; [done|]. apply Forall_replicate. unfold byte_ok. lia.
Qed.

(** ** Counter mode agrees *)

Lemma counter_ok iv c : length iv = 12%nat → Forall byte_ok iv → block_ok (counter_block iv c).
Proof.
  intros Hl Hb. split; [unfold counter_block; rewrite length_app, length_be_bytes; lia|].
  apply Forall_app. split; [done|apply be_bytes_ok].
Qed.

Lemma be_bytes_mod n v : be_bytes n (v mod 256 ^ Z.of_nat n) = be_bytes n v.
Proof.
  revert v. induction n as [|n IH]; intros v; [done|]. cbn [be_bytes].
  rewrite Nat2Z.inj_succ, Z.pow_succ_r by lia. rewrite (Z.rem_mul_r v 256) by lia.
  rewrite (Z.mul_comm 256), Z.div_add, Z.mod_add by lia.
  rewrite Z.div_small, Z.add_0_l, Z.mod_mod by (try apply Z.mod_pos_bound; lia). by rewrite IH.
Qed.

Lemma make_j0_ok iv : length iv = 12%nat → make_j0 iv = Done (counter_block iv 1).
Proof.
  intros Hl. unfold make_j0. rewrite (copy_at_app [] (replicate 16 0)), bind_Done by (rewrite ?length_replicate; done || lia).
  rewrite Hl. cbn [app]. change (drop 12 (replicate 16 0)) with ([0; 0; 0] ++ 0 :: []). rewrite app_assoc.
  rewrite slot_set_mid by (rewrite length_app, Hl; done). by rewrite <- app_assoc.
Qed.

Lemma inc32_ok iv c : length iv = 12%nat → inc32 (counter_block iv c) = Done (counter_block iv (c + 1)).
Proof.
  intros Hl. unfold inc32, counter_block.
  rewrite slice_ok by (rewrite ?length_app, ?length_be_bytes; lia).
  norm_index. change (Z.to_nat (16 - 12)) with 4%nat.
  rewrite drop_app_length', take_ge, bind_Done by (rewrite ?length_be_bytes; done).
  rewrite copy_at_app by (rewrite ?length_be_bytes; lia). rewrite length_be_bytes, (drop_ge (be_bytes 4 c)), app_nil_r
    by (rewrite length_be_bytes; lia).
  do 2 f_equal. rewrite from_be_bytes. change (256 ^ Z.of_nat 4) with (2 ^ 32).
  rewrite <- (be_bytes_mod 4 (c + 1)). f_equal. change (256 ^ Z.of_nat 4) with (2 ^ 32). unfold u32.
  apply Zplus_mod_idemp_l.
Qed.

Lemma key_stream_S F iv c n : key_stream F iv c (S n) = F (counter_block iv c) ++ key_stream F iv (c + 1) n.
Proof.
  unfold key_stream. cbn [seq]. rewrite bind_cons. rewrite Z.add_0_r. f_equal.
  rewrite <- seq_shift. generalize (seq 0 n). intros l. induction l as [|i l IH]; [done|].
  cbn [map]. rewrite !bind_cons, IH. do 3 f_equal. lia.
Qed.

Section Cipher.
Context (w : list Z).
Hypothesis Hw : schedule_ok w.
Local Abbreviation CIPH := (Fips197.Cipher w).

Lemma cipher_block s : block_ok s → block_ok (CIPH s).
Proof. intros Hs. apply (encrypt_block_ok w s Hw Hs). Qed.

Lemma ctr_block_ok iv c :
  length iv = 12%nat → Forall byte_ok iv →
  ctr_keystream_block (counter_block iv c) w = Done (CIPH (counter_block iv c), counter_block iv (c + 1)).
Proof.
  intros Hl Hb. unfold ctr_keystream_block.
  destruct (encrypt_block_ok w _ Hw (counter_ok iv c Hl Hb)) as [-> _]. rewrite bind_Done.
  rewrite inc32_ok by done. by rewrite bind_Done.
Qed.

Lemma xor_keystream_ok data ks : (length data ≤ length ks)%nat → xor_keystream data ks = Done (xor_bytes data ks).
Proof. intros H. by apply (xor_loop_ok (length data)). Qed.

Lemma blocks_needed n : (16 ≤ n)%nat → ((n + 15) / 16 = S ((n - 16 + 15) / 16))%nat.
Proof. intros H. replace (n + 15)%nat with (n - 16 + 15 + 1 * 16)%nat by lia. rewrite Nat.div_add by lia. lia. Qed.

Lemma ctr_loop_ok iv fuel data c :
  length iv = 12%nat → Forall byte_ok iv → (length data < fuel)%nat →
  ∃ ctr, ctr_loop fuel data (counter_block iv c) w = Done (GCTR CIPH iv c data, ctr).
Proof.
  intros Hl Hb. unfold GCTR. revert data c. induction fuel as [|fuel IH]; intros data c Hf; [lia|].
  cbn [ctr_loop]. change BLOCK_SIZE with 16. pose proof (cipher_block _ (counter_ok iv c Hl Hb)) as [Hcl _].
  destruct (Z.leb_spec 16 (Z.of_nat (length data))) as [Hd|Hd].
  - rewrite ctr_block_ok, bind_Done by done. rewrite xor_keystream_ok, bind_Done by (rewrite Hcl, length_take; lia).
    destruct (IH (drop 16 data) (c + 1)) as [ctr Hc]; [rewrite length_drop; lia|]. rewrite Hc, bind_Done.
    exists ctr. do 2 f_equal. rewrite (blocks_needed (length data)), (key_stream_S _ iv c) by lia.
    rewrite <- (take_drop 16 data) at 4. rewrite xor_bytes_app by (rewrite Hcl, length_take; lia).
    rewrite length_drop. done.
  - destruct (Nat.eqb_spec (length data) 0) as [H0|H0].
    { exists (counter_block iv c). apply nil_length_inv in H0 as ->. done. }
    rewrite ctr_block_ok, bind_Done by done. rewrite xor_keystream_ok, bind_Done by (rewrite Hcl; lia).
    exists (counter_block iv (c + 1)). do 2 f_equal.
    replace ((length data + 15) / 16)%nat with 1%nat by (apply Nat.div_unique with (length data - 1)%nat; lia).
    rewrite key_stream_S. unfold key_stream. cbn [seq mbind list_bind]. by rewrite app_nil_r.
Qed.

Lemma length_key_stream iv c n :
  length iv = 12%nat → Forall byte_ok iv → length (key_stream CIPH iv c n) = (16 * n)%nat.
Proof.
  intros Hl Hb. revert c. induction n as [|n IH]; intros c; [done|].
  rewrite key_stream_S, length_app, IH. destruct (cipher_block _ (counter_ok iv c Hl Hb)) as [-> _]. lia.
Qed.

Lemma key_stream_bytes iv c n :
  length iv = 12%nat → Forall byte_ok iv → Forall byte_ok (key_stream CIPH iv c n).
Proof.
  intros Hl Hb. revert c. induction n as [|n IH]; intros c; [by constructor|].
  rewrite key_stream_S. apply Forall_app. split; [apply (cipher_block _ (counter_ok iv c Hl Hb))|apply IH].
Qed.

Lemma enough_blocks n : (n ≤ 16 * ((n + 15) / 16))%nat.
Proof. pose proof (Nat.div_mod_eq (n + 15) 16). pose proof (Nat.mod_upper_bound (n + 15) 16 ltac:(lia)). lia. Qed.

Lemma GCTR_facts iv c data :
  length iv = 12%nat → Forall byte_ok iv → Forall byte_ok data →
  length (GCTR CIPH iv c data) = length data ∧ Forall byte_ok (GCTR CIPH iv c data) ∧
  GCTR CIPH iv c (GCTR CIPH iv c data) = data.
Proof.
  intros Hl Hb Hd. pose proof (enough_blocks (length data)) as He.
  assert (Hlen : length (GCTR CIPH iv c data) = length data).
  { unfold GCTR. rewrite length_xor_bytes, length_key_stream by done. lia. }
  split_and!; [done|apply xor_bytes_ok; [done|by apply key_stream_bytes]|].
  unfold GCTR at 1. rewrite Hlen. unfold GCTR. apply xor_bytes_involutive. by rewrite length_key_stream.
Qed.

(** ** Tags agree *)

Lemma tag_loop_ok s m :
  block_ok s → block_ok m →
  for_range 16 0 (λ i tag, a ← slot_get s i; b ← slot_get m i; slot_set tag i (Z.lxor a b)) (replicate 16 0) =
    Done (xor_bytes s m).
Proof.
  intros [Hs _] [Hm _]. change (replicate 16 0) with ([] ++ replicate 16 0).
  rewrite (fill_cells (λ ws, Z.lxor (nth (length ws) s 0) (nth (length ws) m 0))); [|lia|done|done|].
  - cells s. cells m. reflexivity.
  - intros j ws r rest Hj Hws. rewrite !slot_get_nth0, !bind_Done by lia. by rewrite <- Hws, Nat2Z.id.
Qed.

Lemma compute_tag_ok iv C :
  length iv = 12%nat → Forall byte_ok iv → Forall byte_ok C →
  compute_tag C (counter_block iv 1) w = Done (tag CIPH iv C) ∧ block_ok (tag CIPH iv C).
Proof.
  intros Hl Hb HC. unfold compute_tag, tag, GHASH.
  destruct (encrypt_block_ok w _ Hw block_zero) as [-> Hh]. rewrite bind_Done. cbv zeta.
  pose proof (cipher_block _ (counter_ok iv 1 Hl Hb)) as Hm.
  destruct (encrypt_block_ok w _ Hw (counter_ok iv 1 Hl Hb)) as [Hmask _].
  generalize dependent (CIPH (replicate 16 0)). intros h Hh.
  destruct (ghash_bytes_ok h C Hh HC) as [-> Hg]. rewrite bind_Done.
  rewrite (copy_at_app (replicate 8 0) (replicate 8 0)) by (rewrite ?length_be_bytes; done || cbn; lia).
  rewrite bind_Done, length_be_bytes, (drop_ge (replicate 8 0)), app_nil_r by done.
  change (u64 (Z.of_nat (length C) * 8)) with ((Z.of_nat (length C) * 8) mod 256 ^ Z.of_nat 8).
  rewrite be_bytes_mod, (Z.mul_comm _ 8). rewrite hashed_blocks, app_assoc, foldl_snoc.
  change (λ Y X, mul_block (xor_bytes Y X) h) with (ghash_step h).
  generalize dependent (foldl (ghash_step h) (replicate 16 0) (chunks_exact 16 C ++ padded (chunks_remainder 16 C))).
  intros y Hy. destruct (ghash_update_ok h y (replicate 8 0 ++ be_bytes 8 (8 * Z.of_nat (length C))) Hh Hy) as [-> Hz].
  { split; [by rewrite length_app, length_be_bytes|]. apply Forall_app.
    split; [apply Forall_replicate; unfold byte_ok; lia|apply be_bytes_ok]. }
  rewrite bind_Done. unfold Ghash_finalize. cbn [gh_y]. rewrite Hmask, bind_Done.
  rewrite tag_loop_ok by assumption. split; [reflexivity|]. by apply block_xor.
Qed.
End Cipher.

(** The comparison visits every byte and decides equality. *)
Lemma lor_zero a b : Z.lor a b =? 0 = (a =? 0) && (b =? 0).
Proof.
  destruct (Z.eqb_spec a 0) as [->|Ha], (Z.eqb_spec b 0) as [->|Hb]; cbn [andb];
    apply Z.eqb_eq || apply Z.eqb_neq; rewrite ?Z.lor_eq_0_iff; naive_solver.
Qed.

Lemma constant_time_eq_ok a b :
  length a = 16%nat → length b = 16%nat → constant_time_eq_16 a b = Done (bool_decide (a = b)).
Proof.
  intros Ha Hb. unfold constant_time_eq_16.
  rewrite (for_range_fold0 (λ d i, Z.lor d (Z.lxor (nth i a 0) (nth i b 0))))
    by (intros j d Hj; by rewrite !slot_get_nth0, !bind_Done by lia).
  rewrite bind_Done. f_equal.
  assert (Hf : ∀ l d, (foldl (λ d i, Z.lor d (Z.lxor (nth i a 0) (nth i b 0))) d l =? 0) =
    (d =? 0) && forallb (λ i, nth i a 0 =? nth i b 0) l).
  { induction l as [|i l IH]; intros d; cbn [foldl forallb]; [by rewrite andb_true_r|].
    rewrite IH, lor_zero, <- andb_assoc. do 2 f_equal. apply eq_bool_prop_intro.
    rewrite !Is_true_true, !Z.eqb_eq. apply Z.lxor_eq_0_iff. }
  rewrite Hf. cbn [Z.eqb andb]. apply eq_bool_prop_intro. rewrite Is_true_true, bool_decide_spec, forallb_forall.
  split; [|intros -> i _; apply Z.eqb_refl]. intros H. apply (nth_ext _ _ 0 0); [congruence|]. intros i Hi.
  apply Z.eqb_eq, H, in_seq. lia.
Qed.

(** ** The entry points *)

Definition key_ok (key : list Z) : Prop := length key = 32%nat ∧ Forall byte_ok key.
Definition iv_ok (iv : list Z) : Prop := length iv = 12%nat ∧ Forall byte_ok iv.

(** AES-256 under [key], as FIPS 197 defines it. *)
Definition aes256 (key : list Z) : list Z → list Z := Fips197.Cipher (Fips197.KeyExpansion key).

Definition sealed (key iv plaintext : list Z) : list Z :=
  let C := GCTR (aes256 key) iv 2 plaintext in tag (aes256 key) iv C ++ iv ++ C.

Lemma encrypt_ok key iv plaintext :
  key_ok key → iv_ok iv → Forall byte_ok plaintext → encrypt iv key plaintext = Done (sealed key iv plaintext).
Proof.
  intros [Hk Hkb] [Hl Hb] Hp. unfold encrypt, sealed, aes256. cbv zeta.
  destruct (key_schedule_ok key Hk Hkb) as (-> & Hwl & Hwb). rewrite bind_Done.
  assert (Hw : schedule_ok (Fips197.KeyExpansion key)) by (split; assumption).
  generalize dependent (Fips197.KeyExpansion key). intros w _ _ Hw.
  rewrite make_j0_ok, bind_Done, inc32_ok, bind_Done by done. change (1 + 1) with 2.
  rewrite replicate_add. change TAG_SIZE with 16. change IV_SIZE with 12.
  change (replicate 28 0) with (replicate 16 0 ++ replicate 12 0). rewrite <- app_assoc.
  rewrite copy_at_ok, bind_Done by (rewrite ?length_replicate; done).
  replace (replicate 16 0 ++ iv ++ replicate (length plaintext) 0)
    with ((replicate 16 0 ++ iv) ++ replicate (length plaintext) 0 ++ []) by (by rewrite app_nil_r, <- app_assoc).
  assert (Hh : length (replicate 16 0 ++ iv) = 28%nat) by (rewrite length_app, Hl; done).
  rewrite copy_at_ok, bind_Done by (rewrite ?Hh, ?length_replicate; done). rewrite app_nil_r.
  assert (Hs : ∀ d : list Z, slice ((replicate 16 0 ++ iv) ++ d) (16 + 12) (Z.of_nat (length ((replicate 16 0 ++ iv) ++ d))) = Done d).
  { intros d. rewrite slice_ok by (rewrite length_app; lia). change (16 + 12) with 28. norm_index.
    rewrite drop_app_length' by done. by rewrite take_ge by (rewrite (length_app (_ ++ _)); lia). }
  rewrite Hs, bind_Done. unfold ctr_apply_keystream.
  destruct (ctr_loop_ok w Hw iv (S (length plaintext)) plaintext 2 Hl Hb ltac:(lia)) as [ctr ->]. rewrite bind_Done.
  destruct (GCTR_facts w Hw iv 2 plaintext Hl Hb Hp) as (HCl & HCb & _).
  generalize dependent (GCTR (Fips197.Cipher w) iv 2 plaintext). intros C HCl HCb.
  rewrite <- (app_nil_r plaintext). rewrite copy_at_ok, app_nil_r, bind_Done by (rewrite ?Hh; done).
  rewrite Hs, bind_Done. destruct (compute_tag_ok w Hw iv C Hl Hb HCb) as [-> [Htl _]]. rewrite bind_Done.
  generalize dependent (tag (Fips197.Cipher w) iv C). intros t Htl. rewrite <- app_assoc.
  rewrite (copy_at_ok [] (replicate 16 0) (iv ++ C)) by done. done.
Qed.

(** What [decrypt] answers for a message of at least 28 bytes. *)
Definition opened (key message : list Z) : result (list Z) AesGcmError :=
  let iv := take 12 (drop 16 message) in
  let C := drop 28 message in
  if bool_decide (take 16 message = tag (aes256 key) iv C) then Ok (GCTR (aes256 key) iv 2 C)
  else Err AuthenticationFailure.

Lemma decrypt_ok key message :
  key_ok key → Forall byte_ok message →
  decrypt key message =
    Done (if bool_decide (28 ≤ length message)%nat then opened key message else Err CiphertextTooShort).
Proof.
  intros [Hk Hkb] Hm. unfold decrypt, opened, aes256, GCM_OVERHEAD. change TAG_SIZE with 16. change IV_SIZE with 12.
  change (16 + 12) with 28. destruct (Z.ltb_spec (Z.of_nat (length message)) 28) as [Hs|Hs].
  { by rewrite bool_decide_false by lia. }
  rewrite bool_decide_true by lia. rewrite !slice_ok, !bind_Done by lia.
  change (Z.to_nat (16 - 0)) with 16%nat. change (Z.to_nat (28 - 16)) with 12%nat. norm_index.
  rewrite drop_0, (take_ge (drop 28 message)) by (rewrite length_drop; lia).
  destruct (key_schedule_ok key Hk Hkb) as (-> & Hwl & Hwb). rewrite bind_Done. cbv zeta.
  assert (Hw : schedule_ok (Fips197.KeyExpansion key)) by (split; assumption).
  generalize dependent (Fips197.KeyExpansion key). intros w _ _ Hw.
  assert (Hl : length (take 12 (drop 16 message)) = 12%nat) by (rewrite length_take, length_drop; lia).
  assert (Hb : Forall byte_ok (take 12 (drop 16 message))) by (by apply Forall_take, Forall_drop).
  rewrite make_j0_ok, bind_Done by done.
  destruct (compute_tag_ok w Hw _ (drop 28 message) Hl Hb (Forall_drop _ _ _ Hm)) as [-> [Htl _]]. rewrite bind_Done.
  rewrite constant_time_eq_ok, bind_Done by (rewrite ?length_take; lia || assumption).
  destruct (bool_decide (take 16 message = _)); cbn [negb]; [|reflexivity].
  rewrite inc32_ok, bind_Done by done. unfold ctr_apply_keystream. change (1 + 1) with 2.
  destruct (ctr_loop_ok w Hw _ (S (length (drop 28 message))) (drop 28 message) 2 Hl Hb ltac:(lia)) as [ctr ->].
  rewrite bind_Done. reflexivity.
Qed.

Lemma sealed_parts key iv plaintext :
  key_ok key → iv_ok iv → Forall byte_ok plaintext →
  let m := sealed key iv plaintext in
  let C := GCTR (aes256 key) iv 2 plaintext in
  Forall byte_ok m ∧ length m = (28 + length plaintext)%nat ∧
  take 16 m = tag (aes256 key) iv C ∧ take 12 (drop 16 m) = iv ∧ drop 28 m = C ∧
  GCTR (aes256 key) iv 2 C = plaintext.
Proof.
  intros [Hk Hkb] [Hl Hb] Hp. unfold sealed, aes256. cbv zeta.
  destruct (key_schedule_ok key Hk Hkb) as (_ & Hwl & Hwb).
  assert (Hw : schedule_ok (Fips197.KeyExpansion key)) by (split; assumption).
  generalize dependent (Fips197.KeyExpansion key). intros w _ _ Hw.
  destruct (GCTR_facts w Hw iv 2 plaintext Hl Hb Hp) as (HCl & HCb & HCC).
  generalize dependent (GCTR (Fips197.Cipher w) iv 2 plaintext). intros C HCl HCb HCC.
  destruct (compute_tag_ok w Hw iv C Hl Hb HCb) as [_ [Htl Htb]].
  generalize dependent (tag (Fips197.Cipher w) iv C). intros t Htl Htb. split_and!.
  - by rewrite !Forall_app.
  - rewrite !length_app. lia.
  - by apply take_app_length'.
  - rewrite drop_app_length' by done. by apply take_app_length'.
  - rewrite app_assoc. apply drop_app_length'. rewrite length_app. lia.
  - exact HCC.
Qed.

(** C21. [encrypt] is AES-256-GCM as SP 800-38D defines it, for every key, IV
    and plaintext of any length: the output is the tag, the IV and the
    ciphertext, where the ciphertext is GCTR from counter 2 with the counter
    wrapping at 32 bits, and the tag is the GHASH of the zero-padded ciphertext
    and its length under the product of GF(2^128), masked with counter 1. *)
Theorem gcm_encrypt_correct (key iv plaintext : list Z) :
  key_ok key → iv_ok iv → Forall byte_ok plaintext →
  encrypt iv key plaintext =
    Done (tag (aes256 key) iv (GCTR (aes256 key) iv 2 plaintext) ++ iv ++ GCTR (aes256 key) iv 2 plaintext).
Proof. apply encrypt_ok. Qed.

Ltac decide_bytes := apply (bool_decide_unpack _); vm_compute; exact I.

Lemma gcm_encrypt_correct_witness :
  encrypt (replicate 12 5) (replicate 32 7) (Z.of_nat <$> seq 0 37) =
    Done (tag (aes256 (replicate 32 7)) (replicate 12 5) (GCTR (aes256 (replicate 32 7)) (replicate 12 5) 2 (Z.of_nat <$> seq 0 37))
      ++ replicate 12 5 ++ GCTR (aes256 (replicate 32 7)) (replicate 12 5) 2 (Z.of_nat <$> seq 0 37)).
Proof.
  apply (gcm_encrypt_correct (replicate 32 7) (replicate 12 5) (Z.of_nat <$> seq 0 37));
    [split; [reflexivity|decide_bytes]|split; [reflexivity|decide_bytes]|decide_bytes].
Defined.

(** C20. Decryption accepts exactly the authentic messages: any byte string
    shorter than 28 bytes is rejected as too short, any other is decrypted when
    its first 16 bytes are the tag of its IV and ciphertext, and is rejected
    with an authentication failure otherwise; there is no panic on any input. *)
Theorem gcm_decrypt_correct (key message : list Z) :
  key_ok key → Forall byte_ok message →
  decrypt key message = Done
    (if bool_decide (length message < 28)%nat then Err CiphertextTooShort
     else
       let iv := take 12 (drop 16 message) in
       let C := drop 28 message in
       if bool_decide (take 16 message = tag (aes256 key) iv C) then Ok (GCTR (aes256 key) iv 2 C)
       else Err AuthenticationFailure).
Proof.
  intros Hk Hm. rewrite decrypt_ok by done. f_equal. destruct (decide (28 ≤ length message)%nat).
  - by rewrite bool_decide_true, bool_decide_false by lia.
  - by rewrite bool_decide_false, bool_decide_true by lia.
Qed.

Lemma gcm_decrypt_correct_witness :
  decrypt (replicate 32 7) (replicate 40 1) = Done
    (if bool_decide (length (replicate 40 1) < 28)%nat then Err CiphertextTooShort
     else
       let iv := take 12 (drop 16 (replicate 40 1)) in
       let C := drop 28 (replicate 40 1) in
       if bool_decide (take 16 (replicate 40 1) = tag (aes256 (replicate 32 7)) iv C)
       then Ok (GCTR (aes256 (replicate 32 7)) iv 2 C)
       else Err AuthenticationFailure).
Proof.
  apply (gcm_decrypt_correct (replicate 32 7) (replicate 40 1)); [split; [reflexivity|decide_bytes]|decide_bytes].
Defined.

(** Round trip and tampering: decrypting what [encrypt] produced gives the
    plaintext back, whatever IV was drawn; and the same message with any other
    tag is refused. *)
Theorem gcm_roundtrip (key iv plaintext : list Z) :
  key_ok key → iv_ok iv → Forall byte_ok plaintext →
  ∃ message, encrypt iv key plaintext = Done message ∧
    length message = (28 + length plaintext)%nat ∧
    decrypt key message = Done (Ok plaintext) ∧
    ∀ t, block_ok t → t ≠ take 16 message →
      decrypt key (t ++ drop 16 message) = Done (Err AuthenticationFailure).
Proof.
  intros Hk Hi Hp. destruct (sealed_parts key iv plaintext Hk Hi Hp) as (Hmb & Hml & Ht & Hiv & HC & Hpt).
  cbv zeta in *. exists (sealed key iv plaintext). rewrite (encrypt_ok key iv plaintext Hk Hi Hp).
  generalize dependent (sealed key iv plaintext). intros m Hmb Hml Ht Hiv HC. split_and!; [reflexivity|exact Hml|..].
  - rewrite decrypt_ok, bool_decide_true by (assumption || lia). unfold opened. cbv zeta.
    rewrite Hiv, HC, bool_decide_true by exact Ht. by rewrite Hpt.
  - intros t [Htl Htb] Hne. assert (Hb : Forall byte_ok (t ++ drop 16 m)) by (apply Forall_app; split; [done|by apply Forall_drop]).
    rewrite decrypt_ok, bool_decide_true by (done || rewrite length_app, length_drop; lia). unfold opened. cbv zeta.
    rewrite take_app_length', drop_app_length' by done. rewrite Hiv.
    replace (drop 28 (t ++ drop 16 m)) with (drop 28 m); [|rewrite drop_app_ge by lia; rewrite Htl, drop_drop; done].
    rewrite HC, bool_decide_false by (rewrite <- Ht; exact Hne). reflexivity.
Qed.

Lemma gcm_roundtrip_witness :
  ∃ message, encrypt (replicate 12 9) (replicate 32 1) [104; 105] = Done message ∧
    length message = 30%nat ∧
    decrypt (replicate 32 1) message = Done (Ok [104; 105]) ∧
    ∀ t, block_ok t → t ≠ take 16 message →
      decrypt (replicate 32 1) (t ++ drop 16 message) = Done (Err AuthenticationFailure).
Proof.
  apply (gcm_roundtrip (replicate 32 1) (replicate 12 9) [104; 105]);
    [split; [reflexivity|decide_bytes]|split; [reflexivity|decide_bytes]|decide_bytes].
Defined.
