(* ===== verification/Rng.v ===== *)
(** * Rng.v: random numbers

    [crypto/rng.rs]: the hardware entropy sources with their retries and
    fallbacks, the per-CPU pool behind [get_random_bytes], and the xoshiro256++
    generator behind [get_pseudo_random_bytes].  What the instructions RDRAND,
    RDSEED, RDTSC and CPUID and the HPET counter deliver is given as streams of
    readings; the functions return how many readings they consumed.  Disabling
    interrupts around a draw has no effect on the values. *)

From S2P Require Import Prelude Bytes Acpi.

Local Open Scope Z_scope.
Local Open Scope u64_scope.

Definition RESEED_INTERVAL : Z := 64.
Definition HW_RETRY_LIMIT : Z := 16.

(** ** Hardware *)

(** RDRAND and RDSEED deliver a value or clear the carry flag. *)
Record Hw := mk_Hw {
  cpuid1_ecx : Z; cpuid7_ebx : Z;
  rdrand : nat → option Z; rdseed : nat → option Z; tsc : nat → Z; hpet_counter : nat → Z
}.

(** Readings consumed so far. *)
Record Pos := mk_Pos { n_rdrand : nat; n_rdseed : nat; n_tsc : nat; n_hpet : nat }.

Definition Pos_0 : Pos := mk_Pos 0 0 0 0.

Definition has_rdrand (hw : Hw) : bool := Z.land (Z.shiftr (cpuid1_ecx hw) 30) 1 =? 1.
Definition has_rdseed (hw : Hw) : bool := Z.land (Z.shiftr (cpuid7_ebx hw) 18) 1 =? 1.

(** The retry loop: the value, if any, and the attempts made. *)
Fixpoint retry (attempts : nat) (stream : nat → option Z) (n : nat) : option Z * nat :=
  match attempts with
  | O => (None, n)
  | S attempts => match stream n with Some v => (Some v, S n) | None => retry attempts stream (S n) end
  end.

Definition rdrand64 (hw : Hw) (p : Pos) : option Z * Pos :=
  let '(v, n) := retry (Z.to_nat HW_RETRY_LIMIT) (rdrand hw) (n_rdrand p) in
  (v, mk_Pos n (n_rdseed p) (n_tsc p) (n_hpet p)).

Definition rdseed64 (hw : Hw) (p : Pos) : option Z * Pos :=
  let '(v, n) := retry (Z.to_nat HW_RETRY_LIMIT) (rdseed hw) (n_rdseed p) in
  (v, mk_Pos (n_rdrand p) n (n_tsc p) (n_hpet p)).

Definition rdtsc (hw : Hw) (p : Pos) : Z * Pos := (tsc hw (n_tsc p), mk_Pos (n_rdrand p) (n_rdseed p) (S (n_tsc p)) (n_hpet p)).
Definition read_counter (hw : Hw) (p : Pos) : Z * Pos :=
  (hpet_counter hw (n_hpet p), mk_Pos (n_rdrand p) (n_rdseed p) (n_tsc p) (S (n_hpet p))).

Definition P0 : Z := 0x2d358dccaa6c78a5.
Definition P1 : Z := 0x8bb84b93962eacc9.

(** The product of two [u64] fits in a [u128]. *)
Definition wymix (a b : Z) : Z := let r := a * b in Z.lxor (u64 r) (u64 (Z.shiftr r 64)).

Definition jitter_sample (hw : Hw) (p : Pos) : Z * Pos :=
  let '(tsc_before, p) := rdtsc hw p in
  let '(hpet_val, p) := read_counter hw p in
  let '(tsc_after, p) := rdtsc hw p in
  let a := wymix (Z.lxor tsc_before P0) (Z.lxor hpet_val P1) in
  let b := wymix (Z.lxor tsc_after P0) (Z.lxor (rotl 64 17 hpet_val) P1) in
  (Z.lxor a b, p).

(** [hpet] says whether an [HpetInfo] was passed. *)
Definition jitter (hw : Hw) (hpet : bool) (p : Pos) : Z * Pos := if hpet then jitter_sample hw p else rdtsc hw p.

Definition best_hardware_word (hw : Hw) (prefer_seed hpet : bool) (p : Pos) : Z * Pos :=
  if prefer_seed && has_rdseed hw then
    match rdseed64 hw p with
    | (Some v, p) => (v, p)
    | (None, p) => match rdrand64 hw p with (Some v, p) => (v, p) | (None, p) => jitter hw hpet p end
    end
  else if has_rdrand hw then
    match rdrand64 hw p with (Some v, p) => (v, p) | (None, p) => jitter hw hpet p end
  else jitter hw hpet p.

(** ** The pool *)

Record CpuRngState := mk_CpuRngState { pool : list Z; call_count : Z; pool_cursor : Z; xoshiro_state : list Z }.

Definition xor_mix (dst src : list Z) : outcome (list Z) :=
  for_range 4 0 (λ i dst,
    let offset := i * 8 in
    d ← slice dst offset (offset + 8); s ← slice src offset (offset + 8);
    copy_at dst offset (le_bytes 8 (Z.lxor (from_le d) (from_le s)))) dst.

Definition fill_seed_buffer (hw : Hw) (hpet : bool) (out : list Z) (p : Pos) : outcome (list Z * Pos) :=
  for_range 4 0 (λ chunk '(out, p),
    let '(word, p) := best_hardware_word hw true hpet p in
    out ← copy_at out (chunk * 8) (le_bytes 8 word); Done (out, p)) (out, p).

(** The state a draw works on: the cells and the hardware readings. *)
Abbreviation Rng := (PerCpu CpuRngState * Pos)%type.

Definition set_pool (v : list Z) (s : CpuRngState) : CpuRngState := mk_CpuRngState v (call_count s) (pool_cursor s) (xoshiro_state s).
Definition set_call_count (v : Z) (s : CpuRngState) : CpuRngState := mk_CpuRngState (pool s) v (pool_cursor s) (xoshiro_state s).
Definition set_pool_cursor (v : Z) (s : CpuRngState) : CpuRngState := mk_CpuRngState (pool s) (call_count s) v (xoshiro_state s).
Definition set_xoshiro (v : list Z) (s : CpuRngState) : CpuRngState := mk_CpuRngState (pool s) (call_count s) (pool_cursor s) v.

Definition rng_draw_8_bytes (hw : Hw) (cpu : Z) (r : Rng) : outcome (list Z * Rng) :=
  state ← PerCpu_get r.1 cpu;
  let cursor := pool_cursor state in
  w ← slice (pool state) cursor (cursor + 8);
  let pool_word := from_le w in
  cells ← PerCpu_get_mut r.1 cpu (set_pool_cursor (Z.land (cursor ⊞ 8) 0x18));
  let '(hardware_word, p) := best_hardware_word hw false false r.2 in
  Done (le_bytes 8 (Z.lxor hardware_word pool_word), (cells, p)).

Definition xoshiro256pp (state : list Z) : outcome (Z * list Z) :=
  s0 ← slot_get state 0; s1 ← slot_get state 1; s2 ← slot_get state 2; s3 ← slot_get state 3;
  let t := s0 ⊞ s3 in
  let result := rotl 64 23 t ⊞ s0 in
  let update := u64 (Z.shiftl s1 17) in
  let s2 := Z.lxor s2 s0 in
  let s3 := Z.lxor s3 s1 in
  let s1 := Z.lxor s1 s2 in
  let s0 := Z.lxor s0 s3 in
  let s2 := Z.lxor s2 update in
  let s3 := rotl 64 45 s3 in
  Done (result, [s0; s1; s2; s3]).

Definition prng_draw_8_bytes (cpu : Z) (r : Rng) : outcome (list Z * Rng) :=
  state ← PerCpu_get r.1 cpu;
  '(word, xs) ← xoshiro256pp (xoshiro_state state);
  cells ← PerCpu_get_mut r.1 cpu (set_xoshiro xs);
  Done (le_bytes 8 word, (cells, r.2)).

(** ** Entry points, on processor [cpu] *)

Definition init_cpu (hw : Hw) (cpu : Z) (r : Rng) : outcome Rng :=
  '(initial_pool, p) ← fill_seed_buffer hw true (replicate 32 0) r.2;
  w0 ← slice initial_pool 0 8; w1 ← slice initial_pool 8 16; w2 ← slice initial_pool 16 24; w3 ← slice initial_pool 24 32;
  cells ← PerCpu_init r.1 cpu (mk_CpuRngState initial_pool 0 0 [from_le w0; from_le w1; from_le w2; from_le w3]);
  Done (cells, p).

Definition reseed_cpu (hw : Hw) (cpu : Z) (r : Rng) : outcome Rng :=
  '(fresh, p) ← fill_seed_buffer hw true (replicate 32 0) r.2;
  state ← PerCpu_get r.1 cpu;
  mixed ← xor_mix (pool state) fresh;
  cells ← PerCpu_get_mut r.1 cpu (set_pool mixed);
  Done (cells, p).

(** The loop over whole chunks and the trailing partial one; every round
    consumes eight bytes of the buffer. *)
Fixpoint fill_chunks (fuel : nat) (draw : Rng → outcome (list Z * Rng)) (remaining : nat) (r : Rng) : outcome (list Z * Rng) :=
  match fuel with
  | O => OutOfFuel
  | S fuel =>
      if (8 <=? remaining)%nat then
        '(word, r) ← draw r;
        '(rest, r) ← fill_chunks fuel draw (remaining - 8) r;
        Done (word ++ rest, r)
      else if (remaining =? 0)%nat then Done ([], r)
      else '(word, r) ← draw r; part ← slice word 0 (Z.of_nat remaining); Done (part, r)
  end.

(** The reseed check of [get_random_bytes]. *)
Definition periodic_reseed (hw : Hw) (cpu : Z) (r : Rng) : outcome Rng :=
  state ← PerCpu_get r.1 cpu;
  '(mixed, p) ← (if call_count state mod RESEED_INTERVAL =? 0 then
                   '(fresh, p) ← fill_seed_buffer hw false (replicate 32 0) r.2;
                   mixed ← xor_mix (pool state) fresh; Done (mixed, p)
                 else Done (pool state, r.2));
  cells ← PerCpu_get_mut r.1 cpu (λ s, set_call_count (u32 (call_count s + 1)) (set_pool mixed s));
  Done (cells, p).

(** The buffer matters only through its length; the new contents are returned. *)
Definition get_random_bytes (hw : Hw) (cpu : Z) (buffer : list Z) (r : Rng) : outcome (list Z * Rng) :=
  if (length buffer =? 0)%nat then Done ([], r) else
  r ← periodic_reseed hw cpu r;
  fill_chunks (S (length buffer)) (rng_draw_8_bytes hw cpu) (length buffer) r.

Definition get_random_bytes_vec (hw : Hw) (cpu : Z) (n : nat) (r : Rng) : outcome (list Z * Rng) :=
  get_random_bytes hw cpu (replicate n 0) r.

Definition get_pseudo_random_bytes (cpu : Z) (buffer : list Z) (r : Rng) : outcome (list Z * Rng) :=
  if (length buffer =? 0)%nat then Done ([], r) else
  fill_chunks (S (length buffer)) (prng_draw_8_bytes cpu) (length buffer) r.

Definition get_pseudo_random_bytes_vec (cpu : Z) (n : nat) (r : Rng) : outcome (list Z * Rng) :=
  get_pseudo_random_bytes cpu (replicate n 0) r.

(** ** Words as bit vectors *)

(** Equalities between exclusive ors, bit by bit. *)
Ltac xor_bits := apply Z.bits_inj'; intros ? ?; rewrite ?Z.lxor_spec, ?Z.bits_0; repeat match goal with |- context [Z.testbit ?a ?b] => destruct (Z.testbit a b) end; reflexivity.

Lemma lxor_u64 a b : in_u64 a → in_u64 b → in_u64 (Z.lxor a b).
Proof.
  unfold in_u64. intros Ha Hb. assert (0 ≤ Z.lxor a b) as H0 by (apply Z.lxor_nonneg; lia). split; [done|].
  change W64 with (2 ^ 64) in *. destruct (decide (Z.lxor a b = 0)) as [->|Hne]; [done|]. apply Z.log2_lt_pow2; [lia|].
  pose proof (Z.log2_lxor a b ltac:(lia) ltac:(lia)) as Hl.
  assert (∀ x, 0 ≤ x < 2 ^ 64 → Z.log2 x < 64) as Hx.
  { intros x Hx. destruct (decide (x = 0)) as [->|]; [done|]. apply Z.log2_lt_pow2; lia. }
  pose proof (Hx a Ha). pose proof (Hx b Hb). lia.
Qed.

(** A rotation keeps the width, and rotating back undoes it. *)
Lemma rotl_split x n : in_u64 x → 0 < n < 64 → rotl 64 n x = x mod 2 ^ (64 - n) * 2 ^ n + x / 2 ^ (64 - n).
Proof.
  unfold in_u64, W64. intros Hx Hn. unfold rotl. rewrite Z.shiftr_div_pow2, Z.shiftl_mul_pow2 by lia.
  assert (2 ^ (64 - n) * 2 ^ n = 2 ^ 64) as Hp by (rewrite <- Z.pow_add_r by lia; f_equal; lia).
  replace (x * 2 ^ n mod 2 ^ 64) with (x mod 2 ^ (64 - n) * 2 ^ n) by (rewrite <- Hp, Z.mul_mod_distr_r by lia; done).
  assert (0 ≤ x / 2 ^ (64 - n) < 2 ^ n) as Hhi by (split; [apply Z.div_pos | apply Z.div_lt_upper_bound]; lia).
  by rewrite <- Z.shiftl_mul_pow2, lor_shiftl, Z.shiftl_mul_pow2 by lia.
Qed.

Lemma rotl_u64 x n : in_u64 x → 0 < n < 64 → in_u64 (rotl 64 n x).
Proof.
  intros Hx Hn. rewrite rotl_split by done. unfold in_u64, W64 in *.
  assert (2 ^ (64 - n) * 2 ^ n = 2 ^ 64) as Hp by (rewrite <- Z.pow_add_r by lia; f_equal; lia).
  pose proof (Z.mod_pos_bound x (2 ^ (64 - n)) ltac:(lia)).
  assert (0 ≤ x / 2 ^ (64 - n) < 2 ^ n) by (split; [apply Z.div_pos | apply Z.div_lt_upper_bound]; lia). nia.
Qed.

Lemma rotr_rotl x n : in_u64 x → 0 < n < 64 → rotr 64 n (rotl 64 n x) = x.
Proof.
  intros Hx Hn. rewrite rotl_split by done. unfold in_u64, W64 in Hx. unfold rotr.
  assert (2 ^ (64 - n) * 2 ^ n = 2 ^ 64) as Hp by (rewrite <- Z.pow_add_r by lia; f_equal; lia).
  pose proof (Z.mod_pos_bound x (2 ^ (64 - n)) ltac:(lia)) as Hlo. pose proof (Z.div_mod x (2 ^ (64 - n)) ltac:(lia)) as Hdm.
  assert (0 ≤ x / 2 ^ (64 - n) < 2 ^ n) as Hhi by (split; [apply Z.div_pos | apply Z.div_lt_upper_bound]; lia).
  set (lo := x mod 2 ^ (64 - n)) in *. set (hi := x / 2 ^ (64 - n)) in *. clearbody lo hi.
  rewrite Z.shiftr_div_pow2, Z.shiftl_mul_pow2 by lia.
  replace ((lo * 2 ^ n + hi) / 2 ^ n) with lo by (rewrite Z.div_add_l, (Z.div_small hi) by lia; lia).
  replace ((lo * 2 ^ n + hi) * 2 ^ (64 - n) mod 2 ^ 64) with (hi * 2 ^ (64 - n)).
  - rewrite Z.lor_comm, <- Z.shiftl_mul_pow2, lor_shiftl by lia. lia.
  - replace ((lo * 2 ^ n + hi) * 2 ^ (64 - n)) with (hi * 2 ^ (64 - n) + lo * 2 ^ 64) by (rewrite <- Hp; ring).
    rewrite Z.mod_add, Z.mod_small by nia. done.
Qed.

(** [<< 17] on a [u64] *)
Definition shl17 (x : Z) : Z := u64 (Z.shiftl x 17).

Lemma shl17_u64 x : in_u64 (shl17 x).
Proof. apply u64_range. Qed.

Lemma shl17_lxor a b : shl17 (Z.lxor a b) = Z.lxor (shl17 a) (shl17 b).
Proof.
  unfold shl17, u64, W64. rewrite Z.shiftl_lxor. apply Z.bits_inj'. intros i Hi. rewrite Z.lxor_spec.
  destruct (decide (i < 64)); [rewrite !Z.mod_pow2_bits_low, Z.lxor_spec by lia; done|by rewrite !Z.mod_pow2_bits_high by lia].
Qed.

Lemma shl17_four x : shl17 (shl17 (shl17 (shl17 x))) = 0.
Proof.
  unfold shl17, u64, W64. rewrite !Z.shiftl_mul_pow2 by lia. rewrite !Zmult_mod_idemp_l.
  rewrite <- Z.mul_assoc, Zmult_mod_idemp_l.
  transitivity (x * 2 ^ 4 * 2 ^ 64 mod 2 ^ 64); [f_equal; lia|by apply Z.mod_mul].
Qed.

(** [b ^ (b << 17)] determines [b]. *)
Definition unshl (x : Z) : Z := Z.lxor (Z.lxor x (shl17 x)) (Z.lxor (shl17 (shl17 x)) (shl17 (shl17 (shl17 x)))).

Lemma unshl_ok b : unshl (Z.lxor b (shl17 b)) = b.
Proof.
  unfold unshl. rewrite !shl17_lxor, shl17_four. set (b1 := shl17 b). set (b2 := shl17 b1). set (b3 := shl17 b2).
  clearbody b1 b2 b3. xor_bits.
Qed.

(** ** The xoshiro256++ engine *)

Definition xs_ok (s : list Z) : Prop := length s = 4%nat ∧ Forall in_u64 s.

Definition zero_state : list Z := [0; 0; 0; 0].

(** The published engine, one step and its output, and the inverse step. *)
Definition xo_step (s : list Z) : list Z :=
  match s with
  | [a; b; c; d] =>
      let c1 := Z.lxor c a in let d1 := Z.lxor d b in
      [Z.lxor a d1; Z.lxor b c1; Z.lxor c1 (shl17 b); rotl 64 45 d1]
  | _ => s
  end.

Definition xo_out (s : list Z) : Z := match s with [a; _; _; d] => rotl 64 23 (a ⊞ d) ⊞ a | _ => 0 end.

Definition xo_back (s : list Z) : list Z :=
  match s with
  | [a1; b1; c2; d2] =>
      let d1 := rotr 64 45 d2 in
      let a := Z.lxor a1 d1 in
      let b := unshl (Z.lxor b1 c2) in
      [a; b; Z.lxor (Z.lxor b1 b) a; Z.lxor d1 b]
  | _ => s
  end.

Ltac four s Hs := destruct s as [|?a [|?b [|?c [|?d [|]]]]]; try (destruct Hs as [Hs _]; discriminate Hs); destruct Hs as [_ Hs];
  apply Forall_cons in Hs as [? Hs]; apply Forall_cons in Hs as [? Hs]; apply Forall_cons in Hs as [? Hs]; apply Forall_cons in Hs as [? _].

Lemma xoshiro256pp_ok s : xs_ok s → xoshiro256pp s = Done (xo_out s, xo_step s).
Proof. intros Hs. four s Hs. reflexivity. Qed.

Lemma xo_step_ok s : xs_ok s → xs_ok (xo_step s).
Proof.
  intros Hs. four s Hs. split; [done|]. cbn [xo_step].
  repeat (apply Forall_cons; split); try apply Forall_nil; auto using lxor_u64, shl17_u64.
  apply rotl_u64; [by apply lxor_u64|lia].
Qed.

Lemma xo_back_step s : xs_ok s → xo_back (xo_step s) = s.
Proof.
  intros Hs. four s Hs. cbn [xo_step xo_back]. rewrite rotr_rotl by (lia || by apply lxor_u64).
  replace (Z.lxor (Z.lxor b (Z.lxor c a)) (Z.lxor (Z.lxor c a) (shl17 b))) with (Z.lxor b (shl17 b)) by xor_bits.
  rewrite unshl_ok. repeat f_equal; xor_bits.
Qed.

Lemma xo_step_zero s : xs_ok s → xo_step s = zero_state ↔ s = zero_state.
Proof.
  intros Hs. split; [|by intros ->]. intros E. rewrite <- (xo_back_step s Hs), E. reflexivity.
Qed.

(** ** Filling a buffer *)

Section fill.
Context {A : Type} (draw : Rng → outcome (list Z * Rng)) (R : A → Rng → Prop) (out : A → list Z) (next : A → A).
Context (Hdraw : ∀ a r, R a r → length (out a) = 8%nat ∧ ∃ r', draw r = Done (out a, r') ∧ R (next a) r').

(** The bytes of [k] draws from [a]. *)
Fixpoint drawn (k : nat) (a : A) : list Z := match k with O => [] | S k => out a ++ drawn k (next a) end.

Definition draws_for (n : nat) : nat := ((n + 7) / 8)%nat.

Lemma draws_for_more n : (8 ≤ n)%nat → draws_for n = S (draws_for (n - 8)).
Proof.
  intros Hn. unfold draws_for. replace (n + 7)%nat with (n - 8 + 7 + 1 * 8)%nat by lia. rewrite Nat.div_add by lia. lia.
Qed.

Lemma draws_for_tail n : (0 < n < 8)%nat → draws_for n = 1%nat.
Proof. intros Hn. unfold draws_for. replace (n + 7)%nat with ((n - 1) + 1 * 8)%nat by lia. rewrite Nat.div_add, Nat.div_small by lia. done. Qed.

Lemma fill_chunks_ok fuel n a r : (n < fuel)%nat → R a r →
  ∃ r', fill_chunks fuel draw n r = Done (take n (drawn (draws_for n) a), r') ∧ R (Nat.iter (draws_for n) next a) r' ∧
    length (take n (drawn (draws_for n) a)) = n.
Proof.
  revert n a r. induction fuel as [|fuel IH]; intros n a r Hn Hr; [lia|]. cbn [fill_chunks].
  destruct (Hdraw a r Hr) as (Hl & r1 & Hd & Hr1). destruct (Nat.leb_spec 8 n) as [H8|H8].
  - rewrite Hd, bind_Done. cbn beta iota. destruct (IH (n - 8)%nat (next a) r1 ltac:(lia) Hr1) as (r2 & -> & Hr2 & Hl2).
    rewrite bind_Done, (draws_for_more n H8). cbn [drawn]. exists r2. rewrite take_app, Hl, (take_ge (out a)) by lia.
    split; [done|]. split; [|rewrite length_app, Hl2; lia]. by rewrite Nat.iter_succ_r.
  - destruct (Nat.eqb_spec n 0) as [->|Hne]; [by exists r|]. rewrite Hd, bind_Done. cbn beta iota.
    rewrite slice_ok, bind_Done by lia. rewrite (draws_for_tail n) by lia. cbn [drawn Nat.iter nat_rect]. rewrite app_nil_r.
    change (Z.to_nat 0) with 0%nat. rewrite drop_0. replace (Z.to_nat (Z.of_nat n - 0)) with n by lia. exists r1.
    split; [done|]. split; [done|]. rewrite length_take. lia.
Qed.

End fill.

(** ** Mixing and seeding *)

Lemma lxor_digit x y a b : byte_ok x → byte_ok y → Z.lxor (x + 256 * a) (y + 256 * b) = Z.lxor x y + 256 * Z.lxor a b.
Proof.
  intros Hx Hy. pose proof (lxor_byte x y Hx Hy) as Hxy. unfold byte_ok in *.
  assert (∀ u v, 0 ≤ u < 256 → u + 256 * v = Z.lxor (Z.shiftl v 8) u) as Hs.
  { intros u v Hu. rewrite <- Z.add_nocarry_lxor.
    - rewrite Z.shiftl_mul_pow2 by lia. lia.
    - rewrite Z.shiftl_mul_pow2 by lia. apply (land_aligned _ _ 8); [lia|by apply Z.mod_mul|lia]. }
  rewrite !Hs by lia. rewrite Z.shiftl_lxor. xor_bits.
Qed.

Lemma le_bytes_lxor a b : Forall byte_ok a → Forall byte_ok b → length a = length b →
  le_bytes (length a) (Z.lxor (from_le a) (from_le b)) = xor_bytes a b.
Proof.
  intros Ha. revert b. induction Ha as [|x a Hx Ha IH]; intros b Hb Hl; destruct b as [|y b]; try done.
  apply Forall_cons in Hb as [Hy Hb]. injection Hl as Hl. cbn [from_le foldr length le_bytes]. change (foldr _ 0 ?l) with (from_le l).
  rewrite lxor_digit by done. pose proof (lxor_byte x y Hx Hy) as Hxy. unfold byte_ok in Hxy. unfold xor_bytes. cbn [zip_with]. f_equal.
  - rewrite (Z.mul_comm 256), Z.mod_add, Z.mod_small by lia. done.
  - rewrite (Z.mul_comm 256), Z.div_add, Z.div_small, Z.add_0_l by lia. by apply IH.
Qed.

Lemma xor_mix_step (l1 d l3 s1 s s3 : list Z) i :
  Z.of_nat (length l1) = i * 8 → Z.of_nat (length s1) = i * 8 → length d = 8%nat → length s = 8%nat → Forall byte_ok d → Forall byte_ok s →
  (x ← slice (l1 ++ d ++ l3) (i * 8) (i * 8 + 8); y ← slice (s1 ++ s ++ s3) (i * 8) (i * 8 + 8);
   copy_at (l1 ++ d ++ l3) (i * 8) (le_bytes 8 (Z.lxor (from_le x) (from_le y)))) = Done (l1 ++ xor_bytes d s ++ l3).
Proof.
  intros H1 H2 Hd Hs Bd Bs. assert (∀ (u v w : list Z), Z.of_nat (length u) = i * 8 → length v = 8%nat →
    slice (u ++ v ++ w) (i * 8) (i * 8 + 8) = Done v) as Hsl.
  { intros u v w Hu Hv. rewrite slice_ok by (rewrite ?length_app; lia). f_equal.
    replace (Z.to_nat (i * 8)) with (length u) by lia. rewrite drop_app_length.
    replace (Z.to_nat (i * 8 + 8 - i * 8)) with (length v) by lia. apply take_app_length. }
  rewrite !Hsl, !bind_Done by done. replace (le_bytes 8 _) with (xor_bytes d s) by (rewrite <- Hd; symmetry; apply le_bytes_lxor; congruence || done).
  apply copy_at_ok; [lia|]. rewrite length_xor_bytes. lia.
Qed.

Lemma four_chunks (l : list Z) : length l = 32%nat → Forall byte_ok l →
  ∃ a b c d, l = a ++ b ++ c ++ d ∧ (length a = 8%nat ∧ length b = 8%nat ∧ length c = 8%nat ∧ length d = 8%nat) ∧
    Forall byte_ok a ∧ Forall byte_ok b ∧ Forall byte_ok c ∧ Forall byte_ok d.
Proof.
  intros Hl Hb. exists (take 8 l), (take 8 (drop 8 l)), (take 8 (drop 16 l)), (drop 24 l).
  split; [|split; [rewrite !length_take, !length_drop; lia|split_and!; auto using Forall_take, Forall_drop]].
  rewrite <- (take_drop 8 l) at 1. f_equal. rewrite <- (take_drop 8 (drop 8 l)) at 1. f_equal. rewrite drop_drop.
  rewrite <- (take_drop 8 (drop (8 + 8) l)) at 1. by rewrite drop_drop.
Qed.

Lemma xor_mix_ok dst src : length dst = 32%nat → length src = 32%nat → Forall byte_ok dst → Forall byte_ok src →
  xor_mix dst src = Done (xor_bytes dst src).
Proof.
  intros Hd Hs Bd Bs. destruct (four_chunks dst Hd Bd) as (a & b & c & d & -> & (? & ? & ? & ?) & ? & ? & ? & ?).
  destruct (four_chunks src Hs Bs) as (e & f & g & h & -> & (? & ? & ? & ?) & ? & ? & ? & ?).
  assert (∀ u v, length u = 8%nat → length v = 8%nat → length (xor_bytes u v) = 8%nat) as Hx by (intros; rewrite length_xor_bytes; lia).
  pose proof (Hx a e ltac:(done) ltac:(done)) as Xa. pose proof (Hx b f ltac:(done) ltac:(done)) as Xb. pose proof (Hx c g ltac:(done) ltac:(done)) as Xc.
  unfold xor_mix. cbn [for_range]. cbv zeta.
  pose proof (xor_mix_step [] a (b ++ c ++ d) [] e (f ++ g ++ h) 0) as E0. cbn [app] in E0. rewrite E0, bind_Done by done.
  pose proof (xor_mix_step (xor_bytes a e) b (c ++ d) e f (g ++ h) (0 + 1)) as E1. rewrite E1, bind_Done by (done || lia).
  pose proof (xor_mix_step (xor_bytes a e ++ xor_bytes b f) c d (e ++ f) g h (0 + 1 + 1)) as E2.
  rewrite <- !app_assoc in E2. rewrite E2, bind_Done by (done || rewrite length_app; lia).
  pose proof (xor_mix_step (xor_bytes a e ++ xor_bytes b f ++ xor_bytes c g) d [] (e ++ f ++ g) h [] (0 + 1 + 1 + 1)) as E3.
  rewrite !app_nil_r, <- !app_assoc in E3. rewrite E3, bind_Done by (done || rewrite !length_app; lia).
  rewrite !xor_bytes_app by congruence. done.
Qed.

(** Successive words of the best source. *)
Fixpoint hw_words (hw : Hw) (prefer hpet : bool) (k : nat) (p : Pos) : list Z * Pos :=
  match k with
  | O => ([], p)
  | S k => let '(w, p) := best_hardware_word hw prefer hpet p in
           let '(ws, p) := hw_words hw prefer hpet k p in (w :: ws, p)
  end.

Lemma fill_seed_buffer_ok hw hpet p :
  fill_seed_buffer hw hpet (replicate 32 0) p =
    Done ((hw_words hw true hpet 4 p).1 ≫= le_bytes 8, (hw_words hw true hpet 4 p).2).
Proof.
  unfold fill_seed_buffer. cbn [for_range hw_words].
  destruct (best_hardware_word hw true hpet p) as [w0 p0]. destruct (best_hardware_word hw true hpet p0) as [w1 p1] eqn:E1.
  destruct (best_hardware_word hw true hpet p1) as [w2 p2] eqn:E2. destruct (best_hardware_word hw true hpet p2) as [w3 p3] eqn:E3.
  change (replicate 32 0) with ([] ++ replicate 32 0). rewrite (copy_at_app [] (replicate 32 0)) by (done || rewrite length_le_bytes; cbn; lia).
  rewrite !bind_Done. cbn beta iota. rewrite E1, length_le_bytes. cbn [app].
  rewrite (copy_at_app (le_bytes 8 w0)) by (rewrite ?length_le_bytes; done || cbn; lia). rewrite !bind_Done. cbn beta iota. rewrite E2, length_le_bytes.
  rewrite (app_assoc (le_bytes 8 w0)), (copy_at_app (le_bytes 8 w0 ++ le_bytes 8 w1)) by (rewrite ?length_app, ?length_le_bytes; done || cbn; lia).
  rewrite !bind_Done. cbn beta iota. rewrite E3, length_le_bytes.
  rewrite (app_assoc (le_bytes 8 w0 ++ le_bytes 8 w1)), (copy_at_app ((le_bytes 8 w0 ++ le_bytes 8 w1) ++ le_bytes 8 w2))
    by (rewrite ?length_app, ?length_le_bytes; done || cbn; lia).
  rewrite !bind_Done. cbn beta iota. reflexivity.
Qed.

(** ** What the entry points deliver *)

Record st_ok (s : CpuRngState) : Prop := {
  so_pool : length (pool s) = 32%nat ∧ Forall byte_ok (pool s);
  so_cursor : ∃ j, 0 ≤ j < 4 ∧ pool_cursor s = 8 * j;
  so_count : 0 ≤ call_count s < 2 ^ 32;
  so_xoshiro : xs_ok (xoshiro_state s)
}.

(** Processor [cpu] has state [s] and the other cells are those of [cells]. *)
Definition rng_at (cells : PerCpu CpuRngState) (cpu : Z) (s : CpuRngState) (p : Pos) (r : Rng) : Prop :=
  percpu_ok r.1 ∧ r.2 = p ∧ ∀ c, 0 ≤ c → view r.1 c = if decide (c = cpu) then Some s else view cells c.

(** The pool word the [j]-th draw is bound to. *)
Definition pool_word (pool : list Z) (j : Z) : Z := from_le (take 8 (drop (Z.to_nat (8 * (j mod 4))) pool)).

(** Hardware words bound to successive pool words. *)
Fixpoint bind_pool (pool : list Z) (j : Z) (ws : list Z) : list Z :=
  match ws with [] => [] | w :: ws => le_bytes 8 (Z.lxor w (pool_word pool j)) ++ bind_pool pool (j + 1) ws end.

Lemma pool_word_period pool j : pool_word pool (j + 4) = pool_word pool j.
Proof. unfold pool_word. by rewrite <- (Z.mod_add j 1 4) by done. Qed.

Lemma cursor_step j : Z.land (8 * (j mod 4) ⊞ 8) 0x18 = 8 * ((j + 1) mod 4).
Proof.
  rewrite <- (Zplus_mod_idemp_l j 1 4). pose proof (Z.mod_pos_bound j 4 ltac:(lia)) as Hj.
  assert (j mod 4 = 0 ∨ j mod 4 = 1 ∨ j mod 4 = 2 ∨ j mod 4 = 3) as [-> | [-> | [-> | ->]]] by lia; reflexivity.
Qed.

Section draws.
Context (cpu : Z) (Hcpu : 0 ≤ cpu < MAX_CPUS) (cells : PerCpu CpuRngState).

Lemma rng_at_get s p r : rng_at cells cpu s p r → PerCpu_get r.1 cpu = Done s ∧
  ∀ f, ∃ cells', PerCpu_get_mut r.1 cpu f = Done cells' ∧ ∀ p', rng_at cells cpu (f s) p' (cells', p').
Proof.
  intros (Hok & _ & Hv). assert (view r.1 cpu = Some s) as Hs by (rewrite Hv by lia; by rewrite decide_True).
  destruct (cell_update r.1 cpu Hok Hcpu s id Hs) as [Hget _]. split; [done|]. intros f.
  destruct (cell_update r.1 cpu Hok Hcpu s f Hs) as (_ & c' & Hm & Hok' & Hv'). exists c'. split; [done|]. intros p'.
  split; [done|]. split; [done|]. intros c Hc. cbn. rewrite Hv' by done. destruct (decide (c = cpu)) as [->|Hne]; [done|].
  rewrite Hv by done. by rewrite decide_False.
Qed.

(** One draw from the pool. *)
Lemma rng_draw_ok hw s j p r : length (pool s) = 32%nat → rng_at cells cpu (set_pool_cursor (8 * (j mod 4)) s) p r →
  ∃ r', rng_draw_8_bytes hw cpu r = Done (le_bytes 8 (Z.lxor (best_hardware_word hw false false p).1 (pool_word (pool s) j)), r') ∧
    rng_at cells cpu (set_pool_cursor (8 * ((j + 1) mod 4)) s) (best_hardware_word hw false false p).2 r'.
Proof.
  intros Hl Hr. destruct (rng_at_get _ _ _ Hr) as [Hg Hm]. unfold rng_draw_8_bytes. rewrite Hg, bind_Done. cbn [pool_cursor pool set_pool_cursor].
  pose proof (Z.mod_pos_bound j 4 ltac:(lia)) as Hj. rewrite slice_ok, bind_Done by lia.
  destruct (Hm (set_pool_cursor (Z.land (8 * (j mod 4) ⊞ 8) 0x18))) as (c' & -> & Hc'). rewrite bind_Done.
  destruct Hr as (_ & -> & _). destruct (best_hardware_word hw false false p) as [w p'] eqn:E. eexists. split.
  - unfold pool_word. by replace (Z.to_nat (8 * (j mod 4) + 8 - 8 * (j mod 4))) with 8%nat by lia.
  - rewrite <- cursor_step. apply Hc'.
Qed.

Lemma drawn_bind hw pool k j p :
  drawn (λ a : Z * Pos, le_bytes 8 (Z.lxor (best_hardware_word hw false false a.2).1 (pool_word pool a.1)))
    (λ a, (a.1 + 1, (best_hardware_word hw false false a.2).2)) k (j, p) = bind_pool pool j (hw_words hw false false k p).1 ∧
  Nat.iter k (λ a, (a.1 + 1, (best_hardware_word hw false false a.2).2)) (j, p) = (j + Z.of_nat k, (hw_words hw false false k p).2).
Proof.
  revert j p. induction k as [|k IH]; intros j p; [split; [done|]; cbn; by rewrite Z.add_0_r|].
  rewrite Nat.iter_succ_r. cbn [drawn hw_words fst snd]. destruct (best_hardware_word hw false false p) as [w p'] eqn:E.
  destruct (IH (j + 1) p') as [H1 H2]. cbn [fst snd]. rewrite H1, H2. destruct (hw_words hw false false k p') as [ws p2].
  split; [done|]. f_equal. lia.
Qed.

(** One draw from the engine. *)
Lemma prng_draw_ok s p r : xs_ok (xoshiro_state s) → rng_at cells cpu s p r →
  ∃ r', prng_draw_8_bytes cpu r = Done (le_bytes 8 (xo_out (xoshiro_state s)), r') ∧
    rng_at cells cpu (set_xoshiro (xo_step (xoshiro_state s)) s) p r'.
Proof.
  intros Hx Hr. destruct (rng_at_get _ _ _ Hr) as [Hg Hm]. unfold prng_draw_8_bytes. rewrite Hg, bind_Done, xoshiro256pp_ok, bind_Done by done.
  cbn beta iota. destruct (Hm (set_xoshiro (xo_step (xoshiro_state s)))) as (c' & -> & Hc'). rewrite bind_Done.
  destruct Hr as (_ & -> & _). eexists. split; [done|]. apply Hc'.
Qed.

End draws.

(** The reseed check, then the counter. *)
Definition reseeds (s : CpuRngState) : bool := call_count s mod RESEED_INTERVAL =? 0.
Definition seed_bytes (hw : Hw) (hpet : bool) (p : Pos) : list Z := (hw_words hw true hpet 4 p).1 ≫= le_bytes 8.
Definition reseeded_pool (hw : Hw) (p : Pos) (s : CpuRngState) : list Z :=
  if reseeds s then xor_bytes (pool s) (seed_bytes hw false p) else pool s.
Definition reseeded_pos (hw : Hw) (p : Pos) (s : CpuRngState) : Pos := if reseeds s then (hw_words hw true false 4 p).2 else p.

Lemma seed_bytes_ok hw hpet p : length (seed_bytes hw hpet p) = 32%nat ∧ Forall byte_ok (seed_bytes hw hpet p).
Proof.
  unfold seed_bytes. assert (length (hw_words hw true hpet 4 p).1 = 4%nat) as Hl.
  { cbn [hw_words]. repeat (destruct (best_hardware_word _ _ _ _)). reflexivity. }
  destruct (hw_words hw true hpet 4 p) as [[|a [|b [|c [|d [|]]]]] p']; try discriminate Hl. cbn [fst mbind list_bind].
  split; [reflexivity|]. repeat (apply Forall_app; split); apply le_bytes_ok || apply Forall_nil; done.
Qed.

Lemma reseeded_pool_ok hw p s : st_ok s → length (reseeded_pool hw p s) = 32%nat ∧ Forall byte_ok (reseeded_pool hw p s).
Proof.
  intros [[Hl Hb] _ _ _]. unfold reseeded_pool. destruct (reseeds s); [|done]. destruct (seed_bytes_ok hw false p) as [Hl' Hb'].
  split; [rewrite length_xor_bytes; lia|by apply xor_bytes_ok].
Qed.

Lemma periodic_reseed_ok hw cpu cells s p r : 0 ≤ cpu < MAX_CPUS → st_ok s → rng_at cells cpu s p r →
  ∃ r', periodic_reseed hw cpu r = Done r' ∧
    rng_at cells cpu (set_call_count (u32 (call_count s + 1)) (set_pool (reseeded_pool hw p s) s)) (reseeded_pos hw p s) r'.
Proof.
  intros Hc Hs Hr. destruct (rng_at_get cpu Hc cells _ _ _ Hr) as [Hg Hm]. unfold periodic_reseed. rewrite Hg, bind_Done.
  destruct (Hm (λ s0, set_call_count (u32 (call_count s0 + 1)) (set_pool (reseeded_pool hw p s) s0))) as (c' & Hc' & Hat).
  destruct Hr as (_ & -> & _). destruct Hs as [[Hl Hb] _ _ _].
  assert ((if call_count s mod RESEED_INTERVAL =? 0
           then '(fresh, p0) ← fill_seed_buffer hw false (replicate 32 0) p; mixed ← xor_mix (pool s) fresh; Done (mixed, p0)
           else Done (pool s, p)) = Done (reseeded_pool hw p s, reseeded_pos hw p s)) as ->.
  { unfold reseeded_pool, reseeded_pos, reseeds. destruct (_ =? 0); [|done]. rewrite fill_seed_buffer_ok, bind_Done. cbn beta iota.
    fold (seed_bytes hw false p). destruct (seed_bytes_ok hw false p). by rewrite xor_mix_ok, bind_Done. }
  rewrite bind_Done. cbn beta iota. rewrite Hc', bind_Done. eexists. split; [done|]. apply Hat.
Qed.

(** C35. [get_random_bytes] on an initialized processor, for any buffer length: the
    pool is folded with four fresh seed words exactly on every 64th call; then the
    buffer is filled with the little-endian bytes of successive hardware words,
    each exclusive-ored with the next of the four pool words, the last one
    truncated; the cursor and the call counter advance, the state stays well
    formed, and neither the pool otherwise, nor the pseudo-random state, nor the
    state of another processor changes. *)
Theorem get_random_bytes_spec (hw : Hw) (cpu : Z) (buffer : list Z) (cells : PerCpu CpuRngState) (s : CpuRngState) (p : Pos) (r : Rng) :
  0 ≤ cpu < MAX_CPUS → buffer ≠ [] → st_ok s → rng_at cells cpu s p r →
  let n := length buffer in let k := draws_for n in let j := pool_cursor s / 8 in
  let drawn := hw_words hw false false k (reseeded_pos hw p s) in
  ∃ bytes r' s', get_random_bytes hw cpu buffer r = Done (bytes, r') ∧ length bytes = n ∧
    bytes = take n (bind_pool (reseeded_pool hw p s) j drawn.1) ∧
    rng_at cells cpu s' drawn.2 r' ∧ st_ok s' ∧
    s' = mk_CpuRngState (reseeded_pool hw p s) (u32 (call_count s + 1)) (8 * ((j + Z.of_nat k) mod 4)) (xoshiro_state s).
Proof.
  intros Hc Hb Hs Hr n k j drawn. unfold get_random_bytes.
  destruct (Nat.eqb_spec (length buffer) 0) as [E|_]; [by apply nil_length_inv in E|].
  destruct (periodic_reseed_ok hw cpu cells s p r Hc Hs Hr) as (r1 & -> & Hr1). rewrite bind_Done.
  destruct (reseeded_pool_ok hw p s Hs) as [Hpl Hpb]. pose proof (so_cursor s Hs) as (j0 & Hj0 & Ecur).
  assert (j = j0) as Ej by (unfold j; rewrite Ecur, (Z.mul_comm 8), Z.div_mul by lia; done).
  set (s1 := set_call_count (u32 (call_count s + 1)) (set_pool (reseeded_pool hw p s) s)) in *.
  destruct (fill_chunks_ok (rng_draw_8_bytes hw cpu) (λ a r, rng_at cells cpu (set_pool_cursor (8 * (a.1 mod 4)) s1) a.2 r)
    (λ a : Z * Pos, le_bytes 8 (Z.lxor (best_hardware_word hw false false a.2).1 (pool_word (reseeded_pool hw p s) a.1)))
    (λ a, (a.1 + 1, (best_hardware_word hw false false a.2).2))) with (fuel := S (length buffer)) (n := length buffer) (a := (j, reseeded_pos hw p s)) (r := r1)
    as (r2 & -> & Hr2 & Hlen).
  - intros [i q] r0 Hi. split; [apply length_le_bytes|]. by apply (rng_draw_ok cpu Hc cells hw s1 i q r0).
  - lia.
  - cbn [fst snd]. rewrite Ej, Z.mod_small by lia. replace (set_pool_cursor (8 * j0) s1) with s1; [done|].
    unfold s1, set_pool_cursor, set_call_count, set_pool. cbn. by rewrite Ecur.
  - destruct (drawn_bind hw (reseeded_pool hw p s) (draws_for (length buffer)) j (reseeded_pos hw p s)) as [H1 H2]. rewrite H2 in Hr2. cbn [fst snd] in Hr2.
    eexists _, r2, _. split; [done|]. split; [done|]. split; [by rewrite H1|]. split; [exact Hr2|]. split; [|done].
    split; [done| |apply Z.mod_pos_bound; lia|apply Hs]. eexists. split; [|reflexivity]. apply Z.mod_pos_bound. lia.
Qed.

Lemma xo_iter_ok k xs : xs_ok xs →
  xs_ok (Nat.iter k xo_step xs) ∧ Nat.iter k xo_back (Nat.iter k xo_step xs) = xs ∧ (Nat.iter k xo_step xs = zero_state ↔ xs = zero_state).
Proof.
  intros Hx. induction k as [|k (Hok & Hb & Hz)]; [done|]. rewrite !(Nat.iter_succ k _ xo_step).
  split; [by apply xo_step_ok|]. split; [|by rewrite xo_step_zero]. by rewrite Nat.iter_succ_r, xo_back_step.
Qed.

Lemma drawn_zero k : drawn (λ xs, le_bytes 8 (xo_out xs)) xo_step k zero_state = replicate (8 * k) 0.
Proof.
  induction k as [|k IH]; [done|]. cbn [drawn]. change (xo_step zero_state) with zero_state. rewrite IH.
  change (le_bytes 8 (xo_out zero_state)) with (replicate 8 0). rewrite <- replicate_add. f_equal. lia.
Qed.

Lemma draws_enough n : (n ≤ 8 * draws_for n)%nat.
Proof. unfold draws_for. pose proof (Nat.div_mod (n + 7) 8 ltac:(lia)). pose proof (Nat.mod_upper_bound (n + 7) 8 ltac:(lia)). lia. Qed.

(** The pseudo-random generator.  A state of four 64-bit words is stepped as
    the published xoshiro256++ engine prescribes and the buffer filled with its
    outputs; the step is invertible, so the all-zero state, in which the generator
    is stuck and delivers only zeros, is reached exactly from itself. *)
Theorem pseudo_random_spec (cpu : Z) (buffer : list Z) (cells : PerCpu CpuRngState) (s : CpuRngState) (p : Pos) (r : Rng) :
  0 ≤ cpu < MAX_CPUS → buffer ≠ [] → xs_ok (xoshiro_state s) → rng_at cells cpu s p r →
  let n := length buffer in let k := draws_for n in
  ∃ bytes r', get_pseudo_random_bytes cpu buffer r = Done (bytes, r') ∧ length bytes = n ∧
    bytes = take n (drawn (λ xs, le_bytes 8 (xo_out xs)) xo_step k (xoshiro_state s)) ∧
    let xs' := Nat.iter k xo_step (xoshiro_state s) in
    rng_at cells cpu (set_xoshiro xs' s) p r' ∧ xs_ok xs' ∧ Nat.iter k xo_back xs' = xoshiro_state s ∧
    (xs' = zero_state ↔ xoshiro_state s = zero_state) ∧ (xoshiro_state s = zero_state → bytes = replicate n 0).
Proof.
  intros Hc Hb Hx Hr n k. unfold get_pseudo_random_bytes.
  destruct (Nat.eqb_spec (length buffer) 0) as [E|_]; [by apply nil_length_inv in E|].
  destruct (fill_chunks_ok (prng_draw_8_bytes cpu) (λ xs r, xs_ok xs ∧ rng_at cells cpu (set_xoshiro xs s) p r)
    (λ xs, le_bytes 8 (xo_out xs)) xo_step) with (fuel := S (length buffer)) (n := length buffer) (a := xoshiro_state s) (r := r) as (r' & -> & [Hx' Hr'] & Hlen).
  - intros xs r0 [Hxs Hr0]. split; [apply length_le_bytes|]. destruct (prng_draw_ok cpu Hc cells (set_xoshiro xs s) p r0 Hxs Hr0) as (r1 & Hd & Hr1).
    exists r1. split; [exact Hd|]. split; [by apply xo_step_ok|exact Hr1].
  - lia.
  - split; [done|]. by destruct s.
  - destruct (xo_iter_ok (draws_for (length buffer)) (xoshiro_state s) Hx) as (Hok & Hback & Hz). eexists _, r'. split; [done|]. split; [done|].
    split; [done|]. cbv zeta. split; [exact Hr'|]. split; [done|]. split; [done|]. split; [done|].
    intros ->. rewrite drawn_zero, take_replicate. f_equal. pose proof (draws_enough n). unfold k, n in *. lia.
Qed.

(** ** Initialization *)

(** [init_cpu] seeds pool and engine from the same four words; the engine starts
    in the all-zero state exactly when all four are zero, which nothing checks. *)
Theorem init_cpu_spec (hw : Hw) (cpu : Z) (cells : PerCpu CpuRngState) (p : Pos) :
  0 ≤ cpu < MAX_CPUS → percpu_ok cells → view cells cpu = None →
  let ws := (hw_words hw true true 4 p).1 in
  ∃ r s, init_cpu hw cpu (cells, p) = Done r ∧ rng_at cells cpu s (hw_words hw true true 4 p).2 r ∧ st_ok s ∧
    s = mk_CpuRngState (ws ≫= le_bytes 8) 0 0 (u64 <$> ws) ∧ (xoshiro_state s = zero_state ↔ u64 <$> ws = replicate 4 0).
Proof.
  intros Hc Hok Hv ws. unfold init_cpu. rewrite fill_seed_buffer_ok, bind_Done. cbn beta iota. cbn [fst snd]. fold (seed_bytes hw true p).
  destruct (seed_bytes_ok hw true p) as [Hl Hb]. assert (length ws = 4%nat) as Hw.
  { unfold ws. cbn [hw_words]. repeat (destruct (best_hardware_word _ _ _ _)). reflexivity. }
  assert (seed_bytes hw true p = ws ≫= le_bytes 8) as Es by done. generalize dependent (seed_bytes hw true p).
  generalize (hw_words hw true true 4 p).2. clearbody ws. intros q sb Hl Hb ->.
  destruct ws as [|a [|b [|c [|d [|]]]]]; try discriminate Hw. set (pl := [a; b; c; d] ≫= le_bytes 8) in *.
  assert (∀ v, from_le (le_bytes 8 v) = u64 v) as Hfl by (intros v; apply from_le_bytes).
  assert (Z.of_nat (length pl) = 32) as Hl32 by (rewrite Hl; done).
  rewrite (slice_ok pl 0 8), (slice_ok pl 8 16), (slice_ok pl 16 24), (slice_ok pl 24 32) by lia. rewrite !bind_Done.
  change (from_le (take (Z.to_nat (8 - 0)) (drop (Z.to_nat 0) pl))) with (from_le (le_bytes 8 a)).
  change (from_le (take (Z.to_nat (16 - 8)) (drop (Z.to_nat 8) pl))) with (from_le (le_bytes 8 b)).
  change (from_le (take (Z.to_nat (24 - 16)) (drop (Z.to_nat 16) pl))) with (from_le (le_bytes 8 c)).
  change (from_le (take (Z.to_nat (32 - 24)) (drop (Z.to_nat 24) pl))) with (from_le (le_bytes 8 d)). rewrite !Hfl.
  destruct (cell_init cells cpu Hok Hc (mk_CpuRngState pl 0 0 [u64 a; u64 b; u64 c; u64 d]) Hv) as (c' & Hi & Hok' & Hv').
  cbn [fst]. rewrite Hi, bind_Done. eexists _, _. split; [done|]. split; [by split_and!|]. split; [|by split].
  split; [done|exists 0; done|cbn; lia|]. split; [done|]. repeat (apply Forall_cons; split); try apply Forall_nil; apply u64_range || done.
Qed.

(** Hardware whose RDRAND and RDSEED always succeed, with the given words. *)
Definition demo_hw (w : nat → Z) : Hw := mk_Hw (2 ^ 30) (2 ^ 18) (λ n, Some (w n)) (λ n, Some (w n)) (λ _, 0) (λ _, 0).

Lemma init_cpu_spec_witness :
  ∃ r s, init_cpu (demo_hw (λ _, 0)) 0 (PerCpu_new, Pos_0) = Done r ∧ rng_at PerCpu_new 0 s (mk_Pos 0 4 0 0) r ∧ st_ok s ∧
    xoshiro_state s = zero_state.
Proof.
  destruct (percpu_new_ok (T:=CpuRngState)) as [Hok Hv].
  destruct (init_cpu_spec (demo_hw (λ _, 0)) 0 PerCpu_new Pos_0 ltac:(done) Hok (Hv 0)) as (r & s & Hi & Hr & Hs & _ & Hz).
  exists r, s. split; [exact Hi|]. split; [exact Hr|]. split; [exact Hs|]. apply Hz. reflexivity.
Defined.

(** A processor initialized with the words 1, 2, 3, 4. *)
Definition demo_state : CpuRngState := mk_CpuRngState ([1; 2; 3; 4] ≫= le_bytes 8) 0 0 [1; 2; 3; 4].
Definition demo_cells : PerCpu CpuRngState := MkPerCpu (<[0%nat := Some demo_state]> (replicate 64 None)) (<[0%nat := true]> (replicate 64 false)).

Lemma demo_at : rng_at PerCpu_new 0 demo_state Pos_0 (demo_cells, Pos_0).
Proof.
  destruct (percpu_new_ok (T:=CpuRngState)) as [Hok _].
  destruct (write_slot PerCpu_new 0 demo_state Hok ltac:(done)) as [H1 H2]. split; [exact H1|]. split; [done|exact H2].
Qed.

Lemma demo_state_ok : st_ok demo_state.
Proof.
  split; [split; [done|]|exists 0; done|cbn; lia|split; [done|]].
  - apply (bool_decide_unpack _). vm_compute. exact I.
  - repeat (apply Forall_cons; split; [done|]). by apply Forall_nil.
Qed.

Lemma get_random_bytes_spec_witness :
  ∃ bytes r', get_random_bytes (demo_hw (λ n, Z.of_nat n)) 0 (replicate 11 0) (demo_cells, Pos_0) = Done (bytes, r') ∧ length bytes = 11%nat.
Proof.
  destruct (get_random_bytes_spec (demo_hw (λ n, Z.of_nat n)) 0 (replicate 11 0) PerCpu_new demo_state Pos_0 (demo_cells, Pos_0)
    ltac:(done) ltac:(done) demo_state_ok demo_at) as (bytes & r' & s' & Hrun & Hlen & _).
  exists bytes, r'. split; [exact Hrun|exact Hlen].
Defined.

Lemma pseudo_random_spec_witness :
  ∃ bytes r', get_pseudo_random_bytes 0 (replicate 11 0) (demo_cells, Pos_0) = Done (bytes, r') ∧
    bytes = take 11 (drawn (λ xs, le_bytes 8 (xo_out xs)) xo_step 2 [1; 2; 3; 4]).
Proof.
  destruct (pseudo_random_spec 0 (replicate 11 0) PerCpu_new demo_state Pos_0 (demo_cells, Pos_0)
    ltac:(done) ltac:(done) (so_xoshiro _ demo_state_ok) demo_at) as (bytes & r' & Hrun & _ & Hb & _).
  exists bytes, r'. split; [exact Hrun|exact Hb].
Defined.

(** Draws do not change the pool, so draws four apart are bound to the same pool
    word, which cancels from their exclusive or. *)
Theorem pool_cancels (pool : list Z) (j w w' : Z) :
  Z.lxor (Z.lxor w (pool_word pool j)) (Z.lxor w' (pool_word pool (j + 4))) = Z.lxor w w'.
Proof. rewrite pool_word_period. generalize (pool_word pool j). intros x. xor_bits. Qed.
