(* ===== verification/Exceptions.v ===== *)
(** * Exceptions.v: the interrupt handlers

    The handlers of [processor_control/idt.rs] as functions on the whole system:
    what they print on the serial line, whether they return, halt or kill the
    current task, and which of them acknowledge the interrupt.  The tables and
    trampolines that lead to them are in Idt.v, the scheduler and the keyboard
    driver they call in Scheduler.v and Keyboard.v. *)

From S2P Require Import Prelude Machine Task Queues SleepQueue Scheduler SchedulerInv Bytes Text Helpers Keyboard Gdt Idt.

Local Open Scope Z_scope.

(** The system a handler runs on: the driver with the kernel, and for every
    end-of-interrupt write the state in which it was made.  The kernel state holds
    what was sent to the serial line. *)
Record Sys := mk_Sys { driver : Driver; eois : list Driver }.

(** A handler returns to its stub, or stops the processor. *)
Inductive ending := Returns | Halts.

Definition serial (s : Sys) : list Z := k_serial (kernel (driver s)).
Definition set_driver (d : Driver) (s : Sys) : Sys := mk_Sys d (eois s).
Definition put_kernel (k : Kernel) (s : Sys) : Sys := set_driver (set_kernel k (driver s)) s.

Definition sprint (msg : list Z) (s : Sys) : Sys := put_kernel (ksprint msg (kernel (driver s))) s.

Definition print_u64_field (label : list Z) (value : Z) (s : Sys) : outcome Sys :=
  let s := sprint label s in
  hex ← u64_to_hex_bytes value;
  hex ← from_utf8_unchecked hex;
  Done (sprint NL (sprint hex s)).

(** [hardware_manager::eoi] *)
Definition eoi (s : Sys) : Sys := mk_Sys (driver s) (eois s ++ [driver s]).

Definition frame_fields : list (string * (InterruptFrame → Z)) :=
  [("  RIP    = ", f_rip); ("  CS     = ", f_cs); ("  RFLAGS = ", f_rflags); ("  RSP    = ", f_rsp); ("  SS     = ", f_ss);
   ("  ERR    = ", f_error_code); ("  RAX    = ", f_rax); ("  RBX    = ", f_rbx); ("  RCX    = ", f_rcx);
   ("  RDX    = ", f_rdx); ("  RSI    = ", f_rsi); ("  RDI    = ", f_rdi); ("  RBP    = ", f_rbp); ("  R8     = ", f_r8);
   ("  R9     = ", f_r9); ("  R10    = ", f_r10); ("  R11    = ", f_r11); ("  R12    = ", f_r12); ("  R13    = ", f_r13);
   ("  R14    = ", f_r14); ("  R15    = ", f_r15)]%string.

Definition print_frame (frame : InterruptFrame) (s : Sys) : outcome Sys :=
  let s := sprint (bytes_of "----- Register Dump -----" ++ NL) s in
  s ← for_each frame_fields (λ f s, print_u64_field (bytes_of f.1) (f.2 frame) s) s;
  Done (sprint (bytes_of "----- End Dump -----" ++ NL) s).

(** [cpu_halt] never returns. *)
Definition cpu_halt (s : Sys) : outcome (ending * Sys) := Done (Halts, s).

Definition exception_halt (msg : string) (frame : InterruptFrame) (s : Sys) : outcome (ending * Sys) :=
  let s := sprint (NL ++ bytes_of "[EXCEPTION] " ++ bytes_of msg ++ NL) s in
  s ← print_frame frame s; cpu_halt s.

(** [try_kill_current_task] with its output; a switch away resumes another
    task, whose own interrupt return follows. *)
Definition try_kill (reason : string) (frame : InterruptFrame) (s : Sys) : outcome (ending * Sys) :=
  task_id ← get_current_task_id (kernel (driver s));
  if decide (task_id ≠ TaskId_IDLE) then
    s ← print_u64_field (NL ++ bytes_of "[TASK FAULT] Task ") (slot_index task_id) s;
    let s := sprint NL (sprint (bytes_of reason) (sprint (bytes_of " killed due to: ") s)) in
    s ← print_frame frame s;
    k ← try_kill_current_task (kernel (driver s));
    Done (Returns, put_kernel k s)
  else
    let s := sprint (bytes_of " in kernel context. Halting..." ++ NL)
               (sprint (bytes_of reason) (sprint (NL ++ bytes_of "[KERNEL FAULT] ") s)) in
    s ← print_frame frame s; cpu_halt s.

(** The lines of the page fault report. *)
Definition page_fault_text (ec : Z) : list Z :=
  (if Z.land ec 1 =? 0 then bytes_of "  Reason: non-present page" ++ NL else bytes_of "  Reason: protection violation" ++ NL) ++
  (if negb (Z.land ec 2 =? 0) then bytes_of "  Access: write" ++ NL else bytes_of "  Access: read" ++ NL) ++
  (if negb (Z.land ec 4 =? 0) then bytes_of "  Mode:   user" ++ NL else bytes_of "  Mode:   supervisor" ++ NL) ++
  (if negb (Z.land ec 8 =? 0) then bytes_of "  Note:   reserved PTE bit set" ++ NL else []) ++
  (if negb (Z.land ec 16 =? 0) then bytes_of "  Note:   instruction fetch" ++ NL else []).

Definition report (msg : string) (s : Sys) : Sys := sprint (NL ++ bytes_of msg ++ NL) s.

Module Handlers.

Definition handler_divide_error (frame : InterruptFrame) (s : Sys) : outcome (ending * Sys) :=
  try_kill "#DE Divide Error" frame s.

Definition handler_debug (frame : InterruptFrame) (s : Sys) : outcome (ending * Sys) :=
  exception_halt "#DB Debug Exception" frame s.

Definition handler_nmi (frame : InterruptFrame) (s : Sys) : outcome (ending * Sys) :=
  exception_halt "NMI Non-Maskable Interrupt" frame s.

Definition handler_breakpoint (frame : InterruptFrame) (s : Sys) : outcome (ending * Sys) :=
  s ← print_frame frame (report "[BREAKPOINT] INT3 hit" s); Done (Returns, s).

Definition handler_overflow (frame : InterruptFrame) (s : Sys) : outcome (ending * Sys) :=
  try_kill "#OF Overflow" frame s.

Definition handler_bound_range (frame : InterruptFrame) (s : Sys) : outcome (ending * Sys) :=
  try_kill "#BR BOUND Range Exceeded" frame s.

Definition handler_invalid_opcode (frame : InterruptFrame) (s : Sys) : outcome (ending * Sys) :=
  try_kill "#UD Invalid Opcode" frame s.

Definition handler_device_not_available (frame : InterruptFrame) (s : Sys) : outcome (ending * Sys) :=
  try_kill "#NM Device Not Available (FPU)" frame s.

Definition handler_double_fault (frame : InterruptFrame) (s : Sys) : outcome (ending * Sys) :=
  let s := sprint (NL ++ NL ++ bytes_of "[DOUBLE FAULT] Kernel double fault - halting." ++ NL) s in
  let s := sprint (bytes_of "Error code (always 0): 0" ++ NL) s in
  s ← print_frame frame s; cpu_halt s.

Definition handler_coproc_seg_overrun (frame : InterruptFrame) (s : Sys) : outcome (ending * Sys) :=
  exception_halt "Coprocessor Segment Overrun (legacy)" frame s.

Definition handler_invalid_tss (frame : InterruptFrame) (s : Sys) : outcome (ending * Sys) :=
  let s := sprint (bytes_of "  Selector causing fault = ") (report "[EXCEPTION] #TS Invalid TSS" s) in
  s ← print_u64_field [] (f_error_code frame) s; s ← print_frame frame s; cpu_halt s.

Definition handler_segment_not_present (frame : InterruptFrame) (s : Sys) : outcome (ending * Sys) :=
  let s := sprint (bytes_of "  Selector = ") (report "[EXCEPTION] #NP Segment Not Present" s) in
  s ← print_u64_field [] (f_error_code frame) s; s ← print_frame frame s; cpu_halt s.

Definition handler_stack_fault (frame : InterruptFrame) (s : Sys) : outcome (ending * Sys) :=
  s ← print_u64_field (bytes_of "  Selector = ") (f_error_code frame) (report "[EXCEPTION] #SS Stack-Segment Fault" s);
  try_kill "#SS Stack-Segment Fault" frame s.

Definition handler_general_protection (frame : InterruptFrame) (s : Sys) : outcome (ending * Sys) :=
  let s := report "[EXCEPTION] #GP General Protection Fault" s in
  s ← (if f_error_code frame =? 0 then Done (sprint (bytes_of "  (no specific segment involved)" ++ NL) s)
       else print_u64_field (bytes_of "  Error code (selector info): ") (f_error_code frame) s);
  try_kill "#GP General Protection Fault" frame s.

Definition handler_page_fault (frame : InterruptFrame) (cr2 : Z) (s : Sys) : outcome (ending * Sys) :=
  let s := sprint (bytes_of "  Faulting address: ") (report "[EXCEPTION] #PF Page Fault" s) in
  s ← print_u64_field [] cr2 s;
  s ← print_u64_field [] (f_error_code frame) (sprint (bytes_of "  Error code:       ") s);
  let s := sprint (page_fault_text (f_error_code frame)) s in
  try_kill "#PF Page Fault" frame s.

Definition handler_reserved (frame : InterruptFrame) (s : Sys) : outcome (ending * Sys) :=
  exception_halt "Reserved / Unimplemented Exception" frame s.

Definition handler_x87_fpu (frame : InterruptFrame) (s : Sys) : outcome (ending * Sys) :=
  try_kill "#MF x87 FPU Floating-Point Error" frame s.

Definition handler_alignment_check (frame : InterruptFrame) (s : Sys) : outcome (ending * Sys) :=
  s ← print_u64_field (bytes_of "  Error code: ") (f_error_code frame) (report "[EXCEPTION] #AC Alignment Check" s);
  try_kill "#AC Alignment Check" frame s.

Definition handler_machine_check (s : Sys) : outcome (ending * Sys) :=
  cpu_halt (report "[EXCEPTION] #MC Machine Check - halting." s).

Definition handler_simd_exception (frame : InterruptFrame) (s : Sys) : outcome (ending * Sys) :=
  try_kill "#XM SIMD Floating-Point Exception" frame s.

Definition handler_virtualization (frame : InterruptFrame) (s : Sys) : outcome (ending * Sys) :=
  exception_halt "#VE Virtualization Exception" frame s.

Definition handler_control_protection (frame : InterruptFrame) (s : Sys) : outcome (ending * Sys) :=
  exception_halt "#CP Control Protection Exception" frame s.

Definition handler_hypervisor_injection (frame : InterruptFrame) (s : Sys) : outcome (ending * Sys) :=
  exception_halt "#HV Hypervisor Injection Exception" frame s.

Definition handler_vmm_communication (frame : InterruptFrame) (s : Sys) : outcome (ending * Sys) :=
  exception_halt "#VC VMM Communication Exception" frame s.

Definition handler_security_exception (frame : InterruptFrame) (s : Sys) : outcome (ending * Sys) :=
  s ← print_u64_field (bytes_of "  Error code: ") (f_error_code frame) (report "[EXCEPTION] #SX Security Exception" s);
  s ← print_frame frame s; cpu_halt s.

Definition handler_unhandled_irq (s : Sys) : outcome (ending * Sys) :=
  Done (Returns, sprint (bytes_of "[IRQ] Unhandled hardware interrupt from APIC!" ++ NL) s).

(** The end-of-interrupt is written before the switch to another task. *)
Definition handler_apic_timer (s : Sys) : outcome (ending * Sys) :=
  '(should_schedule, k) ← timer_work (kernel (driver s));
  let s := eoi (put_kernel k s) in
  k ← timer_schedule should_schedule (kernel (driver s));
  Done (Returns, put_kernel k s).

(** [port] is what port 0x60 delivers, read before the end-of-interrupt. *)
Definition handler_apic_keyboard (port : Z) (s : Sys) : outcome (ending * Sys) :=
  let scancode := port in
  let s := eoi s in
  d ← keyboard_push_scancode scancode (driver s);
  Done (Returns, set_driver d s).

Definition handler_apic_spurious (s : Sys) : outcome (ending * Sys) :=
  Done (Returns, s).

End Handlers.

(** One handler; [cr2] and [port] are what CR2 and port 0x60 hold. *)
Definition handle (h : handler) (frame : InterruptFrame) (cr2 port : Z) (s : Sys) : outcome (ending * Sys) :=
  match h with
  | handler_divide_error => Handlers.handler_divide_error frame s
  | handler_debug => Handlers.handler_debug frame s
  | handler_nmi => Handlers.handler_nmi frame s
  | handler_breakpoint => Handlers.handler_breakpoint frame s
  | handler_overflow => Handlers.handler_overflow frame s
  | handler_bound_range => Handlers.handler_bound_range frame s
  | handler_invalid_opcode => Handlers.handler_invalid_opcode frame s
  | handler_device_not_available => Handlers.handler_device_not_available frame s
  | handler_double_fault => Handlers.handler_double_fault frame s
  | handler_coproc_seg_overrun => Handlers.handler_coproc_seg_overrun frame s
  | handler_invalid_tss => Handlers.handler_invalid_tss frame s
  | handler_segment_not_present => Handlers.handler_segment_not_present frame s
  | handler_stack_fault => Handlers.handler_stack_fault frame s
  | handler_general_protection => Handlers.handler_general_protection frame s
  | handler_page_fault => Handlers.handler_page_fault frame cr2 s
  | handler_reserved => Handlers.handler_reserved frame s
  | handler_x87_fpu => Handlers.handler_x87_fpu frame s
  | handler_alignment_check => Handlers.handler_alignment_check frame s
  | handler_machine_check => Handlers.handler_machine_check s
  | handler_simd_exception => Handlers.handler_simd_exception frame s
  | handler_virtualization => Handlers.handler_virtualization frame s
  | handler_control_protection => Handlers.handler_control_protection frame s
  | handler_hypervisor_injection => Handlers.handler_hypervisor_injection frame s
  | handler_vmm_communication => Handlers.handler_vmm_communication frame s
  | handler_security_exception => Handlers.handler_security_exception frame s
  | handler_unhandled_irq => Handlers.handler_unhandled_irq s
  | handler_apic_timer => Handlers.handler_apic_timer s
  | handler_apic_keyboard => Handlers.handler_apic_keyboard port s
  | handler_apic_spurious => Handlers.handler_apic_spurious s
  end.

Ltac unfold_handlers := unfold Handlers.handler_divide_error, Handlers.handler_debug, Handlers.handler_nmi, Handlers.handler_breakpoint, Handlers.handler_overflow, Handlers.handler_bound_range, Handlers.handler_invalid_opcode, Handlers.handler_device_not_available, Handlers.handler_double_fault, Handlers.handler_coproc_seg_overrun, Handlers.handler_invalid_tss, Handlers.handler_segment_not_present, Handlers.handler_stack_fault, Handlers.handler_general_protection, Handlers.handler_page_fault, Handlers.handler_reserved, Handlers.handler_x87_fpu, Handlers.handler_alignment_check, Handlers.handler_machine_check, Handlers.handler_simd_exception, Handlers.handler_virtualization, Handlers.handler_control_protection, Handlers.handler_hypervisor_injection, Handlers.handler_vmm_communication, Handlers.handler_security_exception, Handlers.handler_unhandled_irq, Handlers.handler_apic_timer, Handlers.handler_apic_keyboard, Handlers.handler_apic_spurious.

(** The handler behind a vector. *)
Definition interrupt (v : Z) : InterruptFrame → Z → Z → Sys → outcome (ending * Sys) := handle (stub_code (vector_stub v)).2.

(** ** Output *)

Lemma sprint_sprint a b s : sprint b (sprint a s) = sprint (a ++ b) s.
Proof. unfold sprint, put_kernel, ksprint, set_driver, set_kernel. cbn. by rewrite app_assoc. Qed.

Lemma sprint_nil s : sprint [] s = s.
Proof. unfold sprint, put_kernel, ksprint, set_driver, set_kernel. rewrite app_nil_r, serial_same. by destruct s as [[] ?]. Qed.

(** The text of one field and of the register dump. *)
Definition field_text (label : list Z) (v : Z) : list Z := label ++ bytes_to_hex (be_bytes 8 v) ++ NL.

Definition frame_text (frame : InterruptFrame) : list Z :=
  bytes_of "----- Register Dump -----" ++ NL ++ (frame_fields ≫= λ f, field_text (bytes_of f.1) (f.2 frame)) ++
  bytes_of "----- End Dump -----" ++ NL.

Definition halt_text (msg : string) (frame : InterruptFrame) : list Z :=
  NL ++ bytes_of "[EXCEPTION] " ++ bytes_of msg ++ NL ++ frame_text frame.

(** What [try_kill] prints: a fault of the idle task is the kernel's own. *)
Definition kill_text (reason : string) (current : TaskId) (frame : InterruptFrame) : list Z :=
  (if decide (current = TaskId_IDLE)
   then NL ++ bytes_of "[KERNEL FAULT] " ++ bytes_of reason ++ bytes_of " in kernel context. Halting..." ++ NL
   else field_text (NL ++ bytes_of "[TASK FAULT] Task ") (slot_index current) ++ bytes_of " killed due to: " ++ bytes_of reason ++ NL) ++
  frame_text frame.

Lemma print_u64_field_ok label v s : 0 ≤ v → print_u64_field label v s = Done (sprint (field_text label v) s).
Proof.
  intros Hv. unfold print_u64_field, u64_to_hex_bytes. rewrite (hex_bytes_ok 8) by lia.
  rewrite bind_Done, from_utf8_unchecked_ascii by apply bytes_to_hex_ascii, be_bytes_ok. by rewrite bind_Done, !sprint_sprint.
Qed.

Definition frame_ok (frame : InterruptFrame) : Prop := Forall (λ f : string * (InterruptFrame → Z), 0 ≤ f.2 frame) frame_fields.

Lemma print_fields_ok fs frame s : Forall (λ f : string * (InterruptFrame → Z), 0 ≤ f.2 frame) fs →
  for_each fs (λ f s, print_u64_field (bytes_of f.1) (f.2 frame) s) s =
    Done (sprint (fs ≫= λ f, field_text (bytes_of f.1) (f.2 frame)) s).
Proof.
  intros Hf. revert s. induction Hf as [|f fs Hf Hfs IH]; intros s; cbn [for_each].
  { by rewrite sprint_nil. }
  by rewrite print_u64_field_ok, bind_Done, IH, sprint_sprint.
Qed.

Lemma print_frame_ok frame s : frame_ok frame → print_frame frame s = Done (sprint (frame_text frame) s).
Proof.
  intros Hf. unfold print_frame, frame_text. rewrite print_fields_ok, bind_Done, !sprint_sprint by done.
  by rewrite <- ?app_assoc.
Qed.

Lemma exception_halt_ok msg frame s : frame_ok frame → exception_halt msg frame s = Done (Halts, sprint (halt_text msg frame) s).
Proof.
  intros Hf. unfold exception_halt, halt_text, cpu_halt. cbv zeta. rewrite print_frame_ok, bind_Done, sprint_sprint by done.
  by rewrite <- ?app_assoc.
Qed.

(** ** Killing *)

(** Output is none of the invariant's concern. *)
Lemma has_inv_serial v k : has_inv k → has_inv (set_k_serial v k).
Proof. intros (c & lq & lr & lt & ls & s & u & []). exists c, lq, lr, lt, ls, s, u. split; try done. by apply winv_serial. Qed.

(** The system is one the handlers are called on, with current task [c]. *)
Record handling (s : Sys) (c : CpuSlot) : Prop := {
  ha_inv : has_inv (kernel (driver s));
  ha_stack : stack_pointer_ok (k_cpu (kernel (driver s)));
  ha_cpu0 : k_cpu0 (kernel (driver s)) = Some c
}.

Lemma handling_sprint msg s c : handling s c → handling (sprint msg s) c.
Proof. intros []. split; [by apply has_inv_serial|done..]. Qed.

Lemma try_kill_ok reason frame s c : frame_ok frame → handling s c →
  let s1 := sprint (kill_text reason (c_current c) frame) s in
  if decide (c_current c = TaskId_IDLE) then try_kill reason frame s = Done (Halts, s1)
  else ∃ k', try_kill_current_task (kernel (driver s1)) = Done k' ∧ has_inv k' ∧ try_kill reason frame s = Done (Returns, put_kernel k' s1).
Proof.
  intros Hf Hs s1. pose proof (handling_sprint (kill_text reason (c_current c) frame) s c Hs) as [(c' & lq & lr & lt & ls & st & u & B) Hsp1 Hc1].
  fold s1 in B, Hsp1, Hc1. pose proof (b_winv _ _ _ _ _ _ _ _ B) as W. pose proof (w_cpu0 _ _ _ _ _ _ _ _ W) as E. rewrite Hc1 in E. injection E as <-.
  unfold try_kill, get_current_task_id. rewrite (cpu_slot_some _ c (ha_cpu0 _ _ Hs)), bind_Done. cbn beta. rewrite ?bind_Done.
  destruct (decide (c_current c = TaskId_IDLE)) as [Hi|Hi].
  - rewrite decide_False by naive_solver. cbv zeta. rewrite !sprint_sprint, print_frame_ok, bind_Done, sprint_sprint by done.
    subst s1. unfold kill_text. rewrite decide_True by done. by rewrite <- ?app_assoc.
  - rewrite decide_True by done.
    destruct (fault_inv _ _ _ _ _ _ _ _ B) as (k' & Hk & Hinv & _); [by rewrite (w_machine _ _ _ _ _ _ _ _ W) in Hsp1|done|].
    assert (0 ≤ slot_index (c_current c)) as Hpos.
    { destruct (w_current _ _ _ _ _ _ _ _ W) as [t Ht]. unfold get_task in Ht.
      destruct (get_slot _ _) as [sl|] eqn:Hsl; [|done]. apply get_slot_some in Hsl. lia. }
    exists k'. split; [done|]. split; [done|]. rewrite print_u64_field_ok, bind_Done by done. cbv zeta.
    rewrite !sprint_sprint, print_frame_ok, bind_Done, sprint_sprint by done.
    replace (sprint _ s) with s1; [by rewrite Hk, bind_Done|]. subst s1. unfold kill_text. rewrite decide_False by done.
    by rewrite <- ?app_assoc.
Qed.

(** ** Every vector *)

(** The handlers in the order of the vectors, as the architecture numbers its
    exceptions; then the three of the APIC. *)
Definition exception_handlers : list handler :=
  [handler_divide_error; handler_debug; handler_nmi; handler_breakpoint; handler_overflow; handler_bound_range;
   handler_invalid_opcode; handler_device_not_available; handler_double_fault; handler_coproc_seg_overrun;
   handler_invalid_tss; handler_segment_not_present; handler_stack_fault; handler_general_protection;
   handler_page_fault; handler_reserved; handler_x87_fpu; handler_alignment_check; handler_machine_check;
   handler_simd_exception; handler_virtualization; handler_control_protection; handler_reserved; handler_reserved;
   handler_reserved; handler_reserved; handler_reserved; handler_reserved; handler_hypervisor_injection;
   handler_vmm_communication; handler_security_exception; handler_reserved].

Definition vector_handler (v : Z) : handler :=
  if v <? 32 then nth (Z.to_nat v) exception_handlers handler_reserved
  else if v =? 0x20 then handler_apic_timer
  else if v =? 0x21 then handler_apic_keyboard
  else if v =? 0xFF then handler_apic_spurious
  else handler_unhandled_irq.

#[global] Instance handler_eq_dec : EqDecision handler.
Proof. solve_decision. Defined.

Lemma vector_handler_ok v : 0 ≤ v < 256 → (stub_code (vector_stub v)).2 = vector_handler v.
Proof.
  assert (∀ v, 0 ≤ v < 256 → bool_decide ((stub_code (vector_stub v)).2 = vector_handler v) = true) as H
    by (apply (forall_below 256); vm_compute; reflexivity).
  intros Hv. exact (bool_decide_eq_true_1 _ (H v Hv)).
Qed.

(** What a handler does after its report. *)
Inductive handler_kind := KKill | KHalt | KReturn | KTimer | KKeyboard.

Definition kind_of (h : handler) : handler_kind :=
  match h with
  | handler_divide_error | handler_overflow | handler_bound_range | handler_invalid_opcode | handler_device_not_available
  | handler_stack_fault | handler_general_protection | handler_page_fault | handler_x87_fpu | handler_alignment_check
  | handler_simd_exception => KKill
  | handler_breakpoint | handler_unhandled_irq | handler_apic_spurious => KReturn
  | handler_apic_timer => KTimer
  | handler_apic_keyboard => KKeyboard
  | _ => KHalt
  end.

(** The report of a handler, for the current task. *)
Definition heading (msg : string) : list Z := NL ++ bytes_of msg ++ NL.

Definition handler_text (h : handler) (frame : InterruptFrame) (cr2 : Z) (current : TaskId) : list Z :=
  let err := f_error_code frame in
  match h with
  | handler_divide_error => kill_text "#DE Divide Error" current frame
  | handler_debug => halt_text "#DB Debug Exception" frame
  | handler_nmi => halt_text "NMI Non-Maskable Interrupt" frame
  | handler_breakpoint => heading "[BREAKPOINT] INT3 hit" ++ frame_text frame
  | handler_overflow => kill_text "#OF Overflow" current frame
  | handler_bound_range => kill_text "#BR BOUND Range Exceeded" current frame
  | handler_invalid_opcode => kill_text "#UD Invalid Opcode" current frame
  | handler_device_not_available => kill_text "#NM Device Not Available (FPU)" current frame
  | handler_double_fault =>
      NL ++ heading "[DOUBLE FAULT] Kernel double fault - halting." ++ bytes_of "Error code (always 0): 0" ++ NL ++ frame_text frame
  | handler_coproc_seg_overrun => halt_text "Coprocessor Segment Overrun (legacy)" frame
  | handler_invalid_tss =>
      heading "[EXCEPTION] #TS Invalid TSS" ++ field_text (bytes_of "  Selector causing fault = ") err ++ frame_text frame
  | handler_segment_not_present =>
      heading "[EXCEPTION] #NP Segment Not Present" ++ field_text (bytes_of "  Selector = ") err ++ frame_text frame
  | handler_stack_fault =>
      heading "[EXCEPTION] #SS Stack-Segment Fault" ++ field_text (bytes_of "  Selector = ") err ++
      kill_text "#SS Stack-Segment Fault" current frame
  | handler_general_protection =>
      heading "[EXCEPTION] #GP General Protection Fault" ++
      (if err =? 0 then bytes_of "  (no specific segment involved)" ++ NL
       else field_text (bytes_of "  Error code (selector info): ") err) ++
      kill_text "#GP General Protection Fault" current frame
  | handler_page_fault =>
      heading "[EXCEPTION] #PF Page Fault" ++ field_text (bytes_of "  Faulting address: ") cr2 ++
      field_text (bytes_of "  Error code:       ") err ++ page_fault_text err ++ kill_text "#PF Page Fault" current frame
  | handler_reserved => halt_text "Reserved / Unimplemented Exception" frame
  | handler_x87_fpu => kill_text "#MF x87 FPU Floating-Point Error" current frame
  | handler_alignment_check =>
      heading "[EXCEPTION] #AC Alignment Check" ++ field_text (bytes_of "  Error code: ") err ++ kill_text "#AC Alignment Check" current frame
  | handler_machine_check => heading "[EXCEPTION] #MC Machine Check - halting."
  | handler_simd_exception => kill_text "#XM SIMD Floating-Point Exception" current frame
  | handler_virtualization => halt_text "#VE Virtualization Exception" frame
  | handler_control_protection => halt_text "#CP Control Protection Exception" frame
  | handler_hypervisor_injection => halt_text "#HV Hypervisor Injection Exception" frame
  | handler_vmm_communication => halt_text "#VC VMM Communication Exception" frame
  | handler_security_exception =>
      heading "[EXCEPTION] #SX Security Exception" ++ field_text (bytes_of "  Error code: ") err ++ frame_text frame
  | handler_unhandled_irq => bytes_of "[IRQ] Unhandled hardware interrupt from APIC!" ++ NL
  | handler_apic_timer | handler_apic_keyboard | handler_apic_spurious => []
  end.

(** How a handler ends, for a current task. *)
Definition expected_ending (h : handler) (current : TaskId) : ending :=
  match kind_of h with
  | KKill => if decide (current = TaskId_IDLE) then Halts else Returns
  | KHalt => Halts
  | KReturn | KTimer | KKeyboard => Returns
  end.

Lemma frame_error_code frame : frame_ok frame → 0 ≤ f_error_code frame.
Proof. intros Hf. do 5 apply Forall_cons in Hf as [_ Hf]. by apply Forall_cons in Hf as [? _]. Qed.

Ltac run_prints :=
  repeat first [rewrite print_u64_field_ok by done | rewrite print_frame_ok by done | rewrite exception_halt_ok by done
    | rewrite bind_Done | rewrite sprint_sprint].

(** A handler that kills prints its report and hands over to [try_kill]. *)
Lemma handle_kill h frame cr2 port s c : kind_of h = KKill → frame_ok frame → 0 ≤ cr2 → handling s c →
  let s1 := sprint (handler_text h frame cr2 (c_current c)) s in
  if decide (c_current c = TaskId_IDLE) then handle h frame cr2 port s = Done (Halts, s1)
  else ∃ k', try_kill_current_task (kernel (driver s1)) = Done k' ∧ has_inv k' ∧ handle h frame cr2 port s = Done (Returns, put_kernel k' s1).
Proof.
  intros Hk Hf Hcr Hs s1. pose proof (frame_error_code frame Hf) as He.
  assert (∃ reason pre, handle h frame cr2 port s = try_kill reason frame (sprint pre s) ∧
    handler_text h frame cr2 (c_current c) = pre ++ kill_text reason (c_current c) frame) as (reason & pre & Hrun & Htext).
  { destruct h; try discriminate Hk; cbn [handle handler_text]; unfold_handlers; unfold report, heading.
    all: try match goal with |- ∃ _ _, try_kill ?r _ _ = _ ∧ _ => exists r, []; rewrite sprint_nil; by split end.
    all: run_prints.
    2: destruct (_ =? 0); run_prints.
    all: eexists _, _; (split; [reflexivity|]); rewrite <- ?app_assoc; reflexivity. }
  pose proof (try_kill_ok reason frame (sprint pre s) c Hf (handling_sprint pre s c Hs)) as H. cbv zeta in H.
  rewrite sprint_sprint, <- Htext, <- Hrun in H. exact H.
Qed.

(** The others print their report and end. *)
Lemma handle_report h frame cr2 port s current : kind_of h = KHalt ∨ kind_of h = KReturn → frame_ok frame →
  handle h frame cr2 port s = Done (expected_ending h current, sprint (handler_text h frame cr2 current) s).
Proof.
  intros Hk Hf. pose proof (frame_error_code frame Hf) as He.
  destruct h; try (by destruct Hk as [Hk|Hk]; discriminate Hk); cbn [handle]; unfold expected_ending; cbn [kind_of handler_text];
    unfold_handlers; unfold report, heading, cpu_halt; run_prints; rewrite <- ?app_assoc, ?sprint_nil; reflexivity.
Qed.

(** The timer's work up to the end-of-interrupt leaves the interrupted task
    current; the whole restores the invariant. *)
Lemma timer_ok k c : has_inv k → stack_pointer_ok (k_cpu k) → k_cpu0 k = Some c →
  ∃ b k1 c1 k2, timer_work k = Done (b, k1) ∧ k_cpu0 k1 = Some c1 ∧ c_current c1 = c_current c ∧
    timer_schedule b k1 = Done k2 ∧ has_inv k2.
Proof.
  intros (c' & lq & lr & lt & ls & s & u & B) Hsp Hc. pose proof (b_winv _ _ _ _ _ _ _ _ B) as W.
  pose proof (w_cpu0 _ _ _ _ _ _ _ _ W) as E. rewrite Hc in E. injection E as <-.
  destruct (timer_work_inv _ _ _ _ _ _ _ _ B) as (b & k1 & c1 & lq1 & lt1 & s1 & Hw & W1 & Hcur & _).
  destruct (handler_inv _ _ _ _ _ _ _ _ B) as (k2 & c2 & lq2 & lt2 & s2 & u2 & Hh & B2 & _);
    [by rewrite (w_machine _ _ _ _ _ _ _ _ W) in Hsp|].
  exists b, k1, c1, k2. unfold Scheduler.handler_apic_timer in Hh. rewrite Hw, bind_Done in Hh.
  split; [done|]. split; [by apply W1|]. split; [done|]. split; [done|]. by eapply has_inv_intro.
Qed.


Definition demo_sys : Sys := mk_Sys (demo_driver demo_running) [].

