(* ===== verification/Devices.v ===== *)
(** * Devices.v: descriptor tables, screen, interrupt controllers, entropy

    The middle part of [_start] in [main.rs], from [init_gdt] to
    [ioapic_unmask_irq], in the order of the source and without its messages.
    Each step is the operation of its own component; what is shown here is that
    they fit together: every vector has a gate, the gate a code segment and the
    segment a descriptor, and the interrupts the sequence programs lead to their
    handlers.  The local APIC's entries for LINT0, LINT1 and errors are not written
    by the source; they are shown to keep what the firmware put there. *)

From S2P Require Import Prelude Machine Bytes MemoryManager Task Acpi Apic Framebuffer Rng Gdt Idt.

Local Open Scope Z_scope.

(** ** Data and operations *)

(** What [_start] leaves in the processor, the statics and the devices. *)
Record Devices := mk_Devices {
  d_tables : Tables; d_segments : SegRegs; d_idt : list IdtEntry; d_idtr : Z * Z; d_screen : FramebufferWriter;
  d_pic : list (Z * Z); d_apic : Apic; d_rng : Rng
}.

Section devices.

(** Addresses chosen by the linker; [cpu] is the executing processor. *)
Context (df_addr tss_addr gdt_addr : Z → Z) (stub_addr : stub → Z) (idt_addr cpu : Z).

(** [width] and [height] are those of the framebuffer; [reads] and [count] are
    what the HPET counter and the APIC timer show, [entropy] what the sources of
    the generator deliver. *)
Definition start_devices (fuel : nat) (apic_info : ApicInfo) (hpet : HpetInfo) (width height : Z) (apic : Apic)
    (reads : nat → Z) (count : Z) (entropy : Hw) : outcome Devices :=
  '(tables, segments) ← init_gdt df_addr tss_addr gdt_addr cpu Tables_static;
  idt ← init_idt stub_addr IDT_static;
  let idtr := load_idt idt_addr idt in
  let screen := clear_screen (FramebufferWriter_new ∅ width height) in
  let pic := disable_pic_8259 in
  let apic := init_apic apic (local_apic_phys apic_info) (io_apic_phys apic_info) in
  '(apic_ticks_per_ms, apic) ← calibrate_timer fuel apic hpet reads count;
  let apic := configure_timer apic apic_ticks_per_ms in
  rng ← init_cpu entropy cpu (PerCpu_new, Pos_0);
  let apic := ioapic_unmask_irq apic 1 in
  Done (mk_Devices tables segments idt idtr screen pic apic rng).

(** ** How the parts fit *)

(** An interrupt whose source is programmed with [source] reaches the handler
    [h]: the vector in the low byte selects a present interrupt gate of the
    table, without a stack switch of its own, to a trampoline of [h]. *)
Definition delivers (d : Devices) (source : Z) (h : handler) : Prop :=
  ∃ e s, d_idt d !! Z.to_nat (source mod 256) = Some e ∧
    decode_gate e = mk_gate (stub_addr s) KERNEL_CS 0 false 0 true ∧ (stub_code s).2 = h.

(** The hardware the sequence expects. *)
Record hardware_ok (apic_info : ApicInfo) (hpet : HpetInfo) (width height : Z) (apic : Apic)
    (time : nat → Z) (n : nat) (count : Z) : Prop := {
  hw_cpu : 0 ≤ cpu < MAX_CPUS;
  hw_tss : in_u64 (tss_addr cpu);
  hw_df : 0 ≤ df_addr cpu ∧ df_addr cpu + DOUBLE_FAULT_IST_SIZE < W64;
  hw_stubs : ∀ s, in_u64 (stub_addr s);
  hw_screen : screen width height;
  hw_apic : devices_at (hw apic) apic_info ∧ 2 ≤ entries_of (io (hw apic)) < 256;
  hw_hpet : 0 < period_fs hpet ≤ 100000000;
  hw_time : first_after time (10000000000000 / period_fs hpet) n;
  hw_count : 0 ≤ count ≤ 0xFFFFFFFF
}.

Lemma delivers_vector d v s :
  (∀ s, in_u64 (stub_addr s)) → d_idt d = vector_gate stub_addr <$> seqZ 0 256 → 0 ≤ v < 256 → vector_stub v = s →
  is_trap v = false → vector_ist v = 0 → ∀ source, source mod 256 = v → delivers d source (stub_code s).2.
Proof.
  intros Ha Hd Hv Hs Ht Hi source <-. eexists _, s. rewrite Hd. split; [by apply init_idt_lookup|].
  rewrite vector_gate_ok, Hs, Ht, Hi by done. done.
Qed.

Lemma start_devices_ok apic_info hpet width height apic time n count entropy :
  hardware_ok apic_info hpet width height apic time n count →
  ∃ d tss a', start_devices n apic_info hpet width height apic (counter 64 time) count entropy = Done d ∧
    start_interrupts n apic apic_info hpet (counter 64 time) count = Done a' ∧ d_apic d = a' ∧
    d_idt d = vector_gate stub_addr <$> seqZ 0 256 ∧ d_idtr d = (4095, idt_addr) ∧
    d_segments d = mk_SegRegs 55 (gdt_addr cpu) KERNEL_CS KERNEL_DS KERNEL_DS KERNEL_DS KERNEL_DS KERNEL_DS TSS_SELECTOR ∧
    view (CPU_GDT (d_tables d)) cpu = Some (loaded_entries (tss_addr cpu)) ∧ view (CPU_TSS (d_tables d)) cpu = Some tss ∧
    tss_word tss 36 = Done (df_addr cpu + DOUBLE_FAULT_IST_SIZE) ∧ d_pic d = disable_pic_8259 ∧
    d_screen d = clear_screen (FramebufferWriter_new ∅ width height) ∧ is_Some (view (d_rng d).1 cpu).
Proof.
  intros [Hc Ht [Hd1 Hd2] Hs Hscr [Ha He] Hh Htm Hct].
  destruct (percpu_new_ok (T:=Tss)) as [T1 V1]. destruct (percpu_new_ok (T:=list Z)) as [T2 V2].
  destruct (percpu_new_ok (T:=CpuRngState)) as [T3 V3].
  destruct (init_gdt_ok df_addr tss_addr gdt_addr cpu Tables_static) as (t & tss & Hg & Vg & Vt & W);
    [by split_and!|exact Hc|apply V1|apply V2|apply V2|exact Ht|exact Hd1|exact Hd2|].
  destruct (start_interrupts_ok apic apic_info hpet time n count Ha He Hh Htm Hct) as (a' & Hi & _).
  destruct (init_cpu_spec entropy cpu PerCpu_new Pos_0 Hc T3 (V3 cpu)) as (r & st & Hr & (_ & _ & Hv) & _).
  pose proof Hi as Hi'. unfold start_interrupts in Hi'. cbv zeta in Hi'. apply bind_done in Hi' as ([ticks a1] & Hcal & Hfin). cbv beta iota in Hfin.
  unfold start_devices. rewrite Hg, bind_Done. cbv beta iota. rewrite init_idt_ok, bind_Done. cbv zeta. rewrite Hcal, bind_Done. cbv beta iota. rewrite Hr, bind_Done.
  eexists _, tss, a'. split; [reflexivity|]. cbn [d_apic d_idt d_idtr d_segments d_tables d_pic d_screen d_rng].
  split; [exact Hi|]. split; [by injection Hfin|]. split; [done|].
  split; [unfold load_idt; rewrite length_fmap, length_seqZ; reflexivity|]. do 6 (split; [done|]).
  rewrite Hv, decide_True by (done || lia). by eexists.
Qed.
End devices.

(** ** The property *)

(** C12. After the device part of [_start] the interrupt paths it programs are
    complete.  With an I/O APIC of 2 to 255 entries, devices where the tables say and
    an HPET that runs, the sequence finishes; the interrupt table holds 256 present gates, each with the
    ring 0 code segment of the loaded descriptor table as its target; the local
    APIC timer, the keyboard line and the spurious vector are programmed with
    vectors whose gates lead to the handlers of the timer, the keyboard and
    spurious interrupts, and the timer and the keyboard are not masked; every
    other line of the I/O APIC and every line of the legacy controllers is
    masked; every other register of the local APIC, the entries of LINT0, LINT1 and
    the error interrupt among them, is as the firmware left it, since the sequence
    does not touch them; the gate of the double fault, and no other, switches to the first
    stack of the TSS, which is the top of the double-fault stack; the selectors in
    the frames of user tasks are the ring 3 segments of the same table; the screen
    can be printed on and the generator of this processor is seeded. *)
Theorem interrupts_wired (df_addr tss_addr gdt_addr : Z → Z) (stub_addr : stub → Z) (idt_addr cpu : Z) (info : ApicInfo)
    (hpet : HpetInfo) (width height : Z) (apic : Apic) (time : nat → Z) (n : nat) (count : Z) (entropy : Hw) :
  hardware_ok df_addr tss_addr stub_addr cpu info hpet width height apic time n count →
  ∃ d entries tss,
    start_devices df_addr tss_addr gdt_addr stub_addr idt_addr cpu n info hpet width height apic (counter 64 time) count entropy = Done d ∧
    view (CPU_GDT (d_tables d)) cpu = Some entries ∧ view (CPU_TSS (d_tables d)) cpu = Some tss ∧
    gdtr_base (d_segments d) = gdt_addr cpu ∧ d_idtr d = (16 * 256 - 1, idt_addr) ∧ length (d_idt d) = 256%nat ∧
    (∀ v, 0 ≤ v < 256 → ∃ e, d_idt d !! Z.to_nat v = Some e ∧ let g := decode_gate e in
      g_present g = true ∧ g_dpl g = 0 ∧ Sdm.code64 entries (g_selector g) = true ∧ Sdm.rpl (g_selector g) = 0 ∧
      g_ist g = if v =? 8 then 1 else 0) ∧
    tss_word tss 36 = Done (df_addr cpu + DOUBLE_FAULT_IST_SIZE) ∧
    (let timer := Apic.reg (lapic (hw (d_apic d))) LAPIC_LVT_TIMER in
     delivers stub_addr d timer handler_apic_timer ∧ Z.testbit timer 16 = false ∧ Z.testbit timer 17 = true) ∧
    (let keyboard := Apic.reg (io (hw (d_apic d))) (redir 1) in
     delivers stub_addr d keyboard handler_apic_keyboard ∧ Z.testbit keyboard 16 = false) ∧
    delivers stub_addr d (Apic.reg (lapic (hw (d_apic d))) LAPIC_SPURIOUS) handler_apic_spurious ∧
    (∀ irq, 0 ≤ irq < entries_of (io (hw apic)) → irq ≠ 1 → Z.testbit (Apic.reg (io (hw (d_apic d))) (redir irq)) 16 = true) ∧
    (∀ off, off ∉ lapic_written → Apic.reg (lapic (hw (d_apic d))) off = Apic.reg (lapic (hw apic)) off) ∧
    (∀ s, imr (foldl pic_out s (d_pic d)).1 = 0xFF ∧ imr (foldl pic_out s (d_pic d)).2 = 0xFF) ∧
    Sdm.code64 entries USER_CS_RPL3 = true ∧ Sdm.rpl USER_CS_RPL3 = 3 ∧
    Sdm.stack_segment entries USER_DS_RPL3 = true ∧ Sdm.rpl USER_DS_RPL3 = 3 ∧
    writer_ok (d_screen d) ∧ is_Some (view (d_rng d).1 cpu).
Proof.
  intros Hok. pose proof Hok as [_ _ _ Hs Hscr [Ha He] Hh Htm Hct].
  destruct (start_devices_ok df_addr tss_addr gdt_addr stub_addr idt_addr cpu info hpet width height apic time n count entropy Hok)
    as (d & tss & a' & Hrun & Hint & <- & Hidt & Hidtr & Hseg & Vg & Vt & W & Hpic & Hfb & Hrng).
  destruct (start_interrupts_ok apic info hpet time n count Ha He Hh Htm Hct) as (a & Hint' & _ & _ & Hsp & Htim & _ & _ & [Hkbd _] & Hmask & Hrest).
  rewrite Hint in Hint'. injection Hint' as <-. exists d, (loaded_entries (tss_addr cpu)), tss.
  split; [exact Hrun|]. split; [exact Vg|]. split; [exact Vt|]. split; [by rewrite Hseg|]. split; [exact Hidtr|].
  split; [rewrite Hidt, length_fmap, length_seqZ; reflexivity|]. split.
  { intros v Hv. exists (vector_gate stub_addr v). rewrite Hidt. split; [by apply init_idt_lookup|].
    rewrite vector_gate_ok by done. cbn [g_present g_dpl g_selector g_ist]. by split_and!. }
  split; [exact W|]. rewrite Htim, Hkbd, Hsp. split; [|split; [|split; [|split; [exact Hmask|split; [exact Hrest|split; [|split_and!]]]]]].
  - split; [|done]. by apply (delivers_vector stub_addr d 0x20 stub_apic_timer).
  - split; [|done]. by apply (delivers_vector stub_addr d 0x21 stub_apic_keyboard).
  - by apply (delivers_vector stub_addr d 0xFF stub_apic_spurious).
  - intros [master slave]. rewrite Hpic. by destruct master, slave.
  - reflexivity.
  - reflexivity.
  - reflexivity.
  - reflexivity.
  - rewrite Hfb. by apply clear_screen_ok, writer_new_ok.
  - exact Hrng.
Qed.

Lemma demo_hardware : hardware_ok (λ c, 0x100000 + 0x4000 * c) (λ c, 0x200000 + 104 * c) (λ _, 0x9000) 0
  (MkApicInfo 0xFEE00000 0xFEC00000 0) demo_hpet 640 480 (Apic_static (demo_machine 24)) (λ i, 1000005 * Z.of_nat i) 1
  (0xFFFFFFFF - 630000).
Proof.
  split.
  - done.
  - done.
  - done.
  - done.
  - unfold screen. lia.
  - split; [|vm_compute; split; congruence]. split_and!; try (vm_compute; congruence). right. vm_compute. congruence.
  - cbn. lia.
  - change (10000000000000 / period_fs demo_hpet) with 1000000. split; [lia|]. split; [intros; lia|]. unfold W64. lia.
  - lia.
Qed.

Lemma interrupts_wired_witness :
  ∃ d, start_devices (λ c, 0x100000 + 0x4000 * c) (λ c, 0x200000 + 104 * c) (λ c, 0x300000 + 56 * c) (λ _, 0x9000) 0xA000 0 1
      (MkApicInfo 0xFEE00000 0xFEC00000 0) demo_hpet 640 480 (Apic_static (demo_machine 24))
      (counter 64 (λ i, 1000005 * Z.of_nat i)) (0xFFFFFFFF - 630000) (demo_hw (λ _, 7)) = Done d ∧
    delivers (λ _, 0x9000) d (Apic.reg (lapic (hw (d_apic d))) LAPIC_LVT_TIMER) handler_apic_timer.
Proof.
  destruct (interrupts_wired (λ c, 0x100000 + 0x4000 * c) (λ c, 0x200000 + 104 * c) (λ c, 0x300000 + 56 * c) (λ _, 0x9000) 0xA000 0
    (MkApicInfo 0xFEE00000 0xFEC00000 0) demo_hpet 640 480 (Apic_static (demo_machine 24)) (λ i, 1000005 * Z.of_nat i) 1
    (0xFFFFFFFF - 630000) (demo_hw (λ _, 7)) demo_hardware) as (d & entries & tss & H & _ & _ & _ & _ & _ & _ & _ & [Ht _] & _).
  exists d. split; [exact H|exact Ht].
Defined.
