(* ===== verification/Console.v ===== *)
(** * Console.v: the printing macros and what prints through them

    [macros.rs] over the writers of [serial.rs] and [framebuffer.rs], with the
    formatting [core::fmt] does for them; the messages of [_start] and the panic
    handler ([main.rs]); the process listing ([process_manager/manager.rs]).
    Here the locks of the two writers are part of the state: the macros hold
    them while they print, and a panic leaves them held.  A lock that is held is
    never released while another activation of the one processor spins on it
    with interrupts off, so [Spins] is an ending of its own. *)

From S2P Require Import Prelude Machine Bytes Text Helpers Pmm Vmm HigherHalf MemoryManager Task Scheduler Process Acpi Framebuffer Serial.

Local Open Scope Z_scope.

(** ** Formatting *)

(** The numeral of [v] in base [b], most significant digit first; 64 digits are
    enough for a [u64] in any base. *)
Fixpoint radix (fuel : nat) (b v : Z) : list Z :=
  match fuel with
  | O => []
  | S fuel => if v <? b then [v] else radix fuel b (v / b) ++ [v mod b]
  end.

Definition digit_of (upper : bool) (d : Z) : Z :=
  if d <? 10 then 48 + d else if upper then 55 + d else 87 + d.

(** The pieces of a format string: literal text, [{}] of a string, a number or
    a boolean, [{:x}] with its flags ([#], [X] and [0] with a width), and [{:?}] of a
    thread state. *)
Inductive piece :=
| Lit (s : string)
| Str (s : list Z)
| Dec (v : Z)
| Hex (alternate upper : bool) (width : nat) (v : Z)
| Bool (b : bool)
| State (st : ThreadState).

Definition state_name (st : ThreadState) : string :=
  match st with Active => "Active" | Waiting => "Waiting" | ThreadDying => "Dying" | ThreadDead => "Dead" end.

Definition render (p : piece) : list Z :=
  match p with
  | Lit s => bytes_of s
  | Str s => s
  | Dec v => (λ d, 48 + d) <$> radix 64 10 v
  | Hex alternate upper width v =>
      let prefix := if alternate then bytes_of "0x" else [] in
      let digits := digit_of upper <$> radix 64 16 v in
      prefix ++ replicate (width - length prefix - length digits) 48 ++ digits
  | Bool b => bytes_of (if b then "true" else "false")
  | State st => bytes_of (state_name st)
  end.

Definition NL : piece := Str [10].

(** The text of a format string. *)
Definition text (ps : list piece) : list Z := ps ≫= render.

(** ** The writers and their locks *)

Record Console := mk_Console {
  SERIAL : option SerialWriter; serial_locked : bool;
  FRAMEBUFFER : option FramebufferWriter; fb_locked : bool;
  ports : io
}.

Definition set_serial_locked (b : bool) (c : Console) : Console :=
  mk_Console (SERIAL c) b (FRAMEBUFFER c) (fb_locked c) (ports c).
Definition set_fb_locked (b : bool) (c : Console) : Console :=
  mk_Console (SERIAL c) (serial_locked c) (FRAMEBUFFER c) b (ports c).
Definition set_SERIAL (w : option SerialWriter) (c : Console) : Console :=
  mk_Console w (serial_locked c) (FRAMEBUFFER c) (fb_locked c) (ports c).
Definition set_FRAMEBUFFER (w : option FramebufferWriter) (c : Console) : Console :=
  mk_Console (SERIAL c) (serial_locked c) w (fb_locked c) (ports c).
Definition set_ports (s : io) (c : Console) : Console :=
  mk_Console (SERIAL c) (serial_locked c) (FRAMEBUFFER c) (fb_locked c) s.

(** How code that prints ends: it returns, panics, spins on a lock, or the
    polling loop of the port ran out of fuel. *)
Inductive run := Ran (c : Console) | Panicked (msg : string) (c : Console) | Spins (c : Console) | Starved.

Definition run_bind (r : run) (f : Console → run) : run :=
  match r with Ran c => f c | r => r end.

(** One step after the other. *)
Definition seq (f g : Console → run) (c : Console) : run := run_bind (f c) g.
Notation "f ;; g" := (seq f g) (at level 100, g at level 200, right associativity).

Fixpoint for_all {A} (xs : list A) (f : A → Console → run) (c : Console) : run :=
  match xs with
  | [] => Ran c
  | x :: xs => run_bind (f x c) (for_all xs f)
  end.

Definition on_ports (o : outcome io) (c : Console) : run :=
  match o with Done s => Ran (set_ports s c) | Panic msg => Panicked msg c | OutOfFuel => Starved end.
Definition on_screen (o : outcome FramebufferWriter) (c : Console) : run :=
  match o with Done w => Ran (set_FRAMEBUFFER (Some w) c) | Panic msg => Panicked msg c | OutOfFuel => Starved end.

Definition UNWRAP_NONE : string := "called `Option::unwrap()` on a `None` value".

(** [.lock()] *)
Definition lock_serial (c : Console) : run := if serial_locked c then Spins c else Ran (set_serial_locked true c).
Definition lock_fb (c : Console) : run := if fb_locked c then Spins c else Ran (set_fb_locked true c).
(** The guard is dropped. *)
Definition unlock_serial (c : Console) : run := Ran (set_serial_locked false c).
Definition unlock_fb (c : Console) : run := Ran (set_fb_locked false c).

Section printing.
Context (device : Z → nat → Z) (fuel : nat).

(** [hardware_manager::sprint]: no lock. *)
Definition raw_sprint (msg : list Z) (c : Console) : run := on_ports (Serial.print device fuel msg (ports c)) c.

(** [.as_mut().unwrap().write_fmt(..)]: one [write_str] per piece. *)
Definition serial_write_fmt (ps : list piece) (c : Console) : run :=
  match SERIAL c with
  | None => Panicked UNWRAP_NONE c
  | Some w => for_all ps (λ p c, on_ports (Serial.write_str device fuel w (render p) (ports c)) c) c
  end.

Definition fb_write_str (s : list Z) (c : Console) : run :=
  match FRAMEBUFFER c with
  | None => Panicked UNWRAP_NONE c
  | Some w => on_screen (Framebuffer.write_str s w) c
  end.

Definition fb_write_fmt (ps : list piece) (c : Console) : run :=
  match FRAMEBUFFER c with
  | None => Panicked UNWRAP_NONE c
  | Some _ => for_all ps (λ p, fb_write_str (render p)) c
  end.

Definition sprint (ps : list piece) : Console → run :=
  lock_serial ;; serial_write_fmt ps ;; unlock_serial.
Definition sprintln (ps : list piece) : Console → run := sprint (ps ++ [NL]).

Definition fbprint (ps : list piece) : Console → run :=
  lock_fb ;; fb_write_fmt ps ;; unlock_fb.
Definition fbprintln (ps : list piece) : Console → run := fbprint (ps ++ [NL]).

Definition sprint_debug (level : DebugLevel) (msg : list Z) : Console → run :=
  lock_serial ;;
  (λ c, match SERIAL c with
        | None => Panicked UNWRAP_NONE c
        | Some w => on_ports (print_debug device fuel w level msg (ports c)) c
        end) ;;
  unlock_serial.

(** ** The messages of [_start] *)

Definition skip (c : Console) : run := Ran c.

(** A value computed on the way; its panics end the run. *)
Definition with_value {A} (o : outcome A) (f : A → Console → run) (c : Console) : run :=
  match o with Done a => f a c | Panic msg => Panicked msg c | OutOfFuel => Starved end.

Definition line (s : string) : list Z := bytes_of s ++ [10].

Definition start_serial : Console → run :=
  raw_sprint (line "[INFO] Initialized higher-half kernel") ;;
  lock_serial ;;
  (λ c, Ran (set_SERIAL (Some (SerialWriter_new COM1_PORT)) c)) ;;
  unlock_serial ;;
  sprint_debug INFO (bytes_of "[INFO] Serial initialized successfully").

Definition cpu_line (topology : CpuTopology) (cpu : CpuInfo) : list piece :=
  [Lit "[INFO]   CPU | APIC ID: "; Hex true false 4 (apic_id cpu); Lit " | ACPI UID: "; Hex true false 4 (acpi_uid cpu);
   Lit " | Enabled: "; Bool (enabled cpu); Lit " | Online-capable: "; Bool (online_capable cpu);
   Lit " | BSP: "; Bool (apic_id cpu =? bsp_apic_id topology)].

Definition print_topology (topology : CpuTopology) : Console → run :=
  sprintln [Lit "[INFO] CPU topology from ACPI MADT:"] ;;
  sprintln [Lit "[INFO]   BSP APIC ID (bootloader CPUID): "; Dec (bsp_apic_id topology)] ;;
  sprintln [Lit "[INFO]   Total CPUs in MADT: "; Dec (cpu_count topology)] ;;
  with_value (get_usable_cpu_count topology) (λ n,
    sprintln [Lit "[INFO]   Usable CPUs (enabled or online-capable): "; Dec n]) ;;
  with_value (iter topology) (λ cpus, for_all cpus (λ cpu, sprintln (cpu_line topology cpu))) ;;
  with_value (bsp topology) (λ b, match b with
    | Some _ => skip
    | None => Panicked "BSP APIC ID {:#x} not found in MADT — firmware bug or struct layout mismatch"
    end).

Definition start_screen (width height : Z) : Console → run :=
  lock_fb ;;
  (λ c, Ran (set_FRAMEBUFFER (Some (clear_screen (FramebufferWriter_new ∅ width height))) c)) ;;
  unlock_fb ;;
  sprint_debug INFO (bytes_of "[INFO] Graphics initialized successfully").

Definition device_messages (apic_ticks_per_ms : Z) : Console → run :=
  sprint_debug DEBUG (bytes_of "[INFO] Disabled legacy PIC 8259") ;;
  sprint_debug DEBUG (bytes_of "[DEBUG] APICs have been initialized") ;;
  sprint_debug INFO (bytes_of "[INFO] Calibrated APIC timer") ;;
  sprintln [Lit "[INFO] APIC timer: "; Dec apic_ticks_per_ms; Lit " ticks/ms"] ;;
  sprint_debug DEBUG (bytes_of "[DEBUG] Timer interrupt initialized") ;;
  sprint_debug DEBUG (bytes_of "[DEBUG] Keyboard interrupts ready").

(** [FRAMEBUFFER.lock().as_mut().unwrap().draw_banner()] *)
Definition print_banner : Console → run :=
  lock_fb ;;
  (λ c, match FRAMEBUFFER c with
        | None => Panicked UNWRAP_NONE c
        | Some w => on_screen (draw_banner w) c
        end) ;;
  unlock_fb.

(** The pointer in the writer is the address it was created with. *)
Definition print_fb_ptr : Console → run :=
  lock_fb ;;
  (λ c, match FRAMEBUFFER c with
        | None => Ran c
        | Some _ => sprintln [Lit "Kernel framebuffer address is: 0x"; Hex false true 0 KERNEL_FRAMEBUFFER_VIRTUAL_BASE] c
        end) ;;
  unlock_fb.

Definition welcome : Console → run :=
  fbprintln [Lit "Hello and welcome to:"; NL] ;;
  print_banner ;;
  sprint_debug DEBUG (bytes_of "[DEBUG] Text drawn") ;;
  sprint_debug INFO (bytes_of "[INFO] Initialized higher-half kernel") ;;
  sprintln [Lit "[+] Kernel higher-half virtual space initialization complete!"] ;;
  fbprintln [Lit "[+] Kernel higher-half virtual space initialization complete!"; NL] ;;
  fbprintln [Lit "  - Kernel virtual base address is: 0x"; Hex false true 0 KERNEL_VIRTUAL_BASE; NL] ;;
  fbprintln [Lit "  - Kernel physical map base address is: 0x"; Hex false true 0 KERNEL_PHYSICAL_MAP_BASE; NL] ;;
  print_fb_ptr ;;
  (λ c, let fb_ptr := match FRAMEBUFFER c with Some _ => KERNEL_FRAMEBUFFER_VIRTUAL_BASE | None => 0 end in
        fbprintln [Lit "  - Kernel framebuffer address is: 0x"; Hex false true 0 fb_ptr; NL] c).

Definition keyboard_message : Console → run :=
  sprintln [Lit "[*] Testing keyboard interrupts. Type some stuff..."] ;;
  fbprintln [Lit "[*] Testing keyboard interrupts. Type some stuff..."].

(** Everything [_start] prints, in order. *)
Definition start_console (topology : CpuTopology) (width height apic_ticks_per_ms : Z) : Console → run :=
  start_serial ;; print_topology topology ;; start_screen width height ;; device_messages apic_ticks_per_ms ;; welcome ;;
  keyboard_message.

(** ** [print_processes] *)

Definition both (ps : list piece) : Console → run := sprintln ps ;; fbprintln ps.

Definition print_thread (th : Thread) : Console → run :=
  both [Lit "    Thread "; Lit (th_name th); Lit " (ID: "; Dec (th_id th); Lit ", State: "; State (th_state th); Lit ")"].

(** The pointers of the lists keep their objects alive. *)
Definition print_process (s : System) (proc : Process) : Console → run :=
  both [NL; Lit "========== PROCESS INFORMATION =========="] ;;
  both [Lit "Process: "; Lit (p_name proc); Lit " (ID: "; Dec (p_id proc); Lit ", PML4: "; Hex true true 0 (pml4_phys proc); Lit ")"] ;;
  both [Lit "Threads: "; Dec (Z.of_nat (length (p_threads proc)))] ;;
  for_all (p_threads proc) (λ w, match k_threads (s_kernel s) !! w with Some th => print_thread th | None => skip end).

Definition print_processes (s : System) : Console → run :=
  for_all (s_manager s) (λ p, match s_processes s !! p with Some proc => print_process s proc | None => skip end).

(** ** The panic handler *)

(** [core::panic::PanicInfo]: the place, the message, and the message again when
    it is a literal. *)
Record PanicInfo := mk_PanicInfo {
  location : option (list Z * Z); message : list Z; message_str : option (list Z)
}.

Definition panic_location (info : PanicInfo) : Console → run :=
  match location info with
  | None => skip
  | Some (file, lineno) =>
      raw_sprint (bytes_of "Panic occurred in file: ") ;; raw_sprint file ;; raw_sprint [10] ;;
      match message_str info with
      | None => skip
      | Some msg => raw_sprint (bytes_of "Panic Message: ") ;; raw_sprint msg ;; raw_sprint [10]
      end ;;
      sprintln [Lit "Panic occurred in file '"; Str file; Lit "' at line "; Dec lineno]
  end.

Definition panic_body (info : PanicInfo) : Console → run :=
  raw_sprint ([10] ++ bytes_of "!!! KERNEL PANIC !!!" ++ [10]) ;;
  panic_location info ;;
  sprintln [Lit "Panic Message: "; Str (message info)].

(** The processor stops in the [hlt] loop, or spins on a lock. *)
Inductive stopped := Halted (c : Console) | Hanging (c : Console) | TooDeep | NoFuel.

(** A panic inside the handler enters it again; [info_of] is what the compiler
    makes of a message. *)
Fixpoint panic (info_of : string → PanicInfo) (depth : nat) (info : PanicInfo) (c : Console) : stopped :=
  match depth with
  | O => TooDeep
  | S depth =>
      match panic_body info c with
      | Ran c => Halted c
      | Panicked msg c => panic info_of depth (info_of msg) c
      | Spins c => Hanging c
      | Starved => NoFuel
      end
  end.

End printing.

(** Numbers are printed exactly: the digits denote the number, and there is no
    leading zero. *)
Lemma radix_digits fuel b v : 2 ≤ b → 0 ≤ v < 2 ^ Z.of_nat fuel →
  Forall (λ d, 0 ≤ d < b) (radix fuel b v) ∧ foldl (λ a d, a * b + d) 0 (radix fuel b v) = v ∧
  ((0 < fuel)%nat → 0 < v → ∃ d ds, radix fuel b v = d :: ds ∧ 0 < d).
Proof.
  intros Hb. revert v. induction fuel as [|fuel IH]; intros v Hv; cbn [radix].
  { cbn in Hv. split; [constructor|]. split; [cbn; lia|lia]. }
  destruct (Z.ltb_spec v b) as [Hs|Hs].
  { split; [apply Forall_singleton; lia|]. split; [cbn; lia|]. intros _ Hpos. by exists v, []. }
  rewrite Nat2Z.inj_succ, Z.pow_succ_r in Hv by lia.
  assert (0 < v / b) as Hq by (apply Z.div_str_pos; lia).
  assert (v / b < 2 ^ Z.of_nat fuel) as Hlt by (apply Z.div_lt_upper_bound; nia).
  destruct (IH (v / b) ltac:(lia)) as (Hd & Hval & Hlead). split_and!.
  - apply Forall_app. split; [done|]. apply Forall_singleton. apply Z.mod_pos_bound. lia.
  - rewrite foldl_app, Hval. cbn. pose proof (Z.div_mod v b). lia.
  - intros _ _. destruct fuel as [|fuel]; [cbn in Hlt; lia|].
    destruct Hlead as (d & ds & -> & Hd0); [lia|done|]. by exists d, (ds ++ [v mod b]).
Qed.

Lemma render_dec v : in_u64 v → dec_value (render (Dec v)) = v ∧ Forall digit_char (render (Dec v)).
Proof.
  intros Hv. destruct (radix_digits 64 10 v) as (Hd & Hval & _); [lia|exact Hv|]. cbn [render]. split.
  - assert (∀ l a, foldl (λ a c, a * 10 + (c - 48)) a ((λ d, 48 + d) <$> l) = foldl (λ a d, a * 10 + d) a l) as H.
    { intros l. induction l as [|d l IH]; intros a; [done|]. cbn. rewrite IH. f_equal. lia. }
    unfold dec_value. by rewrite H.
  - apply Forall_fmap. eapply Forall_impl; [exact Hd|]. unfold digit_char. cbn. lia.
Qed.

(** ** What a run prints *)

(** With enough fuel [f] runs from every console in [I] to one in [J], and the
    port receives [t] on the way. *)
Definition prints (f : nat → Console → run) (I J : Console → Prop) (t : list Z) : Prop :=
  ∀ c, I c → ∃ c' fuel0, (∀ fuel, (fuel0 ≤ fuel)%nat → f fuel c = Ran c') ∧ J c' ∧ continues (ports c) (ports c') t.

Lemma prints_seq f g (I J K : Console → Prop) t u :
  prints f I J t → prints g J K u → prints (λ fuel, f fuel ;; g fuel) I K (t ++ u).
Proof.
  intros Hf Hg c Hc. destruct (Hf c Hc) as (c1 & f1 & R1 & J1 & C1).
  destruct (Hg c1 J1) as (c2 & f2 & R2 & K2 & C2). exists c2, (Nat.max f1 f2). split_and!.
  - intros fuel Hfuel. unfold seq. rewrite R1 by lia. cbn. apply R2. lia.
  - done.
  - by eapply continues_trans.
Qed.

(** A step that leaves the port alone. *)
Lemma prints_quiet f (I J : Console → Prop) :
  (∀ c, I c → ∃ c', f c = Ran c' ∧ J c' ∧ ports c' = ports c) → prints (λ _, f) I J [].
Proof.
  intros H c Hc. destruct (H c Hc) as (c' & E & Hj & Hp). exists c', O. split_and!; [done|done|].
  rewrite Hp. apply continues_refl.
Qed.

Lemma prints_skip I : prints (λ _, skip) I I [].
Proof. apply prints_quiet. intros c Hc. by exists c. Qed.

Lemma prints_all {A} (xs : list A) f (I : Console → Prop) (t : A → list Z) :
  (∀ x, prints (λ fuel, f fuel x) I I (t x)) → prints (λ fuel, for_all xs (f fuel)) I I (xs ≫= t).
Proof.
  intros H. induction xs as [|x xs IH]; [apply prints_skip|].
  rewrite bind_cons. exact (prints_seq _ _ _ _ _ _ _ (H x) IH).
Qed.

Section facts.
Context (device : Z → nat → Z) (Hdrains : drains device).

(** Unlocked output reaches the port whatever the locks are. *)
Lemma raw_prints msg (I : Console → Prop) :
  (∀ c s, I c → I (set_ports s c)) → prints (λ fuel, raw_sprint device fuel msg) I I msg.
Proof.
  intros HI c Hc. destruct (send_bytes_sends device Hdrains msg (ports c)) as (s & f0 & R & C).
  exists (set_ports s c), f0. split_and!; [|by apply HI|done].
  intros fuel Hf. unfold raw_sprint, Serial.print. by rewrite R.
Qed.

(** The serial side of a console in order, with the framebuffer side [F]. *)
Definition serial_is (w : option SerialWriter) (b : bool) (F : option FramebufferWriter → bool → Prop) (c : Console) : Prop :=
  SERIAL c = w ∧ serial_locked c = b ∧ F (FRAMEBUFFER c) (fb_locked c).

Definition COM1 : option SerialWriter := Some (SerialWriter_new COM1_PORT).

Lemma write_fmt_prints ps b F :
  prints (λ fuel, serial_write_fmt device fuel ps) (serial_is COM1 b F) (serial_is COM1 b F) (text ps).
Proof.
  intros c Hc. assert (SERIAL c = COM1) as E by apply Hc.
  destruct (prints_all ps (λ fuel p c, on_ports (Serial.write_str device fuel (SerialWriter_new COM1_PORT) (render p) (ports c)) c)
    (serial_is COM1 b F) render) with (c := c) as (c' & f0 & R & J & C); [|done|].
  { intros p c1 H1. destruct (send_bytes_sends device Hdrains (render p) (ports c1)) as (s & f0 & R & C).
    exists (set_ports s c1), f0. split_and!; [|done|done].
    intros fuel Hf. unfold Serial.write_str, serial_write. cbn [port SerialWriter_new]. by rewrite R. }
  exists c', f0. split_and!; [|done|done]. intros fuel Hf. unfold serial_write_fmt. rewrite E. by apply R.
Qed.

Lemma lock_serial_quiet w F : prints (λ _, lock_serial) (serial_is w false F) (serial_is w true F) [].
Proof.
  apply prints_quiet. intros c (Ew & El & HF). unfold lock_serial. rewrite El. eexists. by split_and!.
Qed.

Lemma unlock_serial_quiet w F : prints (λ _, unlock_serial) (serial_is w true F) (serial_is w false F) [].
Proof. apply prints_quiet. intros c (Ew & El & HF). eexists. by split_and!. Qed.

Lemma locked_prints f F t :
  prints f (serial_is COM1 true F) (serial_is COM1 true F) t →
  prints (λ fuel, lock_serial ;; f fuel ;; unlock_serial) (serial_is COM1 false F) (serial_is COM1 false F) t.
Proof.
  intros H. rewrite <- (app_nil_l t), <- (app_nil_r t).
  apply (prints_seq (λ _, lock_serial) (λ fuel, f fuel ;; unlock_serial) _ _ _ _ _ (lock_serial_quiet _ _)).
  exact (prints_seq f (λ _, unlock_serial) _ _ _ _ _ H (unlock_serial_quiet _ _)).
Qed.

Lemma sprint_prints ps F :
  prints (λ fuel, sprint device fuel ps) (serial_is COM1 false F) (serial_is COM1 false F) (text ps).
Proof. apply locked_prints, write_fmt_prints. Qed.

Lemma sprintln_prints ps F :
  prints (λ fuel, sprintln device fuel ps) (serial_is COM1 false F) (serial_is COM1 false F) (text ps ++ [10]).
Proof.
  pose proof (sprint_prints (ps ++ [NL]) F) as H. unfold text in H. rewrite bind_app in H. exact H.
Qed.

Lemma sprint_debug_prints level msg F :
  prints (λ fuel, sprint_debug device fuel level msg) (serial_is COM1 false F) (serial_is COM1 false F) (sent (Debug level msg)).
Proof.
  apply locked_prints. intros c Hc. destruct (serial_run_sends device Hdrains (Debug level msg) (ports c)) as (s & f0 & R & C).
  exists (set_ports s c), f0. split_and!; [|done|done]. intros fuel Hf. assert (SERIAL c = COM1) as -> by apply Hc.
  cbn [COM1]. unfold serial_run in R. by rewrite R.
Qed.
End facts.

(** ** The panic handler *)

(** What the handler prints without and with the lock. *)
Definition raw_text (info : PanicInfo) : list Z :=
  ([10] ++ bytes_of "!!! KERNEL PANIC !!!" ++ [10]) ++
  match location info with
  | None => []
  | Some (file, _) => bytes_of "Panic occurred in file: " ++ file ++ [10] ++
      match message_str info with None => [] | Some msg => bytes_of "Panic Message: " ++ msg ++ [10] end
  end.

Definition formatted_text (info : PanicInfo) : list Z :=
  match location info with
  | None => []
  | Some (file, lineno) => text [Lit "Panic occurred in file '"; Str file; Lit "' at line "; Dec lineno] ++ [10]
  end ++ text [Lit "Panic Message: "; Str (message info)] ++ [10].

Section panic_facts.
Context (device : Z → nat → Z) (Hdrains : drains device).

(** The handler up to its first use of the lock, and the rest. *)
Definition panic_raw (fuel : nat) (info : PanicInfo) : Console → run :=
  raw_sprint device fuel ([10] ++ bytes_of "!!! KERNEL PANIC !!!" ++ [10]) ;;
  match location info with
  | None => skip
  | Some (file, _) =>
      raw_sprint device fuel (bytes_of "Panic occurred in file: ") ;; raw_sprint device fuel file ;; raw_sprint device fuel [10] ;;
      match message_str info with
      | None => skip
      | Some msg => raw_sprint device fuel (bytes_of "Panic Message: ") ;; raw_sprint device fuel msg ;; raw_sprint device fuel [10]
      end
  end.

Definition panic_formatted (fuel : nat) (info : PanicInfo) : Console → run :=
  match location info with
  | None => skip
  | Some (file, lineno) => sprintln device fuel [Lit "Panic occurred in file '"; Str file; Lit "' at line "; Dec lineno]
  end ;;
  sprintln device fuel [Lit "Panic Message: "; Str (message info)].

Lemma run_bind_assoc r f g : run_bind (run_bind r f) g = run_bind r (λ c, run_bind (f c) g).
Proof. by destruct r. Qed.

Lemma run_bind_ext r f g : (∀ c, f c = g c) → run_bind r f = run_bind r g.
Proof. intros H. destruct r; cbn; auto. Qed.

Lemma panic_split fuel info c :
  panic_body device fuel info c = run_bind (panic_raw fuel info c) (panic_formatted fuel info).
Proof.
  unfold panic_body, panic_raw, panic_location, panic_formatted, seq. rewrite run_bind_assoc. apply run_bind_ext. intros c1.
  destruct (location info) as [[file l]|]; [|done]. rewrite !run_bind_assoc. apply run_bind_ext. intros c2.
  rewrite !run_bind_assoc. apply run_bind_ext. intros c3. rewrite !run_bind_assoc. apply run_bind_ext. intros c4.
  by rewrite !run_bind_assoc.
Qed.

Lemma panic_raw_prints info w b F : prints (λ fuel, panic_raw fuel info) (serial_is w b F) (serial_is w b F) (raw_text info).
Proof.
  assert (∀ msg, prints (λ fuel, raw_sprint device fuel msg) (serial_is w b F) (serial_is w b F) msg) as R.
  { intros msg. by apply raw_prints. }
  assert (∀ f g t u, prints f (serial_is w b F) (serial_is w b F) t → prints g (serial_is w b F) (serial_is w b F) u →
    prints (λ fuel, f fuel ;; g fuel) (serial_is w b F) (serial_is w b F) (t ++ u)) as S by (intros; by eapply prints_seq).
  unfold panic_raw, raw_text. apply S; [apply R|].
  destruct (location info) as [[file l]|]; [|apply prints_skip].
  apply S; [apply R|]. apply S; [apply R|]. apply S; [apply R|].
  destruct (message_str info) as [msg|]; [|apply prints_skip]. apply S; [apply R|]. apply S; apply R.
Qed.

Lemma panic_formatted_prints info F :
  prints (λ fuel, panic_formatted fuel info) (serial_is COM1 false F) (serial_is COM1 false F) (formatted_text info).
Proof.
  unfold panic_formatted, formatted_text. eapply prints_seq; [|by apply sprintln_prints].
  destruct (location info) as [[file l]|]; [by apply sprintln_prints|apply prints_skip].
Qed.

(** The first [sprintln!] on a lock that is held, or without a writer. *)
Lemma panic_formatted_held fuel info c : serial_locked c = true → panic_formatted fuel info c = Spins c.
Proof.
  intros H. unfold panic_formatted, sprintln, sprint, seq, lock_serial, skip.
  destruct (location info) as [[file l]|]; cbn [run_bind]; by rewrite H.
Qed.

Lemma panic_formatted_none fuel info c : serial_locked c = false → SERIAL c = None →
  panic_formatted fuel info c = Panicked UNWRAP_NONE (set_serial_locked true c).
Proof.
  intros H Hn. unfold panic_formatted, sprintln, sprint, seq, lock_serial, skip, serial_write_fmt.
  destruct (location info) as [[file l]|]; cbn [run_bind]; rewrite H; cbn [run_bind set_serial_locked SERIAL]; by rewrite Hn.
Qed.

(** The raw part from a console with known lock and writer. *)
Lemma panic_raw_ok info c :
  ∃ c' fuel0, (∀ fuel, (fuel0 ≤ fuel)%nat → panic_raw fuel info c = Ran c') ∧
    SERIAL c' = SERIAL c ∧ serial_locked c' = serial_locked c ∧ continues (ports c) (ports c') (raw_text info).
Proof.
  destruct (panic_raw_prints info (SERIAL c) (serial_locked c) (λ _ _, True) c) as (c' & f0 & R & (H1 & H2 & _) & C); [done|].
  exists c', f0. by split_and!.
Qed.
End panic_facts.

(** C38. The panic handler.  On a port whose transmitter keeps draining, what
    happens depends on the lock of the serial writer.  If it is free and the
    writer exists, the handler prints the place and the message twice, without
    and with the lock, and halts.  If the lock is held, by the code that
    panicked for instance, the text printed without the lock is delivered and
    the processor then spins on the lock for ever instead of halting; a message
    with arguments is lost.  Before the writer is created the [unwrap] in the
    macro panics inside the handler with the lock held, so that the nested
    handler prints its text and spins. *)
Theorem panic_handler_reports (device : Z → nat → Z) (info_of : string → PanicInfo) (info : PanicInfo) (c : Console) :
  drains device → (SERIAL c = None ∨ SERIAL c = COM1) →
  ∃ c' fuel0, ∀ fuel depth, (fuel0 ≤ fuel)%nat → (2 ≤ depth)%nat →
    if serial_locked c then
      panic device fuel info_of depth info c = Hanging c' ∧ continues (ports c) (ports c') (raw_text info)
    else match SERIAL c with
      | Some _ => panic device fuel info_of depth info c = Halted c' ∧ serial_locked c' = false ∧
          continues (ports c) (ports c') (raw_text info ++ formatted_text info)
      | None => panic device fuel info_of depth info c = Hanging c' ∧
          continues (ports c) (ports c') (raw_text info ++ raw_text (info_of UNWRAP_NONE))
      end.
Proof.
  intros Hd Hw. destruct (panic_raw_ok device Hd info c) as (c1 & f1 & R1 & Ew & El & C1).
  destruct (serial_locked c) eqn:L.
  { exists c1, f1. intros fuel [|depth] Hf Hdep; [lia|]. split; [|done]. cbn [panic].
    by rewrite panic_split, R1 by done; cbn [run_bind]; rewrite panic_formatted_held. }
  destruct Hw as [Hw|Hw]; rewrite Hw in *; cbn [COM1].
  - destruct (panic_raw_ok device Hd (info_of UNWRAP_NONE) (set_serial_locked true c1)) as (c2 & f2 & R2 & _ & El2 & C2).
    exists c2, (Nat.max f1 f2). intros fuel [|[|depth]] Hf Hdep; [lia..|]. split; [|by eapply continues_trans].
    cbn [panic]. rewrite panic_split, R1 by lia. cbn [run_bind]. rewrite panic_formatted_none by done.
    rewrite panic_split, R2 by lia. cbn [run_bind]. by rewrite panic_formatted_held.
  - destruct (panic_formatted_prints device Hd info (λ _ _, True) c1) as (c2 & f2 & R2 & (_ & E2 & _) & C2); [done|].
    exists c2, (Nat.max f1 f2). intros fuel [|depth] Hf Hdep; [lia|]. split; [|split; [done|by eapply continues_trans]].
    cbn [panic]. rewrite panic_split, R1 by lia. cbn [run_bind]. by rewrite R2 by lia.
Qed.

(** A port whose buffer is always empty, and a panic of code that was printing. *)
Definition demo_console : Console := mk_Console COM1 true None false (mk_io [] 0).
Definition demo_panic : PanicInfo := mk_PanicInfo (Some (bytes_of "src/main.rs", 430)) (bytes_of "code 7") None.

Lemma panic_handler_reports_witness :
  drains (λ _ _, 0x20) ∧
  ∃ c' fuel0, ∀ fuel depth, (fuel0 ≤ fuel)%nat → (2 ≤ depth)%nat →
    panic (λ _ _, 0x20) fuel (λ _, demo_panic) depth demo_panic demo_console = Hanging c' ∧
    continues (ports demo_console) (ports c') (raw_text demo_panic).
Proof.
  assert (drains (λ _ _, 0x20)) as Hd by (intros n; exists n; split; [lia|reflexivity]). split; [exact Hd|].
  exact (panic_handler_reports (λ _ _, 0x20) (λ _, demo_panic) demo_panic demo_console Hd (or_intror eq_refl)).
Defined.

(** ** The screen side *)

(** The framebuffer writer exists, is in order and its lock is [b]. *)
Definition screen_is (b : bool) (fb : option FramebufferWriter) (l : bool) : Prop :=
  l = b ∧ ∃ w, fb = Some w ∧ writer_ok w.

Definition ready : Console → Prop := serial_is COM1 false (screen_is false).

Lemma fb_locked_quiet f :
  (∀ w, writer_ok w → ∃ w', f w = Done w' ∧ writer_ok w') → ∀ serial b,
  prints (λ _ c, match FRAMEBUFFER c with None => Panicked UNWRAP_NONE c | Some w => on_screen (f w) c end)
    (serial_is serial b (screen_is true)) (serial_is serial b (screen_is true)) [].
Proof.
  intros H serial b. apply prints_quiet. intros c (H1 & H2 & Hl & w & Hw & Hok). rewrite Hw.
  destruct (H w Hok) as (w' & -> & Hok'). eexists. split; [reflexivity|]. split; [|done].
  split_and!; try done. split; [done|]. by exists w'.
Qed.

Lemma fb_locking f serial b t :
  prints f (serial_is serial b (screen_is true)) (serial_is serial b (screen_is true)) t →
  prints (λ fuel, lock_fb ;; f fuel ;; unlock_fb) (serial_is serial b (screen_is false)) (serial_is serial b (screen_is false)) t.
Proof.
  intros H. rewrite <- (app_nil_l t), <- (app_nil_r t).
  apply (prints_seq (λ _, lock_fb) (λ fuel, f fuel ;; unlock_fb) _ (serial_is serial b (screen_is true))).
  - apply prints_quiet. intros c (H1 & H2 & Hl & Hw). unfold lock_fb. rewrite Hl. eexists. split; [reflexivity|].
    by split_and!.
  - apply (prints_seq f (λ _, unlock_fb) _ (serial_is serial b (screen_is true))); [done|].
    apply prints_quiet. intros c (H1 & H2 & Hl & Hw). eexists. split; [reflexivity|]. by split_and!.
Qed.

Lemma fbprint_quiet ps : prints (λ _, fbprint ps) ready ready [].
Proof.
  apply (fb_locking (λ _, fb_write_fmt ps)).
  set (I := serial_is COM1 false (screen_is true)).
  assert (prints (λ _, for_all ps (λ p, fb_write_str (render p))) I I (ps ≫= λ _ : piece, @nil Z)) as H.
  { apply (prints_all ps (λ _ p, fb_write_str (render p))). intros p.
    apply (fb_locked_quiet (Framebuffer.write_str (render p))).
    intros w Hw. destruct (draw_string_ok (render p) w Hw) as (w' & E & Hok & _). by exists w'. }
  assert (ps ≫= (λ _ : piece, @nil Z) = []) as En by (clear; induction ps as [|p ps IH]; [done|exact IH]).
  rewrite En in H.
  intros c Hc. destruct (H c Hc) as (c' & f0 & R & J & C). exists c', f0. split_and!; [|done|done].
  intros fuel Hf. unfold fb_write_fmt. destruct Hc as (_ & _ & _ & w & -> & _). by apply (R fuel).
Qed.

Lemma fbprintln_quiet ps : prints (λ _, fbprintln ps) ready ready [].
Proof. apply fbprint_quiet. Qed.

Lemma print_banner_quiet : prints (λ _, print_banner) ready ready [].
Proof.
  apply (fb_locking (λ _ c, match FRAMEBUFFER c with None => Panicked UNWRAP_NONE c | Some w => on_screen (draw_banner w) c end)).
  apply fb_locked_quiet. intros w Hw. destruct (fb_run_ok Banner w Hw) as (w' & E & Hok & _). by exists w'.
Qed.

(** ** The messages of [_start] *)

Lemma prints_eq f I J t t' : prints f I J t → t = t' → prints f I J t'.
Proof. by intros H <-. Qed.

Section start_facts.
Context (device : Z → nat → Z) (Hdrains : drains device).

Ltac print_steps :=
  first [ eapply prints_seq; [print_steps|print_steps]
        | apply (sprintln_prints device Hdrains)
        | apply (sprint_debug_prints device Hdrains)
        | apply fbprintln_quiet
        | apply print_banner_quiet
        | apply prints_skip ].

(** Both locks free, whatever writers there are. *)
Definition unlocked (_ : option FramebufferWriter) (l : bool) : Prop := l = false.

Lemma start_serial_prints :
  prints (start_serial device) (serial_is None false unlocked) (serial_is COM1 false unlocked)
    (line "[INFO] Initialized higher-half kernel" ++ line "[INFO] Serial initialized successfully").
Proof.
  apply (prints_seq (λ fuel, raw_sprint device fuel (line "[INFO] Initialized higher-half kernel")) _ _ (serial_is None false unlocked));
    [by apply raw_prints|].
  apply (prints_seq (λ _, lock_serial) _ _ (serial_is None true unlocked) _ [] _ (lock_serial_quiet _ _)).
  apply (prints_seq (λ _ c, Ran (set_SERIAL COM1 c)) _ _ (serial_is COM1 true unlocked) _ []).
  { apply prints_quiet. intros c (H1 & H2 & HF). eexists. split; [reflexivity|]. by split_and!. }
  apply (prints_seq (λ _, unlock_serial) _ _ (serial_is COM1 false unlocked) _ [] _ (unlock_serial_quiet _ _)). print_steps.
Qed.

Definition topology_text (t : CpuTopology) (n : Z) (cs : list CpuInfo) : list Z :=
  (text [Lit "[INFO] CPU topology from ACPI MADT:"] ++ [10]) ++
  (text [Lit "[INFO]   BSP APIC ID (bootloader CPUID): "; Dec (bsp_apic_id t)] ++ [10]) ++
  (text [Lit "[INFO]   Total CPUs in MADT: "; Dec (cpu_count t)] ++ [10]) ++
  (text [Lit "[INFO]   Usable CPUs (enabled or online-capable): "; Dec n] ++ [10]) ++
  (cs ≫= λ cpu, text (cpu_line t cpu) ++ [10]) ++ [].

Lemma print_topology_prints t n cs b F :
  get_usable_cpu_count t = Done n → iter t = Done cs → bsp t = Done (Some b) →
  prints (λ fuel, print_topology device fuel t) (serial_is COM1 false F) (serial_is COM1 false F) (topology_text t n cs).
Proof.
  intros Hn Hcs Hb. unfold print_topology, topology_text. rewrite Hn, Hcs, Hb. unfold with_value.
  do 4 (eapply prints_seq; [apply (sprintln_prints device Hdrains)|]).
  eapply prints_seq; [|apply prints_skip].
  apply (prints_all cs (λ fuel cpu, sprintln device fuel (cpu_line t cpu))). intros cpu. apply (sprintln_prints device Hdrains).
Qed.

Lemma start_screen_prints w h : screen w h →
  prints (λ fuel, start_screen device fuel w h) (serial_is COM1 false unlocked) ready (line "[INFO] Graphics initialized successfully").
Proof.
  intros Hs. unfold start_screen.
  apply (prints_seq (λ _, lock_fb) _ _ (serial_is COM1 false (λ _ l, l = true)) _ []).
  { apply prints_quiet. intros c (H1 & H2 & HF). unfold unlocked in HF. unfold lock_fb. rewrite HF. eexists. split; [reflexivity|]. by split_and!. }
  apply (prints_seq (λ _ c, Ran (set_FRAMEBUFFER (Some (clear_screen (FramebufferWriter_new ∅ w h))) c)) _ _
    (serial_is COM1 false (screen_is true)) _ []).
  { apply prints_quiet. intros c (H1 & H2 & HF). eexists. split; [reflexivity|]. split; [|done].
    split_and!; try done. split; [done|]. eexists. split; [reflexivity|].
    by apply clear_screen_ok, writer_new_ok. }
  apply (prints_seq (λ _, unlock_fb) _ _ ready _ []); [|unfold ready; print_steps].
  apply prints_quiet. intros c (H1 & H2 & Hl & Hw). eexists. split; [reflexivity|]. by split_and!.
Qed.

Definition device_text (ticks : Z) : list Z :=
  line "[INFO] Calibrated APIC timer" ++ (text [Lit "[INFO] APIC timer: "; Dec ticks; Lit " ticks/ms"] ++ [10]) ++ [].

Lemma device_messages_prints ticks : prints (λ fuel, device_messages device fuel ticks) ready ready (device_text ticks).
Proof. eapply prints_eq; [unfold device_messages; print_steps|reflexivity]. Qed.

Lemma print_fb_ptr_prints : prints (print_fb_ptr device) ready ready
  (text [Lit "Kernel framebuffer address is: 0x"; Hex false true 0 KERNEL_FRAMEBUFFER_VIRTUAL_BASE] ++ [10]).
Proof.
  apply (fb_locking (λ fuel c, match FRAMEBUFFER c with None => Ran c
    | Some _ => sprintln device fuel [Lit "Kernel framebuffer address is: 0x"; Hex false true 0 KERNEL_FRAMEBUFFER_VIRTUAL_BASE] c end)).
  intros c Hc. destruct (sprintln_prints device Hdrains [Lit "Kernel framebuffer address is: 0x";
    Hex false true 0 KERNEL_FRAMEBUFFER_VIRTUAL_BASE] (screen_is true) c Hc) as (c' & f0 & R & J & C).
  exists c', f0. split_and!; [|done|done]. intros fuel Hf. destruct Hc as (_ & _ & _ & w & -> & _). by apply R.
Qed.

Definition welcome_text : list Z :=
  line "[INFO] Initialized higher-half kernel" ++
  line "[+] Kernel higher-half virtual space initialization complete!" ++
  line "Kernel framebuffer address is: 0xFFFF900000000000".

Definition keyboard_text : list Z := line "[*] Testing keyboard interrupts. Type some stuff...".

Lemma welcome_prints : prints (welcome device) ready ready welcome_text.
Proof.
  eapply prints_eq; [unfold welcome|].
  - do 8 (eapply prints_seq; [print_steps|]). eapply prints_seq; [apply print_fb_ptr_prints|].
    intros c Hc. exact (fbprintln_quiet _ c Hc).
  - vm_compute. reflexivity.
Qed.

Lemma keyboard_message_prints : prints (keyboard_message device) ready ready keyboard_text.
Proof. eapply prints_eq; [unfold keyboard_message; print_steps|reflexivity]. Qed.

(** The console during start-up: everything [_start] prints goes out in order,
    no message below the global debug level among it, the screen is written
    inside its memory only, and both locks are free at the end. *)
Theorem start_console_prints t n cs b w h ticks c :
  SERIAL c = None → serial_locked c = false → fb_locked c = false → screen w h →
  get_usable_cpu_count t = Done n → iter t = Done cs → bsp t = Done (Some b) →
  ∃ c' fuel0, (∀ fuel, (fuel0 ≤ fuel)%nat → start_console device fuel t w h ticks c = Ran c') ∧
    continues (ports c) (ports c')
      ((line "[INFO] Initialized higher-half kernel" ++ line "[INFO] Serial initialized successfully") ++
       topology_text t n cs ++ line "[INFO] Graphics initialized successfully" ++ device_text ticks ++ welcome_text ++ keyboard_text) ∧
    SERIAL c' = COM1 ∧ serial_locked c' = false ∧ fb_locked c' = false ∧
    ∃ fb, FRAMEBUFFER c' = Some fb ∧ writer_ok fb.
Proof.
  intros H1 H2 H3 Hs Hn Hcs Hb.
  pose proof (prints_seq _ _ _ _ _ _ _ start_serial_prints
    (prints_seq _ _ _ _ _ _ _ (print_topology_prints t n cs b unlocked Hn Hcs Hb)
    (prints_seq _ _ _ _ _ _ _ (start_screen_prints w h Hs)
    (prints_seq _ _ _ _ _ _ _ (device_messages_prints ticks)
    (prints_seq _ _ _ _ _ _ _ welcome_prints keyboard_message_prints))))) as H.
  destruct (H c) as (c' & f0 & R & (J1 & J2 & J3 & J4) & C); [by split_and!|].
  exists c', f0. by split_and!.
Qed.

(** ** The process listing *)

Lemma both_prints ps : prints (λ fuel, both device fuel ps) ready ready ((text ps ++ [10]) ++ []).
Proof. unfold both. print_steps. Qed.

Definition thread_text (th : Thread) : list Z :=
  text [Lit "    Thread "; Lit (th_name th); Lit " (ID: "; Dec (th_id th); Lit ", State: "; State (th_state th); Lit ")"] ++ [10].

Definition process_text (s : System) (proc : Process) : list Z :=
  (text [NL; Lit "========== PROCESS INFORMATION =========="] ++ [10]) ++
  (text [Lit "Process: "; Lit (p_name proc); Lit " (ID: "; Dec (p_id proc); Lit ", PML4: "; Hex true true 0 (pml4_phys proc); Lit ")"] ++ [10]) ++
  (text [Lit "Threads: "; Dec (Z.of_nat (length (p_threads proc)))] ++ [10]) ++
  (p_threads proc ≫= λ w, from_option thread_text [] (k_threads (s_kernel s) !! w)).

(** [print_processes] lists every process of the manager with its threads, on
    both devices, and leaves the console as it found it. *)
Theorem print_processes_prints s :
  prints (λ fuel, print_processes device fuel s) ready ready
    (s_manager s ≫= λ p, from_option (process_text s) [] (s_processes s !! p)).
Proof.
  assert (∀ ps, prints (λ fuel, both device fuel ps) ready ready (text ps ++ [10])) as B.
  { intros ps. pose proof (both_prints ps) as H. by rewrite app_nil_r in H. }
  apply (prints_all (s_manager s) (λ fuel p, match s_processes s !! p with Some proc => print_process device fuel s proc | None => skip end)).
  intros p. destruct (s_processes s !! p) as [proc|]; [cbn [from_option]|apply prints_skip].
  unfold print_process, process_text. do 3 (eapply prints_seq; [apply B|]).
  apply (prints_all (p_threads proc) (λ fuel w, match k_threads (s_kernel s) !! w with Some th => print_thread device fuel th | None => skip end)).
  intros w. destruct (k_threads (s_kernel s) !! w) as [th|]; [apply B|apply prints_skip].
Qed.
End start_facts.
