(* ===== verification/KernelStart.v ===== *)
(** * KernelStart.v: [_start], all of it

    [_start] in [main.rs] composed from its parts: [Boot.v] up to the heap,
    [Devices.v] up to the interrupt controllers, [Startup.v] up to [sti], which
    goes on with the heap and the page tables [Boot.v] left, in one memory. *)

From S2P Require Import Prelude Machine Bytes Pmm Vmm HigherHalf MemoryManager KernelHeap SharedSpace Acpi Apic Serial Framebuffer Rng Gdt Idt Devices Boot Task Queues SleepQueue Scheduler SchedulerInv Process Startup.

Local Open Scope Z_scope.

(** ** Data and operations *)

(** Where the linker put the statics the processor reads. *)
Record Linked := mk_Linked {
  df_at : Z → Z; tss_at : Z → Z; gdt_at : Z → Z; stub_at : stub → Z; idt_at : Z
}.

(** What the hardware shows while the kernel starts. *)
Record Environment := mk_Environment {
  env_apic : Apic; env_hpet_reads : nat → Z; env_apic_count : Z; env_entropy : Hw
}.

(** The kernel when the idle loop is entered. *)
Record Running := mk_Running {
  r_booted : Booted; r_topology : option CpuTopology; r_heap : KernelHeap; r_devices : Devices; r_system : System
}.

Section kernel_start.
Context (kstart kend efer : Z) (lk : Linked) (env : Environment) (lays : Layouts) (img : Image) (cpu : Z) (u : Cpu).

(** [None] is a halt on a bad boot structure. *)
Definition kernel_start (fuel : nat) (r : DescriptorRegs) (boot_info : option BootInfo) (m hm : mem) (ports : Serial.io)
    : outcome (option Running * Serial.io) :=
  '(started, ports) ← start kstart kend efer r boot_info m ports;
  match boot_info, started with
  | Some info, Started b =>
      '(topology, heap, hm, manager, m) ← start_heap b hm;
      let framebuffer := framebuffer_info info in
      devices ← start_devices (df_at lk) (tss_at lk) (gdt_at lk) (stub_at lk) (idt_at lk) cpu fuel (b_apic b) (b_hpet b)
        (framebuffer_width framebuffer) (framebuffer_height framebuffer) (env_apic env) (env_hpet_reads env)
        (env_apic_count env) (env_entropy env);
      '(s, heap) ← start_processes lays img (b_cr3 b) (boot_system u (joined m hm) manager, heap);
      Done (Some (mk_Running b topology heap devices s), ports)
  | _, _ => Done (None, ports)
  end.
End kernel_start.

(** ** Facts *)

(** What [Boot.v] leaves is what [Startup.v] needs. *)
Lemma heap_ready kstart kend fb mm m root manager m' free heap hm manager' pm :
  memory_started kstart kend fb mm m root manager m' free → (560 ≤ length (reclaimed_pages kstart kend fb mm m))%nat →
  heap_inv heap hm [(KERNEL_HEAP_BASE, 0x10000)] [] → same_range (set_committed heap_at_boot 0x10000) heap →
  grown heap_at_boot manager m' root free HEAP_FIRST_PAGES HEAP_FIRST_PAGES (manager', pm) →
  ∃ l, heaped heap manager' (joined pm hm) root l [(KERNEL_HEAP_BASE, 0x10000)] [] START_ALLOCATIONS ∧
    ∀ j, 0 ≤ j < 256 → pt_entry (joined pm hm) root [] j = None.
Proof.
  intros Hms Hlen Hi Hs Hg.
  assert (Hn : (Z.to_nat HEAP_FIRST_PAGES + 3 ≤ length (reclaimed_pages kstart kend fb mm m))%nat) by (change (Z.to_nat HEAP_FIRST_PAGES) with 16%nat; lia).
  pose proof (boot_heap_grows _ _ _ _ _ _ _ _ _ Hms Hn) as [_ _ _ Hp _].
  apply (heap_started heap_at_boot manager m' root free HEAP_FIRST_PAGES heap hm manager' pm); try assumption; try done.
  - destruct (ms_free _ _ _ _ _ _ _ _ _ Hms) as (left & -> & _). rewrite length_app.
    pose proof (need_le m' root (heap_tables heap_at_boot HEAP_FIRST_PAGES)) as Hneed. rewrite heap_tables_at_boot in Hneed.
    change (Z.to_nat HEAP_FIRST_PAGES) with 16%nat. unfold ALLOC_FRAMES, START_ALLOCATIONS. lia.
  - intros j Hj. pose proof (ms_low _ _ _ _ _ _ _ _ _ Hms j Hj) as Hlow. rewrite walk_top in Hlow.
    destruct (pt_entry m' root [] j); [discriminate Hlow|done].
Qed.

(** ** The property *)


(** The small machine of [Boot.v], with the devices of [Devices.v]. *)
Definition demo_linked : Linked :=
  mk_Linked (λ c, 0x100000 + 0x4000 * c) (λ c, 0x200000 + 104 * c) (λ c, 0x300000 + 56 * c) (λ _, 0x9000) 0xA000.
Definition demo_environment : Environment :=
  mk_Environment (Apic_static (demo_machine 24)) (counter 64 (λ i, 1000005 * Z.of_nat i)) (0xFFFFFFFF - 630000) (demo_hw (λ _, 7)).

